(* ===== verification/_CoqProject ===== *)
-Q . S2P
Prelude.v
Endian.v
Buffer.v
StdMap.v
Cstd.v
StringPiece.v
Double.v
Mutex.v
Thread.v
CurrentThread.v
Singletons.v
ReadSmallFile.v
ProcessInfo.v
InetAddress.v
HttpRequest.v
HttpContext.v
Date.v
Timestamp.v
TimeZone.v
TimerQueue.v
Channel.v
EPollPoller.v
PollPoller.v
DefaultPoller.v
EventLoop.v
LoopTimers.v
TcpConnection.v
HttpResponse.v
HttpServer.v
HttpTypes.v
HttpClient.v
Inspector.v
ProcessInspector.v
Procmon.v
Plot.v
Connector.v
EventLoopThread.v
EventLoopThreadPool.v
TcpServer.v
AcceptorChannel.v
Callbacks.v
HttpService.v
SocketsOps.v
ServerTeardown.v
TcpClient.v
LogStream.v
PerformanceInspector.v
Logging.v
MemcacheServer.v
MemcacheSessions.v
Session.v
LogFile.v
AsyncLogging.v
Stat.v
BlockingQueue.v
ThreadPool.v
PoolWorkers.v
Sudoku.v
SudokuLinks.v
SudokuSearch.v
SudokuTable.v
SudokuSolve.v
SudokuServer.v
SudokuClient.v
SudokuMain.v
Percentile.v
Dummyload.v
LoadThreads.v
