(* ===== verification/Prelude.v ===== *)
(** * cnet: a verification library

    cnet is a C++ network library in the reactor style (an event loop per
    thread, non-blocking sockets, callbacks), with an HTTP server on it and
    example programs, among them a memcached server and sudoku servers.  This
    library models its logic in Rocq, function by function, and proves what each
    part promises.

    ** The program's parts, and the files that model them

    Foundations (src/cnet/base).
    - Prelude: the outcomes of a C++ statement ([res]: a value, or an exit of
      the kinds of [err]), machine integers, byte strings, tactics and hints.
    - Cstd: the functions of the C library the code calls ([isspace],
      [snprintf]'s conversions, [atoi], [strtol]).  Double: [double] and [%.3f].
      StdMap: [std::map] and [std::set].  StringPiece: pieces of strings.
    - Mutex: the mutex with its holder, the condition with its timed wait.
      Thread: the life of a thread and what it runs; atomic integers.
      CurrentThread: the cached number and name of the running thread, across
      forks.
      Singletons: the objects of the process and of the threads; the weak
      callback.
    - Date, Timestamp, TimeZone: the calendar, microseconds, zone files.
    - LogStream: the fixed buffer and the operators [<<].
    - Logging: log statements, from the macro to the line that is output.
    - LogFile: FileUtil's AppendFile and the rolling log over it.
    - ReadSmallFile: the reader of FileUtil.  ProcessInfo: what /proc says.
    - AsyncLogging: the exchange of buffers between the threads that log and
      the one that writes.  What it asks of a log file is the class [LogOutput];
      LogFile is an instance.
    - BlockingQueue: the two blocking queues and the latch, as monitors.  What a
      queue's critical sections promise is the class [QueueSpec]; both queues are
      instances.
    - ThreadPool: callers that queue tasks, workers that run them.  PoolWorkers:
      the threads of the workers, and tasks that throw.

    The reactor (src/cnet/net).
    - Endian, Buffer, InetAddress: byte order, the input and output buffer,
      addresses.
    - Channel: a descriptor and the events it asks for; the class [PollerOps] is
      what a channel asks of a poller.  EPollPoller and PollPoller are the two;
      DefaultPoller: the choice between them.
    - TimerQueue: timers, the timerfd, cancellation during callbacks.
    - EventLoop: [loop()] cut at the points where other threads may run; the
      functors queued by any thread; the wakeup counter.  LoopTimers: the loop
      and its timers together, with the threads that ask for timers.
    - EventLoopThread: a [Thread] with an [EventLoop], from [startLoop] to the
      destructor.
    - EventLoopThreadPool, TcpServer (with Acceptor): connections handed to the
      loops of a pool, registered, and removed across loops.  AcceptorChannel: the
      life of the acceptor, over any poller.  ServerTeardown: the destructor of the
      server.  SocketsOps: the system calls, with [errno].
      Callbacks: what an event of the server does to one connection and which
      callbacks it calls, for the programs over a server.
    - TcpConnection: the state machine of a connection, its buffers.
    - Connector: outgoing connections, retried with a growing delay.  TcpClient:
      the client over its connector and its connections.

    HTTP (src/cnet/net/http): HttpRequest (with the parser of URLs), HttpContext
    (the incremental parser, over Buffer), HttpResponse, HttpServer, HttpClient.
    HttpTypes: what holds of a request in each state of its parser.  HttpService:
    the HTTP server over the connections of TcpServer.

    The inspector (src/cnet/net/inspect): Inspector (the table of commands, over
    StdMap), ProcessInspector (the pages of both ProcessInspector.cc and
    SystemInspector.cc, and the constructor that registers them) and
    PerformanceInspector (the pages of a build with tcmalloc).

    Examples (src/examples): MemcacheServer (items and the sharded table),
    MemcacheSessions (the map of sessions, over TcpServer) and Session (the text
    protocol) of memcached/server; Stat (the
    statistics) and Sudoku (the solver) of sudoku.  The proofs about the solver are
    in SudokuLinks (rings of linked nodes, and loops along them), SudokuSearch
    (cover, uncover and the search, over any table of choices), SudokuTable (what
    the constructor builds) and SudokuSolve (its exact covers are the solutions).
    SudokuServer: the four sudoku servers, a module each over one line loop;
    SudokuClient: the batch client and the load test, against the servers;
    Percentile: the report of the load test; SudokuMain: the arguments and the
    start of the programs.
    Procmon and Plot: the process monitor and its chart.  Dummyload: the busy
    intervals of the load generator; LoadThreads: its calibration and threads.

    ** How the code is read

    A function of the source is a definition of the same name where Rocq allows
    it, in a file that has the name of the source file.  An object is a record
    with the source's fields; a method takes it and returns the new one.  A
    function that can fail returns a [res]: [EAssert] for a failed [assert],
    [EUndefined] where C++ leaves the behaviour undefined (an index outside, a
    null pointer, signed overflow), [EFatal] for a fatal log line.  So every
    theorem that says "= Ok" also says that no assertion fails and nothing is
    accessed outside.  Integers are [Z], wrapped or checked at their width where
    the code computes with them.

    What the operating system answers (what [read], [write], [accept], [connect],
    [fopen], [fwrite] return; the time) is an argument of the step that asks, and the
    theorems hold for all the answers, or for those the documentation of the call
    allows, stated as a hypothesis.  User callbacks are arguments too.

    Code of one thread is a function.  Where threads meet (EventLoop, LoopTimers,
    EventLoopThread, TcpServer, AsyncLogging, BlockingQueue, ThreadPool,
    PoolWorkers, LoadThreads) the steps are
    those a mutex or the loop makes atomic, and single accesses where shared
    fields have neither ([quit_]: [loop()]'s test of it and the assignment after
    are two steps), and the theorems are about every
    sequence of them: a step relation with [rtc], or a list of events.  That the
    mutex makes them so is the theorem of Mutex, whose own steps are finer.

    ** The theorems, by part

    - Containers of bytes.  [Buffer]: every public operation refines a queue of
      bytes, the searches and [swap] included; numbers come back as written.
      [LogStream]: items are kept whole or not at all, never outside the buffer;
      the conversions of integers read back.
    - Logs.  [Logging]: one line per enabled statement, with its time, although
      the thread formats a second only once, as long as lines fit and the zone
      stays.  [LogFile]: all lines, in order, each in one file: of each what
      [fwrite] took, all of it unless it failed; a file that cannot be opened
      stops the process.  [AsyncLogging]: the same through the exchange of
      buffers, except what is announced as dropped, lines that no buffer can
      hold, and what is pending at [stop].
    - Time.  Dates and Julian days are inverse; UTC conversions are inverse; a
      zone file is read back as it was written; the search of a zone finds the
      entry in force.
    - Polling.  [EPollPoller]: the kernel's interest list is what the channels
      ask for.  [PollPoller]: where its indices go wrong.  [DefaultPoller]: what
      the environment variable that chooses it changes.
    - The loop.  Functors run once each, in order; no wakeup is lost, though a
      [quit()] may be, at the start of [loop()].  Timers run
      when due, in order, and the timerfd is armed for the earliest, whichever
      thread asks for them ([LoopTimers]).  A loop's thread hands its loop over
      and ends, unless its destructor asks at that very moment
      ([EventLoopThread]).
    - Connections.  [TcpConnection]: the stream is neither lost, repeated nor
      reordered; up and down are reported once; a graceful shutdown sends all.
      [TcpServer]: registered under unique names, destroyed once, at the end of the
      server too.  [AcceptorChannel]: an acceptor that is destroyed is watched by
      nobody.  [SocketsOps]: which errors end the process.  [Connector]: no
      socket leaks, and when an assertion may fail.  [TcpClient]: the same of a
      client, through its destruction; [connect] on a busy connector is what
      fails an assertion.
    - HTTP.  The parse does not depend on how the stream is cut; requests and
      responses that are printed are read back; what the server answers.
      [HttpTypes]: the callback is only given well-formed requests.
      [HttpService]: with any number of connections, interleaved in any way, each
      is served as if it were alone, until a peer whose request line was refused
      sends more and stops the process.  [HttpClient]: a whole exchange, over two
      connections.
    - The inspector is one map from commands to callbacks; its parsers of /proc
      read what the kernel prints, except names with a parenthesis.  [Procmon]:
      the samples are the differences of what the kernel counted, the last three
      hundred of them, while no name has a parenthesis.  [Plot]: the lines of the chart are joined and stay
      between the margins.  [ReadSmallFile]: the beginning of the file, however it
      is read.  [PerformanceInspector]: the histogram is never cut.  [Dummyload]:
      the busy intervals are as many as asked for, and spread.  [LoadThreads]: no
      thread sleeps through one, and the program ends if it was told to; the
      calibration ends.
    - memcached.  The sharded table is one map; a session does not depend on how
      its input is cut, while less than a kilobyte waits; a value set is the value
      got; the map of sessions holds
      exactly the open connections ([MemcacheSessions]).
    - Threads.  [Mutex]: it excludes, and knows its holder.  [Thread]: joined or
      detached once.  [CurrentThread]: the cached number is one's own, in the
      child of a fork too.  [Singletons]: one object, the same for all.  [BlockingQueue]: first in, first out, bounded, no thread left
      asleep that could go on.  [ThreadPool]: the same of tasks and workers, and
      what [stop] leaves behind.  [PoolWorkers]: a task that throws ends its
      worker, and what becomes of the others.
    - Sudoku.  The solver prints a solution of a puzzle exactly when there is one,
      always returns, and leaves its store as it was when it fails: uncovering is
      the exact inverse of covering.  The statistics are those of the history;
      percentiles are nearest ranks.  The servers answer each request once,
      rightly; a batch client is told of all answers; the load test matches
      answers to requests; [Percentile]: its reports tell the figures rightly, as
      long as their sum fits; [SudokuMain]: the servers start with the threads
      they are told to, or not at all.

    Defects that the proofs met are theorems (or remarks in the comments) of
    their own: they state what the code does.

    ** Fuel

    Loops whose number of turns is not structural take fuel and fail with
    [EFuel], and each has a theorem, or is used under one, that says how much is
    enough: the parser of requests one turn per byte and one more
    ([HttpContext]), a session one turn per byte ([Session]), the conversions of
    integers one per digit ([LogStream]), the binary search the length of the
    range ([TimeZone]), the loops along rings of the solver the size of its array
    and its recursion one more than the empty cells ([SudokuSolve]), the
    calibration sixty-six turns ([LoadThreads]).  No theorem has a run out of fuel as an excuse.

    ** Not modelled

    - [read], [write], [readv] and [connect] of SocketsOps, which only pass on;
      the text of exceptions' stacks; compressed files
      (zlib).
    - Accessors, and setters of callbacks, which only return or store a field: most
      of what the headers hold besides.
    - The image library under the chart of procmon, and the heights of its lines
      for any samples; word count (a hash function); the main functions of the
      memcached server and of procmon, which parse options with a library and
      start the loop.  The unit tests.
    - Memory exhaustion, and the order of destruction of objects. *)

From Stdlib Require Export ZArith Lia.
From Stdlib Require Import Strings.Byte.
From Stdlib Require Strings.String.
From stdpp Require Export base list option sets.
From stdpp Require Import countable gmap.

Export Corelib.Init.Byte(byte(..)).
Export Strings.String.StringSyntax.

#[export] Set Default Proof Using "Type".

Open Scope Z_scope.

(** ** Outcomes

    A C++ statement either completes, or leaves through one of the exits the
    code has: a failed [assert], an exception of the standard library, a read
    or write outside an object.  [EFuel] is the model's own: a loop that has
    not finished within the given number of turns. *)

Inductive err : Set :=
| EAssert                (* assert(...) failed: the process aborts *)
| ELength                (* std::length_error from a vector or string *)
| EUndefined             (* access outside an object, null dereference *)
| EException             (* logic_error thrown by the code itself *)
| EFatal                 (* LOG_FATAL / LOG_SYSFATAL: the process aborts *)
| EFuel.                 (* the loop has not finished *)

Inductive res (A : Type) : Type :=
| Ok (a : A)
| Err (e : err).
Arguments Ok {A} a.
Arguments Err {A} e.

#[export] Instance err_eq_dec : EqDecision err.
Proof. solve_decision. Defined.

Definition res_bind {A B} (m : res A) (f : A -> res B) : res B :=
  match m with
  | Ok a => f a
  | Err e => Err e
  end.

(** [assert(c);] in a build without NDEBUG. *)
Definition assert_ (c : bool) : res unit :=
  if c then Ok tt else Err EAssert.

Declare Scope cnet_scope.
Delimit Scope cnet_scope with cnet.
Notation "'let*' x ':=' m 'in' k" := (res_bind m (fun x => k))
  (at level 10, x pattern, m at level 100, k at level 200,
   format "'[v' 'let*'  x  ':='  m  'in' '/' k ']'") : cnet_scope.
Notation "'assert!' c ';' k" := (res_bind (assert_ c) (fun _ => k))
  (at level 10, c at level 100, k at level 200,
   format "'[v' 'assert!'  c ';' '/' k ']'") : cnet_scope.
Open Scope cnet_scope.

Definition is_ok {A} (m : res A) : bool :=
  match m with Ok _ => true | Err _ => false end.

Lemma res_bind_Ok {A B} (m : res A) (f : A -> res B) b :
  res_bind m f = Ok b <-> exists a, m = Ok a /\ f a = Ok b.
Proof.
  destruct m as [a|e]; simpl; split.
  - intros H. exists a. auto.
  - intros (a' & [= ->] & H). exact H.
  - discriminate.
  - intros (a' & H & _). discriminate.
Qed.

Lemma res_bind_assoc {A B C} (m : res A) (f : A -> res B) (g : B -> res C) :
  res_bind (res_bind m f) g = res_bind m (fun a => res_bind (f a) g).
Proof. destruct m; reflexivity. Qed.

Lemma assert_true c : c = true -> assert_ c = Ok tt.
Proof. intros ->. reflexivity. Qed.

Lemma assert_Ok c : assert_ c = Ok tt <-> c = true.
Proof. destruct c; simpl; split; congruence. Qed.

(** A monadic left fold: the loop [for (x : l) s = f(s, x);] whose body may
    leave the function. *)
Fixpoint res_foldl {A S} (f : S -> A -> res S) (s : S) (l : list A) : res S :=
  match l with
  | [] => Ok s
  | x :: l' => let* s' := f s x in res_foldl f s' l'
  end.

Lemma res_foldl_app {A S} (f : S -> A -> res S) s l1 l2 :
  res_foldl f s (l1 ++ l2) = let* s' := res_foldl f s l1 in res_foldl f s' l2.
Proof.
  revert s. induction l1 as [|x l1 IH]; intros s; simpl; [reflexivity|].
  destruct (f s x); simpl; auto.
Qed.

(** ** Bytes and character strings *)

Abbreviation bytes := (list byte).

#[export] Instance byte_eq_dec : EqDecision byte := Byte.byte_eq_dec.

#[export] Instance byte_countable : Countable byte.
Proof.
  refine (inj_countable Byte.to_N Byte.of_N _).
  intros x. apply Byte.of_to_N.
Defined.

(** A C string literal as its characters, without the terminating NUL. *)
Definition bs (s : String.string) : bytes := String.list_byte_of_string s.
Arguments bs s%_string_scope.

Definition CR : byte := x0d.
Definition LF : byte := x0a.
Definition SP : byte := x20.
Definition CRLF : bytes := [CR; LF].

Definition byte_Z (b : byte) : Z := Z.of_N (Byte.to_N b).
(** The low eight bits of an integer, as a byte. *)
Definition Z_byte (z : Z) : byte :=
  match Byte.of_N (Z.to_N (z mod 256)) with
  | Some b => b
  | None => x00
  end.

Definition byte_eqb (a b : byte) : bool := bool_decide (a = b).
Definition bytes_eqb (a b : bytes) : bool := bool_decide (a = b).

Lemma byte_Z_range b : 0 <= byte_Z b < 256.
Proof. unfold byte_Z. pose proof (Byte.to_N_bounded b). lia. Qed.

Lemma Z_byte_Z b : Z_byte (byte_Z b) = b.
Proof.
  unfold Z_byte, byte_Z. rewrite Z.mod_small by apply byte_Z_range.
  rewrite N2Z.id, Byte.of_to_N. reflexivity.
Qed.

Lemma byte_Z_byte z : byte_Z (Z_byte z) = z mod 256.
Proof.
  unfold Z_byte, byte_Z.
  assert (Hz : 0 <= z mod 256 < 256) by (apply Z.mod_pos_bound; lia).
  destruct (Byte.of_N (Z.to_N (z mod 256))) as [b|] eqn:E.
  - apply Byte.to_of_N in E. rewrite E. lia.
  - apply Byte.of_N_None_iff in E. lia.
Qed.

Lemma byte_Z_inj a b : byte_Z a = byte_Z b -> a = b.
Proof. intros H. rewrite <-(Z_byte_Z a), <-(Z_byte_Z b), H. reflexivity. Qed.

(** ** Machine integers: the value kept in a w-bit variable *)

Definition u8 (z : Z) : Z := z mod 2 ^ 8.
Definition u16 (z : Z) : Z := z mod 2 ^ 16.
Definition u32 (z : Z) : Z := z mod 2 ^ 32.
Definition u64 (z : Z) : Z := z mod 2 ^ 64.
Definition to_signed (w z : Z) : Z :=
  (z + 2 ^ (w - 1)) mod 2 ^ w - 2 ^ (w - 1).
Definition s8 (z : Z) : Z := to_signed 8 z.
Definition s16 (z : Z) : Z := to_signed 16 z.
Definition s32 (z : Z) : Z := to_signed 32 z.
Definition s64 (z : Z) : Z := to_signed 64 z.

(** PTRDIFF_MAX: the largest size of a vector or string on the 64-bit targets
    of the build. *)
Definition MAX_SIZE : Z := 2 ^ 63 - 1.

Lemma u64_small z : 0 <= z < 2 ^ 64 -> u64 z = z.
Proof. apply Z.mod_small. Qed.

Lemma to_signed_small w z :
  0 < w -> - 2 ^ (w - 1) <= z < 2 ^ (w - 1) -> to_signed w z = z.
Proof.
  intros Hw Hz. unfold to_signed.
  assert (2 ^ w = 2 * 2 ^ (w - 1)) as E.
  { rewrite <-Z.pow_succ_r by lia. f_equal. lia. }
  rewrite Z.mod_small by lia. lia.
Qed.

Lemma s32_small z : - 2 ^ 31 <= z < 2 ^ 31 -> s32 z = z.
Proof. intros H. apply to_signed_small; lia. Qed.

Lemma s64_small z : - 2 ^ 63 <= z < 2 ^ 63 -> s64 z = z.
Proof. intros H. apply to_signed_small; lia. Qed.

(** ** Lists addressed by integers *)

Definition zlen {A} (l : list A) : Z := Z.of_nat (length l).
Definition ztake {A} (n : Z) (l : list A) : list A := take (Z.to_nat n) l.
Definition zdrop {A} (n : Z) (l : list A) : list A := drop (Z.to_nat n) l.

(** The [n] elements from index [i]: the range [l+i, l+i+n). *)
Definition zslice {A} (i n : Z) (l : list A) : list A := ztake n (zdrop i l).

(** [std::copy(src.begin(), src.end(), l + i)]: overwrites in place. *)
Definition zblit {A} (i : Z) (src l : list A) : list A :=
  ztake i l ++ src ++ zdrop (i + zlen src) l.

(** [std::vector::resize]: cut, or extended with [d]. *)
Definition zresize {A} (d : A) (n : Z) (l : list A) : list A :=
  ztake n l ++ replicate (Z.to_nat (n - zlen l)) d.

Lemma zlen_nonneg {A} (l : list A) : 0 <= zlen l.
Proof. unfold zlen. lia. Qed.
Lemma zlen_nil {A} : zlen (@nil A) = 0.
Proof. reflexivity. Qed.
Lemma zlen_cons {A} (x : A) l : zlen (x :: l) = 1 + zlen l.
Proof. unfold zlen. simpl. lia. Qed.
Lemma zlen_app {A} (l1 l2 : list A) : zlen (l1 ++ l2) = zlen l1 + zlen l2.
Proof. unfold zlen. rewrite length_app. lia. Qed.
Lemma zlen_ztake {A} n (l : list A) : zlen (ztake n l) = Z.min (Z.max 0 n) (zlen l).
Proof. unfold zlen, ztake. rewrite length_take. lia. Qed.
Lemma zlen_zdrop {A} n (l : list A) : zlen (zdrop n l) = Z.max 0 (zlen l - Z.max 0 n).
Proof. unfold zlen, zdrop. rewrite length_drop. lia. Qed.
Lemma zlen_zresize {A} (d : A) n l : 0 <= n -> zlen (zresize d n l) = n.
Proof.
  intros Hn. unfold zresize. rewrite zlen_app, zlen_ztake.
  unfold zlen. rewrite length_replicate. lia.
Qed.
Lemma zlen_replicate {A} n (x : A) : zlen (replicate n x) = Z.of_nat n.
Proof. unfold zlen. rewrite length_replicate. reflexivity. Qed.
Lemma zlen_zslice {A} i n (l : list A) :
  zlen (zslice i n l) = Z.min (Z.max 0 n) (Z.max 0 (zlen l - Z.max 0 i)).
Proof. unfold zslice. rewrite zlen_ztake, zlen_zdrop. reflexivity. Qed.
Lemma zlen_zblit {A} i (src l : list A) :
  0 <= i -> i + zlen src <= zlen l -> zlen (zblit i src l) = zlen l.
Proof.
  intros Hi Hl. unfold zblit. pose proof (zlen_nonneg src).
  rewrite !zlen_app, zlen_ztake, zlen_zdrop. lia.
Qed.
Lemma zlen_0_nil {A} (l : list A) : zlen l = 0 -> l = [].
Proof. destruct l; [reflexivity|]. rewrite zlen_cons. pose proof (zlen_nonneg l). lia. Qed.

Lemma ztake_app {A} n (l1 l2 : list A) :
  ztake n (l1 ++ l2) = ztake n l1 ++ ztake (n - zlen l1) l2.
Proof.
  unfold ztake, zlen. rewrite take_app. do 2 f_equal. lia.
Qed.
Lemma zdrop_app {A} n (l1 l2 : list A) :
  zdrop n (l1 ++ l2) = zdrop n l1 ++ zdrop (n - zlen l1) l2.
Proof.
  unfold zdrop, zlen. rewrite drop_app. do 2 f_equal. lia.
Qed.
Lemma ztake_ge {A} n (l : list A) : zlen l <= n -> ztake n l = l.
Proof. unfold ztake, zlen. intros H. apply take_ge. lia. Qed.
Lemma ztake_nonpos {A} n (l : list A) : n <= 0 -> ztake n l = [].
Proof. unfold ztake. intros H. replace (Z.to_nat n) with 0%nat by lia. reflexivity. Qed.
Lemma zdrop_ge {A} n (l : list A) : zlen l <= n -> zdrop n l = [].
Proof. unfold zdrop, zlen. intros H. apply drop_ge. lia. Qed.
Lemma zdrop_nonpos {A} n (l : list A) : n <= 0 -> zdrop n l = l.
Proof. unfold zdrop. intros H. replace (Z.to_nat n) with 0%nat by lia. reflexivity. Qed.
Lemma ztake_zdrop {A} n (l : list A) : ztake n l ++ zdrop n l = l.
Proof. apply take_drop. Qed.
Lemma zdrop_zdrop {A} i j (l : list A) :
  0 <= i -> 0 <= j -> zdrop i (zdrop j l) = zdrop (j + i) l.
Proof.
  intros Hi Hj. unfold zdrop. rewrite drop_drop. f_equal. lia.
Qed.
Lemma zdrop_ztake {A} i n (l : list A) :
  0 <= i -> zdrop i (ztake n l) = ztake (n - i) (zdrop i l).
Proof.
  intros Hi. unfold zdrop, ztake. rewrite skipn_firstn_comm. f_equal. lia.
Qed.
Lemma ztake_ztake {A} i j (l : list A) : ztake i (ztake j l) = ztake (Z.min i j) l.
Proof. unfold ztake. rewrite take_take. f_equal. lia. Qed.
Lemma ztake_app_exact {A} n (l1 l2 : list A) : n = zlen l1 -> ztake n (l1 ++ l2) = l1.
Proof.
  intros ->. rewrite ztake_app, ztake_ge, ztake_nonpos, app_nil_r by lia. reflexivity.
Qed.
Lemma zdrop_app_exact {A} n (l1 l2 : list A) : n = zlen l1 -> zdrop n (l1 ++ l2) = l2.
Proof.
  intros ->. rewrite zdrop_app, zdrop_ge, zdrop_nonpos by lia. reflexivity.
Qed.
Lemma zslice_app3 {A} i n (l1 l2 l3 : list A) :
  i = zlen l1 -> n = zlen l2 -> zslice i n (l1 ++ l2 ++ l3) = l2.
Proof.
  intros Hi Hn. unfold zslice. rewrite zdrop_app_exact by done.
  apply ztake_app_exact. done.
Qed.
Lemma zblit_app3 {A} i (src l1 l2 l3 : list A) :
  i = zlen l1 -> zlen src = zlen l2 -> zblit i src (l1 ++ l2 ++ l3) = l1 ++ src ++ l3.
Proof.
  intros Hi Hs. unfold zblit. rewrite ztake_app_exact by done. do 2 f_equal.
  rewrite app_assoc. apply zdrop_app_exact. rewrite zlen_app. lia.
Qed.
(** Cutting a list at two positions. *)
Lemma zsplit3 {A} i j (l : list A) :
  0 <= i <= j -> j <= zlen l ->
  exists l1 l2 l3, l = l1 ++ l2 ++ l3 /\ zlen l1 = i /\ zlen l2 = j - i.
Proof.
  intros Hi Hj.
  exists (ztake i l), (ztake (j - i) (zdrop i l)), (zdrop (j - i) (zdrop i l)).
  rewrite !ztake_zdrop, !zlen_ztake, zlen_zdrop. repeat split; lia.
Qed.
Lemma zsplit {A} i (l : list A) :
  0 <= i <= zlen l -> exists l1 l2, l = l1 ++ l2 /\ zlen l1 = i.
Proof.
  intros Hi. exists (ztake i l), (zdrop i l).
  rewrite ztake_zdrop, zlen_ztake. split; [reflexivity|lia].
Qed.
Lemma zlen_zdrop_le {A} n (l : list A) : 0 <= n <= zlen l -> zlen (zdrop n l) = zlen l - n.
Proof. rewrite zlen_zdrop. lia. Qed.

Create Rewrite HintDb zlen.
#[export] Hint Rewrite @zlen_nil @zlen_cons @zlen_app @zlen_ztake @zlen_zdrop
  @zlen_zslice @zlen_replicate : zlen.

(** [zlia]: normalises list lengths, then linear arithmetic. *)
Ltac zlen_pos :=
  repeat match goal with
  | |- context [zlen ?l] =>
      lazymatch goal with
      | _ : 0 <= zlen l |- _ => fail
      | _ => pose proof (zlen_nonneg l)
      end
  | _ : context [zlen ?l] |- _ =>
      lazymatch goal with
      | _ : 0 <= zlen l |- _ => fail
      | _ => pose proof (zlen_nonneg l)
      end
  end.
Ltac zlia := autorewrite with zlen in *; zlen_pos; lia.

(** Opens an equation [m = Ok _] on a sequence of binds. *)
Ltac inv_ok :=
  repeat match goal with
  | H : res_bind _ _ = Ok _ |- _ =>
      apply res_bind_Ok in H; destruct H as (? & ? & H)
  | H : assert_ _ = Ok _ |- _ => apply assert_Ok in H
  | H : Ok _ = Ok _ |- _ => injection H as H
  | H : Err _ = Ok _ |- _ => discriminate H
  end.

(** ** Searching: std::find, std::search, memchr

    Positions are counted from the beginning of the range; a search that finds
    nothing returns the end of the range, its length. *)

Fixpoint std_find (c : byte) (l : bytes) : nat :=
  match l with
  | [] => 0
  | x :: l' => if byte_eqb x c then 0 else S (std_find c l')
  end.

Fixpoint is_prefix (p l : bytes) : bool :=
  match p, l with
  | [], _ => true
  | _, [] => false
  | a :: p', b :: l' => byte_eqb a b && is_prefix p' l'
  end.

Fixpoint std_search (p l : bytes) : nat :=
  if is_prefix p l then 0%nat
  else match l with
       | [] => 0%nat
       | _ :: l' => S (std_search p l')
       end.

Lemma byte_eqb_true a b : byte_eqb a b = true <-> a = b.
Proof. unfold byte_eqb. apply bool_decide_eq_true. Qed.
Lemma byte_eqb_false a b : byte_eqb a b = false <-> a <> b.
Proof. unfold byte_eqb. apply bool_decide_eq_false. Qed.
Lemma byte_eqb_refl a : byte_eqb a a = true.
Proof. apply byte_eqb_true. reflexivity. Qed.
Lemma bytes_eqb_true a b : bytes_eqb a b = true <-> a = b.
Proof. unfold bytes_eqb. apply bool_decide_eq_true. Qed.
Lemma bytes_eqb_false a b : bytes_eqb a b = false <-> a <> b.
Proof. unfold bytes_eqb. apply bool_decide_eq_false. Qed.

Lemma std_find_le c l : (std_find c l <= length l)%nat.
Proof. induction l; simpl; [lia|]. destruct (byte_eqb _ _); lia. Qed.

(** The characters before the position found are not [c]. *)
Lemma std_find_app c l1 l2 :
  c ∉ l1 -> std_find c (l1 ++ (c :: l2)) = length l1.
Proof.
  induction l1 as [|x l1 IH]; simpl; intros Hc.
  - rewrite byte_eqb_refl. reflexivity.
  - rewrite not_elem_of_cons in Hc. destruct Hc as [Hx Hc].
    rewrite (proj2 (byte_eqb_false x c)) by congruence. f_equal. auto.
Qed.

Lemma std_find_none c l : c ∉ l -> std_find c l = length l.
Proof.
  induction l as [|x l IH]; simpl; intros Hc; [reflexivity|].
  rewrite not_elem_of_cons in Hc. destruct Hc as [Hx Hc].
  rewrite (proj2 (byte_eqb_false x c)) by congruence. f_equal. auto.
Qed.

Lemma std_find_spec c l :
  (std_find c l = length l /\ c ∉ l) \/
  exists l1 l2, l = l1 ++ (c :: l2) /\ c ∉ l1 /\ std_find c l = length l1.
Proof.
  induction l as [|x l IH].
  - left. split; [reflexivity|]. apply not_elem_of_nil.
  - simpl. destruct (byte_eqb x c) eqn:E.
    + apply byte_eqb_true in E as ->. right. exists [], l.
      split_and!; [reflexivity| apply not_elem_of_nil | reflexivity].
    + apply byte_eqb_false in E. destruct IH as [[-> Hn]|(l1 & l2 & -> & Hn & ->)].
      * left. split; [reflexivity|]. rewrite not_elem_of_cons. auto.
      * right. exists (x :: l1), l2. rewrite not_elem_of_cons. auto.
Qed.

Lemma is_prefix_true p l : is_prefix p l = true <-> exists k, l = p ++ k.
Proof.
  revert l. induction p as [|a p IH]; intros l; simpl.
  - split; [eauto|reflexivity].
  - destruct l as [|b l]; [split; [discriminate|]; intros [k [=]]|].
    rewrite andb_true_iff, byte_eqb_true, IH. split.
    + intros [-> [k ->]]. eauto.
    + intros [k [= -> ->]]. eauto.
Qed.

Lemma is_prefix_app p k : is_prefix p (p ++ k) = true.
Proof. apply is_prefix_true. eauto. Qed.

Lemma std_search_le p l : (std_search p l <= length l)%nat.
Proof. induction l; simpl; destruct (is_prefix _ _); lia. Qed.

(** Occurrences of a pattern: [l] has [p] at position [i]. *)
Definition occurs_at (p l : bytes) (i : nat) : Prop := is_prefix p (drop i l) = true.

Lemma occurs_at_app p l1 l2 : occurs_at p (l1 ++ p ++ l2) (length l1).
Proof. unfold occurs_at. rewrite drop_app_length. apply is_prefix_app. Qed.

Lemma occurs_at_split p l i :
  p <> [] -> occurs_at p l i -> exists l1 l2, l = l1 ++ p ++ l2 /\ length l1 = i.
Proof.
  intros Hp H. apply is_prefix_true in H as [k Hk].
  exists (take i l), k. split.
  - rewrite <-Hk. symmetry. apply take_drop.
  - rewrite length_take. apply (f_equal length) in Hk.
    rewrite length_drop, length_app in Hk.
    destruct p as [|a p]; [done|]. simpl in Hk. lia.
Qed.

Lemma occurs_at_mono p l k i : occurs_at p l i -> occurs_at p (l ++ k) i.
Proof.
  unfold occurs_at. rewrite !is_prefix_true. intros [x Hx].
  destruct (decide (i <= length l)%nat).
  - rewrite drop_app_le by lia. rewrite Hx. exists (x ++ k). rewrite app_assoc. done.
  - rewrite drop_ge in Hx by lia.
    symmetry in Hx. apply app_nil in Hx as [-> _]. simpl. eauto.
Qed.

Lemma occurs_at_inv p l k i :
  (i + length p <= length l)%nat -> occurs_at p (l ++ k) i -> occurs_at p l i.
Proof.
  unfold occurs_at. rewrite !is_prefix_true. intros Hi [x Hx].
  rewrite drop_app_le in Hx by lia.
  exists (drop (length p) (drop i l)).
  rewrite <-(take_drop (length p) (drop i l)) at 1. f_equal.
  apply (f_equal (take (length p))) in Hx.
  rewrite take_app_length, take_app_le in Hx by (rewrite length_drop; lia).
  done.
Qed.

Lemma std_search_found p l :
  (std_search p l < length l)%nat -> occurs_at p l (std_search p l).
Proof.
  unfold occurs_at. induction l as [|x l IH]; simpl.
  - destruct (is_prefix p []); simpl; lia.
  - destruct (is_prefix p (x :: l)) eqn:E; simpl; [auto|].
    intros H. apply IH. lia.
Qed.

Lemma std_search_first p l i : occurs_at p l i -> (std_search p l <= i)%nat.
Proof.
  unfold occurs_at. revert i. induction l as [|x l IH]; intros i H; simpl.
  - destruct p; simpl; lia.
  - destruct (is_prefix p (x :: l)) eqn:E; [lia|].
    destruct i as [|i]; simpl in H; [congruence|].
    apply IH in H. lia.
Qed.

Lemma std_search_end p l :
  p <> [] -> std_search p l = length l <-> forall i, ~ occurs_at p l i.
Proof.
  intros Hp. split.
  - intros H i Hi. pose proof (std_search_first p l i Hi).
    destruct (occurs_at_split p l i Hp Hi) as (l1 & l2 & -> & Hl).
    destruct p as [|a p]; [done|]. rewrite !length_app in H. cbn [length] in H. lia.
  - intros H. pose proof (std_search_le p l).
    destruct (decide (std_search p l < length l)%nat) as [Hlt|]; [|lia].
    destruct (H _ (std_search_found p l Hlt)).
Qed.

(** A match that is already complete does not move when more data arrives. *)
Lemma std_search_app_found p l k :
  p <> [] -> (std_search p l < length l)%nat -> std_search p (l ++ k) = std_search p l.
Proof.
  intros Hp H. apply std_search_found in H as Ho.
  assert (std_search p (l ++ k) <= std_search p l)%nat.
  { apply std_search_first, occurs_at_mono, Ho. }
  assert (Hf : (std_search p (l ++ k) < length (l ++ k))%nat).
  { rewrite length_app. lia. }
  apply std_search_found in Hf.
  enough (std_search p l <= std_search p (l ++ k))%nat by lia.
  apply std_search_first. apply occurs_at_inv with (k := k); [|done].
  destruct (occurs_at_split p l _ Hp Ho) as (l1 & l2 & -> & Hl).
  rewrite !length_app. lia.
Qed.

Lemma std_search_decomp p l1 l2 :
  (forall i, (i < length l1)%nat -> ~ occurs_at p (l1 ++ p ++ l2) i) ->
  std_search p (l1 ++ p ++ l2) = length l1.
Proof.
  intros H. pose proof (std_search_first _ _ _ (occurs_at_app p l1 l2)) as Hle.
  destruct (decide (std_search p (l1 ++ p ++ l2) < length l1)%nat) as [Hlt|]; [|lia].
  destruct (H _ Hlt). apply std_search_found. rewrite !length_app. lia.
Qed.

(** ** How often an identifier occurs in a list *)

Definition occ (c : Z) (l : list Z) : nat := length (filter (eq c) l).
#[global] Arguments occ : simpl never.

Lemma occ_cons c c' l : occ c (c' :: l) = ((if decide (c = c') then 1 else 0) + occ c l)%nat.
Proof. unfold occ. rewrite filter_cons. by case_decide. Qed.
Lemma occ_snoc c c' l : occ c (l ++ [c']) = ((if decide (c = c') then 1 else 0) + occ c l)%nat.
Proof. unfold occ. rewrite filter_app, length_app, filter_cons. case_decide; cbn; lia. Qed.
Lemma occ_zero c l : c ∉ l -> occ c l = O.
Proof.
  unfold occ. induction l as [|x l IH]; intros H; [done|]. apply not_elem_of_cons in H as [Hx H].
  rewrite filter_cons, decide_False by done. by apply IH.
Qed.
Lemma occ_pos c l : c ∈ l -> (0 < occ c l)%nat.
Proof.
  unfold occ. intros H%list_elem_of_split. destruct H as (l1 & l2 & ->).
  rewrite filter_app, length_app, filter_cons, decide_True by done. cbn. lia.
Qed.
