(* ===== verification/Endian.v ===== *)
(** * Byte order (cnet/net/Endian.h)

    [htobeN]/[beNtoh] of <endian.h> on a little-endian host, as the inline
    functions of cnet/net/Endian.h call them, and the object representation of
    an integer: what [memcpy] of an N-bit variable copies on that host. *)

From S2P Require Import Prelude.

(** The object representation of an [n]-byte integer, low byte first. *)
Fixpoint mem_of_int (n : nat) (x : Z) : bytes :=
  match n with
  | O => []
  | S n' => Z_byte x :: mem_of_int n' (x / 256)
  end.

Fixpoint int_of_mem (l : bytes) : Z :=
  match l with
  | [] => 0
  | b :: l' => byte_Z b + 256 * int_of_mem l'
  end.

(** [bswap]: the bytes of an [n]-byte integer in the opposite order. *)
Definition bswap (n : nat) (x : Z) : Z := int_of_mem (rev (mem_of_int n x)).

Definition hostToNetwork64 (host64 : Z) : Z := bswap 8 host64.
Definition hostToNetwork32 (host32 : Z) : Z := bswap 4 host32.
Definition hostToNetwork16 (host16 : Z) : Z := bswap 2 host16.
Definition networkToHost64 (net64 : Z) : Z := bswap 8 net64.
Definition networkToHost32 (net32 : Z) : Z := bswap 4 net32.
Definition networkToHost16 (net16 : Z) : Z := bswap 2 net16.

Lemma length_mem_of_int n x : length (mem_of_int n x) = n.
Proof. revert x. induction n; intros x; simpl; auto. Qed.

Lemma zlen_mem_of_int n x : zlen (mem_of_int n x) = Z.of_nat n.
Proof. unfold zlen. rewrite length_mem_of_int. reflexivity. Qed.

Lemma int_of_mem_of_int n x : int_of_mem (mem_of_int n x) = x mod 256 ^ Z.of_nat n.
Proof.
  revert x. induction n as [|n IH]; intros x.
  - cbn [mem_of_int int_of_mem]. rewrite Z.mod_1_r. reflexivity.
  - cbn [mem_of_int int_of_mem].
    rewrite IH, byte_Z_byte, Nat2Z.inj_succ, Z.pow_succ_r by lia.
    rewrite Z.rem_mul_r by lia. reflexivity.
Qed.

Lemma mem_of_int_of_mem l : mem_of_int (length l) (int_of_mem l) = l.
Proof.
  induction l as [|b l IH]; [reflexivity|].
  cbn [length int_of_mem mem_of_int].
  pose proof (byte_Z_range b) as Hb. f_equal.
  - apply byte_Z_inj. rewrite byte_Z_byte.
    rewrite (Z.mul_comm 256), Z.mod_add by lia. apply Z.mod_small. lia.
  - rewrite (Z.mul_comm 256), Z.div_add, Z.div_small, Z.add_0_l by lia. done.
Qed.

Lemma int_of_mem_range l : 0 <= int_of_mem l < 256 ^ zlen l.
Proof.
  pose proof (int_of_mem_of_int (length l) (int_of_mem l)) as H.
  rewrite mem_of_int_of_mem in H. rewrite H. unfold zlen.
  apply Z.mod_pos_bound. apply Z.pow_pos_nonneg; lia.
Qed.

Lemma mem_of_int_mod n x : mem_of_int n (x mod 256 ^ Z.of_nat n) = mem_of_int n x.
Proof.
  rewrite <-(int_of_mem_of_int n x).
  pose proof (mem_of_int_of_mem (mem_of_int n x)) as H.
  rewrite length_mem_of_int in H. exact H.
Qed.

(** What is stored in memory after the swap: the same integer, high byte first. *)
Lemma mem_of_bswap n x : mem_of_int n (bswap n x) = rev (mem_of_int n x).
Proof.
  unfold bswap. pose proof (mem_of_int_of_mem (rev (mem_of_int n x))) as H.
  rewrite length_rev, length_mem_of_int in H. exact H.
Qed.

Lemma bswap_involutive n x : bswap n (bswap n x) = x mod 256 ^ Z.of_nat n.
Proof.
  unfold bswap at 1. rewrite mem_of_bswap, rev_involutive. apply int_of_mem_of_int.
Qed.

Lemma bswap_range n x : 0 <= bswap n x < 256 ^ Z.of_nat n.
Proof.
  unfold bswap. pose proof (int_of_mem_range (rev (mem_of_int n x))) as H.
  unfold zlen in H. rewrite length_rev, length_mem_of_int in H. exact H.
Qed.

Lemma bswap_mod n x : bswap n (x mod 256 ^ Z.of_nat n) = bswap n x.
Proof. unfold bswap. rewrite mem_of_int_mod. reflexivity. Qed.

(** Network byte order: the [n] bytes of [x], most significant first. *)
Definition be_bytes (n : nat) (x : Z) : bytes := rev (mem_of_int n x).
Definition be_value (l : bytes) : Z := int_of_mem (rev l).

Lemma zlen_be_bytes n x : zlen (be_bytes n x) = Z.of_nat n.
Proof. unfold zlen, be_bytes. rewrite length_rev, length_mem_of_int. done. Qed.

Lemma be_value_bytes n x : be_value (be_bytes n x) = x mod 256 ^ Z.of_nat n.
Proof. unfold be_value, be_bytes. rewrite rev_involutive. apply int_of_mem_of_int. Qed.

Lemma networkToHost_value n l : length l = n ->
  bswap n (int_of_mem l) = be_value l.
Proof.
  intros <-. unfold bswap. rewrite mem_of_int_of_mem. reflexivity.
Qed.
