(* ===== verification/Buffer.v ===== *)
(** * The byte buffer (cnet/net/Buffer.h, cnet/net/Buffer.cc)

    A [std::vector<char>] with a read and a write index.  Pointers into the
    vector are offsets from [begin()]; every [assert] of the class is kept; the
    indices are [size_t], so a difference or a sum wraps at 64 bits.  The
    second half relates the class to what it promises: a queue of bytes that
    can also be extended at the front ([spec_step]). *)

From S2P Require Import Prelude Endian.

Definition kCRLF : bytes := [CR; LF].
Definition kCheapPrepend : Z := 8.
Definition kInitialSize : Z := 1024.

Record Buffer := mkBuffer {
  buffer_ : bytes;
  readerIndex_ : Z;
  writerIndex_ : Z;
}.

Definition Buffer_new (initialSize : Z) : Buffer :=
  {| buffer_ := replicate (Z.to_nat (kCheapPrepend + initialSize)) x00;
     readerIndex_ := kCheapPrepend;
     writerIndex_ := kCheapPrepend |}.

Definition size (b : Buffer) : Z := zlen (buffer_ b).
Definition readableBytes (b : Buffer) : Z := u64 (writerIndex_ b - readerIndex_ b).
Definition writableBytes (b : Buffer) : Z := u64 (size b - writerIndex_ b).
Definition prependableBytes (b : Buffer) : Z := readerIndex_ b.

(** The characters in [peek(), beginWrite()). *)
Definition contents (b : Buffer) : bytes :=
  zslice (readerIndex_ b) (readableBytes b) (buffer_ b).

Definition peek (b : Buffer) : Z := readerIndex_ b.
Definition beginWrite (b : Buffer) : Z := writerIndex_ b.

(** The characters in [start, beginWrite()). *)
Definition range_from (b : Buffer) (start : Z) : bytes :=
  zslice start (beginWrite b - start) (buffer_ b).

Definition findCRLF_from (b : Buffer) (start : Z) : option Z :=
  let crlf := start + Z.of_nat (std_search kCRLF (range_from b start)) in
  if crlf =? beginWrite b then None else Some crlf.
Definition findCRLF (b : Buffer) : option Z := findCRLF_from b (peek b).

(** [memchr]: NULL when the character does not occur. *)
Definition memchr (base : Z) (c : byte) (l : bytes) : option Z :=
  let i := std_find c l in
  if (i =? length l)%nat then None else Some (base + Z.of_nat i).

Definition findEOL (b : Buffer) : option Z := memchr (peek b) LF (contents b).
Definition findEOL_from (b : Buffer) (start : Z) : res (option Z) :=
  assert! peek b <=? start;
  assert! start <=? beginWrite b;
  Ok (memchr start LF (range_from b start)).

Definition set_indices (b : Buffer) (r w : Z) : Buffer :=
  {| buffer_ := buffer_ b; readerIndex_ := r; writerIndex_ := w |}.

Definition retrieveAll (b : Buffer) : Buffer := set_indices b kCheapPrepend kCheapPrepend.

Definition retrieve (b : Buffer) (len : Z) : res Buffer :=
  assert! len <=? readableBytes b;
  if len <? readableBytes b
  then Ok (set_indices b (u64 (readerIndex_ b + len)) (writerIndex_ b))
  else Ok (retrieveAll b).

Definition retrieveUntil (b : Buffer) (end_ : Z) : res Buffer :=
  assert! peek b <=? end_;
  assert! end_ <=? beginWrite b;
  retrieve b (u64 (end_ - peek b)).

Definition retrieveInt64 (b : Buffer) : res Buffer := retrieve b 8.
Definition retrieveInt32 (b : Buffer) : res Buffer := retrieve b 4.
Definition retrieveInt16 (b : Buffer) : res Buffer := retrieve b 2.
Definition retrieveInt8 (b : Buffer) : res Buffer := retrieve b 1.

Definition retrieveAsString (b : Buffer) (len : Z) : res (bytes * Buffer) :=
  assert! len <=? readableBytes b;
  let result := zslice (peek b) len (buffer_ b) in
  let* b' := retrieve b len in
  Ok (result, b').
Definition retrieveAllAsString (b : Buffer) : res (bytes * Buffer) :=
  retrieveAsString b (readableBytes b).

(** [std::vector::resize] to a [size_t]: length_error beyond max_size(). *)
Definition vector_resize (n : Z) (l : bytes) : res bytes :=
  if MAX_SIZE <? n then Err ELength else Ok (zresize x00 n l).

Definition makeSpace (b : Buffer) (len : Z) : res Buffer :=
  if u64 (writableBytes b + prependableBytes b) <? u64 (len + kCheapPrepend)
  then
    let* l := vector_resize (u64 (writerIndex_ b + len)) (buffer_ b) in
    Ok (mkBuffer l (readerIndex_ b) (writerIndex_ b))
  else
    assert! kCheapPrepend <? readerIndex_ b;
    let readable := readableBytes b in
    let b' := mkBuffer (zblit kCheapPrepend (contents b) (buffer_ b))
                       kCheapPrepend (kCheapPrepend + readable) in
    assert! readable =? readableBytes b';
    Ok b'.

Definition enuserWritableBytes (b : Buffer) (len : Z) : res Buffer :=
  let* b' := (if writableBytes b <? len then makeSpace b len else Ok b) in
  assert! len <=? writableBytes b';
  Ok b'.

Definition hasWritten (b : Buffer) (len : Z) : res Buffer :=
  assert! len <=? writableBytes b;
  Ok (set_indices b (readerIndex_ b) (u64 (writerIndex_ b + len))).

Definition unwrite (b : Buffer) (len : Z) : res Buffer :=
  assert! len <=? readableBytes b;
  Ok (set_indices b (readerIndex_ b) (u64 (writerIndex_ b - len))).

(** [append(const char* data, size_t len)], where [data] is the object the
    pointer designates: copying more than the object holds is undefined. *)
Definition append_mem (b : Buffer) (data : bytes) (len : Z) : res Buffer :=
  let* b1 := enuserWritableBytes b len in
  if zlen data <? len then Err EUndefined
  else
    let b2 := mkBuffer (zblit (beginWrite b1) (ztake len data) (buffer_ b1))
                       (readerIndex_ b1) (writerIndex_ b1) in
    hasWritten b2 len.

Definition append (b : Buffer) (data : bytes) : res Buffer :=
  append_mem b data (zlen data).

(** [toStringPiece]: the length is an int. *)
Definition toStringPiece (b : Buffer) : bytes :=
  zslice (peek b) (s32 (readableBytes b)) (buffer_ b).

(** [append(const StringPiece&)]: a StringPiece keeps its length in an int. *)
Definition append_piece (b : Buffer) (str : bytes) : res Buffer :=
  append_mem b str (u64 (s32 (zlen str))).

Definition appendInt64 (b : Buffer) (x : Z) : res Buffer :=
  append b (mem_of_int 8 (hostToNetwork64 (u64 x))).
Definition appendInt32 (b : Buffer) (x : Z) : res Buffer :=
  append b (mem_of_int 4 (hostToNetwork32 (u32 x))).
Definition appendInt16 (b : Buffer) (x : Z) : res Buffer :=
  append b (mem_of_int 2 (hostToNetwork16 (u16 x))).
Definition appendInt8 (b : Buffer) (x : Z) : res Buffer :=
  append b (mem_of_int 1 (u8 x)).

(** [memcpy(&x, peek(), n)] into an [n]-byte variable. *)
Definition peek_mem (b : Buffer) (n : Z) : Z :=
  int_of_mem (zslice (peek b) n (buffer_ b)).

Definition peekInt64 (b : Buffer) : res Z :=
  assert! 8 <=? readableBytes b;
  Ok (s64 (networkToHost64 (peek_mem b 8))).
Definition peekInt32 (b : Buffer) : res Z :=
  assert! 4 <=? readableBytes b;
  Ok (s32 (networkToHost32 (peek_mem b 4))).
Definition peekInt16 (b : Buffer) : res Z :=
  assert! 2 <=? readableBytes b;
  Ok (s16 (networkToHost16 (peek_mem b 2))).
Definition peekInt8 (b : Buffer) : res Z :=
  assert! 1 <=? readableBytes b;
  Ok (s8 (peek_mem b 1)).

Definition readInt64 (b : Buffer) : res (Z * Buffer) :=
  let* result := peekInt64 b in let* b' := retrieveInt64 b in Ok (result, b').
Definition readInt32 (b : Buffer) : res (Z * Buffer) :=
  let* result := peekInt32 b in let* b' := retrieveInt32 b in Ok (result, b').
Definition readInt16 (b : Buffer) : res (Z * Buffer) :=
  let* result := peekInt16 b in let* b' := retrieveInt16 b in Ok (result, b').
Definition readInt8 (b : Buffer) : res (Z * Buffer) :=
  let* result := peekInt8 b in let* b' := retrieveInt8 b in Ok (result, b').

Definition prepend (b : Buffer) (data : bytes) : res Buffer :=
  let len := zlen data in
  assert! len <=? prependableBytes b;
  let r := u64 (readerIndex_ b - len) in
  Ok (mkBuffer (zblit r data (buffer_ b)) r (writerIndex_ b)).

Definition prependInt64 (b : Buffer) (x : Z) : res Buffer :=
  prepend b (mem_of_int 8 (hostToNetwork64 (u64 x))).
Definition prependInt32 (b : Buffer) (x : Z) : res Buffer :=
  prepend b (mem_of_int 4 (hostToNetwork32 (u32 x))).
Definition prependInt16 (b : Buffer) (x : Z) : res Buffer :=
  prepend b (mem_of_int 2 (hostToNetwork16 (u16 x))).
Definition prependInt8 (b : Buffer) (x : Z) : res Buffer :=
  prepend b (mem_of_int 1 (u8 x)).

(** [swap(rhs)]: both objects after the call. *)
Definition swap (b rhs : Buffer) : Buffer * Buffer :=
  (mkBuffer (buffer_ rhs) (readerIndex_ rhs) (writerIndex_ rhs),
   mkBuffer (buffer_ b) (readerIndex_ b) (writerIndex_ b)).

Definition shrink (b : Buffer) (reserve : Z) : res Buffer :=
  let other := Buffer_new kInitialSize in
  let* other := enuserWritableBytes other (u64 (readableBytes b + reserve)) in
  let* other := append_piece other (contents b) in
  Ok (swap b other).1.

(** ** readFd

    [readv(fd, vec, iovcnt)] is the kernel's: it either fails with an errno or
    delivers some bytes, at most the total length of the vectors it is given;
    it fills the first vector before the second. *)

Inductive read_result : Type :=
| ReadErr (errno : Z)
| ReadData (data : bytes).

Definition kExtraBuf : Z := 65536.

(** The total capacity of the vectors [readFd] passes to [readv]. *)
Definition readv_capacity (b : Buffer) : Z :=
  if writableBytes b <? kExtraBuf then writableBytes b + kExtraBuf else writableBytes b.

Record readFd_result := mkReadFd {
  rf_n : Z;                      (* the return value *)
  rf_savedErrno : option Z;      (* *savedErrno, when it is written *)
  rf_buffer : Buffer;
}.

Definition readFd (b : Buffer) (r : read_result) : res readFd_result :=
  match r with
  | ReadErr errno => Ok (mkReadFd (-1) (Some errno) b)
  | ReadData data =>
      let n := zlen data in
      let writable := writableBytes b in
      let filled := zblit (writerIndex_ b) (ztake writable data) (buffer_ b) in
      if n <=? writable
      then Ok (mkReadFd n None (mkBuffer filled (readerIndex_ b) (u64 (writerIndex_ b + n))))
      else
        let extrabuf := zdrop writable data in
        let* b' := append (mkBuffer filled (readerIndex_ b) (size b)) extrabuf in
        Ok (mkReadFd n None b')
  end.

(** ** The representation invariant

    [0 <= readerIndex <= writerIndex <= size]; the vector is at most
    [max_size()] long.  Under it the [size_t] differences do not wrap. *)

Record wf (b : Buffer) : Prop := mkWf {
  wf_reader : 0 <= readerIndex_ b;
  wf_writer : readerIndex_ b <= writerIndex_ b;
  wf_size : writerIndex_ b <= size b;
  wf_max : size b <= MAX_SIZE;
}.

Create HintDb buffer discriminated.
#[export] Hint Constructors wf : buffer.

Lemma readable_wf b : wf b -> readableBytes b = writerIndex_ b - readerIndex_ b.
Proof. intros []. unfold readableBytes, MAX_SIZE in *. apply u64_small. lia. Qed.
Lemma writable_wf b : wf b -> writableBytes b = size b - writerIndex_ b.
Proof. intros []. unfold writableBytes, MAX_SIZE in *. apply u64_small. lia. Qed.

Lemma contents_range b : wf b -> contents b = range_from b (peek b).
Proof.
  intros H. unfold contents, range_from, peek, beginWrite.
  rewrite readable_wf by done. reflexivity.
Qed.

Lemma zlen_contents b : wf b -> zlen (contents b) = readableBytes b.
Proof.
  intros H. unfold contents. rewrite zlen_zslice, readable_wf by done.
  destruct H. unfold size in *. lia.
Qed.

(** The vector is: dead bytes, the contents, free bytes. *)
Lemma layout b : wf b ->
  exists pre post, buffer_ b = pre ++ contents b ++ post /\
    zlen pre = readerIndex_ b /\ zlen (contents b) = writerIndex_ b - readerIndex_ b.
Proof.
  intros H. pose proof H as [].
  destruct (zsplit3 (readerIndex_ b) (writerIndex_ b) (buffer_ b))
    as (pre & mid & post & E & Hp & Hm); [lia|unfold size in *; lia|].
  assert (contents b = mid) as ->.
  { unfold contents. rewrite readable_wf, E by done. apply zslice_app3; lia. }
  eauto.
Qed.

(** A buffer given by its layout. *)
Lemma contents_layout pre mid post r w :
  r = zlen pre -> w = zlen pre + zlen mid -> w <= MAX_SIZE ->
  contents (mkBuffer (pre ++ mid ++ post) r w) = mid.
Proof.
  intros -> -> H. unfold contents, readableBytes. simpl.
  pose proof (zlen_nonneg pre). pose proof (zlen_nonneg mid).
  unfold MAX_SIZE in H. rewrite u64_small by lia. apply zslice_app3; lia.
Qed.

Lemma wf_layout pre mid post r w :
  r = zlen pre -> w = zlen pre + zlen mid ->
  zlen pre + zlen mid + zlen post <= MAX_SIZE ->
  wf (mkBuffer (pre ++ mid ++ post) r w).
Proof. intros -> -> H. split; unfold size; simpl; zlia. Qed.

Lemma Buffer_new_wf n :
  0 <= n -> kCheapPrepend + n <= MAX_SIZE ->
  wf (Buffer_new n) /\ contents (Buffer_new n) = [] /\
  writableBytes (Buffer_new n) = n /\ prependableBytes (Buffer_new n) = kCheapPrepend.
Proof.
  intros Hn Hm. unfold kCheapPrepend in *.
  assert (W : wf (Buffer_new n)).
  { split; unfold size; simpl; rewrite ?zlen_replicate; unfold kCheapPrepend; lia. }
  split_and!; [done| | |done].
  - apply zlen_0_nil. rewrite zlen_contents, readable_wf by done. simpl. lia.
  - rewrite writable_wf by done. unfold size. simpl. rewrite zlen_replicate.
    unfold kCheapPrepend. lia.
Qed.

Lemma retrieveAll_spec b : wf b -> kCheapPrepend <= size b ->
  wf (retrieveAll b) /\ contents (retrieveAll b) = [].
Proof.
  intros [] Hs. unfold retrieveAll, set_indices.
  assert (W : wf (mkBuffer (buffer_ b) kCheapPrepend kCheapPrepend)).
  { split; unfold size, kCheapPrepend in *; simpl; lia. }
  split; [done|]. apply zlen_0_nil. rewrite zlen_contents, readable_wf by done. simpl. lia.
Qed.

(** The vector never becomes shorter than the prepend area. *)
Definition good (b : Buffer) : Prop := wf b /\ kCheapPrepend <= size b.

Lemma Buffer_new_good n :
  0 <= n -> kCheapPrepend + n <= MAX_SIZE -> good (Buffer_new n).
Proof.
  intros Hn Hm. split; [apply Buffer_new_wf; done|].
  unfold size, Buffer_new. simpl. rewrite zlen_replicate. unfold kCheapPrepend in *. lia.
Qed.

Lemma set_reader b n : wf b -> 0 <= n <= readableBytes b ->
  wf (set_indices b (readerIndex_ b + n) (writerIndex_ b)) /\
  contents (set_indices b (readerIndex_ b + n) (writerIndex_ b)) = zdrop n (contents b).
Proof.
  intros W Hn. rewrite readable_wf in Hn by done.
  destruct (layout b W) as (pre & post & E & Hp & Hm). pose proof W as [].
  destruct (zsplit n (contents b)) as (m1 & m2 & Em & Hl); [lia|].
  unfold set_indices, size in *. rewrite E, Em in *.
  rewrite zdrop_app_exact by done.
  replace (pre ++ (m1 ++ m2) ++ post) with ((pre ++ m1) ++ m2 ++ post) in *
    by (rewrite <-!app_assoc; done).
  split; [apply wf_layout|apply contents_layout]; zlia.
Qed.

Lemma retrieve_spec b n : good b -> 0 <= n ->
  if n <=? readableBytes b
  then exists b', retrieve b n = Ok b' /\ good b' /\ contents b' = zdrop n (contents b)
  else retrieve b n = Err EAssert.
Proof.
  intros [W S] Hn. unfold retrieve.
  destruct (Z.leb_spec n (readableBytes b)); simpl; [|done].
  pose proof (readable_wf b W) as Er. pose proof W as [].
  destruct (Z.ltb_spec n (readableBytes b)).
  - rewrite u64_small by (unfold MAX_SIZE in *; lia).
    destruct (set_reader b n W) as [W' C]; [lia|].
    eexists. split; [reflexivity|]. split; [split; done|done].
  - destruct (retrieveAll_spec b W S) as [W' C].
    eexists. split; [reflexivity|]. split; [split; done|].
    rewrite C, zdrop_ge; [done|]. rewrite zlen_contents by done. lia.
Qed.

Lemma retrieveUntil_spec b e : good b ->
  if (peek b <=? e) && (e <=? beginWrite b)
  then exists b', retrieveUntil b e = Ok b' /\ good b' /\
         contents b' = zdrop (e - peek b) (contents b)
  else retrieveUntil b e = Err EAssert.
Proof.
  intros G. pose proof G as [W S]. unfold retrieveUntil, peek, beginWrite.
  destruct (Z.leb_spec (readerIndex_ b) e); simpl; [|done].
  destruct (Z.leb_spec e (writerIndex_ b)); simpl; [|done].
  pose proof W as []. unfold MAX_SIZE in *. rewrite u64_small by lia.
  pose proof (retrieve_spec b (e - readerIndex_ b) G ltac:(lia)) as R.
  rewrite readable_wf in R by done.
  destruct (Z.leb_spec (e - readerIndex_ b) (writerIndex_ b - readerIndex_ b)); [done|lia].
Qed.

(** Both branches of [makeSpace]: grow the vector, or slide the contents down
    to the prepend area; [enuserWritableBytes] keeps the contents, its asserts
    hold, and it fails only by exceeding [max_size()]. *)
Lemma grow_spec b n : good b -> writerIndex_ b <= n <= MAX_SIZE -> size b <= n ->
  let b' := mkBuffer (zresize x00 n (buffer_ b)) (readerIndex_ b) (writerIndex_ b) in
  good b' /\ contents b' = contents b /\ size b' = n.
Proof.
  intros [W S] Hn Hs. destruct (layout b W) as (pre & post & E & Hp & Hm).
  pose proof W as []. simpl. unfold size in *.
  assert (zresize x00 n (buffer_ b) =
          pre ++ contents b ++ (post ++ replicate (Z.to_nat (n - zlen (buffer_ b))) x00)) as ->.
  { unfold zresize. rewrite ztake_ge by lia. rewrite E at 1. rewrite <-!app_assoc. done. }
  assert (Hl : zlen (buffer_ b) = zlen pre + zlen (contents b) + zlen post)
    by (rewrite E at 1; zlia).
  split_and!; [split; [apply wf_layout|unfold size; simpl]|apply contents_layout|simpl]; zlia.
Qed.

Lemma compact_spec b : good b -> kCheapPrepend < readerIndex_ b ->
  let b' := mkBuffer (zblit kCheapPrepend (contents b) (buffer_ b))
                     kCheapPrepend (kCheapPrepend + readableBytes b) in
  good b' /\ contents b' = contents b /\ size b' = size b /\
  readableBytes b' = readableBytes b.
Proof.
  intros [W S] Hr. simpl. pose proof (readable_wf b W) as Er.
  destruct (layout b W) as (pre & post & E & Hp & Hm). pose proof W as [].
  unfold size in *.
  assert (Hl : zlen (buffer_ b) = zlen pre + zlen (contents b) + zlen post)
    by (rewrite E at 1; zlia).
  destruct (zsplit3 kCheapPrepend (kCheapPrepend + zlen (contents b)) (buffer_ b))
    as (l1 & l2 & l3 & E' & H1 & H2); [unfold kCheapPrepend in *; zlia..|].
  assert (zblit kCheapPrepend (contents b) (buffer_ b) = l1 ++ contents b ++ l3) as ->.
  { rewrite E' at 1. apply zblit_app3; lia. }
  assert (zlen (buffer_ b) = zlen l1 + zlen l2 + zlen l3) by (rewrite E' at 1; zlia).
  assert (W' : wf (mkBuffer (l1 ++ contents b ++ l3) kCheapPrepend
                            (kCheapPrepend + readableBytes b))).
  { apply wf_layout; zlia. }
  split_and!; [split; [done|unfold size; simpl; zlia]
              | apply contents_layout; zlia
              | simpl; zlia
              | rewrite readable_wf by done; simpl; lia].
Qed.

Lemma enuserWritableBytes_spec b len : good b -> 0 <= len <= MAX_SIZE ->
  if (writableBytes b <? len) && (writableBytes b + prependableBytes b <? len + kCheapPrepend)
     && (MAX_SIZE <? writerIndex_ b + len)
  then enuserWritableBytes b len = Err ELength
  else exists b', enuserWritableBytes b len = Ok b' /\ good b' /\ contents b' = contents b /\
         len <= writableBytes b' /\ size b' <= Z.max (size b) (writerIndex_ b + len).
Proof.
  intros G Hlen. pose proof G as [W S]. unfold enuserWritableBytes, makeSpace.
  pose proof (writable_wf b W) as Ew. pose proof (readable_wf b W) as Er.
  pose proof W as []. unfold prependableBytes.
  destruct (Z.ltb_spec (writableBytes b) len) as [Hlt|Hge]; simpl.
  2:{ exists b. rewrite (proj2 (Z.leb_le _ _)) by lia. simpl. split_and!; try done; lia. }
  unfold MAX_SIZE, kCheapPrepend in *. rewrite !(u64_small (_ + _)) by lia.
  destruct (Z.ltb_spec (writableBytes b + readerIndex_ b) (len + 8)) as [Hg|Hc]; simpl.
  - unfold vector_resize, MAX_SIZE. 
    destruct (Z.ltb_spec (2 ^ 63 - 1) (writerIndex_ b + len)); simpl; [done|].
    destruct (grow_spec b (writerIndex_ b + len) G) as (G' & C & Sz); [unfold MAX_SIZE; lia..|].
    pose proof (writable_wf _ (proj1 G')) as Ew'. rewrite Sz in Ew'. simpl in Ew'.
    rewrite (proj2 (Z.leb_le _ _)) by lia. simpl.
    eexists; split_and!; [reflexivity|done|done|lia|rewrite Sz; lia].
  - rewrite (proj2 (Z.ltb_lt 8 (readerIndex_ b))) by lia. simpl.
    destruct (compact_spec b G) as (G' & C & Sz & Er'); [unfold kCheapPrepend; lia|].
    unfold kCheapPrepend in *. rewrite Er', Z.eqb_refl. simpl.
    pose proof (writable_wf _ (proj1 G')) as Ew'. rewrite Sz in Ew'. simpl in Ew'.
    rewrite (proj2 (Z.leb_le _ _)) by lia. simpl.
    eexists; split_and!; [reflexivity|done|done|lia|rewrite Sz; lia].
Qed.

(** Writing at [beginWrite()] and moving the write index: the contents grow by
    exactly the bytes written. *)
Lemma write_spec b d : good b -> zlen d <= writableBytes b ->
  let b' := mkBuffer (zblit (writerIndex_ b) d (buffer_ b)) (readerIndex_ b)
                     (writerIndex_ b + zlen d) in
  good b' /\ contents b' = contents b ++ d /\ size b' = size b.
Proof.
  intros [W S] Hd. simpl. rewrite writable_wf in Hd by done.
  destruct (layout b W) as (pre & post & E & Hp & Hm). pose proof W as [].
  unfold size in *. pose proof (zlen_nonneg d).
  assert (Hl : zlen (buffer_ b) = zlen pre + zlen (contents b) + zlen post)
    by (rewrite E at 1; zlia).
  destruct (zsplit (zlen d) post) as (p1 & p2 & -> & Hp1); [lia|].
  assert (zblit (writerIndex_ b) d (buffer_ b) = pre ++ (contents b ++ d) ++ p2) as ->.
  { rewrite E at 1. rewrite !app_assoc, <-(app_assoc _ p1 p2).
    rewrite zblit_app3 by zlia. rewrite <-!app_assoc. done. }
  split_and!; [split; [apply wf_layout|unfold size; simpl]|apply contents_layout|simpl]; zlia.
Qed.

Lemma hasWritten_blit b d : good b -> zlen d <= writableBytes b ->
  exists b', hasWritten (mkBuffer (zblit (writerIndex_ b) d (buffer_ b)) (readerIndex_ b)
                                  (writerIndex_ b)) (zlen d) = Ok b' /\
    good b' /\ contents b' = contents b ++ d /\ size b' = size b.
Proof.
  intros G Hd. destruct (write_spec b d G Hd) as (G' & C & Sz).
  pose proof G as [W S]. pose proof W as []. pose proof G' as [[] _].
  unfold size in *. simpl in *. pose proof (zlen_nonneg d).
  unfold hasWritten. rewrite (proj2 (Z.leb_le _ _)).
  2:{ unfold writableBytes, size in *. simpl. rewrite Sz. exact Hd. }
  unfold set_indices. simpl. unfold MAX_SIZE in *. rewrite u64_small by lia.
  eexists; split_and!; [reflexivity|done..].
Qed.

Lemma append_mem_spec b data len :
  good b -> 0 <= len <= zlen data -> writerIndex_ b + len <= MAX_SIZE ->
  exists b', append_mem b data len = Ok b' /\ good b' /\
    contents b' = contents b ++ ztake len data /\
    size b' <= Z.max (size b) (writerIndex_ b + len).
Proof.
  intros G Hlen Hm. pose proof G as [[] _].
  pose proof (enuserWritableBytes_spec b len G) as HE.
  rewrite (proj2 (Z.ltb_ge MAX_SIZE _)), andb_false_r in HE by lia.
  destruct HE as (b1 & E1 & G1 & C1 & Hw & Hs); [lia|].
  unfold append_mem. rewrite E1. simpl.
  rewrite (proj2 (Z.ltb_ge _ _)) by lia. unfold beginWrite.
  assert (L : zlen (ztake len data) = len) by zlia.
  destruct (hasWritten_blit b1 (ztake len data) G1) as (b2 & E2 & G2 & C2 & S2); [lia|].
  rewrite L in E2. rewrite E2. exists b2. rewrite C2, C1, S2. split_and!; done || lia.
Qed.

Lemma append_ok b d : good b -> writerIndex_ b + zlen d <= MAX_SIZE ->
  exists b', append b d = Ok b' /\ good b' /\ contents b' = contents b ++ d /\
    size b' <= Z.max (size b) (writerIndex_ b + zlen d).
Proof.
  intros G Hm. pose proof (zlen_nonneg d).
  destruct (append_mem_spec b d (zlen d) G) as (b' & E & G' & C & Sz); [lia..|].
  rewrite ztake_ge in C by lia. eauto 10.
Qed.

(** A StringPiece carries at most INT_MAX characters faithfully. *)
Lemma append_piece_ok b d : good b -> zlen d < 2 ^ 31 ->
  writerIndex_ b + zlen d <= MAX_SIZE -> append_piece b d = append b d.
Proof.
  intros G Hd Hm. pose proof (zlen_nonneg d). unfold append_piece, append.
  rewrite s32_small, u64_small by lia. done.
Qed.

(** Appending strings one after the other, far from the limits. *)
Lemma append_piece_step b d : good b -> size b + zlen d < 2 ^ 31 ->
  exists b', append_piece b d = Ok b' /\ good b' /\ contents b' = contents b ++ d /\
    size b' <= size b + zlen d.
Proof.
  intros G Hs. pose proof G as [[] _]. pose proof (zlen_nonneg d).
  rewrite append_piece_ok by (done || unfold MAX_SIZE; lia).
  destruct (append_ok b d G) as (b' & E & G' & C & Sz); [unfold MAX_SIZE; lia|].
  exists b'. split_and!; done || lia.
Qed.

Lemma prepend_spec b d : good b ->
  if zlen d <=? prependableBytes b
  then exists b', prepend b d = Ok b' /\ good b' /\ contents b' = d ++ contents b
  else prepend b d = Err EAssert.
Proof.
  intros [W S]. unfold prepend, prependableBytes. pose proof W as [].
  destruct (Z.leb_spec (zlen d) (readerIndex_ b)) as [Hd|]; simpl; [|done].
  destruct (layout b W) as (pre & post & E & Hp & Hm).
  pose proof (zlen_nonneg d). unfold size, MAX_SIZE in *. rewrite u64_small by lia.
  assert (Hl : zlen (buffer_ b) = zlen pre + zlen (contents b) + zlen post)
    by (rewrite E at 1; zlia).
  destruct (zsplit (readerIndex_ b - zlen d) pre) as (p1 & p2 & -> & Hp1); [lia|].
  assert (zblit (readerIndex_ b - zlen d) d (buffer_ b)
          = p1 ++ (d ++ contents b) ++ post) as ->.
  { rewrite E at 1. rewrite <-!app_assoc. apply zblit_app3; zlia. }
  eexists; split_and!;
    [reflexivity|split; [apply wf_layout|unfold size; simpl]|apply contents_layout];
    unfold MAX_SIZE, kCheapPrepend in *; zlia.
Qed.

Lemma unwrite_spec b n : good b -> 0 <= n ->
  if n <=? readableBytes b
  then exists b', unwrite b n = Ok b' /\ good b' /\
         contents b' = ztake (readableBytes b - n) (contents b)
  else unwrite b n = Err EAssert.
Proof.
  intros [W S] Hn. unfold unwrite. pose proof (readable_wf b W) as Er. pose proof W as [].
  destruct (Z.leb_spec n (readableBytes b)) as [Hd|]; simpl; [|done].
  destruct (layout b W) as (pre & post & E & Hp & Hm).
  unfold size, MAX_SIZE in *. rewrite u64_small by lia. rewrite Er.
  assert (Hl : zlen (buffer_ b) = zlen pre + zlen (contents b) + zlen post)
    by (rewrite E at 1; zlia).
  destruct (zsplit (writerIndex_ b - readerIndex_ b - n) (contents b))
    as (m1 & m2 & Em & Hm1); [lia|].
  rewrite Em, ztake_app_exact by lia. unfold set_indices.
  rewrite E, Em, <-app_assoc.
  assert (zlen (contents b) = zlen m1 + zlen m2) by (rewrite Em; zlia).
  eexists; split_and!;
    [reflexivity|split; [apply wf_layout|unfold size; simpl]|apply contents_layout];
    unfold MAX_SIZE, kCheapPrepend in *; zlia.
Qed.

Lemma retrieveAsString_spec b n : good b -> 0 <= n ->
  if n <=? readableBytes b
  then exists b', retrieveAsString b n = Ok (ztake n (contents b), b') /\ good b' /\
         contents b' = zdrop n (contents b)
  else retrieveAsString b n = Err EAssert.
Proof.
  intros G Hn. pose proof (retrieve_spec b n G Hn) as R. unfold retrieveAsString.
  destruct (Z.leb_spec n (readableBytes b)) as [Hd|]; simpl; [|done].
  destruct R as (b' & -> & G' & C). simpl. exists b'. split; [|done].
  do 2 f_equal. unfold contents, zslice, peek. rewrite ztake_ztake. f_equal. lia.
Qed.

Lemma shrink_spec b reserve : good b -> 0 <= reserve ->
  readableBytes b < 2 ^ 31 -> readableBytes b + reserve <= MAX_SIZE - kCheapPrepend ->
  exists b', shrink b reserve = Ok b' /\ good b' /\ contents b' = contents b /\
    reserve <= writableBytes b'.
Proof.
  intros G Hr H31 Hmax. pose proof G as [W S]. pose proof W as [].
  pose proof (readable_wf b W) as Er. pose proof (zlen_contents b W) as Lc.
  destruct (Buffer_new_wf kInitialSize) as (_ & C0 & W0 & _); [done..|].
  pose proof (Buffer_new_good kInitialSize ltac:(done) ltac:(done)) as G0.
  unfold shrink. unfold MAX_SIZE, kCheapPrepend in *. rewrite u64_small by lia.
  pose proof (enuserWritableBytes_spec _ (readableBytes b + reserve) G0) as HE.
  rewrite (proj2 (Z.ltb_ge MAX_SIZE _)), andb_false_r in HE.
  2:{ unfold MAX_SIZE, Buffer_new, kCheapPrepend. simpl. lia. }
  destruct HE as (b1 & E1 & G1 & C1 & Hw & Hs); [unfold MAX_SIZE; lia|].
  rewrite E1. simpl. pose proof (writable_wf _ (proj1 G1)) as Ew1.
  pose proof G1 as [[] _]. unfold MAX_SIZE in *.
  rewrite append_piece_ok by (done || unfold MAX_SIZE; lia). rewrite C0 in C1.
  assert (exists b2, append b1 (contents b) = Ok b2 /\ good b2 /\
            contents b2 = contents b1 ++ contents b /\ size b2 = size b1 /\
            writerIndex_ b2 = writerIndex_ b1 + readableBytes b)
    as (b2 & E2 & G2 & C2 & S2 & I2).
  { unfold append, append_mem, enuserWritableBytes.
    rewrite (proj2 (Z.ltb_ge _ _)) by lia. simpl.
    rewrite (proj2 (Z.leb_le _ _)) by lia. simpl.
    rewrite Z.ltb_irrefl, ztake_ge by lia.
    destruct (hasWritten_blit b1 (contents b) G1) as (b2 & E2 & G2 & C2 & S2); [lia|].
    unfold beginWrite. rewrite E2. exists b2. split_and!; try done.
    unfold hasWritten in E2. inv_ok. subst b2. simpl. rewrite u64_small; lia. }
  rewrite E2. simpl. exists b2.
  destruct b2 as [l2 r2 w2]. rewrite C1 in C2. split_and!; try done.
  rewrite writable_wf by apply G2. simpl in *. lia.
Qed.

Lemma readFd_spec b data : good b ->
  zlen data <= readv_capacity b -> size b + zlen data <= MAX_SIZE ->
  exists rr, readFd b (ReadData data) = Ok rr /\ rf_n rr = zlen data /\
    rf_savedErrno rr = None /\ good (rf_buffer rr) /\
    contents (rf_buffer rr) = contents b ++ data.
Proof.
  intros G Hc Hm. pose proof G as [W S]. pose proof W as [].
  pose proof (writable_wf b W) as Ew. pose proof (zlen_nonneg data).
  unfold readFd. destruct (Z.leb_spec (zlen data) (writableBytes b)) as [Hle|Hgt].
  - rewrite ztake_ge by lia. destruct (write_spec b data G Hle) as (G' & C & _).
    unfold MAX_SIZE in *. rewrite u64_small by lia.
    eexists; split_and!; [reflexivity|done..].
  - assert (Ht : zlen (ztake (writableBytes b) data) = writableBytes b) by zlia.
    assert (Hd : zlen (zdrop (writableBytes b) data) = zlen data - writableBytes b) by zlia.
    destruct (write_spec b (ztake (writableBytes b) data) G) as (G1 & C1 & S1); [lia|].
    rewrite Ht in G1, C1, S1.
    replace (writerIndex_ b + writableBytes b) with (size b) in * by lia.
    destruct (append_ok _ (zdrop (writableBytes b) data) G1) as (b2 & E2 & G2 & C2 & _).
    { simpl. lia. }
    rewrite E2. simpl. eexists; split_and!; [reflexivity|done|done|done|].
    simpl. rewrite C2, C1, <-app_assoc, ztake_zdrop. done.
Qed.

(** ** The contract: a queue of bytes

    [op] lists the public operations, [step] runs one, [spec_step] says what it
    does to the queue of unread bytes.  [None] stands for a violated
    precondition, on which the class asserts.  [front] is the room left before
    the contents, which only [prepend] depends on. *)

Inductive width : Set := W8 | W16 | W32 | W64.
Definition nbytes (w : width) : nat :=
  match w with W8 => 1 | W16 => 2 | W32 => 4 | W64 => 8 end.
Definition nbits (w : width) : Z := 8 * Z.of_nat (nbytes w).

Definition appendInt (w : width) : Buffer -> Z -> res Buffer :=
  match w with
  | W8 => appendInt8 | W16 => appendInt16 | W32 => appendInt32 | W64 => appendInt64
  end.
Definition prependInt (w : width) : Buffer -> Z -> res Buffer :=
  match w with
  | W8 => prependInt8 | W16 => prependInt16 | W32 => prependInt32 | W64 => prependInt64
  end.
Definition peekInt (w : width) : Buffer -> res Z :=
  match w with
  | W8 => peekInt8 | W16 => peekInt16 | W32 => peekInt32 | W64 => peekInt64
  end.
Definition retrieveInt (w : width) : Buffer -> res Buffer :=
  match w with
  | W8 => retrieveInt8 | W16 => retrieveInt16 | W32 => retrieveInt32 | W64 => retrieveInt64
  end.
Definition readInt (w : width) : Buffer -> res (Z * Buffer) :=
  match w with
  | W8 => readInt8 | W16 => readInt16 | W32 => readInt32 | W64 => readInt64
  end.

Inductive op : Type :=
| Append (d : bytes)
| AppendPiece (d : bytes)
| AppendInt (w : width) (x : Z)
| Prepend (d : bytes)
| PrependInt (w : width) (x : Z)
| Retrieve (n : Z)
| RetrieveUntil (e : Z)        (* offset of the pointer from peek() *)
| RetrieveInt (w : width)
| RetrieveAll
| RetrieveAsString (n : Z)
| RetrieveAllAsString
| ToStringPiece
| ReadableBytes
| PeekInt (w : width)
| ReadInt (w : width)
| FindCRLF
| FindCRLF_from (e : Z)
| FindEOL
| FindEOL_from (e : Z)
| HasWritten (d : bytes)       (* the caller has written d at beginWrite(), as far as there is room *)
| Unwrite (n : Z)
| EnsureWritable (n : Z)
| Shrink (reserve : Z)
| Swap (rhs : Buffer)
| ReadFd (r : read_result).    (* what readv gives *)

(** [Pos]: an offset from [peek()], or NULL. *)
Inductive output : Type :=
| Done | Str (s : bytes) | Num (x : Z) | Pos (i : option Z) | Failed (n : Z) (savedErrno : Z).

Definition out {A} (f : A -> output) (m : res (A * Buffer)) : res (output * Buffer) :=
  let* (a, b') := m in Ok (f a, b').
Definition done_ (m : res Buffer) : res (output * Buffer) :=
  let* b' := m in Ok (Done, b').
Definition pos (b : Buffer) (p : option Z) : output := Pos (option_map (fun p => p - peek b) p).

Definition step (b : Buffer) (o : op) : res (output * Buffer) :=
  match o with
  | Append d => done_ (append b d)
  | AppendPiece d => done_ (append_piece b d)
  | AppendInt w x => done_ (appendInt w b x)
  | Prepend d => done_ (prepend b d)
  | PrependInt w x => done_ (prependInt w b x)
  | Retrieve n => done_ (retrieve b n)
  | RetrieveUntil e => done_ (retrieveUntil b (peek b + e))
  | RetrieveInt w => done_ (retrieveInt w b)
  | RetrieveAll => Ok (Done, retrieveAll b)
  | RetrieveAsString n => out Str (retrieveAsString b n)
  | RetrieveAllAsString => out Str (retrieveAllAsString b)
  | ToStringPiece => Ok (Str (toStringPiece b), b)
  | ReadableBytes => Ok (Num (readableBytes b), b)
  | PeekInt w => let* x := peekInt w b in Ok (Num x, b)
  | ReadInt w => out Num (readInt w b)
  | FindCRLF => Ok (pos b (findCRLF b), b)
  | FindCRLF_from e => Ok (pos b (findCRLF_from b (peek b + e)), b)
  | FindEOL => Ok (pos b (findEOL b), b)
  | FindEOL_from e => let* p := findEOL_from b (peek b + e) in Ok (pos b p, b)
  | HasWritten d =>
      let b1 := mkBuffer (zblit (beginWrite b) (ztake (writableBytes b) d) (buffer_ b)) (readerIndex_ b) (writerIndex_ b) in
      done_ (hasWritten b1 (zlen d))
  | Unwrite n => done_ (unwrite b n)
  | EnsureWritable n => done_ (enuserWritableBytes b n)
  | Shrink n => done_ (shrink b n)
  | Swap rhs => let '(b1, rhs1) := swap b rhs in Ok (Str (contents rhs1), b1)
  | ReadFd r =>
      let* x := readFd b r in
      Ok (match rf_savedErrno x with Some e => Failed (rf_n x) e | None => Num (rf_n x) end, rf_buffer x)
  end.

(** The first position where [p] occurs in [q]. *)
Definition first_occurrence (p q : bytes) : option Z :=
  option_map (fun x => Z.of_nat x.2)
    (list_find (fun i => is_prefix p (drop i q) = true) (seq 0 (length q))).

(** [front], [room]: the free space before and behind the queue. *)
Definition spec_step (front room : Z) (q : bytes) (o : op) : option (output * bytes) :=
  match o with
  | Append d | AppendPiece d => Some (Done, q ++ d)
  | AppendInt w x => Some (Done, q ++ be_bytes (nbytes w) x)
  | Prepend d => if zlen d <=? front then Some (Done, d ++ q) else None
  | PrependInt w x =>
      if Z.of_nat (nbytes w) <=? front then Some (Done, be_bytes (nbytes w) x ++ q) else None
  | Retrieve n => if n <=? zlen q then Some (Done, zdrop n q) else None
  | RetrieveUntil e =>
      if (0 <=? e) && (e <=? zlen q) then Some (Done, zdrop e q) else None
  | RetrieveInt w => let n := Z.of_nat (nbytes w) in if n <=? zlen q then Some (Done, zdrop n q) else None
  | RetrieveAll => Some (Done, [])
  | RetrieveAsString n =>
      if n <=? zlen q then Some (Str (ztake n q), zdrop n q) else None
  | RetrieveAllAsString => Some (Str q, [])
  | ToStringPiece => Some (Str q, q)
  | ReadableBytes => Some (Num (zlen q), q)
  | PeekInt w =>
      let n := Z.of_nat (nbytes w) in
      if n <=? zlen q then Some (Num (to_signed (nbits w) (be_value (ztake n q))), q) else None
  | ReadInt w =>
      let n := Z.of_nat (nbytes w) in
      if n <=? zlen q
      then Some (Num (to_signed (nbits w) (be_value (ztake n q))), zdrop n q)
      else None
  | FindCRLF => Some (Pos (first_occurrence [CR; LF] q), q)
  | FindCRLF_from e => Some (Pos (option_map (Z.add e) (first_occurrence [CR; LF] (zdrop e q))), q)
  | FindEOL => Some (Pos (first_occurrence [LF] q), q)
  | FindEOL_from e =>
      if (0 <=? e) && (e <=? zlen q)
      then Some (Pos (option_map (Z.add e) (first_occurrence [LF] (zdrop e q))), q) else None
  | HasWritten d => if zlen d <=? room then Some (Done, q ++ d) else None
  | Unwrite n => if n <=? zlen q then Some (Done, ztake (zlen q - n) q) else None
  | EnsureWritable n => Some (Done, q)
  | Shrink n => Some (Done, q)
  | Swap rhs => Some (Str q, contents rhs)
  | ReadFd (ReadErr e) => Some (Failed (-1) e, q)
  | ReadFd (ReadData d) => Some (Num (zlen d), q ++ d)
  end.

(** The arguments are sizes ([size_t], so not negative), the data that must fit
    does, a StringPiece is no longer than an int tells, the search from a
    pointer starts in the queue, the other buffer is one too, and [readv]
    delivers no more than it is offered. *)
Definition admissible (b : Buffer) (o : op) : Prop :=
  match o with
  | Append d => writerIndex_ b + zlen d <= MAX_SIZE
  | AppendPiece d => zlen d < 2 ^ 31 /\ writerIndex_ b + zlen d <= MAX_SIZE
  | AppendInt w _ => writerIndex_ b + 8 <= MAX_SIZE
  | Retrieve n | RetrieveAsString n | Unwrite n => 0 <= n
  | ToStringPiece => zlen (contents b) < 2 ^ 31
  | FindCRLF_from e => 0 <= e <= zlen (contents b)
  | EnsureWritable n => 0 <= n /\ writerIndex_ b + n <= MAX_SIZE
  | Shrink n => 0 <= n /\ zlen (contents b) < 2 ^ 31 /\
                zlen (contents b) + n <= MAX_SIZE - kCheapPrepend
  | Swap rhs => good rhs
  | ReadFd (ReadData d) => zlen d <= readv_capacity b /\ size b + zlen d <= MAX_SIZE
  | _ => True
  end.

Lemma mem_of_network n (x : Z) : mem_of_int n (bswap n (x mod 256 ^ Z.of_nat n)) = be_bytes n x.
Proof. rewrite bswap_mod, mem_of_bswap. reflexivity. Qed.

Lemma be_bytes_1 x : be_bytes 1 x = mem_of_int 1 x.
Proof. reflexivity. Qed.

Lemma appendInt_append w b x : appendInt w b x = append b (be_bytes (nbytes w) x).
Proof.
  destruct w; cbn [appendInt nbytes];
    unfold appendInt8, appendInt16, appendInt32, appendInt64,
      hostToNetwork16, hostToNetwork32, hostToNetwork64, u8, u16, u32, u64.
  - rewrite be_bytes_1. f_equal. apply (mem_of_int_mod 1).
  - f_equal. apply (mem_of_network 2).
  - f_equal. apply (mem_of_network 4).
  - f_equal. apply (mem_of_network 8).
Qed.

Lemma prependInt_prepend w b x : prependInt w b x = prepend b (be_bytes (nbytes w) x).
Proof.
  destruct w; cbn [prependInt nbytes];
    unfold prependInt8, prependInt16, prependInt32, prependInt64,
      hostToNetwork16, hostToNetwork32, hostToNetwork64, u8, u16, u32, u64.
  - rewrite be_bytes_1. f_equal. apply (mem_of_int_mod 1).
  - f_equal. apply (mem_of_network 2).
  - f_equal. apply (mem_of_network 4).
  - f_equal. apply (mem_of_network 8).
Qed.

Lemma peek_mem_contents b n : good b -> 0 <= n <= readableBytes b ->
  peek_mem b n = int_of_mem (ztake n (contents b)).
Proof.
  intros G Hn. unfold peek_mem, contents, zslice, peek.
  rewrite ztake_ztake. do 2 f_equal. lia.
Qed.

(** What the four [peekIntN] share, and the four [readIntN]. *)
Lemma peekInt_unfold w b : good b ->
  peekInt w b =
    (assert! Z.of_nat (nbytes w) <=? readableBytes b;
     Ok (to_signed (nbits w) (be_value (ztake (Z.of_nat (nbytes w)) (contents b))))).
Proof.
  intros G.
  assert (L : forall n, 0 <= n <= readableBytes b ->
            length (ztake n (contents b)) = Z.to_nat n).
  { intros n Hn. unfold ztake. rewrite length_take.
    pose proof (zlen_contents b (proj1 G)). unfold zlen in *. lia. }
  destruct w; cbn [peekInt nbytes];
    unfold peekInt8, peekInt16, peekInt32, peekInt64, networkToHost16, networkToHost32, networkToHost64;
    change (Z.of_nat 1) with 1; change (Z.of_nat 2) with 2;
    change (Z.of_nat 4) with 4; change (Z.of_nat 8) with 8;
    match goal with |- context [assert_ (?n <=? readableBytes _)] =>
      destruct (Z.leb_spec n (readableBytes b)); cbn [assert_ res_bind]; [|reflexivity];
      rewrite peek_mem_contents by (done || lia);
      pose proof (L n ltac:(lia)) as L'
    end.
  - change (nbits W8) with 8. do 2 f_equal. unfold s8.
    destruct (ztake 1 (contents b)) as [|c [|]]; try discriminate L'. reflexivity.
  - rewrite (networkToHost_value 2) by done. reflexivity.
  - rewrite (networkToHost_value 4) by done. reflexivity.
  - rewrite (networkToHost_value 8) by done. reflexivity.
Qed.

Lemma retrieveInt_retrieve w b : retrieveInt w b = retrieve b (Z.of_nat (nbytes w)).
Proof. by destruct w. Qed.

Lemma readInt_unfold w b : good b ->
  readInt w b =
    (assert! Z.of_nat (nbytes w) <=? readableBytes b;
     let* b' := retrieve b (Z.of_nat (nbytes w)) in
     Ok (to_signed (nbits w) (be_value (ztake (Z.of_nat (nbytes w)) (contents b))), b')).
Proof.
  intros G. assert (E : readInt w b = (let* x := peekInt w b in let* b' := retrieveInt w b in Ok (x, b'))) by (by destruct w).
  rewrite E, peekInt_unfold, retrieveInt_retrieve by done. by destruct (_ <=? _).
Qed.

(** ** Searching for the end of a line *)

Lemma findCRLF_search b : wf b ->
  findCRLF b =
    (let i := std_search kCRLF (contents b) in
     if (i =? length (contents b))%nat then None else Some (peek b + Z.of_nat i)).
Proof.
  intros W. unfold findCRLF, findCRLF_from. rewrite <-contents_range by done.
  pose proof (zlen_contents b W) as L. rewrite readable_wf in L by done.
  pose proof (std_search_le kCRLF (contents b)) as Hle.
  unfold zlen, peek, beginWrite in *.
  destruct (Nat.eqb_spec (std_search kCRLF (contents b)) (length (contents b))) as [->|Hne].
  - rewrite (proj2 (Z.eqb_eq _ _)) by lia. done.
  - rewrite (proj2 (Z.eqb_neq _ _)) by lia. done.
Qed.

Lemma occurs_CRLF_length l i : occurs_at kCRLF l i -> (i + 2 <= length l)%nat.
Proof.
  intros H. destruct (occurs_at_split kCRLF l i ltac:(done) H) as (l1 & l2 & -> & <-).
  rewrite !length_app. simpl. lia.
Qed.

Lemma first_occurrence_search p q : p <> [] ->
  first_occurrence p q =
    if (std_search p q =? length q)%nat then None else Some (Z.of_nat (std_search p q)).
Proof.
  intros Hp. unfold first_occurrence. pose proof (std_search_le p q) as Hle.
  destruct (Nat.eqb_spec (std_search p q) (length q)) as [E|E].
  - rewrite (proj2 (list_find_None _ _)); [done|]. apply Forall_forall. intros i _.
    by apply (proj1 (std_search_end p q Hp) E).
  - rewrite (proj2 (list_find_Some _ _ (std_search p q) (std_search p q))); [done|].
    split; [apply lookup_seq; lia|]. split; [apply std_search_found; lia|].
    intros j y [Hj _]%lookup_seq Hlt Hy. cbn in Hj. subst y. apply std_search_first in Hy. lia.
Qed.

Lemma std_find_search c l : std_find c l = std_search [c] l.
Proof.
  induction l as [|x l IH]; [done|]. cbn [std_find std_search is_prefix]. rewrite andb_true_r, <-IH.
  destruct (byte_eqb x c) eqn:E; [apply byte_eqb_true in E as ->; by rewrite byte_eqb_refl|].
  rewrite (proj2 (byte_eqb_false c x)); [done|]. apply byte_eqb_false in E. congruence.
Qed.

(** The characters from an offset on. *)
Lemma range_from_offset b e : wf b -> 0 <= e <= readableBytes b ->
  range_from b (peek b + e) = zdrop e (contents b).
Proof.
  intros W He. pose proof W as []. rewrite contents_range by done. rewrite readable_wf in He by done.
  unfold range_from, peek, beginWrite. unfold zslice. rewrite zdrop_ztake, zdrop_zdrop by lia. f_equal; lia.
Qed.

Lemma findCRLF_from_spec b e : wf b -> 0 <= e <= readableBytes b ->
  pos b (findCRLF_from b (peek b + e)) = Pos (option_map (Z.add e) (first_occurrence kCRLF (zdrop e (contents b)))).
Proof.
  intros W He. unfold findCRLF_from. rewrite range_from_offset, first_occurrence_search by done.
  set (l := zdrop e (contents b)). pose proof (std_search_le kCRLF l) as Hle.
  assert (L : zlen l = writerIndex_ b - readerIndex_ b - e).
  { subst l. pose proof (zlen_contents b W) as L. rewrite readable_wf in * by done. rewrite zlen_zdrop_le; lia. }
  unfold zlen, pos, peek, beginWrite in *.
  destruct (Nat.eqb_spec (std_search kCRLF l) (length l)) as [E|E].
  - rewrite (proj2 (Z.eqb_eq _ _)) by lia. done.
  - rewrite (proj2 (Z.eqb_neq _ _)) by lia. cbn. do 2 f_equal. lia.
Qed.

Lemma findCRLF_0 b : wf b -> pos b (findCRLF b) = Pos (first_occurrence kCRLF (contents b)).
Proof.
  intros W. pose proof (zlen_contents b W). pose proof (zlen_nonneg (contents b)). unfold findCRLF.
  pose proof (findCRLF_from_spec b 0 W ltac:(lia)) as E. rewrite Z.add_0_r, zdrop_nonpos in E by lia. rewrite E.
  by destruct (first_occurrence _ _).
Qed.

Lemma memchr_spec b e l : pos b (memchr (peek b + e) LF l) = Pos (option_map (Z.add e) (first_occurrence [LF] l)).
Proof.
  unfold memchr, pos. rewrite first_occurrence_search, std_find_search by done.
  destruct (_ =? _)%nat; [done|]. cbn. do 2 f_equal. lia.
Qed.

Lemma findEOL_0 b : pos b (findEOL b) = Pos (first_occurrence [LF] (contents b)).
Proof.
  pose proof (memchr_spec b 0 (contents b)) as E. rewrite Z.add_0_r in E. unfold findEOL. rewrite E.
  by destruct (first_occurrence _ _).
Qed.

Lemma findEOL_from_spec b e : wf b ->
  findEOL_from b (peek b + e) =
    if (0 <=? e) && (e <=? readableBytes b) then Ok (memchr (peek b + e) LF (zdrop e (contents b))) else Err EAssert.
Proof.
  intros W. unfold findEOL_from. replace (peek b <=? peek b + e) with (0 <=? e) by lia.
  replace (peek b + e <=? beginWrite b) with (e <=? readableBytes b)
    by (rewrite readable_wf by done; unfold peek, beginWrite; lia).
  destruct (Z.leb_spec 0 e), (Z.leb_spec e (readableBytes b)); try done. cbn. by rewrite range_from_offset.
Qed.

(** A call does what the queue specification says, or stops at an assertion. *)
Definition implements (m : res (output * Buffer)) (s : option (output * bytes)) : Prop :=
  match s with
  | Some (r, q) => exists b', m = Ok (r, b') /\ good b' /\ contents b' = q
  | None => m = Err EAssert
  end.

Lemma append_implements b d : good b -> writerIndex_ b + zlen d <= MAX_SIZE ->
  implements (done_ (append b d)) (Some (Done, contents b ++ d)).
Proof.
  intros G Hd. destruct (append_ok b d G Hd) as (b' & -> & G' & C & _). simpl. eauto.
Qed.

Lemma prepend_implements b d : good b ->
  implements (done_ (prepend b d))
    (if zlen d <=? prependableBytes b then Some (Done, d ++ contents b) else None).
Proof.
  intros G. pose proof (prepend_spec b d G) as P. destruct (zlen d <=? prependableBytes b).
  - destruct P as (b' & -> & G' & C). simpl. eauto.
  - rewrite P. done.
Qed.

Lemma retrieve_implements b n : good b -> 0 <= n ->
  implements (done_ (retrieve b n))
    (if n <=? zlen (contents b) then Some (Done, zdrop n (contents b)) else None).
Proof.
  intros G A. rewrite zlen_contents by apply G. pose proof (retrieve_spec b n G A) as R.
  destruct (n <=? readableBytes b); [|by rewrite R].
  destruct R as (b' & -> & R). simpl. eauto.
Qed.

Lemma retrieveUntil_implements b e : good b ->
  implements (done_ (retrieveUntil b (peek b + e)))
    (if (0 <=? e) && (e <=? zlen (contents b))
     then Some (Done, zdrop e (contents b)) else None).
Proof.
  intros G. rewrite zlen_contents by apply G.
  pose proof (retrieveUntil_spec b (peek b + e) G) as R.
  rewrite readable_wf by apply G. unfold peek, beginWrite in *.
  replace (readerIndex_ b <=? readerIndex_ b + e) with (0 <=? e) in R by lia.
  replace (readerIndex_ b + e <=? writerIndex_ b)
    with (e <=? writerIndex_ b - readerIndex_ b) in R by lia.
  replace (readerIndex_ b + e - readerIndex_ b) with e in R by lia.
  destruct (_ && _); [|by rewrite R]. destruct R as (b' & -> & R). simpl. eauto.
Qed.

Lemma retrieveAsString_implements b n : good b -> 0 <= n ->
  implements (out Str (retrieveAsString b n))
    (if n <=? zlen (contents b)
     then Some (Str (ztake n (contents b)), zdrop n (contents b)) else None).
Proof.
  intros G A. rewrite zlen_contents by apply G. pose proof (retrieveAsString_spec b n G A) as R.
  destruct (n <=? readableBytes b); [|by rewrite R].
  destruct R as (b' & -> & R). simpl. eauto.
Qed.

Lemma retrieveAllAsString_implements b : good b ->
  implements (out Str (retrieveAllAsString b)) (Some (Str (contents b), [])).
Proof.
  intros G. pose proof (zlen_contents b (proj1 G)) as L. pose proof (zlen_nonneg (contents b)).
  pose proof (retrieveAsString_implements b (readableBytes b) G ltac:(lia)) as R.
  rewrite (proj2 (Z.leb_le _ _)), ztake_ge, zdrop_ge in R by lia. exact R.
Qed.

Lemma readInt_implements w b : good b ->
  implements (out Num (readInt w b))
    (let n := Z.of_nat (nbytes w) in
     if n <=? zlen (contents b)
     then Some (Num (to_signed (nbits w) (be_value (ztake n (contents b)))),
                zdrop n (contents b))
     else None).
Proof.
  intros G. rewrite readInt_unfold, zlen_contents by (done || apply G).
  pose proof (retrieve_spec b (Z.of_nat (nbytes w)) G ltac:(lia)) as R. cbv zeta.
  destruct (_ <=? readableBytes b); [|done].
  destruct R as (b' & -> & R). simpl. eauto.
Qed.

Lemma unwrite_implements b n : good b -> 0 <= n ->
  implements (done_ (unwrite b n))
    (if n <=? zlen (contents b)
     then Some (Done, ztake (zlen (contents b) - n) (contents b)) else None).
Proof.
  intros G A. pose proof (unwrite_spec b n G A) as R.
  rewrite (zlen_contents b) by apply G. destruct (n <=? readableBytes b); [|by rewrite R].
  destruct R as (b' & -> & R). simpl. eauto.
Qed.

Lemma enuserWritableBytes_implements b n : good b ->
  0 <= n -> writerIndex_ b + n <= MAX_SIZE ->
  implements (done_ (enuserWritableBytes b n)) (Some (Done, contents b)).
Proof.
  intros G A1 A2. pose proof (proj1 G) as [].
  pose proof (enuserWritableBytes_spec b n G ltac:(lia)) as R.
  rewrite (proj2 (Z.ltb_ge MAX_SIZE _)), andb_false_r in R by lia.
  destruct R as (b' & -> & G' & C & _). simpl. eauto.
Qed.

Lemma find_implements b p o q : good b -> pos b p = o -> contents b = q ->
  implements (Ok (pos b p, b)) (Some (o, q)).
Proof. intros G <- <-. by exists b. Qed.

Lemma peekInt_implements w b : good b ->
  implements (let* x := peekInt w b in Ok (Num x, b))
    (let n := Z.of_nat (nbytes w) in
     if n <=? zlen (contents b)
     then Some (Num (to_signed (nbits w) (be_value (ztake n (contents b)))), contents b) else None).
Proof.
  intros G. rewrite peekInt_unfold, zlen_contents by (done || apply G). cbv zeta.
  destruct (_ <=? readableBytes b); [|done]. by exists b.
Qed.

Lemma hasWritten_implements b d : good b ->
  implements (step b (HasWritten d))
    (if zlen d <=? writableBytes b then Some (Done, contents b ++ d) else None).
Proof.
  intros G. cbn [step]. destruct (Z.leb_spec (zlen d) (writableBytes b)) as [Hle|Hgt].
  - rewrite ztake_ge by lia. destruct (hasWritten_blit b d G Hle) as (b' & E & G' & C & _).
    unfold beginWrite. rewrite E. cbn. eauto.
  - pose proof G as [W S]. pose proof (writable_wf b W) as Ew. pose proof W as [].
    unfold implements, hasWritten, done_. rewrite (proj2 (Z.leb_gt _ _)); [done|].
    assert (L : zlen (zblit (beginWrite b) (ztake (writableBytes b) d) (buffer_ b)) = size b).
    { unfold beginWrite. apply zlen_zblit; rewrite ?zlen_ztake; unfold size in *; lia. }
    change (u64 (zlen (zblit (beginWrite b) (ztake (writableBytes b) d) (buffer_ b)) - writerIndex_ b) < zlen d).
    rewrite L. exact Hgt.
Qed.

(** ** Properties *)

(** C1: the buffer implements a byte queue.  From any state satisfying the
    representation invariant, every public operation (those that only return a
    pointer or the size of the free space apart) with admissible arguments
    either does to the unread bytes exactly what the queue specification says,
    returning what it says and preserving the invariant, or, when the
    specification has no result, stops at an assertion; no other outcome is
    possible. *)
Theorem buffer_refines_queue (b : Buffer) (o : op) :
  good b -> admissible b o ->
  implements (step b o) (spec_step (prependableBytes b) (writableBytes b) (contents b) o).
Proof.
  intros G A. pose proof (zlen_contents b (proj1 G)) as L. pose proof (zlen_nonneg (contents b)) as Hpos.
  destruct o; cbn [spec_step admissible] in A |- *; try (cbn [step]).
  - by apply append_implements.
  - destruct A as [A1 A2]. rewrite append_piece_ok by done. by apply append_implements.
  - rewrite appendInt_append. apply append_implements; [done|].
    rewrite zlen_be_bytes. destruct w; simpl; lia.
  - by apply prepend_implements.
  - rewrite prependInt_prepend, <-(zlen_be_bytes _ x). by apply prepend_implements.
  - by apply retrieve_implements.
  - by apply retrieveUntil_implements.
  - rewrite retrieveInt_retrieve. apply retrieve_implements; [done|lia].
  - destruct (retrieveAll_spec b (proj1 G) (proj2 G)) as [W C]. exists (retrieveAll b). by split; [|split; [split|]; try apply G].
  - by apply retrieveAsString_implements.
  - by apply retrieveAllAsString_implements.
  - exists b. unfold toStringPiece. rewrite s32_small by lia. by split_and!.
  - exists b. rewrite L. by split_and!.
  - by apply peekInt_implements.
  - by apply readInt_implements.
  - apply find_implements; [done| |done]. apply findCRLF_0, G.
  - apply find_implements; [done| |done]. apply findCRLF_from_spec; [apply G|lia].
  - apply find_implements; [done| |done]. apply findEOL_0.
  - rewrite findEOL_from_spec, <-L by apply G. destruct (_ && _); [|done]. apply find_implements; [done| |done].
    apply memchr_spec.
  - by apply hasWritten_implements.
  - by apply unwrite_implements.
  - apply enuserWritableBytes_implements; [done|apply A..].
  - destruct A as (A1 & A2 & A3).
    destruct (shrink_spec b reserve G) as (b' & -> & G' & C & _); [lia..|]. simpl. eauto.
  - cbn. exists (mkBuffer (buffer_ rhs) (readerIndex_ rhs) (writerIndex_ rhs)). destruct b, rhs. by split_and!.
  - destruct r as [e|d]; [by exists b|]. destruct A as (A1 & A2).
    destruct (readFd_spec b d G A1 A2) as (rr & E & En & Es & G' & C). rewrite E. cbn. rewrite Es, En. eauto.
Qed.

Definition ex_buffer : Buffer := mkBuffer (bs "________GET / HTTP/1.1____") 8 22.

Lemma ex_buffer_good : good ex_buffer.
Proof. repeat split; vm_compute; congruence. Qed.

Lemma buffer_refines_queue_witness :
  good ex_buffer /\ admissible ex_buffer (Append (bs "more than four bytes")) /\
  exists b', step ex_buffer (Append (bs "more than four bytes")) = Ok (Done, b') /\ good b' /\
    contents b' = bs "GET / HTTP/1.1more than four bytes".
Proof.
  split; [exact ex_buffer_good|].
  assert (A : admissible ex_buffer (Append (bs "more than four bytes")))
    by (vm_compute; congruence).
  split; [exact A|].
  exact (buffer_refines_queue ex_buffer (Append (bs "more than four bytes")) ex_buffer_good A).
Defined.

(** [findCRLF] returns the position of the first CR LF of the unread bytes,
    and NULL exactly when there is none. *)
Theorem findCRLF_first (b : Buffer) : good b ->
  match findCRLF b with
  | Some p =>
      exists l1 l2, contents b = l1 ++ kCRLF ++ l2 /\ p = peek b + zlen l1 /\
        forall k1 k2, contents b = k1 ++ kCRLF ++ k2 -> zlen l1 <= zlen k1
  | None => forall k1 k2, contents b <> k1 ++ kCRLF ++ k2
  end.
Proof.
  intros [W _]. rewrite findCRLF_search by done. cbv zeta.
  pose proof (std_search_le kCRLF (contents b)) as Hle.
  destruct (Nat.eqb_spec (std_search kCRLF (contents b)) (length (contents b))) as [E|Hne].
  - pose proof (proj1 (std_search_end kCRLF _ ltac:(done)) E) as E'.
    intros k1 k2 C. apply (E' (length k1)). rewrite C. apply occurs_at_app.
  - assert (Ho := std_search_found kCRLF (contents b) ltac:(lia)).
    destruct (occurs_at_split kCRLF _ _ ltac:(done) Ho) as (l1 & l2 & C & Hl).
    exists l1, l2. split; [done|]. unfold zlen. rewrite Hl. split; [done|].
    intros k1 k2 C'. apply inj_le. apply std_search_first. rewrite C'. apply occurs_at_app.
Qed.

Lemma findCRLF_first_witness :
  good (mkBuffer (bs "________ab" ++ CRLF ++ CRLF) 8 14) /\
  findCRLF (mkBuffer (bs "________ab" ++ CRLF ++ CRLF) 8 14) = Some 10 /\
  match findCRLF (mkBuffer (bs "________ab" ++ CRLF ++ CRLF) 8 14) with
  | Some p =>
      exists l1 l2, contents (mkBuffer (bs "________ab" ++ CRLF ++ CRLF) 8 14)
          = l1 ++ kCRLF ++ l2 /\ p = 8 + zlen l1 /\
        forall k1 k2, contents (mkBuffer (bs "________ab" ++ CRLF ++ CRLF) 8 14)
          = k1 ++ kCRLF ++ k2 -> zlen l1 <= zlen k1
  | None => False
  end.
Proof.
  assert (G : good (mkBuffer (bs "________ab" ++ CRLF ++ CRLF) 8 14)).
  { repeat split; vm_compute; congruence. }
  split; [exact G|]. split; [vm_compute; reflexivity|].
  exact (findCRLF_first _ G).
Defined.

(** integers round-trip through network byte order: what [prependIntN] or
    [appendIntN] stored is what [readIntN] returns, for every width and every
    value (reduced to the signed N-bit variable it is passed in), and the other
    bytes are untouched. *)
Theorem int_roundtrip (w : width) (b : Buffer) (x : Z) (b1 : Buffer) :
  good b ->
  (prependInt w b x = Ok b1 ->
     exists b2, readInt w b1 = Ok (to_signed (nbits w) x, b2) /\ contents b2 = contents b) /\
  (writerIndex_ b + 8 <= MAX_SIZE ->
   appendInt w b x = Ok b1 ->
     exists b2 b3, retrieve b1 (readableBytes b) = Ok b2 /\
       readInt w b2 = Ok (to_signed (nbits w) x, b3) /\ contents b3 = []).
Proof.
  intros G.
  assert (R : forall b' q, good b' -> contents b' = be_bytes (nbytes w) x ++ q ->
            exists b2, readInt w b' = Ok (to_signed (nbits w) x, b2) /\ contents b2 = q).
  { intros b' q G' C.
    pose proof (readInt_implements w b' G') as S.
    cbv zeta in S. rewrite C in S.
    rewrite ztake_app_exact, zdrop_app_exact, zlen_app, zlen_be_bytes in S
      by (rewrite zlen_be_bytes; done).
    pose proof (zlen_nonneg q). rewrite (proj2 (Z.leb_le _ _)) in S by lia.
    destruct S as (b2 & S & _ & C2). unfold out in S.
    destruct (readInt w b') as [[v b0]|]; simpl in S; [|discriminate].
    injection S as -> ->. exists b2. split; [|done].
    do 2 f_equal. rewrite be_value_bytes. unfold to_signed.
    replace (256 ^ Z.of_nat (nbytes w)) with (2 ^ nbits w) by (destruct w; done).
    f_equal. rewrite Zplus_mod_idemp_l. done. }
  split.
  - intros E. rewrite prependInt_prepend in E.
    pose proof (prepend_spec b (be_bytes (nbytes w) x) G) as P.
    destruct (_ <=? _); [|congruence]. destruct P as (b' & E' & G' & C).
    rewrite E in E'. injection E' as <-. eauto.
  - intros Hm E. rewrite appendInt_append in E.
    destruct (append_ok b (be_bytes (nbytes w) x) G) as (b' & E' & G' & C & _).
    { rewrite zlen_be_bytes. destruct w; simpl; lia. }
    rewrite E in E'. injection E' as <-.
    pose proof (zlen_contents b (proj1 G)) as L.
    pose proof (zlen_contents b1 (proj1 G')) as L1. rewrite C in L1.
    pose proof (zlen_nonneg (contents b)).
    pose proof (retrieve_spec b1 (readableBytes b) G' ltac:(lia)) as Q.
    rewrite (proj2 (Z.leb_le _ _)) in Q by zlia.
    destruct Q as (b2 & E2 & G2 & C2). rewrite C, zdrop_app_exact in C2 by done.
    destruct (R b2 [] G2) as (b3 & E3 & C3); [by rewrite app_nil_r|]. eauto.
Qed.

Lemma int_roundtrip_witness :
  good ex_buffer /\
  (exists b1, prependInt W32 ex_buffer (-19088744) = Ok b1 /\
   exists b2, readInt W32 b1 = Ok (to_signed (nbits W32) (-19088744), b2) /\
     contents b2 = contents ex_buffer).
Proof.
  split; [exact ex_buffer_good|]. eexists. split; [vm_compute; reflexivity|].
  apply (proj1 (int_roundtrip W32 ex_buffer (-19088744) _ ex_buffer_good)).
  vm_compute. reflexivity.
Defined.

(** making room.  [enuserWritableBytes(len)] leaves the unread bytes as
    they are and at least [len] writable; the vector is enlarged only when the
    free space at both ends together is too small, and then to exactly
    [writerIndex_ + len]; the assertions of [makeSpace] never fail; the only
    failure is length_error, exactly when the vector would exceed max_size(). *)
Theorem enuserWritableBytes_bounds (b : Buffer) (len : Z) :
  good b -> 0 <= len <= MAX_SIZE ->
  let free := writableBytes b + prependableBytes b - kCheapPrepend in
  match enuserWritableBytes b len with
  | Ok b' => good b' /\ contents b' = contents b /\ len <= writableBytes b' /\
      (len <= writableBytes b \/ len <= free -> size b' = size b) /\
      (writableBytes b < len -> free < len -> size b' = writerIndex_ b + len)
  | Err e => e = ELength /\ writableBytes b < len /\ free < len /\
      MAX_SIZE < writerIndex_ b + len
  end.
Proof.
  intros G Hlen free. pose proof (enuserWritableBytes_spec b len G Hlen) as HE.
  pose proof G as [W S]. pose proof (writable_wf b W) as Ew. pose proof W as [].
  subst free. unfold prependableBytes, MAX_SIZE, kCheapPrepend in *.
  destruct (Z.ltb_spec (writableBytes b) len);
    destruct (Z.ltb_spec (writableBytes b + readerIndex_ b) (len + 8));
    destruct (Z.ltb_spec (2 ^ 63 - 1) (writerIndex_ b + len)); cbn [andb] in HE;
    try (rewrite HE; cbn iota beta; split_and!; done || lia);
    destruct HE as (b' & E & G' & C & Hw & Hs); rewrite E;
    (split; [done|]; split; [done|]; split; [done|]).
  all: revert E; unfold enuserWritableBytes, makeSpace, prependableBytes, kCheapPrepend, vector_resize, MAX_SIZE;
    rewrite ?(u64_small (_ + _)) by lia.
  all: repeat match goal with
    | H : ?x < ?y |- context [?x <? ?y] => rewrite (proj2 (Z.ltb_lt x y) H)
    | H : ?y <= ?x |- context [?x <? ?y] => rewrite (proj2 (Z.ltb_ge x y) H)
    end; cbn [res_bind]; intros E; inv_ok; subst; unfold size; cbn [buffer_].
  all: split; intros; try lia.
  all: try (rewrite zlen_zresize by lia; lia).
  all: try (rewrite zlen_zblit by (rewrite ?zlen_contents, ?readable_wf by done; unfold size in *; lia); lia).
Qed.

Lemma enuserWritableBytes_bounds_witness :
  good ex_buffer /\ 0 <= 12 <= MAX_SIZE /\
  (exists b', enuserWritableBytes ex_buffer 12 = Ok b' /\ size b' = 34) /\
  match enuserWritableBytes ex_buffer 12 with
  | Ok b' => good b' /\ contents b' = contents ex_buffer /\ 12 <= writableBytes b' /\
      (12 <= writableBytes ex_buffer \/
       12 <= writableBytes ex_buffer + prependableBytes ex_buffer - kCheapPrepend ->
       size b' = size ex_buffer) /\
      (writableBytes ex_buffer < 12 ->
       writableBytes ex_buffer + prependableBytes ex_buffer - kCheapPrepend < 12 ->
       size b' = writerIndex_ ex_buffer + 12)
  | Err e => False
  end.
Proof.
  assert (H : 0 <= 12 <= MAX_SIZE) by (vm_compute; split; congruence).
  split; [exact ex_buffer_good|]. split; [exact H|].
  split; [eexists; split; vm_compute; reflexivity|].
  exact (enuserWritableBytes_bounds ex_buffer 12 ex_buffer_good H).
Defined.
