(* ===== verification/StdMap.v ===== *)
(** * Ordered containers of the C++ standard library

    [std::set<K>] and [std::map<K,V>] as the code uses them: kept in the order
    of [operator<], iterated in that order, one entry per key.  The order is a
    class, with the instances the program uses: integers, [std::pair] and
    strings ([char_traits::compare], unsigned bytes). *)

From S2P Require Import Prelude.

Class StdLess (K : Type) : Type := {
  ltb : K -> K -> bool;
  ltb_irrefl : forall x, ltb x x = false;
  ltb_trans : forall x y z, ltb x y = true -> ltb y z = true -> ltb x z = true;
  ltb_total : forall x y, ltb x y = false -> ltb y x = false -> x = y;
}.

(** ** std::set *)

Section set.
Context {K : Type} `{StdLess K}.

(** [insert]: the set and whether the key was new. *)
Fixpoint set_insert (k : K) (s : list K) : list K * bool :=
  match s with
  | [] => ([k], true)
  | x :: s' =>
      if ltb k x then (k :: s, true)
      else if ltb x k then ((x :: (set_insert k s').1), (set_insert k s').2)
      else (s, false)
  end.

(** [erase(key)]: the set and the number of elements removed. *)
Fixpoint set_erase (k : K) (s : list K) : list K * Z :=
  match s with
  | [] => ([], 0)
  | x :: s' =>
      if ltb k x then (s, 0)
      else if ltb x k then ((x :: (set_erase k s').1), (set_erase k s').2)
      else (s', 1)
  end.

(** [find(key) != end()]. *)
Fixpoint set_mem (k : K) (s : list K) : bool :=
  match s with
  | [] => false
  | x :: s' => if ltb k x then false else if ltb x k then set_mem k s' else true
  end.

(** [lower_bound(key)]: the elements before it and the elements from it. *)
Fixpoint set_lower_bound (k : K) (s : list K) : list K * list K :=
  match s with
  | [] => ([], [])
  | x :: s' =>
      if ltb x k then ((x :: (set_lower_bound k s').1), (set_lower_bound k s').2)
      else ([], s)
  end.

Inductive ordered : list K -> Prop :=
| ordered_nil : ordered []
| ordered_cons x s : (forall y, y ∈ s -> ltb x y = true) -> ordered s -> ordered (x :: s).

Lemma ltb_asym x y : ltb x y = true -> ltb y x = false.
Proof.
  intros E. destruct (ltb y x) eqn:E'; [|done].
  pose proof (ltb_trans _ _ _ E E'). rewrite ltb_irrefl in *. done.
Qed.

Lemma ltb_eq x y : ltb x y = false -> ltb y x = false -> x = y.
Proof. apply ltb_total. Qed.

Lemma ordered_tail x s : ordered (x :: s) -> ordered s.
Proof. by inversion 1. Qed.
Lemma ordered_head x s y : ordered (x :: s) -> y ∈ s -> ltb x y = true.
Proof. inversion 1; auto. Qed.

Lemma set_insert_elem k s y : ordered s -> y ∈ (set_insert k s).1 <-> y = k \/ y ∈ s.
Proof.
  intros O. induction s as [|x s IH]; simpl.
  - rewrite list_elem_of_singleton. set_solver.
  - destruct (ltb k x) eqn:E1; simpl; [set_solver|].
    destruct (ltb x k) eqn:E2; simpl.
    + rewrite !elem_of_cons, IH by (eapply ordered_tail; eauto). tauto.
    + rewrite (ltb_eq _ _ E1 E2). set_solver.
Qed.

Lemma set_insert_ordered k s : ordered s -> ordered (set_insert k s).1.
Proof.
  intros O. induction s as [|x s IH]; simpl.
  - constructor; [|constructor]. intros y Hy. by apply not_elem_of_nil in Hy.
  - destruct (ltb k x) eqn:E1; simpl.
    + constructor; [|done]. intros y [->|Hy]%elem_of_cons; [done|].
      eapply ltb_trans; [exact E1|]. eapply ordered_head; eauto.
    + destruct (ltb x k) eqn:E2; simpl; [|done].
      constructor; [|apply IH; eapply ordered_tail; eauto].
      intros y Hy. apply set_insert_elem in Hy as [->|Hy]; [done| |eapply ordered_tail; eauto].
      eapply ordered_head; eauto.
Qed.

Lemma set_mem_elem k s : ordered s -> set_mem k s = true <-> k ∈ s.
Proof.
  intros O. induction s as [|x s IH]; simpl.
  - split; [done|]. intros Hk. by apply not_elem_of_nil in Hk.
  - rewrite elem_of_cons. destruct (ltb k x) eqn:E1.
    + split; [done|]. intros [->|Hk]; [rewrite ltb_irrefl in E1; done|].
      pose proof (ordered_head _ _ _ O Hk) as Hx.
      rewrite (ltb_asym _ _ Hx) in E1. done.
    + destruct (ltb x k) eqn:E2.
      * rewrite IH by (eapply ordered_tail; eauto). split; [tauto|].
        intros [->|]; [rewrite ltb_irrefl in E2; done|done].
      * rewrite (ltb_eq _ _ E1 E2). tauto.
Qed.

Lemma set_mem_true k s : ordered s -> k ∈ s -> set_mem k s = true.
Proof. intros O. by apply set_mem_elem. Qed.
Lemma set_mem_false k s : ordered s -> k ∉ s -> set_mem k s = false.
Proof. intros O Hk. apply not_true_iff_false. by rewrite set_mem_elem. Qed.

Lemma set_insert_fresh k s : ordered s -> (set_insert k s).2 = negb (set_mem k s).
Proof.
  intros O. induction s as [|x s IH]; simpl; [done|].
  destruct (ltb k x) eqn:E1; [done|]. destruct (ltb x k) eqn:E2; simpl; [|done].
  apply IH. eapply ordered_tail; eauto.
Qed.

Lemma set_erase_elem k s y : ordered s -> y ∈ (set_erase k s).1 <-> y <> k /\ y ∈ s.
Proof.
  intros O. induction s as [|x s IH]; simpl.
  - rewrite !elem_of_nil. tauto.
  - destruct (ltb k x) eqn:E1; simpl.
    + split; [|tauto]. intros Hy. split; [|done]. intros ->.
      apply elem_of_cons in Hy as [->|Hy]; [rewrite ltb_irrefl in E1; done|].
      pose proof (ordered_head _ _ _ O Hy) as Hx. rewrite (ltb_asym _ _ Hx) in E1. done.
    + destruct (ltb x k) eqn:E2; simpl.
      * rewrite !elem_of_cons, IH by (eapply ordered_tail; eauto). split.
        -- intros [->|[? ?]]; [|tauto]. split; [|tauto]. intros ->.
           rewrite ltb_irrefl in E2. done.
        -- tauto.
      * rewrite (ltb_eq _ _ E1 E2) in *. rewrite elem_of_cons. split; [|tauto].
        intros Hy. split; [|tauto]. intros ->.
        pose proof (ordered_head _ _ _ O Hy) as Hx. rewrite ltb_irrefl in Hx. done.
Qed.

Lemma set_erase_ordered k s : ordered s -> ordered (set_erase k s).1.
Proof.
  intros O. induction s as [|x s IH]; simpl; [done|].
  destruct (ltb k x) eqn:E1; simpl; [done|].
  destruct (ltb x k) eqn:E2; simpl; [|eapply ordered_tail; eauto].
  constructor; [|apply IH; eapply ordered_tail; eauto].
  intros y Hy. apply set_erase_elem in Hy; [|eapply ordered_tail; eauto].
  eapply ordered_head; [eauto|tauto].
Qed.

Lemma set_erase_count k s : ordered s -> (set_erase k s).2 = if set_mem k s then 1 else 0.
Proof.
  intros O. induction s as [|x s IH]; simpl; [done|].
  destruct (ltb k x) eqn:E1; [done|]. destruct (ltb x k) eqn:E2; simpl; [|done].
  apply IH. eapply ordered_tail; eauto.
Qed.

Lemma set_insert_length k s : ordered s ->
  zlen (set_insert k s).1 = zlen s + if set_mem k s then 0 else 1.
Proof.
  intros O. induction s as [|x s IH]; simpl; [done|].
  destruct (ltb k x) eqn:E1; simpl; [zlia|].
  destruct (ltb x k) eqn:E2; simpl; [|lia].
  rewrite !zlen_cons, IH by (eapply ordered_tail; eauto). lia.
Qed.

Lemma set_erase_length k s : ordered s ->
  zlen (set_erase k s).1 = zlen s - if set_mem k s then 1 else 0.
Proof.
  intros O. induction s as [|x s IH]; simpl; [done|].
  destruct (ltb k x) eqn:E1; simpl; [zlia|].
  destruct (ltb x k) eqn:E2; simpl; [|zlia].
  rewrite !zlen_cons, IH by (eapply ordered_tail; eauto). lia.
Qed.

Lemma set_lower_bound_app k s : (set_lower_bound k s).1 ++ (set_lower_bound k s).2 = s.
Proof.
  induction s as [|x s IH]; simpl; [done|]. destruct (ltb x k); simpl; [|done]. by rewrite IH.
Qed.

Lemma set_lower_bound_lt k s y : y ∈ (set_lower_bound k s).1 -> ltb y k = true.
Proof.
  induction s as [|x s IH]; simpl; [intros Hy; by apply not_elem_of_nil in Hy|].
  destruct (ltb x k) eqn:E; simpl.
  - intros [->|Hy]%elem_of_cons; auto.
  - intros Hy. by apply not_elem_of_nil in Hy.
Qed.

Lemma set_lower_bound_ge k s y : ordered s -> y ∈ (set_lower_bound k s).2 -> ltb y k = false.
Proof.
  intros O. induction s as [|x s IH]; simpl; [intros Hy; by apply not_elem_of_nil in Hy|].
  destruct (ltb x k) eqn:E; simpl; [apply IH; eapply ordered_tail; eauto|].
  intros [->|Hy]%elem_of_cons; [done|].
  destruct (ltb y k) eqn:E'; [|done].
  pose proof (ordered_head _ _ _ O Hy) as Hx.
  rewrite (ltb_trans _ _ _ Hx E') in E. done.
Qed.

Lemma ordered_app_inv s1 s2 : ordered (s1 ++ s2) ->
  ordered s1 /\ ordered s2 /\ forall x y, x ∈ s1 -> y ∈ s2 -> ltb x y = true.
Proof.
  induction s1 as [|x s1 IH]; simpl; intros O.
  - split_and!; [constructor|done|]. intros x y Hx. by apply not_elem_of_nil in Hx.
  - apply ordered_tail in O as O'. destruct (IH O') as (O1 & O2 & Hlt). split_and!; [|done|].
    + constructor; [|done]. intros y Hy. eapply ordered_head; [eauto|]. set_solver.
    + intros z y [->|Hz]%elem_of_cons Hy; [|auto]. eapply ordered_head; [eauto|]. set_solver.
Qed.

Lemma ordered_app s1 s2 : ordered s1 -> ordered s2 -> (forall x y, x ∈ s1 -> y ∈ s2 -> ltb x y = true) ->
  ordered (s1 ++ s2).
Proof.
  induction 1 as [|x s1 Hx O IH]; intros O2 Hlt; [done|]. constructor.
  - intros y [Hy|Hy]%elem_of_app; [by apply Hx|]. apply Hlt; [set_solver|done].
  - apply IH; [done|]. intros z y Hz. apply Hlt. set_solver.
Qed.

Lemma ordered_NoDup s : ordered s -> NoDup s.
Proof.
  induction 1 as [|x s Hx O IH]; constructor; [|done].
  intros Hin. apply Hx in Hin. rewrite ltb_irrefl in Hin. done.
Qed.
End set.

Create HintDb stdset discriminated.
#[export] Hint Resolve set_insert_ordered set_erase_ordered ordered_tail : stdset.

(** ** std::map *)

Section map.
Context {K V : Type} `{StdLess K}.

(** [m[k] = v]. *)
Fixpoint map_set (k : K) (v : V) (m : list (K * V)) : list (K * V) :=
  match m with
  | [] => [(k, v)]
  | (x, w) :: m' =>
      if ltb k x then (k, v) :: m
      else if ltb x k then (x, w) :: map_set k v m'
      else (x, v) :: m'
  end.

Fixpoint map_find (k : K) (m : list (K * V)) : option V :=
  match m with
  | [] => None
  | (x, w) :: m' =>
      if ltb k x then None else if ltb x k then map_find k m' else Some w
  end.

Fixpoint map_erase (k : K) (m : list (K * V)) : list (K * V) :=
  match m with
  | [] => []
  | (x, w) :: m' =>
      if ltb k x then m else if ltb x k then (x, w) :: map_erase k m' else m'
  end.

Abbreviation mordered m := (ordered (m.*1)).

Lemma map_set_keys k v m : (map_set k v m).*1 = (set_insert k (m.*1)).1.
Proof.
  induction m as [|[x w] m IH]; csimpl; [done|].
  destruct (ltb k x); csimpl; [done|]. destruct (ltb x k); csimpl; [by rewrite IH|done].
Qed.

Lemma map_set_ordered k v m : mordered m -> mordered (map_set k v m).
Proof. intros O. rewrite map_set_keys. by apply set_insert_ordered. Qed.

Lemma map_erase_keys k m : (map_erase k m).*1 = (set_erase k (m.*1)).1.
Proof.
  induction m as [|[x w] m IH]; csimpl; [done|].
  destruct (ltb k x); csimpl; [done|]. destruct (ltb x k); csimpl; [by rewrite IH|done].
Qed.

Lemma map_erase_ordered k m : mordered m -> mordered (map_erase k m).
Proof. intros O. rewrite map_erase_keys. by apply set_erase_ordered. Qed.

Lemma map_find_below k m : (forall y, y ∈ m.*1 -> ltb k y = true) -> map_find k m = None.
Proof. destruct m as [|[x w] m]; csimpl; [done|]. intros Hk. rewrite Hk; [done|]. set_solver. Qed.

Lemma map_find_set_eq k v m : map_find k (map_set k v m) = Some v.
Proof.
  induction m as [|[x w] m IH]; csimpl; [by rewrite ltb_irrefl|].
  destruct (ltb k x) eqn:E1; csimpl; [by rewrite ltb_irrefl|].
  destruct (ltb x k) eqn:E2; csimpl; rewrite E1, E2; done.
Qed.

Lemma map_find_set_ne k k' v m : k <> k' -> map_find k' (map_set k v m) = map_find k' m.
Proof.
  intros Hne. induction m as [|[x w] m IH]; csimpl.
  - destruct (ltb k' k) eqn:E1; [done|]. destruct (ltb k k') eqn:E2; [done|].
    destruct Hne. by apply ltb_eq.
  - destruct (ltb k x) eqn:E1; csimpl.
    + destruct (ltb k' k) eqn:E2.
      * rewrite (ltb_trans _ _ _ E2 E1). done.
      * destruct (ltb k k') eqn:E3; [done|]. destruct Hne. by apply ltb_eq.
    + destruct (ltb x k) eqn:E2; csimpl; [by rewrite IH|].
      destruct (ltb k' x) eqn:E3; [done|]. destruct (ltb x k') eqn:E4; [done|].
      destruct Hne. rewrite (ltb_eq _ _ E1 E2). by apply ltb_eq.
Qed.

Lemma map_find_Some_elem k v m : map_find k m = Some v -> (k, v) ∈ m.
Proof.
  induction m as [|[x w] m IH]; csimpl; [done|].
  destruct (ltb k x) eqn:E1; [done|]. destruct (ltb x k) eqn:E2; [set_solver|].
  intros [= ->]. rewrite (ltb_eq _ _ E1 E2). set_solver.
Qed.

Lemma map_elem_find k v m : mordered m -> (k, v) ∈ m -> map_find k m = Some v.
Proof.
  induction m as [|[x w] m IH]; csimpl; intros O Hin; [by apply not_elem_of_nil in Hin|].
  apply elem_of_cons in Hin as [[= -> ->]|Hin]; [by rewrite ltb_irrefl|].
  assert (Hx : ltb x k = true).
  { eapply ordered_head; [eauto|]. apply list_elem_of_fmap. by exists (k, v). }
  rewrite (ltb_asym _ _ Hx), Hx. apply IH; [eapply ordered_tail; eauto|done].
Qed.

Lemma map_find_erase_eq k m : mordered m -> map_find k (map_erase k m) = None.
Proof.
  induction m as [|[x w] m IH]; csimpl; intros O; [done|].
  destruct (ltb k x) eqn:E1; csimpl; [by rewrite E1|].
  destruct (ltb x k) eqn:E2; csimpl; [rewrite E1, E2; apply IH; eapply ordered_tail; eauto|].
  rewrite <-(ltb_eq k x) in O by done. apply map_find_below. intros y Hy. eapply ordered_head; eauto.
Qed.

Lemma map_find_erase_ne k k' m : mordered m -> k <> k' -> map_find k' (map_erase k m) = map_find k' m.
Proof.
  intros O Hne. induction m as [|[x w] m IH]; csimpl; [done|].
  destruct (ltb k x) eqn:E1; [done|]. destruct (ltb x k) eqn:E2; csimpl.
  - rewrite IH by (eapply ordered_tail; eauto). done.
  - assert (k = x) as <- by (by apply ltb_eq). destruct (ltb k' k) eqn:E3.
    + apply map_find_below. intros y Hy. eapply ltb_trans; [exact E3|]. eapply ordered_head; [exact O|done].
    + destruct (ltb k k') eqn:E4; [done|]. destruct Hne. by apply ltb_eq.
Qed.

Lemma map_set_Forall (P : K * V -> Prop) k v m : Forall P m -> P (k, v) -> Forall P (map_set k v m).
Proof.
  intros Hm Hk. induction Hm as [|[x w] m Hx Hm IH]; csimpl; [by constructor|].
  destruct (ltb k x) eqn:E1; [by repeat constructor|]. destruct (ltb x k) eqn:E2; [by constructor|].
  constructor; [|done]. by rewrite <-(ltb_eq k x).
Qed.

(** Inserting beyond the last key. *)
Lemma map_set_last k v m : (forall y, y ∈ m.*1 -> ltb y k = true) ->
  map_set k v m = m ++ [(k, v)].
Proof.
  induction m as [|[x w] m IH]; csimpl; intros Hk; [done|].
  assert (Hx : ltb x k = true) by (apply Hk; set_solver).
  rewrite (ltb_asym _ _ Hx), Hx, IH; [done|]. intros y Hy. apply Hk. set_solver.
Qed.
End map.

(** ** Instances *)

#[export, refine] Instance StdLess_Z : StdLess Z := {| ltb := Z.ltb |}.
Proof. all: intros; lia. Defined.

(** [operator<] of [std::pair]: lexicographic. *)
#[export, refine] Instance StdLess_pair {A B} `{StdLess A, StdLess B} : StdLess (A * B) :=
  {| ltb := fun p q => ltb p.1 q.1 || (negb (ltb q.1 p.1) && ltb p.2 q.2) |}.
Proof.
  - intros [a b]. simpl. rewrite !ltb_irrefl. done.
  - intros [a1 b1] [a2 b2] [a3 b3]; simpl.
    rewrite !orb_true_iff, !andb_true_iff, !negb_true_iff.
    intros [E1|[E1 E1']] [E2|[E2 E2']].
    + left. eapply ltb_trans; eauto.
    + left. destruct (ltb a2 a3) eqn:E; [eapply ltb_trans; eauto|].
      rewrite <-(ltb_eq a2 a3); auto.
    + left. destruct (ltb a1 a2) eqn:E; [eapply ltb_trans; eauto|].
      rewrite (ltb_eq a1 a2); auto.
    + destruct (ltb a1 a3) eqn:E; [by left|]. right. split; [|eapply ltb_trans; eauto].
      destruct (ltb a1 a2) eqn:F.
      * destruct (ltb a2 a3) eqn:F'; [rewrite (ltb_trans _ _ _ F F') in E; done|].
        rewrite <-(ltb_eq a2 a3) in * by auto. congruence.
      * rewrite (ltb_eq a1 a2) by auto. done.
  - intros [a1 b1] [a2 b2]; simpl.
    rewrite !orb_false_iff, !andb_false_iff, !negb_false_iff.
    intros [E1 [E1'|E1']] [E2 [E2'|E2']]; try congruence.
    rewrite (ltb_eq a1 a2), (ltb_eq b1 b2) by auto. done.
Defined.

(** [char_traits<char>::compare]: bytes as unsigned, a proper prefix first. *)
Fixpoint bytes_ltb (a b : bytes) : bool :=
  match a, b with
  | _, [] => false
  | [], _ :: _ => true
  | x :: a', y :: b' =>
      (byte_Z x <? byte_Z y) || (negb (byte_Z y <? byte_Z x) && bytes_ltb a' b')
  end.

#[export, refine] Instance StdLess_bytes : StdLess bytes := {| ltb := bytes_ltb |}.
Proof.
  - intros a. induction a as [|x a IH]; simpl; [done|]. rewrite IH. lia.
  - intros a. induction a as [|x a IH]; intros [|y b] [|z c]; simpl; try done.
    rewrite !orb_true_iff, !andb_true_iff, !negb_true_iff.
    intros [E1|[E1 E1']] [E2|[E2 E2']]; [left; lia..|].
    destruct (Z.ltb_spec (byte_Z x) (byte_Z z)); [by left|]. right.
    split; [lia|]. eapply IH; eauto.
  - intros a. induction a as [|x a IH]; intros [|y b]; simpl; try done.
    rewrite !orb_false_iff, !andb_false_iff, !negb_false_iff.
    intros [E1 [E1'|E1']] [E2 [E2'|E2']]; try lia.
    rewrite (IH b) by done. rewrite (byte_Z_inj x y) by lia. done.
Defined.
