(* ===== verification/Cstd.v ===== *)
(** * C library functions the program calls

    [isspace], NUL-terminated strings, [snprintf] with the conversions the code
    uses, and the decimal notation they print and [strtoull]/[atoi] read. *)

From S2P Require Import Prelude.

(** [isspace] in the "C" locale. *)
Definition isspace (c : byte) : bool :=
  let z := byte_Z c in (z =? 32) || ((9 <=? z) && (z <=? 13)).

Definition isdigit (c : byte) : bool :=
  let z := byte_Z c in (48 <=? z) && (z <=? 57).

(** [c_str()] read as a C string: up to the first NUL. *)
Definition cstr (l : bytes) : bytes := take (std_find x00 l) l.

(** [snprintf(buf, n, ...)]: what is stored, at most [n-1] characters. *)
Definition snprintf (n : Z) (s : bytes) : bytes := ztake (n - 1) s.

Fixpoint drop_while (p : byte -> bool) (l : bytes) : bytes :=
  match l with
  | [] => []
  | x :: l' => if p x then drop_while p l' else l
  end.

Fixpoint take_while (p : byte -> bool) (l : bytes) : bytes :=
  match l with
  | [] => []
  | x :: l' => if p x then x :: take_while p l' else []
  end.

(** ** Decimal notation *)

Definition digit (d : Z) : byte := Z_byte (48 + d).
Definition digit_val (c : byte) : Z := byte_Z c - 48.

(** The digits of [n], least significant first; [fuel] bounds their number. *)
Fixpoint digits_rev (fuel : nat) (n : Z) : bytes :=
  match fuel with
  | O => []
  | S fuel' => digit (n mod 10) :: (if n / 10 =? 0 then [] else digits_rev fuel' (n / 10))
  end.

Definition dec_fuel (n : Z) : nat := S (Z.to_nat (Z.log2 n)).

(** [%u]: the digits of a nonnegative number. *)
Definition fmt_u (n : Z) : bytes := rev (digits_rev (dec_fuel n) n).
(** [%d], [%ld], [%zd]. *)
Definition fmt_d (z : Z) : bytes := if z <? 0 then x2d :: fmt_u (- z) else fmt_u z.

Definition pad_left (c : byte) (w : Z) (s : bytes) : bytes :=
  replicate (Z.to_nat (w - zlen s)) c ++ s.
(** [%wd] and [%0wd]. *)
Definition fmt_wd (w z : Z) : bytes := pad_left SP w (fmt_d z).
Definition fmt_0wd (w z : Z) : bytes :=
  if z <? 0 then x2d :: pad_left x30 (w - 1) (fmt_u (- z)) else pad_left x30 w (fmt_u z).

(** The number a string of digits denotes. *)
Definition dec_value (s : bytes) : Z := fold_left (fun acc c => 10 * acc + digit_val c) s 0.

(** [atoi] of a C string; a value that is not an int is undefined. *)
Definition atoi (s : bytes) : option Z :=
  let s := drop_while isspace (cstr s) in
  let '(sign, s) := match s with
                    | c :: s' => if bool_decide (c = x2d) then (-1, s') else if bool_decide (c = x2b) then (1, s') else (1, s)
                    | [] => (1, [])
                    end in
  let v := sign * dec_value (take_while isdigit s) in
  if (- 2 ^ 31 <=? v) && (v <? 2 ^ 31) then Some v else None.

Lemma digit_val_digit d : 0 <= d < 10 -> digit_val (digit d) = d.
Proof.
  intros Hd. unfold digit_val, digit. rewrite byte_Z_byte, Z.mod_small by lia. lia.
Qed.

Lemma isdigit_digit d : 0 <= d < 10 -> isdigit (digit d) = true.
Proof.
  intros Hd. unfold isdigit, digit. rewrite byte_Z_byte, Z.mod_small by lia. lia.
Qed.

Fixpoint dec_value_rev (s : bytes) : Z :=
  match s with
  | [] => 0
  | c :: s' => digit_val c + 10 * dec_value_rev s'
  end.

Lemma dec_value_app s c : dec_value (s ++ [c]) = 10 * dec_value s + digit_val c.
Proof. unfold dec_value. rewrite fold_left_app. reflexivity. Qed.

Lemma dec_value_of_rev s : dec_value (rev s) = dec_value_rev s.
Proof.
  induction s as [|c s IH]; simpl; [done|]. rewrite dec_value_app, IH. lia.
Qed.

Lemma log2_div10 n : 10 <= n -> Z.log2 (n / 10) < Z.log2 n.
Proof.
  intros Hn. assert (0 < n / 10) by (apply Z.div_str_pos; lia).
  apply Z.log2_lt_pow2; [done|].
  pose proof (Z.log2_spec n ltac:(lia)) as [_ Hu].
  rewrite Z.pow_succ_r in Hu by apply Z.log2_nonneg.
  apply Z.div_lt_upper_bound; lia.
Qed.

Lemma digits_rev_value fuel n :
  0 <= n -> (Z.to_nat (Z.log2 n) < fuel)%nat -> dec_value_rev (digits_rev fuel n) = n.
Proof.
  revert n. induction fuel as [|fuel IH]; intros n Hn Hf; [lia|]. cbn [digits_rev dec_value_rev].
  pose proof (Z.mod_pos_bound n 10 ltac:(lia)). pose proof (Z.div_mod n 10 ltac:(lia)) as Hd.
  rewrite digit_val_digit by lia.
  destruct (Z.eqb_spec (n / 10) 0) as [E|E]; [simpl; lia|].
  assert (0 < n / 10) by (pose proof (Z.div_pos n 10); lia).
  assert (10 <= n) by lia. pose proof (log2_div10 n). pose proof (Z.log2_nonneg (n / 10)).
  rewrite IH by lia. lia.
Qed.

Lemma fmt_u_value n : 0 <= n -> dec_value (fmt_u n) = n.
Proof.
  intros Hn. unfold fmt_u. rewrite dec_value_of_rev.
  apply digits_rev_value; unfold dec_fuel; lia.
Qed.

Lemma digits_rev_digits fuel n : 0 <= n -> Forall (fun c => isdigit c = true) (digits_rev fuel n).
Proof.
  revert n. induction fuel as [|fuel IH]; intros n Hn; cbn [digits_rev]; constructor.
  - apply isdigit_digit. apply Z.mod_pos_bound. lia.
  - destruct (n / 10 =? 0); [constructor|]. apply IH. apply Z.div_pos; lia.
Qed.

Lemma fmt_u_digits n : 0 <= n -> Forall (fun c => isdigit c = true) (fmt_u n).
Proof. intros Hn. unfold fmt_u. apply Forall_rev, digits_rev_digits. done. Qed.

(** The number of digits. *)
Lemma digits_rev_length fuel n k :
  0 <= n < 10 ^ Z.of_nat k -> (0 < k)%nat -> (length (digits_rev fuel n) <= k)%nat.
Proof.
  revert n k. induction fuel as [|fuel IH]; intros n k Hn Hk; cbn [digits_rev length]; [lia|].
  destruct (Z.eqb_spec (n / 10) 0) as [E|E]; [simpl; lia|].
  destruct k as [|[|k]]; [lia| |].
  - rewrite Z.div_small in E by (simpl in Hn; lia). lia.
  - assert (0 <= n / 10 < 10 ^ Z.of_nat (S k)).
    { rewrite (Nat2Z.inj_succ (S k)), Z.pow_succ_r in Hn by lia.
      split; [apply Z.div_pos; lia|apply Z.div_lt_upper_bound; lia]. }
    specialize (IH (n / 10) (S k) ltac:(done) ltac:(lia)). lia.
Qed.

Lemma fmt_u_length n k : 0 <= n < 10 ^ Z.of_nat k -> (0 < k)%nat -> zlen (fmt_u n) <= Z.of_nat k.
Proof.
  intros Hn Hk. unfold fmt_u, zlen. rewrite length_rev.
  pose proof (digits_rev_length (dec_fuel n) n k Hn Hk). lia.
Qed.

(** An [int] has eleven characters at most. *)
Lemma fmt_d_short z : - 2 ^ 31 <= z < 2 ^ 31 -> zlen (fmt_d z) <= 11.
Proof.
  intros Hz. unfold fmt_d. destruct (Z.ltb_spec z 0).
  - rewrite zlen_cons. pose proof (fmt_u_length (- z) 10). change (Z.of_nat 10) with 10 in *. lia.
  - pose proof (fmt_u_length z 10). change (Z.of_nat 10) with 10 in *. lia.
Qed.

Lemma fmt_u_nonempty n : 1 <= zlen (fmt_u n).
Proof. unfold fmt_u, zlen. rewrite length_rev. unfold dec_fuel. cbn [digits_rev length]. lia. Qed.

Lemma snprintf_fits n s : zlen s < n -> snprintf n s = s.
Proof. intros H. unfold snprintf. apply ztake_ge. lia. Qed.

Lemma cstr_no_nul l : x00 ∉ l -> cstr l = l.
Proof. intros H. unfold cstr. rewrite std_find_none, firstn_all by done. done. Qed.

Lemma drop_while_app_stop p l c k :
  Forall (fun x => p x = true) l -> p c = false -> drop_while p (l ++ c :: k) = c :: k.
Proof. induction 1 as [|x l Hx _ IH]; simpl; intros Hc; [by rewrite Hc|]. rewrite Hx. auto. Qed.

Lemma fmt_d_inj n m : 0 <= n -> 0 <= m -> fmt_d n = fmt_d m -> n = m.
Proof.
  intros Hn Hm. unfold fmt_d. rewrite !(proj2 (Z.ltb_ge _ _)) by lia.
  intros E%(f_equal dec_value). by rewrite !fmt_u_value in E.
Qed.

Lemma take_while_all p l k : Forall (fun x => p x = true) l -> (forall c k', k = c :: k' -> p c = false) ->
  take_while p (l ++ k) = l.
Proof.
  intros Hl Hk. induction Hl as [|x l Hx _ IH]; cbn.
  - destruct k as [|c k]; [done|]. cbn. by rewrite (Hk c k).
  - by rewrite Hx, IH.
Qed.

(** Zeros in front do not change the value. *)
Lemma dec_value_zeros n s : dec_value (replicate n x30 ++ s) = dec_value s.
Proof.
  unfold dec_value. rewrite fold_left_app. f_equal. induction n as [|n IH]; [done|]. cbn [replicate fold_left].
  by change (10 * 0 + digit_val x30) with 0.
Qed.

Lemma pad_zeros_digits w s : Forall (fun c => isdigit c = true) s ->
  Forall (fun c => isdigit c = true) (pad_left x30 w s).
Proof. intros H. apply Forall_app. split; [by apply Forall_replicate|done]. Qed.

Lemma digit_no_nul s : Forall (fun c => isdigit c = true) s -> x00 ∉ s.
Proof. intros H Hin. rewrite Forall_forall in H. by apply H in Hin. Qed.

(** [atoi] of digits, whatever follows them. *)
Lemma atoi_digits s c k : Forall (fun c => isdigit c = true) s -> s <> [] -> isdigit c = false ->
  0 <= dec_value s < 2 ^ 31 -> atoi (s ++ c :: k) = Some (dec_value s).
Proof.
  intros Hs Hne Hc Hv. unfold atoi. pose proof (digit_no_nul s Hs) as Hnul.
  assert (E : exists k', cstr (s ++ c :: k) = s ++ k' /\ (forall x k2, k' = x :: k2 -> isdigit x = false)).
  { unfold cstr. exists (take (std_find x00 (c :: k)) (c :: k)). split.
    - assert (F : std_find x00 (s ++ c :: k) = (length s + std_find x00 (c :: k))%nat).
      { clear -Hnul. induction s as [|x s IH]; [done|]. apply not_elem_of_cons in Hnul as [Hx Hn].
        cbn [app std_find length Nat.add]. rewrite (proj2 (byte_eqb_false x x00)) by congruence. by rewrite IH. }
      by rewrite F, firstn_app_2.
    - intros x k2. cbn. destruct (byte_eqb c x00); [done|]. cbn. by intros [= <- _]. }
  destruct E as (k' & -> & Hk'). destruct s as [|d s]; [done|]. clear Hne.
  apply Forall_cons in Hs as Hs'. destruct Hs' as [Hd _].
  assert (Hsp : isspace d = false /\ d <> x2d /\ d <> x2b).
  { unfold isdigit, isspace in *. split; [lia|]. split; intros ->; done. }
  destruct Hsp as (H1 & H2 & H3). cbn [app drop_while]. rewrite H1.
  rewrite !bool_decide_eq_false_2 by done. change (d :: s ++ k') with ((d :: s) ++ k').
  rewrite take_while_all, Z.mul_1_l by done. rewrite (proj2 (Z.leb_le _ _)), (proj2 (Z.ltb_lt _ _)) by lia. done.
Qed.

(** ** strtol and atol *)

(** The number at the beginning of a C string, after white space: 0 without one. *)
Definition number_at (s : bytes) : Z :=
  let s := drop_while isspace (cstr s) in
  match s with
  | c :: s' =>
      if bool_decide (c = x2d) then - dec_value (take_while isdigit s')
      else dec_value (take_while isdigit (if bool_decide (c = x2b) then s' else s))
  | [] => 0
  end.

(** [strtol(s, NULL, 10)], for a 64-bit long: clamped. *)
Definition strtol (s : bytes) : Z := Z.max (- 2 ^ 63) (Z.min (2 ^ 63 - 1) (number_at s)).
(** [atol]: a value that is not a long is undefined. *)
Definition atol (s : bytes) : option Z :=
  let v := number_at s in if (- 2 ^ 63 <=? v) && (v <? 2 ^ 63) then Some v else None.

(** The C string of a text without NUL followed by anything. *)
Lemma cstr_app s k : x00 ∉ s -> cstr (s ++ k) = s ++ cstr k.
Proof.
  intros Hs. unfold cstr. assert (F : std_find x00 (s ++ k) = (length s + std_find x00 k)%nat).
  { induction s as [|x s IH]; [done|]. apply not_elem_of_cons in Hs as [Hx Hn].
    cbn [app std_find length Nat.add]. rewrite (proj2 (byte_eqb_false x x00)) by congruence. by rewrite IH. }
  by rewrite F, firstn_app_2.
Qed.

Lemma cstr_head k : cstr k = [] \/ exists c k', k = c :: k' /\ cstr k = c :: cstr k'.
Proof.
  destruct k as [|c k]; [by left|]. unfold cstr. cbn [std_find]. destruct (byte_eqb c x00); [by left|].
  right. by exists c, k.
Qed.

Definition not_digit_next (k : bytes) : Prop := match k with [] => True | c :: _ => isdigit c = false end.

(** Digits after blanks, whatever follows them. *)
Lemma number_at_digits blanks s k : Forall (fun c => isspace c = true) blanks -> Forall (fun c => isdigit c = true) s ->
  s <> [] -> not_digit_next k -> number_at (blanks ++ s ++ k) = dec_value s.
Proof.
  intros Hb Hs Hne Hk. unfold number_at.
  assert (Nb : x00 ∉ blanks) by (intros Hin; rewrite Forall_forall in Hb; by apply Hb in Hin).
  rewrite cstr_app, cstr_app by first [done|by apply digit_no_nul]. destruct s as [|d s]; [done|]. clear Hne.
  apply Forall_cons in Hs as Hs'. destruct Hs' as [Hd _].
  assert (Hsp : isspace d = false /\ d <> x2d /\ d <> x2b).
  { unfold isdigit, isspace in *. split; [lia|]. split; intros ->; done. }
  destruct Hsp as (H1 & H2 & H3). cbn [app]. rewrite drop_while_app_stop by done.
  rewrite !bool_decide_eq_false_2 by done. change (d :: s ++ cstr k) with ((d :: s) ++ cstr k).
  rewrite take_while_all; [done|done|]. intros c k' E. destruct (cstr_head k) as [Hc|(c' & k2 & -> & Hc)]; [congruence|].
  cbn in Hk. congruence.
Qed.

(** [atoi] reads the same number, when it is an [int]. *)
Lemma atoi_number s : atoi s =
  let v := number_at s in if (- 2 ^ 31 <=? v) && (v <? 2 ^ 31) then Some v else None.
Proof.
  unfold atoi, number_at. destruct (drop_while isspace (cstr s)) as [|c k]; [done|].
  destruct (bool_decide_reflect (c = x2d)).
  - by replace (-1 * dec_value (take_while isdigit k)) with (- dec_value (take_while isdigit k)) by lia.
  - by destruct (bool_decide_reflect (c = x2b)); rewrite Z.mul_1_l.
Qed.
