(* ===== verification/StringPiece.v ===== *)
(** * Pieces of strings (cnet/base/StringPiece.h)

    A [StringPiece] is a pointer into somebody's characters and a length.  The
    pointer is modelled as the characters from there to the end of their object,
    beyond which nothing may be read. *)

From S2P Require Import Prelude Cstd.

Record StringPiece := mkPiece { ptr_ : bytes; length_ : Z }.

(** ** The C library *)

(** [memcmp] compares as unsigned characters; only the sign of its result is
    used, and counts here. *)
Fixpoint memcmp_loop (n : nat) (p q : bytes) : Z :=
  match n, p, q with
  | S n, a :: p, b :: q =>
      if byte_Z a <? byte_Z b then -1 else if byte_Z b <? byte_Z a then 1 else memcmp_loop n p q
  | _, _, _ => 0
  end.
Definition memcmp (p q : bytes) (n : Z) : res Z :=
  if (n <=? zlen p) && (n <=? zlen q) then Ok (memcmp_loop (Z.to_nat n) p q) else Err EUndefined.

(** [strlen]; without a NUL in the object, undefined. *)
Definition strlen (p : bytes) : res Z :=
  if bool_decide (x00 ∈ p) then Ok (zlen (cstr p)) else Err EUndefined.

(** ** StringPiece *)

Definition StringPiece_new : StringPiece := mkPiece [] 0.
(** From a C string; from a [string], whose characters a NUL follows; from a
    pointer and a length. *)
Definition of_cstr (str : bytes) : res StringPiece := let* n := strlen str in Ok (mkPiece str (s32 n)).
Definition of_string (str : bytes) : StringPiece := mkPiece (str ++ [x00]) (s32 (zlen str)).
Definition of_range (offset : bytes) (len : Z) : StringPiece := mkPiece offset len.

Definition size (p : StringPiece) : Z := length_ p.
Definition empty (p : StringPiece) : bool := length_ p =? 0.
Definition clear (p : StringPiece) : StringPiece := mkPiece [] 0.
Definition set (buffer : bytes) (len : Z) (p : StringPiece) : StringPiece := mkPiece buffer len.
Definition set_cstr (buffer : bytes) (p : StringPiece) : res StringPiece := of_cstr buffer.

(** [operator[]], unchecked. *)
Definition at_index (i : Z) (p : StringPiece) : res byte :=
  match (if i <? 0 then None else ptr_ p !! Z.to_nat i) with Some c => Ok c | None => Err EUndefined end.

(** Neither is checked against the length; a pointer past the end of its object
    is undefined. *)
Definition remove_prefix (n : Z) (p : StringPiece) : res StringPiece :=
  if (0 <=? n) && (n <=? zlen (ptr_ p)) then Ok (mkPiece (zdrop n (ptr_ p)) (length_ p - n)) else Err EUndefined.
Definition remove_suffix (n : Z) (p : StringPiece) : StringPiece := mkPiece (ptr_ p) (length_ p - n).

Definition compare (p x : StringPiece) : res Z :=
  let* r := memcmp (ptr_ p) (ptr_ x) (u64 (if length_ p <? length_ x then length_ p else length_ x)) in
  Ok (if r =? 0 then if length_ p <? length_ x then -1 else if length_ x <? length_ p then 1 else r else r).

Definition as_string (p : StringPiece) : res bytes :=
  if (0 <=? length_ p) && (length_ p <=? zlen (ptr_ p)) then Ok (ztake (length_ p) (ptr_ p)) else Err EUndefined.
(** [target->assign(ptr_, length_)] *)
Definition CopyToString (p : StringPiece) (target : bytes) : res bytes := as_string p.

Definition starts_with (p x : StringPiece) : res bool :=
  if length_ x <? length_ p then let* r := memcmp (ptr_ p) (ptr_ x) (u64 (length_ x)) in Ok (r =? 0)
  else Ok false.

Definition piece_eq (lhs rhs : StringPiece) : res bool :=
  if length_ lhs =? length_ rhs then
    let* r := memcmp (ptr_ lhs) (ptr_ rhs) (u64 (length_ lhs)) in Ok (r =? 0)
  else Ok false.
Definition piece_neq (lhs rhs : StringPiece) : res bool := let* e := piece_eq lhs rhs in Ok (negb e).

(** ** What a piece stands for *)

Definition wf (p : StringPiece) : Prop := 0 <= length_ p < 2 ^ 31 /\ length_ p <= zlen (ptr_ p).
Definition contents (p : StringPiece) : bytes := ztake (length_ p) (ptr_ p).

(** The order of strings: by the first character that differs, a string before
    those it is a prefix of. *)
Fixpoint lex (a b : bytes) : Z :=
  match a, b with
  | [], [] => 0
  | [], _ => -1
  | _, [] => 1
  | x :: a, y :: b => if byte_Z x <? byte_Z y then -1 else if byte_Z y <? byte_Z x then 1 else lex a b
  end.

Lemma byte_order x y : byte_Z x < byte_Z y \/ byte_Z y < byte_Z x \/ x = y.
Proof.
  destruct (Z.lt_trichotomy (byte_Z x) (byte_Z y)) as [|[E|]]; auto. right. right. by apply byte_Z_inj.
Qed.

Ltac byte_cases x y :=
  destruct (Z.ltb_spec (byte_Z x) (byte_Z y)), (Z.ltb_spec (byte_Z y) (byte_Z x)); try lia.

Lemma byte_equal x y : byte_Z y <= byte_Z x -> byte_Z x <= byte_Z y -> x = y.
Proof. intros. apply byte_Z_inj. lia. Qed.

(** [lex] is a total order. *)
Lemma lex_eq a b : lex a b = 0 <-> a = b.
Proof.
  revert b. induction a as [|x a IH]; intros [|y b]; cbn; try done. byte_cases x y.
  - split; [done|]. intros [= -> ->]. lia.
  - split; [done|]. intros [= -> ->]. lia.
  - rewrite IH. rewrite (byte_equal x y) by lia. split; [by intros ->|by intros [= ->]].
Qed.
Lemma lex_flip a b : lex a b = - lex b a.
Proof. revert b. induction a as [|x a IH]; intros [|y b]; cbn; try done. byte_cases x y; auto. Qed.
Lemma lex_trans a b c : lex a b = -1 -> lex b c = -1 -> lex a c = -1.
Proof.
  revert b c. induction a as [|x a IH]; intros [|y b] [|z c]; cbn; try done.
  byte_cases x y; byte_cases y z; byte_cases x z; try done. by apply IH.
Qed.

(** Comparing [n] characters and then the lengths is comparing the strings. *)
Lemma memcmp_lex a b : lex a b =
  let r := memcmp_loop (Nat.min (length a) (length b)) a b in
  if r =? 0 then if zlen a <? zlen b then -1 else if zlen b <? zlen a then 1 else r else r.
Proof.
  revert b. induction a as [|x a IH]; intros [|y b]; cbn [lex length Nat.min memcmp_loop]; cbv zeta.
  - done.
  - change (zlen []) with 0. rewrite zlen_cons. cbn. pose proof (zlen_nonneg b).
    by rewrite (proj2 (Z.ltb_lt _ _)) by lia.
  - change (zlen []) with 0. rewrite zlen_cons. cbn. pose proof (zlen_nonneg a).
    rewrite (proj2 (Z.ltb_ge _ _)) by lia. by rewrite (proj2 (Z.ltb_lt _ _)) by lia.
  - byte_cases x y; try done. rewrite IH, !zlen_cons. cbv zeta.
    destruct (_ =? 0); [|done]. destruct (Z.ltb_spec (zlen a) (zlen b)), (Z.ltb_spec (1 + zlen a) (1 + zlen b)); try lia; try done.
    destruct (Z.ltb_spec (zlen b) (zlen a)), (Z.ltb_spec (1 + zlen b) (1 + zlen a)); try lia; done.
Qed.

Lemma memcmp_loop_take n p q k1 k2 : (n <= k1)%nat -> (n <= k2)%nat ->
  memcmp_loop n (take k1 p) (take k2 q) = memcmp_loop n p q.
Proof.
  revert p q k1 k2. induction n as [|n IH]; intros p q k1 k2 H1 H2; [done|].
  destruct k1 as [|k1], k2 as [|k2]; try lia. destruct p as [|a p], q as [|b q]; cbn; try done.
  by rewrite IH by lia.
Qed.

Lemma contents_length p : wf p -> zlen (contents p) = length_ p.
Proof. intros [H1 H2]. unfold contents. rewrite zlen_ztake. lia. Qed.

(** ** The operations on pieces that stand for a string *)

Lemma memcmp_contents p x n : wf p -> wf x -> 0 <= n <= length_ p -> n <= length_ x ->
  memcmp (ptr_ p) (ptr_ x) (u64 n) = Ok (memcmp_loop (Z.to_nat n) (contents p) (contents x)).
Proof.
  intros [P1 P2] [X1 X2] H1 H2. unfold memcmp. rewrite u64_small by lia.
  rewrite (proj2 (Z.leb_le n (zlen (ptr_ p)))), (proj2 (Z.leb_le n (zlen (ptr_ x)))) by lia. cbn [andb].
  unfold contents, ztake. by rewrite memcmp_loop_take by lia.
Qed.

Theorem compare_spec p x : wf p -> wf x -> compare p x = Ok (lex (contents p) (contents x)).
Proof.
  intros P X. pose proof P as [P1 P2]. pose proof X as [X1 X2]. unfold compare.
  rewrite memcmp_contents by (done || case_match; lia). cbn [res_bind]. rewrite memcmp_lex. cbv zeta.
  rewrite !contents_length by done.
  assert (E : Z.to_nat (if length_ p <? length_ x then length_ p else length_ x) = Nat.min (length (contents p)) (length (contents x))).
  { pose proof (contents_length p P). pose proof (contents_length x X). unfold zlen in *.
    destruct (Z.ltb_spec (length_ p) (length_ x)); lia. }
  by rewrite E.
Qed.

Lemma memcmp_all a b : length a = length b -> memcmp_loop (length a) a b = 0 <-> a = b.
Proof.
  revert b. induction a as [|x a IH]; intros [|y b] E; cbn in *; try done. injection E as E. byte_cases x y.
  - split; [done|]. intros [= -> ->]. lia.
  - split; [done|]. intros [= -> ->]. lia.
  - rewrite IH by done. rewrite (byte_equal x y) by lia. split; [by intros ->|by intros [= ->]].
Qed.

Theorem piece_eq_spec p x : wf p -> wf x -> piece_eq p x = Ok (bool_decide (contents p = contents x)).
Proof.
  intros P X. unfold piece_eq. pose proof (contents_length p P) as Lp. pose proof (contents_length x X) as Lx.
  destruct (Z.eqb_spec (length_ p) (length_ x)) as [E|E].
  - destruct P as [P1 P2] eqn:EP. rewrite memcmp_contents by (done || lia). cbn [res_bind]. f_equal.
    assert (Hn : Z.to_nat (length_ p) = length (contents p)) by (unfold zlen in *; lia). rewrite Hn.
    apply eq_true_iff_eq. rewrite Z.eqb_eq, bool_decide_eq_true. apply memcmp_all. unfold zlen in *. lia.
  - rewrite bool_decide_eq_false_2; [done|]. intros Ec. rewrite Ec in Lp. lia.
Qed.

Lemma memcmp_prefix b a : (length b <= length a)%nat -> memcmp_loop (length b) a b = 0 <-> is_prefix b a = true.
Proof.
  revert a. induction b as [|y b IH]; intros [|x a] L; cbn in *; try done; try lia.
  byte_cases x y.
  - split; [done|]. rewrite andb_true_iff, byte_eqb_true. intros [-> _]. lia.
  - split; [done|]. rewrite andb_true_iff, byte_eqb_true. intros [-> _]. lia.
  - rewrite (byte_equal x y) by lia. rewrite byte_eqb_refl. apply IH. lia.
Qed.

(** [starts_with] is true of the proper prefixes only. *)
Theorem starts_with_spec p x : wf p -> wf x ->
  starts_with p x = Ok (is_prefix (contents x) (contents p) && bool_decide (contents x <> contents p)).
Proof.
  intros P X. unfold starts_with. pose proof (contents_length p P) as Lp. pose proof (contents_length x X) as Lx.
  destruct (Z.ltb_spec (length_ x) (length_ p)) as [E|E].
  - rewrite memcmp_contents by (done || (destruct P, X; lia)). cbn [res_bind]. f_equal.
    assert (Hn : Z.to_nat (length_ x) = length (contents x)) by (unfold zlen in *; lia). rewrite Hn.
    rewrite (bool_decide_eq_true_2 (_ <> _)), andb_true_r by (intros Ec; rewrite Ec in Lx; lia).
    apply eq_true_iff_eq. rewrite Z.eqb_eq. apply memcmp_prefix. unfold zlen in *. lia.
  - f_equal. symmetry. apply andb_false_iff. destruct (is_prefix (contents x) (contents p)) eqn:Ep; [right|by left].
    apply bool_decide_eq_false_2. intros Hne. apply is_prefix_true in Ep as [r Er]. apply Hne. rewrite Er in Lp.
    rewrite zlen_app in Lp. destruct r as [|c r]; [by rewrite app_nil_r in Er|]. rewrite zlen_cons in Lp. pose proof (zlen_nonneg r). lia.
Qed.

(** In particular no string starts with itself. *)
Theorem starts_with_itself p : wf p -> starts_with p p = Ok false.
Proof. intros P. rewrite starts_with_spec by done. rewrite (bool_decide_eq_false_2 (_ <> _)), andb_false_r by auto. done. Qed.

(** The constructors. *)
Theorem of_string_contents s : zlen s < 2 ^ 31 -> wf (of_string s) /\ contents (of_string s) = s /\ as_string (of_string s) = Ok s.
Proof.
  intros Hs. pose proof (zlen_nonneg s). unfold of_string, wf, contents, as_string. cbn [ptr_ length_]. rewrite s32_small by lia.
  rewrite zlen_app. change (zlen [x00]) with 1. rewrite ztake_app_exact by done.
  rewrite (proj2 (Z.leb_le 0 _)), (proj2 (Z.leb_le _ (zlen s + 1))) by lia. split; [lia|done].
Qed.

Theorem of_cstr_contents s rest : x00 ∉ s -> zlen s < 2 ^ 31 ->
  exists p, of_cstr (s ++ x00 :: rest) = Ok p /\ wf p /\ contents p = s.
Proof.
  intros Hn Hs. pose proof (zlen_nonneg s). unfold of_cstr, strlen. rewrite bool_decide_eq_true_2 by set_solver.
  assert (E : cstr (s ++ x00 :: rest) = s).
  { unfold cstr. rewrite std_find_app by done. apply take_app_length. }
  rewrite E. cbn [res_bind]. eexists. split; [done|]. rewrite s32_small by lia. unfold wf, contents. cbn [ptr_ length_].
  rewrite zlen_app, ztake_app_exact by done. pose proof (zlen_nonneg (x00 :: rest)). split; [lia|done].
Qed.

(** Cutting at either end, as long as the string is that long; else the length
    is negative. *)
Theorem remove_contents n p : wf p -> 0 <= n <= length_ p ->
  exists q, remove_prefix n p = Ok q /\ wf q /\ contents q = zdrop n (contents p) /\
    wf (remove_suffix n p) /\ contents (remove_suffix n p) = ztake (length_ p - n) (contents p).
Proof.
  intros [P1 P2] Hn. unfold remove_prefix. rewrite (proj2 (Z.leb_le 0 n)), (proj2 (Z.leb_le n _)) by lia. cbn [andb].
  eexists. split; [done|]. unfold wf, contents, remove_suffix. cbn [ptr_ length_].
  rewrite zlen_zdrop. split_and!; try lia.
  - by rewrite zdrop_ztake by lia.
  - rewrite ztake_ztake. f_equal. lia.
Qed.

Theorem remove_too_much n p : wf p -> length_ p < n -> ~ wf (remove_suffix n p) /\ as_string (remove_suffix n p) = Err EUndefined.
Proof.
  intros [P1 P2] Hn. split; [intros [H _]; cbn in H; lia|]. unfold as_string. cbn [length_ remove_suffix].
  by rewrite (proj2 (Z.leb_gt 0 (length_ p - n))) by lia.
Qed.
