(* ===== verification/Double.v ===== *)
(** * double

    IEEE 754 binary64 numbers as the standard library's [spec_float]: the
    conversion from an integer, division, multiplication, and what [%.3f]
    prints: the decimal number of that many places nearest to the value, ties
    to even. *)

From Stdlib Require Import SpecFloat.
From S2P Require Import Prelude Cstd.

Abbreviation double := spec_float.

Definition double_of_Z (z : Z) : double := binary_normalize 53 1024 z 0 false.
Definition ddiv (x y : double) : double := SFdiv 53 1024 x y.
Definition dmul (x y : double) : double := SFmul 53 1024 x y.

(** A result outside 64 bits is undefined. *)
Definition checked (z : Z) : res Z := if (- 2 ^ 63 <=? z) && (z <? 2 ^ 63) then Ok z else Err EUndefined.

(** [static_cast<int64_t>] of a double: towards zero. *)
Definition int64_of_double (x : double) : res Z :=
  match x with
  | S754_zero _ => Ok 0
  | S754_finite s m e =>
      let n := if 0 <=? e then Zpos m * 2 ^ e else Zpos m / 2 ^ (- e) in
      checked (if s then - n else n)
  | _ => Err EUndefined
  end.

(** The integer nearest to [n / d], ties to even. *)
Definition nearest (n d : Z) : Z :=
  let q := n / d in
  let r := n mod d in
  if 2 * r <? d then q else if d <? 2 * r then q + 1 else if Z.even q then q else q + 1.

(** [m * 2 ^ e] in units of the [p]-th decimal place. *)
Definition scaled (p : Z) (m e : Z) : Z :=
  if 0 <=? e then m * 10 ^ p * 2 ^ e else nearest (m * 10 ^ p) (2 ^ (- e)).

(** [n] units of the [p]-th decimal place. *)
Definition fixed (p n : Z) : bytes := fmt_u (n / 10 ^ p) ++ bs "." ++ fmt_0wd p (n mod 10 ^ p).

(** [%.pf], for a positive [p]; the sign of a NaN is not modelled. *)
Definition fmt_f (p : Z) (x : double) : bytes :=
  let sign (s : bool) := if s then bs "-" else [] in
  match x with
  | S754_finite s m e => sign s ++ fixed p (scaled p (Zpos m) e)
  | S754_zero s => sign s ++ fixed p 0
  | S754_infinity s => sign s ++ bs "inf"
  | S754_nan => bs "nan"
  end.
(** [%w.pf] *)
Definition fmt_wf (w p : Z) (x : double) : bytes := pad_left SP w (fmt_f p x).

(** ** Properties *)

Lemma checked_Ok z a : checked z = Ok a -> a = z.
Proof. unfold checked. case_match; congruence. Qed.

Lemma nearest_close n d : 0 < d -> Z.abs (2 * (nearest n d * d - n)) <= d.
Proof.
  intros Hd. unfold nearest. pose proof (Z.div_mod n d ltac:(lia)). pose proof (Z.mod_pos_bound n d Hd).
  destruct (Z.ltb_spec (2 * (n mod d)) d); [nia|]. destruct (Z.ltb_spec d (2 * (n mod d))); [nia|].
  destruct (Z.even (n / d)); nia.
Qed.

Lemma nearest_exact k d : 0 < d -> nearest (k * d) d = k.
Proof.
  intros Hd. unfold nearest. rewrite Z.mod_mul, Z.div_mul by lia. by rewrite (proj2 (Z.ltb_lt _ _)) by lia.
Qed.

(** The digits of [fixed] are those of the number. *)
Lemma fixed_value p n : 0 < p -> 0 <= n -> exists a b, fixed p n = a ++ bs "." ++ b /\
  Forall (fun c => isdigit c = true) a /\ Forall (fun c => isdigit c = true) b /\ zlen b = p /\
  dec_value a * 10 ^ p + dec_value b = n.
Proof.
  intros Hp Hn. assert (H10 : 0 < 10 ^ p) by (by apply Z.pow_pos_nonneg; lia).
  pose proof (Z.mod_pos_bound n _ H10). pose proof (Z.div_pos n _ Hn H10).
  assert (Hl : zlen (fmt_u (n mod 10 ^ p)) <= p).
  { pose proof (fmt_u_length (n mod 10 ^ p) (Z.to_nat p)) as H'. rewrite Z2Nat.id in H' by lia. apply H'; lia. }
  exists (fmt_u (n / 10 ^ p)), (fmt_0wd p (n mod 10 ^ p)). unfold fixed, fmt_0wd.
  rewrite (proj2 (Z.ltb_ge (n mod 10 ^ p) 0)) by lia. split; [done|]. split; [by apply fmt_u_digits|].
  split; [by apply pad_zeros_digits, fmt_u_digits; lia|]. unfold pad_left. split.
  - rewrite zlen_app, zlen_replicate. lia.
  - rewrite dec_value_zeros, !fmt_u_value by lia. pose proof (Z.div_mod n (10 ^ p)). lia.
Qed.

(** A finite number is printed to within half a unit of the last place. *)
Lemma fmt_f_close p m e : 0 < p -> exists a b, fmt_f p (S754_finite false m e) = a ++ bs "." ++ b /\ zlen b = p /\
  Forall (fun c => isdigit c = true) a /\ Forall (fun c => isdigit c = true) b /\
  let n := dec_value a * 10 ^ p + dec_value b in
  (0 <= e -> n = Zpos m * 10 ^ p * 2 ^ e) /\
  (e < 0 -> Z.abs (2 * (n * 2 ^ (- e) - Zpos m * 10 ^ p)) <= 2 ^ (- e)).
Proof.
  intros Hp. assert (H10 : 0 < 10 ^ p) by (by apply Z.pow_pos_nonneg; lia).
  assert (Hs : 0 <= scaled p (Zpos m) e).
  { unfold scaled. destruct (Z.leb_spec 0 e).
    - repeat apply Z.mul_nonneg_nonneg; [lia|lia|apply Z.pow_nonneg; lia].
    - assert (Hd : 0 < 2 ^ (- e)) by (apply Z.pow_pos_nonneg; lia). unfold nearest.
      pose proof (Z.div_pos (Zpos m * 10 ^ p) _ ltac:(nia) Hd). repeat case_match; lia. }
  destruct (fixed_value p _ Hp Hs) as (a & b & E & Ha & Hb & Hl & Hv). exists a, b. cbn [fmt_f]. rewrite E.
  split; [done|]. split; [done|]. split; [done|]. split; [done|]. cbn zeta. rewrite Hv. unfold scaled. split; intros He.
  - by rewrite (proj2 (Z.leb_le _ _)).
  - rewrite (proj2 (Z.leb_gt _ _)) by done. apply nearest_close, Z.pow_pos_nonneg; lia.
Qed.

Example print_third : fmt_f 3 (ddiv (double_of_Z 1) (double_of_Z 3)) = bs "0.333".
Proof. vm_compute. reflexivity. Qed.
Example print_tie : fmt_f 3 (ddiv (double_of_Z (-5)) (double_of_Z 2000)) = bs "-0.003".
Proof. vm_compute. reflexivity. Qed.
Example print_half : fmt_wf 8 2 (ddiv (double_of_Z 12345) (double_of_Z 100)) = bs "  123.45".
Proof. vm_compute. reflexivity. Qed.
