(* ===== verification/Mutex.v ===== *)
(** * Mutexes and condition variables (cnet/base/Mutex.h, Condition.h,
    Condition.cc)

    A [MutexLock] keeps, besides the mutex of pthread, the number of the thread
    that holds it, for [isLockedByThisThread] and [assertLocked].  The number is
    written after the mutex is taken and erased before it is given back, also
    around a wait on a condition, so that there are moments when a thread holds
    the one and not the other: the steps below are cut there.  A thread is named
    by its number ([gettid], not 0). *)

From stdpp Require Import functions relations.
From S2P Require Import Prelude Double.

(** [mutex_]: the thread that has locked it. *)
Record MutexLock := mkMutex { mutex_ : option Z; holder_ : Z }.

Definition MutexLock_new : MutexLock := mkMutex None 0.

(** ** pthread

    [pthread_mutex_lock] returns when nobody holds the mutex; to unlock a mutex
    that one does not hold, or to destroy one that is held, is an error. *)
Definition pthread_mutex_lock (tid : Z) (m : MutexLock) : option MutexLock :=
  match mutex_ m with None => Some (mkMutex (Some tid) (holder_ m)) | Some _ => None end.
Definition pthread_mutex_unlock (tid : Z) (m : MutexLock) : res MutexLock :=
  assert! bool_decide (mutex_ m = Some tid);
  Ok (mkMutex None (holder_ m)).

(** ** MutexLock *)

Definition isLockedByThisThread (tid : Z) (m : MutexLock) : bool := holder_ m =? tid.
Definition assertLocked (tid : Z) (m : MutexLock) : res unit := assert_ (isLockedByThisThread tid m).
Definition unassignHolder (m : MutexLock) : MutexLock := mkMutex (mutex_ m) 0.
Definition assignHolder (tid : Z) (m : MutexLock) : MutexLock := mkMutex (mutex_ m) tid.
(** The destructor. *)
Definition MutexLock_delete (m : MutexLock) : res unit :=
  assert! (holder_ m =? 0);
  assert_ (bool_decide (mutex_ m = None)).

(** Where a thread is: not in the monitor; in [lock()], before and after
    [pthread_mutex_lock]; between [lock()] and [unlock()]; in [unlock()], the
    number erased; in [wait()], the number erased; asleep on the condition;
    woken up and competing for the mutex; back with the mutex, before the
    destructor of [UnassignGuard]. *)
Inductive place : Set :=
| Outside | Locking | Acquired | Inside | Unlocking | ToWait | Asleep | Waking | Rewoken.

#[export] Instance place_eq_dec : EqDecision place.
Proof. solve_decision. Defined.

Record monitor := mkMonitor { lock_ : MutexLock; at_ : Z -> place }.

Definition monitor_new : monitor := mkMonitor MutexLock_new (fun _ => Outside).
Definition go (tid : Z) (p : place) (m : MutexLock) (s : monitor) : monitor :=
  mkMonitor m (<[tid := p]> (at_ s)).

(** [notify()] wakes up one of the threads that wait, if there is any;
    [notifyAll()], all of them.  The caller need not hold the mutex. *)
Definition woken (p : place) : place := match p with Asleep => Waking | _ => p end.
Definition notify (tid : Z) (s : monitor) : monitor := go tid (woken (at_ s tid)) (lock_ s) s.
Definition notifyAll (s : monitor) : monitor := mkMonitor (lock_ s) (fun t => woken (at_ s t)).

(** What a thread can do by itself: the next instruction of [lock], [unlock] or
    [wait], or the choice of one. *)
Inductive move (s : monitor) (t : Z) : monitor -> Prop :=
(* MutexLock::lock *)
| move_lock : at_ s t = Outside -> move s t (go t Locking (lock_ s) s)
| move_acquire m : at_ s t = Locking -> pthread_mutex_lock t (lock_ s) = Some m -> move s t (go t Acquired m s)
| move_assign : at_ s t = Acquired -> move s t (go t Inside (assignHolder t (lock_ s)) s)
(* MutexLock::unlock *)
| move_unlock : at_ s t = Inside -> move s t (go t Unlocking (unassignHolder (lock_ s)) s)
| move_release m : at_ s t = Unlocking -> pthread_mutex_unlock t (lock_ s) = Ok m -> move s t (go t Outside m s)
(* Condition::wait and waitForSeconds *)
| move_wait : at_ s t = Inside -> move s t (go t ToWait (unassignHolder (lock_ s)) s)
| move_sleep m : at_ s t = ToWait -> pthread_mutex_unlock t (lock_ s) = Ok m -> move s t (go t Asleep m s)
| move_rewake m : at_ s t = Waking -> pthread_mutex_lock t (lock_ s) = Some m -> move s t (go t Rewoken m s)
| move_reassign : at_ s t = Rewoken -> move s t (go t Inside (assignHolder t (lock_ s)) s).

(** A thread that sleeps may also wake up by itself: no reason, or its time is
    over. *)
Inductive step (s : monitor) : monitor -> Prop :=
| step_move t s' : t <> 0 -> move s t s' -> step s s'
| step_notify t : at_ s t = Asleep -> step s (notify t s)
| step_notify_nobody : (forall t, at_ s t <> Asleep) -> step s s
| step_notifyAll : step s (notifyAll s)
| step_wakes t : at_ s t = Asleep -> step s (go t Waking (lock_ s) s).

Definition reachable : monitor -> Prop := rtc step monitor_new.

(** The places where a thread has the mutex of pthread. *)
Definition holds (p : place) : bool :=
  match p with Acquired | Inside | Unlocking | ToWait | Rewoken => true | _ => false end.

Record inv (s : monitor) : Prop := mkInv {
  inv_owner : forall t, holds (at_ s t) = true <-> mutex_ (lock_ s) = Some t;
  inv_holder : forall t, t <> 0 -> holder_ (lock_ s) = t <-> at_ s t = Inside;
  inv_zero : at_ s 0 = Outside;
}.

(** ** The invariant *)

Lemma at_go t p m s u : at_ (go t p m s) u = if decide (t = u) then p else at_ s u.
Proof. cbn. unfold insert, fn_insert. by destruct decide. Qed.

(** A move that leaves the mutex and its number alone, between places that are
    alike. *)
Lemma inv_shift s t p : inv s -> t <> 0 -> holds p = holds (at_ s t) -> p <> Inside -> at_ s t <> Inside ->
  inv (go t p (lock_ s) s).
Proof.
  intros [I1 I2 I3] Ht Hh Hp Ha. constructor.
  - intros u. rewrite at_go. destruct decide as [<-|]; [|apply I1]. rewrite Hh. apply I1.
  - intros u Hu. rewrite at_go. destruct decide as [<-|]; [|by apply I2]. cbn. rewrite I2 by done. done.
  - rewrite at_go. by destruct decide.
Qed.

(** A thread takes the mutex. *)
Lemma inv_take s t p m : inv s -> t <> 0 -> holds p = true -> p <> Inside -> at_ s t <> Inside ->
  pthread_mutex_lock t (lock_ s) = Some m -> inv (go t p m s).
Proof.
  intros [I1 I2 I3] Ht Hh Hp Ha E. unfold pthread_mutex_lock in E.
  destruct (mutex_ (lock_ s)) eqn:Em; [done|]. injection E as <-. constructor.
  - intros u. rewrite at_go. cbn. destruct decide as [<-|Hne]; [done|].
    rewrite I1. split; [done|congruence].
  - intros u Hu. rewrite at_go. cbn. destruct decide as [<-|]; [|by apply I2]. rewrite I2 by done. done.
  - rewrite at_go. by destruct decide.
Qed.

(** A thread gives the mutex back. *)
Lemma inv_give s t p m : inv s -> t <> 0 -> holds p = false -> at_ s t <> Inside ->
  pthread_mutex_unlock t (lock_ s) = Ok m -> inv (go t p m s).
Proof.
  intros [I1 I2 I3] Ht Hh Ha E. unfold pthread_mutex_unlock in E.
  destruct (bool_decide_reflect (mutex_ (lock_ s) = Some t)) as [Em|]; [|done]. injection E as <-. constructor.
  - intros u. rewrite at_go. cbn. destruct decide as [<-|Hne]; [by rewrite Hh|].
    rewrite I1, Em. split; [intros [= ->]; done|done].
  - intros u Hu. rewrite at_go. cbn. destruct decide as [<-|]; [|by apply I2].
    rewrite I2 by done. split; [done|]. intros ->. done.
  - rewrite at_go. by destruct decide.
Qed.

Lemma holds_alone s t u : inv s -> holds (at_ s t) = true -> holds (at_ s u) = true -> t = u.
Proof. intros I H1 H2. apply (inv_owner s I) in H1, H2. congruence. Qed.

(** A thread writes or erases its number. *)
Lemma inv_assign s t : inv s -> t <> 0 -> holds (at_ s t) = true -> inv (go t Inside (assignHolder t (lock_ s)) s).
Proof.
  intros I Ht Hh. pose proof I as [I1 I2 I3]. constructor.
  - intros u. rewrite at_go. cbn. destruct decide as [<-|]; [|apply I1]. rewrite <-I1. by rewrite Hh.
  - intros u Hu. rewrite at_go. cbn. destruct decide as [<-|Hne]; [done|]. split; [done|].
    intros Hi. destruct Hne. apply (holds_alone s t u I); [done|]. by rewrite Hi.
  - rewrite at_go. by destruct decide.
Qed.

Lemma inv_unassign s t p : inv s -> t <> 0 -> at_ s t = Inside -> holds p = true -> p <> Inside ->
  inv (go t p (unassignHolder (lock_ s)) s).
Proof.
  intros I Ht Ha Hh Hp. pose proof I as [I1 I2 I3]. constructor.
  - intros u. rewrite at_go. cbn. destruct decide as [<-|]; [|apply I1]. rewrite <-I1, Ha. by rewrite Hh.
  - intros u Hu. rewrite at_go. cbn. split; [congruence|]. destruct decide as [<-|Hne]; [done|].
    intros Hi. destruct Hne. apply (holds_alone s t u I); [by rewrite Ha|by rewrite Hi].
  - rewrite at_go. by destruct decide.
Qed.

Lemma move_inv s t s' : inv s -> t <> 0 -> move s t s' -> inv s'.
Proof.
  intros I Ht M. destruct M as [Ha|m Ha E|Ha|Ha|m Ha E|Ha|m Ha E|m Ha E|Ha].
  1: apply inv_shift; by rewrite ?Ha.
  1, 7: apply inv_take; by rewrite ?Ha.
  1, 6: apply inv_assign; by rewrite ?Ha.
  1, 3: apply inv_unassign; by rewrite ?Ha.
  all: apply inv_give; by rewrite ?Ha.
Qed.

Lemma inv_woken s (f : Z -> place) : inv s -> (forall t, f t = at_ s t \/ at_ s t = Asleep /\ f t = Waking) ->
  inv (mkMonitor (lock_ s) f).
Proof.
  intros [I1 I2 I3] Hf. constructor; cbn.
  - intros t. rewrite <-I1. by destruct (Hf t) as [->|[-> ->]].
  - intros t Ht. rewrite I2 by done. by destruct (Hf t) as [->|[-> ->]].
  - destruct (Hf 0) as [->|[Ha _]]; [done|]. congruence.
Qed.

Lemma monitor_step_inv s s' : inv s -> step s s' -> inv s'.
Proof.
  intros I S. destruct S as [t s' Ht M|t Ha|_| |t Ha]; [by eapply move_inv|..]; try done; unfold notify, notifyAll, go;
    apply inv_woken; try done; intros u; cbn; unfold insert, fn_insert; try (destruct decide as [<-|]); auto;
    rewrite ?Ha; auto.
  destruct (at_ s u); auto.
Qed.

Lemma monitor_inv s : reachable s -> inv s.
Proof.
  intros R. assert (I0 : inv monitor_new) by (constructor; cbn; naive_solver).
  revert I0. unfold reachable in R. induction R as [|s1 s2 s3 S _ IH]; eauto using monitor_step_inv.
Qed.

(** The thread that has the mutex can go on by itself until it gives it back. *)
Lemma holder_releases s u : inv s -> u <> 0 -> holds (at_ s u) = true ->
  exists s', rtc (fun a b => move a u b) s s' /\ mutex_ (lock_ s') = None /\ (forall t, t <> u -> at_ s' t = at_ s t).
Proof.
  intros I Hu Hh.
  assert (Hgo : forall s, inv s -> at_ s u = Unlocking -> exists s', rtc (fun a b => move a u b) s s' /\
    mutex_ (lock_ s') = None /\ (forall t, t <> u -> at_ s' t = at_ s t)).
  { clear s I Hh. intros s I Ha. assert (Em : mutex_ (lock_ s) = Some u) by (apply (inv_owner s I); by rewrite Ha).
    eexists. split; [apply rtc_once, (move_release _ _ (mkMutex None (holder_ (lock_ s))) Ha)|].
    - unfold pthread_mutex_unlock. by rewrite Em, bool_decide_eq_true_2.
    - split; [done|]. intros t Ht. rewrite at_go. by destruct decide. }
  assert (Hin : forall s, inv s -> at_ s u = Inside -> exists s', rtc (fun a b => move a u b) s s' /\
    mutex_ (lock_ s') = None /\ (forall t, t <> u -> at_ s' t = at_ s t)).
  { clear s I Hh. intros s I Ha. pose proof (move_unlock s u Ha) as M. destruct (Hgo _ (move_inv _ _ _ I Hu M)) as (s' & R & Em & E).
    - rewrite at_go. by destruct decide.
    - exists s'. split; [by eapply rtc_l|]. split; [done|]. intros t Ht. rewrite E, at_go by done. by destruct decide. }
  assert (Hback : at_ s u = Acquired \/ at_ s u = Rewoken -> exists s', rtc (fun a b => move a u b) s s' /\
    mutex_ (lock_ s') = None /\ (forall t, t <> u -> at_ s' t = at_ s t)).
  { intros Ha. assert (M : move s u (go u Inside (assignHolder u (lock_ s)) s)).
    { by destruct Ha; [apply move_assign|apply move_reassign]. }
    destruct (Hin _ (move_inv _ _ _ I Hu M)) as (s' & R & Em & E); [rewrite at_go; by destruct decide|].
    exists s'. split; [by eapply rtc_l|]. split; [done|]. intros t Ht. rewrite E, at_go by done. by destruct decide. }
  destruct (at_ s u) eqn:Ha; try done; auto.
  assert (Em : mutex_ (lock_ s) = Some u) by (apply (inv_owner s I); by rewrite Ha).
  eexists. split; [apply rtc_once, (move_sleep _ _ (mkMutex None (holder_ (lock_ s))) Ha)|].
  - unfold pthread_mutex_unlock. by rewrite Em, bool_decide_eq_true_2.
  - split; [done|]. intros t Ht. rewrite at_go. by destruct decide.
Qed.

Lemma free_acquires s t : at_ s t = Locking \/ at_ s t = Waking -> mutex_ (lock_ s) = None ->
  exists s', move s t s' /\ holds (at_ s' t) = true.
Proof.
  intros Ha Em. pose (m := mkMutex (Some t) (holder_ (lock_ s))).
  assert (E : pthread_mutex_lock t (lock_ s) = Some m) by (unfold pthread_mutex_lock; by rewrite Em).
  destruct Ha as [Ha|Ha]; eexists; (split; [by econstructor|]); rewrite at_go; by destruct decide.
Qed.

(** ** The time of a wait *)

Record timespec := mkTimespec { tv_sec : Z; tv_nsec : Z }.

Definition kNanoSecondsPerSecond : Z := 1000 * 1000 * 1000.

Definition nanoseconds_of (seconds : double) : res Z :=
  int64_of_double (dmul seconds (double_of_Z kNanoSecondsPerSecond)).

(** [waitForSeconds], up to the wait: the date until which it waits. *)
Definition deadline (now : timespec) (nanoseconds : Z) : res timespec :=
  let* sum := checked (tv_nsec now + nanoseconds) in
  let* sec := checked (tv_sec now + sum ÷ kNanoSecondsPerSecond) in
  Ok (mkTimespec sec (Z.rem sum kNanoSecondsPerSecond)).

(** [pthread_cond_timedwait] refuses a date whose nanoseconds are not within a
    second, and returns at once; else it returns woken up or with the time
    over. *)
Inductive outcome : Set := EINVAL | ETIMEDOUT | Notified.

#[export] Instance outcome_eq_dec : EqDecision outcome.
Proof. solve_decision. Defined.

Definition pthread_cond_timedwait (abstime : timespec) (timed_out : bool) : outcome :=
  if negb ((0 <=? tv_nsec abstime) && (tv_nsec abstime <? kNanoSecondsPerSecond)) then EINVAL
  else if timed_out then ETIMEDOUT else Notified.

Definition waitForSeconds (now : timespec) (seconds : double) (timed_out : bool) : res bool :=
  let* nanoseconds := nanoseconds_of seconds in
  let* abstime := deadline now nanoseconds in
  Ok (bool_decide (pthread_cond_timedwait abstime timed_out = ETIMEDOUT)).

Definition ns (t : timespec) : Z := tv_sec t * kNanoSecondsPerSecond + tv_nsec t.

(** A wait of a time that is not negative ends at its date, which the kernel
    accepts. *)
Theorem deadline_exact now n t : 0 <= tv_nsec now < kNanoSecondsPerSecond -> 0 <= n -> deadline now n = Ok t ->
  ns t = ns now + n /\ 0 <= tv_nsec t < kNanoSecondsPerSecond /\
  forall timed_out, bool_decide (pthread_cond_timedwait t timed_out = ETIMEDOUT) = timed_out.
Proof.
  intros Hn H0 E. unfold deadline in E. inv_ok.
  repeat match goal with H : checked _ = Ok _ |- _ => apply checked_Ok in H; subst end.
  unfold ns. cbn [tv_sec tv_nsec].
  assert (Hk : 0 < kNanoSecondsPerSecond) by done.
  pose proof (Z.quot_rem' (tv_nsec now + n) kNanoSecondsPerSecond).
  pose proof (Z.rem_bound_pos (tv_nsec now + n) kNanoSecondsPerSecond ltac:(lia) Hk).
  split; [lia|]. split; [done|]. intros b. unfold pthread_cond_timedwait. cbn [tv_nsec].
  rewrite (proj2 (Z.leb_le _ _)), (proj2 (Z.ltb_lt _ _)) by lia. by destruct b.
Qed.

(** To wait until a date that is already past by a fraction of a second is
    refused: the function says at once that the time is not over. *)
Theorem negative_wait_refused :
  waitForSeconds (mkTimespec 1000 200000000) (ddiv (double_of_Z (-1)) (double_of_Z 2)) true = Ok false /\
  waitForSeconds (mkTimespec 1000 200000000) (double_of_Z (-1)) true = Ok false /\
  waitForSeconds (mkTimespec 1000 800000000) (ddiv (double_of_Z (-1)) (double_of_Z 2)) true = Ok true.
Proof. vm_compute. done. Qed.

(** ** The property *)

(** C20: a mutex excludes, and knows its holder.  At every point of every
    interleaving of threads that lock, unlock, wait and notify,
    [isLockedByThisThread] is true exactly between [lock()] and [unlock()] and
    not during a wait; two threads never have the mutex; giving it back, or to a
    wait, does not fail.  A thread that wants it either takes it, or the one
    that has it can go on by itself until it gives it back, after which the
    first can take it.  Once all threads are out, the destructor does not
    fail. *)
Theorem mutex_holder (s : monitor) : reachable s ->
  (forall t, t <> 0 -> isLockedByThisThread t (lock_ s) = true <-> at_ s t = Inside) /\
  (forall t u, holds (at_ s t) = true -> holds (at_ s u) = true -> t = u) /\
  (forall t, at_ s t = Unlocking \/ at_ s t = ToWait -> exists m, pthread_mutex_unlock t (lock_ s) = Ok m) /\
  (forall t, at_ s t = Locking \/ at_ s t = Waking -> exists s1 s2, move s1 t s2 /\ holds (at_ s2 t) = true /\
     (s1 = s \/ exists u, u <> t /\ holds (at_ s u) = true /\ rtc (fun a b => move a u b) s s1)) /\
  ((forall t, at_ s t = Outside) -> MutexLock_delete (lock_ s) = Ok tt).
Proof.
  intros R. apply monitor_inv in R as I. pose proof I as [I1 I2 I3]. split_and!.
  - intros t Ht. unfold isLockedByThisThread. rewrite Z.eqb_eq. by apply I2.
  - intros t u. by apply holds_alone.
  - intros t Ha. unfold pthread_mutex_unlock. rewrite bool_decide_eq_true_2; [eauto|].
    apply I1. by destruct Ha as [->| ->].
  - intros t Ha. destruct (mutex_ (lock_ s)) as [u|] eqn:Em.
    + assert (Hu : holds (at_ s u) = true) by (by apply I1).
      assert (Hut : u <> t) by (intros ->; by destruct Ha as [Ha|Ha]; rewrite Ha in Hu).
      assert (Hu0 : u <> 0) by (intros ->; by rewrite I3 in Hu).
      destruct (holder_releases s u I Hu0 Hu) as (s1 & R1 & E1 & Hat).
      destruct (free_acquires s1 t) as (s2 & M & H2); [by rewrite Hat|done|]. exists s1, s2. eauto 8.
    + destruct (free_acquires s t Ha Em) as (s2 & M & H2). exists s, s2. auto.
  - intros Ho. unfold MutexLock_delete.
    destruct (Z.eqb_spec (holder_ (lock_ s)) 0) as [_|Hne]; cbn.
    + rewrite bool_decide_eq_true_2; [done|]. destruct (mutex_ (lock_ s)) as [u|] eqn:Em; [|done].
      pose proof (proj2 (I1 u) eq_refl) as Hu. by rewrite Ho in Hu.
    + pose proof (proj1 (I2 _ Hne) eq_refl) as Ha. by rewrite Ho in Ha.
Qed.

Lemma reach_move s t s' : reachable s -> move s t s' -> t <> 0 -> reachable s'.
Proof. intros R M Ht. eapply rtc_r; [exact R|]. by eapply step_move. Qed.

(** Runs the monitor forward: the argument is the next move. *)
Tactic Notation "forward" hyp(R) uconstr(M) :=
  eapply reach_move in R; [|eapply M; reflexivity|discriminate].

(** Thread 5 waits, with the mutex given back; thread 7 is inside. *)
Lemma mutex_holder_witness : exists s, reachable s /\ at_ s 5 = Asleep /\ at_ s 7 = Inside /\
  isLockedByThisThread 7 (lock_ s) = true /\ isLockedByThisThread 5 (lock_ s) = false.
Proof.
  assert (R : reachable monitor_new) by apply rtc_refl.
  forward R (move_lock _ 5). forward R (move_acquire _ 5). forward R (move_assign _ 5).
  forward R (move_wait _ 5). forward R (move_sleep _ 5).
  forward R (move_lock _ 7). forward R (move_acquire _ 7). forward R (move_assign _ 7).
  eexists. split; [exact R|]. split; [reflexivity|]. split; [reflexivity|].
  destruct (mutex_holder _ R) as (H & _). split; [by apply H|].
  apply not_true_is_false. intros H5. apply H in H5; discriminate.
Defined.
