(* ===== verification/Thread.v ===== *)
(** * Threads (cnet/base/Thread.h, Thread.cc, Atomic.h)

    A [Thread] owns a thread of pthread from [start] on; it is joined by [join]
    or detached by the destructor.  What the started thread does with the
    function, the exceptions it throws included, is [runInThread]. *)

From stdpp Require Import relations.
From S2P Require Import Prelude Cstd.

(** ** AtomicIntegerT

    The built-ins wrap around; the sum that [addAndGet] returns is computed
    again, in the type, where overflow is undefined. *)
Section atomic.
Context (w : Z).

Definition get (value_ : Z) : Z := value_.
(** The result of a function and the new value. *)
Definition getAndAdd (x value_ : Z) : Z * Z := (value_, to_signed w (value_ + x)).
Definition addAndGet (x value_ : Z) : res (Z * Z) :=
  let '(old, value) := getAndAdd x value_ in
  if (- 2 ^ (w - 1) <=? old + x) && (old + x <? 2 ^ (w - 1)) then Ok (old + x, value) else Err EUndefined.
Definition incrementAndGet (value_ : Z) : res (Z * Z) := addAndGet 1 value_.
Definition decrementAndGet (value_ : Z) : res (Z * Z) := addAndGet (-1) value_.
Definition add (x value_ : Z) : Z := snd (getAndAdd x value_).
Definition increment (value_ : Z) : res Z := let* (_, v) := incrementAndGet value_ in Ok v.
Definition decrement (value_ : Z) : res Z := let* (_, v) := decrementAndGet value_ in Ok v.
Definition getAndSet (newValue value_ : Z) : Z * Z := (value_, newValue).
End atomic.

(** ** Thread *)

(** [tid_] is shared with the started thread. *)
Record Thread := mkThread { started_ : bool; joined_ : bool; tid_ : Z; name_ : bytes }.

Definition setDefaultName (numCreated_ : Z) (name : bytes) : res (bytes * Z) :=
  let* (num, numCreated) := incrementAndGet 32 numCreated_ in
  Ok (match name with [] => snprintf 32 (bs "Thread" ++ fmt_d num) | _ => name end, numCreated).

Definition Thread_new (numCreated_ : Z) (name : bytes) : res (Thread * Z) :=
  let* (name, numCreated) := setDefaultName numCreated_ name in
  Ok (mkThread false false 0 name, numCreated).

(** The thread of pthread: not created; running or finished, nobody having
    joined it; joined; detached. *)
Inductive pthread : Set := NoThread | Joinable | Joined | Detached.

#[export] Instance pthread_eq_dec : EqDecision pthread.
Proof. solve_decision. Defined.

(** To join or to detach what is not joinable is undefined. *)
Definition pthread_join (p : pthread) : res pthread :=
  match p with Joinable => Ok Joined | _ => Err EUndefined end.
Definition pthread_detach (p : pthread) : res pthread :=
  match p with Joinable => Ok Detached | _ => Err EUndefined end.

(** [created]: what [pthread_create] answered. *)
Definition start (created : bool) (t : Thread) (p : pthread) : res (Thread * pthread) :=
  assert! negb (started_ t);
  if created then Ok (mkThread true (joined_ t) (tid_ t) (name_ t), Joinable) else Err EFatal.

(** [join], when it is not the thread itself that calls it. *)
Definition join (t : Thread) (p : pthread) : res (Thread * pthread) :=
  assert! started_ t;
  assert! negb (joined_ t);
  let* p := pthread_join p in
  Ok (mkThread (started_ t) true (tid_ t) (name_ t), p).

(** Called by the thread itself, [pthread_join] answers [EDEADLK]; [joined_] is
    set all the same. *)
Definition EDEADLK : Z := 35.
Definition join_self (t : Thread) (p : pthread) : res (Z * (Thread * pthread)) :=
  assert! started_ t;
  assert! negb (joined_ t);
  Ok (EDEADLK, (mkThread (started_ t) true (tid_ t) (name_ t), p)).

(** The destructor. *)
Definition Thread_delete (t : Thread) (p : pthread) : res pthread :=
  if started_ t && negb (joined_ t) then pthread_detach p else Ok p.

(** ** The started thread *)

(** What the function does: it returns, or throws an [Exception] with its text
    and its stack, a [std::exception] with its text, or something else. *)
Inductive func_outcome : Type :=
| Returns
| ThrowsException (what stackTrace : bytes)
| ThrowsStd (what : bytes)
| ThrowsOther.

(** The name the thread has while it runs, and at the end; what it writes to
    [stderr]; the number it stores in [tid_], if the [Thread] still exists;
    whether the exception goes on, which ends the process. *)
Record run := mkRun {
  name_running : bytes;
  name_after : bytes;
  stderr : bytes;
  stored_tid : option Z;
  terminates : bool;
}.

Definition runInThread (tid : Z) (alive : bool) (name : bytes) (func : func_outcome) : run :=
  let stored := if alive then Some tid else None in
  let running := match name with [] => bs "cnetThread" | _ => cstr name end in
  let caught := bs "exception caught in Thread " ++ cstr name ++ [LF] in
  match func with
  | Returns => mkRun running (bs "finished") [] stored false
  | ThrowsException what stack =>
      mkRun running (bs "crashed")
        (caught ++ bs "reason: " ++ cstr what ++ [LF] ++ bs "statck trace: " ++ cstr stack ++ [LF]) stored false
  | ThrowsStd what => mkRun running (bs "crashed") (caught ++ bs "reason: " ++ cstr what ++ [LF]) stored false
  | ThrowsOther => mkRun running (bs "crashed") (bs "unknown " ++ caught) stored true
  end.

(** [tid()] of the object, after the thread has run that far. *)
Definition set_tid (r : run) (t : Thread) : Thread :=
  match stored_tid r with Some tid => mkThread (started_ t) (joined_ t) tid (name_ t) | None => t end.

(** [CurrentThread::isMainThread], [sleepUsec]: the time given to [nanosleep]. *)
Definition isMainThread (tid pid : Z) : bool := tid =? pid.
Definition kMicroSecondsPerSecond : Z := 1000 * 1000.
Definition sleepUsec (usec : Z) : Z * Z :=
  (usec ÷ kMicroSecondsPerSecond, Z.rem usec kMicroSecondsPerSecond * 1000).

(** ** The owner's calls *)

Inductive op : Set := OpStart | OpJoin.

Definition do_op (o : op) (st : Thread * pthread) : res (Thread * pthread) :=
  match o with
  | OpStart => start true (fst st) (snd st)
  | OpJoin => join (fst st) (snd st)
  end.

Record inv (t : Thread) (p : pthread) : Prop := mkInv {
  inv_started : started_ t = false -> joined_ t = false /\ p = NoThread;
  inv_joinable : started_ t = true -> joined_ t = false -> p = Joinable;
  inv_joined : joined_ t = true -> p = Joined;
}.

Lemma do_op_inv o t p t' p' : inv t p -> do_op o (t, p) = Ok (t', p') -> inv t' p'.
Proof.
  intros [I1 I2 I3] E. destruct t as [s j i n], o, s; cbn in *; try done.
  - injection E as <- <-. destruct (I1 eq_refl) as [-> ->]. by constructor.
  - destruct j; cbn in E; [done|]. rewrite I2 in E by done. injection E as <- <-. by constructor.
Qed.

(** However a [Thread] is started and joined, as long as no assertion fails,
    pthread is never asked to join or detach what is not joinable, and once the
    object is gone no thread is left that is neither joined nor detached; a
    thread that was joined has ended. *)
Theorem thread_released (ops : list op) num name t num' t' p' :
  Thread_new num name = Ok (t, num') -> res_foldl (fun st o => do_op o st) (t, NoThread) ops = Ok (t', p') ->
  exists p, Thread_delete t' p' = Ok p /\ p <> Joinable /\ (joined_ t' = true <-> p = Joined) /\
    (started_ t' = false <-> p = NoThread).
Proof.
  intros E0 E.
  assert (I0 : inv t NoThread).
  { unfold Thread_new in E0. inv_ok. match goal with x : _ * Z |- _ => destruct x end. injection E0 as <- _. by constructor. }
  assert (I : inv t' p').
  { clear E0. revert t E I0. generalize NoThread. induction ops as [|o ops IH]; intros p t E I; cbn in E.
    - by injection E as <- <-.
    - destruct (do_op o (t, p)) as [[t1 p1]|] eqn:E1; [|done]. eapply IH; [exact E|]. by eapply do_op_inv. }
  destruct I as [I1 I2 I3]. destruct t' as [[] [] i n]; cbn in *.
  - rewrite I3 by done. by exists Joined.
  - rewrite I2 by done. by exists Detached.
  - destruct (I1 eq_refl). done.
  - destruct (I1 eq_refl) as [_ ->]. by exists NoThread.
Qed.

(** A thread that joins itself is neither joined nor detached. *)
Theorem join_self_leaks t p : started_ t = true -> joined_ t = false ->
  exists t', join_self t p = Ok (EDEADLK, (t', p)) /\ Thread_delete t' p = Ok p.
Proof. intros Hs Hj. unfold join_self. rewrite Hs, Hj. cbn. eexists. by split. Qed.

(** ** Names and counters *)

(** [k] increments of a counter answer the next [k] numbers, each once. *)
Fixpoint increments (w : Z) (k : nat) (value_ : Z) : res (list Z * Z) :=
  match k with
  | O => Ok ([], value_)
  | S k' =>
      let* (n, v) := incrementAndGet w value_ in
      let* (ns, v) := increments w k' v in Ok (n :: ns, v)
  end.

Lemma incrementAndGet_ok w v : 0 < w -> - 2 ^ (w - 1) <= v -> v + 1 < 2 ^ (w - 1) ->
  incrementAndGet w v = Ok (v + 1, v + 1).
Proof.
  intros Hw H1 H2. unfold incrementAndGet, addAndGet, getAndAdd.
  rewrite to_signed_small by lia.
  by rewrite (proj2 (Z.leb_le _ _)), (proj2 (Z.ltb_lt _ _)) by lia.
Qed.

Theorem increments_count w k v : 0 < w -> - 2 ^ (w - 1) <= v -> v + Z.of_nat k < 2 ^ (w - 1) ->
  increments w k v = Ok (map (fun i => v + 1 + Z.of_nat i) (seq 0 k), v + Z.of_nat k).
Proof.
  intros Hw. revert v. induction k as [|k IH]; intros v H1 H2; cbn [increments].
  - cbn. by rewrite Z.add_0_r.
  - rewrite incrementAndGet_ok by lia. cbn [res_bind]. rewrite IH by lia. cbn [res_bind].
    do 2 f_equal; [|lia]. cbn [seq map]. f_equal; [lia|].
    rewrite <-seq_shift, map_map. apply map_ext. intros i. lia.
Qed.

(** Threads made without a name get names that differ. *)
Theorem default_names_differ n m t1 t2 k1 k2 : 0 <= n < 2 ^ 31 - 1 -> 0 <= m < 2 ^ 31 - 1 ->
  Thread_new n [] = Ok (t1, k1) -> Thread_new m [] = Ok (t2, k2) -> name_ t1 = name_ t2 -> n = m.
Proof.
  intros Hn Hm E1 E2 E. unfold Thread_new, setDefaultName in E1, E2.
  rewrite incrementAndGet_ok in E1, E2 by (change (2 ^ (32 - 1)) with (2 ^ 31); lia).
  assert (N1 : name_ t1 = snprintf 32 (bs "Thread" ++ fmt_d (n + 1))) by (by injection E1 as <- _).
  assert (N2 : name_ t2 = snprintf 32 (bs "Thread" ++ fmt_d (m + 1))) by (by injection E2 as <- _).
  assert (Hl : forall z, 0 <= z < 2 ^ 31 -> snprintf 32 (bs "Thread" ++ fmt_d z) = bs "Thread" ++ fmt_u z).
  { intros z Hz. unfold fmt_d, snprintf. rewrite (proj2 (Z.ltb_ge _ _)) by lia. apply ztake_ge.
    rewrite zlen_app. pose proof (fmt_u_length z 10%nat) as L. change (zlen (bs "Thread")) with 6.
    assert (z < 10 ^ 10) by (change (10 ^ 10) with 10000000000; lia).
    change (Z.of_nat 10) with 10 in L. specialize (L ltac:(lia) ltac:(lia)). lia. }
  rewrite N1, N2, !Hl in E by lia. apply app_inv_head in E.
  assert (dec_value (fmt_u (n + 1)) = dec_value (fmt_u (m + 1))) as D by (by rewrite E).
  rewrite !fmt_u_value in D by lia. lia.
Qed.

(** The time of [sleepUsec], when it is not negative, is one that [nanosleep]
    accepts, and is the time asked for. *)
Theorem sleepUsec_exact usec : 0 <= usec ->
  let '(sec, nsec) := sleepUsec usec in 0 <= nsec < 10 ^ 9 /\ sec * 10 ^ 9 + nsec = usec * 1000.
Proof.
  intros H. unfold sleepUsec, kMicroSecondsPerSecond.
  pose proof (Z.quot_rem' usec (1000 * 1000)). pose proof (Z.rem_bound_pos usec (1000 * 1000) ltac:(lia) ltac:(lia)). lia.
Qed.

(** ** What a thread leaves *)

(** Only an exception that derives from neither class ends the process; every
    other end of the function is told by the name of the thread, and written
    with the name and the text of the exception if there was one. *)
Theorem run_outcome tid alive name f :
  let r := runInThread tid alive name f in
  (terminates r = true <-> f = ThrowsOther) /\
  (name_after r = bs "finished" <-> f = Returns) /\
  (stderr r = [] <-> f = Returns) /\
  stored_tid r = (if alive then Some tid else None) /\
  ((exists rest, name = x00 :: rest) \/ name_running r <> []).
Proof.
  split_and!; [by destruct f..|].
  destruct name as [|c name]; [by right; destruct f|]. destruct (decide (c = x00)) as [->|Hc]; [left; eauto|right].
  assert (E : cstr (c :: name) = c :: cstr name).
  { unfold cstr. cbn [std_find]. by rewrite (proj2 (byte_eqb_false c x00)). }
  unfold runInThread. rewrite E. by destruct f.
Qed.

Example thread_names :
  (let* (t, n) := Thread_new 6 [] in Ok (name_ t, n)) = Ok (bs "Thread7", 7) /\
  name_running (runInThread 9 true [] Returns) = bs "cnetThread" /\
  stderr (runInThread 9 true (bs "io") (ThrowsStd (bs "oops"))) =
    bs "exception caught in Thread io" ++ [LF] ++ bs "reason: oops" ++ [LF].
Proof. vm_compute. done. Qed.
