(* ===== verification/CurrentThread.v ===== *)
(** * The identity of the current thread (cnet/base/CurrentThread.h, Thread.cc)

    The thread-local copy of the thread's number with its text, made on the first
    use, and what [fork] does to it: the child is a copy of the thread that forked,
    with a number of its own. *)

From stdpp Require Import relations.
From S2P Require Import Prelude Cstd Thread.

(** The [__thread] variables of namespace CurrentThread, and their initial
    values. *)
Record locals := mkLocals {
  t_cachedTid : Z;
  t_tidString : bytes;
  t_tidStringLength : Z;
  t_threadName : bytes;
}.
Definition locals_new : locals := mkLocals 0 [] 6 (bs "unknow").

Section thread.
(** What [syscall(SYS_gettid)] gives. *)
Context (gettid : Z).

Definition cacheTid (l : locals) : locals :=
  if t_cachedTid l =? 0 then
    let s := fmt_wd 5 gettid ++ [SP] in mkLocals gettid (snprintf 32 s) (zlen s) (t_threadName l)
  else l.

Definition tid (l : locals) : Z * locals :=
  let l := if t_cachedTid l =? 0 then cacheTid l else l in (t_cachedTid l, l).

Definition tidString (l : locals) : bytes := t_tidString l.
Definition tidStringLength (l : locals) : Z := t_tidStringLength l.
Definition name (l : locals) : bytes := t_threadName l.

Definition set_name (s : bytes) (l : locals) : locals :=
  mkLocals (t_cachedTid l) (t_tidString l) (t_tidStringLength l) s.

(** [isMainThread()] in a process. *)
Definition isMainThread (getpid : Z) (l : locals) : bool * locals :=
  let (t, l) := tid l in (Thread.isMainThread t getpid, l).

Definition afterFork (l : locals) : locals :=
  let l := mkLocals 0 (t_tidString l) (t_tidStringLength l) (t_threadName l) in
  snd (tid (set_name (bs "main") l)).

(** [ThreadNameInitializer], before main. *)
Definition ThreadNameInitializer (l : locals) : locals := snd (tid (set_name (bs "main") l)).

(** The beginning of [runInThread], up to the call of the function, and its end. *)
Definition run_begin (thread_name : bytes) (l : locals) : locals :=
  set_name (match thread_name with [] => bs "cnetThread" | _ => cstr thread_name end) (snd (tid l)).
Definition run_end (o : func_outcome) (l : locals) : locals :=
  set_name (match o with Returns => bs "finished" | _ => bs "crashed" end) l.
End thread.

(** ** The threads of a program and of its children *)

Record kthread := mkKthread { ktid : Z; kpid : Z; tls : locals }.

Definition with_tls (l : locals) (t : kthread) : kthread := mkKthread (ktid t) (kpid t) l.
Definition fresh (n : Z) (ts : list kthread) : Prop := 0 < n < 2 ^ 31 /\ Forall (fun t => ktid t <> n) ts.

(** A thread is started, by [Thread] or otherwise; one forks; one uses its
    number; one comes to the end of its function. *)
Inductive kstep (ts : list kthread) : list kthread -> Prop :=
| k_start i t n nm : ts !! i = Some t -> fresh n ts ->
    kstep ts (ts ++ [mkKthread n (kpid t) (run_begin n nm locals_new)])
| k_raw i t n : ts !! i = Some t -> fresh n ts -> kstep ts (ts ++ [mkKthread n (kpid t) locals_new])
| k_fork i t n : ts !! i = Some t -> fresh n ts -> kstep ts (ts ++ [mkKthread n n (afterFork n (tls t))])
| k_tid i t : ts !! i = Some t -> kstep ts (<[i := with_tls (snd (tid (ktid t) (tls t))) t]> ts)
| k_end i t o : ts !! i = Some t -> kstep ts (<[i := with_tls (run_end o (tls t)) t]> ts).

Definition program_start (pid : Z) : list kthread := [mkKthread pid pid (ThreadNameInitializer pid locals_new)].

(** ** Properties *)

Definition tid_text (n : Z) : bytes := fmt_wd 5 n ++ [SP].

(** Nothing is cached yet, or the thread's own number with its text. *)
Record cached (n : Z) (l : locals) : Prop := mkCached {
  ca_tid : t_cachedTid l = 0 \/ t_cachedTid l = n;
  ca_text : t_cachedTid l <> 0 -> t_tidString l = tid_text n /\ t_tidStringLength l = zlen (tid_text n);
}.

Lemma tid_text_fits n : 0 < n < 2 ^ 31 -> zlen (tid_text n) < 32.
Proof.
  intros H. unfold tid_text, fmt_wd, pad_left. rewrite !zlen_app, zlen_replicate. change (zlen [SP]) with 1.
  pose proof (fmt_d_short n ltac:(lia)). lia.
Qed.

Lemma tid_cached n l : 0 < n < 2 ^ 31 -> cached n l ->
  (tid n l).1 = n /\ cached n (tid n l).2 /\ t_cachedTid (tid n l).2 = n /\ name (tid n l).2 = name l.
Proof.
  intros Hn [C1 C2]. unfold tid. destruct (Z.eqb_spec (t_cachedTid l) 0) as [E|E]; cbn [fst snd].
  - unfold cacheTid. rewrite E. cbn. fold (tid_text n). rewrite snprintf_fits by (by apply tid_text_fits).
    split_and!; try done. constructor; cbn; [by right|done].
  - destruct C1 as [|C1]; [done|]. split_and!; try done. by constructor; [right|].
Qed.

Lemma set_name_cached n s l : cached n l -> cached n (set_name s l).
Proof. by intros [C1 C2]. Qed.
Lemma locals_new_cached n : cached n locals_new.
Proof. constructor; [by left|done]. Qed.

Lemma afterFork_cached n l : 0 < n < 2 ^ 31 ->
  cached n (afterFork n l) /\ t_cachedTid (afterFork n l) = n /\ name (afterFork n l) = bs "main".
Proof.
  intros Hn. unfold afterFork. set (m := set_name _ _). assert (C : cached n m) by (constructor; [by left|done]).
  by destruct (tid_cached n m Hn C) as (_ & C' & E & ->).
Qed.

Record threads_inv (ts : list kthread) : Prop := mkThreadsInv {
  ki_range : Forall (fun t => 0 < ktid t < 2 ^ 31) ts;
  ki_unique : NoDup (map ktid ts);
  ki_cached : Forall (fun t => cached (ktid t) (tls t)) ts;
}.

Lemma threads_inv_snoc ts t : threads_inv ts -> fresh (ktid t) ts -> cached (ktid t) (tls t) -> threads_inv (ts ++ [t]).
Proof.
  intros [I1 I2 I3] [Hr Hf] C. constructor.
  - apply Forall_app. split; [done|]. by apply Forall_singleton.
  - rewrite map_app. apply NoDup_app. split_and!; [done| |by apply NoDup_singleton].
    intros n Hn Hin. apply list_elem_of_singleton in Hin as ->. apply list_elem_of_fmap in Hn as (t' & E & Ht').
    rewrite Forall_forall in Hf. by apply (Hf t').
  - apply Forall_app. split; [done|]. by apply Forall_singleton.
Qed.

Lemma threads_inv_insert ts i t l : threads_inv ts -> ts !! i = Some t -> cached (ktid t) l ->
  threads_inv (<[i := with_tls l t]> ts).
Proof.
  intros [I1 I2 I3] Hi C. rewrite Forall_lookup in I1. pose proof (I1 i t Hi) as R. rewrite <- Forall_lookup in I1. constructor.
  - by apply Forall_insert.
  - rewrite list_fmap_insert. cbn. rewrite list_insert_id; [done|]. by rewrite list_lookup_fmap, Hi.
  - by apply Forall_insert.
Qed.

Lemma kstep_inv ts ts' : threads_inv ts -> kstep ts ts' -> threads_inv ts'.
Proof.
  intros I S. destruct S as [i t n nm Hi F|i t n Hi F|i t n Hi F|i t Hi|i t o Hi].
  - apply threads_inv_snoc; [done|done|]. cbn. apply set_name_cached, tid_cached; [by destruct F|apply locals_new_cached].
  - apply threads_inv_snoc; [done|done|apply locals_new_cached].
  - apply threads_inv_snoc; [done|done|]. by apply afterFork_cached; destruct F.
  - pose proof I as [I1 I2 I3]. rewrite Forall_lookup in I1, I3. apply threads_inv_insert; [done|done|].
    apply tid_cached; [by apply (I1 i)|by apply (I3 i)].
  - pose proof I as [I1 I2 I3]. rewrite Forall_lookup in I3. apply threads_inv_insert; [done|done|].
    apply set_name_cached. by apply (I3 i).
Qed.

Lemma program_start_inv pid : 0 < pid < 2 ^ 31 -> threads_inv (program_start pid).
Proof.
  intros H. unfold program_start. constructor; cbn.
  - by apply Forall_singleton.
  - apply NoDup_singleton.
  - apply Forall_singleton,  (tid_cached pid (set_name (bs "main") locals_new) H (set_name_cached pid _ _ (locals_new_cached pid))).
Qed.

(** C21: In every thread of a program and of the processes it forks, at any time,
    [tid()] gives the number of that very thread, which no other one has, and
    from then on [tidString()] is its text, of the length that
    [tidStringLength()] says; [isMainThread()] holds exactly in the first thread
    of each process, the child of a thread that was not one included.  A child
    begins with the name "main" and its own number cached. *)
Theorem tid_is_own (pid : Z) (ts : list kthread) (Hp : 0 < pid < 2 ^ 31) (R : rtc kstep (program_start pid) ts) :
  NoDup (map ktid ts) /\
  (forall i t, ts !! i = Some t ->
     let (n, l) := tid (ktid t) (tls t) in
     n = ktid t /\ tidString l = tid_text n /\ tidStringLength l = zlen (tidString l) /\ x00 ∉ tidString l /\
     (isMainThread (ktid t) (kpid t) (tls t)).1 = bool_decide (ktid t = kpid t)) /\
  (forall i t n, ts !! i = Some t -> fresh n ts ->
     exists child, kstep ts (ts ++ [child]) /\ ktid child = n /\ t_cachedTid (tls child) = n /\ name (tls child) = bs "main" /\
       (isMainThread n (kpid child) (tls child)).1 = true).
Proof.
  assert (I : threads_inv ts).
  { pose proof (program_start_inv pid Hp) as I. induction R as [|t1 t2 t3 S _ IH]; [done|]. apply IH. by eapply kstep_inv. }
  split_and!; [apply I| |].
  - intros i t Hi. pose proof I as [I1 I2 I3]. rewrite Forall_lookup in I1, I3. specialize (I1 i t Hi). specialize (I3 i t Hi).
    cbn beta in I1, I3. destruct (tid_cached _ _ I1 I3) as (E & C & Ec & _). unfold isMainThread.
    destruct (tid (ktid t) (tls t)) as [n l]. cbn [fst snd] in *. subst n. destruct (ca_text _ _ C) as [T1 T2]; [lia|].
    unfold tidString, tidStringLength. rewrite T1, T2. split_and!; try done.
    + unfold tid_text, fmt_wd, pad_left. rewrite !elem_of_app. intros [[H|H]|H].
      * by apply elem_of_replicate in H as [? _].
      * unfold fmt_d in H. rewrite (proj2 (Z.ltb_ge _ _)) in H by lia.
        by apply (digit_no_nul (fmt_u (ktid t))) in H; [|apply fmt_u_digits; lia].
      * by apply list_elem_of_singleton in H.
    + unfold Thread.isMainThread. by destruct (Z.eqb_spec (ktid t) (kpid t)); case_bool_decide.
  - intros i t n Hi F. destruct (afterFork_cached n (tls t)) as (C & E & N); [by destruct F|].
    eexists. split; [by eapply (k_fork ts i t n)|]. cbn [ktid kpid tls]. split_and!; try done.
    unfold isMainThread. destruct F as [Hn _]. destruct (tid_cached n _ Hn C) as (E1 & _).
    destruct (tid n (afterFork n (tls t))) as [m l]. cbn in E1 |- *. subst m. unfold Thread.isMainThread. apply Z.eqb_refl.
Qed.

(** A thread of the process 100 forks. *)
Definition ex_child : list kthread :=
  [mkKthread 100 100 (mkLocals 100 (bs "  100 ") 6 (bs "main")); mkKthread 101 100 (mkLocals 101 (bs "  101 ") 6 (bs "worker"));
   mkKthread 102 102 (mkLocals 102 (bs "  102 ") 6 (bs "main"))].
Lemma ex_child_reachable : rtc kstep (program_start 100) ex_child.
Proof.
  eapply rtc_l; [eapply (k_start _ 0 _ 101 (bs "worker")); [done|split; [lia|by repeat constructor]]|].
  eapply rtc_l; [eapply (k_fork _ 1 _ 102); [done|split; [lia|by repeat constructor]]|]. vm_compute. apply rtc_refl.
Qed.

Lemma tid_is_own_witness : NoDup (map ktid ex_child) /\
  (isMainThread 102 102 (mkLocals 102 (bs "  102 ") 6 (bs "main"))).1 = true.
Proof.
  destruct (tid_is_own 100 ex_child ltac:(lia) ex_child_reachable) as (N & H & _). split; [exact N|].
  exact (proj2 (proj2 (proj2 (proj2 (H 2%nat _ eq_refl))))).
Defined.
