(* ===== verification/Singletons.v ===== *)
(** * Objects of the process and of the threads (cnet/base/Singleton.h,
    ThreadLocal.h, ThreadLocalSingleton.h, WeakCallback.h)

    A singleton is made by the first thread that asks for it, while the others
    wait in [pthread_once]; a thread-local value is made by each thread that
    asks and freed when the thread exits; a weak callback calls a function of an
    object if it still exists.  Objects are named by their addresses; [heap] is
    the set of those that exist, and [new] gives an address that is not in it. *)

From stdpp Require Import gmap relations.
From S2P Require Import Prelude.

(** ** Singleton *)

Module Singleton.
(** [pthread_once_t]: not run, running in a thread, done. *)
Inductive once : Set := NotRun | RunBy (t : Z) | Done.
(** Where a thread is: not in [instance()]; in [pthread_once], before and in
    [init()]; past it; returned; its assertion failed. *)
Inductive place : Set := Out | AtOnce | InInit | Past | Returned (p : Z) | Failed.

Record state := mkState {
  ponce_ : once;
  value_ : option Z;
  heap : gset Z;
  atexit_ : bool;
  at_ : gmap Z place;
}.

Definition new : state := mkState NotRun None ∅ false ∅.
Definition place_of (s : state) (t : Z) : place := default Out (at_ s !! t).
Definition goes (t : Z) (p : place) (s : state) : state :=
  mkState (ponce_ s) (value_ s) (heap s) (atexit_ s) (<[t := p]> (at_ s)).
Definition set_once (o : once) (s : state) : state := mkState o (value_ s) (heap s) (atexit_ s) (at_ s).

(** [init()]: the object at address [p]. *)
Definition init (has_no_destroy : bool) (p : Z) (s : state) : state :=
  mkState (ponce_ s) (Some p) ({[p]} ∪ heap s) (if has_no_destroy then atexit_ s else true) (at_ s).
(** [destroy()], called at exit. *)
Definition destroy (s : state) : state :=
  mkState (ponce_ s) None (match value_ s with Some p => heap s ∖ {[p]} | None => heap s end) false (at_ s).
(** The assertion, and the reference. *)
Definition finish (s : state) : place := match value_ s with Some p => Returned p | None => Failed end.

Section steps.
Context (has_no_destroy : bool).

Inductive step (s : state) : state -> Prop :=
| step_call t : place_of s t = Out -> step s (goes t AtOnce s)
| step_first t : place_of s t = AtOnce -> ponce_ s = NotRun -> step s (goes t InInit (set_once (RunBy t) s))
| step_init t p : place_of s t = InInit -> p ∉ heap s -> step s (goes t Past (set_once Done (init has_no_destroy p s)))
| step_done t : place_of s t = AtOnce -> ponce_ s = Done -> step s (goes t Past s)
| step_return t : place_of s t = Past -> step s (goes t (finish s) s)
| step_again t p : place_of s t = Returned p -> step s (goes t Out s).

(** Everything until the process exits. *)
Definition reachable : state -> Prop := rtc step new.

Record inv (s : state) : Prop := mkInv {
  inv_init : forall t, place_of s t = InInit <-> ponce_ s = RunBy t;
  inv_none : ponce_ s <> Done -> value_ s = None /\ heap s = ∅;
  inv_done : ponce_ s = Done -> exists p, value_ s = Some p /\ heap s = {[p]};
  inv_past : forall t, place_of s t = Past -> ponce_ s = Done;
  inv_same : forall t p, place_of s t = Returned p -> value_ s = Some p;
  inv_fine : forall t, place_of s t <> Failed;
}.

Lemma place_goes t p s u : place_of (goes t p s) u = if decide (t = u) then p else place_of s u.
Proof.
  unfold place_of. cbn. destruct (decide (t = u)) as [->|]; [by rewrite lookup_insert_eq|by rewrite lookup_insert_ne].
Qed.

(** A thread goes between places that hold nothing. *)
Lemma singleton_inv_move s t p : inv s -> place_of s t <> InInit -> p <> InInit -> p <> Failed ->
  (p = Past -> ponce_ s = Done) -> (forall a, p = Returned a -> value_ s = Some a) -> inv (goes t p s).
Proof.
  intros [I1 I2 I3 I4 I5 I6] Ht Hp Hf Hd Hv. constructor; try done; intros u; rewrite place_goes; try destruct decide as [<-|]; auto; try apply I4; try apply I5.
  split; [done|]. intros E. apply I1 in E. congruence.
Qed.

Lemma singleton_step_inv s s' : inv s -> step s s' -> inv s'.
Proof.
  intros I S. pose proof I as [I1 I2 I3 I4 I5 I6].
  destruct S as [t Ht|t Ht Ho|t p Ht Hp|t Ht Ho|t Ht|t p Ht].
  - by apply singleton_inv_move; rewrite ?Ht.
  - destruct (I2 ltac:(congruence)) as [Hv Hh].
    assert (Hno : forall u, place_of s u <> InInit) by (intros u E; apply I1 in E; congruence).
    constructor; cbn; try done.
    + intros u. rewrite place_goes. destruct decide as [<-|Hne]; [done|]. change (place_of (set_once _ s) u) with (place_of s u).
      split; [by intros ?%Hno|]. by intros [= ->].
    + intros u. rewrite place_goes. destruct decide; [done|]. intros E. apply I4 in E. congruence.
    + intros u a. rewrite place_goes. destruct decide; [done|]. apply I5.
    + intros u. rewrite place_goes. destruct decide; [done|]. apply I6.
  - pose proof (proj1 (I1 t) Ht) as Ho. destruct (I2 ltac:(congruence)) as [Hv Hh]. constructor; cbn; try done.
    + intros u. rewrite place_goes. destruct decide as [<-|Hne]; [done|]. change (place_of _ u) with (place_of s u).
      split; [|done]. intros E. apply I1 in E. congruence.
    + intros _. exists p. split; [done|]. rewrite Hh. set_solver.
    + intros u a. rewrite place_goes. destruct decide; [done|]. intros E. apply I5 in E. congruence.
    + intros u. rewrite place_goes. destruct decide; [done|]. apply I6.
  - by apply singleton_inv_move; rewrite ?Ht.
  - pose proof (I4 t Ht) as Ho. destruct (I3 Ho) as (p & Hv & _).
    unfold finish. rewrite Hv. apply singleton_inv_move; rewrite ?Ht; try done. by intros a [= ->].
  - by apply singleton_inv_move; rewrite ?Ht.
Qed.

Lemma singleton_inv s : reachable s -> inv s.
Proof.
  intros R. assert (I0 : inv new) by (constructor; cbn; try done; intros t; unfold place_of; cbn; by rewrite lookup_empty).
  revert I0. unfold reachable in R. induction R as [|s1 s2 s3 S _ IH]; eauto using singleton_step_inv.
Qed.

(** Until the process exits, [instance()] never fails, all its callers get the
    same object, which exists, and no second one is ever made; whoever is in
    [pthread_once] can go on, or the one that makes the object can. *)
Theorem singleton_unique s : reachable s ->
  (forall t, place_of s t <> Failed) /\
  (forall t u p q, place_of s t = Returned p -> place_of s u = Returned q -> p = q /\ p ∈ heap s) /\
  (size (heap s) <= 1)%nat /\
  (forall t, place_of s t = AtOnce -> exists u s', (u = t \/ place_of s u = InInit) /\ step s s' /\ place_of s' u <> place_of s u).
Proof.
  intros R. apply singleton_inv in R as I. pose proof I as [I1 I2 I3 I4 I5 I6]. split_and!.
  - done.
  - intros t u p q Ht Hu. apply I5 in Ht as Hv. apply I5 in Hu. split; [congruence|].
    destruct (ponce_ s) as [|v|] eqn:Eo; [destruct (I2 ltac:(done)); congruence..|].
    destruct (I3 eq_refl) as (a & Ha & ->). set_solver.
  - destruct (ponce_ s) as [|v|] eqn:Eo; [destruct (I2 ltac:(done)) as [_ ->]; rewrite size_empty; lia..|].
    destruct (I3 eq_refl) as (a & _ & ->). rewrite size_singleton. lia.
  - intros t Ht. destruct (ponce_ s) as [|v|] eqn:Eo.
    + exists t. eexists. split; [by left|]. split; [by apply step_first|]. rewrite place_goes, decide_True by done. by rewrite Ht.
    + pose proof (proj2 (I1 v) eq_refl) as Hv. exists v. eexists. split; [by right|].
      split; [apply (step_init _ v (fresh (heap s))); [done|apply is_fresh]|].
      rewrite place_goes, decide_True by done. by rewrite Hv.
    + exists t. eexists. split; [by left|]. split; [by apply step_done|]. rewrite place_goes, decide_True by done. by rewrite Ht.
Qed.

(** At exit the object is freed, unless it has [no_destroy]; a thread that asks
    after that fails its assertion. *)
Theorem singleton_at_exit s : reachable s -> ponce_ s = Done ->
  heap (destroy s) = ∅ /\ forall t, place_of s t = Past -> finish (destroy s) = Failed.
Proof.
  intros R Ho. apply singleton_inv in R as I. destruct (inv_done s I Ho) as (p & Hv & Hh).
  unfold destroy. rewrite Hv, Hh. cbn. split; [set_solver|done].
Qed.
End steps.
End Singleton.

(** ** ThreadLocal *)

Module ThreadLocal.
(** [specific]: what [pthread_getspecific] answers in each thread. *)
Record state := mkState { specific : gmap Z Z; heap : gset Z }.
Definition new : state := mkState ∅ ∅.

(** [value()] in thread [t]; [p]: the address if it is made. *)
Definition value (t p : Z) (s : state) : Z * state :=
  match specific s !! t with
  | Some v => (v, s)
  | None => (p, mkState (<[t := p]> (specific s)) ({[p]} ∪ heap s))
  end.
(** The thread exits: the destructor of the key is called on its value. *)
Definition thread_exit (t : Z) (s : state) : state :=
  match specific s !! t with
  | Some v => mkState (delete t (specific s)) (heap s ∖ {[v]})
  | None => s
  end.
(** [~ThreadLocal]: deleting the key calls no destructors. *)
Definition ThreadLocal_delete (s : state) : state := mkState ∅ (heap s).

Inductive op : Set := Value (t p : Z) | Exit (t : Z).
Definition exec (s : state) (o : op) : state :=
  match o with Value t p => snd (value t p s) | Exit t => thread_exit t s end.
Definition op_ok (s : state) (o : op) : Prop := match o with Value _ p => p ∉ heap s | Exit _ => True end.
Fixpoint ops_ok (s : state) (l : list op) : Prop :=
  match l with [] => True | o :: l => op_ok s o /\ ops_ok (exec s o) l end.

Record inv (s : state) : Prop := mkInv {
  inv_heap : forall p, p ∈ heap s <-> exists t, specific s !! t = Some p;
  inv_own : forall t u p, specific s !! t = Some p -> specific s !! u = Some p -> t = u;
}.

Lemma thread_local_exec_inv s o : inv s -> op_ok s o -> inv (exec s o).
Proof.
  intros [I1 I2] Ho. destruct o as [t p|t]; cbn.
  - unfold value. destruct (specific s !! t) as [v|] eqn:E; [done|]. cbn. constructor; cbn.
    + intros q. rewrite elem_of_union, elem_of_singleton, I1. split.
      * intros [->|[u Hu]]; [exists t; by rewrite lookup_insert_eq|]. exists u. rewrite lookup_insert_ne; [done|]. congruence.
      * intros (u & [[_ <-]|[_ Hu]]%lookup_insert_Some); eauto.
    + intros u w q [[<- <-]|[Hn Hu]]%lookup_insert_Some [[<- E2]|[Hn' Hw]]%lookup_insert_Some; try done; [..|by eapply I2].
      * destruct Ho. apply I1. eauto.
      * subst q. destruct Ho. apply I1. eauto.
  - unfold thread_exit. destruct (specific s !! t) as [v|] eqn:E; [|done]. constructor; cbn.
    + intros q. rewrite elem_of_difference, elem_of_singleton, I1. split.
      * intros [[u Hu] Hq]. exists u. rewrite lookup_delete_ne; [done|]. congruence.
      * intros (u & [Hn Hu]%lookup_delete_Some). split; [eauto|]. intros ->. by apply Hn, (I2 t u v).
    + intros u w q [_ Hu]%lookup_delete_Some [_ Hw]%lookup_delete_Some. by eapply I2.
Qed.

Lemma thread_local_run_inv l s : inv s -> ops_ok s l -> inv (fold_left exec l s).
Proof. revert s. induction l as [|o l IH]; intros s I; [done|]. cbn. intros [Ho Hl]. apply IH; [by apply thread_local_exec_inv|done]. Qed.

(** Each thread has a value of its own, the same at every call until it exits;
    exactly the values of the threads that have not exited exist. *)
Theorem thread_local_owned (l : list op) : ops_ok new l ->
  let s := fold_left exec l new in
  (forall t p v, specific s !! t = Some v -> value t p s = (v, s)) /\
  (forall t u p, specific s !! t = Some p -> specific s !! u = Some p -> t = u) /\
  (forall p, p ∈ heap s <-> exists t, specific s !! t = Some p).
Proof.
  intros Hl. cbv zeta. assert (I : inv (fold_left exec l new)).
  { apply thread_local_run_inv; [|done]. constructor; cbn; [|intros t u p; by rewrite lookup_empty].
    intros p. split; [set_solver|]. intros [t H]. by rewrite lookup_empty in H. }
  destruct I as [I1 I2]. split_and!; try done. intros t p v E. unfold value. by rewrite E.
Qed.

(** The values of the threads that still run when the [ThreadLocal] goes are
    never freed: their exits do nothing. *)
Theorem thread_local_leaks s t p : inv s -> specific s !! t = Some p ->
  forall l, p ∈ heap (fold_left exec (map Exit l) (ThreadLocal_delete s)).
Proof.
  intros [I1 _] Ht l. assert (H : p ∈ heap (ThreadLocal_delete s)) by (cbn; apply I1; eauto).
  assert (E : fold_left exec (map Exit l) (ThreadLocal_delete s) = ThreadLocal_delete s); [|by rewrite E].
  clear. induction l as [|u l IH]; [done|]. cbn. unfold thread_exit. cbn. by rewrite lookup_empty.
Qed.
End ThreadLocal.

(** ** ThreadLocalSingleton *)

Module ThreadLocalSingleton.
(** [t_value_] of each thread, and what the key of [deleter_] holds for it. *)
Record state := mkState { t_value_ : gmap Z Z; pkey_ : gmap Z Z; heap : gset Z }.
Definition new : state := mkState ∅ ∅ ∅.

Definition instance (t p : Z) (s : state) : res (Z * state) :=
  match t_value_ s !! t with
  | Some v => Ok (v, s)
  | None =>
      assert! bool_decide (pkey_ s !! t = None);
      Ok (p, mkState (<[t := p]> (t_value_ s)) (<[t := p]> (pkey_ s)) ({[p]} ∪ heap s))
  end.
Definition pointer (t : Z) (s : state) : option Z := t_value_ s !! t.
(** The thread exits: [destructor] on what the key holds. *)
Definition thread_exit (t : Z) (s : state) : res state :=
  match pkey_ s !! t with
  | None => Ok s
  | Some obj =>
      assert! bool_decide (t_value_ s !! t = Some obj);
      Ok (mkState (delete t (t_value_ s)) (delete t (pkey_ s)) (heap s ∖ {[obj]}))
  end.

Definition exec (s : state) (o : ThreadLocal.op) : res state :=
  match o with
  | ThreadLocal.Value t p => let* (_, s) := instance t p s in Ok s
  | ThreadLocal.Exit t => thread_exit t s
  end.

(** It behaves as a [ThreadLocal], and its assertions never fail. *)
Definition same (s : state) (m : ThreadLocal.state) : Prop :=
  t_value_ s = ThreadLocal.specific m /\ pkey_ s = ThreadLocal.specific m /\ heap s = ThreadLocal.heap m.

Theorem thread_local_singleton_refines (l : list ThreadLocal.op) :
  exists s, res_foldl exec new l = Ok s /\ same s (fold_left ThreadLocal.exec l ThreadLocal.new).
Proof.
  assert (G : forall s m, same s m -> exists s', res_foldl exec s l = Ok s' /\ same s' (fold_left ThreadLocal.exec l m)).
  { induction l as [|o l IH]; intros s m Hs; [by exists s|]. pose proof Hs as (E1 & E2 & E3).
    assert (S : exists s1, exec s o = Ok s1 /\ same s1 (ThreadLocal.exec m o)).
    { destruct o as [t p|t]; cbn.
      - unfold instance, ThreadLocal.value. rewrite E1, E2. destruct (ThreadLocal.specific m !! t) as [v|] eqn:Et; cbn; [by eexists|].
        rewrite E3. eexists. split; [done|]. done.
      - unfold thread_exit, ThreadLocal.thread_exit. rewrite E1, E2. destruct (ThreadLocal.specific m !! t) as [v|] eqn:Et; [|by eexists].
        rewrite bool_decide_eq_true_2 by done. cbn. rewrite E3. eexists. split; [done|]. done. }
    destruct S as (s1 & E & Hs1). cbn [res_foldl fold_left]. rewrite E. cbn [res_bind]. by apply IH. }
  by apply G.
Qed.
End ThreadLocalSingleton.

(** ** WeakCallback *)

Module WeakCallback.
(** [uses]: the shared pointers to the object; none: it is destroyed.  The call
    locks the weak pointer, which is one more for as long as the function runs,
    whatever the function does to the others; the result is what the function
    saw, if it was called. *)
Definition lock (uses : nat) : option nat := match uses with O => None | S _ => Some (S uses) end.
Definition call {A} (function : nat -> A * nat) (uses : nat) : option A * nat :=
  match lock uses with
  | None => (None, uses)
  | Some n => let '(a, n) := function n in (Some a, pred n)
  end.

(** The function is called exactly if the object exists, which it does then
    until the function returns, even if it drops all the other pointers. *)
Theorem weak_call_spec {A} (function : nat -> A * nat) (uses : nat) :
  (forall n, (0 < n)%nat -> (0 < snd (function n))%nat) ->
  match call function uses with
  | (None, n) => uses = O /\ n = O
  | (Some a, n) => (0 < uses)%nat /\ a = fst (function (S uses)) /\ (0 < snd (function (S uses)))%nat /\ S n = snd (function (S uses))
  end.
Proof.
  intros Hf. unfold call, lock. destruct uses as [|k]; [done|]. pose proof (Hf (S (S k)) ltac:(lia)) as H.
  destruct (function (S (S k))) as [a n] eqn:E. cbn in *. split; [lia|]. split; [done|]. split; [done|]. lia.
Qed.
End WeakCallback.
