(* ===== verification/ReadSmallFile.v ===== *)
(** * Reading small files (cnet/base/FileUtil.h, FileUtil.cc)

    [ReadSmallFile] and [readFile]: a file is read in pieces of the size of the
    buffer until the wanted number of bytes, the end of the file or an error.
    How [read(2)] cuts the content into pieces is a parameter. *)

From S2P Require Import Prelude Cstd.

(** What the kernel will answer to the successive reads of a descriptor: the
    bytes that are ready, an error number; then the end of the file. *)
Inductive answer : Set :=
| Ready (data : bytes)
| Failure (errno : Z).
Abbreviation descriptor := (list answer).

(** [read(fd, buf, count)]: the bytes, empty at the end of the file, or the error
    number, and the descriptor. *)
Definition read (count : Z) (fd : descriptor) : (bytes + Z) * descriptor :=
  match fd with
  | [] => (inl [], [])
  | Ready data :: fd =>
      if zlen data <=? count then (inl data, fd) else (inl (ztake count data), Ready (zdrop count data) :: fd)
  | Failure e :: fd => (inr e, fd)
  end.

(** What [fstat] stores: of a regular file, a directory or something else. *)
Inductive file_mode : Set := S_REG | S_DIR | S_OTHER.
Record statbuf := mkStat { st_mode : file_mode; st_size : Z; st_mtime : Z; st_ctime : Z }.

Definition kBufferSize : Z := 64 * 1024.
Definition EISDIR : Z := 21.

(** [fd_] is negative when the file could not be opened; [buf_] holds what the
    last [readToBuffer] put there, without the NUL after it. *)
Record ReadSmallFile := mkReadSmallFile {
  fd_ : option descriptor;
  err_ : Z;
  buf_ : bytes;
}.

(** [open]: a descriptor or an error number. *)
Definition ReadSmallFile_new (open : descriptor + Z) : ReadSmallFile :=
  match open with
  | inl fd => mkReadSmallFile (Some fd) 0 []
  | inr errno => mkReadSmallFile None errno []
  end.

(** The reads of [readToString]: what is left of the descriptor, the content
    and [err]; [fuel] bounds the turns. *)
Fixpoint read_loop (fuel : nat) (maxSize : Z) (fd : descriptor) (content : bytes) (err : Z)
  : res (descriptor * bytes * Z) :=
  if zlen content <? u64 maxSize then
    match fuel with
    | O => Err EFuel
    | S fuel =>
        let toRead := Z.min (u64 maxSize - zlen content) kBufferSize in
        match read toRead fd with
        | (inl n, fd) =>
            if 0 <? zlen n then read_loop fuel maxSize fd (content ++ n) err else Ok (fd, content, err)
        | (inr errno, fd) => Ok (fd, content, errno)
        end
    end
  else Ok (fd, content, err).

(** The size, the time of modification and of the change of status. *)
Record stats := mkStats { fileSize : option Z; modifyTime : option Z; createTime : option Z }.

(** [readToString], when [fileSize] is given; [fstat] is its result or an error
    number, and [wantModify], [wantCreate] say which other pointers are given. *)
Definition read_stat (fstat : statbuf + Z) (wantModify wantCreate : bool) (err : Z) (out : stats) : Z * stats :=
  match fstat with
  | inl s =>
      let size := match st_mode s with S_REG => Some (st_size s) | _ => fileSize out end in
      let err := match st_mode s with S_DIR => EISDIR | _ => err end in
      (err, mkStats size (if wantModify then Some (st_mtime s) else modifyTime out)
                         (if wantCreate then Some (st_ctime s) else createTime out))
  | inr errno => (errno, out)
  end.

(** [readToString]: the error number, the content, what is stored for the other
    pointers.  The content is not touched when the file is not open. *)
Definition readToString (fuel : nat) (maxSize : Z) (content : bytes) (wantSize wantModify wantCreate : bool)
  (fstat : statbuf + Z) (f : ReadSmallFile) : res (Z * bytes * stats * ReadSmallFile) :=
  let out := mkStats None None None in
  match fd_ f with
  | Some fd =>
      let (err, out) := if wantSize then read_stat fstat wantModify wantCreate (err_ f) out else (err_ f, out) in
      let* (fd, content, err) := read_loop fuel maxSize fd [] err in
      Ok (err, content, out, mkReadSmallFile (Some fd) (err_ f) (buf_ f))
  | None => Ok (err_ f, content, out, f)
  end.

(** [readToBuffer]: [pread] at the beginning of the file; the error number and
    the size. *)
Definition readToBuffer (pread : bytes + Z) (f : ReadSmallFile) : Z * option Z * ReadSmallFile :=
  match fd_ f with
  | Some fd =>
      match pread with
      | inl data => let n := ztake (kBufferSize - 1) data in (err_ f, Some (zlen n), mkReadSmallFile (Some fd) (err_ f) n)
      | inr errno => (errno, None, f)
      end
  | None => (err_ f, None, f)
  end.

(** [readFile], without the other pointers. *)
Definition readFile (open : descriptor + Z) (maxSize : Z) (content : bytes) : res (Z * bytes) :=
  let* (err, content, _, _) := readToString (Z.to_nat maxSize) maxSize content false false false (inr 0) (ReadSmallFile_new open) in
  Ok (err, content).

(** ** What is read *)

(** The content of a descriptor: the bytes before the first empty answer, and
    the error that ends them, if one does. *)
Fixpoint stream_of (fd : descriptor) : bytes * option Z :=
  match fd with
  | [] => ([], None)
  | Ready [] :: _ => ([], None)
  | Ready data :: fd => (data ++ (stream_of fd).1, (stream_of fd).2)
  | Failure e :: _ => ([], Some e)
  end.

(** An error is met when it comes before the wanted number of bytes. *)
Definition read_result (maxSize : Z) (fd : descriptor) (err : Z) : Z * bytes :=
  let (data, failure) := stream_of fd in
  (match failure with Some e => if zlen data <? maxSize then e else err | None => err end, ztake maxSize data).

Lemma stream_ready d fd : d <> [] -> stream_of (Ready d :: fd) = (d ++ (stream_of fd).1, (stream_of fd).2).
Proof. by destruct d. Qed.

Lemma read_spec count fd : 0 < count ->
  match read count fd with
  | (inl [], _) => stream_of fd = ([], None)
  | (inl n, fd') => zlen n <= count /\ stream_of fd = (n ++ (stream_of fd').1, (stream_of fd').2)
  | (inr e, _) => stream_of fd = ([], Some e)
  end.
Proof.
  intros Hc. destruct fd as [|[data|e] fd]; cbn [read]; [done| |done].
  destruct (Z.leb_spec (zlen data) count) as [H|H].
  - destruct data; [done|]. split; done.
  - pose proof (zlen_ztake count data) as L. pose proof (zlen_zdrop count data) as L'.
    rewrite stream_ready by (intros ->; rewrite zlen_nil in H; lia).
    destruct (ztake count data) as [|x n] eqn:E; [rewrite zlen_nil in L; lia|]. split; [lia|].
    rewrite stream_ready by (intros Ed; rewrite Ed, zlen_nil in L'; lia). cbn [fst snd].
    by rewrite app_assoc, <-E, ztake_zdrop.
Qed.

Lemma read_loop_ok fuel maxSize fd content err : 0 <= maxSize < 2 ^ 31 -> zlen content <= maxSize ->
  (Z.to_nat (maxSize - zlen content) <= fuel)%nat ->
  exists fd', read_loop fuel maxSize fd content err =
    let (e, data) := read_result (maxSize - zlen content) fd err in Ok (fd', content ++ data, e).
Proof.
  intros Hm. revert fd content. induction fuel as [|fuel IH]; intros fd content Hc Hf; cbn [read_loop];
    rewrite u64_small by lia; unfold read_result.
  - rewrite (proj2 (Z.ltb_ge _ _)) by lia. exists fd. destruct (stream_of fd) as [data failure].
    rewrite ztake_nonpos, app_nil_r by lia. destruct failure; [|done].
    pose proof (zlen_nonneg data). by rewrite (proj2 (Z.ltb_ge _ _)) by lia.
  - destruct (Z.ltb_spec (zlen content) maxSize) as [H|H].
    2:{ exists fd. destruct (stream_of fd) as [data failure]. rewrite ztake_nonpos, app_nil_r by lia.
        destruct failure; [|done]. pose proof (zlen_nonneg data). by rewrite (proj2 (Z.ltb_ge _ _)) by lia. }
    set (count := Z.min _ _). assert (Hcount : 0 < count <= maxSize - zlen content).
    { unfold count, kBufferSize. lia. }
    pose proof (read_spec count fd) as R. destruct (read count fd) as [[[|x n]|e] fd1].
    + rewrite R by lia. exists fd1. cbn [fst snd]. unfold ztake. by rewrite take_nil, app_nil_r.
    + destruct R as [Ln R]; [lia|]. rewrite R.
      pose proof (zlen_cons x n) as L. pose proof (zlen_nonneg n). rewrite (proj2 (Z.ltb_lt 0 _)) by lia.
      destruct (IH fd1 (content ++ x :: n)) as (fd' & ->); [rewrite zlen_app; lia..|]. exists fd'.
      unfold read_result. destruct (stream_of fd1) as [data failure]. cbn [fst snd]. rewrite !zlen_app, <-app_assoc.
      assert (Et : (x :: n) ++ ztake (maxSize - (zlen content + zlen (x :: n))) data =
                   ztake (maxSize - zlen content) ((x :: n) ++ data)).
      { rewrite ztake_app. rewrite (ztake_ge _ (x :: n)) by lia. do 2 f_equal. lia. }
      rewrite <-Et. do 3 f_equal. destruct failure; [|done]. do 2 f_equal.
      destruct (Z.ltb_spec (zlen data) (maxSize - (zlen content + zlen (x :: n)))), (Z.ltb_spec (zlen (x :: n) + zlen data) (maxSize - zlen content)); try done; lia.
    + rewrite R by lia. exists fd1. unfold ztake. rewrite take_nil, app_nil_r. rewrite zlen_nil, (proj2 (Z.ltb_lt _ _)) by lia. done.
Qed.

(** [readFile] ends, and reads the first [maxSize] bytes of the file however the
    kernel cuts it into pieces; it reports an error exactly when the file cannot
    be opened or the read that meets the error is made. *)
Theorem readFile_reads open maxSize content : 0 <= maxSize < 2 ^ 31 ->
  readFile open maxSize content =
    Ok (match open with inl fd => read_result maxSize fd 0 | inr errno => (errno, content) end).
Proof.
  intros Hm. unfold readFile, readToString, ReadSmallFile_new. destruct open as [fd|errno]; cbn [fd_ err_]; [|done].
  destruct (read_loop_ok (Z.to_nat maxSize) maxSize fd [] 0) as (fd' & ->); [done|rewrite zlen_nil; lia..|].
  rewrite zlen_nil, Z.sub_0_r. by destruct (read_result maxSize fd 0).
Qed.

Lemma readFile_reads_witness : 0 <= 7 < 2 ^ 31 /\
  readFile (inl [Ready (bs "abc"); Ready (bs "defgh"); Failure 5]) 7 [] = Ok (0, bs "abcdefg").
Proof. split; [lia|]. apply (readFile_reads (inl [Ready (bs "abc"); Ready (bs "defgh"); Failure 5]) 7 []). lia. Defined.
