(* ===== verification/ProcessInfo.v ===== *)
(** * The process (cnet/base/ProcessInfo.h, ProcessInfo.cc)

    What the functions of [ProcessInfo] make of the answers of the system
    calls and of the content of the files under /proc; both are arguments. *)

From stdpp Require Import sorting.
From S2P Require Import Prelude Cstd Double ReadSmallFile.

(** The operating system, as far as it is asked. *)
Record System := mkSystem {
  sys_pid : Z;
  sys_clockTicks : Z;                      (* sysconf(_SC_CLK_TCK) *)
  sys_pageSize : Z;                        (* sysconf(_SC_PAGE_SIZE) *)
  sys_open : bytes -> descriptor + Z;      (* open(2), with what read(2) will give *)
  sys_readlink : bytes -> option bytes;    (* the target, None for an error *)
  sys_scandir : bytes -> option (list bytes); (* the names in a directory *)
  sys_pw_name : option bytes;              (* getpwuid_r(getuid()) *)
  sys_hostname : option bytes;             (* gethostname: what it stores *)
  sys_rlim_cur : option Z;                 (* getrlimit(RLIMIT_NOFILE) *)
  sys_times : option (Z * Z);              (* times(2): tms_utime, tms_stime *)
}.

Section process.
Context (os : System).

Definition pid : Z := sys_pid os.
Definition pidString : bytes := snprintf 32 (fmt_d pid).
Definition username : bytes := match sys_pw_name os with Some name => cstr name | None => bs "unknownuser" end.
Definition clockTicksPerSecond : Z := s32 (sys_clockTicks os).
Definition pageSize : Z := s32 (sys_pageSize os).
Definition isDebugBuild (ndebug : bool) : bool := negb ndebug.

(** [buf[sizeof(buf) - 1] = '\0'] cuts a name that fills the buffer. *)
Definition hostname : bytes :=
  match sys_hostname os with Some buf => cstr (ztake 255 buf) | None => bs "unknownhost" end.

(** The content of a file under /proc, empty when it cannot be opened. *)
Definition read_proc (filename : bytes) (maxSize : Z) : res bytes :=
  let* (_, content) := readFile (sys_open os filename) maxSize [] in Ok content.

Definition procStatus : res bytes := read_proc (bs "/proc/self/status") 65536.
Definition procStat : res bytes := read_proc (bs "/proc/self/stat") 65536.
Definition threadStat (tid : Z) : res bytes :=
  read_proc (snprintf 64 (bs "/proc/self/task/" ++ fmt_d tid ++ bs "/stat")) 65536.

(** A [size_t n > 0] is true of the -1 of an error as well: the string would be
    assigned 2^64-1 bytes. *)
Definition exePath : res bytes :=
  match sys_readlink os (bs "/proc/self/exe") with Some link => Ok (ztake 1024 link) | None => Err ELength end.

(** ** The name between the parentheses *)

(** A [StringPiece] into a string: where it begins and its length, or NULL. *)
Abbreviation piece := (option (nat * nat)).
Definition LPAREN : byte := x28.
Definition RPAREN : byte := x29.

(** [procname(stat)] *)
Definition procname_of (stat : bytes) : piece :=
  let lp := std_find LPAREN stat in
  let rp := std_find RPAREN stat in
  if (lp <? length stat)%nat && (rp <? length stat)%nat && (lp <? rp)%nat then Some (S lp, rp - lp - 1)%nat else None.

(** [as_string()] of a piece of a string. *)
Definition as_string (stat : bytes) (p : piece) : bytes :=
  match p with Some (begin, len) => take len (drop begin stat) | None => [] end.
(** [end()], as a position in the string. *)
Definition piece_end (p : piece) : res nat :=
  match p with Some (begin, len) => Ok (begin + len)%nat | None => Err EUndefined end.

(** [procname()], which is given the wrong file. *)
Definition procname : res bytes := let* status := procStatus in Ok (as_string status (procname_of status)).

(** ** Numbers *)

(** What [filter] is called with: the entries of the directory, none on an
    error; a filter that always returns 0 leaves [namelist] NULL. *)
Definition scanDir {A} (dirpath : bytes) (filter : A -> bytes -> res A) (acc : A) : res A :=
  res_foldl filter acc (default [] (sys_scandir os dirpath)).

Definition starts_with_digit (d_name : bytes) : bool := match d_name with c :: _ => isdigit c | [] => false end.
Definition fdDirFilter (n : Z) (d_name : bytes) : res Z :=
  if starts_with_digit d_name then if n =? 2 ^ 31 - 1 then Err EUndefined else Ok (n + 1) else Ok n.
Definition taskDirFilter (pids : list Z) (d_name : bytes) : res (list Z) :=
  if starts_with_digit d_name then
    match atoi d_name with Some pid => Ok (pids ++ [pid]) | None => Err EUndefined end
  else Ok pids.

Definition openedFiles : res Z := scanDir (bs "/proc/self/fd") fdDirFilter 0.
Definition maxOpenFiles : res Z :=
  match sys_rlim_cur os with None => openedFiles | Some rlim_cur => Ok (s32 rlim_cur) end.

(** [CpuTime] *)
Record CpuTime := mkCpuTime { userSeconds : double; systemSeconds : double }.
Definition seconds_of (ticks : Z) : double := ddiv (double_of_Z ticks) (double_of_Z clockTicksPerSecond).
Definition cpuTime : CpuTime :=
  match sys_times os with
  | Some (utime, stime) => mkCpuTime (seconds_of utime) (seconds_of stime)
  | None => mkCpuTime (double_of_Z 0) (double_of_Z 0)
  end.

(** [status.find(key)], and the text behind it. *)
Definition find_after (key status : bytes) : option bytes :=
  let pos := std_search key status in
  if is_prefix key (drop pos status) then Some (drop (pos + length key) status) else None.

Definition numThreads : res Z :=
  let* status := procStatus in
  match find_after (bs "Threads:") status with
  | Some s => match atoi s with Some n => Ok n | None => Err EUndefined end
  | None => Ok 0
  end.

(** [std::sort] of the thread numbers. *)
Definition threads : res (list Z) :=
  let* result := scanDir (bs "/proc/self/task") taskDirFilter [] in Ok (merge_sort Z.le result).
End process.

(** ** Properties *)

(** The name is what stands between the first parentheses, when the first that
    closes comes after the first that opens; a name that contains a closing
    parenthesis is cut at it. *)
Lemma procname_of_found pre name post : LPAREN ∉ pre -> RPAREN ∉ pre -> RPAREN ∉ name ->
  let stat := pre ++ LPAREN :: name ++ RPAREN :: post in
  exists p, procname_of stat = p /\ as_string stat p = name /\ piece_end p = Ok (length pre + 1 + length name)%nat.
Proof.
  intros H1 H2 H3 stat. unfold procname_of. subst stat. rewrite std_find_app by done.
  assert (E : pre ++ LPAREN :: name ++ RPAREN :: post = (pre ++ LPAREN :: name) ++ RPAREN :: post).
  { by rewrite <-app_assoc. }
  assert (F : std_find RPAREN ((pre ++ LPAREN :: name) ++ RPAREN :: post) = (length pre + 1 + length name)%nat).
  { rewrite std_find_app; [rewrite length_app; cbn; lia|]. rewrite elem_of_app, elem_of_cons. by intros [?|[?|?]]. }
  rewrite E, F. repeat rewrite (proj2 (Nat.ltb_lt _ _)) by (rewrite ?length_app; cbn; lia). cbn [andb].
  eexists. split; [reflexivity|]. cbn [as_string piece_end]. split; [|f_equal; lia].
  replace (length pre + 1 + length name - length pre - 1)%nat with (length name) by lia. rewrite <-E.
  replace (S (length pre)) with (length pre + 1)%nat by lia. rewrite drop_app_add. rewrite skipn_cons, skipn_O.
  by rewrite take_app_length.
Qed.

(** In the status file, which has no parentheses, there is no name. *)
Lemma procname_of_none stat : LPAREN ∉ stat -> procname_of stat = None.
Proof. intros H. unfold procname_of. by rewrite std_find_none, Nat.ltb_irrefl. Qed.

Lemma find_after_first key pre post : (forall i, (i < length pre)%nat -> ~ occurs_at key (pre ++ key ++ post) i) ->
  find_after key (pre ++ key ++ post) = Some post.
Proof.
  intros H. unfold find_after. assert (E : std_search key (pre ++ key ++ post) = length pre).
  { pose proof (std_search_first key _ _ (occurs_at_app key pre post)) as Hle.
    destruct (decide (std_search key (pre ++ key ++ post) < length pre)%nat) as [Hlt|]; [|lia].
    destruct (H _ Hlt). apply std_search_found. rewrite !length_app. lia. }
  rewrite E, drop_app_length, is_prefix_app. by rewrite drop_app_add, drop_app_length.
Qed.

Lemma find_after_none key status : (forall i, ~ occurs_at key status i) -> find_after key status = None.
Proof.
  intros H. unfold find_after. specialize (H (std_search key status)). unfold occurs_at in H.
  by destruct (is_prefix key _).
Qed.

(** [threads] gives the numbers that [/proc/self/task] names, sorted. *)
Lemma threads_sorted os l : threads os = Ok l ->
  exists pids, scanDir os (bs "/proc/self/task") taskDirFilter [] = Ok pids /\ l ≡ₚ pids /\ Sorted Z.le l.
Proof.
  unfold threads. destruct (scanDir _ _ _ _) as [pids|]; [|done]. intros [= <-]. exists pids.
  split; [done|]. split; [apply merge_sort_Permutation|]. apply Sorted_merge_sort. intros x y. lia.
Qed.

Lemma openedFiles_counts os names : sys_scandir os (bs "/proc/self/fd") = Some names -> zlen names < 2 ^ 31 ->
  openedFiles os = Ok (zlen (filter (fun d => starts_with_digit d = true) names)).
Proof.
  intros E Hl. unfold openedFiles, scanDir. rewrite E. cbn [default from_option id].
  assert (H : forall n, 0 <= n -> n + zlen names < 2 ^ 31 ->
    res_foldl fdDirFilter n names = Ok (n + zlen (filter (fun d => starts_with_digit d = true) names))).
  { clear E Hl. induction names as [|d names IH]; intros n Hn Hl; cbn [res_foldl].
    - rewrite Z.add_0_r. done.
    - rewrite zlen_cons in Hl. pose proof (zlen_nonneg names). unfold fdDirFilter at 1. rewrite filter_cons.
      destruct (starts_with_digit d) eqn:Ed.
      + rewrite (proj2 (Z.eqb_neq _ _)) by lia. cbn [res_bind]. rewrite IH, decide_True, zlen_cons by (done || lia). f_equal. lia.
      + cbn [res_bind]. rewrite IH, decide_False by (done || lia). done. }
  rewrite H by lia. done.
Qed.
