(* ===== verification/InetAddress.v ===== *)
(** * Socket addresses (cnet/net/InetAddress.h, InetAddress.cc; the address
    functions of cnet/net/SocketsOps.cc)

    The union of [sockaddr_in] and [sockaddr_in6]: the family, the port as it
    lies in memory (network order) and the address field.  [inet_ntop],
    [inet_pton] and [gethostbyname_r] are the C library's: the first is
    written out for IPv4, the others are parameters. *)

From S2P Require Import Prelude Endian Cstd.

Definition AF_INET : Z := 2.
Definition AF_INET6 : Z := 10.
Definition INADDR_ANY : Z := 0.
Definition INADDR_LOOPBACK : Z := 0x7f000001.
Definition kInaddrAny : Z := INADDR_ANY.
Definition kInaddrLoopback : Z := INADDR_LOOPBACK.

(** [sin_addr.s_addr] of a [sockaddr_in], or the 16 bytes of [sin6_addr]. *)
Inductive in_address : Type :=
| In4 (s_addr : Z)
| In6 (sin6_addr : bytes).

Record InetAddress := mkAddr {
  sin_family : Z;
  sin_port : Z;             (* the uint16_t as stored: network order *)
  sin_addr : in_address;
}.

Definition in6addr_any : bytes := replicate 16 x00.
Definition in6addr_loopback : bytes := replicate 15 x00 ++ [x01].

(** [InetAddress(uint16_t port, bool loopbackOnly, bool ipv6)]. *)
Definition InetAddress_port (port : Z) (loopbackOnly ipv6 : bool) : InetAddress :=
  if ipv6
  then mkAddr AF_INET6 (hostToNetwork16 port)
              (In6 (if loopbackOnly then in6addr_loopback else in6addr_any))
  else mkAddr AF_INET (hostToNetwork16 port)
              (In4 (if loopbackOnly then kInaddrLoopback else kInaddrAny)).

Definition family (a : InetAddress) : Z := sin_family a.
Definition portNetEndian (a : InetAddress) : Z := sin_port a.
Definition toPort (a : InetAddress) : Z := networkToHost16 (portNetEndian a).
Definition ipNetEndian (a : InetAddress) : res Z :=
  assert! family a =? AF_INET;
  match sin_addr a with In4 s => Ok s | In6 _ => Err EUndefined end.
Definition setSockAddrInet6 (a addr6 : InetAddress) : InetAddress := addr6.

(** [inet_ntop(AF_INET, ...)]: the four bytes in memory order, dotted. *)
Definition inet_ntop4 (s_addr : Z) : bytes :=
  match mem_of_int 4 s_addr with
  | [a; b; c; d] =>
      fmt_u (byte_Z a) ++ bs "." ++ fmt_u (byte_Z b) ++ bs "." ++
      fmt_u (byte_Z c) ++ bs "." ++ fmt_u (byte_Z d)
  | _ => []
  end.

Section libc.
(** [inet_ntop(AF_INET6, ...)]; [inet_pton]; [gethostbyname_r], which gives the
    first address of a host or fails. *)
Context (inet_ntop6 : bytes -> bytes).
Context (inet_pton4 : bytes -> option Z) (inet_pton6 : bytes -> option bytes).
Context (gethostbyname : bytes -> option Z).

(** [sockets::toIp]: the buffer after the call, for a buffer of [size] bytes. *)
Definition toIp_buf (size : Z) (a : InetAddress) : res bytes :=
  if family a =? AF_INET then
    assert! 16 <=? size;
    match sin_addr a with
    | In4 s => Ok (inet_ntop4 s)
    | In6 _ => Err EUndefined
    end
  else if family a =? AF_INET6 then
    assert! 46 <=? size;
    match sin_addr a with
    | In6 s => Ok (inet_ntop6 s)
    | In4 _ => Err EUndefined
    end
  else Ok [].

(** [sockets::toIpPort]. *)
Definition toIpPort_buf (size : Z) (a : InetAddress) : res bytes :=
  let* ip := toIp_buf size a in
  let end_ := zlen ip in
  let port := networkToHost16 (sin_port a) in
  assert! end_ <? size;
  Ok (ip ++ snprintf (size - end_) (bs ":" ++ fmt_u port)).

Definition toIp (a : InetAddress) : res bytes := toIp_buf 64 a.
Definition toIpPort (a : InetAddress) : res bytes := toIpPort_buf 64 a.

(** [sockets::fromIpPort] on zeroed addresses, and the constructor from a
    string; an address [inet_pton] refuses leaves the field zero (logged). *)
Definition fromIpPort4 (ip : bytes) (port : Z) : InetAddress :=
  mkAddr AF_INET (hostToNetwork16 port)
         (In4 (match inet_pton4 ip with Some s => s | None => 0 end)).
Definition fromIpPort6 (ip : bytes) (port : Z) : InetAddress :=
  mkAddr AF_INET6 (hostToNetwork16 port)
         (In6 (match inet_pton6 ip with Some s => s | None => in6addr_any end)).
Definition InetAddress_ip (ip : bytes) (port : Z) (ipv6 : bool) : InetAddress :=
  if ipv6 then fromIpPort6 ip port else fromIpPort4 ip port.

(** [InetAddress::resolve]: replaces the IPv4 address only. *)
Definition resolve (hostname : bytes) (out : InetAddress) : bool * InetAddress :=
  match gethostbyname (cstr hostname) with
  | Some s => (true, mkAddr (sin_family out) (sin_port out) (In4 s))
  | None => (false, out)
  end.
End libc.

(** [sockets::isSelfConnet]: both ends of the connection are the same address. *)
Definition isSelfConnet (localaddr peeraddr : InetAddress) : bool :=
  if family localaddr =? AF_INET then
    match sin_addr localaddr, sin_addr peeraddr with
    | In4 l, In4 r => (sin_port localaddr =? sin_port peeraddr) && (l =? r)
    | _, _ => false
    end
  else if family localaddr =? AF_INET6 then
    match sin_addr localaddr, sin_addr peeraddr with
    | In6 l, In6 r => (sin_port localaddr =? sin_port peeraddr) && bytes_eqb l r
    | _, _ => false
    end
  else false.

Lemma toPort_InetAddress port lo v6 :
  0 <= port < 2 ^ 16 -> toPort (InetAddress_port port lo v6) = port.
Proof.
  intros Hp. assert (networkToHost16 (hostToNetwork16 port) = port).
  { unfold networkToHost16, hostToNetwork16. rewrite bswap_involutive.
    apply Z.mod_small. simpl. lia. }
  destruct v6; done.
Qed.

(** ports survive the change of byte order and are printed in decimal; the
    "any" address prints as 0.0.0.0, while the loopback-only address, which the
    constructor stores without converting it to network order, denotes and
    prints as 1.0.0.127 instead of 127.0.0.1. *)
Theorem inet_address_port_and_ip (inet_ntop6 : bytes -> bytes) (port : Z) :
  0 <= port < 2 ^ 16 ->
  toPort (InetAddress_port port false false) = port /\
  toIpPort inet_ntop6 (InetAddress_port port false false) = Ok (bs "0.0.0.0:" ++ fmt_u port) /\
  toIp inet_ntop6 (InetAddress_port port true false) = Ok (bs "1.0.0.127") /\
  toIpPort inet_ntop6 (InetAddress_port port true false) = Ok (bs "1.0.0.127:" ++ fmt_u port).
Proof.
  intros Hp. pose proof (toPort_InetAddress port false false Hp) as P.
  pose proof (toPort_InetAddress port true false Hp) as P'.
  pose proof (fmt_u_length port 5) as L.
  assert (F : forall n, 50 <= n -> snprintf n (bs ":" ++ fmt_u port) = bs ":" ++ fmt_u port).
  { intros n Hn. apply snprintf_fits. rewrite zlen_app. change (zlen (bs ":")) with 1.
    specialize (L ltac:(simpl; lia) ltac:(lia)). lia. }
  split_and!; [done| |done|].
  - transitivity (Ok (bs "0.0.0.0" ++ snprintf 57 (bs ":" ++ fmt_u
      (toPort (InetAddress_port port false false))))); [reflexivity|].
    rewrite P, F by lia. reflexivity.
  - transitivity (Ok (bs "1.0.0.127" ++ snprintf 55 (bs ":" ++ fmt_u
      (toPort (InetAddress_port port true false))))); [reflexivity|].
    rewrite P', F by lia. reflexivity.
Qed.

Lemma inet_address_port_and_ip_witness :
  0 <= 9981 < 2 ^ 16 /\
  toIpPort (fun _ => []) (InetAddress_port 9981 true false) = Ok (bs "1.0.0.127:9981").
Proof.
  split; [lia|].
  exact (proj2 (proj2 (proj2 (inet_address_port_and_ip (fun _ => []) 9981 ltac:(lia))))).
Defined.
