(* ===== verification/HttpRequest.v ===== *)
(** * HTTP requests (cnet/net/http/HttpRequest.h, HttpRequest.cc)

    The request object, its setters, the headers ([std::map<string,string>], a
    sorted association list), printing into a Buffer and parsing a URL. *)

From S2P Require Import Prelude Cstd StdMap Buffer InetAddress.

Inductive Method : Set := kInvalid | kGet | kPost | kHead | kPut | kDelete.
Inductive Version : Set := kUnknown | kHttp10 | kHttp11.
Inductive Scheme : Set := kInvalidScheme | kHttp | kHttps.

#[export] Instance Method_eq_dec : EqDecision Method.
Proof. solve_decision. Defined.
#[export] Instance Version_eq_dec : EqDecision Version.
Proof. solve_decision. Defined.
#[export] Instance Scheme_eq_dec : EqDecision Scheme.
Proof. solve_decision. Defined.

Record HttpUri := mkUri {
  flags_ : Z;
  scheme_ : Scheme;
  userinfo_ : bytes;
  host_ : bytes;
  port_ : Z;
  path_ : bytes;
  query_ : bytes;
  fragment_ : bytes;
}.

Record HttpRequest := mkRequest {
  method_ : Method;
  version_ : Version;
  receiveTime_ : Z;                   (* microSecondsSinceEpoch_ *)
  serverAddr_ : InetAddress;
  uri_ : HttpUri;
  headers_ : list (bytes * bytes);
}.

(** [HttpRequest()]: [uri_()] value-initialises, so every field is zero. *)
Definition HttpUri_zero : HttpUri := mkUri 0 kInvalidScheme [] [] 0 [] [] [].
Definition HttpRequest_new : HttpRequest :=
  mkRequest kInvalid kUnknown 0 (InetAddress_port 0 false false) HttpUri_zero [].

Definition with_method (m : Method) (r : HttpRequest) : HttpRequest :=
  mkRequest m (version_ r) (receiveTime_ r) (serverAddr_ r) (uri_ r) (headers_ r).
Definition setVersion (v : Version) (r : HttpRequest) : HttpRequest :=
  mkRequest (method_ r) v (receiveTime_ r) (serverAddr_ r) (uri_ r) (headers_ r).
Definition setReceiveTime (t : Z) (r : HttpRequest) : HttpRequest :=
  mkRequest (method_ r) (version_ r) t (serverAddr_ r) (uri_ r) (headers_ r).
Definition with_uri (u : HttpUri) (r : HttpRequest) : HttpRequest :=
  mkRequest (method_ r) (version_ r) (receiveTime_ r) (serverAddr_ r) u (headers_ r).
Definition with_headers (h : list (bytes * bytes)) (r : HttpRequest) : HttpRequest :=
  mkRequest (method_ r) (version_ r) (receiveTime_ r) (serverAddr_ r) (uri_ r) h.
Definition with_serverAddr (a : InetAddress) (r : HttpRequest) : HttpRequest :=
  mkRequest (method_ r) (version_ r) (receiveTime_ r) a (uri_ r) (headers_ r).

Definition uri_setScheme (s : Scheme) (u : HttpUri) : HttpUri :=
  mkUri (flags_ u) s (userinfo_ u) (host_ u) (port_ u) (path_ u) (query_ u) (fragment_ u).
(** [setScheme(const string&)]: both tests compare with "http". *)
Definition uri_setScheme_string (version : bytes) (u : HttpUri) : HttpUri :=
  if bytes_eqb version (bs "http") then uri_setScheme kHttp u
  else if bytes_eqb version (bs "http") then uri_setScheme kHttps u
  else u.

Definition setPath (p : bytes) (r : HttpRequest) : HttpRequest :=
  let u := uri_ r in
  with_uri (mkUri (flags_ u) (scheme_ u) (userinfo_ u) (host_ u) (port_ u) p (query_ u) (fragment_ u)) r.
Definition setQuery (q : bytes) (r : HttpRequest) : HttpRequest :=
  let u := uri_ r in
  with_uri (mkUri (flags_ u) (scheme_ u) (userinfo_ u) (host_ u) (port_ u) (path_ u) q (fragment_ u)) r.

Definition method_of_string (m : bytes) : Method :=
  if bytes_eqb m (bs "GET") then kGet
  else if bytes_eqb m (bs "POST") then kPost
  else if bytes_eqb m (bs "HEAD") then kHead
  else if bytes_eqb m (bs "PUT") then kPut
  else if bytes_eqb m (bs "DELETE") then kDelete
  else kInvalid.

(** [setMethod(start, end)]: the result and the request after the call. *)
Definition setMethod (m : bytes) (r : HttpRequest) : res (bool * HttpRequest) :=
  assert! bool_decide (method_ r = kInvalid);
  let r' := with_method (method_of_string m) r in
  Ok (negb (bool_decide (method_ r' = kInvalid)), r').

Definition methodString (r : HttpRequest) : bytes :=
  match method_ r with
  | kGet => bs "GET" | kPost => bs "POST" | kHead => bs "HEAD"
  | kPut => bs "PUT" | kDelete => bs "DELETE"
  | kInvalid => bs "UNKNOWN"
  end.
Definition schemeString (r : HttpRequest) : bytes :=
  match scheme_ (uri_ r) with
  | kHttp => bs "HTTP" | kHttps => bs "HTTPS" | kInvalidScheme => bs "UNKNOWN"
  end.
Definition versionString (r : HttpRequest) : bytes :=
  match version_ r with
  | kHttp10 => bs "HTTP/1.0" | kHttp11 => bs "HTTP/1.1" | kUnknown => bs "UNKNOWN"
  end.

Definition path (r : HttpRequest) : bytes := path_ (uri_ r).
Definition query (r : HttpRequest) : bytes := query_ (uri_ r).

(** [headers_[field] = value]. *)
Definition addHeader_kv (field value : bytes) (r : HttpRequest) : HttpRequest :=
  with_headers (map_set field value (headers_ r)) r.

(** [while (!value.empty() && isspace(value[value.size()-1])) value.resize(...)]. *)
Definition trim_right (v : bytes) : bytes := rev (drop_while isspace (rev v)).

(** [addHeader(start, colon, end)] on a line [start, end) and the offset of its
    colon. *)
Definition addHeader (line : bytes) (colon : nat) (r : HttpRequest) : HttpRequest :=
  let field := take colon line in
  let value := drop_while isspace (drop (S colon) line) in
  addHeader_kv field (trim_right value) r.

Definition getHeader (field : bytes) (r : HttpRequest) : bytes :=
  match map_find field (headers_ r) with Some v => v | None => [] end.

(** [swap(that)]: exchanges the method, version, path, query, receive time and
    headers; both requests after the call. *)
Definition request_swap (r that : HttpRequest) : HttpRequest * HttpRequest :=
  (setQuery (query that) (setPath (path that)
     (mkRequest (method_ that) (version_ that) (receiveTime_ that) (serverAddr_ r) (uri_ r)
                (headers_ that))),
   setQuery (query r) (setPath (path r)
     (mkRequest (method_ r) (version_ r) (receiveTime_ r) (serverAddr_ that) (uri_ that)
                (headers_ r)))).

(** ** appendToBuffer *)

(** [snprintf(uri, sizeof uri, "%s %s HTTP/1.1", ...)] and [append(uri)]. *)
Definition request_line (r : HttpRequest) : bytes :=
  snprintf 256 (cstr (methodString r) ++ [SP] ++ cstr (path r) ++ bs " HTTP/1.1").

Definition append_header (output : Buffer) (kv : bytes * bytes) : res Buffer :=
  let* output := append_piece output (kv.1 ++ bs ": " ++ kv.2) in
  append_piece output CRLF.

Definition request_appendToBuffer (r : HttpRequest) (output : Buffer) : res Buffer :=
  let* output := append_piece output (request_line r) in
  let* output := append_piece output CRLF in
  let* output := res_foldl append_header output (headers_ r) in
  append_piece output CRLF.

(** What it writes, as one string. *)
Definition header_text (kv : bytes * bytes) : bytes := (kv.1 ++ bs ": " ++ kv.2) ++ CRLF.
Definition headers_text (h : list (bytes * bytes)) : bytes := concat (map header_text h).
Definition request_text (r : HttpRequest) : bytes :=
  request_line r ++ CRLF ++ headers_text (headers_ r) ++ CRLF.

(** ** parseURL *)

Definition is_authority_end (c : byte) : bool :=
  byte_eqb c x3f || byte_eqb c x23 || byte_eqb c x2f.     (* ? # / *)

(** [end_of_authority]: how many characters the authority has. *)
Fixpoint end_of_authority (s : bytes) : nat :=
  match s with
  | [] => 0
  | c :: s' => if is_authority_end c then 0 else S (end_of_authority s')
  end.

Section url.
(** [boost::lexical_cast<int>] (None: bad_lexical_cast) and the resolver. *)
Context (lexical_cast : bytes -> option Z) (gethostbyname : bytes -> option Z).
(** Whether the build defines NDEBUG, as the Release configuration does. *)
Context (ndebug : bool).
(** The indeterminate values of [HttpUri uri;]'s integer and enum fields. *)
Context (garbage_flags : Z) (garbage_scheme : Scheme).

Definition debug_assert (c : bool) : res unit := if ndebug then Ok tt else assert_ c.

Definition parse_port (s : bytes) : Z :=
  match lexical_cast s with Some p => p | None => -1 end.

(** [parse_authority(uri, s, eos)]: the port and the host; the port text starts
    at the colon itself. *)
Definition parse_authority (s : bytes) : Z * bytes :=
  let port := std_find x3a s in
  ((if (port =? length s)%nat then -1 else parse_port (drop port s)), take port s).

Definition parseURL (url : bytes) (method : Method) : res HttpRequest :=
  let uri0 := mkUri garbage_flags garbage_scheme [] [] 0 [xff] [] [] in
  let colon := std_find x3a url in
  let uri1 := uri_setScheme_string (take colon url) uri0 in
  if (length url <? colon + 3)%nat then Err EUndefined else
  let* _ := debug_assert (bytes_eqb (take 2 (drop (S colon) url)) (bs "//")) in
  let rest := drop (colon + 3) url in
  let a := end_of_authority rest in
  let '(port, host) := parse_authority (take a rest) in
  let rest := drop a rest in
  let q := std_find x3f rest in
  let path := take q rest in
  let rest := drop q rest in
  let f := std_find x23 rest in
  let query := take f rest in
  let fragment := drop f rest in
  let port := if port =? -1 then (if decide (scheme_ uri1 = kHttp) then 80 else 443) else port in
  let path := if bytes_eqb path [] then bs "/" else path in
  let uri := mkUri (flags_ uri1) (scheme_ uri1) (userinfo_ uri1) host port path query fragment in
  let request := with_uri uri (with_method method HttpRequest_new) in
  let addr := InetAddress_port (u16 port) false false in
  (* assert(InetAddress::resolve(uri.host_, &addr)); *)
  let* addr := (if ndebug then Ok addr
                else let '(ok, addr) := resolve gethostbyname host addr in
                     assert! ok; Ok addr) in
  Ok (addHeader_kv (bs "Host") host (with_serverAddr addr request)).
End url.

(** ** Lemmas *)

Lemma append_headers_spec h b : good b -> size b + zlen (headers_text h) < 2 ^ 31 ->
  exists b', res_foldl append_header b h = Ok b' /\ good b' /\
    contents b' = contents b ++ headers_text h /\ size b' <= size b + zlen (headers_text h).
Proof.
  revert b. induction h as [|kv h IH]; intros b G Hs.
  - exists b. unfold headers_text. simpl. rewrite app_nil_r, zlen_nil. split_and!; done || lia.
  - unfold headers_text in *. cbn [map concat res_foldl] in *. rewrite zlen_app in *.
    unfold header_text, append_header in *. rewrite zlen_app in *. pose proof (zlen_nonneg CRLF).
    pose proof (zlen_nonneg (concat (map header_text h))). fold header_text in *.
    change (concat (map (fun kv => (kv.1 ++ bs ": " ++ kv.2) ++ CRLF) h))
      with (concat (map header_text h)) in *.
    destruct (append_piece_step b (kv.1 ++ bs ": " ++ kv.2) G)
      as (b1 & -> & G1 & C1 & S1); [lia|]. cbn [res_bind].
    destruct (append_piece_step b1 CRLF G1) as (b2 & -> & G2 & C2 & S2); [lia|]. cbn [res_bind].
    destruct (IH b2 G2) as (b3 & -> & G3 & C3 & S3); [lia|].
    exists b3. rewrite C3, C2, C1, <-!app_assoc. split_and!; done || lia.
Qed.

Lemma request_appendToBuffer_spec r b : good b -> size b + zlen (request_text r) < 2 ^ 31 ->
  exists b', request_appendToBuffer r b = Ok b' /\ good b' /\
    contents b' = contents b ++ request_text r.
Proof.
  intros G Hs. unfold request_text in *. rewrite !zlen_app in Hs.
  pose proof (zlen_nonneg (headers_text (headers_ r))). pose proof (zlen_nonneg CRLF).
  unfold request_appendToBuffer.
  destruct (append_piece_step b (request_line r) G) as (b1 & -> & G1 & C1 & S1); [lia|].
  cbn [res_bind].
  destruct (append_piece_step b1 CRLF G1) as (b2 & -> & G2 & C2 & S2); [lia|]. cbn [res_bind].
  destruct (append_headers_spec (headers_ r) b2 G2) as (b3 & -> & G3 & C3 & S3); [lia|].
  cbn [res_bind].
  destruct (append_piece_step b3 CRLF G3) as (b4 & -> & G4 & C4 & S4); [lia|].
  exists b4. rewrite C4, C3, C2, C1, <-!app_assoc. done.
Qed.

Lemma method_of_methodString r : method_ r <> kInvalid ->
  method_of_string (methodString r) = method_ r.
Proof. unfold methodString. by destruct (method_ r). Qed.

Lemma methodString_plain r : SP ∉ methodString r /\ LF ∉ methodString r /\ x00 ∉ methodString r.
Proof.
  split_and!; unfold methodString; destruct (method_ r);
    apply (bool_decide_unpack _); vm_compute; exact I.
Qed.

Lemma trim_right_id v : (forall l c, v = l ++ [c] -> isspace c = false) -> trim_right v = v.
Proof.
  intros H. unfold trim_right. destruct v as [|c l _] using rev_ind; [done|].
  rewrite rev_app_distr. simpl. rewrite (H l c eq_refl). simpl. by rewrite rev_involutive.
Qed.
