(* ===== verification/HttpContext.v ===== *)
(** * The incremental request parser (cnet/net/http/HttpContext.h, HttpContext.cc)

    [parseRequest] as the code runs it over a Buffer, and [parse_bytes], the
    same parser as a function of the unread bytes; [parseRequest_bytes] relates
    the two. *)

From S2P Require Import Prelude Cstd StdMap Buffer InetAddress HttpRequest.

Inductive HttpRequestParseState : Set :=
| kExpectRequestLine | kExpectHeaders | kExpectBody | kGotAll.

#[export] Instance ParseState_eq_dec : EqDecision HttpRequestParseState.
Proof. solve_decision. Defined.

Record HttpContext := mkContext {
  state_ : HttpRequestParseState;
  request_ : HttpRequest;
}.

Definition HttpContext_new : HttpContext := mkContext kExpectRequestLine HttpRequest_new.
Definition gotAll (c : HttpContext) : bool := bool_decide (state_ c = kGotAll).
Definition reset (c : HttpContext) : HttpContext :=
  mkContext kExpectRequestLine (request_swap (request_ c) HttpRequest_new).1.

(** [processRequestLine(begin, end)] on the characters of the line: the result
    and the request after the call. *)
Definition processRequestLine (line : bytes) (r : HttpRequest) : res (bool * HttpRequest) :=
  let space := std_find SP line in
  if (space =? length line)%nat then Ok (false, r) else
  let* (known, r) := setMethod (take space line) r in
  if negb known then Ok (false, r) else
  let start := drop (S space) line in
  let space := std_find SP start in
  if (space =? length start)%nat then Ok (false, r) else
  let target := take space start in
  let question := std_find x3f target in
  let r := if (question =? length target)%nat then setPath target r
           else setQuery (drop question target) (setPath (take question target) r) in
  let version := drop (S space) start in
  if (length version =? 8)%nat && bytes_eqb (take 7 version) (bs "HTTP/1.") then
    match drop 7 version with
    | [x31] => Ok (true, setVersion kHttp11 r)
    | [x30] => Ok (true, setVersion kHttp10 r)
    | _ => Ok (false, r)
    end
  else Ok (false, r).

(** One turn of the loop of [parseRequest]: (ok, hasMore, context, buffer). *)
Definition parse_turn (t : Z) (c : HttpContext) (buf : Buffer)
  : res (bool * bool * HttpContext * Buffer) :=
  match state_ c with
  | kExpectRequestLine =>
      match findCRLF buf with
      | Some crlf =>
          let line := zslice (peek buf) (crlf - peek buf) (buffer_ buf) in
          let* (ok, r) := processRequestLine line (request_ c) in
          if ok then
            let r := setReceiveTime t r in
            let* buf := retrieveUntil buf (crlf + 2) in
            Ok (true, true, mkContext kExpectHeaders r, buf)
          else Ok (false, false, mkContext (state_ c) r, buf)
      | None => Ok (true, false, c, buf)
      end
  | kExpectHeaders =>
      match findCRLF buf with
      | Some crlf =>
          let line := zslice (peek buf) (crlf - peek buf) (buffer_ buf) in
          let colon := std_find x3a line in
          if (colon =? length line)%nat then
            let* buf := retrieveUntil buf (crlf + 2) in
            Ok (true, false, mkContext kGotAll (request_ c), buf)
          else
            let r := addHeader line colon (request_ c) in
            let* buf := retrieveUntil buf (crlf + 2) in
            Ok (true, true, mkContext kExpectHeaders r, buf)
      | None => Ok (true, false, c, buf)
      end
  | kExpectBody | kGotAll => Ok (true, true, c, buf)    (* no branch is taken *)
  end.

(** [while (hasMore)], for at most [fuel] turns. *)
Fixpoint parse_loop (fuel : nat) (t : Z) (c : HttpContext) (buf : Buffer)
  : res (bool * HttpContext * Buffer) :=
  match fuel with
  | O => Err EFuel
  | S fuel' =>
      let* (ok, hasMore, c, buf) := parse_turn t c buf in
      if hasMore then parse_loop fuel' t c buf else Ok (ok, c, buf)
  end.

(** Every turn that goes on consumes at least a CR LF. *)
Definition parseRequest (t : Z) (c : HttpContext) (buf : Buffer)
  : res (bool * HttpContext * Buffer) :=
  parse_loop (S (Z.to_nat (readableBytes buf))) t c buf.

(** ** The parser on a string of bytes *)

(** The first line and what follows its CR LF. *)
Definition split_line (l : bytes) : option (bytes * bytes) :=
  let i := std_search kCRLF l in
  if (i =? length l)%nat then None else Some (take i l, drop (i + 2) l).

Definition bytes_turn (t : Z) (c : HttpContext) (l : bytes)
  : res (bool * bool * HttpContext * bytes) :=
  match state_ c with
  | kExpectRequestLine =>
      match split_line l with
      | Some (line, rest) =>
          let* (ok, r) := processRequestLine line (request_ c) in
          if ok then Ok (true, true, mkContext kExpectHeaders (setReceiveTime t r), rest)
          else Ok (false, false, mkContext (state_ c) r, l)
      | None => Ok (true, false, c, l)
      end
  | kExpectHeaders =>
      match split_line l with
      | Some (line, rest) =>
          let colon := std_find x3a line in
          if (colon =? length line)%nat
          then Ok (true, false, mkContext kGotAll (request_ c), rest)
          else Ok (true, true, mkContext kExpectHeaders (addHeader line colon (request_ c)), rest)
      | None => Ok (true, false, c, l)
      end
  | kExpectBody | kGotAll => Ok (true, true, c, l)
  end.

Fixpoint bytes_loop (fuel : nat) (t : Z) (c : HttpContext) (l : bytes)
  : res (bool * HttpContext * bytes) :=
  match fuel with
  | O => Err EFuel
  | S fuel' =>
      let* (ok, hasMore, c, l) := bytes_turn t c l in
      if hasMore then bytes_loop fuel' t c l else Ok (ok, c, l)
  end.

Definition parse_bytes (t : Z) (c : HttpContext) (l : bytes)
  : res (bool * HttpContext * bytes) := bytes_loop (S (length l)) t c l.

(** Data arriving in pieces, each appended to what the parser has left; stops at
    an error or at the end of a request. *)
Fixpoint feed (t : Z) (c : HttpContext) (l : bytes) (chunks : list bytes)
  : res (bool * HttpContext * bytes) :=
  match chunks with
  | [] => Ok (true, c, l)
  | d :: chunks' =>
      let* (ok, c', l') := parse_bytes t c (l ++ d) in
      if negb ok || gotAll c' then Ok (ok, c', l' ++ concat chunks')
      else feed t c' l' chunks'
  end.

(** The states in which the loop makes progress. *)
Definition active (c : HttpContext) : Prop :=
  state_ c = kExpectRequestLine \/ state_ c = kExpectHeaders.

Lemma drop_line l1 l2 : drop (length l1 + 2) (l1 ++ kCRLF ++ l2) = l2.
Proof.
  rewrite drop_app_ge by lia. replace (length l1 + 2 - length l1)%nat with 2%nat by lia. done.
Qed.

Lemma split_line_shorter l line rest : split_line l = Some (line, rest) ->
  (length rest < length l)%nat /\ l = line ++ kCRLF ++ rest.
Proof.
  unfold split_line. cbv zeta.
  destruct (Nat.eqb_spec (std_search kCRLF l) (length l)); [done|].
  intros [= <- <-]. pose proof (std_search_le kCRLF l).
  assert (Ho := std_search_found kCRLF l ltac:(lia)).
  destruct (occurs_at_split kCRLF _ _ ltac:(done) Ho) as (l1 & l2 & -> & Hl).
  rewrite <-Hl, take_app_length, drop_line, !length_app. simpl. split; [lia|done].
Qed.

Lemma split_line_app l k line rest :
  split_line l = Some (line, rest) -> split_line (l ++ k) = Some (line, rest ++ k).
Proof.
  intros H. pose proof (split_line_shorter _ _ _ H) as [_ Hl]. revert H.
  unfold split_line. cbv zeta.
  destruct (Nat.eqb_spec (std_search kCRLF l) (length l)); [done|].
  pose proof (std_search_le kCRLF l). intros [= <- <-].
  rewrite std_search_app_found by (done || lia).
  assert (Ho := std_search_found kCRLF l ltac:(lia)).
  pose proof (occurs_CRLF_length _ _ Ho).
  destruct (Nat.eqb_spec (std_search kCRLF l) (length (l ++ k))) as [E'|].
  - rewrite length_app in E'. lia.
  - rewrite take_app_le, drop_app_le by lia. done.
Qed.

Lemma split_line_text line rest : LF ∉ line ->
  split_line (line ++ CRLF ++ rest) = Some (line, rest).
Proof.
  intros Hn. unfold split_line. cbv zeta.
  assert (std_search kCRLF (line ++ kCRLF ++ rest) = length line) as E.
  { apply std_search_decomp. intros i Hi Ho. unfold occurs_at in Ho.
    apply is_prefix_true in Ho as [k Hk]. apply Hn.
    assert (Hs : (line ++ kCRLF ++ rest) !! (i + 1)%nat = Some LF)
      by (rewrite <-lookup_drop, Hk; done).
    destruct (decide (i + 1 < length line)%nat) as [Hlt|Hge].
    - rewrite lookup_app_l in Hs by done. by apply list_elem_of_lookup_2 in Hs.
    - replace (i + 1)%nat with (length line + 0)%nat in Hs by lia.
      rewrite lookup_app_r, Nat.add_comm, Nat.add_sub in Hs by lia. done. }
  change CRLF with kCRLF. rewrite E.
  destruct (Nat.eqb_spec (length line) (length (line ++ kCRLF ++ rest))) as [H|_].
  - rewrite !length_app in H. simpl in H. lia.
  - rewrite take_app_length, drop_line. done.
Qed.

(** Enough turns: more fuel does not change a finished run. *)
Lemma bytes_loop_mono fuel fuel' t c l v :
  bytes_loop fuel t c l = v -> v <> Err EFuel -> (fuel <= fuel')%nat ->
  bytes_loop fuel' t c l = v.
Proof.
  revert fuel' c l. induction fuel as [|fuel IH]; intros fuel' c l H Hv Hf; [simpl in H; congruence|].
  destruct fuel' as [|fuel']; [lia|]. cbn [bytes_loop] in *.
  destruct (bytes_turn t c l) as [[[[ok more] c1] l1]|e]; cbn [res_bind] in *; [|done].
  destruct more; [|done]. apply IH; [done..|lia].
Qed.

Lemma processRequestLine_no_fuel line r : processRequestLine line r <> Err EFuel.
Proof.
  unfold processRequestLine, setMethod, assert_. cbv zeta.
  repeat (case_match || (cbn [res_bind] in * )); congruence.
Qed.

Lemma bytes_turn_active t c l ok more c' l' : active c ->
  bytes_turn t c l = Ok (ok, more, c', l') -> more = true ->
  active c' /\ (length l' < length l)%nat.
Proof.
  unfold bytes_turn, active. intros [Hs|Hs] H Hm; rewrite Hs in H; subst more.
  - destruct (split_line l) as [[line rest]|] eqn:E; [|congruence].
    destruct (processRequestLine line (request_ c)) as [[ok' r]|]; [|discriminate].
    cbn [res_bind] in H. destruct ok'; [|discriminate]. injection H as <- <- <-.
    apply split_line_shorter in E as [E _]. simpl. auto.
  - destruct (split_line l) as [[line rest]|] eqn:E; [|congruence]. cbv zeta in H.
    destruct (_ =? _)%nat; [discriminate|]. injection H as <- <- <-.
    apply split_line_shorter in E as [E _]. simpl. auto.
Qed.

Lemma bytes_loop_terminates fuel t c l : active c -> (length l < fuel)%nat ->
  bytes_loop fuel t c l <> Err EFuel.
Proof.
  revert c l. induction fuel as [|fuel IH]; intros c l A Hf; [lia|]. cbn [bytes_loop].
  destruct (bytes_turn t c l) as [[[[ok more] c1] l1]|e] eqn:E; cbn [res_bind].
  - destruct more; [|done]. destruct (bytes_turn_active _ _ _ _ _ _ _ A E eq_refl) as [A' Hl].
    apply IH; [done|lia].
  - unfold bytes_turn in E. destruct A as [A|A]; rewrite A in E; clear IH.
    + destruct (split_line l) as [[line rest]|]; [|discriminate].
      pose proof (processRequestLine_no_fuel line (request_ c)).
      destruct (processRequestLine _ _) as [[[] ?]|]; cbn [res_bind] in E; congruence.
    + destruct (split_line l) as [[line rest]|]; [|discriminate]. cbv zeta in E.
      destruct (_ =? _)%nat; discriminate.
Qed.

Lemma bytes_loop_fuel fuel t c l : active c -> (length l < fuel)%nat ->
  bytes_loop fuel t c l = parse_bytes t c l.
Proof.
  intros A Hf. apply bytes_loop_mono with (S (length l)); [done| |lia].
  apply bytes_loop_terminates; [done|lia].
Qed.

Lemma parse_bytes_unfold t c l : active c ->
  parse_bytes t c l =
    (let* (ok, more, c1, l1) := bytes_turn t c l in
     if more then parse_bytes t c1 l1 else Ok (ok, c1, l1)).
Proof.
  intros A. unfold parse_bytes at 1. cbn [bytes_loop].
  destruct (bytes_turn t c l) as [[[[ok more] c1] l1]|e] eqn:E; cbn [res_bind]; [|done].
  destruct more; [|done]. destruct (bytes_turn_active _ _ _ _ _ _ _ A E eq_refl).
  by apply bytes_loop_fuel.
Qed.

Lemma bytes_turn_no_line t c l : active c -> split_line l = None ->
  bytes_turn t c l = Ok (true, false, c, l).
Proof. unfold bytes_turn. intros [->| ->] ->; done. Qed.

Lemma active_not_gotAll c : active c -> gotAll c = false.
Proof. unfold active, gotAll. intros [->| ->]; done. Qed.

(** More data after [l]: the run on [l] first, then the run on its remainder. *)
Lemma parse_bytes_app t c l k : active c ->
  parse_bytes t c (l ++ k) =
    (let* (ok, c', l') := parse_bytes t c l in
     if negb ok || gotAll c' then Ok (ok, c', l' ++ k) else parse_bytes t c' (l' ++ k)).
Proof.
  revert c. induction l as [l IH] using (induction_ltof1 _ length). unfold ltof in IH.
  intros c A. destruct (split_line l) as [[line rest]|] eqn:E.
  2:{ rewrite (parse_bytes_unfold t c l A), bytes_turn_no_line by done. cbn [res_bind].
      rewrite active_not_gotAll by done. done. }
  pose proof (split_line_app l k _ _ E) as Ek. apply split_line_shorter in E as Hs.
  rewrite (parse_bytes_unfold t c (l ++ k) A), (parse_bytes_unfold t c l A).
  unfold bytes_turn. destruct A as [A|A]; rewrite A, E, Ek; cbn [res_bind].
  - destruct (processRequestLine line (request_ c)) as [[[] r]|e]; cbn [res_bind negb orb]; try done.
    apply IH; [lia|]. by right.
  - cbv zeta. destruct (_ =? _)%nat; cbn [res_bind negb orb]; [done|].
    apply IH; [lia|]. by right.
Qed.

Lemma parse_bytes_active t c l c' l' : active c ->
  parse_bytes t c l = Ok (true, c', l') -> gotAll c' = false -> active c'.
Proof.
  revert c. induction l as [l IH] using (induction_ltof1 _ length). unfold ltof in IH.
  intros c A. rewrite parse_bytes_unfold by done.
  destruct (bytes_turn t c l) as [[[[ok more] c1] l1]|e] eqn:E; cbn [res_bind]; [|done].
  destruct more.
  - destruct (bytes_turn_active _ _ _ _ _ _ _ A E eq_refl) as [A1 Hl]. by apply IH.
  - intros [= -> -> ->] G. revert E G. unfold bytes_turn, active.
    destruct A as [A|A]; rewrite A; destruct (split_line l) as [[line rest]|].
    + destruct (processRequestLine line (request_ c)) as [[[] r]|]; cbn [res_bind]; congruence.
    + intros [= <- <-]. auto.
    + cbv zeta. destruct (_ =? _)%nat; [|congruence]. intros [= <- <-]. done.
    + intros [= <- <-]. auto.
Qed.

Lemma processRequestLine_err line r e : processRequestLine line r = Err e -> e = EAssert.
Proof.
  unfold processRequestLine, setMethod, assert_. cbv zeta.
  repeat (case_match || (cbn [res_bind] in * )); congruence.
Qed.

Lemma parse_bytes_err t c l e : active c -> parse_bytes t c l = Err e -> e = EAssert.
Proof.
  revert c. induction l as [l IH] using (induction_ltof1 _ length). unfold ltof in IH.
  intros c A. rewrite parse_bytes_unfold by done.
  destruct (bytes_turn t c l) as [[[[ok more] c1] l1]|e'] eqn:E; cbn [res_bind].
  - destruct more; [|done]. destruct (bytes_turn_active _ _ _ _ _ _ _ A E eq_refl) as [A1 Hl].
    by apply IH.
  - intros [= ->]. revert E. unfold bytes_turn.
    destruct A as [A|A]; rewrite A; destruct (split_line l) as [[line rest]|]; try done.
    + destruct (processRequestLine line (request_ c)) as [[[] r]|] eqn:E; cbn [res_bind];
        try done. intros [= ->]. by eapply processRequestLine_err.
    + cbv zeta. by destruct (_ =? _)%nat.
Qed.

Lemma parse_bytes_rest t c l c' l' : active c ->
  parse_bytes t c l = Ok (true, c', l') -> gotAll c' = false -> split_line l' = None.
Proof.
  revert c. induction l as [l IH] using (induction_ltof1 _ length). unfold ltof in IH.
  intros c A. rewrite parse_bytes_unfold by done.
  destruct (bytes_turn t c l) as [[[[ok more] c1] l1]|e] eqn:E; cbn [res_bind]; [|done].
  destruct more.
  - destruct (bytes_turn_active _ _ _ _ _ _ _ A E eq_refl) as [A1 Hl]. by apply IH.
  - intros [= -> -> ->] G. revert E G. unfold bytes_turn.
    destruct A as [A|A]; rewrite A; destruct (split_line l) as [[line rest]|] eqn:S.
    + destruct (processRequestLine line (request_ c)) as [[[] r]|]; cbn [res_bind]; congruence.
    + congruence.
    + cbv zeta. destruct (_ =? _)%nat; [|congruence]. intros [= <- <-]. done.
    + congruence.
Qed.

(** The request after a line [m target v] has been read. *)
Definition request_of_line (m target : bytes) (ver : Version) (r : HttpRequest) : HttpRequest :=
  let q := std_find x3f target in
  let r := with_method (method_of_string m) r in
  let r := if (q =? length target)%nat then setPath target r
           else setQuery (drop q target) (setPath (take q target) r) in
  setVersion ver r.

Definition version_of (v : bytes) : option Version :=
  if (length v =? 8)%nat && bytes_eqb (take 7 v) (bs "HTTP/1.") then
    match drop 7 v with [x31] => Some kHttp11 | [x30] => Some kHttp10 | _ => None end
  else None.

Lemma version_of_Some v ver : version_of v = Some ver <->
  (v = bs "HTTP/1.1" /\ ver = kHttp11) \/ (v = bs "HTTP/1.0" /\ ver = kHttp10).
Proof.
  unfold version_of. split.
  - destruct (length v =? 8)%nat; [|done]. simpl.
    destruct (bytes_eqb (take 7 v) (bs "HTTP/1.")) eqn:E; [|done].
    apply bytes_eqb_true in E. rewrite <-(take_drop 7 v), E. intros H.
    destruct (drop 7 v) as [|c [|]]; try done; destruct c; try done;
      injection H as <-; [right|left]; done.
  - intros [[-> ->]|[-> ->]]; reflexivity.
Qed.

Lemma find_cut c l k : c ∉ l -> 
  std_find c (l ++ c :: k) = length l /\ take (length l) (l ++ c :: k) = l /\
  drop (S (length l)) (l ++ c :: k) = k /\ (length l =? length (l ++ c :: k))%nat = false.
Proof.
  intros H. split_and!.
  - by apply std_find_app.
  - apply take_app_length.
  - rewrite drop_app_ge by lia. replace (S (length l) - length l)%nat with 1%nat by lia. done.
  - apply Nat.eqb_neq. rewrite length_app. simpl. lia.
Qed.

Lemma setMethod_fresh m r : method_ r = kInvalid ->
  setMethod m r = Ok (negb (bool_decide (method_of_string m = kInvalid)),
                      with_method (method_of_string m) r).
Proof. intros Hr. unfold setMethod. rewrite Hr. done. Qed.

Lemma processRequestLine_parts m target v r :
  method_ r = kInvalid -> SP ∉ m -> SP ∉ target -> method_of_string m <> kInvalid ->
  (exists r', processRequestLine (m ++ [SP] ++ target ++ [SP] ++ v) r = Ok (false, r')
     /\ version_of v = None /\ method_ r' = method_of_string m) \/
  (exists ver, processRequestLine (m ++ [SP] ++ target ++ [SP] ++ v) r
     = Ok (true, request_of_line m target ver r) /\ version_of v = Some ver).
Proof.
  intros Hr Hm Ht Hk. simpl.
  destruct (find_cut SP m (target ++ SP :: v) Hm) as (F1 & T1 & D1 & L1).
  destruct (find_cut SP target v Ht) as (F2 & T2 & D2 & L2).
  unfold processRequestLine. rewrite F1, L1, T1, D1, setMethod_fresh by done.
  rewrite bool_decide_false by done. cbn [res_bind negb]. rewrite F2, L2, T2, D2.
  unfold version_of. destruct (_ && _); [|left; eexists; split_and!; try done;
    by case_match].
  unfold request_of_line. destruct (drop 7 v) as [|c k];
    [left; eexists; split_and!; try done; by case_match|].
  destruct k; [|left; destruct c; (eexists; split_and!; try done; by case_match)].
  destruct c; first [right; eexists; split; [reflexivity|reflexivity]
    | left; eexists; split_and!; try done; by case_match].
Qed.

Lemma processRequestLine_cut line r r' : method_ r = kInvalid ->
  processRequestLine line r = Ok (true, r') ->
  exists m target v, line = m ++ [SP] ++ target ++ [SP] ++ v /\ SP ∉ m /\ SP ∉ target /\
    method_of_string m <> kInvalid.
Proof.
  intros Hr. unfold processRequestLine. cbv zeta.
  destruct (std_find_spec SP line) as [[-> _]|(m & k & -> & Hm & ->)];
    [by rewrite Nat.eqb_refl|].
  destruct (find_cut SP m k Hm) as (_ & T1 & D1 & L1). rewrite L1, T1, D1.
  rewrite setMethod_fresh by done. cbn [res_bind].
  destruct (bool_decide _) eqn:Ek; [done|]. apply bool_decide_eq_false in Ek. cbn [negb].
  destruct (std_find_spec SP k) as [[-> _]|(target & v & -> & Ht & ->)];
    [by rewrite Nat.eqb_refl|].
  intros _. by exists m, target, v.
Qed.

(** ** The Buffer version computes the same *)

Lemma findCRLF_split_line buf : good buf ->
  match findCRLF buf with
  | Some p => exists line rest, split_line (contents buf) = Some (line, rest) /\
      zslice (peek buf) (p - peek buf) (buffer_ buf) = line /\
      exists buf', retrieveUntil buf (p + 2) = Ok buf' /\ good buf' /\ contents buf' = rest
  | None => split_line (contents buf) = None
  end.
Proof.
  intros G. rewrite findCRLF_search by apply G. unfold split_line. cbv zeta.
  pose proof (std_search_le kCRLF (contents buf)).
  destruct (Nat.eqb_spec (std_search kCRLF (contents buf)) (length (contents buf))); [done|].
  assert (Ho := std_search_found kCRLF (contents buf) ltac:(lia)).
  pose proof (occurs_CRLF_length _ _ Ho) as Hl.
  set (i := std_search kCRLF (contents buf)) in *.
  pose proof (zlen_contents buf (proj1 G)) as L. rewrite readable_wf in L by apply G.
  unfold zlen in L. eexists _, _. split; [reflexivity|]. split.
  - replace (peek buf + Z.of_nat i - peek buf) with (Z.of_nat i) by lia.
    unfold contents, zslice, ztake. rewrite take_take. f_equal.
    rewrite readable_wf by apply G. lia.
  - pose proof (retrieveUntil_spec buf (peek buf + Z.of_nat i + 2) G) as R.
    unfold peek, beginWrite in *. rewrite !(proj2 (Z.leb_le _ _)) in R by lia.
    destruct R as (b' & -> & G' & C). exists b'. split_and!; [done..|].
    rewrite C. unfold zdrop. f_equal. lia.
Qed.

Lemma parse_turn_bytes t c buf : good buf -> active c ->
  match bytes_turn t c (contents buf) with
  | Ok (ok, more, c', l') => exists buf', parse_turn t c buf = Ok (ok, more, c', buf') /\
      good buf' /\ contents buf' = l'
  | Err e => parse_turn t c buf = Err e
  end.
Proof.
  intros G A. pose proof (findCRLF_split_line buf G) as S. unfold parse_turn, bytes_turn.
  destruct A as [A|A]; rewrite A.
  - destruct (findCRLF buf) as [p|]; [|rewrite S; eauto].
    destruct S as (line & rest & -> & -> & buf' & R & G' & C).
    destruct (processRequestLine line (request_ c)) as [[[] r]|]; cbn [res_bind]; [|eauto..|done].
    rewrite R. cbn [res_bind]. eauto.
  - destruct (findCRLF buf) as [p|]; [|rewrite S; eauto].
    destruct S as (line & rest & -> & -> & buf' & R & G' & C). cbv zeta.
    destruct (_ =? _)%nat; rewrite R; cbn [res_bind]; eauto.
Qed.

Lemma parse_loop_bytes fuel t c buf : good buf -> active c ->
  match bytes_loop fuel t c (contents buf) with
  | Ok (ok, c', l') => exists buf', parse_loop fuel t c buf = Ok (ok, c', buf') /\
      good buf' /\ contents buf' = l'
  | Err e => parse_loop fuel t c buf = Err e
  end.
Proof.
  revert c buf. induction fuel as [|fuel IH]; intros c buf G A; cbn [bytes_loop parse_loop]; [done|].
  pose proof (parse_turn_bytes t c buf G A) as T.
  destruct (bytes_turn t c (contents buf)) as [[[[ok more] c1] l1]|e] eqn:E; cbn [res_bind].
  - destruct T as (buf' & -> & G' & <-). cbn [res_bind]. destruct more; [|eauto].
    apply IH; [done|]. eapply bytes_turn_active; eauto.
  - rewrite T. done.
Qed.

(** [parseRequest] on an active context, through [parse_bytes]. *)
Lemma parseRequest_bytes t c buf : good buf -> active c ->
  match parse_bytes t c (contents buf) with
  | Ok (ok, c', l') => exists buf', parseRequest t c buf = Ok (ok, c', buf') /\
      good buf' /\ contents buf' = l'
  | Err e => parseRequest t c buf = Err e
  end.
Proof.
  intros G A. pose proof (parse_loop_bytes (S (Z.to_nat (readableBytes buf))) t c buf G A) as H.
  pose proof (zlen_contents buf (proj1 G)) as L. unfold zlen in L.
  unfold parseRequest. rewrite <-L, Nat2Z.id in *. exact H.
Qed.

(** A turn, and a parse, that reject leave the line unread. *)
Lemma parse_bytes_rejects t c l c' l' : active c -> parse_bytes t c l = Ok (false, c', l') ->
  exists line rest, split_line l' = Some (line, rest) /\ state_ c' = kExpectRequestLine /\
    l' = l /\ processRequestLine line (request_ c) = Ok (false, request_ c').
Proof.
  unfold parse_bytes. intros A. assert (F : forall fuel c l, active c ->
    bytes_loop fuel t c l = Ok (false, c', l') ->
    (state_ c = kExpectHeaders -> False) /\
    (state_ c = kExpectRequestLine -> exists line rest, split_line l' = Some (line, rest) /\
      state_ c' = kExpectRequestLine /\ l' = l /\
      processRequestLine line (request_ c) = Ok (false, request_ c'))).
  2:{ intros H. destruct (F _ c l A H) as [F1 F2]. destruct A as [A|A]; [auto|by destruct F1]. }
  clear. induction fuel as [|fuel IH]; intros c l A H; [done|]. cbn [bytes_loop] in H.
  destruct (bytes_turn t c l) as [[[[ok more] c1] l1]|e] eqn:E; cbn [res_bind] in H; [|done].
  destruct more.
  - destruct (bytes_turn_active _ _ _ _ _ _ _ A E eq_refl) as [A1 _].
    destruct (IH c1 l1 A1 H) as [I1 I2]. unfold bytes_turn in E.
    destruct A as [A|A]; rewrite A in *; (split; [intros Hs|intros Hs]; try done);
      (destruct (split_line l) as [[line rest]|]; [|done]); cbv zeta in E.
    + destruct (processRequestLine line (request_ c)) as [[[] r]|]; cbn [res_bind] in E; try done.
      injection E as _ <- <-. by destruct I1.
    + destruct (_ =? _)%nat; [done|]. injection E as _ <- <-. by destruct I1.
  - injection H as -> -> ->. unfold bytes_turn in E.
    destruct A as [A|A]; rewrite A in *; (split; [intros Hs|intros Hs]; try done);
      (destruct (split_line l) as [[line rest]|] eqn:El; [|done]); cbv zeta in E.
    + destruct (processRequestLine line (request_ c)) as [[[] r]|] eqn:Ep; cbn [res_bind] in E; try done.
      injection E as <- <-. rewrite El. exists line, rest. by rewrite Ep.
    + by destruct (_ =? _)%nat.
Qed.

(** A rejected line whose method was recognised trips the assertion of
    [setMethod] when it is read again. *)
Lemma processRequestLine_again line r r' : method_ r = kInvalid ->
  processRequestLine line r = Ok (false, r') ->
  if decide (method_ r' = kInvalid) then processRequestLine line r' = Ok (false, r')
  else processRequestLine line r' = Err EAssert.
Proof.
  intros Hm. unfold processRequestLine. cbv zeta.
  destruct (_ =? _)%nat; [intros [= <-]; by rewrite decide_True|].
  unfold setMethod. rewrite Hm, bool_decide_eq_true_2 by done. cbn [assert_ res_bind].
  set (m := method_of_string _). cbn [with_method method_].
  destruct (bool_decide_reflect (m = kInvalid)) as [E|E]; cbn [negb].
  - intros [= <-]. cbn [method_ with_method]. rewrite decide_True by done.
    rewrite E, bool_decide_eq_true_2 by done. done.
  - intros H. assert (method_ r' = m) as ->.
    { revert H. repeat case_match; intros [= <-]; done. }
    rewrite decide_False by done. by rewrite bool_decide_eq_false_2.
Qed.

Lemma rejected_again t t' c l c' l' d : state_ c = kExpectRequestLine -> method_ (request_ c) = kInvalid ->
  parse_bytes t c l = Ok (false, c', l') -> method_ (request_ c') <> kInvalid ->
  parse_bytes t' c' (l' ++ d) = Err EAssert.
Proof.
  intros Hs Hm H Hm'. destruct (parse_bytes_rejects t c l c' l' ltac:(by left) H)
    as (line & rest & El & Hs' & -> & Ep).
  pose proof (processRequestLine_again _ _ _ Hm Ep) as Ha. rewrite decide_False in Ha by done.
  rewrite parse_bytes_unfold by (by left). unfold bytes_turn.
  rewrite Hs', (split_line_app _ _ _ _ El), Ha. done.
Qed.

(** ** Properties *)

(** C26: [parseRequest] is the line-by-line parser of the unread bytes.  While a
    request line or headers are expected, the loop ends (never by running out
    of turns), with the result, the context and the remaining bytes that
    [parse_bytes] gives, and leaves the buffer's invariant intact; its only
    abnormal exit is the assertion in [setMethod].  Called again once a request
    is complete, it would never end, whatever the number of turns. *)
Theorem parseRequest_refines (t : Z) (c : HttpContext) (buf : Buffer) :
  good buf ->
  (active c ->
   match parse_bytes t c (contents buf) with
   | Ok (ok, c', l') => exists buf', parseRequest t c buf = Ok (ok, c', buf') /\
       good buf' /\ contents buf' = l' /\ (ok = true -> active c' \/ gotAll c' = true)
   | Err e => parseRequest t c buf = Err e /\ e = EAssert
   end) /\
  (gotAll c = true -> forall fuel, parse_loop fuel t c buf = Err EFuel).
Proof.
  intros G. split.
  - intros A. pose proof (parse_loop_bytes (S (Z.to_nat (readableBytes buf))) t c buf G A) as H.
    pose proof (zlen_contents buf (proj1 G)) as L. unfold zlen in L.
    rewrite <-L, Nat2Z.id in H. fold (parse_bytes t c (contents buf)) in H.
    unfold parseRequest. rewrite <-L, Nat2Z.id.
    destruct (parse_bytes t c (contents buf)) as [[[ok c'] l']|e] eqn:E.
    + destruct H as (buf' & -> & G' & C). exists buf'. split_and!; [done..|].
      intros ->. destruct (gotAll c') eqn:Eg; [by right|left]. eapply parse_bytes_active; eauto.
    + split; [done|]. by eapply parse_bytes_err.
  - intros Hg. unfold gotAll in Hg. apply bool_decide_eq_true in Hg.
    intros fuel. induction fuel as [|fuel IH]; [done|].
    cbn [parse_loop]. unfold parse_turn. rewrite Hg. done.
Qed.

Definition ex_request : bytes :=
  bs "GET /index.html?q=1 HTTP/1.1" ++ CRLF ++ bs "Host:  a.b " ++ CRLF ++ CRLF ++ bs "rest".

Lemma good_of_bytes (l : bytes) : zlen l < 2 ^ 31 ->
  good (mkBuffer (bs "________" ++ l) 8 (8 + zlen l)) /\
  contents (mkBuffer (bs "________" ++ l) 8 (8 + zlen l)) = l.
Proof.
  intros Hl. pose proof (zlen_nonneg l).
  replace (bs "________" ++ l) with (bs "________" ++ l ++ []) by (by rewrite app_nil_r).
  assert (zlen (bs "________") = 8) as E by reflexivity. unfold MAX_SIZE, kCheapPrepend in *.
  split; [split|].
  - apply wf_layout; unfold MAX_SIZE; zlia.
  - unfold size. cbn [buffer_]. unfold kCheapPrepend. zlia.
  - apply contents_layout; unfold MAX_SIZE; lia.
Qed.

Definition ex_buf : Buffer := mkBuffer (bs "________" ++ ex_request) 8 (8 + zlen ex_request).

Lemma parseRequest_refines_witness :
  good ex_buf /\ active HttpContext_new /\
  match parse_bytes 7 HttpContext_new (contents ex_buf) with
  | Ok (ok, c', l') => exists buf', parseRequest 7 HttpContext_new ex_buf = Ok (ok, c', buf') /\
      good buf' /\ contents buf' = l' /\ (ok = true -> active c' \/ gotAll c' = true)
  | Err e => False
  end.
Proof.
  assert (G : good ex_buf) by (apply good_of_bytes; vm_compute; reflexivity).
  split; [exact G|]. split; [left; reflexivity|].
  exact (proj1 (parseRequest_refines 7 HttpContext_new ex_buf G) (or_introl eq_refl)).
Defined.

(** C13: the parser does not depend on how TCP cut the stream.  Feeding a request
    in any pieces, each time resuming with what was left over, gives the same
    result, context and unread bytes as parsing the whole at once. *)
Theorem parse_any_segmentation (t : Z) (c : HttpContext) (chunks : list bytes) :
  active c -> feed t c [] chunks = parse_bytes t c (concat chunks).
Proof.
  assert (F : forall l, active c -> split_line l = None ->
            feed t c l chunks = parse_bytes t c (l ++ concat chunks)).
  2:{ intros A. apply (F []); done. }
  revert c. induction chunks as [|d chunks IH]; intros c l A Hl; cbn [feed concat].
  - rewrite app_nil_r, parse_bytes_unfold, bytes_turn_no_line by done. done.
  - rewrite app_assoc, (parse_bytes_app t c (l ++ d) (concat chunks) A).
    destruct (parse_bytes t c (l ++ d)) as [[[ok c'] l']|e] eqn:E; cbn [res_bind]; [|done].
    destruct (negb ok || gotAll c') eqn:F; [done|].
    apply orb_false_iff in F as [Fo Fg]. apply negb_false_iff in Fo as ->.
    apply IH; [by eapply parse_bytes_active|]. by eapply parse_bytes_rest.
Qed.

Lemma parse_any_segmentation_witness :
  active HttpContext_new /\
  feed 7 HttpContext_new []
    [bs "GE"; bs "T / HTTP/1.0" ++ [CR]; [LF]; bs "A:b" ++ CRLF ++ [CR]; [LF]] =
  parse_bytes 7 HttpContext_new
    (concat [bs "GE"; bs "T / HTTP/1.0" ++ [CR]; [LF]; bs "A:b" ++ CRLF ++ [CR]; [LF]]).
Proof.
  assert (A : active HttpContext_new) by (left; reflexivity).
  split; [exact A|]. exact (parse_any_segmentation 7 HttpContext_new _ A).
Defined.

(** which request lines are accepted.  On a fresh request, the line is
    accepted exactly when it is a known method, a space, a target without
    spaces, a space and HTTP/1.0 or HTTP/1.1; the target is split at its first
    question mark, which stays in the query. *)
Theorem processRequestLine_accepts (line : bytes) (r r' : HttpRequest) :
  method_ r = kInvalid ->
  processRequestLine line r = Ok (true, r') <->
  exists m target v, line = m ++ [SP] ++ target ++ [SP] ++ v /\
    SP ∉ m /\ SP ∉ target /\ method_of_string m <> kInvalid /\
    ((v = bs "HTTP/1.1" /\ version_ r' = kHttp11) \/ (v = bs "HTTP/1.0" /\ version_ r' = kHttp10)) /\
    method_ r' = method_of_string m /\
    path r' = take (std_find x3f target) target /\
    query r' = (if (std_find x3f target =? length target)%nat then query r
                else drop (std_find x3f target) target) /\
    receiveTime_ r' = receiveTime_ r /\ headers_ r' = headers_ r /\
    serverAddr_ r' = serverAddr_ r /\
    uri_ r' = mkUri (flags_ (uri_ r)) (scheme_ (uri_ r)) (userinfo_ (uri_ r)) (host_ (uri_ r))
                    (port_ (uri_ r)) (path r') (query r') (fragment_ (uri_ r)).
Proof.
  intros Hm. split.
  - intros H. destruct (processRequestLine_cut line r r' Hm H) as (m & target & v & -> & H1 & H2 & H3).
    exists m, target, v.
    destruct (processRequestLine_parts m target v r Hm H1 H2 H3) as [(? & E & _)|(ver & E & V)];
      [congruence|]. rewrite H in E. injection E as ->. apply version_of_Some in V.
    unfold request_of_line. cbv zeta.
    destruct (std_find x3f target =? length target)%nat eqn:Eq; cbn; split_and!; try done.
    all: try (destruct V as [[-> ->]|[-> ->]]; [left|right]; done).
    all: apply Nat.eqb_eq in Eq; rewrite Eq, ?firstn_all; done.
  - intros (m & target & v & -> & H1 & H2 & H3 & Hv & E1 & E2 & E3 & E4 & E5 & E6 & E7).
    apply version_of_Some in Hv.
    destruct (processRequestLine_parts m target v r Hm H1 H2 H3) as [(? & _ & V & _)|(ver & E & V)];
      [congruence|]. rewrite E. do 2 f_equal. rewrite Hv in V. injection V as <-.
    destruct r' as [m' v' t' s' u' h'].
    unfold path, query in *. cbn [method_ version_ receiveTime_ serverAddr_ uri_ headers_] in *.
    rewrite E7, E1, E4, E5, E6, E2, E3. unfold request_of_line. cbv zeta.
    destruct (std_find x3f target =? length target)%nat eqn:Eq; cbn; [|done].
    apply Nat.eqb_eq in Eq. by rewrite Eq, firstn_all.
Qed.

Lemma processRequestLine_accepts_witness :
  method_ HttpRequest_new = kInvalid /\
  exists m target v, bs "PUT /a?b HTTP/1.0" = m ++ [SP] ++ target ++ [SP] ++ v /\ SP ∉ m.
Proof.
  split; [reflexivity|].
  destruct (proj1 (processRequestLine_accepts (bs "PUT /a?b HTTP/1.0") HttpRequest_new
    (request_of_line (bs "PUT") (bs "/a?b") kHttp10 HttpRequest_new) eq_refl))
    as (m & target & v & E & H & _); [vm_compute; reflexivity|].
  exists m, target, v. split; [exact E|exact H].
Defined.

(** *** Printing and parsing back *)

(** What [appendToBuffer] can write without ambiguity: no line feeds, no colon
    in a field name, values without surrounding white space, a path without
    spaces or question marks, and a request line that fits [char uri[256]]. *)
Definition plain_header (kv : bytes * bytes) : Prop :=
  x3a ∉ kv.1 /\ LF ∉ kv.1 /\ LF ∉ kv.2 /\
  (forall c l, kv.2 = c :: l -> isspace c = false) /\
  (forall l c, kv.2 = l ++ [c] -> isspace c = false).

Definition plain_request (r : HttpRequest) : Prop :=
  method_ r <> kInvalid /\
  SP ∉ path r /\ x3f ∉ path r /\ LF ∉ path r /\ x00 ∉ path r /\
  zlen (methodString r) + zlen (path r) + 10 < 256 /\
  Forall plain_header (headers_ r) /\ ordered ((headers_ r).*1).

Lemma addHeader_text kv r : plain_header kv ->
  let line := kv.1 ++ bs ": " ++ kv.2 in
  LF ∉ line /\ std_find x3a line = length kv.1 /\
  (length kv.1 =? length line)%nat = false /\
  addHeader line (length kv.1) r = addHeader_kv kv.1 kv.2 r.
Proof.
  intros (Hc & Hk & Hv & Hl & Hr). destruct kv as [k v]. cbn [fst snd] in *.
  change (bs ": " ++ v) with (x3a :: SP :: v). cbv zeta.
  destruct (find_cut x3a k (SP :: v) Hc) as (F & T & D & L). split_and!; try done.
  - rewrite !elem_of_app, !elem_of_cons. intros [?|[?|[?|?]]]; done.
  - unfold addHeader. cbv zeta. rewrite T, D. f_equal.
    change (drop_while isspace (SP :: v)) with (drop_while isspace v).
    assert (drop_while isspace v = v) as ->.
    { destruct v as [|c v]; [done|]. simpl. by rewrite (Hl c v eq_refl). }
    by apply trim_right_id.
Qed.

Lemma parse_headers_text t h h1 r rest :
  Forall plain_header h -> headers_ r = h1 -> ordered ((h1 ++ h).*1) ->
  parse_bytes t (mkContext kExpectHeaders r) (headers_text h ++ CRLF ++ rest) =
    Ok (true, mkContext kGotAll (with_headers (h1 ++ h) r), rest).
Proof.
  intros Hh. revert h1 r. induction Hh as [|kv h Hkv Hh IH]; intros h1 r Hr Ho.
  - rewrite app_nil_r in *. change (headers_text []) with (@nil byte).
    rewrite parse_bytes_unfold by (by right). unfold bytes_turn. cbn [state_ app].
    change (CRLF ++ rest) with ([] ++ CRLF ++ rest).
    rewrite (split_line_text [] rest) by apply not_elem_of_nil. cbn [res_bind request_].
    rewrite <-Hr. by destruct r.
  - unfold headers_text. cbn [map concat]. fold (headers_text h).
    unfold header_text. rewrite <-!app_assoc.
    destruct (addHeader_text kv r Hkv) as (N & F & L & A).
    rewrite parse_bytes_unfold by (by right). unfold bytes_turn. cbn [state_ request_].
    replace (kv.1 ++ bs ": " ++ kv.2 ++ CRLF ++ headers_text h ++ CRLF ++ rest)
      with ((kv.1 ++ bs ": " ++ kv.2) ++ CRLF ++ (headers_text h ++ CRLF ++ rest))
      by (rewrite <-!app_assoc; done).
    rewrite split_line_text by done. cbv zeta. rewrite F, L, A. cbn [res_bind].
    rewrite (IH (h1 ++ [kv])).
    + rewrite <-app_assoc. reflexivity.
    + unfold addHeader_kv, with_headers. cbn [headers_]. rewrite Hr, map_set_last; [by destruct kv|].
      intros y Hy. rewrite fmap_app in Ho. apply ordered_app_inv in Ho as (_ & _ & Hlt).
      apply Hlt; [done|]. rewrite fmap_cons. apply elem_of_cons. by left.
    + by rewrite <-app_assoc.
Qed.

Lemma parse_request_text t r rest : plain_request r ->
  exists r', parse_bytes t HttpContext_new (request_text r ++ rest) =
    Ok (true, mkContext kGotAll r', rest) /\
    method_ r' = method_ r /\ path r' = path r /\ headers_ r' = headers_ r /\
    version_ r' = kHttp11.
Proof.
  intros (Hm & P1 & P2 & P3 & P4 & P5 & Hh & Ho).
  destruct (methodString_plain r) as (M1 & M2 & M3).
  assert (request_line r = methodString r ++ [SP] ++ path r ++ [SP] ++ bs "HTTP/1.1") as El.
  { unfold request_line. rewrite !cstr_no_nul by done. apply snprintf_fits.
    change (bs "HTTP/1.1") with [x48; x54; x54; x50; x2f; x31; x2e; x31]. zlia. }
  assert (LF ∉ request_line r) as N.
  { rewrite El, !elem_of_app, !list_elem_of_singleton. intros [?|[?|[?|[?|H]]]]; try done.
    revert H. apply (bool_decide_unpack _). by vm_compute. }
  unfold request_text. rewrite <-!app_assoc.
  rewrite parse_bytes_unfold by (by left). unfold bytes_turn. cbn [state_ HttpContext_new].
  rewrite split_line_text by done. cbn [request_].
  assert (method_of_string (methodString r) <> kInvalid) as Hk by (rewrite method_of_methodString; done).
  destruct (processRequestLine_parts (methodString r) (path r) (bs "HTTP/1.1") HttpRequest_new
    eq_refl M1 P1 Hk) as [(? & _ & V & _)|(ver & E & V)]; [discriminate|].
  rewrite El. change (request_ HttpContext_new) with HttpRequest_new. rewrite E. cbn [res_bind]. 
  rewrite (parse_headers_text t (headers_ r) []);
    [|done|by unfold request_of_line; case_match|done].
  eexists. split; [reflexivity|].
  unfold request_of_line. rewrite std_find_none, Nat.eqb_refl by done.
  rewrite method_of_methodString by done. injection V as <-. done.
Qed.

(** a request printed by [appendToBuffer] is read back by the parser: the
    method, the path and every header are recovered, the version is 1.1 and
    nothing is left in the buffer. *)
Theorem request_print_parse (t : Z) (r : HttpRequest) (b : Buffer) :
  plain_request r -> good b -> contents b = [] -> size b + zlen (request_text r) < 2 ^ 31 ->
  exists b1 c b2,
    request_appendToBuffer r b = Ok b1 /\
    parseRequest t HttpContext_new b1 = Ok (true, c, b2) /\
    gotAll c = true /\ contents b2 = [] /\
    method_ (request_ c) = method_ r /\ path (request_ c) = path r /\
    headers_ (request_ c) = headers_ r /\ version_ (request_ c) = kHttp11.
Proof.
  intros Hp G C Hs. destruct (request_appendToBuffer_spec r b G Hs) as (b1 & E1 & G1 & C1).
  rewrite C in C1. cbn [app] in C1.
  destruct (parse_request_text t r [] Hp) as (r' & E & H). rewrite app_nil_r in E.
  assert (A : active HttpContext_new) by (by left).
  pose proof (parse_loop_bytes (S (Z.to_nat (readableBytes b1))) t HttpContext_new b1 G1 A) as R.
  pose proof (zlen_contents b1 (proj1 G1)) as L. unfold zlen in L.
  rewrite <-L, Nat2Z.id in R. fold (parse_bytes t HttpContext_new (contents b1)) in R.
  rewrite C1, E in R. destruct R as (b2 & E2 & G2 & C2).
  exists b1, (mkContext kGotAll r'), b2. unfold parseRequest.
  rewrite <-L, Nat2Z.id, C1. destruct H as (H1 & H2 & H3 & H4). by split_and!.
Qed.

Definition ex_req : HttpRequest :=
  with_headers [(bs "Accept", bs "*/*"); (bs "Host", bs "a.b:80")]
    (setPath (bs "/x/y") (with_method kPost HttpRequest_new)).

Lemma ex_req_plain : plain_request ex_req.
Proof.
  split_and!; try (apply (bool_decide_unpack _); by vm_compute).
  - repeat constructor; try (apply (bool_decide_unpack _); by vm_compute).
    all: intros; repeat match goal with
      | H : _ = ?l ++ [_] |- _ =>
          apply (f_equal (@rev byte)) in H; rewrite rev_app_distr in H; cbn in H
      end; try congruence.
    all: match goal with H : _ = _ :: _ |- _ => cbn in H; injection H as <- _; reflexivity end.
  - repeat constructor; intros y Hy; cbn in Hy;
      rewrite ?elem_of_cons, ?elem_of_nil in Hy; intuition (subst; reflexivity).
Qed.

Lemma request_print_parse_witness :
  plain_request ex_req /\ good (Buffer_new 1024) /\ contents (Buffer_new 1024) = [] /\
  exists b1 c b2,
    request_appendToBuffer ex_req (Buffer_new 1024) = Ok b1 /\
    parseRequest 9 HttpContext_new b1 = Ok (true, c, b2) /\
    gotAll c = true /\ contents b2 = [] /\
    method_ (request_ c) = method_ ex_req /\ path (request_ c) = path ex_req /\
    headers_ (request_ c) = headers_ ex_req /\ version_ (request_ c) = kHttp11.
Proof.
  assert (G : good (Buffer_new 1024)) by (apply Buffer_new_good; vm_compute; congruence).
  assert (C : contents (Buffer_new 1024) = []) by (vm_compute; reflexivity).
  split; [exact ex_req_plain|]. split; [exact G|]. split; [exact C|].
  apply (request_print_parse 9 ex_req (Buffer_new 1024) ex_req_plain G C).
  vm_compute. reflexivity.
Defined.
