(* ===== verification/Date.v ===== *)
(** * Calendar dates (cnet/base/Date.h, Date.cc)

    The conversions between a Gregorian date and its Julian day number, in C's
    [int] arithmetic: division truncates towards zero, and a result outside
    [int] is the undefined behaviour of signed overflow. *)

From S2P Require Import Prelude Cstd.

(** The value of an [int] expression. *)
Definition int_ (z : Z) : res Z :=
  if (- 2 ^ 31 <=? z) && (z <? 2 ^ 31) then Ok z else Err EUndefined.

(** [x1 + x2 + ... + xn], associating to the left. *)
Definition int_sum (l : list Z) : res Z :=
  res_foldl (fun acc x => let* x := int_ x in int_ (acc + x)) 0 l.

Record YearMonthDay := mkYMD { year : Z; month : Z; day : Z }.

#[export] Instance YMD_eq_dec : EqDecision YearMonthDay.
Proof. solve_decision. Defined.

Definition getJulianDayNumber (year month day : Z) : res Z :=
  let* a := int_ (14 - month) in
  let a := a ÷ 12 in
  let* y := int_sum [year; 4800; - a] in
  let* m := int_sum [month; 12 * a; - 3] in
  let* k := int_ (153 * m) in
  let* k := int_ (k + 2) in
  int_sum [day; k ÷ 5; y * 365; y ÷ 4; - (y ÷ 100); y ÷ 400; - 32045].

Definition getYearMonthDay (julianDayNumber : Z) : res YearMonthDay :=
  let* a := int_ (julianDayNumber + 32044) in
  let* b := int_sum [4 * a; 3] in
  let b := b ÷ 146097 in
  let* c := int_ (b * 146097) in
  let* c := int_ (a - c ÷ 4) in
  let* d := int_sum [4 * c; 3] in
  let d := d ÷ 1461 in
  let* e := int_ (1461 * d) in
  let* e := int_ (c - e ÷ 4) in
  let* m := int_sum [5 * e; 2] in
  let m := m ÷ 153 in
  let* k := int_sum [153 * m; 2] in
  let* day := int_sum [e; - (k ÷ 5); 1] in
  let* month := int_sum [m; 3; - (12 * (m ÷ 10))] in
  let* year := int_sum [b * 100; d; - 4800; m ÷ 10] in
  Ok (mkYMD year month day).

(** [class Date]: the day number is the only member. *)
Definition Date := Z.

Definition kDaysPerWeek : Z := 7.
Definition kJulianDayOf1970_01_01 : Z := 2440588.
Definition Date_invalid : Date := 0.
Definition Date_ymd (y m d : Z) : res Date := getJulianDayNumber y m d.
(** From a [struct tm]. *)
Definition Date_tm (tm_year tm_mon tm_mday : Z) : res Date :=
  let* y := int_ (tm_year + 1900) in
  let* m := int_ (tm_mon + 1) in
  getJulianDayNumber y m tm_mday.
Definition valid (d : Date) : bool := 0 <? d.
Definition yearMonthDay (d : Date) : res YearMonthDay := getYearMonthDay d.
Definition weekDay (d : Date) : res Z := let* n := int_ (d + 1) in Ok (Z.rem n kDaysPerWeek).
Definition date_ltb (lhs rhs : Date) : bool := lhs <? rhs.
Definition date_eqb (lhs rhs : Date) : bool := lhs =? rhs.

Definition iso_text (y : YearMonthDay) : bytes :=
  fmt_wd 4 (year y) ++ bs "-" ++ fmt_0wd 2 (month y) ++ bs "-" ++ fmt_0wd 2 (day y).
(** [toIsoString]: snprintf into 32 bytes. *)
Definition toIsoString (d : Date) : res bytes :=
  let* y := yearMonthDay d in Ok (snprintf 32 (iso_text y)).

(** ** The Gregorian calendar *)

Definition leap (y : Z) : bool :=
  (y mod 4 =? 0) && (negb (y mod 100 =? 0) || (y mod 400 =? 0)).

Definition days_in_month (y m : Z) : Z :=
  if m =? 2 then (if leap y then 29 else 28)
  else if (m =? 4) || (m =? 6) || (m =? 9) || (m =? 11) then 30 else 31.

Definition valid_date (d : YearMonthDay) : Prop :=
  1 <= month d <= 12 /\ 1 <= day d <= days_in_month (year d) (month d).

(** The following day. *)
Definition next_day (d : YearMonthDay) : YearMonthDay :=
  if day d <? days_in_month (year d) (month d)
  then mkYMD (year d) (month d) (day d + 1)
  else if month d <? 12 then mkYMD (year d) (month d + 1) 1
  else mkYMD (year d + 1) 1 1.

(** The years for which no intermediate result leaves [int]. *)
Definition min_year : Z := - 4799.
Definition max_year : Z := 1460000.

Definition in_range (d : YearMonthDay) : Prop := min_year <= year d <= max_year.

(** ** The arithmetic without the bounds *)

Definition jdn (y m d : Z) : Z :=
  let a := (14 - m) / 12 in
  let y := y + 4800 - a in
  let m := m + 12 * a - 3 in
  d + (153 * m + 2) / 5 + y * 365 + y / 4 - y / 100 + y / 400 - 32045.

Definition ymd_of (j : Z) : YearMonthDay :=
  let a := j + 32044 in
  let b := (4 * a + 3) / 146097 in
  let c := a - 146097 * b / 4 in
  let d := (4 * c + 3) / 1461 in
  let e := c - 1461 * d / 4 in
  let m := (5 * e + 2) / 153 in
  mkYMD (b * 100 + d - 4800 + m / 10) (m + 3 - 12 * (m / 10)) (e - (153 * m + 2) / 5 + 1).

Lemma int_small z : - 2 ^ 31 <= z < 2 ^ 31 -> int_ z = Ok z.
Proof. intros H. unfold int_. rewrite (proj2 (Z.leb_le _ _)), (proj2 (Z.ltb_lt _ _)) by lia. done. Qed.

(** The terms of a sum and its partial sums are [int]s. *)
Fixpoint sums_fit (acc : Z) (l : list Z) : Prop :=
  match l with
  | [] => True
  | x :: l' => (- 2 ^ 31 <= x < 2 ^ 31 /\ - 2 ^ 31 <= acc + x < 2 ^ 31) /\ sums_fit (acc + x) l'
  end.

Lemma int_sum_fit l : sums_fit 0 l -> int_sum l = Ok (fold_left Z.add l 0).
Proof.
  unfold int_sum. generalize 0. induction l as [|x l IH]; intros acc; simpl; [done|].
  intros [[H1 H2] H]. rewrite !int_small by lia. simpl. rewrite int_small by lia. simpl. auto.
Qed.

(** Discharges one bounds check of a computation whose divisors are constants. *)
Ltac int_step :=
  cbv zeta;
  first [rewrite int_small by (Z.to_euclidean_division_equations; lia)
        |rewrite int_sum_fit by
           (cbn [sums_fit]; rewrite ?Z.add_0_l; Z.to_euclidean_division_equations; lia)];
  cbn [res_bind fold_left]; rewrite ?Z.add_0_l.

Lemma getJulianDayNumber_Ok y m d :
  min_year <= y <= max_year -> 1 <= m <= 12 -> 1 <= d <= 31 ->
  getJulianDayNumber y m d = Ok (jdn y m d).
Proof.
  unfold min_year, max_year. intros Hy Hm Hd. unfold getJulianDayNumber. int_step.
  rewrite Z.quot_div_nonneg by lia.
  assert (Ha : 0 <= (14 - m) / 12 <= 1 /\ 0 <= m + 12 * ((14 - m) / 12) - 3 <= 11)
    by (Z.to_euclidean_division_equations; lia).
  unfold jdn. cbv zeta. revert Ha. generalize ((14 - m) / 12). intros a Ha.
  int_step. int_step. int_step. int_step.
  replace (m + 12 * a + -3) with (m + 12 * a - 3) by lia.
  replace (y + 4800 + - a) with (y + 4800 - a) by lia.
  rewrite !Z.quot_div_nonneg by lia. int_step. f_equal; lia.
Qed.

Lemma getYearMonthDay_Ok j :
  -32044 <= j <= 536000000 -> getYearMonthDay j = Ok (ymd_of j).
Proof.
  intros Hj. unfold getYearMonthDay, ymd_of. int_step. 
  assert (Ha : 0 <= j + 32044 <= 536032044) by lia. revert Ha.
  generalize (j + 32044). intros a Ha. int_step.
  rewrite Z.quot_div_nonneg by lia.
  assert (Hb : 0 <= (4 * a + 3) / 146097 <= 14677 /\
    0 <= a - 146097 * ((4 * a + 3) / 146097) / 4 <= 36524) by (Z.to_euclidean_division_equations; lia).
  revert Hb. generalize ((4 * a + 3) / 146097). intros b Hb. int_step.
  rewrite (Z.mul_comm b 146097), Z.quot_div_nonneg by lia. int_step.
  destruct Hb as [Hb Hc]. revert Hc. generalize (a - 146097 * b / 4). intros c Hc. int_step.
  rewrite Z.quot_div_nonneg by lia.
  assert (Hd : 0 <= (4 * c + 3) / 1461 <= 100 /\ 0 <= c - 1461 * ((4 * c + 3) / 1461) / 4 <= 365)
    by (Z.to_euclidean_division_equations; lia).
  destruct Hd as [Hd He].
  revert Hd He. generalize ((4 * c + 3) / 1461). intros d Hd. int_step.
  rewrite Z.quot_div_nonneg by lia.
  generalize (c - 1461 * d / 4). intros e He. int_step. int_step.
  rewrite Z.quot_div_nonneg by lia.
  assert (Hm : 0 <= (5 * e + 2) / 153 <= 11) by (Z.to_euclidean_division_equations; lia).
  revert Hm. generalize ((5 * e + 2) / 153). intros m Hm. int_step.
  rewrite !Z.quot_div_nonneg by lia. int_step. int_step. int_step.
  done.
Qed.

(** ** March-based years

    The algorithm counts years and months from March 1: in the year [Y] the
    month [M] (0 to 11) starts at day (153 M + 2) / 5, and the leap day is the
    last of its year. *)

Definition march_days (b d : Z) : Z := 146097 * b / 4 + 1461 * d / 4.

Definition march_leap (b d : Z) : Prop := d mod 4 = 3 /\ (d <> 99 \/ b mod 4 = 3).

Lemma march_days_year b d : 0 <= b -> 0 <= d < 100 ->
  let y := 100 * b + d in y * 365 + y / 4 - y / 100 + y / 400 = march_days b d.
Proof. intros Hb Hd. unfold march_days. Z.to_euclidean_division_equations; lia. Qed.

Lemma march_leap_next b d : 0 <= d < 100 ->
  leap (100 * b + d - 4800 + 1) = true <-> march_leap b d.
Proof.
  intros Hd. unfold leap, march_leap. rewrite andb_true_iff, orb_true_iff, negb_true_iff, Z.eqb_neq, !Z.eqb_eq.
  Z.to_euclidean_division_equations; lia.
Qed.

(** Century and year of the century of a day. *)
Lemma march_split b d e : 0 <= b -> 0 <= d < 100 -> 0 <= e <= 365 ->
  (e = 365 -> march_leap b d) ->
  let a := march_days b d + e in
  (4 * a + 3) / 146097 = b /\
  (4 * (a - 146097 * b / 4) + 3) / 1461 = d /\
  a - 146097 * b / 4 - 1461 * d / 4 = e.
Proof.
  intros Hb Hd He Hl a. subst a. unfold march_days, march_leap in *.
  Z.to_euclidean_division_equations; lia.
Qed.

Lemma march_range a : 0 <= a ->
  let b := (4 * a + 3) / 146097 in
  let c := a - 146097 * b / 4 in
  let d := (4 * c + 3) / 1461 in
  let e := c - 1461 * d / 4 in
  0 <= b /\ 0 <= d < 100 /\ 0 <= e <= 365 /\ (e = 365 -> march_leap b d) /\ a = march_days b d + e.
Proof.
  intros Ha b c d e. unfold march_days, march_leap.
  assert (0 <= b) by (subst b; Z.to_euclidean_division_equations; lia).
  assert (Hc : 0 <= c <= 36524 /\ (c = 36524 -> b mod 4 = 3))
    by (subst c b; Z.to_euclidean_division_equations; lia).
  assert (Hd : 0 <= d < 100) by (subst d; Z.to_euclidean_division_equations; lia).
  split; [done|]. split; [done|].
  assert (He : 0 <= e <= 365 /\ (e = 365 -> d mod 4 = 3 /\ (d = 99 -> c = 36524)))
    by (subst e d; Z.to_euclidean_division_equations; lia).
  split; [apply He|]. split; [|lia].
  intros E. destruct He as [_ He]. destruct (He E) as [H1 H2]. split; [done|].
  destruct (decide (d = 99)) as [->|]; [right|by left]. by apply Hc, H2.
Qed.

(** A date as century, year, March-based month and day. *)
Definition of_march (b d m dd : Z) : YearMonthDay :=
  mkYMD (b * 100 + d - 4800 + m / 10) (m + 3 - 12 * (m / 10)) dd.

Lemma march_month_length b d m : 0 <= d < 100 -> 0 <= m <= 11 ->
  days_in_month (year (of_march b d m 1)) (month (of_march b d m 1)) =
    if m =? 11 then (if leap (100 * b + d - 4800 + 1) then 29 else 28)
    else (153 * (m + 1) + 2) / 5 - (153 * m + 2) / 5.
Proof.
  intros Hd Hm. unfold of_march. cbn [year month].
  assert (m = 0 \/ m = 1 \/ m = 2 \/ m = 3 \/ m = 4 \/ m = 5 \/ m = 6 \/ m = 7 \/
    m = 8 \/ m = 9 \/ m = 10 \/ m = 11) as H by lia. clear Hm.
  repeat destruct H as [->|H]; [reflexivity..|subst m].
  unfold days_in_month. change (11 + 3 - 12 * (11 / 10)) with 2. change (11 / 10) with 1. cbn [Z.eqb Pos.eqb].
  replace (b * 100 + d - 4800 + 1) with (100 * b + d - 4800 + 1) by lia. done.
Qed.

Lemma valid_march b d m dd : 0 <= d < 100 -> 0 <= m <= 11 ->
  let e := (153 * m + 2) / 5 + dd - 1 in
  valid_date (of_march b d m dd) <->
  1 <= dd /\ (5 * e + 2) / 153 = m /\ 0 <= e <= 365 /\ (e = 365 -> march_leap b d).
Proof.
  intros Hd Hm e. subst e. pose proof (march_leap_next b d Hd) as L.
  pose proof (march_month_length b d m Hd Hm) as Hl.
  unfold valid_date, of_march in *. cbn [year month day] in *. rewrite Hl.
  assert (1 <= m + 3 - 12 * (m / 10) <= 12) by (Z.to_euclidean_division_equations; lia).
  destruct (Z.eqb_spec m 11) as [->|].
  - change ((153 * 11 + 2) / 5) with 337.
    destruct (leap _); split; intros; destruct_and?; split_and?;
      try (Z.to_euclidean_division_equations; lia).
    + intros _. by apply L.
    + assert (337 + dd - 1 = 365 -> False) by (intros E; destruct L as [_ L]; discriminate L; auto).
      Z.to_euclidean_division_equations; lia.
  - split; intros; destruct_and?; split_and?; try (Z.to_euclidean_division_equations; lia).
Qed.

(** Every valid date is a March-based one. *)
Lemma to_march y m dd : 1 <= m <= 12 -> - 4799 <= y ->
  exists b d m', 0 <= b /\ 0 <= d < 100 /\ 0 <= m' <= 11 /\
    mkYMD y m dd = of_march b d m' dd /\ y + 4800 - (14 - m) / 12 = 100 * b + d /\
    m + 12 * ((14 - m) / 12) - 3 = m'.
Proof.
  intros Hm Hy. set (a := (14 - m) / 12).
  assert (Ha : a = if m <=? 2 then 1 else 0)
    by (subst a; destruct (Z.leb_spec m 2); Z.to_euclidean_division_equations; lia).
  exists ((y + 4800 - a) / 100), ((y + 4800 - a) mod 100), (m + 12 * a - 3).
  unfold of_march.
  destruct (Z.leb_spec m 2); rewrite Ha; split_and!;
    try (Z.to_euclidean_division_equations; lia);
    f_equal; Z.to_euclidean_division_equations; lia.
Qed.

Lemma jdn_march b d m dd : 0 <= b -> 0 <= d < 100 -> 0 <= m <= 11 ->
  jdn (year (of_march b d m dd)) (month (of_march b d m dd)) dd =
    march_days b d + ((153 * m + 2) / 5 + dd - 1) - 32044.
Proof.
  intros Hb Hd Hm. unfold jdn, of_march. cbn [year month]. cbv zeta.
  assert (Ha : (14 - (m + 3 - 12 * (m / 10))) / 12 = m / 10)
    by (Z.to_euclidean_division_equations; lia).
  rewrite Ha. rewrite <-march_days_year by lia. cbv zeta.
  replace (b * 100 + d - 4800 + m / 10 + 4800 - m / 10) with (100 * b + d) by lia.
  replace (m + 3 - 12 * (m / 10) + 12 * (m / 10) - 3) with m by lia. lia.
Qed.

Lemma jdn_ymd_of dt : min_year <= year dt -> valid_date dt ->
  ymd_of (jdn (year dt) (month dt) (day dt)) = dt /\ 0 <= jdn (year dt) (month dt) (day dt) + 32044.
Proof.
  destruct dt as [y m dd]. unfold min_year. cbn [year month day]. intros Hy V.
  destruct (to_march y m dd ltac:(apply V) Hy) as (b & d & m' & Hb & Hd & Hm & E & _).
  rewrite E in V. apply valid_march in V as (V1 & V2 & V3 & V4); [|done..].
  pose proof (jdn_march b d m' dd Hb Hd Hm) as J. rewrite <-E in J. cbn [year month] in J.
  rewrite J, E. unfold ymd_of. cbv zeta.
  set (e := (153 * m' + 2) / 5 + dd - 1) in *.
  replace (march_days b d + e - 32044 + 32044) with (march_days b d + e) by lia.
  destruct (march_split b d e Hb Hd V3 V4) as (S1 & S2 & S3). cbv zeta in *.
  rewrite S1, S2, S3, V2. unfold of_march. split.
  - f_equal. subst e. lia.
  - unfold march_days. Z.to_euclidean_division_equations; lia.
Qed.

Lemma ymd_of_jdn j : 0 <= j + 32044 ->
  let dt := ymd_of j in
  valid_date dt /\ - 4800 <= year dt /\ jdn (year dt) (month dt) (day dt) = j.
Proof.
  intros Hj. unfold ymd_of. cbv zeta. pose proof (march_range _ Hj) as R. cbv zeta in R.
  revert R. generalize ((4 * (j + 32044) + 3) / 146097). intros b.
  generalize ((4 * (j + 32044 - 146097 * b / 4) + 3) / 1461). intros d.
  generalize (j + 32044 - 146097 * b / 4 - 1461 * d / 4). intros e (Hb & Hd & He & Hl & Ha).
  assert (Hm : 0 <= (5 * e + 2) / 153 <= 11 /\ 1 <= e - (153 * ((5 * e + 2) / 153) + 2) / 5 + 1)
    by (Z.to_euclidean_division_equations; lia).
  remember ((5 * e + 2) / 153) as m eqn:Em. destruct Hm as [Hm H1].
  fold (of_march b d m (e - (153 * m + 2) / 5 + 1)).
  rewrite valid_march, jdn_march by done. cbn [of_march year day].
  replace ((153 * m + 2) / 5 + (e - (153 * m + 2) / 5 + 1) - 1) with e by lia.
  split_and!; try done; try lia. Z.to_euclidean_division_equations; lia.
Qed.

Lemma jdn_range dt : in_range dt -> valid_date dt ->
  -32044 <= jdn (year dt) (month dt) (day dt) <= 536000000.
Proof.
  intros [H1 H2] V. split; [apply (jdn_ymd_of dt) in V; [lia|done]|].
  destruct V as [Vm Vd]. destruct dt as [y m dd]. cbn [year month day] in *. unfold max_year in *.
  assert (dd <= 31) by (unfold days_in_month in Vd; repeat case_match; lia).
  unfold jdn. cbv zeta. Z.to_euclidean_division_equations; lia.
Qed.

Lemma day_le_31 dt : valid_date dt -> 1 <= day dt <= 31.
Proof. intros [_ V]. unfold days_in_month in V. repeat case_match; lia. Qed.

Lemma getJulianDayNumber_valid dt : in_range dt -> valid_date dt ->
  getJulianDayNumber (year dt) (month dt) (day dt) = Ok (jdn (year dt) (month dt) (day dt)).
Proof.
  intros R V. pose proof (day_le_31 dt V). apply getJulianDayNumber_Ok; [apply R|apply V|done].
Qed.

Lemma next_day_valid dt : valid_date dt -> valid_date (next_day dt).
Proof.
  destruct dt as [y m dd]. unfold valid_date, next_day. cbn [year month day]. intros [Hm Hd].
  destruct (Z.ltb_spec dd (days_in_month y m)); cbn [year month day]; [lia|].
  destruct (Z.ltb_spec m 12); cbn [year month day]; (split; [lia|]);
    unfold days_in_month; repeat case_match; lia.
Qed.

Lemma jdn_next_day dt : valid_date dt ->
  jdn (year (next_day dt)) (month (next_day dt)) (day (next_day dt)) =
  jdn (year dt) (month dt) (day dt) + 1.
Proof.
  destruct dt as [y m dd]. unfold valid_date, next_day. cbn [year month day]. intros [Hm Hd].
  destruct (Z.ltb_spec dd (days_in_month y m)); cbn [year month day]; [unfold jdn; cbv zeta; lia|].
  assert (dd = days_in_month y m) as -> by lia. clear - Hm.
  destruct (Z.eqb_spec m 2) as [->|N2].
  { cbn [year month day Z.ltb Z.compare Pos.compare Pos.compare_cont]. unfold jdn. cbv zeta.
    unfold days_in_month. cbn [Z.eqb Pos.eqb]. destruct (leap y) eqn:L.
    - unfold leap in L. rewrite andb_true_iff, orb_true_iff, negb_true_iff, Z.eqb_neq, !Z.eqb_eq in L.
      Z.to_euclidean_division_equations; lia.
    - unfold leap in L. rewrite andb_false_iff, orb_false_iff, negb_false_iff, Z.eqb_eq, !Z.eqb_neq in L.
      Z.to_euclidean_division_equations; lia. }
  assert (m = 1 \/ m = 3 \/ m = 4 \/ m = 5 \/ m = 6 \/ m = 7 \/ m = 8 \/ m = 9 \/ m = 10 \/
    m = 11 \/ m = 12) as H by lia.
  clear Hm N2. repeat destruct H as [->|H]; [..|subst m]; cbn -[Z.mul Z.div Z.add Z.sub];
    unfold jdn; cbv zeta; Z.to_euclidean_division_equations; lia.
Qed.

(** ** Properties *)

(** C34: a date and its Julian day number determine each other.  Every valid
    Gregorian date of the years -4799 to 1460000 has a day number, computed
    without overflow, from which [getYearMonthDay] recovers it; and every
    number from -32044 to 536000000 is the day number of the valid date that
    [getYearMonthDay] returns. *)
Theorem julian_day_bijection (dt : YearMonthDay) (j : Z) :
  (in_range dt -> valid_date dt ->
   exists n, getJulianDayNumber (year dt) (month dt) (day dt) = Ok n /\
     getYearMonthDay n = Ok dt) /\
  (-32044 <= j <= 536000000 ->
   exists d, getYearMonthDay j = Ok d /\ valid_date d /\
     (in_range d -> getJulianDayNumber (year d) (month d) (day d) = Ok j)).
Proof.
  split.
  - intros R V. exists (jdn (year dt) (month dt) (day dt)).
    rewrite getJulianDayNumber_valid, getYearMonthDay_Ok by auto using jdn_range.
    split; [done|]. f_equal. apply jdn_ymd_of; [apply R|done].
  - intros Hj. exists (ymd_of j). destruct (ymd_of_jdn j ltac:(lia)) as (V & _ & E).
    cbv zeta in *. rewrite getYearMonthDay_Ok by done. split_and!; [done..|].
    intros R. rewrite getJulianDayNumber_valid by done. by rewrite E.
Qed.

Lemma julian_day_bijection_witness :
  in_range (mkYMD 2000 2 29) /\ valid_date (mkYMD 2000 2 29) /\
  (exists n, getJulianDayNumber 2000 2 29 = Ok n /\ getYearMonthDay n = Ok (mkYMD 2000 2 29)) /\
  exists d, getYearMonthDay 0 = Ok d /\ valid_date d.
Proof.
  assert (R : in_range (mkYMD 2000 2 29)) by (vm_compute; split; congruence).
  assert (V : valid_date (mkYMD 2000 2 29)) by (vm_compute; repeat split; congruence).
  split; [exact R|]. split; [exact V|]. split.
  - exact (proj1 (julian_day_bijection (mkYMD 2000 2 29) 0) R V).
  - destruct (proj2 (julian_day_bijection (mkYMD 2000 2 29) 0) ltac:(lia)) as (d & E & V' & _).
    exists d. split; [exact E|exact V'].
Defined.

(** day numbers count days.  The day after a valid date, by the Gregorian
    leap year rule, has the next number and the next day of the week; and the
    count is anchored: 1970-01-01 has the number [kJulianDayOf1970_01_01] and
    is a Thursday. *)
Theorem julian_day_counts (dt : YearMonthDay) :
  in_range dt -> valid_date dt -> in_range (next_day dt) ->
  (exists n,
    getJulianDayNumber (year dt) (month dt) (day dt) = Ok n /\
    getJulianDayNumber (year (next_day dt)) (month (next_day dt)) (day (next_day dt)) = Ok (n + 1) /\
    (0 <= n -> exists w, weekDay n = Ok w /\ 0 <= w < 7 /\ weekDay (n + 1) = Ok ((w + 1) mod 7))) /\
  Date_ymd 1970 1 1 = Ok kJulianDayOf1970_01_01 /\ weekDay kJulianDayOf1970_01_01 = Ok 4.
Proof.
  intros R V R'. split; [|split; reflexivity].
  exists (jdn (year dt) (month dt) (day dt)). pose proof (jdn_range dt R V) as B.
  rewrite !getJulianDayNumber_valid, jdn_next_day by auto using next_day_valid.
  split_and!; [done..|]. revert B. generalize (jdn (year dt) (month dt) (day dt)). intros n B Hn.
  unfold weekDay, kDaysPerWeek. rewrite !int_small by lia. cbn [res_bind].
  rewrite !Z.rem_mod_nonneg by lia. eexists. split; [done|].
  split; [apply Z.mod_pos_bound; lia|]. f_equal. by rewrite Zplus_mod_idemp_l.
Qed.

Lemma julian_day_counts_witness :
  in_range (mkYMD 2023 12 31) /\ valid_date (mkYMD 2023 12 31) /\
  next_day (mkYMD 2023 12 31) = mkYMD 2024 1 1 /\
  exists n, getJulianDayNumber 2023 12 31 = Ok n /\ getJulianDayNumber 2024 1 1 = Ok (n + 1).
Proof.
  assert (R : in_range (mkYMD 2023 12 31)) by (vm_compute; split; congruence).
  assert (V : valid_date (mkYMD 2023 12 31)) by (vm_compute; repeat split; congruence).
  split; [exact R|]. split; [exact V|]. split; [reflexivity|].
  destruct (proj1 (julian_day_counts (mkYMD 2023 12 31) R V ltac:(vm_compute; split; congruence)))
    as (n & E1 & E2 & _).
  exists n. split; [exact E1|exact E2].
Defined.
