(* ===== verification/Timestamp.v ===== *)
(** * Time stamps (cnet/base/Timestamp.h, Timestamp.cc)

    Microseconds since the Epoch in an [int64_t]; a result outside [int64_t] is
    the undefined behaviour of signed overflow. *)

From S2P Require Import Prelude Cstd.

Definition int64_ (z : Z) : res Z :=
  if (- 2 ^ 63 <=? z) && (z <? 2 ^ 63) then Ok z else Err EUndefined.

(** [class Timestamp]: its only member. *)
Abbreviation Timestamp := Z.

Definition kMicroSecondsPerSecond : Z := 1000 * 1000.
Definition Timestamp_new : Timestamp := 0.
Definition invalid : Timestamp := Timestamp_new.
Definition valid (t : Timestamp) : bool := 0 <? t.
Definition Timestamp_swap (t that : Timestamp) : Timestamp * Timestamp := (that, t).
Definition secondsSinceEpoch (t : Timestamp) : Z := t ÷ kMicroSecondsPerSecond.

(** [fromUnixTime(t, microseconds)]; the one-argument form passes 0. *)
Definition fromUnixTime (t microseconds : Z) : res Timestamp :=
  let* us := int64_ (t * kMicroSecondsPerSecond) in int64_ (us + microseconds).

(** [now()], from what [gettimeofday] stored. *)
Definition now (tv_sec tv_usec : Z) : res Timestamp := fromUnixTime tv_sec tv_usec.

Definition timestamp_ltb (lhs rhs : Timestamp) : bool := lhs <? rhs.
Definition timestamp_eqb (lhs rhs : Timestamp) : bool := lhs =? rhs.

(** The dividend of [timeDifference], before the conversion to [double]. *)
Definition timeDifference_us (high low : Timestamp) : res Z := int64_ (high - low).

(** [addTime], [delta] being [seconds * kMicroSecondsPerSecond] once converted
    from [double] to [int64_t]. *)
Definition addTime (t : Timestamp) (delta : Z) : res Timestamp := int64_ (t + delta).

Definition toString (t : Timestamp) : bytes :=
  let seconds := t ÷ kMicroSecondsPerSecond in
  let microseconds := Z.rem t kMicroSecondsPerSecond in
  snprintf 31 (fmt_d seconds ++ bs "." ++ fmt_0wd 6 microseconds).

(** [struct tm]; [tm_zone] is the characters of the string it points to. *)
Record tm := mkTm {
  tm_sec : Z; tm_min : Z; tm_hour : Z;
  tm_mday : Z; tm_mon : Z; tm_year : Z;
  tm_wday : Z; tm_yday : Z; tm_isdst : Z;
  tm_gmtoff : Z; tm_zone : bytes;
}.
Definition tm_zero : tm := mkTm 0 0 0 0 0 0 0 0 0 0 [].

#[export] Instance tm_eq_dec : EqDecision tm.
Proof. solve_decision. Defined.

(** [gmtime_r] is the C library's. *)
Definition toFormattedString (gmtime : Z -> tm) (t : Timestamp) (showMicroseconds : bool) : bytes :=
  let tm_time := gmtime (t ÷ kMicroSecondsPerSecond) in
  let date := fmt_wd 4 (tm_year tm_time + 1900) ++ fmt_0wd 2 (tm_mon tm_time + 1) ++
              fmt_0wd 2 (tm_mday tm_time) ++ bs " " ++ fmt_0wd 2 (tm_hour tm_time) ++ bs ":" ++
              fmt_0wd 2 (tm_min tm_time) ++ bs ":" ++ fmt_0wd 2 (tm_sec tm_time) in
  snprintf 32
    (if showMicroseconds
     then date ++ bs "." ++ fmt_0wd 6 (s32 (Z.rem t kMicroSecondsPerSecond))
     else date).

Lemma int64_small z : - 2 ^ 63 <= z < 2 ^ 63 -> int64_ z = Ok z.
Proof. intros H. unfold int64_. rewrite (proj2 (Z.leb_le _ _)), (proj2 (Z.ltb_lt _ _)) by lia. done. Qed.
