(* ===== verification/TimeZone.v ===== *)
(** * Time zones (cnet/base/TimeZone.h, TimeZone.cc)

    The zone file reader, the search for the local time type in force, and the
    conversions between seconds since the Epoch and broken-down times. *)

From S2P Require Import Prelude Endian Cstd Date Timestamp.

Record Transition := mkTransition { gmttime : Z; localtime : Z; localtimeIdx : Z }.
Record Localtime := mkLocaltime { gmtOffset : Z; isDst : bool; arrbIdx : Z }.
Record Data := mkData {
  transitiions : list Transition;
  localtimes : list Localtime;
  abbreviation : bytes;
}.

#[export] Instance Localtime_eq_dec : EqDecision Localtime.
Proof. solve_decision. Defined.

Definition Data_new : Data := mkData [] [] [].
Definition push_localtime (d : Data) (l : Localtime) : Data :=
  mkData (transitiions d) (localtimes d ++ [l]) (abbreviation d).
Definition push_transition (d : Data) (t : Transition) : Data :=
  mkData (transitiions d ++ [t]) (localtimes d) (abbreviation d).
Definition set_abbreviation (d : Data) (a : bytes) : Data :=
  mkData (transitiions d) (localtimes d) a.

(** [struct Comp]: the key it compares. *)
Definition comp_key (compareGmt : bool) (t : Transition) : Z :=
  if compareGmt then gmttime t else localtime t.
Definition Comp_less (compareGmt : bool) (lhs rhs : Transition) : bool :=
  comp_key compareGmt lhs <? comp_key compareGmt rhs.
Definition Comp_equal (compareGmt : bool) (lhs rhs : Transition) : bool :=
  comp_key compareGmt lhs =? comp_key compareGmt rhs.

Definition kSecondsPerDay : Z := 24 * 60 * 60.

(** [fillHMS]: hours, minutes, seconds. *)
Definition fillHMS (seconds : Z) (utc : tm) : tm :=
  let minutes := seconds / 60 in
  mkTm (seconds mod 60) (minutes mod 60) (minutes / 60)
       (tm_mday utc) (tm_mon utc) (tm_year utc) (tm_wday utc) (tm_yday utc)
       (tm_isdst utc) (tm_gmtoff utc) (tm_zone utc).

(** ** Reading a zone file

    The state of [class File] is what is left to read.  [fread] reports a short
    read, on which the readers throw. *)

Definition readBytes (n : Z) (f : bytes) : res (bytes * bytes) :=
  if n <=? 0 then (if n =? 0 then Ok ([], f) else Err EUndefined)   (* char buf[n] *)
  else if zlen f <? n then Err EException else Ok (ztake n f, zdrop n f).

Definition readInt32 (f : bytes) : res (Z * bytes) :=
  if zlen f <? 4 then Err EException
  else Ok (s32 (networkToHost32 (int_of_mem (ztake 4 f))), zdrop 4 f).

Definition readUInt8 (f : bytes) : res (Z * bytes) :=
  match f with
  | [] => Err EException
  | x :: f' => Ok (byte_Z x, f')
  end.

(** [for (i = 0; i < n; ++i) v.push_back(read())] *)
Fixpoint read_n (read : bytes -> res (Z * bytes)) (n : nat) (f : bytes) : res (list Z * bytes) :=
  match n with
  | O => Ok ([], f)
  | S n' => let* (x, f) := read f in let* (l, f) := read_n read n' f in Ok (x :: l, f)
  end.

(** The loop over the local time types; what was stored before an exception
    stays in [data]. *)
Fixpoint read_types (n : nat) (f : bytes) (data : Data) : Data * res bytes :=
  match n with
  | O => (data, Ok f)
  | S n' =>
      match (let* (gmtoff, f) := readInt32 f in
             let* (isdst, f) := readUInt8 f in
             let* (abbrind, f) := readUInt8 f in Ok (gmtoff, isdst, abbrind, f)) with
      | Ok (gmtoff, isdst, abbrind, f) =>
          read_types n' f (push_localtime data (mkLocaltime gmtoff (negb (isdst =? 0)) abbrind))
      | Err e => (data, Err e)
      end
  end.

(** The loop that builds the transitions: indexing [localtimes] past its end is
    undefined. *)
Fixpoint build_transitions (trans idx : list Z) (data : Data) : Data * res unit :=
  match trans, idx with
  | t :: trans', i :: idx' =>
      match localtimes data !! Z.to_nat i with
      | Some l => build_transitions trans' idx'
                    (push_transition data (mkTransition t (t + gmtOffset l) i))
      | None => (data, Err EUndefined)
      end
  | _, _ => (data, Ok tt)
  end.

(** The counts of the header. *)
Definition read_header (f : bytes) : res (Z * Z * Z * bytes) :=
  let* (head, f) := readBytes 4 f in
  if negb (bytes_eqb head (bs "TZif")) then Err EException else
  let* (version, f) := readBytes 1 f in
  let* (_, f) := readBytes 15 f in
  let* (isgmtcnt, f) := readInt32 f in
  let* (isstdcnt, f) := readInt32 f in
  let* (leapcnt, f) := readInt32 f in
  let* (timecnt, f) := readInt32 f in
  let* (typecnt, f) := readInt32 f in
  let* (charcnt, f) := readInt32 f in
  Ok (timecnt, typecnt, charcnt, f).

(** The body of the [try] block. *)
Definition read_zone (f : bytes) (data : Data) : Data * res unit :=
  match (let* (timecnt, typecnt, charcnt, f) := read_header f in
         if timecnt <? 0 then Err ELength                     (* trans.reserve(timecnt) *)
         else
         let* (trans, f) := read_n readInt32 (Z.to_nat timecnt) f in
         let* (idx, f) := read_n readUInt8 (Z.to_nat timecnt) f in
         Ok (typecnt, charcnt, trans, idx, f)) with
  | Err e => (data, Err e)
  | Ok (typecnt, charcnt, trans, idx, f) =>
      match read_types (Z.to_nat typecnt) f data with
      | (data, Err e) => (data, Err e)
      | (data, Ok f) =>
          match build_transitions trans idx data with
          | (data, Err e) => (data, Err e)
          | (data, Ok _) =>
              match readBytes charcnt f with
              | Ok (a, _) => (set_abbreviation data a, Ok tt)
              | Err e => (data, Err e)
              end
          end
      end
  end.

(** [None]: the file cannot be opened.  [length_error] is a [logic_error]. *)
Definition readTimeZoneFile (zonefile : option bytes) (data : Data) : res (bool * Data) :=
  match zonefile with
  | None => Ok (true, data)
  | Some f =>
      match read_zone f data with
      | (data, Ok _) | (data, Err EException) | (data, Err ELength) => Ok (true, data)
      | (_, Err e) => Err e
      end
  end.

(** [class TimeZone]: [data_], NULL in an invalid time zone. *)
Definition TimeZone := option Data.
Definition TimeZone_invalid : TimeZone := None.
Definition TimeZone_file (zonefile : option bytes) : res TimeZone :=
  let* (ok, data) := readTimeZoneFile zonefile Data_new in
  Ok (if ok then Some data else None).
Definition TimeZone_fixed (eastOfUtc : Z) (name : bytes) : TimeZone :=
  Some (mkData [] [mkLocaltime eastOfUtc false 0] name).
Definition valid (tz : TimeZone) : bool := if tz then true else false.

(** ** The local time type in force *)

(** [std::lower_bound]: the search by halving. *)
Fixpoint lower_bound_loop {A} (less : A -> bool) (l : list A) (fuel first len : nat) : nat :=
  match fuel with
  | O => first
  | S fuel' =>
      if (len =? 0)%nat then first else
      let half := (len / 2)%nat in
      let middle := (first + half)%nat in
      match l !! middle with
      | Some x =>
          if less x then lower_bound_loop less l fuel' (S middle) (len - half - 1)
          else lower_bound_loop less l fuel' first half
      | None => first
      end
  end.
Definition lower_bound {A} (less : A -> bool) (l : list A) : nat :=
  lower_bound_loop less l (S (length l)) 0 (length l).

(** [v[i]] *)
Definition at_ {A} (l : list A) (i : Z) : res A :=
  if i <? 0 then Err EUndefined
  else match l !! Z.to_nat i with Some x => Ok x | None => Err EUndefined end.

Definition findLocaltime (data : Data) (sentry : Transition) (comp : bool) : res Localtime :=
  match transitiions data with
  | [] => at_ (localtimes data) 0
  | front :: _ =>
      if Comp_less comp sentry front then at_ (localtimes data) 0 else
      let i := lower_bound (fun t => Comp_less comp t sentry) (transitiions data) in
      match transitiions data !! i with
      | Some t =>
          if Comp_equal comp sentry t then at_ (localtimes data) (localtimeIdx t) else
          assert! negb (i =? 0)%nat;
          let* t := at_ (transitiions data) (Z.of_nat i - 1) in
          at_ (localtimes data) (localtimeIdx t)
      | None =>
          let* t := at_ (transitiions data) (zlen (transitiions data) - 1) in
          at_ (localtimes data) (localtimeIdx t)
      end
  end.

(** ** Conversions *)

Definition with_local (l : Localtime) (zone : bytes) (t : tm) : tm :=
  mkTm (tm_sec t) (tm_min t) (tm_hour t) (tm_mday t) (tm_mon t) (tm_year t)
       (tm_wday t) (tm_yday t) (if isDst l then 1 else 0) (gmtOffset l) zone.

Section local.
(** [gmtime_r] and [timegm] of the C library. *)
Variable gmtime : Z -> tm.
Variable timegm : tm -> Z.

Definition toLocalTime (tz : TimeZone) (secondsSinceEpoch : Z) : res tm :=
  match tz with
  | None => Err EAssert
  | Some data =>
      let sentry := mkTransition secondsSinceEpoch 0 0 in
      let* local := findLocaltime data sentry true in
      let* localSeconds := int64_ (secondsSinceEpoch + gmtOffset local) in
      if zlen (abbreviation data) <? arrbIdx local then Err EUndefined
      else Ok (with_local local (cstr (zdrop (arrbIdx local) (abbreviation data)))
                          (gmtime localSeconds))
  end.

Definition fromLocalTime (tz : TimeZone) (localTm : tm) : res Z :=
  match tz with
  | None => Err EAssert
  | Some data =>
      let seconds := timegm localTm in
      let sentry := mkTransition 0 seconds 0 in
      let* local := findLocaltime data sentry false in
      let* seconds :=
        (if tm_isdst localTm =? 0 then Ok seconds else
         let* trySeconds := int64_ (seconds - gmtOffset local) in
         let* tryTm := toLocalTime tz trySeconds in
         if (tm_isdst tryTm =? 0) && (tm_hour tryTm =? tm_hour localTm)
            && (tm_min tryTm =? tm_min localTm)
         then int64_ (seconds - 3600) else Ok seconds) in
      int64_ (seconds - gmtOffset local)
  end.
End local.

Definition toUtcTime (secondsSinceEpoch : Z) (yday : bool) : res tm :=
  let seconds := s32 (Z.rem secondsSinceEpoch kSecondsPerDay) in
  let days := s32 (secondsSinceEpoch ÷ kSecondsPerDay) in
  let* (seconds, days) :=
    (if seconds <? 0 then
       let* days := int_ (days - 1) in Ok (seconds + kSecondsPerDay, days)
     else Ok (seconds, days)) in
  let utc := fillHMS seconds (mkTm 0 0 0 0 0 0 0 0 0 0 (bs "GMT")) in
  let* date := int_ (days + kJulianDayOf1970_01_01) in
  let* ymd := yearMonthDay date in
  let* tm_year := int_ (year ymd - 1900) in
  let* tm_mon := int_ (month ymd - 1) in
  let* tm_wday := weekDay date in
  let* tm_yday :=
    (if yday then
       let* startOfYear := Date_ymd (year ymd) 1 1 in int_ (date - startOfYear)
     else Ok 0) in
  Ok (mkTm (tm_sec utc) (tm_min utc) (tm_hour utc) (day ymd) tm_mon tm_year tm_wday tm_yday
           (tm_isdst utc) (tm_gmtoff utc) (tm_zone utc)).

Definition fromUtcTime (year month day hour minute seconds : Z) : res Z :=
  let* date := Date_ymd year month day in
  let* secondsInDay := int_sum [hour * 3600; minute * 60; seconds] in
  let* days := int_ (date - kJulianDayOf1970_01_01) in
  int64_ (days * kSecondsPerDay + secondsInDay).

Definition fromUtcTime_tm (utc : tm) : res Z :=
  let* y := int_ (tm_year utc + 1900) in
  let* m := int_ (tm_mon utc + 1) in
  fromUtcTime y m (tm_mday utc) (tm_hour utc) (tm_min utc) (tm_sec utc).

(** ** Universal time *)

(** The division of [toUtcTime]: the day, and the second of the day. *)
Definition split_seconds (t : Z) : res (Z * Z) :=
  let seconds := s32 (Z.rem t kSecondsPerDay) in
  let days := s32 (t ÷ kSecondsPerDay) in
  if seconds <? 0 then
    let* days := int_ (days - 1) in Ok (seconds + kSecondsPerDay, days)
  else Ok (seconds, days).

(** The seconds for which every intermediate result is an [int]. *)
Definition utc_range (t : Z) : Prop := - 10 ^ 11 <= t <= 45 * 10 ^ 12.

Lemma split_seconds_floor t : utc_range t ->
  split_seconds t = Ok (t mod 86400, t / 86400).
Proof.
  unfold utc_range, split_seconds, kSecondsPerDay. intros Ht.
  change (24 * 60 * 60) with 86400. cbv zeta.
  rewrite !s32_small by (Z.to_euclidean_division_equations; lia).
  destruct (Z.ltb_spec (Z.rem t 86400) 0).
  - rewrite int_small by (Z.to_euclidean_division_equations; lia). cbn [res_bind].
    f_equal. f_equal; Z.to_euclidean_division_equations; lia.
  - f_equal. f_equal; Z.to_euclidean_division_equations; lia.
Qed.

Lemma ymd_of_in_range j : 0 <= j <= 534000000 -> in_range (ymd_of j).
Proof.
  intros Hj. pose proof (march_range (j + 32044) ltac:(lia)) as R. cbv zeta in R.
  unfold in_range, min_year, max_year, ymd_of. cbv zeta. cbn [year].
  revert R. generalize ((4 * (j + 32044) + 3) / 146097). intros b.
  generalize ((4 * (j + 32044 - 146097 * b / 4) + 3) / 1461). intros d.
  generalize (j + 32044 - 146097 * b / 4 - 1461 * d / 4). intros e (Hb & Hd & He & _ & Ha).
  unfold march_days in Ha. Z.to_euclidean_division_equations; lia.
Qed.

(** The broken-down time of second [s] of the day with number [j]. *)
Definition utc_of (j s : Z) (yday : bool) : tm :=
  let d := ymd_of j in
  mkTm (s mod 60) (s / 60 mod 60) (s / 60 / 60) (day d) (month d - 1) (year d - 1900)
       ((j + 1) mod 7) (if yday then j - jdn (year d) 1 1 else 0) 0 0 (bs "GMT").

Lemma jdn_new_year y m d : 1 <= m <= 12 -> 1 <= d <= days_in_month y m ->
  0 <= jdn y m d - jdn y 1 1 <= 365.
Proof.
  intros Hm Hd.
  assert (dt : valid_date (mkYMD y m d)) by (split; done). apply day_le_31 in dt. cbn [day] in dt.
  assert (m = 2 -> d <= 29) by (intros ->; unfold days_in_month in Hd; repeat case_match; lia).
  unfold jdn. cbv zeta. change ((14 - 1) / 12) with 1.
  Z.to_euclidean_division_equations; lia.
Qed.

Lemma toUtcTime_Ok t yday : utc_range t ->
  toUtcTime t yday = Ok (utc_of (t / 86400 + 2440588) (t mod 86400) yday).
Proof.
  intros Ht. unfold toUtcTime. fold (split_seconds t). rewrite split_seconds_floor by done.
  cbn [res_bind]. unfold utc_range in Ht.
  assert (Hj : 0 <= t / 86400 + 2440588 <= 534000000) by (Z.to_euclidean_division_equations; lia).
  pose proof (Z.mod_pos_bound t 86400 ltac:(lia)) as Hs. revert Hs. generalize (t mod 86400). intros s Hs.
  unfold kJulianDayOf1970_01_01. revert Hj. generalize (t / 86400 + 2440588). intros j Hj.
  rewrite int_small by lia. cbn [res_bind]. unfold yearMonthDay.
  rewrite getYearMonthDay_Ok by lia. cbn [res_bind].
  destruct (ymd_of_jdn j ltac:(lia)) as (V & _ & E). pose proof (ymd_of_in_range j Hj) as R.
  cbv zeta in *. unfold weekDay, utc_of, Date_ymd, kDaysPerWeek.
  destruct (ymd_of j) as [y m d] eqn:Ed. cbn [year month day] in *.
  pose proof R as [R1 R2]. unfold min_year, max_year in R1, R2. cbn [year] in R1, R2.
  pose proof V as [V1 V2]. cbn [year month day] in *.
  rewrite !(int_small (y - 1900)), !(int_small (m - 1)), !(int_small (j + 1)) by lia. cbn [res_bind].
  rewrite Z.rem_mod_nonneg by lia. destruct yday; [|done].
  rewrite getJulianDayNumber_Ok by (done || lia). cbn [res_bind].
  pose proof (jdn_new_year y m d V1 V2) as Hy. rewrite E in Hy. rewrite int_small by lia. done.
Qed.

Lemma fromUtcTime_Ok y m d h mi sec :
  in_range (mkYMD y m d) -> valid_date (mkYMD y m d) ->
  0 <= h < 24 -> 0 <= mi < 60 -> 0 <= sec < 60 ->
  fromUtcTime y m d h mi sec = Ok ((jdn y m d - 2440588) * 86400 + (h * 3600 + mi * 60 + sec)).
Proof.
  intros R V Hh Hm Hs. unfold fromUtcTime, Date_ymd.
  pose proof (getJulianDayNumber_valid (mkYMD y m d) R V) as EJ. cbn [year month day] in EJ.
  rewrite EJ. cbn [res_bind]. clear EJ.
  pose proof (jdn_range _ R V) as J. cbn [year month day] in J. revert J. generalize (jdn y m d). intros j J.
  rewrite int_sum_fit by (cbn [sums_fit]; lia). cbn [res_bind fold_left].
  unfold kJulianDayOf1970_01_01, kSecondsPerDay.
  rewrite int_small by lia. cbn [res_bind]. rewrite int64_small by lia. f_equal; lia.
Qed.

(** Universal time.  For every second of the supported range, [toUtcTime]
    yields a valid Gregorian date and time of day with the right day of the
    week and (when asked) day of the year, and [fromUtcTime] gives the second
    back; and every valid date and time in the range is what [toUtcTime] gives
    for the second that [fromUtcTime] computes. *)
Theorem utc_roundtrip (t : Z) (yday : bool) (dt : YearMonthDay) (h mi sec : Z) :
  (utc_range t ->
   exists u, toUtcTime t yday = Ok u /\ fromUtcTime_tm u = Ok t /\
     valid_date (mkYMD (tm_year u + 1900) (tm_mon u + 1) (tm_mday u)) /\
     0 <= tm_hour u < 24 /\ 0 <= tm_min u < 60 /\ 0 <= tm_sec u < 60 /\
     tm_wday u = (t / 86400 + 4) mod 7 /\ 0 <= tm_yday u <= 365) /\
  (valid_date dt -> 0 <= h < 24 -> 0 <= mi < 60 -> 0 <= sec < 60 -> in_range dt ->
   exists t, fromUtcTime (year dt) (month dt) (day dt) h mi sec = Ok t /\
     (utc_range t -> exists u, toUtcTime t yday = Ok u /\
       mkYMD (tm_year u + 1900) (tm_mon u + 1) (tm_mday u) = dt /\
       tm_hour u = h /\ tm_min u = mi /\ tm_sec u = sec)).
Proof.
  split.
  - intros Ht. eexists. split; [by apply toUtcTime_Ok|]. unfold utc_range in Ht.
    pose proof (Z.mod_pos_bound t 86400 ltac:(lia)) as Hs.
    assert (Hj : 0 <= t / 86400 + 2440588 <= 534000000) by (Z.to_euclidean_division_equations; lia).
    set (j := t / 86400 + 2440588) in *.
    destruct (ymd_of_jdn j ltac:(lia)) as (V & _ & E). pose proof (ymd_of_in_range j Hj) as R.
    cbv zeta in *. unfold utc_of, fromUtcTime_tm. cbn [tm_year tm_mon tm_mday tm_hour tm_min tm_sec tm_wday tm_yday].
    destruct (ymd_of j) as [y m d]. cbn [year month day] in *.
    pose proof R as [R1 R2]. unfold min_year, max_year in R1, R2. cbn [year] in R1, R2.
    pose proof V as [V1 V2]. cbn [year month day] in V1, V2.
    replace (y - 1900 + 1900) with y by lia. replace (m - 1 + 1) with m by lia.
    rewrite (int_small y), (int_small m) by lia. cbn [res_bind].
    rewrite fromUtcTime_Ok by (done || (Z.to_euclidean_division_equations; lia)). rewrite E.
    split_and!; try done; try (Z.to_euclidean_division_equations; lia).
    + f_equal. subst j. Z.to_euclidean_division_equations; lia.
    + destruct yday; [|lia]. pose proof (jdn_new_year y m d V1 V2). lia.
    + destruct yday; [|lia]. pose proof (jdn_new_year y m d V1 V2). lia.
  - intros V Hh Hm Hs R. destruct dt as [y m d]. cbn [year month day].
    eexists. split; [by apply fromUtcTime_Ok|]. intros Ht.
    eexists. split; [by apply toUtcTime_Ok|].
    set (k := h * 3600 + mi * 60 + sec). assert (0 <= k < 86400) by lia.
    replace (((jdn y m d - 2440588) * 86400 + k) / 86400 + 2440588) with (jdn y m d)
      by (Z.to_euclidean_division_equations; lia).
    replace (((jdn y m d - 2440588) * 86400 + k) mod 86400) with k
      by (Z.to_euclidean_division_equations; lia).
    unfold utc_of. cbn [tm_year tm_mon tm_mday tm_hour tm_min tm_sec].
    destruct (jdn_ymd_of (mkYMD y m d) (proj1 R) V) as [E _]. cbn [year month day] in E. rewrite E.
    cbn [year month day]. subst k. split_and!; [f_equal; lia|..]; Z.to_euclidean_division_equations; lia.
Qed.

Lemma utc_roundtrip_witness :
  utc_range (-1) /\
  (exists u, toUtcTime (-1) true = Ok u /\ fromUtcTime_tm u = Ok (-1) /\ tm_wday u = 3) /\
  valid_date (mkYMD 2038 1 19) /\
  exists t, fromUtcTime 2038 1 19 3 14 7 = Ok t.
Proof.
  assert (R : utc_range (-1)) by (unfold utc_range; lia).
  assert (V : valid_date (mkYMD 2038 1 19)) by (vm_compute; repeat split; congruence).
  split; [exact R|]. split; [|split; [exact V|]].
  - destruct (proj1 (utc_roundtrip (-1) true (mkYMD 2038 1 19) 0 0 0) R)
      as (u & E & F & _ & _ & _ & _ & W & _).
    exists u. split; [exact E|]. split; [exact F|exact W].
  - destruct (proj2 (utc_roundtrip (-1) true (mkYMD 2038 1 19) 3 14 7) V
      ltac:(lia) ltac:(lia) ltac:(lia) ltac:(vm_compute; split; congruence)) as (t & E & _).
    exists t. exact E.
Defined.

(** ** The search *)

Lemma lower_bound_loop_spec {A} (less : A -> bool) (l : list A) fuel first len :
  (forall i j x y, (i <= j)%nat -> l !! i = Some x -> l !! j = Some y ->
     less y = true -> less x = true) ->
  (len < fuel)%nat -> (first + len <= length l)%nat ->
  (forall i x, l !! i = Some x -> (i < first)%nat -> less x = true) ->
  (forall i x, l !! i = Some x -> (first + len <= i)%nat -> less x = false) ->
  let k := lower_bound_loop less l fuel first len in
  (k <= length l)%nat /\ forall i x, l !! i = Some x -> less x = bool_decide (i < k)%nat.
Proof.
  intros Hp. revert first len. induction fuel as [|fuel IH]; intros first len Hf Hl Hlo Hhi; [lia|].
  cbn [lower_bound_loop]. destruct (Nat.eqb_spec len 0) as [->|Hn].
  { split; [lia|]. intros i x Hx. case_bool_decide; [eauto|]. eapply Hhi; [done|lia]. }
  assert (len / 2 < len)%nat by (apply Nat.div_lt; lia). set (half := (len / 2)%nat) in *.
  destruct (lookup_lt_is_Some_2 l (first + half)) as [m Hm]; [lia|]. rewrite Hm.
  destruct (less m) eqn:E.
  - apply IH; try lia.
    + intros i x Hx Hi. apply (Hp i (first + half)%nat x m); auto. lia.
    + intros i x Hx Hi. apply (Hhi i); [done|lia].
  - apply IH; try lia; [done|].
    intros i x Hx Hi. apply not_true_is_false. intros T.
    assert (less m = true); [|congruence]. eapply (Hp (first + half)%nat i); eauto.
Qed.

Lemma lower_bound_spec {A} (less : A -> bool) (l : list A) :
  (forall i j x y, (i <= j)%nat -> l !! i = Some x -> l !! j = Some y ->
     less y = true -> less x = true) ->
  (lower_bound less l <= length l)%nat /\
  forall i x, l !! i = Some x -> less x = bool_decide (i < lower_bound less l)%nat.
Proof.
  intros Hp. apply lower_bound_loop_spec; [done|lia|lia|intros; lia|].
  intros i x Hx Hi. apply lookup_lt_Some in Hx. lia.
Qed.

(** A zone as the reader leaves it: the transitions in order of the key that is
    compared, each naming one of the local time types. *)
Definition wf_zone (comp : bool) (data : Data) : Prop :=
  localtimes data <> [] /\
  Forall (fun t => 0 <= localtimeIdx t < zlen (localtimes data)) (transitiions data) /\
  forall i j x y, (i < j)%nat -> transitiions data !! i = Some x ->
    transitiions data !! j = Some y -> comp_key comp x < comp_key comp y.

Lemma at_lookup {A} (l : list A) (i : nat) x : l !! i = Some x -> at_ l (Z.of_nat i) = Ok x.
Proof.
  intros H. unfold at_. destruct (Z.ltb_spec (Z.of_nat i) 0); [lia|]. by rewrite Nat2Z.id, H.
Qed.

Lemma at_local comp data t : wf_zone comp data -> t ∈ transitiions data ->
  exists l, at_ (localtimes data) (localtimeIdx t) = Ok l /\
    localtimes data !! Z.to_nat (localtimeIdx t) = Some l.
Proof.
  intros (_ & F & _) Ht. rewrite Forall_forall in F. apply F in Ht. unfold zlen in Ht.
  destruct (lookup_lt_is_Some_2 (localtimes data) (Z.to_nat (localtimeIdx t))) as [l Hl]; [lia|].
  exists l. split; [|done]. unfold at_. destruct (Z.ltb_spec (localtimeIdx t) 0); [lia|]. by rewrite Hl.
Qed.

(** The local time type in force at [s]: that of the last transition not after
    [s], or the first type before any transition. *)
Definition in_force (comp : bool) (data : Data) (s : Z) (l : Localtime) : Prop :=
  (Forall (fun t => s < comp_key comp t) (transitiions data) /\ localtimes data !! 0%nat = Some l) \/
  (exists t1 t t2, transitiions data = t1 ++ t :: t2 /\ comp_key comp t <= s /\
     Forall (fun t => s < comp_key comp t) t2 /\
     localtimes data !! Z.to_nat (localtimeIdx t) = Some l).

(** The transition at index [i], when the next one is later than [s]. *)
Lemma in_force_at comp data s i t : wf_zone comp data ->
  transitiions data !! i = Some t -> comp_key comp t <= s ->
  (forall t', transitiions data !! S i = Some t' -> s < comp_key comp t') ->
  exists l, at_ (localtimes data) (localtimeIdx t) = Ok l /\ in_force comp data s l.
Proof.
  intros W Ht Hs Hn. pose proof (list_elem_of_lookup_2 _ _ _ Ht) as He.
  destruct (at_local comp data t W He) as (l & -> & Hl). exists l. split; [done|]. right.
  exists (take i (transitiions data)), t, (drop (S i) (transitiions data)).
  split; [by rewrite take_drop_middle|]. split; [done|]. split; [|done].
  rewrite Forall_lookup. intros j x Hx. rewrite lookup_drop in Hx.
  destruct (lookup_lt_is_Some_2 (transitiions data) (S i)) as [t' Ht'];
    [apply lookup_lt_Some in Hx; lia|].
  pose proof (Hn t' Ht'). destruct j as [|j].
  - rewrite Nat.add_0_r in Hx. congruence.
  - destruct W as (_ & _ & W). pose proof (W (S i) (S i + S j)%nat t' x ltac:(lia) Ht' Hx). lia.
Qed.

(** C33: [findLocaltime] finds the local time type in force.  On a zone whose
    transitions are in order and whose indices are in range, the search (by GMT
    or by local time) ends without failing its assertion or reading outside its
    vectors, with the type of the last transition not later than the given
    time, or the first type when there is none. *)
Theorem findLocaltime_in_force (comp : bool) (data : Data) (sentry : Transition) :
  wf_zone comp data ->
  exists l, findLocaltime data sentry comp = Ok l /\ in_force comp data (comp_key comp sentry) l.
Proof.
  intros W. set (s := comp_key comp sentry).
  assert (H0 : exists l0, at_ (localtimes data) 0 = Ok l0 /\ localtimes data !! 0%nat = Some l0).
  { destruct W as (W & _). destruct (localtimes data) as [|l0 ls]; [done|]. by exists l0. }
  unfold findLocaltime. destruct (transitiions data) as [|front ts] eqn:El.
  { destruct H0 as (l0 & -> & H0). exists l0. split; [done|]. left. rewrite El. done. }
  unfold Comp_less, Comp_equal. fold s. destruct (Z.ltb_spec s (comp_key comp front)) as [Hf|Hf].
  { destruct H0 as (l0 & -> & H0). exists l0. split; [done|]. left. split; [|done].
    rewrite Forall_lookup. intros [|i] x Hx; rewrite El in Hx; [injection Hx as <-; done|].
    destruct W as (_ & _ & W). rewrite El in W.
    pose proof (W 0%nat (S i) front x ltac:(lia) eq_refl Hx). lia. }
  rewrite <-El. set (less := fun t => comp_key comp t <? s).
  destruct (lower_bound_spec less (transitiions data)) as [Hk Hb].
  { intros i j x y Hij Hx Hy Hl. subst less. cbv beta in *.
    destruct (decide (i = j)) as [->|]; [congruence|].
    destruct W as (_ & _ & W). pose proof (W i j x y ltac:(lia) Hx Hy). lia. }
  set (k := lower_bound less (transitiions data)) in *. subst less. cbv beta in Hb.
  assert (Hprev : k <> 0%nat -> transitiions data !! k = None \/
             (exists t, transitiions data !! k = Some t /\ s < comp_key comp t) ->
             exists t, at_ (transitiions data) (Z.of_nat k - 1) = Ok t /\
               exists l, at_ (localtimes data) (localtimeIdx t) = Ok l /\ in_force comp data s l).
  { intros Hk0 Hnext. destruct (lookup_lt_is_Some_2 (transitiions data) (k - 1)) as [t Ht]; [lia|].
    exists t. split; [replace (Z.of_nat k - 1) with (Z.of_nat (k - 1)) by lia; by apply at_lookup|].
    apply (in_force_at comp data s (k - 1)); try done.
    - pose proof (Hb _ _ Ht) as B. case_bool_decide; [lia|lia].
    - replace (S (k - 1)) with k by lia. intros t' Ht'.
      destruct Hnext as [?|(? & ? & ?)]; congruence. }
  destruct (transitiions data !! k) as [t|] eqn:Et.
  - pose proof (Hb _ _ Et) as B. rewrite bool_decide_eq_false_2 in B by lia.
    destruct (Z.eqb_spec s (comp_key comp t)) as [E|Hne].
    + apply (in_force_at comp data s k); [done..|lia|].
      intros t' Ht'. destruct W as (_ & _ & W).
      pose proof (W k (S k) t t' ltac:(lia) Et Ht'). lia.
    + assert (k <> 0%nat) as Hk0 by (intros E; rewrite E, El in Et; injection Et as <-; lia).
      destruct (Nat.eqb_spec k 0); [done|]. cbn [negb assert_ res_bind].
      destruct Hprev as (t' & -> & l & Hl & Hi); [done| |by exists l].
      right. exists t. split; [done|lia].
  - apply lookup_ge_None in Et.
    assert (zlen (transitiions data) = Z.of_nat k) as -> by (unfold zlen; lia).
    destruct Hprev as (t' & -> & l & Hl & Hi); [|by left|by exists l].
    intros E. rewrite E, El in Et. simpl in Et. lia.
Qed.

Definition ex_zone : Data :=
  mkData [mkTransition 100 3700 1; mkTransition 5000 5000 0] [mkLocaltime 0 false 0; mkLocaltime 3600 true 4]
         (bs "GMT").

Lemma findLocaltime_in_force_witness :
  wf_zone true ex_zone /\
  exists l, findLocaltime ex_zone (mkTransition 4999 0 0) true = Ok l /\
    in_force true ex_zone 4999 l.
Proof.
  assert (W : wf_zone true ex_zone).
  { split; [discriminate|]. split.
    - repeat constructor; vm_compute; congruence.
    - intros [|[|i]] [|[|j]] x y Hij Hx Hy; try lia; cbn in Hx, Hy; try discriminate.
      injection Hx as <-. injection Hy as <-. reflexivity. }
  split; [exact W|]. exact (findLocaltime_in_force true ex_zone (mkTransition 4999 0 0) W).
Defined.

(** ** Zone files *)

(** The format [readTimeZoneFile] reads: a header of 44 bytes, the transition
    times, their type indices, the types, the abbreviations. *)
Definition int32_bytes (x : Z) : bytes := be_bytes 4 x.
Definition type_bytes (l : Localtime) : bytes :=
  int32_bytes (gmtOffset l) ++ [if isDst l then x01 else x00; Z_byte (arrbIdx l)].
Definition tzif (version : byte) (reserved isgmt isstd leap : bytes)
    (trans : list (Z * Z)) (types : list Localtime) (abbrev rest : bytes) : bytes :=
  bs "TZif" ++ [version] ++ reserved ++ isgmt ++ isstd ++ leap ++
  int32_bytes (zlen trans) ++ int32_bytes (zlen types) ++ int32_bytes (zlen abbrev) ++
  concat (map (fun p => int32_bytes p.1) trans) ++ map (fun p => Z_byte p.2) trans ++
  concat (map type_bytes types) ++ abbrev ++ rest.

Definition int32_range (x : Z) : Prop := - 2 ^ 31 <= x < 2 ^ 31.

Lemma readInt32_bytes x f : int32_range x -> readInt32 (int32_bytes x ++ f) = Ok (x, f).
Proof.
  intros Hx. unfold readInt32, int32_bytes.
  assert (zlen (be_bytes 4 x) = 4) as L by apply zlen_be_bytes.
  destruct (Z.ltb_spec (zlen (be_bytes 4 x ++ f)) 4); [zlia|].
  rewrite ztake_app_exact, zdrop_app_exact by done. do 2 f_equal.
  unfold networkToHost32. rewrite networkToHost_value by (unfold zlen in L; lia).
  rewrite be_value_bytes. change (256 ^ Z.of_nat 4) with (2 ^ 32).
  unfold s32, to_signed. rewrite Zplus_mod_idemp_l. by apply s32_small.
Qed.

Lemma readInt32_any b f : zlen b = 4 -> exists x, readInt32 (b ++ f) = Ok (x, f).
Proof.
  intros L. unfold readInt32. destruct (Z.ltb_spec (zlen (b ++ f)) 4); [zlia|].
  rewrite zdrop_app_exact by done. eauto.
Qed.

Lemma readBytes_app n a f : n = zlen a -> readBytes n (a ++ f) = Ok (a, f).
Proof.
  intros ->. unfold readBytes. destruct (Z.leb_spec (zlen a) 0).
  - pose proof (zlen_nonneg a). rewrite (proj2 (Z.eqb_eq _ _)) by lia.
    by rewrite (zlen_0_nil a) by lia.
  - destruct (Z.ltb_spec (zlen (a ++ f)) (zlen a)); [zlia|].
    by rewrite ztake_app_exact, zdrop_app_exact.
Qed.

Lemma readUInt8_cons x f : 0 <= x < 256 -> readUInt8 (Z_byte x :: f) = Ok (x, f).
Proof. intros Hx. cbn. by rewrite byte_Z_byte, Z.mod_small. Qed.

Lemma read_n_int32 l f : Forall int32_range l ->
  read_n readInt32 (length l) (concat (map int32_bytes l) ++ f) = Ok (l, f).
Proof.
  induction 1 as [|x l Hx _ IH]; cbn [length read_n map concat]; [done|].
  rewrite <-app_assoc, readInt32_bytes by done. cbn [res_bind]. by rewrite IH.
Qed.

Lemma read_n_uint8 l f : Forall (fun x => 0 <= x < 256) l ->
  read_n readUInt8 (length l) (map Z_byte l ++ f) = Ok (l, f).
Proof.
  induction 1 as [|x l Hx _ IH]; [done|].
  cbn [length read_n map app]. rewrite readUInt8_cons by done. cbn [res_bind]. by rewrite IH.
Qed.

Definition type_range (l : Localtime) : Prop :=
  int32_range (gmtOffset l) /\ 0 <= arrbIdx l < 256.

Lemma read_types_bytes types f data : Forall type_range types ->
  read_types (length types) (concat (map type_bytes types) ++ f) data =
    (mkData (transitiions data) (localtimes data ++ types) (abbreviation data), Ok f).
Proof.
  intros H. revert data. induction H as [|l types [H1 H2] _ IH]; intros data.
  - cbn. rewrite app_nil_r. by destruct data.
  - cbn [length read_types map concat]. unfold type_bytes. rewrite <-!app_assoc.
    rewrite readInt32_bytes by done. cbn [res_bind app readUInt8].
    rewrite byte_Z_byte, Z.mod_small by done. rewrite IH. unfold push_localtime. cbn.
    rewrite <-app_assoc. do 4 f_equal. destruct l as [o d i]. cbn. by destruct d.
Qed.

Definition transition_of (types : list Localtime) (p : Z * Z) : option Transition :=
  l ← types !! Z.to_nat p.2; Some (mkTransition p.1 (p.1 + gmtOffset l) p.2).

Lemma build_transitions_ok trans data :
  Forall (fun p => 0 <= p.2 < zlen (localtimes data)) trans ->
  build_transitions (map fst trans) (map snd trans) data =
    (mkData (transitiions data ++ omap (transition_of (localtimes data)) trans)
            (localtimes data) (abbreviation data), Ok tt).
Proof.
  intros H. revert data H. induction trans as [|[t i] trans IH]; intros data H.
  - cbn. rewrite app_nil_r. by destruct data.
  - apply Forall_cons_1 in H as [Hi H]. cbn [map fst snd build_transitions] in *.
    unfold zlen in Hi. destruct (lookup_lt_is_Some_2 (localtimes data) (Z.to_nat i)) as [l Hl]; [lia|].
    rewrite Hl, IH by done. cbn [omap list_omap push_transition transitiions localtimes abbreviation].
    unfold transition_of at 2. cbn [fst snd]. rewrite Hl. cbn [mbind option_bind]. by rewrite <-app_assoc.
Qed.

Ltac skip_int32 L :=
  match goal with
  | |- context [readInt32 (?b ++ ?f)] =>
      destruct (readInt32_any b f L) as [? ->]; cbn [res_bind]
  end.

Lemma read_header_bytes version reserved isgmt isstd leap a b c f :
  zlen reserved = 15 -> zlen isgmt = 4 -> zlen isstd = 4 -> zlen leap = 4 ->
  int32_range a -> int32_range b -> int32_range c ->
  read_header (bs "TZif" ++ [version] ++ reserved ++ isgmt ++ isstd ++ leap ++
    int32_bytes a ++ int32_bytes b ++ int32_bytes c ++ f) = Ok (a, b, c, f).
Proof.
  intros L1 L2 L3 L4 Ha Hb Hc. unfold read_header.
  rewrite (readBytes_app 4 (bs "TZif")) by done. cbn [res_bind].
  rewrite (proj2 (bytes_eqb_true _ _) eq_refl). cbn [negb].
  rewrite (readBytes_app 1 [version]) by done. cbn [res_bind].
  rewrite readBytes_app by done. cbn [res_bind].
  skip_int32 L2. skip_int32 L3. skip_int32 L4.
  do 3 (rewrite readInt32_bytes by done; cbn [res_bind]). done.
Qed.

Lemma read_zone_tzif version reserved isgmt isstd leap trans types abbrev rest :
  zlen reserved = 15 -> zlen isgmt = 4 -> zlen isstd = 4 -> zlen leap = 4 ->
  zlen trans < 2 ^ 31 -> zlen types < 2 ^ 31 -> zlen abbrev < 2 ^ 31 ->
  Forall (fun p => int32_range p.1 /\ 0 <= p.2 < 256 /\ p.2 < zlen types) trans ->
  Forall type_range types ->
  read_zone (tzif version reserved isgmt isstd leap trans types abbrev rest) Data_new =
    (mkData (omap (transition_of types) trans) types abbrev, Ok tt).
Proof.
  intros L1 L2 L3 L4 B1 B2 B3 Ht Hty.
  pose proof (zlen_nonneg trans). pose proof (zlen_nonneg types). pose proof (zlen_nonneg abbrev).
  unfold read_zone, tzif. rewrite read_header_bytes by (done || unfold int32_range; lia).
  cbn [res_bind]. destruct (Z.ltb_spec (zlen trans) 0); [lia|].
  assert (N : Z.to_nat (zlen trans) = length (map fst trans)).
  { rewrite length_map. unfold zlen. apply Nat2Z.id. }
  rewrite N, <-(map_map fst int32_bytes), read_n_int32
    by (rewrite Forall_map; eapply Forall_impl; [exact Ht|]; by intros ? (? & ? & ?)). cbn [res_bind].
  rewrite <-N. clear N. assert (N : Z.to_nat (zlen trans) = length (map snd trans)).
  { rewrite length_map. unfold zlen. apply Nat2Z.id. }
  rewrite N, <-(map_map snd Z_byte), read_n_uint8
    by (rewrite Forall_map; eapply Forall_impl; [exact Ht|]; by intros ? (? & ? & ?)). cbn [res_bind].
  assert (Z.to_nat (zlen types) = length types) as -> by apply Nat2Z.id.
  rewrite read_types_bytes by done. cbn [app].
  rewrite build_transitions_ok by (eapply Forall_impl; [exact Ht|]; cbn; intros ? (? & ? & ?); lia).
  cbn [transitiions localtimes abbreviation app]. by rewrite readBytes_app.
Qed.

(** C39: zone files.  The reader recovers what a zone file holds: every
    transition with its local time and type, the types and the abbreviations.
    When the file cannot be opened or does not begin with TZif, it reports
    success all the same, and the time zone it leaves counts as valid although
    no conversion to local time can use it: the search indexes an empty
    vector. *)
Theorem readTimeZoneFile_content version reserved isgmt isstd leap trans types abbrev rest :
  zlen reserved = 15 -> zlen isgmt = 4 -> zlen isstd = 4 -> zlen leap = 4 ->
  zlen trans < 2 ^ 31 -> zlen types < 2 ^ 31 -> zlen abbrev < 2 ^ 31 ->
  Forall (fun p => int32_range p.1 /\ 0 <= p.2 < 256 /\ p.2 < zlen types) trans ->
  Forall type_range types ->
  readTimeZoneFile (Some (tzif version reserved isgmt isstd leap trans types abbrev rest)) Data_new =
    Ok (true, mkData (omap (transition_of types) trans) types abbrev) /\
  forall f gmtime t, (forall l, f = Some l -> take 4 l <> bs "TZif") ->
    exists tz, TimeZone_file f = Ok tz /\ valid tz = true /\
      toLocalTime gmtime tz t = Err EUndefined.
Proof.
  intros L1 L2 L3 L4 B1 B2 B3 Ht Hty. split.
  - unfold readTimeZoneFile. by rewrite read_zone_tzif.
  - intros f gmtime t Hf. exists (Some Data_new). split; [|by split].
    unfold TimeZone_file, readTimeZoneFile. destruct f as [l|]; [|done].
    unfold read_zone, read_header, readBytes. cbn [Z.leb Z.compare].
    destruct (zlen l <? 4); [done|]. cbn [res_bind].
    rewrite (proj2 (bytes_eqb_false _ _)); [done|]. apply (Hf l eq_refl).
Qed.

Lemma readTimeZoneFile_content_witness :
  let trans := [(-100, 1); (2000, 0)] in
  let types := [mkLocaltime 3600 false 0; mkLocaltime 7200 true 4] in
  let abbrev := bs "CET" ++ [x00] ++ bs "CEST" ++ [x00] in
  let z4 := [x00; x00; x00; x00] in
  readTimeZoneFile (Some (tzif x32 (replicate 15 x00) z4 z4 z4 trans types abbrev [])) Data_new =
    Ok (true, mkData [mkTransition (-100) 7100 1; mkTransition 2000 5600 0] types abbrev) /\
  exists tz, TimeZone_file (Some (bs "TZiX")) = Ok tz /\ valid tz = true /\
    toLocalTime (fun _ => tm_zero) tz 0 = Err EUndefined.
Proof.
  intros trans types abbrev z4.
  assert (H1 : Forall (fun p => int32_range p.1 /\ 0 <= p.2 < 256 /\ p.2 < zlen types) trans)
    by (repeat constructor; vm_compute; congruence).
  assert (H2 : Forall type_range types) by (repeat constructor; vm_compute; congruence).
  pose proof (readTimeZoneFile_content x32 (replicate 15 x00) z4 z4 z4 trans types abbrev []
    eq_refl eq_refl eq_refl eq_refl eq_refl eq_refl eq_refl H1 H2) as [E F].
  split; [exact E|].
  exact (F (Some (bs "TZiX")) (fun _ => tm_zero) 0 ltac:(intros l [= <-]; discriminate)).
Defined.
