(* ===== verification/TimerQueue.v ===== *)
(** * Timers (cnet/net/Timer.h, Timer.cc, TimerId.h, TimerQueue.h, TimerQueue.cc)

    The timer queue as its event loop's thread runs it: the two ordered sets,
    the timers on the heap that their pointers denote, and the expiration the
    timerfd was last armed for.  A pointer is its address; an address freed by
    [delete] may be given out again by [new], which is why a [TimerId] carries a
    sequence number. *)

From stdpp Require Import gmap.
From S2P Require Import Prelude StdMap Timestamp.

(** [interval_] is kept as the microseconds [addTime] makes of the double, and
    [repeat_] as what the constructor computed from it. *)
Record Timer := mkTimer {
  callback_ : Z;
  expiration_ : Timestamp;
  interval_ : Z;
  repeat_ : bool;
  sequence_ : Z;
}.

(** [Timer::restart] *)
Definition restart (t : Timer) (now : Timestamp) : res Timer :=
  let* e := (if repeat_ t then addTime now (interval_ t) else Ok invalid) in
  Ok (mkTimer (callback_ t) e (interval_ t) (repeat_ t) (sequence_ t)).

Definition UINTPTR_MAX : Z := 2 ^ 64 - 1.

(** [TimerId] and [ActiveTimer]: pointer and sequence; [Entry]: expiration and
    pointer. *)
Abbreviation TimerId := (Z * Z)%type.
Abbreviation ActiveTimer := (Z * Z)%type.
Abbreviation Entry := (Z * Z)%type.

Record TimerQueue := mkTQ {
  heap : gmap Z Timer;
  timers_ : list Entry;
  activeTimers_ : list ActiveTimer;
  callingExpiredTimers_ : bool;
  cancelingTimers_ : list ActiveTimer;
  s_numCreated_ : Z;
  timerfd_ : option Timestamp;     (* armed for this expiration *)
}.

Definition TimerQueue_new : TimerQueue := mkTQ ∅ [] [] false [] 0 None.

Definition set_heap (q : TimerQueue) h :=
  mkTQ h (timers_ q) (activeTimers_ q) (callingExpiredTimers_ q) (cancelingTimers_ q)
       (s_numCreated_ q) (timerfd_ q).
Definition set_sets (q : TimerQueue) ts act :=
  mkTQ (heap q) ts act (callingExpiredTimers_ q) (cancelingTimers_ q) (s_numCreated_ q) (timerfd_ q).
Definition set_calling (q : TimerQueue) b c :=
  mkTQ (heap q) (timers_ q) (activeTimers_ q) b c (s_numCreated_ q) (timerfd_ q).

(** [howMuchTimeFromNow]: (tv_sec, tv_nsec). *)
Definition howMuchTimeFromNow (when now : Timestamp) : res (Z * Z) :=
  let* microseconds := int64_ (when - now) in
  let microseconds := if microseconds <? 100 then 100 else microseconds in
  Ok (microseconds ÷ kMicroSecondsPerSecond,
      Z.rem microseconds kMicroSecondsPerSecond * 1000).

Definition resetTimerfd (q : TimerQueue) (expiration : Timestamp) : TimerQueue :=
  mkTQ (heap q) (timers_ q) (activeTimers_ q) (callingExpiredTimers_ q) (cancelingTimers_ q)
       (s_numCreated_ q) (Some expiration).
(** [readTimerfd]: the alarm is one-shot. *)
Definition readTimerfd (q : TimerQueue) : TimerQueue :=
  mkTQ (heap q) (timers_ q) (activeTimers_ q) (callingExpiredTimers_ q) (cancelingTimers_ q)
       (s_numCreated_ q) None.

(** [timer->...]: reads through a pointer. *)
Definition deref (q : TimerQueue) (timer : Z) : res Timer :=
  match heap q !! timer with Some t => Ok t | None => Err EUndefined end.
Definition delete_ (q : TimerQueue) (timer : Z) : TimerQueue :=
  set_heap q (delete timer (heap q)).

(** [new Timer(cb, when, interval)] at the address the allocator chose. *)
Definition new_timer (q : TimerQueue) (addr cb : Z) (when : Timestamp) (interval : Z) (rep : bool)
  : TimerQueue :=
  let seq := s_numCreated_ q + 1 in
  mkTQ (<[addr := mkTimer cb when interval rep seq]> (heap q)) (timers_ q) (activeTimers_ q)
       (callingExpiredTimers_ q) (cancelingTimers_ q) seq (timerfd_ q).

Definition same_size (q : TimerQueue) : bool := zlen (timers_ q) =? zlen (activeTimers_ q).

Definition insert (q : TimerQueue) (timer : Z) : res (bool * TimerQueue) :=
  assert! same_size q;
  let* t := deref q timer in
  let when := expiration_ t in
  let earliestChanged :=
    match timers_ q with [] => true | e :: _ => timestamp_ltb when e.1 end in
  let (ts, fresh) := set_insert (when, timer) (timers_ q) in
  assert! fresh;
  let (act, fresh) := set_insert (timer, sequence_ t) (activeTimers_ q) in
  assert! fresh;
  let q := set_sets q ts act in
  assert! same_size q;
  Ok (earliestChanged, q).

Definition addTimerInLoop (q : TimerQueue) (timer : Z) : res TimerQueue :=
  let* (earliestChanged, q) := insert q timer in
  if earliestChanged then
    let* t := deref q timer in Ok (resetTimerfd q (expiration_ t))
  else Ok q.

(** [addTiemr] on the loop's thread, where [runInLoop] calls the functor. *)
Definition addTiemr (q : TimerQueue) (addr cb : Z) (when : Timestamp) (interval : Z) (rep : bool)
  : res (TimerId * TimerQueue) :=
  let q := new_timer q addr cb when interval rep in
  let* q' := addTimerInLoop q addr in
  Ok ((addr, s_numCreated_ q), q').

Definition cancelInLoop (q : TimerQueue) (timerId : TimerId) : res TimerQueue :=
  assert! same_size q;
  let* q :=
    (if set_mem timerId (activeTimers_ q) then
       let* t := deref q timerId.1 in
       let (ts, n) := set_erase (expiration_ t, timerId.1) (timers_ q) in
       assert! n =? 1;
       Ok (set_sets (delete_ q timerId.1) ts (set_erase timerId (activeTimers_ q)).1)
     else if callingExpiredTimers_ q then
       Ok (set_calling q (callingExpiredTimers_ q) (set_insert timerId (cancelingTimers_ q)).1)
     else Ok q) in
  assert! same_size q;
  Ok q.

(** The loop of [getExpired] over the expired entries. *)
Definition erase_active (act : TimerQueue * list ActiveTimer) (e : Entry)
  : res (TimerQueue * list ActiveTimer) :=
  let* t := deref act.1 e.2 in
  let (a, n) := set_erase (e.2, sequence_ t) act.2 in
  assert! n =? 1;
  Ok (act.1, a).

Definition getExpired (q : TimerQueue) (now : Timestamp) : res (list Entry * TimerQueue) :=
  assert! same_size q;
  let (expired, rest) := set_lower_bound (now, UINTPTR_MAX) (timers_ q) in
  assert! match rest with [] => true | e :: _ => timestamp_ltb now e.1 end;
  let* (_, act) := res_foldl erase_active (q, activeTimers_ q) expired in
  let q := set_sets q rest act in
  assert! same_size q;
  Ok (expired, q).

(** One turn of the loop of [reset]. *)
Definition reset_one (now : Timestamp) (q : TimerQueue) (e : Entry) : res TimerQueue :=
  let* t := deref q e.2 in
  if repeat_ t && negb (set_mem (e.2, sequence_ t) (cancelingTimers_ q)) then
    let* t := restart t now in
    let* (_, q) := insert (set_heap q (<[e.2 := t]> (heap q))) e.2 in
    Ok q
  else Ok (delete_ q e.2).

Definition reset (q : TimerQueue) (expired : list Entry) (now : Timestamp) : res TimerQueue :=
  let* q := res_foldl (reset_one now) q expired in
  let* nextExpire :=
    match timers_ q with
    | [] => Ok Timestamp_new
    | e :: _ => let* t := deref q e.2 in Ok (expiration_ t)
    end in
  Ok (if valid nextExpire then resetTimerfd q nextExpire else q).

(** What a timer callback may do to the queue. *)
Inductive action : Type :=
| ActAdd (addr cb : Z) (when : Timestamp) (interval : Z) (rep : bool)
| ActCancel (timerId : TimerId).

Definition act (q : TimerQueue) (a : action) : res TimerQueue :=
  match a with
  | ActAdd addr cb when interval rep =>
      let* (_, q) := addTiemr q addr cb when interval rep in Ok q
  | ActCancel timerId => cancelInLoop q timerId
  end.

Section handleRead.
(** The callbacks: what the callback [cb] does when it is called. *)
Variable run : Z -> TimerQueue -> list action.

(** The loop over the expired timers; the trace lists each callback that ran
    with what it did. *)
Fixpoint run_expired (q : TimerQueue) (expired : list Entry)
  : res (list (Z * list action) * TimerQueue) :=
  match expired with
  | [] => Ok ([], q)
  | e :: expired' =>
      let* t := deref q e.2 in
      let acts := run (callback_ t) q in
      let* q := res_foldl act q acts in
      let* (tr, q) := run_expired q expired' in
      Ok ((callback_ t, acts) :: tr, q)
  end.

Definition handleRead (q : TimerQueue) (now : Timestamp)
  : res (list (Z * list action) * TimerQueue) :=
  let q := readTimerfd q in
  let* (expired, q) := getExpired q now in
  let q := set_calling q true [] in
  let* (tr, q) := run_expired q expired in
  let q := set_calling q false (cancelingTimers_ q) in
  let* q := reset q expired now in
  Ok (tr, q).
End handleRead.

(** ** The invariant *)

(** A timer's interval is that of a positive delay of [runEvery], small enough
    for the next expiration to be representable; expirations are valid times. *)
Definition sane (t : Timer) : Prop :=
  0 < expiration_ t /\ 0 <= interval_ t < 2 ^ 62.

(** The two sets hold the same timers, which are alive, each under its own
    expiration and its own sequence number. *)
Record wf (q : TimerQueue) : Prop := mkWf {
  wf_timers : ordered (timers_ q);
  wf_active : ordered (activeTimers_ q);
  wf_canceling : ordered (cancelingTimers_ q);
  wf_same : forall w p, (w, p) ∈ timers_ q <->
    exists t, heap q !! p = Some t /\ expiration_ t = w /\ (p, sequence_ t) ∈ activeTimers_ q;
  wf_alive : forall p s, (p, s) ∈ activeTimers_ q ->
    exists t, heap q !! p = Some t /\ sequence_ t = s;
  wf_addr : forall p t, heap q !! p = Some t -> 0 < p < UINTPTR_MAX /\ sane t;
}.

(** The alarm is never later than the earliest timer. *)
Definition armed (q : TimerQueue) : Prop :=
  timers_ q = [] \/ exists w, timerfd_ q = Some w /\ forall e, e ∈ timers_ q -> w <= e.1.

(** [timer] is allocated and in neither set. *)
Definition detached (q : TimerQueue) (p : Z) : Prop :=
  exists t, heap q !! p = Some t /\ (p, sequence_ t) ∉ activeTimers_ q.

Lemma timers_fun q w w' p : wf q -> (w, p) ∈ timers_ q -> (w', p) ∈ timers_ q -> w = w'.
Proof.
  intros W H H'. apply (wf_same q W) in H as (t & Ht & <- & _), H' as (t' & Ht' & <- & _). congruence.
Qed.

Lemma timers_NoDup q : wf q -> NoDup (timers_ q).*2.
Proof.
  intros W. apply NoDup_fmap_2_strong; [|apply ordered_NoDup, W].
  intros [w p] [w' p'] H H' E. cbn in E. subst p'. f_equal. by eapply timers_fun.
Qed.

Lemma active_NoDup q : wf q -> NoDup (activeTimers_ q).*1.
Proof.
  intros W. apply NoDup_fmap_2_strong; [|apply ordered_NoDup, W].
  intros [p s] [p' s'] H H' E. cbn in E. subst p'. f_equal.
  apply (wf_alive q W) in H as (t & Ht & <-), H' as (t' & Ht' & <-). congruence.
Qed.

Lemma wf_size q : wf q -> same_size q = true.
Proof.
  intros W. unfold same_size. apply Z.eqb_eq. unfold zlen. f_equal.
  transitivity (length (timers_ q).*2); [by rewrite length_fmap|].
  transitivity (length (activeTimers_ q).*1); [|by rewrite length_fmap].
  apply Permutation_length, NoDup_Permutation; [by apply timers_NoDup|by apply active_NoDup|].
  intros p. rewrite !list_elem_of_fmap. split.
  - intros ([w p'] & -> & H). apply (wf_same q W) in H as (t & _ & _ & H). by exists (p', sequence_ t).
  - intros ([p' s'] & -> & H). pose proof H as H'.
    apply (wf_alive q W) in H as (t & Ht & <-). exists (expiration_ t, p').
    split; [done|]. apply (wf_same q W). eauto.
Qed.

Lemma checked_size {A} q (k : res A) : wf q -> (assert! same_size q; k) = k.
Proof. intros W. by rewrite (wf_size q W). Qed.

Lemma detached_not_timer q p : wf q -> detached q p -> (forall w, (w, p) ∉ timers_ q) /\
  forall s, (p, s) ∉ activeTimers_ q.
Proof.
  intros W (t & Ht & Hn). split.
  - intros w H. apply (wf_same q W) in H as (t' & Ht' & _ & H). congruence.
  - intros s' H. pose proof H as H'. apply (wf_alive q W) in H as (t' & Ht' & <-). congruence.
Qed.

Lemma insert_spec q p t : wf q -> heap q !! p = Some t -> (p, sequence_ t) ∉ activeTimers_ q ->
  exists ts a, insert q p = Ok (match timers_ q with [] => true | e :: _ => expiration_ t <? e.1 end,
                                 set_sets q ts a) /\
    wf (set_sets q ts a) /\
    (forall e, e ∈ ts <-> e = (expiration_ t, p) \/ e ∈ timers_ q) /\
    (forall x, x ∈ a <-> x = (p, sequence_ t) \/ x ∈ activeTimers_ q).
Proof.
  intros W Ht Hn. destruct (detached_not_timer q p W ltac:(by exists t)) as [N1 N2].
  exists (set_insert (expiration_ t, p) (timers_ q)).1, (set_insert (p, sequence_ t) (activeTimers_ q)).1.
  assert (W' : wf (set_sets q (set_insert (expiration_ t, p) (timers_ q)).1
                            (set_insert (p, sequence_ t) (activeTimers_ q)).1)).
  { constructor; cbn [set_sets timers_ activeTimers_ cancelingTimers_ heap].
    - apply set_insert_ordered, W.
    - apply set_insert_ordered, W.
    - apply W.
    - intros w p'. rewrite set_insert_elem, (wf_same q W) by apply W. split.
      + intros [[= -> ->]|(t' & H1 & H2 & H3)].
        * exists t. rewrite set_insert_elem by apply W. auto.
        * exists t'. rewrite set_insert_elem by apply W. auto.
      + intros (t' & H1 & H2 & H3). apply set_insert_elem in H3 as [[= -> _]|H3]; [|by right; eauto|apply W].
        left. congruence.
    - intros p' s' [[= -> ->]|H]%set_insert_elem; [eauto|by apply W|apply W].
    - apply W. }
  split; [|split; [done|]; split; intros; apply set_insert_elem, W].
  unfold insert. rewrite (wf_size q W). cbn [assert_ res_bind].
  unfold deref. rewrite Ht. cbn [res_bind]. cbv zeta.
  pose proof (set_insert_fresh (expiration_ t, p) _ (wf_timers q W)) as F1.
  pose proof (set_insert_fresh (p, sequence_ t) _ (wf_active q W)) as F2.
  destruct (set_insert (expiration_ t, p) (timers_ q)) as [ts b1] eqn:E1.
  destruct (set_insert (p, sequence_ t) (activeTimers_ q)) as [a b2] eqn:E2. cbn [fst snd] in *.
  rewrite F1, F2.
  rewrite !set_mem_false by (apply N1 || apply N2 || apply W).
  cbn [negb assert_ res_bind]. rewrite (wf_size _ W'). done.
Qed.

Lemma ordered_head_le (w p : Z) (l : list (Z * Z)) e : ordered ((w, p) :: l) -> e ∈ (w, p) :: l -> w <= e.1.
Proof.
  intros O [->|H]%elem_of_cons; [done|]. pose proof (ordered_head _ _ _ O H) as L. cbn in L. lia.
Qed.

Lemma addTimerInLoop_spec q p t : wf q -> heap q !! p = Some t -> (p, sequence_ t) ∉ activeTimers_ q ->
  exists q', addTimerInLoop q p = Ok q' /\ wf q' /\ heap q' = heap q /\
    (forall e, e ∈ timers_ q' <-> e = (expiration_ t, p) \/ e ∈ timers_ q) /\
    (forall x, x ∈ activeTimers_ q' <-> x = (p, sequence_ t) \/ x ∈ activeTimers_ q) /\
    cancelingTimers_ q' = cancelingTimers_ q /\ callingExpiredTimers_ q' = callingExpiredTimers_ q /\
    s_numCreated_ q' = s_numCreated_ q /\ (armed q -> armed q').
Proof.
  intros W Ht Hn. destruct (insert_spec q p t W Ht Hn) as (ts & a & E & W' & H1 & H2).
  unfold addTimerInLoop. rewrite E. cbn [res_bind].
  destruct (match timers_ q with [] => true | e :: _ => expiration_ t <? e.1 end) eqn:Ee.
  - unfold deref. cbn [set_sets heap]. rewrite Ht. cbn [res_bind].
    eexists. split; [reflexivity|]. cbn. split; [destruct W'; by constructor|].
    split_and!; try done. intros _. right. exists (expiration_ t). split; [done|]. cbn.
    intros e [->|H]%H1; [done|]. pose proof (wf_timers q W) as O. destruct (timers_ q) as [|[w0 p0] l].
    + by apply not_elem_of_nil in H.
    + apply Z.ltb_lt in Ee. cbn in Ee. pose proof (ordered_head_le _ _ _ _ O H). lia.
  - eexists. split; [reflexivity|]. split_and!; try done.
    intros A. right. destruct (timers_ q) as [|[w0 p0] l] eqn:El; [done|].
    destruct A as [A|(w & Hw & A)]; [congruence|]. exists w. split; [done|].
    apply Z.ltb_ge in Ee. cbn in Ee. pose proof (A (w0, p0) ltac:(rewrite El; left)) as A0. cbn in A0.
    cbn. intros e [->|H]%H1; [cbn; lia|]. apply A. by rewrite El.
Qed.

Lemma cancelInLoop_spec q p s : wf q ->
  exists q', cancelInLoop q (p, s) = Ok q' /\ wf q' /\
    (forall x, x ∈ activeTimers_ q' <-> x <> (p, s) /\ x ∈ activeTimers_ q) /\
    (forall e, e ∈ timers_ q' -> e ∈ timers_ q) /\
    (forall p', p' <> p \/ (p, s) ∉ activeTimers_ q -> heap q' !! p' = heap q !! p') /\
    ((p, s) ∈ activeTimers_ q -> heap q' !! p = None /\ cancelingTimers_ q' = cancelingTimers_ q) /\
    (forall x, x ∈ cancelingTimers_ q' <-> x ∈ cancelingTimers_ q \/
       (callingExpiredTimers_ q = true /\ (p, s) ∉ activeTimers_ q /\ x = (p, s))) /\
    callingExpiredTimers_ q' = callingExpiredTimers_ q /\ timerfd_ q' = timerfd_ q /\
    s_numCreated_ q' = s_numCreated_ q.
Proof.
  intros W. unfold cancelInLoop. rewrite (wf_size q W). cbn [assert_ res_bind fst].
  destruct (decide ((p, s) ∈ activeTimers_ q)) as [Hin|Hout].
  - rewrite set_mem_true by (done || apply W).
    destruct (wf_alive q W p s Hin) as (t & Ht & Es).
    unfold deref. rewrite Ht. cbn [res_bind].
    assert (Htm : (expiration_ t, p) ∈ timers_ q)
      by (apply (wf_same q W); exists t; split_and!; [done..|by rewrite Es]).
    pose proof (set_erase_count (expiration_ t, p) _ (wf_timers q W)) as C.
    rewrite set_mem_true in C by (done || apply W).
    destruct (set_erase (expiration_ t, p) (timers_ q)) as [ts n] eqn:E. cbn [snd] in C. subst n.
    cbn [Z.eqb Pos.eqb assert_ res_bind].
    assert (Hts : forall e, e ∈ ts <-> e <> (expiration_ t, p) /\ e ∈ timers_ q).
    { intros e. rewrite <-(set_erase_elem (expiration_ t, p)), E by apply W. done. }
    assert (Hact : forall x, x ∈ (set_erase (p, s) (activeTimers_ q)).1 <->
                     x <> (p, s) /\ x ∈ activeTimers_ q).
    { intros x. apply set_erase_elem, W. }
    set (q' := set_sets (delete_ q p) ts (set_erase (p, s) (activeTimers_ q)).1).
    assert (W' : wf q').
    { constructor; cbn.
      - pose proof (set_erase_ordered (expiration_ t, p) _ (wf_timers q W)) as O. by rewrite E in O.
      - apply set_erase_ordered, W.
      - apply W.
      - intros w p'. rewrite Hts, (wf_same q W). split.
        + intros (Hne & t' & H1 & H2 & H3). destruct (decide (p' = p)) as [->|]; [congruence|].
          exists t'. rewrite lookup_delete_ne by done. split_and!; [done..|].
          apply Hact. split; [congruence|done].
        + intros (t' & H1 & H2 & H3%Hact). rewrite lookup_delete_Some in H1. destruct H1 as [Hp H1].
          split; [congruence|]. exists t'. tauto.
      - intros p' s' [Hne H]%Hact. destruct (wf_alive q W p' s' H) as (t' & H1 & H2).
        exists t'. split; [|done]. rewrite lookup_delete_ne; [done|]. intros ->. congruence.
      - intros p' t' H. rewrite lookup_delete_Some in H. by apply (wf_addr q W p'), H. }
    exists q'. split; [exact (checked_size q' (Ok q') W')|]. split; [done|].
    subst q'. split; [exact Hact|]. cbn. split_and!; try done.
    + intros e He. by apply Hts in He as [_ He].
    + intros p' [Hp|Hp]; [|done]. by rewrite lookup_delete_ne.
    + intros _. split; [by rewrite lookup_delete_eq|done].
    + intros x. split; [auto|]. intros [?|(_ & ? & _)]; done.
  - rewrite set_mem_false by (done || apply W).
    assert (Hact : forall x, x ∈ activeTimers_ q <-> x <> (p, s) /\ x ∈ activeTimers_ q).
    { intros x. split; [|tauto]. intros H. split; [|done]. intros ->. done. }
    destruct (callingExpiredTimers_ q) eqn:Ec; cbn [res_bind].
    + set (q' := set_calling q true (set_insert (p, s) (cancelingTimers_ q)).1).
      assert (W' : wf q').
      { destruct W. constructor; cbn; try done. by apply set_insert_ordered. }
      exists q'. split; [exact (checked_size q' (Ok q') W')|]. split; [done|].
      subst q'. cbn. split_and!; try done.
      intros x. rewrite set_insert_elem by apply W. tauto.
    + rewrite (wf_size q W). exists q. split; [done|]. split_and!; try done.
      intros x. split; [auto|]. intros [?|[? _]]; done.
Qed.

(** *** Moving out the expired timers *)

Lemma erase_active_fold q l a :
  ordered a -> NoDup l.*2 ->
  (forall e, e ∈ l -> exists t, heap q !! e.2 = Some t /\ (e.2, sequence_ t) ∈ a) ->
  exists a', res_foldl erase_active (q, a) l = Ok (q, a') /\ ordered a' /\
    forall x, x ∈ a' <-> x ∈ a /\ forall e t, e ∈ l -> heap q !! e.2 = Some t -> x <> (e.2, sequence_ t).
Proof.
  revert a. induction l as [|e l IH]; intros a O Hnd Hl; cbn [res_foldl].
  - exists a. split; [done|]. split; [done|]. intros x. split; [|tauto].
    intros Hx. split; [done|]. intros e t He. by apply not_elem_of_nil in He.
  - rewrite fmap_cons in Hnd. apply NoDup_cons in Hnd as [Hn Hnd].
    destruct (Hl e ltac:(left)) as (t & Ht & Hin).
    unfold erase_active at 1, deref. cbn [fst snd]. rewrite Ht. cbn [res_bind].
    pose proof (set_erase_count (e.2, sequence_ t) a O) as C. rewrite set_mem_true in C by done.
    pose proof (set_erase_ordered (e.2, sequence_ t) a O) as O'.
    pose proof (fun y => set_erase_elem (e.2, sequence_ t) a y O) as M.
    destruct (set_erase (e.2, sequence_ t) a) as [a1 n] eqn:E. cbn [fst snd] in *. subst n.
    cbn [Z.eqb Pos.eqb assert_ res_bind].
    destruct (IH a1 O' Hnd) as (a' & -> & Oa & Ha).
    { intros e' He'. destruct (Hl e' ltac:(by right)) as (t' & Ht' & Hin'). exists t'.
      split; [done|]. apply M. split; [|done]. intros [= E2 _]. apply Hn. rewrite <-E2.
      by apply list_elem_of_fmap_2. }
    exists a'. split; [done|]. split; [done|]. intros x. rewrite Ha, M. split.
    + intros ((H1 & H2) & H3). split; [done|]. intros e' t' [->|He']%elem_of_cons Ht'; [congruence|eauto].
    + intros (H1 & H2). split; [split; [eapply H2; [left|done]|done]|].
      intros e' t' He'. apply H2. by right.
Qed.

(** Timers that are out of the sets while their callbacks run. *)
Definition holding (q : TimerQueue) (expired : list Entry) : Prop :=
  NoDup expired.*2 /\
  forall e, e ∈ expired -> exists t, heap q !! e.2 = Some t /\ expiration_ t = e.1 /\
    (e.2, sequence_ t) ∉ activeTimers_ q.

Lemma entry_ltb (w p now : Z) : ltb (w, p) (now, UINTPTR_MAX) = true <-> w < now \/ (w = now /\ p < UINTPTR_MAX).
Proof.
  cbn. rewrite orb_true_iff, andb_true_iff, negb_true_iff, !Z.ltb_lt, Z.ltb_ge. lia.
Qed.

Lemma getExpired_spec q now : wf q ->
  exists expired q', getExpired q now = Ok (expired, q') /\ wf q' /\ holding q' expired /\
    timers_ q = expired ++ timers_ q' /\
    Forall (fun e => e.1 <= now) expired /\ Forall (fun e => now < e.1) (timers_ q') /\
    heap q' = heap q /\ cancelingTimers_ q' = cancelingTimers_ q /\
    callingExpiredTimers_ q' = callingExpiredTimers_ q /\ timerfd_ q' = timerfd_ q /\
    s_numCreated_ q' = s_numCreated_ q /\
    (forall x, x ∈ activeTimers_ q' -> x ∈ activeTimers_ q).
Proof.
  intros W. unfold getExpired. rewrite (wf_size q W). cbn [assert_ res_bind].
  pose proof (set_lower_bound_app (now, UINTPTR_MAX) (timers_ q)) as Happ.
  pose proof (fun y => set_lower_bound_lt (now, UINTPTR_MAX) (timers_ q) y) as Hlt.
  pose proof (fun y => set_lower_bound_ge (now, UINTPTR_MAX) (timers_ q) y (wf_timers q W)) as Hge.
  destruct (set_lower_bound (now, UINTPTR_MAX) (timers_ q)) as [ex rest]. cbn [fst snd] in *.
  assert (Hex : Forall (fun e => e.1 <= now) ex).
  { apply Forall_forall. intros [w p] He%Hlt. apply entry_ltb in He. cbn. lia. }
  assert (Hrest : Forall (fun e => now < e.1) rest).
  { apply Forall_forall. intros [w p] He. pose proof (Hge _ He) as L.
    assert ((w, p) ∈ timers_ q) as Hin by (rewrite <-Happ; set_solver).
    apply (wf_same q W) in Hin as (t & Ht & _). apply (wf_addr q W) in Ht as [Hp _].
    assert (~ (w < now \/ (w = now /\ p < UINTPTR_MAX))) by (rewrite <-entry_ltb; congruence).
    cbn. lia. }
  assert (match rest with [] => true | e :: _ => timestamp_ltb now e.1 end = true) as ->.
  { destruct rest as [|e rest]; [done|]. apply Forall_cons_1 in Hrest as [Hr _]. by apply Z.ltb_lt. }
  cbn [assert_ res_bind].
  pose proof (timers_NoDup q W) as Hnd. rewrite <-Happ, fmap_app in Hnd.
  apply NoDup_app in Hnd as (Hnd1 & Hdisj & Hnd2).
  destruct (erase_active_fold q ex (activeTimers_ q) (wf_active q W) Hnd1) as (a' & -> & Oa & Ha).
  { intros [w p] He. assert ((w, p) ∈ timers_ q) as Hin by (rewrite <-Happ; set_solver).
    apply (wf_same q W) in Hin as (t & H1 & _ & H2). by exists t. }
  cbn [res_bind].
  assert (Ha' : forall p s, (p, s) ∈ a' <-> (p, s) ∈ activeTimers_ q /\ p ∉ ex.*2).
  { intros p s. rewrite Ha. split; intros [H1 H2]; (split; [done|]).
    - intros ([w p'] & -> & He)%list_elem_of_fmap. cbn in *.
      destruct (wf_alive q W p' s H1) as (t & Ht & <-). by apply (H2 (w, p') t).
    - intros [w p'] t He Ht [= -> ->]. apply H2. by apply (list_elem_of_fmap_2 snd) in He. }
  set (q' := set_sets q rest a').
  assert (W' : wf q').
  { constructor; cbn.
    - pose proof (wf_timers q W) as O. rewrite <-Happ in O. by apply ordered_app_inv in O as (_ & O & _).
    - done.
    - apply W.
    - intros w p. split.
      + intros Hr. assert ((w, p) ∈ timers_ q) as Hin by (rewrite <-Happ; set_solver).
        apply (wf_same q W) in Hin as (t & H1 & H2 & H3). exists t. split_and!; [done..|].
        apply Ha'. split; [done|]. intros Hp. apply (Hdisj _ Hp).
        by apply (list_elem_of_fmap_2 snd) in Hr.
      + intros (t & H1 & H2 & (H3 & H4)%Ha').
        assert ((w, p) ∈ timers_ q) as Hin by (apply (wf_same q W); eauto).
        rewrite <-Happ in Hin. apply elem_of_app in Hin as [Hin|]; [|done].
        destruct H4. by apply (list_elem_of_fmap_2 snd) in Hin.
    - intros p s (H & _)%Ha'. by apply W.
    - apply W. }
  exists ex, q'. split; [exact (checked_size q' (Ok (ex, q')) W')|]. split; [done|].
  split; [|subst q'; cbn; split_and!; try done; intros [p s] (H & _)%Ha'; done].
  split; [done|]. intros [w p] He. assert ((w, p) ∈ timers_ q) as Hin by (rewrite <-Happ; set_solver).
  apply (wf_same q W) in Hin as (t & H1 & H2 & H3). exists t. split_and!; [done..|].
  cbn. intros (_ & Hn)%Ha'. apply Hn. by apply (list_elem_of_fmap_2 snd) in He.
Qed.

(** *** Putting the repeating timers back *)

Lemma wf_insert_heap q p t : wf q -> (forall s, (p, s) ∉ activeTimers_ q) ->
  0 < p < UINTPTR_MAX -> sane t -> wf (set_heap q (<[p := t]> (heap q))).
Proof.
  intros W Hn Hp Hs. destruct W as [W1 W2 W3 W4 W5 W6]. constructor; cbn; try done.
  - intros w p'. rewrite W4. split; intros (t' & H1 & H2 & H3); exists t'; split_and!; try done.
    + rewrite lookup_insert_ne; [done|]. intros ->. by eapply Hn.
    + rewrite lookup_insert_ne in H1; [done|]. intros ->. by eapply Hn.
  - intros p' s' H. destruct (W5 p' s' H) as (t' & H1 & H2). exists t'. split; [|done].
    rewrite lookup_insert_ne; [done|]. intros ->. by eapply Hn.
  - intros p' t' [(<- & <-)|(_ & H)]%lookup_insert_Some; [done|by apply W6].
Qed.

Lemma wf_delete_heap q p : wf q -> (forall s, (p, s) ∉ activeTimers_ q) -> wf (delete_ q p).
Proof.
  intros W Hn. destruct W as [W1 W2 W3 W4 W5 W6]. constructor; cbn; try done.
  - intros w p'. rewrite W4. split; intros (t' & H1 & H2 & H3); exists t'; split_and!; try done.
    + rewrite lookup_delete_ne; [done|]. intros ->. by eapply Hn.
    + rewrite lookup_delete_ne in H1; [done|]. intros ->. by eapply Hn.
  - intros p' s' H. destruct (W5 p' s' H) as (t' & H1 & H2). exists t'. split; [|done].
    rewrite lookup_delete_ne; [done|]. intros ->. by eapply Hn.
  - intros p' t' [_ H]%lookup_delete_Some. by apply W6.
Qed.

Definition keeps (c : list ActiveTimer) (p : Z) (t : Timer) : bool :=
  repeat_ t && negb (set_mem (p, sequence_ t) c).
Definition restarted (t : Timer) (now : Timestamp) : Timer :=
  mkTimer (callback_ t) (now + interval_ t) (interval_ t) (repeat_ t) (sequence_ t).

Lemma holding_not_active q e l : wf q -> holding q (e :: l) -> forall s, (e.2, s) ∉ activeTimers_ q.
Proof.
  intros W [_ H]. destruct (H e ltac:(left)) as (t & H1 & _ & H2).
  apply (detached_not_timer q e.2 W). by exists t.
Qed.

Lemma reset_one_spec q e l t now : wf q -> holding q (e :: l) -> heap q !! e.2 = Some t ->
  0 < now < 2 ^ 62 ->
  exists q', reset_one now q e = Ok q' /\ wf q' /\ holding q' l /\
    heap q' = (if keeps (cancelingTimers_ q) e.2 t
               then <[e.2 := restarted t now]> (heap q) else delete e.2 (heap q)) /\
    (forall x, x ∈ activeTimers_ q' <->
       (keeps (cancelingTimers_ q) e.2 t = true /\ x = (e.2, sequence_ t)) \/ x ∈ activeTimers_ q) /\
    cancelingTimers_ q' = cancelingTimers_ q /\ callingExpiredTimers_ q' = callingExpiredTimers_ q /\
    s_numCreated_ q' = s_numCreated_ q.
Proof.
  intros W Hh Ht Hnow. pose proof (holding_not_active q e l W Hh) as Hna.
  destruct (wf_addr q W e.2 t Ht) as [Hp [He Hi]].
  destruct Hh as [Hnd Hh]. rewrite fmap_cons in Hnd. apply NoDup_cons in Hnd as [Hn Hnd].
  assert (Hl : forall e', e' ∈ l -> e'.2 <> e.2).
  { intros e' He' E. apply Hn. rewrite <-E. by apply list_elem_of_fmap_2. }
  unfold reset_one, deref. rewrite Ht. cbn [res_bind]. fold (keeps (cancelingTimers_ q) e.2 t).
  destruct (keeps (cancelingTimers_ q) e.2 t) eqn:K.
  - unfold keeps in K. apply andb_true_iff in K as [Kr _].
    unfold restart, addTime. rewrite Kr, int64_small by lia. cbn [res_bind]. rewrite <-Kr.
    fold (restarted t now).
    set (q1 := set_heap q (<[e.2 := restarted t now]> (heap q))).
    assert (W1 : wf q1) by (apply wf_insert_heap; [done..|split; cbn; lia]).
    destruct (insert_spec q1 e.2 (restarted t now) W1) as (ts & a & E & W' & H1 & H2).
    { cbn. by rewrite lookup_insert_eq. }
    { cbn. apply Hna. }
    rewrite E. cbn [res_bind]. exists (set_sets q1 ts a). split; [done|]. split; [done|].
    split; [|cbn; split_and!; try done; intros x; rewrite H2; cbn; tauto].
    split; [done|]. intros e' He'. destruct (Hh e' ltac:(by right)) as (t' & G1 & G2 & G3).
    exists t'. cbn. rewrite lookup_insert_ne by (symmetry; by apply Hl). split_and!; [done..|].
    rewrite H2. cbn. intros [[= E2 _]|?]; [by apply (Hl e')|done].
  - exists (delete_ q e.2). split; [done|]. split; [by apply wf_delete_heap|].
    split; [|cbn; split_and!; try done; intros x; split; [by right|by intros [[? _]|?]]].
    split; [done|]. intros e' He'. destruct (Hh e' ltac:(by right)) as (t' & G1 & G2 & G3).
    exists t'. cbn. rewrite lookup_delete_ne by (symmetry; by apply Hl). done.
Qed.

(** What becomes of an expired timer. *)
Definition after_reset (q q' : TimerQueue) (now : Timestamp) (p : Z) (t : Timer) : Prop :=
  if keeps (cancelingTimers_ q) p t
  then heap q' !! p = Some (restarted t now) /\ (now + interval_ t, p) ∈ timers_ q'
  else heap q' !! p = None /\ forall w, (w, p) ∉ timers_ q'.

Lemma reset_fold_spec now l q : wf q -> holding q l -> 0 < now < 2 ^ 62 ->
  exists q', res_foldl (reset_one now) q l = Ok q' /\ wf q' /\
    cancelingTimers_ q' = cancelingTimers_ q /\ callingExpiredTimers_ q' = callingExpiredTimers_ q /\
    (forall p, p ∉ l.*2 -> heap q' !! p = heap q !! p /\
       forall s, (p, s) ∈ activeTimers_ q' <-> (p, s) ∈ activeTimers_ q) /\
    (forall e t, e ∈ l -> heap q !! e.2 = Some t -> after_reset q q' now e.2 t).
Proof.
  revert q. induction l as [|e l IH]; intros q W Hh Hnow; cbn [res_foldl].
  - exists q. split_and!; try done. intros e t He. by apply not_elem_of_nil in He.
  - destruct (proj2 Hh e ltac:(left)) as (t & Ht & _).
    destruct (reset_one_spec q e l t now W Hh Ht Hnow)
      as (q1 & E1 & W1 & Hh1 & Hheap & Hact & Hc & Hcall & _).
    rewrite E1. cbn [res_bind].
    destruct (IH q1 W1 Hh1 Hnow) as (q' & -> & W' & Hc' & Hcall' & Hrest & Hl).
    exists q'. split; [done|]. split; [done|]. split; [congruence|]. split; [congruence|].
    destruct Hh as [Hnd Hh]. rewrite fmap_cons in Hnd. apply NoDup_cons in Hnd as [Hn Hnd].
    assert (Hother : forall p, p <> e.2 -> heap q1 !! p = heap q !! p).
    { intros p Hp. rewrite Hheap. destruct (keeps _ _ _);
        [by rewrite lookup_insert_ne|by rewrite lookup_delete_ne]. }
    split.
    + intros p Hp. rewrite fmap_cons, not_elem_of_cons in Hp. destruct Hp as [Hp1 Hp2].
      destruct (Hrest p Hp2) as [-> Ha]. split; [by apply Hother|]. intros s. rewrite Ha, Hact.
      split; [|by right]. intros [[_ [= ? _]]|?]; done.
    + intros e' t' [->|He']%elem_of_cons Ht'.
      * assert (t' = t) as -> by congruence. destruct (Hrest e.2 Hn) as [Hh2 Ha2].
        unfold after_reset. destruct (keeps _ _ _) eqn:K.
        -- rewrite Hh2, Hheap, lookup_insert_eq. split; [done|]. apply (wf_same q' W').
           exists (restarted t now). rewrite Hh2, Hheap, lookup_insert_eq. split_and!; [done..|].
           apply Ha2, Hact. by left.
        -- rewrite Hh2, Hheap, lookup_delete_eq. split; [done|].
           intros w H. apply (wf_same q' W') in H as (t2 & H & _).
           rewrite Hh2, Hheap, lookup_delete_eq in H. done.
      * assert (e'.2 <> e.2) by (intros E; apply Hn; rewrite <-E; by apply list_elem_of_fmap_2).
        unfold after_reset. rewrite <-Hc. apply Hl; [done|]. by rewrite Hother.
Qed.

Lemma wf_resetTimerfd q w : wf q -> wf (resetTimerfd q w).
Proof. intros []. by constructor. Qed.

Lemma reset_spec now l q : wf q -> holding q l -> 0 < now < 2 ^ 62 ->
  exists q', reset q l now = Ok q' /\ wf q' /\ armed q' /\
    callingExpiredTimers_ q' = callingExpiredTimers_ q /\
    (forall p, p ∉ l.*2 -> heap q' !! p = heap q !! p /\
       forall s, (p, s) ∈ activeTimers_ q' <-> (p, s) ∈ activeTimers_ q) /\
    (forall e t, e ∈ l -> heap q !! e.2 = Some t -> after_reset q q' now e.2 t).
Proof.
  intros W Hh Hnow. destruct (reset_fold_spec now l q W Hh Hnow) as (q1 & E & W1 & _ & Hc & H1 & H2).
  unfold reset. rewrite E. cbn [res_bind]. destruct (timers_ q1) as [|[w p] ts] eqn:Et.
  - exists q1. split; [done|]. split; [done|]. split; [by left|]. done.
  - assert (Hin : (w, p) ∈ timers_ q1) by (rewrite Et; left).
    apply (wf_same q1 W1) in Hin as (t & Ht & Hw & _).
    unfold deref. cbn [snd]. rewrite Ht. cbn [res_bind].
    destruct (wf_addr q1 W1 p t Ht) as [_ [Hpos _]].
    assert (valid (expiration_ t) = true) as -> by (apply Z.ltb_lt; done).
    exists (resetTimerfd q1 (expiration_ t)). split; [done|].
    split; [by apply wf_resetTimerfd|]. split; [|done].
    right. exists (expiration_ t). split; [done|]. cbn. intros e He. rewrite Hw.
    apply (ordered_head_le w p ts); [|by rewrite <-Et]. rewrite <-Et. apply W1.
Qed.

(** *** The callbacks *)

(** A callback may add a timer at an address not in use, for a valid time, and
    cancel any [TimerId] it likes. *)
Definition action_ok (q : TimerQueue) (a : action) : Prop :=
  match a with
  | ActAdd addr cb when interval rep =>
      heap q !! addr = None /\ 0 < addr < UINTPTR_MAX /\ 0 < when /\ 0 <= interval < 2 ^ 62
  | ActCancel _ => True
  end.

Fixpoint actions_ok (q : TimerQueue) (l : list action) : Prop :=
  match l with
  | [] => True
  | a :: l' => action_ok q a /\ forall q', act q a = Ok q' -> actions_ok q' l'
  end.

(** What a step of a callback keeps of the timers that are waiting in [l]. *)
Definition keeps_held (l : list Entry) (q q' : TimerQueue) : Prop :=
  (forall p, p ∈ l.*2 -> heap q' !! p = heap q !! p) /\
  callingExpiredTimers_ q' = callingExpiredTimers_ q /\
  (forall x, x ∈ cancelingTimers_ q -> x ∈ cancelingTimers_ q').

Lemma keeps_held_trans l q1 q2 q3 : keeps_held l q1 q2 -> keeps_held l q2 q3 -> keeps_held l q1 q3.
Proof.
  intros (A1 & A2 & A3) (B1 & B2 & B3). split_and!; [|congruence|auto].
  intros p Hp. rewrite B1, A1 by done. done.
Qed.

Lemma act_spec q a l : wf q -> holding q l -> callingExpiredTimers_ q = true -> action_ok q a ->
  exists q', act q a = Ok q' /\ wf q' /\ holding q' l /\ keeps_held l q q' /\
    (forall p s, a = ActCancel (p, s) -> p ∈ l.*2 -> (p, s) ∈ cancelingTimers_ q') /\
    (forall x, x ∈ cancelingTimers_ q' -> x ∈ cancelingTimers_ q \/ a = ActCancel x).
Proof.
  intros W Hh Hcall Hok.
  assert (Hna : forall p s, p ∈ l.*2 -> (p, s) ∉ activeTimers_ q).
  { intros p s ([w p'] & -> & He)%list_elem_of_fmap. cbn.
    destruct (proj2 Hh _ He) as (t & H1 & _ & H2). cbn in *.
    apply (detached_not_timer q p' W). by exists t. }
  destruct a as [addr cb when interval rep|[p s]]; cbn [act action_ok] in *.
  - destruct Hok as (Hfree & Haddr & Hwhen & Hint).
    assert (Hn : forall s, (addr, s) ∉ activeTimers_ q).
    { intros s H. apply (wf_alive q W) in H as (t & Ht & _). congruence. }
    assert (Hl : addr ∉ l.*2).
    { intros ([w p] & -> & He)%list_elem_of_fmap. destruct (proj2 Hh _ He) as (t & Ht & _).
      cbn in *. congruence. }
    set (t := mkTimer cb when interval rep (s_numCreated_ q + 1)).
    assert (W1 : wf (new_timer q addr cb when interval rep)).
    { pose proof (wf_insert_heap q addr t W Hn Haddr ltac:(split; cbn; lia)) as [].
      by constructor. }
    unfold addTiemr. destruct (addTimerInLoop_spec _ addr t W1)
      as (q' & E & W' & H1 & H2 & H3 & H4 & H5 & _).
    { cbn. by rewrite lookup_insert_eq. }
    { cbn. apply Hn. }
    rewrite E. cbn [res_bind]. exists q'. split; [done|]. split; [done|].
    assert (Hsame : forall p, p ∈ l.*2 -> heap q' !! p = heap q !! p).
    { intros p Hp. rewrite H1. cbn. rewrite lookup_insert_ne; [done|]. intros ->. done. }
    split.
    + split; [apply Hh|]. intros e He. destruct (proj2 Hh e He) as (t' & G1 & G2 & G3).
      exists t'. rewrite Hsame by (by apply list_elem_of_fmap_2). split_and!; [done..|].
      rewrite H3. cbn. intros [[= E2 _]|?]; [|done]. apply Hl. rewrite <-E2.
      by apply list_elem_of_fmap_2.
    + split; [|split; [done|intros x; rewrite H4; by left]].
      split_and!; [done|by rewrite H5|]. intros x Hx. by rewrite H4.
  - destruct (cancelInLoop_spec q p s W) as (q' & E & W' & H1 & H2 & H3 & _ & H5 & H6 & _).
    exists q'. split; [done|]. split; [done|].
    assert (Hsame : forall p', p' ∈ l.*2 -> heap q' !! p' = heap q !! p').
    { intros p' Hp'. apply H3. destruct (decide (p' = p)) as [->|]; [right; by apply Hna|by left]. }
    split; [|split; [|split]].
    + split; [apply Hh|]. intros e He. destruct (proj2 Hh e He) as (t' & G1 & G2 & G3).
      exists t'. rewrite Hsame by (by apply list_elem_of_fmap_2). split_and!; [done..|].
      rewrite H1. tauto.
    + split_and!; [done..|]. intros x Hx. apply H5. by left.
    + intros p' s' [= <- <-] Hp. apply H5. right. split_and!; [done| |done]. by apply Hna.
    + intros x [?|(_ & _ & ->)]%H5; auto.
Qed.

Lemma acts_spec l acts q : wf q -> holding q l -> callingExpiredTimers_ q = true -> actions_ok q acts ->
  exists q', res_foldl act q acts = Ok q' /\ wf q' /\ holding q' l /\ keeps_held l q q' /\
    (forall p s, ActCancel (p, s) ∈ acts -> p ∈ l.*2 -> (p, s) ∈ cancelingTimers_ q') /\
    (forall x, x ∈ cancelingTimers_ q' -> x ∈ cancelingTimers_ q \/ ActCancel x ∈ acts).
Proof.
  revert q. induction acts as [|a acts IH]; intros q W Hh Hc Hok; cbn [res_foldl].
  - exists q. split_and!; try done; [|by left]. intros p s H. by apply not_elem_of_nil in H.
  - destruct Hok as [Ha Hok]. destruct (act_spec q a l W Hh Hc Ha) as (q1 & E & W1 & Hh1 & K1 & C1 & D1).
    rewrite E. cbn [res_bind].
    destruct (IH q1 W1 Hh1) as (q' & -> & W' & Hh' & K' & C' & D');
      [by rewrite (proj1 (proj2 K1))|auto|].
    exists q'. split_and!; try done; [by eapply keeps_held_trans|..].
    + intros p s [<-|H]%elem_of_cons Hp; [|eauto]. apply K', C1; done.
    + intros x [[?| ->]%D1|?]%D'; [by left|right; left|right; by right].
Qed.

(** [(p, s)] was cancelled by a callback of the trace. *)
Definition cancelled_in (tr : list (Z * list action)) (id : TimerId) : Prop :=
  exists x, x ∈ tr /\ ActCancel id ∈ x.2.

Lemma run_expired_spec run ex l q : wf q -> holding q ex -> callingExpiredTimers_ q = true ->
  (forall cb q', wf q' -> actions_ok q' (run cb q')) -> (forall e, e ∈ l -> e ∈ ex) ->
  exists tr q', run_expired run q l = Ok (tr, q') /\ wf q' /\ holding q' ex /\ keeps_held ex q q' /\
    Forall2 (fun e x => exists t, heap q !! e.2 = Some t /\ x.1 = callback_ t) l tr /\
    (forall p s, cancelled_in tr (p, s) -> p ∈ ex.*2 -> (p, s) ∈ cancelingTimers_ q') /\
    (forall x, x ∈ cancelingTimers_ q' -> x ∈ cancelingTimers_ q \/ cancelled_in tr x).
Proof.
  intros W Hh Hc Hrun. revert q W Hh Hc. induction l as [|e l IH]; intros q W Hh Hc Hl; cbn [run_expired].
  - exists [], q. split_and!; try done; [|by left]. intros p s (x & H & _). by apply not_elem_of_nil in H.
  - destruct (proj2 Hh e (Hl e ltac:(left))) as (t & Ht & _). unfold deref. rewrite Ht. cbn [res_bind].
    destruct (acts_spec ex (run (callback_ t) q) q W Hh Hc (Hrun _ _ W))
      as (q1 & E1 & W1 & Hh1 & K1 & C1 & D1). cbv zeta. rewrite E1. cbn [res_bind].
    destruct (IH q1 W1 Hh1) as (tr & q' & E' & W' & Hh' & K' & F' & C' & D');
      [by rewrite (proj1 (proj2 K1))|intros e' He'; apply Hl; by right|].
    rewrite E'. cbn [res_bind]. eexists _, q'. split; [done|]. split; [done|]. split; [done|].
    split; [by eapply keeps_held_trans|]. split; [|split].
    + constructor; [by exists t|]. clear - F' K1 Hl.
      assert (Hl' : forall e, e ∈ l -> e ∈ ex) by (intros e' He'; apply Hl; by right). clear Hl.
      induction F' as [|e' x l tr (t' & H1 & H2) _ IHF]; constructor.
      * exists t'. split; [|done]. rewrite <-(proj1 K1); [done|].
        apply list_elem_of_fmap_2. apply Hl'. left.
      * apply IHF. intros e'' He''. apply Hl'. by right.
    + intros p s (x & [->|Hx]%elem_of_cons & Hin) Hp; [|apply C'; [by exists x|done]].
      apply K', C1; done.
    + intros x [[?|H]%D1|(y & Hy & Hin)]%D'; [by left|right|right].
      * eexists. split; [left|done].
      * exists y. split; [by right|done].
Qed.

(** The three phases of [handleRead] together; [c] is the final set of
    cancelled timers. *)
Lemma handleRead_phases run q now : wf q -> 0 < now < 2 ^ 62 ->
  (forall cb q', wf q' -> actions_ok q' (run cb q')) ->
  exists ex rest tr c q', handleRead run q now = Ok (tr, q') /\ wf q' /\ armed q' /\
    callingExpiredTimers_ q' = false /\ timers_ q = ex ++ rest /\
    Forall (fun e => e.1 <= now) ex /\ Forall (fun e => now < e.1) rest /\
    Forall2 (fun e x => exists t, heap q !! e.2 = Some t /\ x.1 = callback_ t) ex tr /\
    ordered c /\ (forall x, x ∈ c -> cancelled_in tr x) /\
    (forall p s, cancelled_in tr (p, s) -> p ∈ ex.*2 -> (p, s) ∈ c) /\
    forall e t, e ∈ ex -> heap q !! e.2 = Some t ->
      if keeps c e.2 t
      then heap q' !! e.2 = Some (restarted t now) /\ (now + interval_ t, e.2) ∈ timers_ q'
      else heap q' !! e.2 = None /\ forall w, (w, e.2) ∉ timers_ q'.
Proof.
  intros W Hnow Hrun. unfold handleRead.
  assert (W0 : wf (readTimerfd q)) by (destruct W; by constructor).
  destruct (getExpired_spec _ now W0)
    as (ex & q1 & E1 & W1 & Hh1 & Happ & Hex & Hrest & Hheap & _).
  rewrite E1. cbn [res_bind].
  set (q2 := set_calling q1 true []).
  assert (W2 : wf q2) by (destruct W1; constructor; try done; constructor).
  destruct (run_expired_spec run ex ex q2 W2 Hh1 eq_refl Hrun ltac:(done))
    as (tr & q3 & E3 & W3 & Hh3 & K3 & F3 & C3 & D3).
  rewrite E3. cbn [res_bind].
  set (q4 := set_calling q3 false (cancelingTimers_ q3)).
  assert (W4 : wf q4) by (destruct W3; by constructor).
  destruct (reset_spec now ex q4 W4 Hh3 Hnow) as (q' & E' & W' & A' & Hc' & _ & Hafter).
  rewrite E'. cbn [res_bind]. exists ex, (timers_ q1), tr, (cancelingTimers_ q3), q'.
  cbn in Happ, Hheap. split_and!; try done; [|apply W3|..].
  - eapply Forall2_impl; [exact F3|]. intros e x. cbn. by rewrite Hheap.
  - intros x [Hn|?]%D3; [|done]. by apply not_elem_of_nil in Hn.
  - intros e t He Ht. apply (Hafter e t He). cbn.
    rewrite (proj1 K3) by (by apply list_elem_of_fmap_2). cbn. by rewrite Hheap.
Qed.

(** ** Properties *)

(** C9: what an alarm does.  Whatever the callbacks add and cancel, the expired
    timers, those due at or before [now], run once each in order of expiration;
    afterwards a repeating timer that no callback cancelled is scheduled
    [interval] after [now], and every other expired timer is freed and gone; no
    assertion fails and no freed timer is touched; the sets stay consistent and
    the alarm is set no later than the earliest timer left. *)
Theorem handleRead_runs_expired (run : Z -> TimerQueue -> list action) (q : TimerQueue) (now : Timestamp) :
  wf q -> 0 < now < 2 ^ 62 -> (forall cb q', wf q' -> actions_ok q' (run cb q')) ->
  exists expired rest tr q', handleRead run q now = Ok (tr, q') /\ wf q' /\ armed q' /\
    callingExpiredTimers_ q' = false /\
    timers_ q = expired ++ rest /\ Forall (fun e => e.1 <= now) expired /\
    Forall (fun e => now < e.1) rest /\
    Forall2 (fun e x => exists t, heap q !! e.2 = Some t /\ x.1 = callback_ t) expired tr /\
    forall e t, e ∈ expired -> heap q !! e.2 = Some t ->
      (repeat_ t = true -> ~ cancelled_in tr (e.2, sequence_ t) ->
         heap q' !! e.2 = Some (restarted t now) /\ (now + interval_ t, e.2) ∈ timers_ q') /\
      (repeat_ t = false \/ cancelled_in tr (e.2, sequence_ t) ->
         heap q' !! e.2 = None /\ forall w, (w, e.2) ∉ timers_ q').
Proof.
  intros W Hnow Hrun. destruct (handleRead_phases run q now W Hnow Hrun)
    as (ex & rest & tr & c & q' & E & W' & A & C & T & H1 & H2 & H3 & Oc & Hc & Hc' & Hl).
  exists ex, rest, tr, q'. split_and!; try done.
  intros e t He Ht. pose proof (Hl e t He Ht) as H. unfold keeps in H.
  destruct (decide ((e.2, sequence_ t) ∈ c)) as [Hin|Hout].
  - rewrite set_mem_true, andb_false_r in H by done. split; [|by intros _].
    intros _ []. by apply Hc.
  - rewrite set_mem_false, andb_true_r in H by done. split; [intros Hr _; by rewrite Hr in H|].
    intros [Hr|Hcan]; [by rewrite Hr in H|]. destruct Hout. apply Hc'; [done|].
    by apply list_elem_of_fmap_2.
Qed.

(** A repeating timer that cancels itself the second time, a one-shot timer that
    adds another, and one that is not due. *)
Definition ex_queue : TimerQueue :=
  mkTQ (list_to_map [(10, mkTimer 1 100 50 true 1); (20, mkTimer 2 200 0 false 2);
                     (30, mkTimer 3 900 0 false 3)])
       [(100, 10); (200, 20); (900, 30)] [(10, 1); (20, 2); (30, 3)] false [] 3 (Some 100).
Definition ex_run (cb : Z) (q : TimerQueue) : list action :=
  if cb =? 1 then [ActCancel (30, 3)]
  else match heap q !! 40 with None => [ActAdd 40 4 150 0 false] | Some _ => [] end.

Lemma ex_queue_wf : wf ex_queue.
Proof.
  constructor; cbn.
  - repeat constructor; intros y Hy; rewrite ?elem_of_cons, ?elem_of_nil in Hy;
      intuition (subst; reflexivity).
  - repeat constructor; intros y Hy; rewrite ?elem_of_cons, ?elem_of_nil in Hy;
      intuition (subst; reflexivity).
  - constructor.
  - intros w p. rewrite !elem_of_cons, elem_of_nil. split.
    + intros [[= -> ->]|[[= -> ->]|[[= -> ->]|[]]]]; eexists; (split; [reflexivity|]);
        rewrite !elem_of_cons; auto.
    + intros (t & Ht & <- & H). rewrite !elem_of_cons, elem_of_nil in H.
      destruct H as [[= -> _]|[[= -> _]|[[= -> _]|[]]]]; injection Ht as <-; auto.
  - intros p s. rewrite !elem_of_cons, elem_of_nil.
    intros [[= -> ->]|[[= -> ->]|[[= -> ->]|[]]]]; eexists; split; reflexivity.
  - intros p t H. repeat (apply lookup_insert_Some in H as [[<- <-]|[_ H]];
      [unfold sane; vm_compute; repeat split; congruence|]). done.
Qed.

Lemma ex_run_ok cb q : wf q -> actions_ok q (ex_run cb q).
Proof.
  intros _. unfold ex_run. destruct (cb =? 1); [by split|].
  destruct (heap q !! 40) eqn:E; [done|]. split; [|done]. unfold action_ok, UINTPTR_MAX. auto with lia.
Qed.

Lemma handleRead_runs_expired_witness :
  wf ex_queue /\ 0 < 300 < 2 ^ 62 /\ (forall cb q', wf q' -> actions_ok q' (ex_run cb q')) /\
  exists expired rest tr q', handleRead ex_run ex_queue 300 = Ok (tr, q') /\ wf q' /\ armed q' /\
    timers_ ex_queue = expired ++ rest.
Proof.
  assert (H : 0 < 300 < 2 ^ 62) by lia.
  split; [exact ex_queue_wf|]. split; [exact H|]. split; [exact ex_run_ok|].
  destruct (handleRead_runs_expired ex_run ex_queue 300 ex_queue_wf H ex_run_ok)
    as (ex & rest & tr & q' & E & W & A & _ & T & _).
  exists ex, rest, tr, q'. split; [exact E|]. split; [exact W|]. split; [exact A|exact T].
Defined.

(** What the loop's thread is asked to do with the queue. *)
Inductive event : Type :=
| EvAction (a : action)        (* addTiemr or cancel *)
| EvAlarm (now : Timestamp).   (* the timerfd is readable *)

Definition exec (run : Z -> TimerQueue -> list action) (q : TimerQueue) (ev : event) : res TimerQueue :=
  match ev with
  | EvAction a => act q a
  | EvAlarm now => let* (_, q) := handleRead run q now in Ok q
  end.

Definition event_ok (q : TimerQueue) (ev : event) : Prop :=
  match ev with EvAction a => action_ok q a | EvAlarm now => 0 < now < 2 ^ 62 end.
Fixpoint events_ok (run : Z -> TimerQueue -> list action) (q : TimerQueue) (l : list event) : Prop :=
  match l with
  | [] => True
  | ev :: l' => event_ok q ev /\ forall q', exec run q ev = Ok q' -> events_ok run q' l'
  end.

Definition outside (q : TimerQueue) : Prop := wf q /\ armed q /\ callingExpiredTimers_ q = false.

Lemma add_outside q addr cb when interval rep : outside q ->
  action_ok q (ActAdd addr cb when interval rep) ->
  exists q', act q (ActAdd addr cb when interval rep) = Ok q' /\ outside q'.
Proof.
  intros (W & A & C) (Hfree & Haddr & Hwhen & Hint). cbn [act].
  assert (Hn : forall s, (addr, s) ∉ activeTimers_ q).
  { intros s H. apply (wf_alive q W) in H as (t & Ht & _). congruence. }
  set (t := mkTimer cb when interval rep (s_numCreated_ q + 1)).
  assert (W1 : wf (new_timer q addr cb when interval rep)).
  { pose proof (wf_insert_heap q addr t W Hn Haddr ltac:(split; cbn; lia)) as []. by constructor. }
  unfold addTiemr. destruct (addTimerInLoop_spec _ addr t W1)
    as (q' & E & W' & _ & _ & _ & _ & H5 & _ & H6).
  { cbn. by rewrite lookup_insert_eq. }
  { cbn. apply Hn. }
  rewrite E. cbn [res_bind]. exists q'. split; [done|]. split; [done|]. split; [by apply H6|].
  by rewrite H5.
Qed.

Lemma cancel_outside q id : outside q -> exists q', act q (ActCancel id) = Ok q' /\ outside q'.
Proof.
  intros (W & A & C). destruct id as [p s].
  destruct (cancelInLoop_spec q p s W) as (q' & E & W' & _ & H2 & _ & _ & _ & H6 & H7 & _).
  exists q'. split; [done|]. split; [done|]. split; [|by rewrite H6].
  destruct A as [A|(w & Hw & A)].
  - left. destruct (timers_ q') as [|e l]; [done|].
    pose proof (H2 e ltac:(left)) as He. rewrite A in He. by apply not_elem_of_nil in He.
  - right. exists w. rewrite H7. split; [done|]. auto.
Qed.

(** The queue never loses a timer.  After any sequence of additions,
    cancellations and alarms, from the empty queue, no assertion has failed,
    the two sets hold the same live timers, and whenever a timer is waiting the
    timerfd is armed for no later than the earliest of them. *)
Theorem timer_queue_armed (run : Z -> TimerQueue -> list action) (l : list event) :
  (forall cb q', wf q' -> actions_ok q' (run cb q')) ->
  events_ok run TimerQueue_new l ->
  exists q, res_foldl (exec run) TimerQueue_new l = Ok q /\ wf q /\ armed q.
Proof.
  intros Hrun.
  assert (G : forall q, outside q -> events_ok run q l ->
            exists q', res_foldl (exec run) q l = Ok q' /\ outside q').
  { induction l as [|ev l IH]; intros q O Hok; cbn [res_foldl]; [by exists q|].
    destruct Hok as [Hev Hok].
    assert (S : exists q', exec run q ev = Ok q' /\ outside q').
    { destruct ev as [[addr cb when interval rep|id]|now]; cbn [exec].
      - by apply add_outside.
      - by apply cancel_outside.
      - destruct (handleRead_phases run q now (proj1 O) Hev Hrun)
          as (ex & rest & tr & c & q' & E & W & A & C & _).
        rewrite E. cbn [res_bind]. by exists q'. }
    destruct S as (q1 & E & O1). rewrite E. cbn [res_bind]. auto. }
  intros Hok. destruct (G TimerQueue_new) as (q & E & W & A & _); [|done|by exists q].
  split; [|by split; [left|]].
  constructor; cbn; try constructor; try done.
  - intros H. by apply not_elem_of_nil in H.
  - intros (t & H & _). done.
  - intros p s H. by apply not_elem_of_nil in H.
Qed.

Lemma timer_queue_armed_witness :
  let run := fun (_ : Z) (_ : TimerQueue) => @nil action in
  let l := [EvAction (ActAdd 16 1 500 7 true); EvAction (ActAdd 32 2 400 0 false);
            EvAction (ActCancel (32, 2)); EvAlarm 600] in
  (forall cb q', wf q' -> actions_ok q' (run cb q')) /\ events_ok run TimerQueue_new l /\
  exists q, res_foldl (exec run) TimerQueue_new l = Ok q /\ wf q /\ armed q.
Proof.
  intros run l.
  assert (R : forall cb q', wf q' -> actions_ok q' (run cb q')) by (intros; exact I).
  assert (O : events_ok run TimerQueue_new l).
  { repeat (split; [vm_compute; repeat split; congruence|]; intros ? E; vm_compute in E;
            injection E as <-). exact I. }
  split; [exact R|]. split; [exact O|]. exact (timer_queue_armed run l R O).
Defined.
