(* ===== verification/Channel.v ===== *)
(** * Channels (cnet/net/Channel.h, Channel.cc, Poller.h, Poller.cc)

    A channel is the registration of one file descriptor with the poller of its
    event loop.  Channels live in a store indexed by address, since the poller
    holds pointers to them.  [PollerOps] is the interface of [class Poller]; the
    channel operations are written against it. *)

From stdpp Require Import gmap.
From S2P Require Import Prelude Cstd.

Definition POLLIN : Z := 0x1.
Definition POLLPRI : Z := 0x2.
Definition POLLOUT : Z := 0x4.
Definition POLLERR : Z := 0x8.
Definition POLLHUP : Z := 0x10.
Definition POLLNVAL : Z := 0x20.
Definition POLLRDHUP : Z := 0x2000.

Definition kNoneEvent : Z := 0.
Definition kReadEvent : Z := Z.lor POLLIN POLLPRI.
Definition kWriteEvent : Z := POLLOUT.

Record Channel := mkChannel {
  fd_ : Z;
  events_ : Z;
  revents_ : Z;
  index_ : Z;
  logHup_ : bool;
  tied_ : bool;
  eventHandling_ : bool;
  addedToLoop_ : bool;
  (* which callbacks are set *)
  readCallback_ : bool;
  writeCallback_ : bool;
  closeCallback_ : bool;
  errorCallback_ : bool;
}.

Definition Channel_new (fd : Z) : Channel :=
  mkChannel fd 0 0 (-1) true false false false false false false false.

Definition with_events (c : Channel) (e : Z) : Channel :=
  mkChannel (fd_ c) e (revents_ c) (index_ c) (logHup_ c) (tied_ c) (eventHandling_ c)
    (addedToLoop_ c) (readCallback_ c) (writeCallback_ c) (closeCallback_ c) (errorCallback_ c).
Definition set_revents (c : Channel) (r : Z) : Channel :=
  mkChannel (fd_ c) (events_ c) r (index_ c) (logHup_ c) (tied_ c) (eventHandling_ c)
    (addedToLoop_ c) (readCallback_ c) (writeCallback_ c) (closeCallback_ c) (errorCallback_ c).
Definition set_index (c : Channel) (i : Z) : Channel :=
  mkChannel (fd_ c) (events_ c) (revents_ c) i (logHup_ c) (tied_ c) (eventHandling_ c)
    (addedToLoop_ c) (readCallback_ c) (writeCallback_ c) (closeCallback_ c) (errorCallback_ c).
Definition set_added (c : Channel) (b : bool) : Channel :=
  mkChannel (fd_ c) (events_ c) (revents_ c) (index_ c) (logHup_ c) (tied_ c) (eventHandling_ c)
    b (readCallback_ c) (writeCallback_ c) (closeCallback_ c) (errorCallback_ c).
Definition doNotLogHup (c : Channel) : Channel :=
  mkChannel (fd_ c) (events_ c) (revents_ c) (index_ c) false (tied_ c) (eventHandling_ c)
    (addedToLoop_ c) (readCallback_ c) (writeCallback_ c) (closeCallback_ c) (errorCallback_ c).
Definition tie (c : Channel) : Channel :=
  mkChannel (fd_ c) (events_ c) (revents_ c) (index_ c) (logHup_ c) true (eventHandling_ c)
    (addedToLoop_ c) (readCallback_ c) (writeCallback_ c) (closeCallback_ c) (errorCallback_ c).
(** [setReadCallback], [setWriteCallback], [setCloseCallback],
    [setErrorCallback]. *)
Definition setCallbacks (c : Channel) (r w cl e : bool) : Channel :=
  mkChannel (fd_ c) (events_ c) (revents_ c) (index_ c) (logHup_ c) (tied_ c) (eventHandling_ c)
    (addedToLoop_ c) (r || readCallback_ c) (w || writeCallback_ c) (cl || closeCallback_ c)
    (e || errorCallback_ c).

(** [x & mask], as a condition. *)
Definition has (x mask : Z) : bool := negb (Z.land x mask =? 0).

Lemma has_bit x k : 0 <= k -> has x (2 ^ k) = Z.testbit x k.
Proof.
  intros Hk. unfold has. destruct (Z.testbit x k) eqn:E.
  - apply negb_true_iff, Z.eqb_neq. intros H. apply (f_equal (fun z => Z.testbit z k)) in H.
    rewrite Z.land_spec, E, Z.pow2_bits_true, Z.bits_0 in H by done. done.
  - apply negb_false_iff, Z.eqb_eq, Z.bits_inj'. intros n Hn.
    rewrite Z.land_spec, Z.bits_0. destruct (decide (n = k)) as [->|]; [by rewrite E|].
    rewrite Z.pow2_bits_false, andb_false_r by done. done.
Qed.

Lemma has_0 m : has 0 m = false.
Proof. unfold has. by rewrite Z.land_0_l. Qed.

Definition isNoneEvent (c : Channel) : bool := events_ c =? kNoneEvent.
Definition isWriting (c : Channel) : bool := has (events_ c) kWriteEvent.
Definition isReading (c : Channel) : bool := has (events_ c) kReadEvent.

(** ** Dispatch *)

Inductive callback : Set := CloseCb | ErrorCb | ReadCb | WriteCb.

#[export] Instance callback_eq_dec : EqDecision callback.
Proof. solve_decision. Defined.

(** The callbacks [handleEventWithGuard] calls, in order. *)
Definition handleEventWithGuard (c : Channel) : list callback :=
  let r := revents_ c in
  (if has r POLLHUP && negb (has r POLLIN) then (if closeCallback_ c then [CloseCb] else []) else []) ++
  (if has r (Z.lor POLLERR POLLNVAL) then (if errorCallback_ c then [ErrorCb] else []) else []) ++
  (if has r (Z.lor (Z.lor POLLIN POLLPRI) POLLRDHUP)
   then (if readCallback_ c then [ReadCb] else []) else []) ++
  (if has r POLLOUT then (if writeCallback_ c then [WriteCb] else []) else []).

(** [handleEvent]; [alive] tells whether the tied object still exists. *)
Definition handleEvent (c : Channel) (alive : bool) : list callback :=
  if tied_ c then (if alive then handleEventWithGuard c else [])
  else handleEventWithGuard c.

Definition event_names : list (Z * bytes) :=
  [(POLLIN, bs "IN "); (POLLPRI, bs "PRI "); (POLLOUT, bs "OUT "); (POLLHUP, bs "HUP ");
   (POLLRDHUP, bs "RDHUP "); (POLLERR, bs "ERR "); (POLLNVAL, bs "NVAL ")].
Definition eventsToString (fd ev : Z) : bytes :=
  fmt_d fd ++ bs ": " ++ concat (map (fun p => if has ev p.1 then p.2 else []) event_names).

(** ** The interface of a poller *)

Abbreviation store := (gmap Z Channel).

Definition channel_at (st : store) (p : Z) : res Channel :=
  match st !! p with Some c => Ok c | None => Err EUndefined end.

Class PollerOps (P : Type) : Type := {
  channels_ : P -> gmap Z Z;                    (* fd to Channel* *)
  updateChannel : P -> store -> Z -> res (P * store);
  removeChannel : P -> store -> Z -> res (P * store);
}.

Section ops.
Context {P : Type} `{PollerOps P}.

Definition hasChannel (po : P) (st : store) (p : Z) : res bool :=
  let* c := channel_at st p in
  Ok (bool_decide (channels_ po !! fd_ c = Some p)).

(** [Channel::update] *)
Definition update (po : P) (st : store) (p : Z) : res (P * store) :=
  let* c := channel_at st p in
  updateChannel po (<[p := set_added c true]> st) p.

Definition set_events (f : Z -> Z) (po : P) (st : store) (p : Z) : res (P * store) :=
  let* c := channel_at st p in
  update po (<[p := with_events c (f (events_ c))]> st) p.

Definition enableReading := set_events (fun e => Z.lor e kReadEvent).
Definition disableReading := set_events (fun e => Z.land e (Z.lnot kReadEvent)).
Definition enableWriting := set_events (fun e => Z.lor e kWriteEvent).
Definition disableWriting := set_events (fun e => Z.land e (Z.lnot kWriteEvent)).
Definition disableAll := set_events (fun _ => kNoneEvent).

(** [Channel::remove] *)
Definition remove (po : P) (st : store) (p : Z) : res (P * store) :=
  let* c := channel_at st p in
  assert! isNoneEvent c;
  removeChannel po (<[p := set_added c false]> st) p.

(** The assertions of [~Channel]. *)
Definition Channel_delete (po : P) (st : store) (p : Z) : res store :=
  let* c := channel_at st p in
  assert! negb (eventHandling_ c);
  assert! negb (addedToLoop_ c);
  let* h := hasChannel po st p in
  assert! negb h;
  Ok (delete p st).
End ops.

(** What a client may ask of its channel. *)
Inductive channel_op : Set :=
| EnableReading | DisableReading | EnableWriting | DisableWriting | DisableAll | Remove.

#[export] Instance channel_op_eq_dec : EqDecision channel_op.
Proof. solve_decision. Defined.

Definition run_op {P} `{PollerOps P} (o : channel_op) : P -> store -> Z -> res (P * store) :=
  match o with
  | EnableReading => enableReading
  | DisableReading => disableReading
  | EnableWriting => enableWriting
  | DisableWriting => disableWriting
  | DisableAll => disableAll
  | Remove => remove
  end.

(** The events a channel asks for after an operation. *)
Definition op_events (o : channel_op) (e : Z) : Z :=
  match o with
  | EnableReading => Z.lor e kReadEvent
  | DisableReading => Z.land e (Z.lnot kReadEvent)
  | EnableWriting => Z.lor e kWriteEvent
  | DisableWriting => Z.land e (Z.lnot kWriteEvent)
  | DisableAll => kNoneEvent
  | Remove => e
  end.

(** The write bit after each operation. *)
Lemma writing_after o e : o <> Remove -> has (op_events o e) kWriteEvent =
  match o with
  | EnableWriting => true
  | DisableWriting | DisableAll => false
  | _ => has e kWriteEvent
  end.
Proof.
  intros Ho. change kWriteEvent with (2 ^ 2). rewrite !has_bit by lia.
  destruct o; cbn [op_events]; rewrite ?Z.lor_spec, ?Z.land_spec, ?Z.lnot_spec, ?Z.bits_0 by lia;
    try done; cbn; rewrite ?orb_false_r, ?andb_true_r, ?orb_true_r, ?andb_false_r; done.
Qed.

Lemma run_op_set {P} `{PollerOps P} o (po : P) st p c : o <> Remove -> st !! p = Some c ->
  run_op o po st p =
    updateChannel po (<[p := set_added (with_events c (op_events o (events_ c))) true]> st) p.
Proof.
  intros Ho Hc. destruct o; try done; cbn [run_op op_events];
    unfold enableReading, disableReading, enableWriting, disableWriting, disableAll, set_events,
      update, channel_at; rewrite Hc; cbn [res_bind]; rewrite lookup_insert_eq; cbn [res_bind]; by rewrite insert_insert_eq.
Qed.

(** ** The contract of a poller

    [R po st] relates a poller to the store: what an implementation keeps.
    [watched po fd] is what the kernel is asked to report for [fd]. *)
Class PollerLaws (P : Type) `{PollerOps P} : Type := {
  poller_ok : P -> store -> Prop;
  watched : P -> Z -> option (Z * Z);     (* events, Channel* *)
  (** Registered descriptors are watched with exactly the events their channel
      asks for; a descriptor whose channel asks for nothing, or that has no
      registered channel, reports nothing. *)
  watched_events : forall po st p c, poller_ok po st -> st !! p = Some c ->
    channels_ po !! fd_ c = Some p -> events_ c <> kNoneEvent ->
    watched po (fd_ c) = Some (events_ c, p);
  watched_registered : forall po st fd e p, poller_ok po st -> watched po fd = Some (e, p) ->
    channels_ po !! fd = Some p /\ exists c, st !! p = Some c /\ fd_ c = fd /\ events_ c = e;
  update_ok : forall po st p c, poller_ok po st -> st !! p = Some c ->
    channels_ po !! fd_ c = None \/ channels_ po !! fd_ c = Some p ->
    forall e, exists po' i,
      updateChannel po (<[p := set_added (with_events c e) true]> st) p =
        Ok (po', <[p := set_index (set_added (with_events c e) true) i]> st) /\
      poller_ok po' (<[p := set_index (set_added (with_events c e) true) i]> st) /\
      channels_ po' = <[fd_ c := p]> (channels_ po);
  remove_ok : forall po st p c, poller_ok po st -> st !! p = Some c ->
    channels_ po !! fd_ c = Some p -> events_ c = kNoneEvent ->
    exists po' i,
      removeChannel po (<[p := set_added c false]> st) p =
        Ok (po', <[p := set_index (set_added c false) i]> st) /\
      poller_ok po' (<[p := set_index (set_added c false) i]> st) /\
      channels_ po' = delete (fd_ c) (channels_ po);
}.

(** ** Clients of the contract *)

Section client.
Context {P : Type} `{PollerLaws P}.

(** The call is one the callers make: a channel that exists, whose descriptor no
    other channel has registered; and removal only of a registered channel that
    asks for nothing. *)
Definition op_ok (po : P) (st : store) (o : channel_op) (p : Z) : Prop :=
  exists c, st !! p = Some c /\
    match o with
    | Remove => channels_ po !! fd_ c = Some p /\ events_ c = kNoneEvent
    | _ => channels_ po !! fd_ c = None \/ channels_ po !! fd_ c = Some p
    end.

Fixpoint run_ops (l : list (channel_op * Z)) (po : P) (st : store) : res (P * store) :=
  match l with
  | [] => Ok (po, st)
  | (o, p) :: l' => let* (po, st) := run_op o po st p in run_ops l' po st
  end.

Fixpoint ops_ok (l : list (channel_op * Z)) (po : P) (st : store) : Prop :=
  match l with
  | [] => True
  | (o, p) :: l' => op_ok po st o p /\
      forall po' st', run_op o po st p = Ok (po', st') -> ops_ok l' po' st'
  end.

(** The same, decided. *)
Definition op_okb (po : P) (st : store) (o : channel_op) (p : Z) : bool :=
  match st !! p with
  | None => false
  | Some c =>
      match o with
      | Remove => bool_decide (channels_ po !! fd_ c = Some p) && (events_ c =? kNoneEvent)
      | _ => bool_decide (channels_ po !! fd_ c = None) || bool_decide (channels_ po !! fd_ c = Some p)
      end
  end.
Fixpoint ops_okb (l : list (channel_op * Z)) (po : P) (st : store) : bool :=
  match l with
  | [] => true
  | (o, p) :: l' => op_okb po st o p &&
      match run_op o po st p with Ok (po', st') => ops_okb l' po' st' | Err _ => true end
  end.

Lemma op_okb_ok po st o p : op_okb po st o p = true -> op_ok po st o p.
Proof.
  unfold op_okb, op_ok. destruct (st !! p) as [c|]; [|done]. intros Hb. exists c. split; [done|].
  destruct o; rewrite ?orb_true_iff, ?andb_true_iff, ?bool_decide_eq_true, ?Z.eqb_eq in Hb; done.
Qed.

Lemma ops_okb_ok l po st : ops_okb l po st = true -> ops_ok l po st.
Proof.
  revert po st. induction l as [|[o p] l IH]; intros po st; [done|]. cbn [ops_okb ops_ok].
  rewrite andb_true_iff. intros [H1%op_okb_ok H2]. split; [done|].
  intros po' st' E. rewrite E in H2. auto.
Qed.

(** The events channel [p] asks for after the operations, by the operations on
    [p] alone. *)
Definition asked (l : list (channel_op * Z)) (p e : Z) : Z :=
  fold_left (fun e q => if bool_decide (q.2 = p) then op_events q.1 e else e) l e.

Lemma run_op_ok o p po st : poller_ok po st -> op_ok po st o p ->
  exists po' st', run_op o po st p = Ok (po', st') /\ poller_ok po' st' /\
    forall q c, st !! q = Some c -> exists c', st' !! q = Some c' /\ fd_ c' = fd_ c /\
      events_ c' = if bool_decide (p = q) then op_events o (events_ c) else events_ c.
Proof.
  intros R (c & Hc & Hok). destruct (decide (o = Remove)) as [->|Hne].
  - destruct Hok as [Hreg He]. destruct (remove_ok po st p c R Hc Hreg He) as (po' & i & E & R' & _).
    exists po'. eexists. split; [|split; [exact R'|]].
    + cbn [run_op]. unfold remove, channel_at. rewrite Hc. cbn [res_bind].
      unfold isNoneEvent. rewrite He. cbn. exact E.
    + intros q c1 H1. case_bool_decide as Eq.
      * subst q. rewrite lookup_insert_eq. eexists. split; [done|].
        assert (c1 = c) as -> by congruence. done.
      * rewrite lookup_insert_ne by done. by exists c1.
  - assert (Hok' : channels_ po !! fd_ c = None \/ channels_ po !! fd_ c = Some p)
      by (by destruct o).
    destruct (update_ok po st p c R Hc Hok' (op_events o (events_ c))) as (po' & i & E & R' & _).
    exists po'. eexists. split; [|split; [exact R'|]].
    + by rewrite (run_op_set o po st p c Hne Hc).
    + intros q c1 H1. case_bool_decide as Eq.
      * subst q. rewrite lookup_insert_eq. eexists. split; [done|].
        assert (c1 = c) as -> by congruence. done.
      * rewrite lookup_insert_ne by done. by exists c1.
Qed.

Lemma run_ops_ok l po st : poller_ok po st -> ops_ok l po st ->
  exists po' st', run_ops l po st = Ok (po', st') /\ poller_ok po' st' /\
    forall p c, st !! p = Some c -> exists c', st' !! p = Some c' /\ fd_ c' = fd_ c /\
      events_ c' = asked l p (events_ c).
Proof.
  revert po st. induction l as [|[o p] l IH]; intros po st R Hok; cbn [run_ops].
  - exists po, st. split_and!; try done. intros p c Hc. by exists c.
  - destruct Hok as [Ho Hok]. destruct (run_op_ok o p po st R Ho) as (po1 & st1 & E & R1 & H1).
    rewrite E. cbn [res_bind].
    destruct (IH po1 st1 R1 (Hok _ _ E)) as (po' & st' & E' & R' & H').
    exists po', st'. split_and!; try done. intros q c Hc.
    destruct (H1 q c Hc) as (c1 & Hc1 & Hf1 & He1). destruct (H' q c1 Hc1) as (c' & Hc' & Hf' & He').
    exists c'. split_and!; [done|congruence|]. rewrite He', He1. done.
Qed.
End client.
