(* ===== verification/EPollPoller.v ===== *)
(** * The epoll poller (cnet/net/poller/EPollPoller.h, EPollPoller.cc) *)

From stdpp Require Import gmap.
From S2P Require Import Prelude Channel.

Inductive ctl_op : Set := EPOLL_CTL_ADD | EPOLL_CTL_MOD | EPOLL_CTL_DEL.

Definition operationToString (op : ctl_op) : bytes :=
  match op with
  | EPOLL_CTL_ADD => bs "ADD"
  | EPOLL_CTL_MOD => bs "MOD"
  | EPOLL_CTL_DEL => bs "DEL"
  end.

(** The kernel's epoll instance, as epoll_ctl(2) documents it: an interest list
    with one entry per descriptor, here the events and [data.ptr].  The laws
    are the documented effects of the calls that succeed on a valid
    descriptor. *)
Class Epoll : Type := {
  kernel : Type;
  interest : kernel -> gmap Z (Z * Z);
  epoll_ctl : kernel -> ctl_op -> Z -> Z * Z -> kernel * bool;
  ctl_add : forall k fd ev, interest k !! fd = None ->
    (epoll_ctl k EPOLL_CTL_ADD fd ev).2 = true /\
    interest (epoll_ctl k EPOLL_CTL_ADD fd ev).1 = <[fd := ev]> (interest k);
  ctl_mod : forall k fd ev, is_Some (interest k !! fd) ->
    (epoll_ctl k EPOLL_CTL_MOD fd ev).2 = true /\
    interest (epoll_ctl k EPOLL_CTL_MOD fd ev).1 = <[fd := ev]> (interest k);
  ctl_del : forall k fd ev, is_Some (interest k !! fd) ->
    (epoll_ctl k EPOLL_CTL_DEL fd ev).2 = true /\
    interest (epoll_ctl k EPOLL_CTL_DEL fd ev).1 = delete fd (interest k);
}.

Definition kNew : Z := -1.
Definition kAdded : Z := 1.
Definition kDeleted : Z := 2.
Definition kInitEventListSize : Z := 16.

Section epoll.
Context `{Epoll}.

Record EPollPoller := mkEPoll {
  ep_channels : gmap Z Z;
  epollfd_ : kernel;
  eventsSize : Z;          (* events_.size() *)
}.

Definition EPollPoller_new (k : kernel) : EPollPoller := mkEPoll ∅ k kInitEventListSize.

(** [update(operation, channel)]: a failing ADD or MOD is fatal. *)
Definition ep_update (po : EPollPoller) (operation : ctl_op) (channel : Z) (c : Channel)
  : res EPollPoller :=
  let (k, ok) := epoll_ctl (epollfd_ po) operation (fd_ c) (events_ c, channel) in
  if ok then Ok (mkEPoll (ep_channels po) k (eventsSize po))
  else match operation with
       | EPOLL_CTL_DEL => Ok (mkEPoll (ep_channels po) k (eventsSize po))
       | _ => Err EFatal
       end.

Definition registered (po : EPollPoller) (fd : Z) : bool := bool_decide (is_Some (ep_channels po !! fd)).

Definition ep_updateChannel (po : EPollPoller) (st : store) (channel : Z) : res (EPollPoller * store) :=
  let* c := channel_at st channel in
  let index := index_ c in
  let fd := fd_ c in
  if (index =? kNew) || (index =? kDeleted) then
    let* po :=
      (if index =? kNew then
         assert! negb (registered po fd);
         Ok (mkEPoll (<[fd := channel]> (ep_channels po)) (epollfd_ po) (eventsSize po))
       else
         assert! registered po fd;
         assert! bool_decide (ep_channels po !! fd = Some channel);
         Ok po) in
    let c := set_index c kAdded in
    let* po := ep_update po EPOLL_CTL_ADD channel c in
    Ok (po, <[channel := c]> st)
  else
    assert! registered po fd;
    assert! bool_decide (ep_channels po !! fd = Some channel);
    assert! index =? kAdded;
    if isNoneEvent c then
      let* po := ep_update po EPOLL_CTL_DEL channel c in
      Ok (po, <[channel := set_index c kDeleted]> st)
    else
      let* po := ep_update po EPOLL_CTL_MOD channel c in
      Ok (po, st).

Definition ep_removeChannel (po : EPollPoller) (st : store) (channel : Z) : res (EPollPoller * store) :=
  let* c := channel_at st channel in
  let fd := fd_ c in
  assert! registered po fd;
  assert! bool_decide (ep_channels po !! fd = Some channel);
  assert! isNoneEvent c;
  let index := index_ c in
  assert! (index =? kAdded) || (index =? kDeleted);
  let po := mkEPoll (delete fd (ep_channels po)) (epollfd_ po) (eventsSize po) in
  let* po := (if index =? kAdded then ep_update po EPOLL_CTL_DEL channel c else Ok po) in
  Ok (po, <[channel := set_index c kNew]> st).

#[export] Instance EPollPoller_ops : PollerOps EPollPoller := {|
  channels_ := ep_channels;
  updateChannel := ep_updateChannel;
  removeChannel := ep_removeChannel;
|}.

(** ** Polling *)

(** What [epoll_wait] returned: the ready entries, or an error. *)
Inductive wait_result : Type :=
| WaitEvents (l : list (Z * Z))       (* events, data.ptr *)
| WaitEINTR
| WaitError.

Definition fill_one (po : EPollPoller) (acc : store * list Z) (ev : Z * Z) : res (store * list Z) :=
  let (st, active) := acc in
  let (events, channel) := ev in
  let* c := channel_at st channel in
  assert! registered po (fd_ c);
  assert! bool_decide (ep_channels po !! fd_ c = Some channel);
  Ok (<[channel := set_revents c events]> st, active ++ [channel]).

Definition fillActiveChannels (po : EPollPoller) (st : store) (l : list (Z * Z))
  : res (store * list Z) :=
  assert! zlen l <=? eventsSize po;
  res_foldl (fill_one po) (st, []) l.

Definition poll (po : EPollPoller) (st : store) (w : wait_result)
  : res (EPollPoller * store * list Z) :=
  match w with
  | WaitEvents [] => Ok (po, st, [])
  | WaitEvents l =>
      let* (st, active) := fillActiveChannels po st l in
      let po := if zlen l =? eventsSize po
                then mkEPoll (ep_channels po) (epollfd_ po) (eventsSize po * 2) else po in
      Ok (po, st, active)
  | WaitEINTR => Ok (po, st, [])
  | WaitError => Err EFatal
  end.

(** ** The contract *)

Record epoll_ok (po : EPollPoller) (st : store) : Prop := mkEpollOk {
  ok_registered : forall p c, st !! p = Some c -> ep_channels po !! fd_ c = Some p ->
    (index_ c = kAdded /\ interest (epollfd_ po) !! fd_ c = Some (events_ c, p)) \/
    (index_ c = kDeleted /\ interest (epollfd_ po) !! fd_ c = None /\ events_ c = kNoneEvent);
  ok_new : forall p c, st !! p = Some c -> ep_channels po !! fd_ c <> Some p -> index_ c = kNew;
  ok_alive : forall fd p, ep_channels po !! fd = Some p -> exists c, st !! p = Some c /\ fd_ c = fd;
  ok_interest : forall fd, is_Some (interest (epollfd_ po) !! fd) -> is_Some (ep_channels po !! fd);
}.

(** Replacing channel [p] and the registration of its descriptor. *)
Lemma epoll_ok_step po st p c c' ch k n :
  epoll_ok po st -> st !! p = Some c -> fd_ c' = fd_ c ->
  ep_channels po !! fd_ c = None \/ ep_channels po !! fd_ c = Some p ->
  (forall fd, fd <> fd_ c -> ch !! fd = ep_channels po !! fd /\
                             interest k !! fd = interest (epollfd_ po) !! fd) ->
  ch !! fd_ c = Some p /\
    ((index_ c' = kAdded /\ interest k !! fd_ c = Some (events_ c', p)) \/
     (index_ c' = kDeleted /\ interest k !! fd_ c = None /\ events_ c' = kNoneEvent)) \/
  ch !! fd_ c = None /\ index_ c' = kNew /\ interest k !! fd_ c = None ->
  epoll_ok (mkEPoll ch k n) (<[p := c']> st).
Proof.
  intros R Hc Hf Hreg Hother Hnew.
  constructor; cbn [ep_channels epollfd_].
  - intros q d [[<- <-]|[Hq Hd]]%lookup_insert_Some Hr.
    + rewrite Hf in *. destruct Hnew as [[_ Hn]|[Hn _]]; [done|congruence].
    + destruct (decide (fd_ d = fd_ c)) as [E|E].
      * rewrite E in Hr. destruct Hnew as [[Hn _]|[Hn _]]; congruence.
      * destruct (Hother _ E) as [E1 E2]. rewrite E1 in Hr. rewrite E2. by eapply ok_registered.
  - intros q d [[<- <-]|[Hq Hd]]%lookup_insert_Some Hr.
    + rewrite Hf in *. destruct Hnew as [[Hn _]|(_ & Hn & _)]; [congruence|done].
    + apply (ok_new po st R q d Hd). destruct (decide (fd_ d = fd_ c)) as [E|E].
      * rewrite E. destruct Hreg; congruence.
      * destruct (Hother _ E) as [<- _]. done.
  - intros fd q Hr. destruct (decide (fd = fd_ c)) as [->|E].
    + assert (q = p) as -> by (destruct Hnew as [[Hn _]|[Hn _]]; congruence).
      exists c'. by rewrite lookup_insert_eq.
    + destruct (Hother _ E) as [E1 _]. rewrite E1 in Hr.
      destruct (ok_alive po st R fd q Hr) as (d & Hd & Hfd).
      exists d. split; [|done]. rewrite lookup_insert_ne; [done|]. intros ->. congruence.
  - intros fd Hi. destruct (decide (fd = fd_ c)) as [->|E].
    + destruct Hnew as [[Hn _]|(_ & _ & Hn)]; [by rewrite Hn|rewrite Hn in Hi; by destruct Hi].
    + destruct (Hother _ E) as [-> E2]. rewrite E2 in Hi. by eapply ok_interest.
Qed.

Lemma registered_true po fd p : ep_channels po !! fd = Some p -> registered po fd = true.
Proof. intros E. apply bool_decide_eq_true. by eexists. Qed.

Lemma not_interest po st fd : epoll_ok po st -> ep_channels po !! fd = None ->
  interest (epollfd_ po) !! fd = None.
Proof.
  intros R E. destruct (interest (epollfd_ po) !! fd) eqn:Ei; [|done].
  destruct (ok_interest po st R fd) as [x Hx]; [by eexists|]. congruence.
Qed.

Lemma ep_update_add po c p : interest (epollfd_ po) !! fd_ c = None ->
  exists k, ep_update po EPOLL_CTL_ADD p c =
      Ok (mkEPoll (ep_channels po) k (eventsSize po)) /\
    interest k = <[fd_ c := (events_ c, p)]> (interest (epollfd_ po)).
Proof.
  intros Hi. destruct (ctl_add (epollfd_ po) (fd_ c) (events_ c, p) Hi) as [H1 H2].
  unfold ep_update.
  destruct (epoll_ctl (epollfd_ po) EPOLL_CTL_ADD (fd_ c) (events_ c, p)) as [k ok].
  cbn [fst snd] in *. subst ok. by exists k.
Qed.

Lemma ep_update_mod po c p : is_Some (interest (epollfd_ po) !! fd_ c) ->
  exists k, ep_update po EPOLL_CTL_MOD p c =
      Ok (mkEPoll (ep_channels po) k (eventsSize po)) /\
    interest k = <[fd_ c := (events_ c, p)]> (interest (epollfd_ po)).
Proof.
  intros Hi. destruct (ctl_mod (epollfd_ po) (fd_ c) (events_ c, p) Hi) as [H1 H2].
  unfold ep_update.
  destruct (epoll_ctl (epollfd_ po) EPOLL_CTL_MOD (fd_ c) (events_ c, p)) as [k ok].
  cbn [fst snd] in *. subst ok. by exists k.
Qed.

Lemma ep_update_del po c p : is_Some (interest (epollfd_ po) !! fd_ c) ->
  exists k, ep_update po EPOLL_CTL_DEL p c =
      Ok (mkEPoll (ep_channels po) k (eventsSize po)) /\
    interest k = delete (fd_ c) (interest (epollfd_ po)).
Proof.
  intros Hi. destruct (ctl_del (epollfd_ po) (fd_ c) (events_ c, p) Hi) as [H1 H2].
  unfold ep_update.
  destruct (epoll_ctl (epollfd_ po) EPOLL_CTL_DEL (fd_ c) (events_ c, p)) as [k ok].
  cbn [fst snd] in *. subst ok. by exists k.
Qed.

Lemma ep_update_ok po st p c e : epoll_ok po st -> st !! p = Some c ->
  ep_channels po !! fd_ c = None \/ ep_channels po !! fd_ c = Some p ->
  let c2 := set_added (with_events c e) true in
  exists po' i, ep_updateChannel po (<[p := c2]> st) p = Ok (po', <[p := set_index c2 i]> st) /\
    epoll_ok po' (<[p := set_index c2 i]> st) /\ ep_channels po' = <[fd_ c := p]> (ep_channels po).
Proof.
  intros R Hc Hreg c2. unfold ep_updateChannel, channel_at. rewrite lookup_insert_eq. cbn [res_bind].
  change (index_ c2) with (index_ c). change (fd_ c2) with (fd_ c).
  destruct Hreg as [Hno|Hreg].
  - rewrite (ok_new po st R p c Hc) by congruence. cbn [Z.eqb kNew Pos.eqb orb].
    assert (registered po (fd_ c) = false) as ->.
    { apply bool_decide_eq_false. rewrite Hno. by intros [? ?]. }
    cbn [negb assert_ res_bind].
    destruct (ep_update_add (mkEPoll (<[fd_ c := p]> (ep_channels po)) (epollfd_ po) (eventsSize po)) (set_index c2 kAdded) p)
      as (k & E & Hk); [by apply (not_interest po st)|].
    cbn [ep_channels epollfd_ eventsSize] in *. change (fd_ (set_index c2 kAdded)) with (fd_ c) in *. rewrite E. cbn [res_bind].
    rewrite insert_insert_eq. eexists _, kAdded. split; [reflexivity|]. split; [|done].
    apply (epoll_ok_step po st p c); [done..|by left| |].
    + intros fd Hfd. rewrite Hk, !lookup_insert_ne by done. done.
    + left. rewrite Hk, !lookup_insert_eq. split; [done|]. by left.
  - assert (Eid : <[fd_ c := p]> (ep_channels po) = ep_channels po) by (by apply insert_id).
    destruct (ok_registered po st R p c Hc Hreg) as [[Hi Hk]|(Hi & Hk & _)]; rewrite Hi;
      cbn [Z.eqb kNew kAdded kDeleted Pos.eqb orb]; rewrite (registered_true _ _ p) by done;
      rewrite bool_decide_eq_true_2 by done; cbn [assert_ res_bind].
    + destruct (isNoneEvent c2) eqn:En.
      * destruct (ep_update_del po c2 p) as (k & E & Hk'); [by eexists|].
        rewrite E. cbn [res_bind]. rewrite insert_insert_eq. eexists _, kDeleted. split; [reflexivity|].
        split; [|done]. change (fd_ c2) with (fd_ c) in Hk'.
        apply (epoll_ok_step po st p c); [done..|by right| |].
        -- intros fd Hfd. rewrite Hk', lookup_delete_ne by done. done.
        -- left. rewrite Hk', lookup_delete_eq. split; [done|]. right. split_and!; [done..|].
           by apply Z.eqb_eq.
      * destruct (ep_update_mod po c2 p) as (k & E & Hk'); [by eexists|].
        rewrite E. cbn [res_bind]. eexists _, kAdded.
        assert (set_index c2 kAdded = c2) as E2 by (unfold c2, set_added, with_events, set_index; cbn; by rewrite Hi).
        rewrite E2. split; [reflexivity|]. split; [|done]. change (fd_ c2) with (fd_ c) in Hk'.
        apply (epoll_ok_step po st p c); [done..|by right| |].
        -- intros fd Hfd. rewrite Hk', lookup_insert_ne by done. done.
        -- left. rewrite Hk', lookup_insert_eq. split; [done|]. left. split; [exact Hi|done].
    + destruct (ep_update_add po (set_index c2 kAdded) p) as (k & E & Hk'); [done|].
      rewrite E. cbn [res_bind]. rewrite insert_insert_eq. eexists _, kAdded. split; [reflexivity|].
      split; [|done]. change (fd_ (set_index c2 kAdded)) with (fd_ c) in Hk'.
      apply (epoll_ok_step po st p c); [done..|by right| |].
      * intros fd Hfd. rewrite Hk', lookup_insert_ne by done. done.
      * left. rewrite Hk', lookup_insert_eq. split; [done|]. by left.
Qed.

Lemma ep_remove_ok po st p c : epoll_ok po st -> st !! p = Some c ->
  ep_channels po !! fd_ c = Some p -> events_ c = kNoneEvent ->
  let c2 := set_added c false in
  exists po' i, ep_removeChannel po (<[p := c2]> st) p = Ok (po', <[p := set_index c2 i]> st) /\
    epoll_ok po' (<[p := set_index c2 i]> st) /\ ep_channels po' = delete (fd_ c) (ep_channels po).
Proof.
  intros R Hc Hreg He c2. unfold ep_removeChannel, channel_at. rewrite lookup_insert_eq. cbn [res_bind].
  change (index_ c2) with (index_ c). change (fd_ c2) with (fd_ c).
  rewrite (registered_true _ _ p) by done. rewrite bool_decide_eq_true_2 by done.
  assert (isNoneEvent c2 = true) as -> by (by apply Z.eqb_eq). cbn [assert_ res_bind].
  destruct (ok_registered po st R p c Hc Hreg) as [[Hi Hk]|(Hi & Hk & _)]; rewrite Hi;
    cbn [Z.eqb kAdded kDeleted Pos.eqb orb assert_ res_bind].
  - destruct (ep_update_del (mkEPoll (delete (fd_ c) (ep_channels po)) (epollfd_ po) (eventsSize po)) c2 p) as (k & E & Hk'); [by eexists|].
    cbn [ep_channels epollfd_ eventsSize] in *. rewrite E. cbn [res_bind]. rewrite insert_insert_eq. eexists _, kNew. split; [reflexivity|].
    split; [|done]. change (fd_ c2) with (fd_ c) in Hk'.
    apply (epoll_ok_step po st p c); [done..|by right| |].
    + intros fd Hfd. rewrite Hk', !lookup_delete_ne by done. done.
    + right. by rewrite Hk', !lookup_delete_eq.
  - rewrite insert_insert_eq. eexists _, kNew. split; [reflexivity|]. split; [|done].
    apply (epoll_ok_step po st p c); [done..|by right| |].
    + intros fd Hfd. rewrite !lookup_delete_ne by done. done.
    + right. by rewrite lookup_delete_eq.
Qed.

#[export, refine] Instance EPollPoller_laws : PollerLaws EPollPoller := {|
  poller_ok := epoll_ok;
  watched := fun po fd => interest (epollfd_ po) !! fd;
|}.
Proof.
  - intros po st p c R Hc Hreg He.
    destruct (ok_registered po st R p c Hc Hreg) as [[_ H1]|(_ & _ & H1)]; done.
  - intros po st fd e p R Hw. destruct (ok_interest po st R fd) as [q Hq]; [by eexists|].
    destruct (ok_alive po st R fd q Hq) as (c & Hc & <-).
    destruct (ok_registered po st R q c Hc Hq) as [[_ H1]|(_ & H1 & _)]; [|congruence].
    rewrite H1 in Hw. injection Hw as <- <-. eauto.
  - intros po st p c R Hc Hreg e. by apply ep_update_ok.
  - intros po st p c R Hc Hreg He. by apply ep_remove_ok.
Defined.
End epoll.

(** An interest list that is itself the kernel. *)
#[export, refine] Instance Epoll_gmap : Epoll := {|
  kernel := gmap Z (Z * Z);
  interest := fun k => k;
  epoll_ctl := fun k op fd ev =>
    match op, k !! fd with
    | EPOLL_CTL_ADD, None => (<[fd := ev]> k, true)
    | EPOLL_CTL_MOD, Some _ => (<[fd := ev]> k, true)
    | EPOLL_CTL_DEL, Some _ => (delete fd k, true)
    | _, _ => (k, false)
    end;
|}.
Proof.
  - intros k fd ev ->. done.
  - intros k fd ev [x ->]. done.
  - intros k fd ev [x ->]. done.
Defined.

(** ** Properties *)

(** C10: the epoll poller keeps the kernel in step.  After any sequence of
    enabling, disabling and removing on channels with distinct descriptors, no
    assertion has failed and no epoll_ctl has been refused; each channel asks
    for the events its own operations leave; and the kernel reports a
    registered descriptor exactly for the events its channel asks for, with
    that channel's address, and never a descriptor that is not registered. *)
Theorem epoll_interest_in_step `{Epoll} (l : list (channel_op * Z)) (po : EPollPoller) (st : store) :
  poller_ok po st -> ops_ok l po st ->
  exists po' st', run_ops l po st = Ok (po', st') /\ poller_ok po' st' /\
    (forall p c, st !! p = Some c -> exists c', st' !! p = Some c' /\ fd_ c' = fd_ c /\
       events_ c' = asked l p (events_ c) /\
       (channels_ po' !! fd_ c = Some p -> asked l p (events_ c) <> kNoneEvent ->
          interest (epollfd_ po') !! fd_ c = Some (asked l p (events_ c), p))) /\
    (forall fd e p, interest (epollfd_ po') !! fd = Some (e, p) ->
       channels_ po' !! fd = Some p /\ exists c, st' !! p = Some c /\ fd_ c = fd /\ events_ c = e).
Proof.
  intros R Hok. destruct (run_ops_ok l po st R Hok) as (po' & st' & E & R' & Hc).
  exists po', st'. split; [done|]. split; [done|]. split.
  - intros p c Hp. destruct (Hc p c Hp) as (c' & H1 & H2 & H3). exists c'. split_and!; [done..|].
    intros Hreg He. rewrite <-H2, <-H3 in *. exact (watched_events po' st' p c' R' H1 Hreg He).
  - intros fd e p Hw. exact (watched_registered po' st' fd e p R' Hw).
Qed.

Definition ex_store : store :=
  list_to_map [(100, Channel_new 7); (200, Channel_new 9)].
Definition ex_ops : list (channel_op * Z) :=
  [(EnableReading, 100); (EnableWriting, 200); (EnableWriting, 100); (DisableAll, 200);
   (DisableReading, 100); (Remove, 200)].

Lemma epoll_interest_in_step_witness :
  let po := EPollPoller_new (∅ : gmap Z (Z * Z)) in
  poller_ok po ex_store /\ ops_ok ex_ops po ex_store /\
  exists po' st', run_ops ex_ops po ex_store = Ok (po', st') /\ poller_ok po' st' /\
    asked ex_ops 100 0 = kWriteEvent.
Proof.
  intros po.
  assert (R : poller_ok po ex_store).
  { constructor; cbn.
    - intros p c _ Hr. done.
    - intros p c Hp _. repeat (apply lookup_insert_Some in Hp as [[_ <-]|[_ Hp]]; [reflexivity|]). done.
    - intros fd p Hr. done.
    - intros fd [x Hx]. done. }
  assert (O : ops_ok ex_ops po ex_store).
  { apply ops_okb_ok. vm_compute. reflexivity. }
  split; [exact R|]. split; [exact O|].
  destruct (epoll_interest_in_step ex_ops po ex_store R O) as (po' & st' & E & R' & _).
  exists po', st'. split; [exact E|]. split; [exact R'|reflexivity].
Defined.
