(* ===== verification/PollPoller.v ===== *)
(** * The poll poller (cnet/net/poller/PollPoller.h, PollPoller.cc)

    The channel's index is its position in the vector given to poll(2); a
    negative descriptor in that vector is ignored by poll(2). *)

From stdpp Require Import gmap.
From S2P Require Import Prelude Channel.

Record pollfd := mkPollfd { pfd_fd : Z; pfd_events : Z; pfd_revents : Z }.

Record PollPoller := mkPoll {
  pp_channels : gmap Z Z;
  pollfds_ : list pollfd;
}.

Definition PollPoller_new : PollPoller := mkPoll ∅ [].

Definition registered (po : PollPoller) (fd : Z) : bool := bool_decide (is_Some (pp_channels po !! fd)).

Definition pp_updateChannel (po : PollPoller) (st : store) (channel : Z) : res (PollPoller * store) :=
  let* c := channel_at st channel in
  if index_ c <? 0 then
    assert! negb (registered po (fd_ c));
    let pfd := mkPollfd (fd_ c) (s16 (events_ c)) 0 in
    let pollfds := pollfds_ po ++ [pfd] in
    let idx := s32 (zlen pollfds - 1) in
    Ok (mkPoll (<[fd_ c := channel]> (pp_channels po)) pollfds, <[channel := set_index c idx]> st)
  else
    assert! registered po (fd_ c);
    assert! bool_decide (pp_channels po !! fd_ c = Some channel);
    let idx := index_ c in
    assert! (0 <=? idx) && (idx <? s32 (zlen (pollfds_ po)));
    match pollfds_ po !! Z.to_nat idx with
    | None => Err EUndefined
    | Some pfd =>
        assert! (pfd_fd pfd =? fd_ c) || (pfd_fd pfd =? - fd_ c - 1);
        let fd := if isNoneEvent c then - fd_ c - 1 else pfd_fd pfd in
        Ok (mkPoll (pp_channels po)
                   (<[Z.to_nat idx := mkPollfd fd (s16 (events_ c)) 0]> (pollfds_ po)), st)
    end.

Definition pp_removeChannel (po : PollPoller) (st : store) (channel : Z) : res (PollPoller * store) :=
  let* c := channel_at st channel in
  assert! registered po (fd_ c);
  assert! bool_decide (pp_channels po !! fd_ c = Some channel);
  assert! isNoneEvent c;
  let idx := index_ c in
  assert! (0 <=? idx) && (idx <? s32 (zlen (pollfds_ po)));
  match pollfds_ po !! Z.to_nat idx with
  | None => Err EUndefined
  | Some pfd =>
      assert! (pfd_fd pfd =? - fd_ c - 1) || (pfd_events pfd =? events_ c);
      Ok (mkPoll (delete (fd_ c) (pp_channels po)) (delete (Z.to_nat idx) (pollfds_ po)), st)
  end.

#[export] Instance PollPoller_ops : PollerOps PollPoller := {|
  channels_ := pp_channels;
  updateChannel := pp_updateChannel;
  removeChannel := pp_removeChannel;
|}.

(** [fillActiveChannels], over the entries [::poll] filled in. *)
Definition fill_one (po : PollPoller) (acc : store * list Z) (pfd : pollfd) : res (store * list Z) :=
  let (st, active) := acc in
  if pfd_revents pfd <=? 0 then Ok (st, active) else
  match pp_channels po !! pfd_fd pfd with
  | None => Err EAssert
  | Some channel =>
      let* c := channel_at st channel in
      assert! fd_ c =? pfd_fd pfd;
      Ok (<[channel := set_revents c (pfd_revents pfd)]> st, active ++ [channel])
  end.

(** [poll]: [revents] is what the call stored, [None] an error (logged, or
    EINTR). *)
Definition poll (po : PollPoller) (st : store) (revents : option (list Z))
  : res (PollPoller * store * list Z) :=
  match revents with
  | None => Ok (po, st, [])
  | Some r =>
      let po := mkPoll (pp_channels po)
        (zip_with (fun pfd rv => mkPollfd (pfd_fd pfd) (pfd_events pfd) rv) (pollfds_ po) r) in
      if 0 <? Z.of_nat (length (filter (fun rv => rv <> 0) r)) then
        let* (st, active) := res_foldl (fill_one po) (st, []) (pollfds_ po) in
        Ok (po, st, active)
      else Ok (po, st, [])
  end.

(** ** What the vector holds *)

(** The descriptor an entry is about, ignored or not. *)
Definition base (x : Z) : Z := if x <? 0 then - x - 1 else x.

(** Every registered channel has its entry at its index, one entry per
    descriptor. *)
Record poll_ok (po : PollPoller) (st : store) : Prop := mkPollOk {
  ok_entry : forall p c, st !! p = Some c -> pp_channels po !! fd_ c = Some p ->
    0 <= index_ c /\ 0 <= fd_ c /\
    exists pfd, pollfds_ po !! Z.to_nat (index_ c) = Some pfd /\ base (pfd_fd pfd) = fd_ c;
  ok_distinct : NoDup (map (fun pfd => base (pfd_fd pfd)) (pollfds_ po));
  ok_size : zlen (pollfds_ po) < 2 ^ 31;
}.

Lemma base_cases x fd : 0 <= fd -> base x = fd <-> x = fd \/ x = - fd - 1.
Proof. unfold base. destruct (Z.ltb_spec x 0); lia. Qed.

Lemma pp_registered_true po fd p : pp_channels po !! fd = Some p -> registered po fd = true.
Proof. intros E. apply bool_decide_eq_true. by eexists. Qed.

Lemma index_in_range po i pfd : zlen (pollfds_ po) < 2 ^ 31 -> 0 <= i ->
  pollfds_ po !! Z.to_nat i = Some pfd ->
  (0 <=? i) && (i <? s32 (zlen (pollfds_ po))) = true.
Proof.
  intros Hs Hi H. apply lookup_lt_Some in H. unfold zlen in *.
  rewrite s32_small by lia. lia.
Qed.

(** [updateChannel] on a registered channel: only the events, and the
    descriptor when there are none, change. *)
Lemma pp_update_registered po st p c : poll_ok po st -> st !! p = Some c ->
  pp_channels po !! fd_ c = Some p -> forall c', fd_ c' = fd_ c -> index_ c' = index_ c ->
  exists pfd, pollfds_ po !! Z.to_nat (index_ c) = Some pfd /\ base (pfd_fd pfd) = fd_ c /\
    pp_updateChannel po (<[p := c']> st) p =
      Ok (mkPoll (pp_channels po)
            (<[Z.to_nat (index_ c) :=
                 mkPollfd (if isNoneEvent c' then - fd_ c - 1 else pfd_fd pfd) (s16 (events_ c')) 0]>
               (pollfds_ po)), <[p := c']> st).
Proof.
  intros R Hc Hreg c' Hf Hi. destruct (ok_entry po st R p c Hc Hreg) as (H0 & Hfd & pfd & Hp & Hb).
  exists pfd. split; [done|]. split; [done|].
  unfold pp_updateChannel, channel_at. rewrite lookup_insert_eq. cbn [res_bind]. rewrite Hf, Hi.
  destruct (Z.ltb_spec (index_ c) 0); [lia|].
  rewrite (pp_registered_true po _ p Hreg), bool_decide_eq_true_2 by done.
  rewrite (index_in_range po _ pfd) by (done || apply R). cbn [assert_ res_bind]. rewrite Hp.
  apply base_cases in Hb; [|done].
  assert ((pfd_fd pfd =? fd_ c) || (pfd_fd pfd =? - fd_ c - 1) = true) as -> by lia.
  done.
Qed.

Lemma poll_ok_update po st p c c' pfd pfd' : poll_ok po st -> st !! p = Some c ->
  fd_ c' = fd_ c -> index_ c' = index_ c -> pollfds_ po !! Z.to_nat (index_ c) = Some pfd ->
  base (pfd_fd pfd') = base (pfd_fd pfd) ->
  poll_ok (mkPoll (pp_channels po) (<[Z.to_nat (index_ c) := pfd']> (pollfds_ po))) (<[p := c']> st).
Proof.
  intros R Hc Hf Hi Hp Hb.
  assert (E : map (fun pfd => base (pfd_fd pfd)) (<[Z.to_nat (index_ c) := pfd']> (pollfds_ po)) =
              map (fun pfd => base (pfd_fd pfd)) (pollfds_ po)).
  { rewrite list_fmap_insert, Hb. apply list_insert_id. by rewrite list_lookup_fmap, Hp. }
  constructor; cbn [pp_channels pollfds_].
  - assert (G : forall q d, st !! q = Some d -> pp_channels po !! fd_ d = Some q ->
        0 <= index_ d /\ 0 <= fd_ d /\ exists e,
          (<[Z.to_nat (index_ c) := pfd']> (pollfds_ po)) !! Z.to_nat (index_ d) = Some e /\
          base (pfd_fd e) = fd_ d).
    { intros q d Hd Hr. destruct (ok_entry po st R q d Hd Hr) as (H1 & H2 & e & He & Hbe).
      split_and!; [done..|]. destruct (decide (Z.to_nat (index_ c) = Z.to_nat (index_ d))) as [En|En].
      - exists pfd'. rewrite En, list_lookup_insert_eq by (by eapply lookup_lt_Some).
        split; [done|]. rewrite Hb. congruence.
      - exists e. by rewrite list_lookup_insert_ne. }
    intros q d [[<- <-]|[_ Hd]]%lookup_insert_Some Hr; [|by eapply G].
    rewrite Hf, Hi in *. by eapply G.
  - rewrite E. apply R.
  - unfold zlen. rewrite length_insert. apply R.
Qed.

Lemma run_op_registered o po st p c : poll_ok po st -> st !! p = Some c ->
  pp_channels po !! fd_ c = Some p -> o <> Remove ->
  let c' := set_added (with_events c (op_events o (events_ c))) true in
  exists pfd po', pollfds_ po !! Z.to_nat (index_ c) = Some pfd /\ base (pfd_fd pfd) = fd_ c /\
    run_op o po st p = Ok (po', <[p := c']> st) /\ poll_ok po' (<[p := c']> st) /\
    pp_channels po' = pp_channels po /\
    pollfds_ po' !! Z.to_nat (index_ c) =
      Some (mkPollfd (if isNoneEvent c' then - fd_ c - 1 else pfd_fd pfd) (s16 (events_ c')) 0).
Proof.
  intros R Hc Hreg Ho c'.
  destruct (pp_update_registered po st p c R Hc Hreg c' eq_refl eq_refl) as (pfd & Hp & Hb & E).
  exists pfd. eexists. rewrite (run_op_set o po st p c Ho Hc).
  split_and!; [done|done|exact E| |done|].
  - apply (poll_ok_update po st p c c' pfd); try done. cbn [pfd_fd].
    destruct (ok_entry po st R p c Hc Hreg) as (_ & Hfd & _).
    destruct (isNoneEvent c'); [|done]. rewrite Hb. apply base_cases; [done|by right].
  - cbn [pollfds_]. apply list_lookup_insert_eq. by eapply lookup_lt_Some.
Qed.

Lemma remove_inv po st p c po1 st1 : st !! p = Some c -> remove po st p = Ok (po1, st1) ->
  po1 = mkPoll (delete (fd_ c) (pp_channels po)) (delete (Z.to_nat (index_ c)) (pollfds_ po)) /\
  st1 = <[p := set_added c false]> st.
Proof.
  intros Hc E. unfold remove, channel_at in E. rewrite Hc in E. cbn [res_bind] in E. inv_ok.
  cbn [removeChannel PollPoller_ops] in E. unfold pp_removeChannel, channel_at in E.
  rewrite lookup_insert_eq in E. cbn [res_bind] in E. inv_ok.
  change (index_ (set_added c false)) with (index_ c) in E.
  destruct (pollfds_ po !! Z.to_nat (index_ c)); [|done].
  apply res_bind_Ok in E as (_ & _ & E). by injection E as <- <-.
Qed.

(** An update of [q] after the entry at [i], before its own, was erased. *)
Lemma update_shifted fds st q d i po c' ch : st !! q = Some c' -> fd_ c' = fd_ d -> index_ c' = index_ d ->
  0 <= index_ d -> 0 <= fd_ d -> (i < Z.to_nat (index_ d))%nat ->
  NoDup (map (fun pfd => base (pfd_fd pfd)) fds) -> zlen fds < 2 ^ 31 ->
  (exists e, fds !! Z.to_nat (index_ d) = Some e /\ base (pfd_fd e) = fd_ d) ->
  po = mkPoll ch (delete i fds) -> ch !! fd_ d = Some q ->
  pp_updateChannel po st q = Err EAssert.
Proof.
  intros Hq Hf Hi Hi0 Hf0 Hlt Hnd Hs (e & He & Hb) -> Hch.
  unfold pp_updateChannel, channel_at. rewrite Hq. cbn [res_bind]. rewrite Hi, Hf.
  destruct (Z.ltb_spec (index_ d) 0); [lia|].
  rewrite (pp_registered_true _ _ q), bool_decide_eq_true_2 by done. cbn [assert_ res_bind pollfds_].
  destruct ((0 <=? index_ d) && _) eqn:Er; [|done]. cbn [assert_ res_bind].
  destruct (delete i fds !! Z.to_nat (index_ d)) as [e'|] eqn:E'.
  - rewrite list_lookup_delete_ge in E' by lia.
    destruct (_ || _) eqn:Eb; [|done]. exfalso.
    assert (base (pfd_fd e') = fd_ d) as Hb' by (apply base_cases; [done|lia]).
    assert (S (Z.to_nat (index_ d)) = Z.to_nat (index_ d)); [|lia].
    eapply (proj1 (NoDup_alt _) Hnd).
    + rewrite list_lookup_fmap, E'. cbn. by rewrite Hb'.
    + rewrite list_lookup_fmap, He. cbn. by rewrite Hb.
  - apply lookup_ge_None in E'. exfalso.
    assert (zlen (delete i fds) <= zlen fds) as Hl by (apply inj_le, sublist_length, sublist_delete).
    assert (0 <= zlen (delete i fds)) by apply zlen_nonneg.
    rewrite s32_small in Er by lia. unfold zlen in *. lia.
Qed.

(** where this poller departs from the contract of [PollerLaws].  (1) Once a
    channel has disabled all its events its entry is ignored for good: enabling
    reading or writing again leaves the descriptor negated, so poll(2) reports
    nothing for it although the channel asks for events.  (2) Removing a channel
    closes the gap in the vector without adjusting the indices of the channels
    behind it: the next update of any of them fails an assertion. *)
Theorem poll_poller_loses_channels (po : PollPoller) (st : store) (p : Z) (c : Channel) :
  poll_ok po st -> st !! p = Some c -> pp_channels po !! fd_ c = Some p ->
  (forall o, o = EnableReading \/ o = EnableWriting ->
     exists po1 st1 po2 st2 c2 e,
       disableAll po st p = Ok (po1, st1) /\ run_op o po1 st1 p = Ok (po2, st2) /\
       st2 !! p = Some c2 /\ events_ c2 <> kNoneEvent /\
       pollfds_ po2 !! Z.to_nat (index_ c2) = Some e /\ pfd_fd e = - fd_ c - 1) /\
  (forall po1 st1 q d o, remove po st p = Ok (po1, st1) ->
     st !! q = Some d -> pp_channels po !! fd_ d = Some q -> index_ c < index_ d ->
     o <> Remove -> run_op o po1 st1 q = Err EAssert).
Proof.
  intros R Hc Hreg. split.
  - intros o Ho.
    destruct (run_op_registered DisableAll po st p c R Hc Hreg ltac:(done))
      as (pfd & po1 & _ & _ & E1 & R1 & Hch1 & Hp1). cbv zeta in *.
    set (c1 := set_added (with_events c (op_events DisableAll (events_ c))) true) in *.
    assert (Hc1 : <[p := c1]> st !! p = Some c1) by apply lookup_insert_eq.
    assert (Hreg1 : pp_channels po1 !! fd_ c1 = Some p) by (by rewrite Hch1).
    assert (Ho' : o <> Remove) by (destruct Ho as [->| ->]; done).
    destruct (run_op_registered o po1 _ p c1 R1 Hc1 Hreg1 Ho')
      as (pfd1 & po2 & Hp1' & _ & E2 & _ & _ & Hp2). cbv zeta in *.
    change (index_ c1) with (index_ c) in *. rewrite Hp1 in Hp1'. injection Hp1' as <-.
    exists po1, (<[p := c1]> st), po2. eexists _, _, _.
    split; [exact E1|]. split; [exact E2|]. split; [apply lookup_insert_eq|].
    split; [destruct Ho as [->| ->]; done|]. split; [exact Hp2|].
    destruct Ho as [->| ->]; done.
  - intros po1 st1 q d o Erem Hd Hq Hlt Ho.
    destruct (ok_entry po st R p c Hc Hreg) as (H0 & Hfd & pfd & Hp & Hb).
    destruct (ok_entry po st R q d Hd Hq) as (_ & Hfdd & pfdq & Hpq & Hbq).
    assert (Hne : p <> q) by (intros ->; assert (c = d) by congruence; subst; lia).
    destruct (remove_inv po st p c po1 st1 Hc Erem) as [-> ->].
    rewrite (run_op_set o _ _ q d Ho) by (by rewrite lookup_insert_ne).
    eapply (update_shifted (pollfds_ po) _ q d (Z.to_nat (index_ c)));
      [apply lookup_insert_eq|done|done|lia|done|lia|apply R|apply R|by exists pfdq|reflexivity|].
    rewrite lookup_delete_ne; [done|]. intros E. rewrite E in Hreg. congruence.
Qed.

(** Two channels, at indices 0 and 1. *)
Definition ex_poller : PollPoller :=
  mkPoll (list_to_map [(7, 100); (9, 200)]) [mkPollfd (-8) 0 0; mkPollfd 9 1 0].
Definition ex_channels : store :=
  list_to_map [(100, set_index (Channel_new 7) 0);
               (200, set_index (with_events (Channel_new 9) 1) 1)].

Lemma ex_poller_ok : poll_ok ex_poller ex_channels.
Proof.
  constructor.
  - intros p c Hp _. unfold ex_channels in Hp. cbn in Hp. repeat (apply lookup_insert_Some in Hp as [[_ <-]|[_ Hp]];
      [split; [cbn; lia|]; split; [cbn; lia|]; eexists; split; reflexivity|]). by apply lookup_empty_Some in Hp.
  - apply (bool_decide_unpack _). by vm_compute.
  - done.
Qed.

Lemma poll_poller_loses_channels_witness :
  poll_ok ex_poller ex_channels /\
  (exists po1 st1 po2 st2 c2 e,
    disableAll ex_poller ex_channels 100 = Ok (po1, st1) /\
    run_op EnableReading po1 st1 100 = Ok (po2, st2) /\
    st2 !! 100 = Some c2 /\ events_ c2 <> kNoneEvent /\
    pollfds_ po2 !! Z.to_nat (index_ c2) = Some e /\ pfd_fd e = -8) /\
  (exists po1 st1, remove ex_poller ex_channels 100 = Ok (po1, st1) /\
    run_op DisableReading po1 st1 200 = Err EAssert).
Proof.
  split; [exact ex_poller_ok|]. split.
  - exact (proj1 (poll_poller_loses_channels ex_poller ex_channels 100 _ ex_poller_ok eq_refl eq_refl)
      EnableReading (or_introl eq_refl)).
  - eexists _, _. split; [reflexivity|].
    apply (proj2 (poll_poller_loses_channels ex_poller ex_channels 100 _ ex_poller_ok eq_refl eq_refl)
      _ _ 200 (set_index (with_events (Channel_new 9) 1) 1)); [reflexivity..|discriminate].
Defined.
