(* ===== verification/DefaultPoller.v ===== *)
(** * The choice of a poller (cnet/net/poller/DefaultPoller.cc)

    The environment chooses between the two implementations of Poller; a loop
    uses the one chosen through the interface. *)

From stdpp Require Import gmap.
From S2P Require Import Prelude Channel EPollPoller PollPoller.

Section poller.
Context `{Epoll}.

(** A [Poller*]: an object of one of the derived classes. *)
Inductive Poller : Type :=
| IsPoll (po : PollPoller)
| IsEPoll (po : EPollPoller).

Definition newDefaultPoller (getenv : bytes -> option bytes) (k : kernel) : Poller :=
  match getenv (bs "CNET_USE_POLL") with
  | Some _ => IsPoll PollPoller_new
  | None => IsEPoll (EPollPoller_new k)
  end.

(** The result of a member function, with the object it is of. *)
Definition back {P} (f : P -> Poller) (r : res (P * store)) : res (Poller * store) :=
  let* (po, st) := r in Ok (f po, st).

#[export] Instance Poller_ops : PollerOps Poller := {|
  channels_ d := match d with IsPoll po => pp_channels po | IsEPoll po => ep_channels po end;
  updateChannel d st p :=
    match d with
    | IsPoll po => back IsPoll (pp_updateChannel po st p)
    | IsEPoll po => back IsEPoll (ep_updateChannel po st p)
    end;
  removeChannel d st p :=
    match d with
    | IsPoll po => back IsPoll (pp_removeChannel po st p)
    | IsEPoll po => back IsEPoll (ep_removeChannel po st p)
    end;
|}.

(** ** Through the interface, the epoll poller does what it does *)

Lemma run_op_epoll o po st p : run_op o (IsEPoll po) st p = back IsEPoll (run_op o po st p).
Proof.
  destruct (decide (o = Remove)) as [->|Hne].
  - cbn [run_op]. unfold remove, back, channel_at. destruct (st !! p) as [c|]; [|done]. cbn [res_bind].
    by destruct (isNoneEvent c).
  - destruct (st !! p) as [c|] eqn:E; [by rewrite !(run_op_set o _ st p c)|].
    destruct o; try done; cbn [run_op]; unfold enableReading, disableReading, enableWriting, disableWriting,
      disableAll, set_events, channel_at; by rewrite E.
Qed.

Lemma run_ops_epoll l po st : run_ops l (IsEPoll po) st = back IsEPoll (run_ops l po st).
Proof.
  revert po st. induction l as [|[o p] l IH]; intros po st; [done|]. cbn [run_ops]. rewrite run_op_epoll.
  destruct (run_op o po st p) as [[po1 st1]|]; [|done]. apply IH.
Qed.

Lemma ops_okb_epoll l po st : ops_okb l (IsEPoll po) st = ops_okb l po st.
Proof.
  revert po st. induction l as [|[o p] l IH]; intros po st; [done|]. cbn [ops_okb]. rewrite run_op_epoll.
  f_equal. destruct (run_op o po st p) as [[po1 st1]|]; [|done]. apply IH.
Qed.

(** New channels, none of them added to the loop yet. *)
Definition new_channels (st : store) : Prop := forall p c, st !! p = Some c -> index_ c = -1.

Lemma epoll_new_ok k st : interest k = ∅ -> new_channels st -> poller_ok (EPollPoller_new k) st.
Proof.
  intros Hk Hn. constructor; cbn [EPollPoller_new ep_channels epollfd_].
  - intros p c _ Hr. by apply lookup_empty_Some in Hr.
  - intros p c Hp _. exact (Hn p c Hp).
  - intros fd p Hr. by apply lookup_empty_Some in Hr.
  - intros fd [x Hx]. rewrite Hk in Hx. by apply lookup_empty_Some in Hx.
Qed.
End poller.

(** Two connections; the first is closed, the second then has something to
    write. *)
Definition two_channels : store := list_to_map [(100, Channel_new 7); (200, Channel_new 9)].
Definition close_first : list (channel_op * Z) :=
  [(EnableReading, 100); (EnableReading, 200); (DisableAll, 100); (Remove, 100); (EnableWriting, 200)].

(** Without the variable every admissible use of new channels succeeds, and each
    channel asks for what its own operations leave; with it, to any value, the
    same use can abort: closing a connection is enough. *)
Theorem environment_matters `{Epoll} (getenv : bytes -> option bytes) (k : kernel) : interest k = ∅ ->
  (getenv (bs "CNET_USE_POLL") = None -> forall l st, new_channels st ->
     ops_okb l (newDefaultPoller getenv k) st = true ->
     exists po st', run_ops l (newDefaultPoller getenv k) st = Ok (po, st') /\
       forall p c, st !! p = Some c -> exists c', st' !! p = Some c' /\ fd_ c' = fd_ c /\
         events_ c' = asked l p (events_ c)) /\
  (forall v, getenv (bs "CNET_USE_POLL") = Some v ->
     new_channels two_channels /\ ops_okb close_first (newDefaultPoller getenv k) two_channels = true /\
     run_ops close_first (newDefaultPoller getenv k) two_channels = Err EAssert).
Proof.
  intros Hk. unfold newDefaultPoller. split.
  - intros -> l st Hn. rewrite ops_okb_epoll. intros Hok%ops_okb_ok.
    destruct (run_ops_ok l _ st (epoll_new_ok k st Hk Hn) Hok) as (po & st' & E & _ & Hc).
    exists (IsEPoll po), st'. rewrite run_ops_epoll, E. done.
  - intros v ->. split_and!; [|by vm_compute..]. intros p c Hp. unfold two_channels in Hp. cbn in Hp.
    repeat (apply lookup_insert_Some in Hp as [[_ <-]|[_ Hp]]; [reflexivity|]). by apply lookup_empty_Some in Hp.
Qed.

Lemma environment_matters_witness :
  exists po st', run_ops close_first (newDefaultPoller (fun _ => None) (∅ : gmap Z (Z * Z))) two_channels = Ok (po, st').
Proof.
  destruct (@environment_matters Epoll_gmap (fun _ => None) (∅ : gmap Z (Z * Z)) eq_refl) as [H _].
  destruct (H eq_refl close_first two_channels) as (po & st' & E & _); [|by vm_compute|by exists po, st'].
  intros p c Hp. unfold two_channels in Hp. cbn in Hp.
  repeat (apply lookup_insert_Some in Hp as [[_ <-]|[_ Hp]]; [reflexivity|]). by apply lookup_empty_Some in Hp.
Defined.
