(* ===== verification/EventLoop.v ===== *)
(** * The event loop (cnet/net/EventLoop.h, EventLoop.cc)

    One thread runs [loop()]; any thread may queue functors, wake the loop up
    and ask it to quit.  The operations are functions on the loop's state; a
    step relation interleaves the loop's own thread, cut at the points where
    other threads can observe it, with the other threads. *)

From stdpp Require Import relations gmap.
From S2P Require Import Prelude Channel.

Inductive LoopState : Set := CREATED | RUNNING | QUITED.

#[export] Instance LoopState_eq_dec : EqDecision LoopState.
Proof. solve_decision. Defined.

Definition kPollTimeMs : Z := 10000.

(** Where the loop's thread is: before [loop()]; past the test of [quit_] at its
    beginning, with [RUNNING] to assign; at the test of [while]; in [poll()]; in the callbacks of the active channels, the wakeup channel still
    to be handled or not; between setting [callingPendingFunctors_] and the
    swap; in the functors taken out; after [loop()]. *)
Inductive phase : Type :=
| Idle | Starting | Check_ | Polling | Handling (wakeupActive : bool) | Swapping
| Running (functors : list Z) | Exited.

#[export] Instance phase_eq_dec : EqDecision phase.
Proof. solve_decision. Defined.

(** Functors are named by numbers.  [eventfd_] is the counter of [wakeupFd_];
    [owing] counts the other threads that have released the mutex, or set
    [quit_], and not yet called [wakeup()].  The last three fields are history:
    what has been queued and run, and whether the loop's own thread queued
    something before [loop()]. *)
Record EventLoop := mkLoop {
  looping_ : bool;
  quit_ : LoopState;
  eventHanding_ : bool;
  callingPendingFunctors_ : bool;
  iteration_ : Z;
  pendingFunctors_ : list Z;
  eventfd_ : Z;
  at_ : phase;
  owing : nat;
  queued : list Z;
  executed : list Z;
  early : bool;
}.

(** The constructor leaves [callingPendingFunctors_] as the memory was. *)
Definition EventLoop_new (garbage : bool) : EventLoop :=
  mkLoop false CREATED false garbage 0 [] 0 Idle 0 [] [] false.

Definition set_quit (l : EventLoop) (q : LoopState) : EventLoop :=
  mkLoop (looping_ l) q (eventHanding_ l) (callingPendingFunctors_ l) (iteration_ l)
    (pendingFunctors_ l) (eventfd_ l) (at_ l) (owing l) (queued l) (executed l) (early l).
Definition set_eventfd (l : EventLoop) (n : Z) : EventLoop :=
  mkLoop (looping_ l) (quit_ l) (eventHanding_ l) (callingPendingFunctors_ l) (iteration_ l)
    (pendingFunctors_ l) n (at_ l) (owing l) (queued l) (executed l) (early l).
Definition set_at (l : EventLoop) (p : phase) : EventLoop :=
  mkLoop (looping_ l) (quit_ l) (eventHanding_ l) (callingPendingFunctors_ l) (iteration_ l)
    (pendingFunctors_ l) (eventfd_ l) p (owing l) (queued l) (executed l) (early l).
Definition set_owing (l : EventLoop) (n : nat) : EventLoop :=
  mkLoop (looping_ l) (quit_ l) (eventHanding_ l) (callingPendingFunctors_ l) (iteration_ l)
    (pendingFunctors_ l) (eventfd_ l) (at_ l) n (queued l) (executed l) (early l).
Definition set_early (l : EventLoop) : EventLoop :=
  mkLoop (looping_ l) (quit_ l) (eventHanding_ l) (callingPendingFunctors_ l) (iteration_ l)
    (pendingFunctors_ l) (eventfd_ l) (at_ l) (owing l) (queued l) (executed l) true.

(** ** Operations *)

(** [wakeup()]: adds 1 to the counter. *)
Definition wakeup (l : EventLoop) : EventLoop := set_eventfd l (eventfd_ l + 1).
(** [handleRead()], the wakeup channel's callback: reading resets the counter. *)
Definition handleRead (l : EventLoop) : EventLoop := set_eventfd l 0.

(** The critical section of [queueInLoop]. *)
Definition push_back (l : EventLoop) (cb : Z) : EventLoop :=
  mkLoop (looping_ l) (quit_ l) (eventHanding_ l) (callingPendingFunctors_ l) (iteration_ l)
    (pendingFunctors_ l ++ [cb]) (eventfd_ l) (at_ l) (owing l) (queued l ++ [cb]) (executed l) (early l).

Definition queueInLoop (l : EventLoop) (isInLoopThread : bool) (cb : Z) : EventLoop :=
  let l := push_back l cb in
  if negb isInLoopThread || callingPendingFunctors_ l then wakeup l else l.

(** [runInLoop]: the functor called at once, if any, and the state. *)
Definition runInLoop (l : EventLoop) (isInLoopThread : bool) (cb : Z) : option Z * EventLoop :=
  if isInLoopThread then (Some cb, l) else (None, queueInLoop l isInLoopThread cb).

Definition queueSize (l : EventLoop) : Z := zlen (pendingFunctors_ l).

Definition quit (l : EventLoop) (isInLoopThread : bool) : EventLoop :=
  let l := set_quit l QUITED in
  if negb isInLoopThread then wakeup l else l.

(** [loop()] up to the test [quit_ == CREATED]. *)
Definition loop_start (l : EventLoop) (isInLoopThread : bool) : res EventLoop :=
  assert! negb (looping_ l);
  if negb isInLoopThread then Err EFatal else
  Ok (mkLoop true (quit_ l) (eventHanding_ l) (callingPendingFunctors_ l) (iteration_ l) (pendingFunctors_ l)
        (eventfd_ l) (match quit_ l with CREATED => Starting | _ => Check_ end)
        (owing l) (queued l) (executed l) (early l)).

(** The assignment that follows the test, whatever [quit_] has become since. *)
Definition loop_running (l : EventLoop) : EventLoop := set_at (set_quit l RUNNING) Check_.

(** [poll()] has returned: the wakeup channel is active when its counter is not
    zero. *)
Definition poll_returned (l : EventLoop) : EventLoop :=
  mkLoop (looping_ l) (quit_ l) true (callingPendingFunctors_ l) (iteration_ l + 1)
    (pendingFunctors_ l) (eventfd_ l) (Handling (0 <? eventfd_ l)) (owing l) (queued l) (executed l) (early l).

(** The callbacks are done; [doPendingFunctors] sets its flag. *)
Definition begin_pending (l : EventLoop) : EventLoop :=
  mkLoop (looping_ l) (quit_ l) false true (iteration_ l)
    (pendingFunctors_ l) (eventfd_ l) Swapping (owing l) (queued l) (executed l) (early l).

(** [functors.swap(pendingFunctors_)] *)
Definition swap_pending (l : EventLoop) : EventLoop :=
  mkLoop (looping_ l) (quit_ l) (eventHanding_ l) (callingPendingFunctors_ l) (iteration_ l)
    [] (eventfd_ l) (Running (pendingFunctors_ l)) (owing l) (queued l) (executed l) (early l).

(** [functors[i]()] *)
Definition run_functor (l : EventLoop) (f : Z) (rest : list Z) : EventLoop :=
  mkLoop (looping_ l) (quit_ l) (eventHanding_ l) (callingPendingFunctors_ l) (iteration_ l)
    (pendingFunctors_ l) (eventfd_ l) (Running rest) (owing l) (queued l) (executed l ++ [f]) (early l).

Definition end_pending (l : EventLoop) : EventLoop :=
  mkLoop (looping_ l) (quit_ l) (eventHanding_ l) false (iteration_ l)
    (pendingFunctors_ l) (eventfd_ l) Check_ (owing l) (queued l) (executed l) (early l).

Definition loop_end (l : EventLoop) : EventLoop :=
  mkLoop false (quit_ l) (eventHanding_ l) (callingPendingFunctors_ l) (iteration_ l)
    (pendingFunctors_ l) (eventfd_ l) Exited (owing l) (queued l) (executed l) (early l).

(** ** Channels, through the poller *)

Section channels.
Context {P : Type} `{PollerOps P}.

(** [activeChannels_] and [currentActiveChannel_] are arguments;
    [assertInLoopThread] aborts. *)
Definition loop_updateChannel (inLoopThread : bool) (po : P) (st : store) (channel : Z)
  : res (P * store) :=
  if negb inLoopThread then Err EFatal else updateChannel po st channel.

Definition loop_removeChannel (inLoopThread : bool) (l : EventLoop) (activeChannels : list Z)
    (currentActiveChannel : option Z) (po : P) (st : store) (channel : Z) : res (P * store) :=
  if negb inLoopThread then Err EFatal else
  assert! negb (eventHanding_ l) || bool_decide (currentActiveChannel = Some channel)
          || negb (bool_decide (channel ∈ activeChannels));
  removeChannel po st channel.

Definition loop_hasChannel (inLoopThread : bool) (po : P) (st : store) (channel : Z) : res bool :=
  if negb inLoopThread then Err EFatal else hasChannel po st channel.
End channels.

(** ** Interleavings *)

Definition in_callbacks (p : phase) : Prop :=
  match p with Handling _ | Running _ => True | _ => False end.

Inductive step : EventLoop -> EventLoop -> Prop :=
(* the loop's thread *)
| step_early l cb : at_ l = Idle -> step l (set_early (queueInLoop l true cb))
| step_start l l' : at_ l = Idle -> loop_start l true = Ok l' -> step l l'
| step_running l : at_ l = Starting -> step l (loop_running l)
| step_enter l : at_ l = Check_ -> quit_ l = RUNNING -> step l (set_at l Polling)
| step_leave l : at_ l = Check_ -> quit_ l <> RUNNING -> step l (loop_end l)
| step_poll l : at_ l = Polling -> step l (poll_returned l)
| step_wakeup l : at_ l = Handling true -> step l (set_at (handleRead l) (Handling false))
| step_handled l : at_ l = Handling false -> step l (begin_pending l)
| step_swap l : at_ l = Swapping -> step l (swap_pending l)
| step_run l f fs : at_ l = Running (f :: fs) -> step l (run_functor l f fs)
| step_done l : at_ l = Running [] -> step l (end_pending l)
(* what callbacks and functors do on it *)
| step_queue l cb : in_callbacks (at_ l) -> step l (queueInLoop l true cb)
| step_quit l : in_callbacks (at_ l) -> step l (quit l true)
(* other threads, between the two halves of [queueInLoop] and [quit] *)
| step_other_push l cb : step l (set_owing (push_back l cb) (S (owing l)))
| step_other_quit l : step l (set_owing (set_quit l QUITED) (S (owing l)))
| step_other_wakeup l n : owing l = S n -> step l (set_owing (wakeup l) n).

Inductive reachable (garbage : bool) : EventLoop -> Prop :=
| reach_new : reachable garbage (EventLoop_new garbage)
| reach_step l l' : reachable garbage l -> step l l' -> reachable garbage l'.

(** The functors taken out and not yet run. *)
Definition running (p : phase) : list Z := match p with Running fs => fs | _ => [] end.

(** What holds at every point of every interleaving. *)
Record inv (l : EventLoop) : Prop := mkInv {
  inv_order : queued l = executed l ++ running (at_ l) ++ pendingFunctors_ l;
  inv_counter : 0 <= eventfd_ l /\ 0 <= iteration_ l;
  inv_calling : match at_ l with Swapping | Running _ => callingPendingFunctors_ l = true | _ => True end;
  inv_pending : match at_ l with
    | Check_ | Polling | Running _ =>
        pendingFunctors_ l <> [] -> 0 < eventfd_ l \/ (0 < owing l)%nat \/ (early l = true /\ iteration_ l = 0)
    | Idle | Starting => pendingFunctors_ l <> [] -> 0 < eventfd_ l \/ (0 < owing l)%nat \/ early l = true
    | _ => True
    end;
  inv_idle : match at_ l with Idle | Starting => iteration_ l = 0 | _ => True end;
  inv_started : match at_ l with
    | Handling _ | Swapping | Running _ => 0 < iteration_ l | _ => True end;
  inv_quit : at_ l = Polling -> quit_ l = RUNNING \/
    (quit_ l = QUITED /\ (0 < eventfd_ l \/ (0 < owing l)%nat));
}.

Ltac phase_eq :=
  repeat match goal with
  | H : at_ ?l = _, H' : context [at_ ?l] |- _ => rewrite H in H'
  | H : at_ ?l = _ |- context [at_ ?l] => rewrite H
  end.

Lemma snoc_not_nil {A} (l : list A) x : l ++ [x] <> [].
Proof. by destruct l. Qed.

(** A functor put in the queue, the eventfd or [owing] accounting for it. *)
Lemma inv_push l cb n m e : inv l -> 0 <= n ->
  (0 < n \/ (0 < m)%nat \/ e = true /\ at_ l = Idle \/ exists b, at_ l = Handling b) ->
  (0 < eventfd_ l \/ (0 < owing l)%nat -> 0 < n \/ (0 < m)%nat) ->
  (early l = true -> e = true) ->
  inv (mkLoop (looping_ l) (quit_ l) (eventHanding_ l) (callingPendingFunctors_ l) (iteration_ l)
         (pendingFunctors_ l ++ [cb]) n (at_ l) m (queued l ++ [cb]) (executed l) e).
Proof.
  intros [I1 I2 I3 I4 I5 I6 I7] Hn Hw Hmono He. constructor; cbn; try done.
  - by rewrite I1, <-!app_assoc.
  - split; [done|apply I2].
  - destruct (at_ l) eqn:Ea; try done; intros _; destruct Hw as [?|[?|[[? ?]|[? ?]]]]; try done; auto.
  - intros Hp. destruct (I7 Hp) as [?|[? ?]]; auto.
Qed.

Lemma step_inv l l' : inv l -> step l l' -> inv l'.
Proof.
  intros I S. pose proof I as [I1 I2 I3 I4 I5 I6 I7].
  destruct S as [l cb Ha|l l' Ha E|l Ha|l Ha Hq|l Ha Hq|l Ha|l Ha|l Ha|l Ha|l f fs Ha|l Ha|l cb Ha|l Ha|l cb|l|l n Hn].
  - unfold queueInLoop. cbn [negb orb]. destruct (callingPendingFunctors_ (push_back l cb));
      apply (inv_push l cb); try done; cbn; auto; lia.
  - unfold loop_start in E. destruct (negb (looping_ l)); [|done]. cbn in E. injection E as <-.
    phase_eq. destruct (quit_ l); (constructor; cbn; try done); intros Hp; destruct (I4 Hp) as [?|[?|?]]; auto.
  - phase_eq. constructor; cbn; try done. intros Hp. destruct (I4 Hp) as [?|[?|?]]; auto.
  - phase_eq. constructor; cbn; try done. auto.
  - phase_eq. by constructor; cbn.
  - phase_eq. constructor; cbn; try done; lia.
  - phase_eq. constructor; cbn; try done. lia.
  - phase_eq. by constructor; cbn.
  - phase_eq. constructor; cbn; try done. by rewrite app_nil_r.
  - phase_eq. constructor; cbn; try done. by rewrite I1, <-app_assoc.
  - phase_eq. by constructor; cbn.
  - unfold queueInLoop. cbn [negb orb]. destruct (callingPendingFunctors_ (push_back l cb)) eqn:Ec;
      apply (inv_push l cb); try done; cbn; try lia; auto.
    destruct (at_ l); try done; [eauto|]. cbn in Ec. congruence.
  - unfold quit. cbn [negb]. constructor; cbn; try done.
    intros Hp. by rewrite Hp in Ha.
  - apply (inv_push l cb); try done; cbn; auto; lia.
  - constructor; cbn; try done.
    + destruct (at_ l); try done; auto with lia.
    + intros _. right. split; [done|]. right. lia.
  - constructor; cbn; try done; [lia|..].
    + destruct (at_ l); try done; intros _; left; lia.
    + intros Hp. destruct (I7 Hp) as [?|[? ?]]; [by left|]. right. split; [done|]. left. lia.
Qed.

Lemma reachable_inv g l : reachable g l -> inv l.
Proof.
  induction 1 as [|l l' _ IH S]; [|by eapply step_inv].
  constructor; cbn; try done.
Qed.

(** ** Properties *)

(** C6: functors run in the order they were queued, each exactly once: in every
    interleaving, what has run, followed by what has been taken out, followed by
    what waits, is exactly what was queued. *)
Theorem functors_fifo (garbage : bool) (l : EventLoop) :
  reachable garbage l -> queued l = executed l ++ running (at_ l) ++ pendingFunctors_ l.
Proof. intros R. by apply reachable_inv in R as []. Qed.

(** Runs the loop forward: the argument is the next step. *)
Tactic Notation "forward" hyp(R) uconstr(S) :=
  eapply reach_step in R; [|eapply S; reflexivity]; cbn in R.

(** A functor queued by another thread while the loop polls. *)
Definition ex_loop : EventLoop :=
  mkLoop true RUNNING true false 1 [5] 1 (Handling true) 0 [5] [] false.

Lemma ex_loop_reachable : reachable false ex_loop.
Proof.
  pose proof (reach_new false) as R.
  forward R step_start. forward R step_running. forward R step_enter.
  forward R (fun l => step_other_push l 5). forward R step_other_wakeup.
  forward R step_poll. exact R.
Qed.

Lemma functors_fifo_witness :
  reachable false ex_loop /\
  queued ex_loop = executed ex_loop ++ running (at_ ex_loop) ++ pendingFunctors_ ex_loop.
Proof. split; [exact ex_loop_reachable|]. exact (functors_fifo false ex_loop ex_loop_reachable). Defined.

(** A [quit()] of another thread, with its wakeup, between the test and the
    assignment: the loop turns once and goes back to sleep. *)
Lemma quit_overwritten :
  exists l1 l2, reachable false l1 /\ at_ l1 = Starting /\ quit_ l1 = QUITED /\ rtc step l1 l2 /\
    at_ l2 = Polling /\ quit_ l2 = RUNNING /\ eventfd_ l2 = 0 /\ owing l2 = O.
Proof.
  pose proof (reach_new false) as R. forward R step_start. forward R step_other_quit.
  eexists _, (mkLoop true RUNNING false false 1 [] 0 Polling 0 [] [] false).
  split; [exact R|]. split; [done|]. split; [done|]. split; [|done].
  eapply rtc_l; [by apply (step_other_wakeup _ 0)|]. eapply rtc_l; [by apply step_running|].
  eapply rtc_l; [by apply step_enter|]. eapply rtc_l; [by apply step_poll|].
  eapply rtc_l; [by apply step_wakeup|]. eapply rtc_l; [by apply step_handled|].
  eapply rtc_l; [by apply step_swap|]. eapply rtc_l; [by apply step_done|].
  eapply rtc_l; [by apply step_enter|]. reflexivity.
Qed.

(** C7: no wakeup is lost.  Whenever the loop's thread is in [poll()] while a
    functor waits, or while [quit_] tells it to stop, the wakeup descriptor is
    readable or a thread is about to make it so, so that [poll()] returns.  The
    one exception is a functor the loop's own thread queued before calling
    [loop()]: during the first iteration it may wait for another event or for
    the poll timeout.  What may be lost is not a wakeup but a [quit()] itself: one
    that comes between the test and the assignment at the beginning of [loop()]
    is overwritten, and the loop polls with nothing to wake it. *)
Theorem no_lost_wakeup (garbage : bool) (l : EventLoop) :
  reachable garbage l -> at_ l = Polling ->
  (pendingFunctors_ l <> [] ->
     0 < eventfd_ l \/ (0 < owing l)%nat \/ (early l = true /\ iteration_ l = 0)) /\
  (quit_ l <> RUNNING -> 0 < eventfd_ l \/ (0 < owing l)%nat) /\
  (forall cb, exists l2,
     reachable false l2 /\ at_ l2 = Polling /\ pendingFunctors_ l2 = [cb] /\
     eventfd_ l2 = 0 /\ owing l2 = O) /\
  (exists l1 l2, reachable false l1 /\ at_ l1 = Starting /\ quit_ l1 = QUITED /\ rtc step l1 l2 /\
     at_ l2 = Polling /\ quit_ l2 = RUNNING /\ eventfd_ l2 = 0 /\ owing l2 = O).
Proof.
  intros R Ha. apply reachable_inv in R as I. split; [|split; [|split]].
  - pose proof (inv_pending l I) as H. by rewrite Ha in H.
  - intros Hq. destruct (inv_quit l I Ha) as [?|[_ ?]]; done.
  - intros cb. exists (mkLoop true RUNNING false false 0 [cb] 0 Polling 0 [cb] [] true).
    split; [|done].
    pose proof (reach_new false) as R0.
    forward R0 (fun l => step_early l cb). forward R0 step_start. forward R0 step_running. forward R0 step_enter. exact R0.
  - exact quit_overwritten.
Qed.

Lemma no_lost_wakeup_witness :
  exists l, reachable false l /\ at_ l = Polling /\ pendingFunctors_ l = [5] /\
    (0 < eventfd_ l \/ (0 < owing l)%nat \/ (early l = true /\ iteration_ l = 0)).
Proof.
  assert (R : reachable false
    (mkLoop true RUNNING false false 0 [5] 0 Polling 1 [5] [] false)).
  { pose proof (reach_new false) as R.
    forward R step_start. forward R step_running. forward R step_enter.
    forward R (fun l => step_other_push l 5). exact R. }
  eexists. split; [exact R|]. split; [reflexivity|]. split; [reflexivity|].
  exact (proj1 (no_lost_wakeup _ _ R eq_refl) ltac:(discriminate)).
Defined.
