(* ===== verification/LoopTimers.v ===== *)
(** * Timers asked for from any thread (EventLoop::runAt, runAfter, runEvery,
    cancel; TimerQueue::addTiemr, cancel and the destructor)

    A timer may be asked for, or cancelled, in any thread; outside the loop's
    own, the request is a functor that the loop runs later.  Here the
    [EventLoop] and the [TimerQueue] run together, with the threads that call
    them. *)

From stdpp Require Import gmap.
From S2P Require Import Prelude Double Timestamp StdMap TimerQueue EventLoop.

(** ** The calls *)

(** [addTime(now, seconds)] of a double; a microsecond is the unit. *)
Definition microseconds (seconds : double) : res Z :=
  int64_of_double (dmul seconds (double_of_Z kMicroSecondsPerSecond)).
Definition addTime_d (t : Timestamp) (seconds : double) : res Timestamp :=
  let* delta := microseconds seconds in addTime t delta.

(** [Timer]'s [repeat_]: the interval is greater than 0.0. *)
Definition is_repeat (interval : double) : bool :=
  match SpecFloat.SFcompare interval (double_of_Z 0) with Some Gt => true | _ => false end.

(** What a timer is made from: when, the interval in microseconds, whether it
    repeats. *)
Definition runAt (time : Timestamp) : Timestamp * Z * bool := (time, 0, false).
Definition runAfter (now : Timestamp) (delay : double) : res (Timestamp * Z * bool) :=
  let* time := addTime_d now delay in Ok (runAt time).
Definition runEvery (now : Timestamp) (interval : double) : res (Timestamp * Z * bool) :=
  let* time := addTime_d now interval in
  let* us := microseconds interval in
  Ok (time, us, is_repeat interval).

(** A functor that the queue gives to [runInLoop]. *)
Inductive request : Set := AddTimer (p : Z) | CancelTimer (id : TimerId).

Definition exec_request (r : request) (q : TimerQueue) : res TimerQueue :=
  match r with
  | AddTimer p => addTimerInLoop q p
  | CancelTimer id => cancelInLoop q id
  end.

(** ** The loop, its timers, and the threads that call

    [asked]: which functor is which request.  [callers]: the threads that are in
    [addTiemr] past [runInLoop], by the address and the number of the timer they
    have made: they are about to read the number through the pointer. *)
Record LoopTimers := mkLT {
  loop : EventLoop;
  queue : TimerQueue;
  asked : gmap Z request;
  callers : list TimerId;
}.

Definition LoopTimers_new (garbage : bool) : LoopTimers := mkLT (EventLoop_new garbage) TimerQueue_new ∅ [].

Definition push (f : Z) (l : EventLoop) : EventLoop := set_owing (push_back l f) (S (owing l)).

(** [addTiemr] in another thread, up to the return; the functor is [f]. *)
Definition add_elsewhere (addr f cb : Z) (when : Timestamp) (interval : Z) (rep : bool) (s : LoopTimers) : LoopTimers :=
  let q := new_timer (queue s) addr cb when interval rep in
  mkLT (push f (loop s)) q (<[f := AddTimer addr]> (asked s)) (callers s ++ [(addr, s_numCreated_ q)]).
(** [return TimerId(timer, timer->sequence());] *)
Definition caller_returns (p : Z) (s : LoopTimers) : res TimerId :=
  let* t := deref (queue s) p in Ok (p, sequence_ t).
Definition cancel_elsewhere (f : Z) (id : TimerId) (s : LoopTimers) : LoopTimers :=
  mkLT (push f (loop s)) (queue s) (<[f := CancelTimer id]> (asked s)) (callers s).

Definition set_queue (q : TimerQueue) (s : LoopTimers) : LoopTimers := mkLT (loop s) q (asked s) (callers s).
Definition set_loop (l : EventLoop) (s : LoopTimers) : LoopTimers := mkLT l (queue s) (asked s) (callers s).
Definition set_callers (c : list TimerId) (s : LoopTimers) : LoopTimers := mkLT (loop s) (queue s) (asked s) c.

Section steps.
(** What the callbacks of timers do to the queue. *)
Context (callbacks : Z -> TimerQueue -> list action).

Inductive step (s : LoopTimers) : LoopTimers -> Prop :=
(* other threads *)
| step_add addr f cb when interval rep : action_ok (queue s) (ActAdd addr cb when interval rep) -> f ∉ queued (loop s) ->
    step s (add_elsewhere addr f cb when interval rep s)
| step_return c1 id c2 : callers s = c1 ++ id :: c2 -> step s (set_callers (c1 ++ c2) s)
| step_cancel f id : f ∉ queued (loop s) -> step s (cancel_elsewhere f id s)
(* the loop's thread, in a callback or a functor *)
| step_act a q : in_callbacks (at_ (loop s)) -> action_ok (queue s) a -> act (queue s) a = Ok q -> step s (set_queue q s)
(* the timerfd is readable *)
| step_alarm b now tr q : at_ (loop s) = Handling b -> 0 < now < 2 ^ 62 -> TimerQueue.handleRead callbacks (queue s) now = Ok (tr, q) ->
    step s (set_queue q s)
(* a request is run *)
| step_request f fs r q : at_ (loop s) = Running (f :: fs) -> asked s !! f = Some r -> exec_request r (queue s) = Ok q ->
    step s (set_queue q (set_loop (run_functor (loop s) f fs) s))
(* everything else that the loop and its users do *)
| step_functor f fs : at_ (loop s) = Running (f :: fs) -> asked s !! f = None ->
    step s (set_loop (run_functor (loop s) f fs) s)
| step_loop l : EventLoop.step (loop s) l -> executed l = executed (loop s) ->
    (forall f, queued l = queued (loop s) ++ [f] -> asked s !! f = None) ->
    step s (set_loop l s).

Inductive reachable (garbage : bool) : LoopTimers -> Prop :=
| reach_new : reachable garbage (LoopTimers_new garbage)
| reach_step s s' : reachable garbage s -> step s s' -> reachable garbage s'.
End steps.

(** [~TimerQueue]: the timers of the set are deleted; those that were made and
    whose functor was not run stay. *)
Definition TimerQueue_delete (q : TimerQueue) : TimerQueue :=
  fold_left (fun q e => delete_ q e.2) (timers_ q) q.

(** ** Timers on the heap that are not in the sets yet *)

Definition waiting (q : TimerQueue) (ps : list Z) : Prop :=
  NoDup ps /\ forall p, p ∈ ps -> detached q p.

Lemma waiting_holding q ps : waiting q ps -> exists l, l.*2 = ps /\ holding q l.
Proof.
  intros [Hnd Hd]. exists (map (fun p => (match heap q !! p with Some t => expiration_ t | None => 0 end, p)) ps).
  assert (E : (map (fun p => (match heap q !! p with Some t => expiration_ t | None => 0 end, p)) ps).*2 = ps).
  { clear. induction ps as [|p ps IH]; [done|]. cbn. by f_equal. }
  split; [done|]. split; [by rewrite E|]. intros e (p & -> & Hp)%list_elem_of_fmap. cbn.
  destruct (Hd p Hp) as (t & Ht & Hn). rewrite Ht. by exists t.
Qed.

Lemma waiting_perm q ps ps' : ps ≡ₚ ps' -> waiting q ps -> waiting q ps'.
Proof. intros P [H1 H2]. split; [by rewrite <-P|]. intros p. rewrite <-P. apply H2. Qed.

Lemma waiting_keep q q' ps : waiting q ps -> (forall p, p ∈ ps -> heap q' !! p = heap q !! p) ->
  (forall p s, p ∈ ps -> (p, s) ∈ activeTimers_ q' -> (p, s) ∈ activeTimers_ q) -> waiting q' ps.
Proof.
  intros [H1 H2] Hh Ha. split; [done|]. intros p Hp. destruct (H2 p Hp) as (t & Ht & Hn). exists t.
  rewrite Hh by done. split; [done|]. intros H. by apply Hn, Ha.
Qed.

Lemma waiting_not_active q ps p s : wf q -> waiting q ps -> p ∈ ps -> (p, s) ∉ activeTimers_ q.
Proof. intros W [_ H] Hp. by apply (detached_not_timer q p W (H p Hp)). Qed.

Lemma new_timer_waiting q ps addr cb when interval rep : outside q -> waiting q ps ->
  action_ok q (ActAdd addr cb when interval rep) ->
  outside (new_timer q addr cb when interval rep) /\ waiting (new_timer q addr cb when interval rep) (addr :: ps).
Proof.
  intros (W & A & C) Hw (Hfree & Haddr & Hwhen & Hint).
  assert (Hn : forall s, (addr, s) ∉ activeTimers_ q).
  { intros s H. apply (wf_alive q W) in H as (t & Ht & _). congruence. }
  set (t := mkTimer cb when interval rep (s_numCreated_ q + 1)).
  assert (W1 : wf (new_timer q addr cb when interval rep)).
  { pose proof (wf_insert_heap q addr t W Hn Haddr ltac:(split; cbn; lia)) as []. by constructor. }
  split; [by split|]. destruct Hw as [Hnd Hd].
  assert (Hne : addr ∉ ps). { intros Hp. destruct (Hd _ Hp) as (t' & Ht' & _). congruence. }
  split; [by constructor|]. intros p [->|Hp]%elem_of_cons.
  - exists t. cbn. by rewrite lookup_insert_eq.
  - destruct (Hd p Hp) as (t' & Ht' & Hn'). exists t'. cbn. rewrite lookup_insert_ne by (by intros ->). done.
Qed.

Lemma addTimerInLoop_waiting q p ps : outside q -> waiting q (p :: ps) ->
  exists q', addTimerInLoop q p = Ok q' /\ outside q' /\ waiting q' ps /\ exists t, heap q !! p = Some t /\ (expiration_ t, p) ∈ timers_ q'.
Proof.
  intros (W & A & C) [Hnd Hd]. apply NoDup_cons in Hnd as [Hp Hnd].
  destruct (Hd p ltac:(left)) as (t & Ht & Hn).
  destruct (addTimerInLoop_spec q p t W Ht Hn) as (q' & E & W' & H1 & H2 & H3 & _ & H5 & _ & H6).
  exists q'. split; [done|]. split; [split_and!; [done|by apply H6|by rewrite H5]|]. split.
  - apply (waiting_keep q); [split; [done|intros; apply Hd; by right]|by intros; rewrite H1|].
    intros p' s' Hp' [[= -> _]|?]%H3; done.
  - exists t. split; [done|]. apply H2. by left.
Qed.

Lemma cancel_waiting q ps id : outside q -> waiting q ps ->
  exists q', cancelInLoop q id = Ok q' /\ outside q' /\ waiting q' ps.
Proof.
  intros O Hw. pose proof O as (W & _). destruct (cancel_outside q id O) as (q' & E & O'). cbn in E.
  exists q'. split; [done|]. split; [done|]. destruct id as [p s].
  destruct (cancelInLoop_spec q p s W) as (q2 & E2 & _ & H1 & _ & H3 & _). assert (q2 = q') as -> by congruence.
  apply (waiting_keep q); [done| |].
  - intros p' Hp'. apply H3. destruct (decide (p' = p)) as [->|]; [right|by left]. by eapply waiting_not_active.
  - intros p' s' _ [_ ?]%H1. done.
Qed.

Lemma act_waiting q ps a : outside q -> waiting q ps -> action_ok q a ->
  exists q', act q a = Ok q' /\ outside q' /\ waiting q' ps.
Proof.
  intros O Hw Ha. destruct a as [addr cb when interval rep|id].
  - destruct (new_timer_waiting q ps addr cb when interval rep O Hw Ha) as [O1 W1].
    destruct (addTimerInLoop_waiting _ addr ps O1 W1) as (q' & E & O' & W' & _).
    exists q'. cbn [act]. unfold addTiemr. rewrite E. done.
  - by apply cancel_waiting.
Qed.

Lemma holding_app q l1 l2 : holding q (l1 ++ l2) -> holding q l1 /\ holding q l2.
Proof.
  intros [Hnd H]. rewrite fmap_app in Hnd. apply NoDup_app in Hnd as (H1 & _ & H2).
  split; (split; [done|]); intros e He; apply H; apply elem_of_app; auto.
Qed.

(** An alarm leaves the timers that wait alone. *)
Lemma handleRead_waiting run q ps now : outside q -> waiting q ps -> 0 < now < 2 ^ 62 ->
  (forall cb q', wf q' -> actions_ok q' (run cb q')) ->
  exists tr q', TimerQueue.handleRead run q now = Ok (tr, q') /\ outside q' /\ waiting q' ps.
Proof.
  intros (W & A & C) Hw Hnow Hrun.
  destruct (handleRead_phases run q now W Hnow Hrun) as (_ & _ & tr0 & _ & q0 & E0 & W0 & A0 & C0 & _).
  exists tr0, q0. split; [done|]. split; [done|].
  destruct (waiting_holding q ps Hw) as (l & <- & Hl). unfold TimerQueue.handleRead in E0.
  assert (Wr : wf (readTimerfd q)) by (destruct W; by constructor).
  destruct (getExpired_spec _ now Wr) as (ex & q1 & E1 & W1 & Hh1 & Happ & _ & _ & Hheap & _ & _ & _ & _ & Hact).
  rewrite E1 in E0. cbn [res_bind] in E0. cbn in Happ, Hheap, Hact.
  set (q2 := set_calling q1 true []) in *.
  assert (W2 : wf q2) by (destruct W1; constructor; try done; constructor).
  assert (Hdisj : forall p, p ∈ ex.*2 -> p ∉ l.*2).
  { intros p ([w p'] & -> & He)%list_elem_of_fmap Hp. cbn in Hp.
    assert (Hin : (w, p') ∈ timers_ q) by (rewrite Happ; set_solver).
    apply (wf_same q W) in Hin as (t & _ & _ & Hin). by apply (waiting_not_active q l.*2 p' (sequence_ t) W Hw). }
  assert (Hh2 : holding q2 (ex ++ l)).
  { split.
    - rewrite fmap_app. apply NoDup_app. split; [apply Hh1|]. split; [done|apply Hl].
    - intros e [He|He]%elem_of_app; [by apply Hh1|]. destruct (proj2 Hl e He) as (t & H1 & H2 & H3). exists t.
      cbn. rewrite Hheap. split_and!; [done..|]. intros H. by apply H3, Hact. }
  destruct (run_expired_spec run (ex ++ l) ex q2 W2 Hh2 eq_refl Hrun) as (tr & q3 & E3 & W3 & Hh3 & K3 & _).
  { intros e He. apply elem_of_app. by left. }
  rewrite E3 in E0. cbn [res_bind] in E0.
  set (q4 := set_calling q3 false (cancelingTimers_ q3)) in *.
  assert (W4 : wf q4) by (destruct W3; by constructor).
  destruct (holding_app q3 ex l Hh3) as [Hex3 Hl3].
  destruct (reset_spec now ex q4 W4 Hex3 Hnow) as (q' & E' & _ & _ & _ & Hrest & _).
  rewrite E' in E0. cbn [res_bind] in E0. injection E0 as _ <-.
  split; [apply Hl|]. intros p Hp. pose proof Hp as ([w p'] & -> & He)%list_elem_of_fmap. cbn in *.
  destruct (Hrest p') as [Hh Ha]; [intros H; by apply (Hdisj p')|].
  destruct (proj2 Hl3 _ He) as (t & H1 & _ & H3). exists t. rewrite Hh. cbn in *. split; [done|]. by rewrite Ha.
Qed.

(** ** The invariant *)

(** The functors not run yet, and the timers they are to add. *)
Definition remaining (l : EventLoop) : list Z := EventLoop.running (at_ l) ++ pendingFunctors_ l.
Definition added (asked : gmap Z request) (f : Z) : option Z :=
  match asked !! f with Some (AddTimer p) => Some p | _ => None end.
Definition to_add (s : LoopTimers) : list Z := omap (added (asked s)) (remaining (loop s)).

Record inv (g : bool) (s : LoopTimers) : Prop := mkInv {
  inv_loop : EventLoop.reachable g (loop s);
  inv_queue : outside (queue s);
  inv_once : forall f r, asked s !! f = Some r -> occ f (queued (loop s)) = 1%nat;
  inv_waiting : waiting (queue s) (to_add s);
}.

Lemma queued_split g l : EventLoop.reachable g l -> queued l = executed l ++ remaining l.
Proof. intros R. apply EventLoop.reachable_inv in R as []. done. Qed.

Lemma omap_ext_in (a b : gmap Z request) (l : list Z) : (forall f, f ∈ l -> a !! f = b !! f) ->
  omap (added a) l = omap (added b) l.
Proof.
  induction l as [|f l IH]; intros H; [done|]. cbn.
  assert (E : added a f = added b f) by (unfold added; by rewrite (H f ltac:(left))).
  rewrite E, IH; [done|]. intros f' Hf'. apply H. by right.
Qed.

(** What a step of the loop adds to the functors. *)
Lemma step_queued l l' : EventLoop.step l l' -> queued l' = queued l \/ exists f, queued l' = queued l ++ [f].
Proof.
  intros S. destruct S; cbn; auto; try (unfold queueInLoop, quit; repeat case_match; cbn; by eauto).
  unfold loop_start in *. destruct (negb (looping_ l)); cbn in *; [|done].
  match goal with H : Ok _ = Ok _ |- _ => injection H as <- end. by left.
Qed.

Lemma asked_queued g s f r : inv g s -> asked s !! f = Some r -> f ∈ queued (loop s).
Proof.
  intros I Hf. pose proof (inv_once g s I f r Hf) as Ho.
  destruct (decide (f ∈ queued (loop s))); [done|]. rewrite occ_zero in Ho by done. lia.
Qed.

Lemma to_add_insert g s f r : inv g s -> f ∉ queued (loop s) ->
  omap (added (<[f := r]> (asked s))) (remaining (loop s)) = to_add s.
Proof.
  intros I Hf. apply omap_ext_in. intros f' Hf'. rewrite lookup_insert_ne; [done|]. intros ->. apply Hf.
  rewrite (queued_split g) by apply I. apply elem_of_app. by right.
Qed.

Lemma to_add_push g s f r q c : inv g s -> f ∉ queued (loop s) ->
  to_add (mkLT (push f (loop s)) q (<[f := r]> (asked s)) c) = to_add s ++ match r with AddTimer p => [p] | _ => [] end.
Proof.
  intros I Hf. unfold to_add at 1, remaining. cbn. rewrite app_assoc, omap_app.
  fold (remaining (loop s)). rewrite (to_add_insert g) by done. f_equal. cbn. unfold added. rewrite lookup_insert_eq.
  by destruct r.
Qed.

Lemma inv_add g s addr f cb when interval rep : inv g s -> action_ok (queue s) (ActAdd addr cb when interval rep) ->
  f ∉ queued (loop s) -> inv g (add_elsewhere addr f cb when interval rep s).
Proof.
  intros I Ha Hf. pose proof I as [I1 I2 I3 I4].
  destruct (new_timer_waiting _ _ _ _ _ _ _ I2 I4 Ha) as [O W]. constructor; cbn.
  - by eapply EventLoop.reach_step, step_other_push.
  - done.
  - intros f' r. rewrite lookup_insert_Some, occ_snoc. intros [[<- _]|[Hne Hr]].
    + rewrite decide_True by done. by rewrite occ_zero.
    + rewrite decide_False by done. by eapply I3.
  - unfold add_elsewhere. rewrite (to_add_push g) by done. eapply waiting_perm; [|exact W]. apply Permutation_cons_append.
Qed.

Lemma inv_cancel g s f id : inv g s -> f ∉ queued (loop s) -> inv g (cancel_elsewhere f id s).
Proof.
  intros I Hf. pose proof I as [I1 I2 I3 I4]. constructor; cbn.
  - by eapply EventLoop.reach_step, step_other_push.
  - done.
  - intros f' r. rewrite lookup_insert_Some, occ_snoc. intros [[<- _]|[Hne Hr]].
    + rewrite decide_True by done. by rewrite occ_zero.
    + rewrite decide_False by done. by eapply I3.
  - unfold cancel_elsewhere. by rewrite (to_add_push g), app_nil_r.
Qed.

(** The functor at the head is run. *)
Lemma run_remaining l f fs : at_ l = Running (f :: fs) -> remaining l = f :: remaining (run_functor l f fs).
Proof. intros Ha. unfold remaining. cbn. by rewrite Ha. Qed.

Lemma inv_request g s f fs r : inv g s -> at_ (loop s) = Running (f :: fs) -> asked s !! f = Some r ->
  exists q, exec_request r (queue s) = Ok q /\ inv g (set_queue q (set_loop (run_functor (loop s) f fs) s)).
Proof.
  intros [I1 I2 I3 I4] Ha Hr. unfold to_add in I4. rewrite (run_remaining _ _ _ Ha) in I4. cbn in I4. unfold added at 1 in I4.
  rewrite Hr in I4.
  assert (Hs : forall q, outside q -> waiting q (omap (added (asked s)) (remaining (run_functor (loop s) f fs))) ->
    inv g (set_queue q (set_loop (run_functor (loop s) f fs) s))).
  { intros q O W. constructor; try done. by eapply EventLoop.reach_step, step_run. }
  destruct r as [p|id]; cbn [exec_request].
  - destruct (addTimerInLoop_waiting _ _ _ I2 I4) as (q & E & O & W & _). eauto.
  - destruct (cancel_waiting _ _ id I2 I4) as (q & E & O & W). eauto.
Qed.

Lemma inv_step_loop g s l : inv g s -> EventLoop.step (loop s) l -> executed l = executed (loop s) ->
  (forall f, queued l = queued (loop s) ++ [f] -> asked s !! f = None) -> inv g (set_loop l s).
Proof.
  intros I S He Hf. pose proof I as [I1 I2 I3 I4].
  assert (R : EventLoop.reachable g l) by (by eapply EventLoop.reach_step).
  pose proof (queued_split _ _ I1) as Q1. pose proof (queued_split _ _ R) as Q2. rewrite He in Q2.
  destruct (step_queued _ _ S) as [E|[f E]].
  - assert (Hr : remaining l = remaining (loop s)) by (rewrite E, Q1 in Q2; by apply app_inv_head in Q2).
    constructor; cbn; try done; [by rewrite E|]. unfold to_add. cbn. by rewrite Hr.
  - pose proof (Hf f E) as Hn.
    assert (Hr : remaining l = remaining (loop s) ++ [f]).
    { rewrite E, Q1, <-app_assoc in Q2. by apply app_inv_head in Q2. }
    constructor; cbn; try done.
    + intros f' r Hr'. rewrite E, occ_snoc, decide_False by congruence. by eapply I3.
    + unfold to_add. cbn. rewrite Hr, omap_app. cbn. unfold added at 2. by rewrite Hn, app_nil_r.
Qed.

Section invariant.
Context (callbacks : Z -> TimerQueue -> list action).
Hypothesis callbacks_ok : forall cb q, wf q -> actions_ok q (callbacks cb q).

Lemma lt_step_inv g s s' : inv g s -> step callbacks s s' -> inv g s'.
Proof using callbacks_ok.
  intros I S. pose proof I as [I1 I2 I3 I4].
  destruct S as [addr f cb when interval rep Ha Hf|c1 id c2 E|f id Hf|a q Hc Ha E|b now tr q Hh Hn E|f fs r q Ha Hr E|f fs Ha Hr|l S He Hf].
  - by apply inv_add.
  - by constructor.
  - by apply inv_cancel.
  - destruct (act_waiting _ _ _ I2 I4 Ha) as (q' & E' & O & W). assert (q' = q) as -> by congruence. by constructor.
  - destruct (handleRead_waiting callbacks _ _ _ I2 I4 Hn callbacks_ok) as (tr' & q' & E' & O & W).
    assert (q' = q) as -> by congruence. by constructor.
  - destruct (inv_request g s f fs r I Ha Hr) as (q' & E' & I'). by assert (q' = q) as <- by congruence.
  - constructor; try done; [by eapply EventLoop.reach_step, step_run|].
    unfold to_add in *. cbn. rewrite (run_remaining _ _ _ Ha) in I4. cbn in I4. unfold added at 1 in I4. by rewrite Hr in I4.
  - by apply inv_step_loop.
Qed.

Lemma lt_inv g s : reachable callbacks g s -> inv g s.
Proof using callbacks_ok.
  induction 1 as [|s s' _ IH S]; [|by eapply lt_step_inv]. constructor; cbn; try done.
  - apply EventLoop.reach_new.
  - split_and!; [|by left|done]. constructor; cbn; try constructor; try done.
    + intros H. by apply not_elem_of_nil in H.
    + intros (t & H & _). done.
    + intros p s H. by apply not_elem_of_nil in H.
  - split; [constructor|]. intros p H. by apply not_elem_of_nil in H.
Qed.
End invariant.

(** ** Properties *)

(** C24: timers may be asked for and cancelled from any thread.  Through every
    interleaving of the calls with the loop, its alarms and its callbacks: the
    queue is consistent and its alarm set no later than the earliest timer;
    every request that the loop comes to is carried out, no assertion failing and
    no freed timer touched, and a timer asked for is then in the set; an alarm
    and a call in the loop's own thread do not fail either; a timer asked for is
    kept until then, by one functor, which is run in its turn. *)
Theorem timers_from_threads (callbacks : Z -> TimerQueue -> list action) (garbage : bool) (s : LoopTimers) :
  (forall cb q, wf q -> actions_ok q (callbacks cb q)) -> reachable callbacks garbage s ->
  wf (queue s) /\ armed (queue s) /\
  (forall f fs r, at_ (loop s) = Running (f :: fs) -> asked s !! f = Some r ->
     exists q, exec_request r (queue s) = Ok q /\
       forall p, r = AddTimer p -> exists t, heap (queue s) !! p = Some t /\ (expiration_ t, p) ∈ timers_ q) /\
  (forall now, 0 < now < 2 ^ 62 -> exists tr q, TimerQueue.handleRead callbacks (queue s) now = Ok (tr, q)) /\
  (forall a, action_ok (queue s) a -> exists q, act (queue s) a = Ok q) /\
  (forall p, p ∈ to_add s -> detached (queue s) p) /\
  (forall f r, asked s !! f = Some r -> occ f (queued (loop s)) = 1%nat) /\
  queued (loop s) = executed (loop s) ++ remaining (loop s).
Proof.
  intros Hc R. pose proof (lt_inv callbacks Hc garbage s R) as I. pose proof I as [I1 I2 I3 I4]. pose proof I2 as (W & A & _).
  split; [done|]. split; [done|]. split_and!.
  - intros f fs r Ha Hr. destruct (inv_request garbage s f fs r I Ha Hr) as (q & E & _). exists q. split; [done|].
    intros p ->. unfold to_add in I4. rewrite (run_remaining _ _ _ Ha) in I4. cbn in I4. unfold added at 1 in I4. rewrite Hr in I4.
    destruct (addTimerInLoop_waiting _ _ _ I2 I4) as (q' & E' & _ & _ & H). by assert (q' = q) as <- by (cbn in E; congruence).
  - intros now Hn. destruct (handleRead_waiting callbacks _ _ _ I2 I4 Hn Hc) as (tr & q & E & _). eauto.
  - intros a Ha. destruct (act_waiting _ _ _ I2 I4 Ha) as (q & E & _). eauto.
  - apply I4.
  - done.
  - by eapply queued_split.
Qed.

(** Runs the two together: the arguments prove the next step. *)
Ltac lt_state R :=
  cbv [set_loop set_queue add_elsewhere push LoopTimers_new EventLoop_new set_at set_owing push_back wakeup
       EventLoop.handleRead set_eventfd poll_returned begin_pending swap_pending run_functor end_pending new_timer
       TimerQueue_new] in R;
  cbn in R.
Tactic Notation "forward" hyp(R) tactic3(T) := eapply reach_step in R; [|T]; lt_state R.
Tactic Notation "loop_forward" hyp(R) uconstr(S) :=
  eapply reach_step in R; [|eapply step_loop; [eapply S; reflexivity|reflexivity|cbn; intros f Hf; by destruct f]]; lt_state R.
Definition no_callbacks (cb : Z) (q : TimerQueue) : list action := [].

(** The timer may be gone when its caller reads the number: it has fired. *)
Theorem addTiemr_reads_freed_timer : exists s, reachable no_callbacks false s /\ (16, 1) ∈ callers s /\
  caller_returns 16 s = Err EUndefined.
Proof.
  pose proof (reach_new no_callbacks false) as R.
  loop_forward R EventLoop.step_start. loop_forward R step_running. loop_forward R EventLoop.step_enter.
  forward R (apply (step_add _ _ 16 5 1 500 0 false); [by split_and!|apply not_elem_of_nil]).
  loop_forward R step_other_wakeup. loop_forward R step_poll. loop_forward R step_wakeup. loop_forward R step_handled.
  loop_forward R step_swap.
  forward R (eapply step_request; [reflexivity|reflexivity|vm_compute; reflexivity]).
  loop_forward R step_done. loop_forward R EventLoop.step_enter. loop_forward R step_poll.
  forward R (eapply (step_alarm _ _ false 600); [reflexivity|lia|vm_compute; reflexivity]).
  eexists. split; [exact R|]. split; [cbn; left|]. vm_compute. reflexivity.
Qed.

Lemma timers_from_threads_witness : exists s q, reachable no_callbacks false s /\ at_ (loop s) = Running [5] /\
  asked s !! 5 = Some (AddTimer 16) /\ exec_request (AddTimer 16) (queue s) = Ok q /\
  exists t, heap (queue s) !! 16 = Some t /\ (expiration_ t, 16) ∈ timers_ q.
Proof.
  pose proof (reach_new no_callbacks false) as R.
  loop_forward R EventLoop.step_start. loop_forward R step_running. loop_forward R EventLoop.step_enter.
  forward R (apply (step_add _ _ 16 5 1 500 0 false); [by split_and!|apply not_elem_of_nil]).
  loop_forward R step_other_wakeup. loop_forward R step_poll. loop_forward R step_wakeup. loop_forward R step_handled.
  loop_forward R step_swap.
  assert (C : forall cb q, wf q -> actions_ok q (no_callbacks cb q)) by (intros; exact I).
  destruct (timers_from_threads no_callbacks false _ C R) as (_ & _ & H & _).
  destruct (H 5 [] (AddTimer 16)) as (q & E & Hq); [reflexivity|reflexivity|].
  eexists _, q. split; [exact R|]. split; [reflexivity|]. split; [reflexivity|]. split; [exact E|]. by apply Hq.
Defined.

(** A cancellation that the loop's thread makes while the request to add the
    timer waits is lost: the timer is added all the same. *)
Theorem early_cancel_lost q ps p s : outside q -> waiting q (p :: ps) ->
  exists q1 q2 t, cancelInLoop q (p, s) = Ok q1 /\ addTimerInLoop q1 p = Ok q2 /\
    heap q !! p = Some t /\ (expiration_ t, p) ∈ timers_ q2.
Proof.
  intros O Hw. destruct (cancel_waiting q _ (p, s) O Hw) as (q1 & E1 & O1 & W1).
  destruct (addTimerInLoop_waiting q1 p ps O1 W1) as (q2 & E2 & _ & _ & t & Ht & Hin).
  exists q1, q2, t. split_and!; try done. pose proof O as (W & _).
  destruct (cancelInLoop_spec q p s W) as (q' & E' & _ & _ & _ & H3 & _). assert (q' = q1) as -> by congruence.
  rewrite <-(H3 p); [done|]. right. eapply waiting_not_active; [done|exact Hw|left].
Qed.

(** The destructor frees the timers of the set, each once, and no others: one
    that waits to be added is never freed. *)
Lemma fold_delete (l : list Entry) q : fold_left (fun q e => delete_ q e.2) l q = set_heap q (foldr delete (heap q) (rev l.*2)).
Proof.
  revert q. induction l as [|e l IH]; intros q; cbn.
  - by destruct q.
  - rewrite IH. cbn. rewrite foldr_app. by destruct q.
Qed.

Lemma foldr_delete_lookup (l : list Z) (h : gmap Z Timer) p :
  foldr delete h l !! p = if decide (p ∈ l) then None else h !! p.
Proof.
  induction l as [|x l IH]; cbn [foldr]; [done|]. rewrite lookup_delete.
  destruct (decide (x = p)) as [->|Hne]; [by rewrite decide_True by left|]. rewrite IH.
  destruct (decide (p ∈ l)); [by rewrite decide_True by (by right)|]. rewrite decide_False; [done|].
  intros [?|?]%elem_of_cons; congruence.
Qed.

Theorem TimerQueue_delete_frees q : wf q -> NoDup (timers_ q).*2 /\
  (forall p, p ∈ (timers_ q).*2 -> is_Some (heap q !! p)) /\
  forall p, heap (TimerQueue_delete q) !! p = if decide (p ∈ (timers_ q).*2) then None else heap q !! p.
Proof.
  intros W. split; [by apply timers_NoDup|]. split.
  - intros p ([w p'] & -> & Hp)%list_elem_of_fmap. apply (wf_same q W) in Hp as (t & Ht & _). by exists t.
  - intros p. unfold TimerQueue_delete. rewrite fold_delete. cbn. rewrite foldr_delete_lookup.
    destruct (decide (p ∈ rev (timers_ q).*2)) as [H|H], (decide (p ∈ (timers_ q).*2)) as [H'|H']; try done.
    + destruct H'. apply list_elem_of_In, in_rev. by apply list_elem_of_In.
    + destruct H. apply list_elem_of_In. rewrite <-in_rev. by apply list_elem_of_In.
Qed.

Theorem destructor_leaks q ps p : wf q -> waiting q ps -> p ∈ ps -> is_Some (heap (TimerQueue_delete q) !! p).
Proof.
  intros W [_ Hd] Hp. destruct (TimerQueue_delete_frees q W) as (_ & _ & ->).
  destruct (Hd p Hp) as (t & Ht & Hn). rewrite decide_False; [by exists t|].
  intros ([w p'] & -> & Hin)%list_elem_of_fmap. cbn in *.
  by apply (proj1 (detached_not_timer q p' W (Hd p' Hp)) w).
Qed.

(** The times of the three calls. *)
Example run_times :
  runAt 7 = (7, 0, false) /\
  runAfter 1000000 (ddiv (double_of_Z 3) (double_of_Z 2)) = Ok (2500000, 0, false) /\
  runEvery 1000000 (ddiv (double_of_Z 1) (double_of_Z 100)) = Ok (1010000, 10000, true) /\
  runEvery 1000000 (double_of_Z 0) = Ok (1000000, 0, false).
Proof. vm_compute. done. Qed.
