(* ===== verification/TcpConnection.v ===== *)
(** * Connections (cnet/net/TcpConnection.h, TcpConnection.cc, Socket.cc)

    A connection as its loop's thread runs it: the state machine, the two
    buffers, the channel's events, and the socket as far as the connection
    drives it.  System calls return what the caller of the model supplies. *)

From S2P Require Import Prelude Buffer Channel.

Inductive StateE : Set := kDisconnected | kConnecting | kConnected | kDisconnecting.

#[export] Instance StateE_eq_dec : EqDecision StateE.
Proof. solve_decision. Defined.

(** The functors a connection gives to its loop. *)
Inductive functor : Type :=
| FSendInLoop (message : bytes)
| FShutdownInLoop
| FForceCloseInLoop
| FStartReadInLoop
| FStopReadInLoop
| FWriteComplete
| FHighWaterMark (n : Z).

(** The user's callbacks, as they are called. *)
Inductive call : Type :=
| CallConnection (up : bool)
| CallMessage
| CallWriteComplete
| CallHighWaterMark (n : Z)
| CallClose.

(** [wire]: the bytes the socket took, in order; [fin]: its write side is shut
    down; [no_delay], [keep_alive]: the options set.  [posted] are the functors
    waiting in the loop, [delayed] the timers started by
    [forceCloseWithDelay], [calls] the callbacks made; [accepted] is history:
    the messages the connection took responsibility for. *)
Record TcpConnection := mkConn {
  state_ : StateE;
  reading_ : bool;
  channel_ : Channel;
  hasWriteComplete : bool;
  hasHighWaterMark : bool;
  highWaterMark_ : Z;
  inputBuffer_ : Buffer;
  outputBuffer_ : Buffer;
  wire : bytes;
  fin : bool;
  no_delay : bool;
  keep_alive : bool;
  posted : list functor;
  delayed : Z;
  calls : list call;
  accepted : bytes;
}.

Definition TcpConnection_new (sockfd : Z) (wc hwm : bool) (mark : Z) : TcpConnection :=
  mkConn kConnecting true (setCallbacks (Channel_new sockfd) true true true true) wc hwm mark
    (Buffer_new kInitialSize) (Buffer_new kInitialSize) [] false false true [] 0 [] [].
Definition defaultHighWaterMark : Z := 64 * 1024 * 1024.

Definition setState (s : StateE) (c : TcpConnection) : TcpConnection :=
  mkConn s (reading_ c) (channel_ c) (hasWriteComplete c) (hasHighWaterMark c) (highWaterMark_ c)
    (inputBuffer_ c) (outputBuffer_ c) (wire c) (fin c) (no_delay c) (keep_alive c) (posted c)
    (delayed c) (calls c) (accepted c).
Definition set_reading (b : bool) (c : TcpConnection) : TcpConnection :=
  mkConn (state_ c) b (channel_ c) (hasWriteComplete c) (hasHighWaterMark c) (highWaterMark_ c)
    (inputBuffer_ c) (outputBuffer_ c) (wire c) (fin c) (no_delay c) (keep_alive c) (posted c)
    (delayed c) (calls c) (accepted c).
Definition set_channel (ch : Channel) (c : TcpConnection) : TcpConnection :=
  mkConn (state_ c) (reading_ c) ch (hasWriteComplete c) (hasHighWaterMark c) (highWaterMark_ c)
    (inputBuffer_ c) (outputBuffer_ c) (wire c) (fin c) (no_delay c) (keep_alive c) (posted c)
    (delayed c) (calls c) (accepted c).
Definition set_input (b : Buffer) (c : TcpConnection) : TcpConnection :=
  mkConn (state_ c) (reading_ c) (channel_ c) (hasWriteComplete c) (hasHighWaterMark c)
    (highWaterMark_ c) b (outputBuffer_ c) (wire c) (fin c) (no_delay c) (keep_alive c) (posted c)
    (delayed c) (calls c) (accepted c).
Definition set_output (b : Buffer) (w : bytes) (c : TcpConnection) : TcpConnection :=
  mkConn (state_ c) (reading_ c) (channel_ c) (hasWriteComplete c) (hasHighWaterMark c)
    (highWaterMark_ c) (inputBuffer_ c) b w (fin c) (no_delay c) (keep_alive c) (posted c)
    (delayed c) (calls c) (accepted c).
Definition set_accepted (a : bytes) (c : TcpConnection) : TcpConnection :=
  mkConn (state_ c) (reading_ c) (channel_ c) (hasWriteComplete c) (hasHighWaterMark c)
    (highWaterMark_ c) (inputBuffer_ c) (outputBuffer_ c) (wire c) (fin c) (no_delay c)
    (keep_alive c) (posted c) (delayed c) (calls c) a.
Definition shutdown_socket (c : TcpConnection) : TcpConnection :=
  mkConn (state_ c) (reading_ c) (channel_ c) (hasWriteComplete c) (hasHighWaterMark c)
    (highWaterMark_ c) (inputBuffer_ c) (outputBuffer_ c) (wire c) true (no_delay c)
    (keep_alive c) (posted c) (delayed c) (calls c) (accepted c).
Definition set_no_delay (on : bool) (c : TcpConnection) : TcpConnection :=
  mkConn (state_ c) (reading_ c) (channel_ c) (hasWriteComplete c) (hasHighWaterMark c)
    (highWaterMark_ c) (inputBuffer_ c) (outputBuffer_ c) (wire c) (fin c) on
    (keep_alive c) (posted c) (delayed c) (calls c) (accepted c).
Definition set_posted (l : list functor) (c : TcpConnection) : TcpConnection :=
  mkConn (state_ c) (reading_ c) (channel_ c) (hasWriteComplete c) (hasHighWaterMark c)
    (highWaterMark_ c) (inputBuffer_ c) (outputBuffer_ c) (wire c) (fin c) (no_delay c)
    (keep_alive c) l (delayed c) (calls c) (accepted c).
Definition set_delayed (n : Z) (c : TcpConnection) : TcpConnection :=
  mkConn (state_ c) (reading_ c) (channel_ c) (hasWriteComplete c) (hasHighWaterMark c)
    (highWaterMark_ c) (inputBuffer_ c) (outputBuffer_ c) (wire c) (fin c) (no_delay c)
    (keep_alive c) (posted c) n (calls c) (accepted c).
Definition call_ (k : call) (c : TcpConnection) : TcpConnection :=
  mkConn (state_ c) (reading_ c) (channel_ c) (hasWriteComplete c) (hasHighWaterMark c)
    (highWaterMark_ c) (inputBuffer_ c) (outputBuffer_ c) (wire c) (fin c) (no_delay c)
    (keep_alive c) (posted c) (delayed c) (calls c ++ [k]) (accepted c).

Definition queueInLoop (f : functor) (c : TcpConnection) : TcpConnection :=
  set_posted (posted c ++ [f]) c.

(** The channel's [enableReading] and its like, the poller keeping its
    contract. *)
Definition channel_do (o : channel_op) (c : TcpConnection) : TcpConnection :=
  set_channel (set_added (with_events (channel_ c) (op_events o (events_ (channel_ c)))) true) c.

Definition connected (c : TcpConnection) : bool := bool_decide (state_ c = kConnected).
Definition disconnected (c : TcpConnection) : bool := bool_decide (state_ c = kDisconnecting).
Definition is_disconnecting (c : TcpConnection) : bool := bool_decide (state_ c = kDisconnecting).
Definition is_disconnected (c : TcpConnection) : bool := bool_decide (state_ c = kDisconnected).

Definition stateToString (c : TcpConnection) : bytes :=
  match state_ c with
  | kDisconnecting => bs "kDisconnecting"
  | kConnecting => bs "kConnecting"
  | kConnected => bs "kConnected"
  | kDisconnected => bs "kDisconnected"
  end.

(** What [write(2)] returned. *)
Inductive write_result : Type :=
| Wrote (n : Z)
| WriteWouldBlock
| WriteReset            (* EPIPE or ECONNRESET *)
| WriteOther.           (* any other error *)

(** The direct write: the connection, [nwrote], [remaining], [faultError]. *)
Definition write_directly (data : bytes) (w : write_result) (c : TcpConnection)
  : TcpConnection * Z * Z * bool :=
  let len := zlen data in
  match w with
  | Wrote n =>
      let c := set_output (outputBuffer_ c) (wire c ++ ztake n data) c in
      let remaining := u64 (len - n) in
      (if (remaining =? 0) && hasWriteComplete c then queueInLoop FWriteComplete c else c,
       n, remaining, false)
  | WriteWouldBlock | WriteOther => (c, 0, len, false)
  | WriteReset => (c, 0, len, true)
  end.

(** What the socket did not take goes to the output buffer. *)
Definition buffer_rest (data : bytes) (nwrote remaining : Z) (c : TcpConnection) : res TcpConnection :=
  let oldLen := readableBytes (outputBuffer_ c) in
  let c := if (highWaterMark_ c <=? oldLen + remaining) && (oldLen <? highWaterMark_ c)
              && hasHighWaterMark c
           then queueInLoop (FHighWaterMark (oldLen + remaining)) c else c in
  let* out := append_mem (outputBuffer_ c) (zdrop nwrote data) remaining in
  let c := set_output out (wire c) c in
  Ok (if isWriting (channel_ c) then c else channel_do EnableWriting c).

Definition sendInLoop (data : bytes) (w : write_result) (c : TcpConnection) : res TcpConnection :=
  if is_disconnected c then Ok c else
  let len := zlen data in
  let '(c, nwrote, remaining, faultError) :=
    if negb (isWriting (channel_ c)) && (readableBytes (outputBuffer_ c) =? 0)
    then write_directly data w c else (c, 0, len, false) in
  assert! remaining <=? len;
  let c := set_accepted (accepted c ++ (if faultError then [] else data)) c in
  if negb faultError && (0 <? remaining) then buffer_rest data nwrote remaining c else Ok c.

(** [send(const StringPiece&)], and [send(const void*, int)]. *)
Definition send (inLoopThread : bool) (message : bytes) (w : write_result) (c : TcpConnection)
  : res TcpConnection :=
  if connected c then
    if inLoopThread then sendInLoop message w c
    else Ok (queueInLoop (FSendInLoop message) c)
  else Ok c.

(** [send(Buffer* )]; the result includes the caller's buffer.  The [else] is
    that of the state test. *)
Definition send_buffer (inLoopThread : bool) (buf : Buffer) (w : write_result) (c : TcpConnection)
  : res (Buffer * TcpConnection) :=
  if connected c then
    if inLoopThread then
      let* c := sendInLoop (contents buf) w c in Ok (retrieveAll buf, c)
    else Ok (buf, c)
  else
    let* (s, buf) := retrieveAllAsString buf in
    if inLoopThread then let* c := sendInLoop s w c in Ok (buf, c)
    else Ok (buf, queueInLoop (FSendInLoop s) c).

Definition shutdownInLoop (c : TcpConnection) : TcpConnection :=
  if isWriting (channel_ c) then c else shutdown_socket c.

Definition shutdown (inLoopThread : bool) (c : TcpConnection) : TcpConnection :=
  if connected c then
    let c := setState kDisconnecting c in
    if inLoopThread then shutdownInLoop c else queueInLoop FShutdownInLoop c
  else c.

Definition forceClose (c : TcpConnection) : TcpConnection :=
  if connected c || is_disconnecting c then
    queueInLoop FForceCloseInLoop (setState kDisconnecting c)
  else c.

Definition forceCloseWithDelay (c : TcpConnection) : TcpConnection :=
  if connected c || is_disconnecting c then
    let c := setState kDisconnecting c in set_delayed (delayed c + 1) c
  else c.

(** [setTcpNoDelay(on)] *)
Definition setTcpNoDelay (on : bool) (c : TcpConnection) : TcpConnection := set_no_delay true c.

Definition startReadInLoop (c : TcpConnection) : TcpConnection :=
  if negb (reading_ c) || negb (isReading (channel_ c))
  then set_reading true (channel_do EnableReading c) else c.
Definition stopReadInLoop (c : TcpConnection) : TcpConnection :=
  if reading_ c || isReading (channel_ c)
  then set_reading false (channel_do DisableReading c) else c.
Definition startRead (inLoopThread : bool) (c : TcpConnection) : TcpConnection :=
  if inLoopThread then startReadInLoop c else queueInLoop FStartReadInLoop c.
Definition stopRead (inLoopThread : bool) (c : TcpConnection) : TcpConnection :=
  if inLoopThread then stopReadInLoop c else queueInLoop FStopReadInLoop c.

Definition connectEstablished (c : TcpConnection) : res TcpConnection :=
  assert! bool_decide (state_ c = kConnecting);
  let c := channel_do EnableReading (setState kConnected c) in
  let c := set_channel (tie (channel_ c)) c in
  Ok (call_ (CallConnection (connected c)) c).

Definition connectDestroyed (c : TcpConnection) : res TcpConnection :=
  let c := if connected c then
             let c := channel_do DisableAll (setState kDisconnected c) in
             call_ (CallConnection (connected c)) c
           else c in
  assert! isNoneEvent (channel_ c);
  Ok (set_channel (set_added (channel_ c) false) c).

Definition handleClose (c : TcpConnection) : res TcpConnection :=
  assert! connected c || is_disconnecting c;
  let c := channel_do DisableAll (setState kDisconnected c) in
  let c := call_ (CallConnection (connected c)) c in
  Ok (call_ CallClose c).

Definition forceCloseInLoop (c : TcpConnection) : res TcpConnection :=
  if connected c || is_disconnecting c then handleClose c else Ok c.

(** [handleError] reads and logs the error. *)
Definition handleError (c : TcpConnection) : TcpConnection := c.

Definition handleRead (r : read_result) (c : TcpConnection) : res TcpConnection :=
  let* rr := readFd (inputBuffer_ c) r in
  let c := set_input (rf_buffer rr) c in
  if 0 <? rf_n rr then Ok (call_ CallMessage c)
  else if rf_n rr =? 0 then handleClose c
  else Ok (handleError c).

Definition handleWrite (w : write_result) (c : TcpConnection) : res TcpConnection :=
  if isWriting (channel_ c) then
    match w with
    | Wrote n =>
        if 0 <? n then
          let sent := ztake n (contents (outputBuffer_ c)) in
          let* out := retrieve (outputBuffer_ c) n in
          let c := set_output out (wire c ++ sent) c in
          if readableBytes (outputBuffer_ c) =? 0 then
            let c := channel_do DisableWriting c in
            let c := if hasWriteComplete c then queueInLoop FWriteComplete c else c in
            Ok (if is_disconnecting c then shutdownInLoop c else c)
          else Ok c
        else Ok c
    | _ => Ok c
    end
  else Ok c.

(** The assertion of the destructor. *)
Definition TcpConnection_delete (c : TcpConnection) : res unit := assert_ (is_disconnected c).

(** [defaultMessageCallback] *)
Definition defaultMessageCallback (c : TcpConnection) : TcpConnection :=
  set_input (retrieveAll (inputBuffer_ c)) c.

(** The loop runs a functor. *)
Definition run_functor (f : functor) (w : write_result) (c : TcpConnection) : res TcpConnection :=
  match f with
  | FSendInLoop m => sendInLoop m w c
  | FShutdownInLoop => Ok (shutdownInLoop c)
  | FForceCloseInLoop => forceCloseInLoop c
  | FStartReadInLoop => Ok (startReadInLoop c)
  | FStopReadInLoop => Ok (stopReadInLoop c)
  | FWriteComplete => Ok (call_ CallWriteComplete c)
  | FHighWaterMark n => Ok (call_ (CallHighWaterMark n) c)
  end.

(** ** What may happen to a connection *)

Inductive event : Type :=
| EvEstablished
| EvSend (inLoopThread : bool) (message : bytes) (w : write_result)
| EvShutdown (inLoopThread : bool)
| EvForceClose
| EvForceCloseWithDelay
| EvDelayExpired                      (* the timer of forceCloseWithDelay *)
| EvStartRead
| EvStopRead
| EvFunctor (w : write_result)        (* the loop runs the next functor *)
| EvRead (r : read_result)
| EvWrite (w : write_result)
| EvHangup                            (* POLLHUP: the close callback *)
| EvError
| EvDestroyed.

Definition exec (ev : event) (c : TcpConnection) : res TcpConnection :=
  match ev with
  | EvEstablished => connectEstablished c
  | EvSend b m w => send b m w c
  | EvShutdown b => Ok (shutdown b c)
  | EvForceClose => Ok (forceClose c)
  | EvForceCloseWithDelay => Ok (forceCloseWithDelay c)
  | EvDelayExpired => forceCloseInLoop c
  | EvStartRead => Ok (startReadInLoop c)
  | EvStopRead => Ok (stopReadInLoop c)
  | EvFunctor w =>
      match posted c with
      | [] => Ok c
      | f :: fs => run_functor f w (set_posted fs c)
      end
  | EvRead r => handleRead r c
  | EvWrite w => handleWrite w c
  | EvHangup => handleClose c
  | EvError => Ok (handleError c)
  | EvDestroyed => connectDestroyed c
  end.

(** What [write(2)] may return for [len] bytes: once the write side is shut
    down, only EPIPE. *)
Definition write_ok (c : TcpConnection) (len : Z) (w : write_result) : Prop :=
  match w with
  | Wrote n => 0 <= n <= len /\ fin c = false
  | WriteReset => True
  | WriteWouldBlock | WriteOther => fin c = false
  end.

Definition send_ok (c : TcpConnection) (m : bytes) (w : write_result) : Prop :=
  write_ok c (zlen m) w /\ writerIndex_ (outputBuffer_ c) + zlen m <= MAX_SIZE.

Definition open (c : TcpConnection) : Prop := state_ c = kConnected \/ state_ c = kDisconnecting.

(** The order in which the program's other parts call in: established once, from
    the initial state; events only for a channel that asks for some; destroyed
    while connected or after closing.  [startRead] and [stopRead] are calls of
    the loop's thread on an open connection. *)
Definition event_ok (ev : event) (c : TcpConnection) : Prop :=
  match ev with
  | EvEstablished => state_ c = kConnecting
  | EvSend _ m w => send_ok c m w
  | EvStartRead | EvStopRead => open c
  | EvFunctor w =>
      match posted c with
      | FSendInLoop m :: _ => send_ok c m w
      | (FStartReadInLoop | FStopReadInLoop) :: _ => False
      | _ => True
      end
  | EvRead r =>
      events_ (channel_ c) <> kNoneEvent /\
      match r with
      | ReadData d => zlen d <= readv_capacity (inputBuffer_ c) /\
                      size (inputBuffer_ c) + zlen d <= MAX_SIZE
      | ReadErr _ => True
      end
  | EvWrite w => write_ok c (readableBytes (outputBuffer_ c)) w
  | EvHangup => events_ (channel_ c) <> kNoneEvent
  | EvDestroyed => state_ c = kConnected \/ state_ c = kDisconnected
  | EvShutdown _ | EvForceClose | EvForceCloseWithDelay | EvDelayExpired | EvError => True
  end.

Definition run (l : list event) (c : TcpConnection) : res TcpConnection :=
  res_foldl (fun c ev => exec ev c) c l.

Fixpoint events_ok (l : list event) (c : TcpConnection) : Prop :=
  match l with
  | [] => True
  | ev :: l' => event_ok ev c /\ forall c', exec ev c = Ok c' -> events_ok l' c'
  end.

(** ** The invariant *)

Definition ups_and_downs (l : list call) : list bool :=
  omap (fun k => match k with CallConnection b => Some b | _ => None end) l.
Definition closes (l : list call) : nat :=
  length (omap (fun k => match k with CallClose => Some tt | _ => None end) l).

Record inv (c : TcpConnection) : Prop := mkInv {
  inv_in : good (inputBuffer_ c);
  inv_out : good (outputBuffer_ c);
  (* every byte accepted is on the wire or waits, in order *)
  inv_stream : accepted c = wire c ++ contents (outputBuffer_ c);
  (* the channel waits to write exactly while bytes wait *)
  inv_writing : state_ c <> kDisconnected ->
    (isWriting (channel_ c) = true <-> contents (outputBuffer_ c) <> []);
  inv_closed : state_ c = kDisconnected \/ state_ c = kConnecting -> events_ (channel_ c) = kNoneEvent;
  (* the FIN goes out after the last byte, unless the connection is gone *)
  inv_fin : fin c = true ->
    (state_ c = kDisconnecting /\ contents (outputBuffer_ c) = []) \/ state_ c = kDisconnected;
  inv_posted : (state_ c = kConnecting -> posted c = []) /\
    (FShutdownInLoop ∈ posted c -> state_ c = kDisconnecting \/ state_ c = kDisconnected);
  inv_calls : ups_and_downs (calls c) =
    match state_ c with
    | kConnecting => []
    | kConnected | kDisconnecting => [true]
    | kDisconnected => [true; false]
    end;
  inv_closes : match state_ c with
    | kDisconnected => (closes (calls c) <= 1)%nat | _ => closes (calls c) = O end;
}.

#[local] Arguments ups_and_downs : simpl never.
#[local] Arguments closes : simpl never.

Lemma ups_and_downs_app l1 l2 : ups_and_downs (l1 ++ l2) = ups_and_downs l1 ++ ups_and_downs l2.
Proof. apply omap_app. Qed.
Lemma closes_app l1 l2 : closes (l1 ++ l2) = (closes l1 + closes l2)%nat.
Proof. unfold closes. by rewrite omap_app, length_app. Qed.

Lemma readable_0 b : good b -> (readableBytes b =? 0) = bool_decide (contents b = []).
Proof.
  intros G. rewrite <-zlen_contents by apply G. case_bool_decide as E.
  - by rewrite E.
  - apply Z.eqb_neq. intros H. by apply zlen_0_nil in H.
Qed.

Lemma isWriting_do o c : o <> Remove -> isWriting (channel_ (channel_do o c)) =
  match o with
  | EnableWriting => true
  | DisableWriting | DisableAll => false
  | _ => isWriting (channel_ c)
  end.
Proof. intros Ho. unfold isWriting. cbn. by rewrite writing_after. Qed.

Lemma inv_channel_do o c : inv c -> open c -> o = EnableReading \/ o = DisableReading ->
  inv (channel_do o c).
Proof.
  intros [I1 I2 I3 I4 I5 I6 I7 I8 I9] Ho Hr. constructor; try done.
  - intros Hs. rewrite isWriting_do by (by destruct Hr as [->| ->]). cbn.
    rewrite <-I4 by done. by destruct Hr as [->| ->].
  - cbn. destruct Ho as [E|E]; rewrite E; by intros [?|?].
Qed.

Lemma inv_post c f : inv c -> state_ c <> kConnecting ->
  (f = FShutdownInLoop -> state_ c = kDisconnecting \/ state_ c = kDisconnected) ->
  inv (queueInLoop f c).
Proof.
  intros [I1 I2 I3 I4 I5 I6 I7 I8 I9] Hs Hf. constructor; try done. cbn.
  split; [done|]. rewrite elem_of_app, list_elem_of_singleton. intros [?|<-]; [by apply I7|auto].
Qed.

Lemma inv_pop c f fs : inv c -> posted c = f :: fs -> inv (set_posted fs c) /\
  state_ c <> kConnecting /\ (f = FShutdownInLoop -> state_ c = kDisconnecting \/ state_ c = kDisconnected).
Proof.
  intros [I1 I2 I3 I4 I5 I6 [I7 I7'] I8 I9] E. split; [|split].
  - constructor; try done. cbn. split; [intros Hs; by rewrite (I7 Hs) in E|].
    intros H. apply I7'. rewrite E. by right.
  - intros Hs. by rewrite (I7 Hs) in E.
  - intros ->. apply I7'. rewrite E. left.
Qed.

(** [c] but for the bytes [rest], accepted and not yet in the buffer. *)
Definition settled (c : TcpConnection) : TcpConnection :=
  set_accepted (wire c ++ contents (outputBuffer_ c)) c.

Lemma buffer_rest_inv data nwrote c : inv (settled c) ->
  state_ c <> kConnecting -> state_ c <> kDisconnected -> fin c = false ->
  zdrop nwrote data <> [] ->
  accepted c = wire c ++ contents (outputBuffer_ c) ++ zdrop nwrote data ->
  writerIndex_ (outputBuffer_ c) + zlen (zdrop nwrote data) <= MAX_SIZE ->
  exists c', buffer_rest data nwrote (zlen (zdrop nwrote data)) c = Ok c' /\ inv c' /\
    state_ c' = state_ c /\ fin c' = false /\ calls c' = calls c.
Proof.
  intros I Hs1 Hs2 Hfin Hne Hacc Hmax. unfold buffer_rest. cbv zeta.
  set (rest := zdrop nwrote data) in *.
  set (oldLen := readableBytes (outputBuffer_ c)).
  set (c1 := if _ && _ && hasHighWaterMark c then queueInLoop (FHighWaterMark (oldLen + zlen rest)) c else c).
  assert (I1 : inv (settled c1)).
  { subst c1. destruct (_ && _); [|done].
    exact (inv_post (settled c) (FHighWaterMark (oldLen + zlen rest)) I Hs1 ltac:(done)). }
  assert (E1 : outputBuffer_ c1 = outputBuffer_ c /\ wire c1 = wire c /\ accepted c1 = accepted c /\
               state_ c1 = state_ c /\ fin c1 = fin c /\ calls c1 = calls c)
    by (subst c1; by destruct (_ && _)).
  destruct E1 as (Eo & Ew & Ea & Es & Ef & Ec). clearbody c1. rewrite Eo.
  pose proof (zlen_nonneg rest).
  destruct (append_mem_spec (outputBuffer_ c) rest (zlen rest)) as (b' & E & G' & C & _);
    [rewrite <-Eo; apply I1|lia|lia|]. rewrite ztake_ge in C by lia.
  rewrite E. cbn [res_bind]. set (c2 := set_output b' (wire c1) c1).
  assert (Hc2 : contents b' <> []) by (rewrite C; intros [_ ?]%app_nil; done).
  destruct I1 as [J1 J2 J3 J4 J5 J6 J7 J8 J9]. cbn [settled set_accepted inputBuffer_ outputBuffer_
    accepted wire state_ channel_ fin posted calls] in *.
  eexists. split; [reflexivity|].
  assert (I2 : forall ch, (state_ c2 <> kDisconnected -> isWriting ch = true) ->
                     (state_ c2 = kDisconnected \/ state_ c2 = kConnecting -> events_ ch = kNoneEvent) ->
                     inv (set_channel ch c2)).
  { intros ch Hw Hev. constructor; cbn; try done.
    - by rewrite Ea, Hacc, C, Ew.
    - intros Hs. rewrite Hw by done. done.
    - rewrite Ef, Hfin. done. }
  assert (Hno : state_ c2 = kDisconnected \/ state_ c2 = kConnecting -> False)
    by (cbn; rewrite Es; by intros [?|?]).
  destruct (isWriting (channel_ c2)) eqn:Ewr.
  - split; [|cbn; rewrite Es, Ef, Ec; done].
    exact (I2 (channel_ c2) (fun _ => Ewr) (fun H => False_ind _ (Hno H))).
  - split; [|cbn; rewrite Es, Ef, Ec; done].
    apply I2; [|intros H'; by destruct (Hno H')].
    intros _. exact (isWriting_do EnableWriting c2 ltac:(done)).
Qed.

Lemma wf_writer_nonneg c : inv c -> 0 <= writerIndex_ (outputBuffer_ c).
Proof. intros I. destruct (inv_out c I) as [[] _]. lia. Qed.

Lemma sendInLoop_inv m w c : inv c -> state_ c <> kConnecting -> send_ok c m w ->
  exists c', sendInLoop m w c = Ok c' /\ inv c' /\ state_ c' = state_ c /\ fin c' = fin c /\
    calls c' = calls c.
Proof.
  intros I Hs [Hw Hmax]. unfold sendInLoop.
  destruct (is_disconnected c) eqn:Ed; [by exists c|]. apply bool_decide_eq_false in Ed.
  pose proof (zlen_nonneg m). pose proof (readable_0 _ (inv_out c I)) as Hr.
  assert (Hself : settled c = c) by (unfold settled; rewrite <-(inv_stream c I); by destruct c).
  assert (Hbuf : fin c = false -> exists c', (let c1 := set_accepted (accepted c ++ m) c in
      if 0 <? zlen m then buffer_rest m 0 (zlen m) c1 else Ok c1) = Ok c' /\ inv c' /\
      state_ c' = state_ c /\ fin c' = fin c /\ calls c' = calls c).
  { intros Hf. cbv zeta. destruct (Z.ltb_spec 0 (zlen m)).
    - pose proof (zdrop_nonpos 0 m ltac:(lia)) as Hz.
      pose proof (buffer_rest_inv m 0 (set_accepted (accepted c ++ m) c)) as B. rewrite Hz in B.
      destruct B as (c' & E & I' & H1 & H2 & H3); try done.
      + change (inv (settled c)). by rewrite Hself.
      + intros ->. done.
      + cbn. by rewrite (inv_stream c I), app_assoc.
      + exists c'. rewrite H1, H2, H3, Hf. done.
    - assert (m = []) as -> by (apply zlen_0_nil; lia). rewrite app_nil_r.
      exists c. split; [by destruct c|done]. }
  destruct (negb (isWriting (channel_ c)) && (readableBytes (outputBuffer_ c) =? 0)) eqn:Edirect.
  2:{ cbn [negb andb]. rewrite (proj2 (Z.leb_le _ _)) by lia. cbn [assert_ res_bind].
      destruct (fin c) eqn:Ef; [|by apply Hbuf].
      destruct (inv_fin c I Ef) as [[Hst Hnil]|Hst]; [|done].
      rewrite Hr, bool_decide_eq_true_2, andb_true_r in Edirect by done.
      apply negb_false_iff in Edirect. apply (inv_writing c I) in Edirect; [done|congruence]. }
  apply andb_true_iff in Edirect as [Hnw Hempty]. rewrite Hr in Hempty.
  apply bool_decide_eq_true in Hempty.
  destruct w as [n| | |]; cbn [write_directly write_ok negb andb] in *; cbv zeta.
  - destruct Hw as [Hn Hf]. rewrite u64_small by (unfold MAX_SIZE in *; pose proof (wf_writer_nonneg c I); lia).
    set (c1 := set_output (outputBuffer_ c) (wire c ++ ztake n m) c).
    set (c2 := if (zlen m - n =? 0) && hasWriteComplete c1 then queueInLoop FWriteComplete c1 else c1).
    rewrite (proj2 (Z.leb_le _ _)) by lia. cbn [assert_ res_bind].
    assert (I1 : inv (settled c1)).
    { destruct I as [I1 I2 I3 I4 I5 I6 I7 I8 I9]. by constructor. }
    assert (I2 : inv (settled c2)).
    { subst c2. destruct (_ && _); [|done]. by apply (inv_post (settled c1)). }
    assert (E2 : outputBuffer_ c2 = outputBuffer_ c /\ wire c2 = wire c ++ ztake n m /\
                 accepted c2 = accepted c /\ state_ c2 = state_ c /\ fin c2 = fin c /\ calls c2 = calls c)
      by (subst c2; by destruct (_ && _)).
    destruct E2 as (Eo & Ew & Ea & Es & Ef & Ec). clearbody c2.
    destruct (Z.ltb_spec 0 (zlen m - n)).
    + assert (Hz : zlen (zdrop n m) = zlen m - n) by (rewrite zlen_zdrop_le; lia).
      rewrite <-Hz. destruct (buffer_rest_inv m n (set_accepted (accepted c2 ++ m) c2))
        as (c' & E & I' & H1 & H2 & H3).
      * exact I2.
      * cbn. by rewrite Es.
      * cbn. by rewrite Es.
      * cbn. by rewrite Ef.
      * intros Hnil. rewrite Hnil, zlen_nil in Hz. lia.
      * cbn. rewrite Ea, Ew, Eo, Hempty, (inv_stream c I), Hempty, app_nil_r, <-app_assoc. cbn.
        by rewrite ztake_zdrop.
      * cbn. rewrite Eo, Hz. lia.
      * exists c'. rewrite H1, H2, H3. cbn. rewrite Es, Ec, Hf. done.
    + exists (set_accepted (accepted c2 ++ m) c2). split; [done|].
      split; [|cbn; by rewrite Es, Ef, Ec].
      assert (Ht : ztake n m = m) by (apply ztake_ge; lia).
      replace (set_accepted (accepted c2 ++ m) c2) with (settled c2); [done|].
      unfold settled. by rewrite Ea, Ew, Eo, Ht, Hempty, app_nil_r, (inv_stream c I), Hempty, app_nil_r.
  - rewrite (proj2 (Z.leb_le _ _)) by lia. cbn [assert_ res_bind]. by apply Hbuf.
  - rewrite (proj2 (Z.leb_le _ _)) by lia. cbn [assert_ res_bind]. rewrite app_nil_r.
    exists c. split; [by destruct c|done].
  - rewrite (proj2 (Z.leb_le _ _)) by lia. cbn [assert_ res_bind]. by apply Hbuf.
Qed.

Lemma sendInLoop_accepted m w c c' : sendInLoop m w c = Ok c' -> w <> WriteReset ->
  state_ c <> kDisconnected ->
  accepted c' = accepted c ++ m /\ inputBuffer_ c' = inputBuffer_ c.
Proof.
  intros E Hw Hs. revert E. unfold sendInLoop, is_disconnected.
  rewrite bool_decide_eq_false_2 by done.
  set (d := if negb (isWriting (channel_ c)) && _ then _ else _).
  assert (Hd : d.2 = false /\ accepted d.1.1.1 = accepted c /\ inputBuffer_ d.1.1.1 = inputBuffer_ c).
  { subst d. destruct (negb _ && _); [|done]. destruct w; try done. cbn. by destruct (_ && _). }
  destruct d as [[[c1 n] r] f]. cbn in Hd. destruct Hd as (-> & Ha & Hi).
  intros H. inv_ok. destruct (negb false && _) eqn:Eb; inv_ok; subst; cbn; [|by rewrite Ha].
  unfold buffer_rest in H. inv_ok. subst c'.
  destruct (_ && _ && _); (destruct (isWriting _); cbn; by rewrite Ha).
Qed.

Lemma shutdown_fields b c : accepted (shutdown b c) = accepted c /\
  inputBuffer_ (shutdown b c) = inputBuffer_ c /\
  state_ (shutdown b c) = (if connected c then kDisconnecting else state_ c).
Proof.
  unfold shutdown. destruct (connected c); [|done]. destruct b; [|done].
  unfold shutdownInLoop. by destruct (isWriting _).
Qed.

Lemma inv_pending_nil c : inv c -> state_ c <> kDisconnected -> isWriting (channel_ c) = false ->
  contents (outputBuffer_ c) = [].
Proof.
  intros I Hd Ew. destruct (decide (contents (outputBuffer_ c) = [])) as [|Hn]; [done|].
  apply (inv_writing c I Hd) in Hn. congruence.
Qed.

Lemma shutdownInLoop_inv c : inv c -> state_ c = kDisconnecting \/ state_ c = kDisconnected ->
  inv (shutdownInLoop c).
Proof.
  intros I Hs. unfold shutdownInLoop. destruct (isWriting (channel_ c)) eqn:Ew; [done|].
  pose proof (inv_pending_nil c I) as Hn. destruct I as [I1 I2 I3 I4 I5 I6 I7 I8 I9].
  constructor; try done. intros _. cbn. destruct Hs as [Hs|Hs]; [left|by right].
  split; [done|]. apply Hn; congruence.
Qed.

Lemma inv_disconnecting c : inv c -> open c -> inv (setState kDisconnecting c).
Proof.
  intros [I1 I2 I3 I4 I5 I6 I7 I8 I9] Ho. constructor; cbn; try done.
  - intros _. apply I4. destruct Ho; congruence.
  - by intros [?|?].
  - intros Hf. left. split; [done|]. destruct (I6 Hf) as [[_ ?]|Hd]; [done|].
    destruct Ho; congruence.
  - split; [done|by left].
  - by destruct Ho as [E|E]; rewrite E in I8.
  - by destruct Ho as [E|E]; rewrite E in I9.
Qed.

Lemma openb c : connected c || is_disconnecting c = true <-> open c.
Proof. unfold connected, is_disconnecting, open. by rewrite orb_true_iff, !bool_decide_eq_true. Qed.

Lemma disconnect_inv c : inv c -> open c ->
  inv (call_ (CallConnection false) (channel_do DisableAll (setState kDisconnected c))).
Proof.
  intros [I1 I2 I3 I4 I5 I6 I7 I8 I9] Ho. constructor; cbn; try done.
  - by right.
  - split; [done|by right].
  - rewrite ups_and_downs_app. by destruct Ho as [E|E]; rewrite E in I8; rewrite I8.
  - rewrite closes_app. destruct Ho as [E|E]; rewrite E in I9; rewrite I9; apply Nat.le_0_l.
Qed.

Lemma inv_call c k : inv c -> ups_and_downs [k] = [] -> closes [k] = O -> inv (call_ k c).
Proof.
  intros [I1 I2 I3 I4 I5 I6 I7 I8 I9] H1 H2. constructor; try done; cbn.
  - by rewrite ups_and_downs_app, H1, app_nil_r.
  - rewrite closes_app, H2, Nat.add_0_r. done.
Qed.

Lemma handleClose_inv c : inv c -> open c -> exists c', handleClose c = Ok c' /\ inv c'.
Proof.
  intros I Ho. unfold handleClose. rewrite (proj2 (openb c) Ho). cbn [assert_ res_bind].
  pose proof (disconnect_inv c I Ho) as I'. eexists. split; [reflexivity|].
  assert (closes (calls c) = O) as E0 by (pose proof (inv_closes c I); by destruct Ho as [E|E]; rewrite E in *).
  destruct I' as [I1 I2 I3 I4 I5 I6 I7 I8 I9]. constructor; try done; cbn in *.
  - rewrite ups_and_downs_app, app_nil_r. exact I8.
  - rewrite !closes_app, E0. reflexivity.
Qed.

Lemma handleRead_inv r c : inv c -> event_ok (EvRead r) c -> exists c', handleRead r c = Ok c' /\ inv c'.
Proof.
  intros I [Hev Hr].
  assert (Ho : open c).
  { unfold open. destruct (state_ c) eqn:Es; auto; destruct Hev; apply (inv_closed c I); auto. }
  assert (Hin : forall b, good b -> inv (set_input b c)) by (intros b G; destruct I; by constructor).
  unfold handleRead. destruct r as [errno|d].
  - cbn [readFd res_bind rf_buffer rf_n Z.ltb Z.eqb Z.compare]. eexists. split; [reflexivity|].
    apply Hin, I.
  - destruct Hr as [H1 H2]. destruct (readFd_spec (inputBuffer_ c) d (inv_in c I) H1 H2)
      as (rr & -> & En & _ & G & _). cbn [res_bind]. rewrite En.
    destruct (0 <? zlen d); [|destruct (zlen d =? 0)].
    + eexists. split; [reflexivity|]. apply inv_call; [by apply Hin|done..].
    + by apply handleClose_inv; [apply Hin|].
    + eexists. split; [reflexivity|]. by apply Hin.
Qed.

Lemma handleWrite_inv w c : inv c -> event_ok (EvWrite w) c ->
  exists c', handleWrite w c = Ok c' /\ inv c'.
Proof.
  intros I Hw. unfold handleWrite. destruct (isWriting (channel_ c)) eqn:Ew; [|by exists c].
  destruct w as [n| | |]; try by exists c. destruct (Z.ltb_spec 0 n); [|by exists c].
  destruct Hw as [Hn Hf].
  assert (Hs : state_ c <> kDisconnected /\ state_ c <> kConnecting).
  { split; intros E; unfold isWriting in Ew; rewrite (inv_closed c I), has_0 in Ew by auto; done. }
  destruct Hs as [Hs1 Hs2].
  pose proof (retrieve_spec (outputBuffer_ c) n (inv_out c I) ltac:(lia)) as R.
  rewrite (proj2 (Z.leb_le _ _)) in R by lia. destruct R as (b' & E & G' & C).
  rewrite E. cbn [res_bind]. rewrite readable_0 by done. cbn [outputBuffer_ set_output].
  set (c1 := set_output b' _ c).
  assert (Hst : accepted c = (wire c ++ ztake n (contents (outputBuffer_ c))) ++ contents b').
  { by rewrite (inv_stream c I), C, <-app_assoc, ztake_zdrop. }
  destruct I as [I1 I2 I3 I4 I5 I6 I7 I8 I9]. case_bool_decide as Enil.
  - assert (I1' : inv (channel_do DisableWriting c1)).
    { constructor; try done.
      - intros _. rewrite isWriting_do by done. cbn. by rewrite Enil.
      - cbn. by intros [?|?].
      - intros Hfin. cbn in Hfin. congruence. }
    set (c2 := if hasWriteComplete _ then _ else _).
    assert (I2' : inv c2 /\ state_ c2 = state_ c).
    { subst c2. destruct (hasWriteComplete _); [|done]. split; [|done]. by apply inv_post. }
    destruct I2' as [I2' Es]. clearbody c2. eexists. split; [reflexivity|].
    destruct (is_disconnecting c2) eqn:Ed; [|done]. apply bool_decide_eq_true in Ed.
    apply shutdownInLoop_inv; [done|by left].
  - eexists. split; [reflexivity|]. constructor; try done.
    intros Hfin. cbn in Hfin. congruence.
Qed.

Lemma exec_inv ev c : inv c -> event_ok ev c -> exists c', exec ev c = Ok c' /\ inv c'.
Proof.
  intros I Hok.
  destruct ev as [|b m w|b| | | | | |w|r|w| | |]; cbn [exec event_ok] in *.
  - unfold connectEstablished. rewrite Hok, bool_decide_eq_true_2 by done. cbn [assert_ res_bind].
    eexists. split; [reflexivity|]. destruct I as [I1 I2 I3 I4 I5 I6 I7 I8 I9].
    rewrite Hok in *. constructor; cbn; try done.
    + intros _. rewrite <-I4 by done. rewrite <-(isWriting_do EnableReading c) by done. reflexivity.
    + by intros [?|?].
    + intros Hf. destruct (I6 Hf) as [[? _]|?]; done.
    + split; [done|]. intros H. rewrite (proj1 I7 eq_refl) in H. by apply not_elem_of_nil in H.
    + by rewrite ups_and_downs_app, I8.
    + by rewrite closes_app, I9.
  - unfold send. destruct (connected c) eqn:Ec; [|by exists c]. apply bool_decide_eq_true in Ec.
    destruct b.
    + destruct (sendInLoop_inv m w c I ltac:(congruence) Hok) as (c' & E & I' & _). by exists c'.
    + eexists. split; [reflexivity|]. apply inv_post; [done|congruence|done].
  - eexists. split; [reflexivity|]. unfold shutdown.
    destruct (connected c) eqn:Ec; [|done]. apply bool_decide_eq_true in Ec.
    pose proof (inv_disconnecting c I ltac:(by left)) as I'.
    destruct b; [apply shutdownInLoop_inv; [done|by left]|].
    apply inv_post; [done|done|by left].
  - eexists. split; [reflexivity|]. unfold forceClose.
    destruct (connected c || is_disconnecting c) eqn:Eo; [|done].
    apply inv_post; [by apply inv_disconnecting, openb|done|done].
  - eexists. split; [reflexivity|]. unfold forceCloseWithDelay.
    destruct (connected c || is_disconnecting c) eqn:Eo; [|done].
    apply openb in Eo. pose proof (inv_disconnecting c I Eo) as []. by constructor.
  - unfold forceCloseInLoop. destruct (connected c || is_disconnecting c) eqn:Eo; [|by exists c].
    by apply handleClose_inv, openb.
  - eexists. split; [reflexivity|]. unfold startReadInLoop. destruct (_ || _); [|done].
    pose proof (inv_channel_do EnableReading c I Hok ltac:(by left)) as []. by constructor.
  - eexists. split; [reflexivity|]. unfold stopReadInLoop. destruct (_ || _); [|done].
    pose proof (inv_channel_do DisableReading c I Hok ltac:(by right)) as []. by constructor.
  - destruct (posted c) as [|f fs] eqn:Ep; [by exists c|].
    destruct (inv_pop c f fs I Ep) as (I' & Hs & Hf).
    destruct f as [m| | | | | |n]; cbn [run_functor]; try done.
    + destruct (sendInLoop_inv m w (set_posted fs c) I' Hs Hok) as (c' & E & I2 & _). by exists c'.
    + eexists. split; [reflexivity|]. by apply shutdownInLoop_inv; [|apply Hf].
    + unfold forceCloseInLoop. destruct (_ || _) eqn:Eo; [|by eexists].
      apply handleClose_inv; [done|]. by apply openb in Eo.
    + eexists. split; [reflexivity|]. by apply inv_call.
    + eexists. split; [reflexivity|]. by apply inv_call.
  - by apply handleRead_inv.
  - by apply handleWrite_inv.
  - apply handleClose_inv; [done|]. unfold open.
    destruct (state_ c) eqn:Es; auto; destruct Hok; apply (inv_closed c I); auto.
  - by exists c.
  - unfold connectDestroyed. destruct (connected c) eqn:Ec.
    + apply bool_decide_eq_true in Ec.
      pose proof (disconnect_inv c I ltac:(by left)) as I'. eexists. split; [reflexivity|].
      destruct I'. by constructor.
    + destruct Hok as [Hok|Hok]; [unfold connected in Ec; by rewrite Hok in Ec|].
      unfold isNoneEvent. rewrite (inv_closed c I) by auto. eexists. split; [reflexivity|].
      destruct I as [I1 I2 I3 I4 I5 I6 I7 I8 I9]. by constructor.
Qed.

Lemma run_inv l c : inv c -> events_ok l c -> exists c', run l c = Ok c' /\ inv c'.
Proof.
  revert c. induction l as [|ev l IH]; intros c I Hok; [by exists c|].
  destruct Hok as [Hev Hok]. destruct (exec_inv ev c I Hev) as (c1 & E & I1).
  unfold run. cbn [res_foldl]. rewrite E. cbn [res_bind]. apply IH; [done|]. by apply Hok.
Qed.

Lemma new_inv fd wc hwm mark : inv (TcpConnection_new fd wc hwm mark).
Proof.
  assert (G : good (Buffer_new kInitialSize)) by (apply Buffer_new_good; vm_compute; congruence).
  constructor; cbn; try done. split; [done|]. intros H. by apply not_elem_of_nil in H.
Qed.

(** ** What an event does to the connection's life *)

(** The connection stays in its phase, or the event closes it. *)
Definition outcome (c c' : TcpConnection) : Prop :=
  (closes (calls c') = closes (calls c) /\
   (state_ c' = kConnecting <-> state_ c = kConnecting) /\
   (state_ c' = kDisconnected <-> state_ c = kDisconnected)) \/
  (open c /\ state_ c' = kDisconnected /\ closes (calls c') = S (closes (calls c))).

Lemma outcome_same c c' : closes (calls c') = closes (calls c) -> state_ c' = state_ c -> outcome c c'.
Proof. intros H1 H2. left. by rewrite H1, H2. Qed.

Lemma outcome_from c c1 c' : closes (calls c1) = closes (calls c) -> state_ c1 = state_ c ->
  outcome c1 c' -> outcome c c'.
Proof. unfold outcome, open. intros -> ->. done. Qed.

Lemma handleClose_outcome c c' : open c -> handleClose c = Ok c' -> outcome c c'.
Proof.
  intros Ho. unfold handleClose. rewrite (proj2 (openb c) Ho). cbn [assert_ res_bind].
  intros [= <-]. right. split; [done|]. split; [done|].
  cbn. rewrite !closes_app, <-Nat.add_assoc. exact (Nat.add_1_r _).
Qed.

Lemma forceCloseInLoop_outcome c c' : forceCloseInLoop c = Ok c' -> outcome c c'.
Proof.
  unfold forceCloseInLoop. destruct (_ || _) eqn:E; [|intros [= <-]; by apply outcome_same].
  apply handleClose_outcome. by apply openb.
Qed.

Lemma disconnecting_outcome c c' : open c -> closes (calls c') = closes (calls c) ->
  state_ c' = kDisconnecting -> outcome c c'.
Proof. intros Ho H1 H2. left. rewrite H1, H2. destruct Ho as [-> | ->]; done. Qed.

Lemma call_outcome c k : closes [k] = O -> outcome c (call_ k c).
Proof. intros H. apply outcome_same; [|done]. cbn. rewrite closes_app, H. lia. Qed.

Lemma shutdownInLoop_fields c : state_ (shutdownInLoop c) = state_ c /\
  calls (shutdownInLoop c) = calls c /\ posted (shutdownInLoop c) = posted c.
Proof. unfold shutdownInLoop. by destruct (isWriting _). Qed.

Lemma handleWrite_outcome w c c' : handleWrite w c = Ok c' -> outcome c c'.
Proof.
  unfold handleWrite. destruct (isWriting _); [|intros [= <-]; by apply outcome_same].
  destruct w as [n| | |]; try (intros [= <-]; by apply outcome_same).
  destruct (0 <? n); [|intros [= <-]; by apply outcome_same].
  destruct (retrieve _ _) as [b|]; cbn [res_bind]; [|done].
  destruct (_ =? 0); [|intros [= <-]; by apply outcome_same].
  cbv zeta. set (c1 := channel_do _ _).
  set (c2 := if hasWriteComplete c1 then queueInLoop FWriteComplete c1 else c1).
  intros [= <-].
  assert (E : state_ c2 = state_ c /\ calls c2 = calls c)
    by (unfold c2; by destruct (hasWriteComplete c1)).
  destruct E as [E1 E2]. destruct (shutdownInLoop_fields c2) as (F1 & F2 & _).
  apply outcome_same; destruct (is_disconnecting c2); by rewrite ?F1, ?F2, ?E1, ?E2.
Qed.

Lemma handleRead_outcome r c c' : inv c -> event_ok (EvRead r) c -> handleRead r c = Ok c' ->
  outcome c c'.
Proof.
  intros I [Hev _]. assert (Ho : open c).
  { unfold open. destruct (state_ c) eqn:Es; auto; destruct Hev; apply (inv_closed c I); auto. }
  unfold handleRead. destruct (readFd _ _) as [rr|]; cbn [res_bind]; [|done].
  destruct (0 <? rf_n rr); [intros [= <-]; exact (call_outcome c CallMessage eq_refl)|].
  destruct (rf_n rr =? 0); [|intros [= <-]; by apply outcome_same].
  intros H. by apply (handleClose_outcome (set_input (rf_buffer rr) c)).
Qed.

Lemma exec_outcome ev c c' : inv c -> event_ok ev c -> ev <> EvEstablished -> ev <> EvDestroyed ->
  exec ev c = Ok c' -> outcome c c'.
Proof.
  intros I Hok H1 H2.
  destruct ev as [|b m w|b| | | | | |w|r|w| | |]; try done; cbn [exec event_ok] in *.
  - unfold send. destruct (connected c) eqn:Ec; [|intros [= <-]; by apply outcome_same].
    apply bool_decide_eq_true in Ec. destruct b; [|intros [= <-]; by apply outcome_same].
    destruct (sendInLoop_inv m w c I ltac:(congruence) Hok) as (c1 & -> & _ & E1 & _ & E2).
    intros [= <-]. apply outcome_same; congruence.
  - unfold shutdown. destruct (connected c) eqn:Ec; [|intros [= <-]; by apply outcome_same].
    apply bool_decide_eq_true in Ec. destruct (shutdownInLoop_fields (setState kDisconnecting c)) as (F1 & F2 & _).
    intros [= <-]. apply disconnecting_outcome; [by left| |]; destruct b; by rewrite ?F1, ?F2.
  - unfold forceClose. destruct (_ || _) eqn:E; intros [= <-]; [|by apply outcome_same].
    apply disconnecting_outcome; [by apply openb|done..].
  - unfold forceCloseWithDelay. destruct (_ || _) eqn:E; intros [= <-]; [|by apply outcome_same].
    apply disconnecting_outcome; [by apply openb|done..].
  - apply forceCloseInLoop_outcome.
  - intros [= <-]. unfold startReadInLoop. destruct (_ || _); by apply outcome_same.
  - intros [= <-]. unfold stopReadInLoop. destruct (_ || _); by apply outcome_same.
  - destruct (posted c) as [|f fs] eqn:Ep; [intros [= <-]; by apply outcome_same|].
    destruct (inv_pop c f fs I Ep) as (I' & Hs & Hf).
    intros E. apply (outcome_from c (set_posted fs c)); [done..|]. revert E.
    destruct f as [m| | | | | |n]; cbn [run_functor]; try done.
    + destruct (sendInLoop_inv m w (set_posted fs c) I' Hs Hok) as (c1 & -> & _ & E1 & _ & E2).
      intros [= <-]. apply outcome_same; congruence.
    + destruct (shutdownInLoop_fields (set_posted fs c)) as (F1 & F2 & _).
      intros [= <-]. apply outcome_same; by rewrite ?F1, ?F2.
    + apply forceCloseInLoop_outcome.
    + intros [= <-]. by apply call_outcome.
    + intros [= <-]. by apply call_outcome.
  - by apply handleRead_outcome.
  - apply handleWrite_outcome.
  - apply handleClose_outcome. unfold open.
    destruct (state_ c) eqn:Es; auto; destruct Hok; apply (inv_closed c I); auto.
  - intros [= <-]. by apply outcome_same.
Qed.

Lemma established_state k k' : connectEstablished k = Ok k' -> state_ k' = kConnected.
Proof. unfold connectEstablished. intros H. inv_ok. by subst. Qed.
Lemma destroyed_state k k' : state_ k = kDisconnected -> connectDestroyed k = Ok k' -> state_ k' = kDisconnected.
Proof.
  intros Hs. unfold connectDestroyed, connected. rewrite Hs, bool_decide_eq_false_2 by done.
  intros H. inv_ok. by subst.
Qed.

(** The events that the loop brings; the others are calls of member functions. *)
Definition from_loop (ev : event) : bool :=
  match ev with
  | EvFunctor _ | EvRead _ | EvWrite _ | EvHangup | EvError | EvDelayExpired => true
  | _ => false
  end.

(** No member function closes the connection by itself. *)
Lemma exec_quiet ev c c' : inv c -> event_ok ev c -> from_loop ev = false -> ev <> EvEstablished ->
  ev <> EvDestroyed -> exec ev c = Ok c' -> closes (calls c') = closes (calls c).
Proof.
  intros I Hok Hl H1 H2. destruct ev as [|b m w|b| | | | | |w|r|w| | |]; try done; cbn [exec event_ok] in *.
  - unfold send. destruct (connected c) eqn:Ec; [|by intros [= <-]].
    apply bool_decide_eq_true in Ec. destruct b; [|by intros [= <-]].
    destruct (sendInLoop_inv m w c I ltac:(congruence) Hok) as (c1 & -> & _ & E1 & _ & E2).
    intros [= <-]. congruence.
  - unfold shutdown. destruct (connected c); [|by intros [= <-]].
    destruct (shutdownInLoop_fields (setState kDisconnecting c)) as (_ & F2 & _).
    intros [= <-]. destruct b; [by rewrite F2|done].
  - unfold forceClose. destruct (_ || _); by intros [= <-].
  - unfold forceCloseWithDelay. destruct (_ || _); by intros [= <-].
  - unfold startReadInLoop. destruct (_ || _); by intros [= <-].
  - unfold stopReadInLoop. destruct (_ || _); by intros [= <-].
Qed.

(** ** Draining after a shutdown *)

Lemma handleWrite_drains n c : inv c -> state_ c = kDisconnecting -> fin c = false ->
  0 < n <= zlen (contents (outputBuffer_ c)) ->
  exists c', handleWrite (Wrote n) c = Ok c' /\ inv c' /\ state_ c' = kDisconnecting /\
    accepted c' = accepted c /\
    contents (outputBuffer_ c') = zdrop n (contents (outputBuffer_ c)) /\
    fin c' = bool_decide (zlen (contents (outputBuffer_ c)) = n).
Proof.
  intros I Hs Hf Hn. pose proof (zlen_contents (outputBuffer_ c) ltac:(apply I)) as Hl.
  destruct (handleWrite_inv (Wrote n) c I) as (c' & E & I'); [cbn; split; [lia|done]|].
  exists c'. split; [done|]. split; [done|]. clear I'. revert E. unfold handleWrite.
  assert (Hne : contents (outputBuffer_ c) <> []) by (intros E%(f_equal zlen); change (zlen []) with 0 in E; lia).
  rewrite (proj2 (inv_writing c I ltac:(congruence)) Hne).
  rewrite (proj2 (Z.ltb_lt 0 n)) by lia.
  pose proof (retrieve_spec (outputBuffer_ c) n (inv_out c I) ltac:(lia)) as R.
  rewrite (proj2 (Z.leb_le _ _)) in R by lia. destruct R as (b' & -> & G' & C). cbn [res_bind].
  rewrite readable_0 by done. cbn [outputBuffer_ set_output].
  assert (Hb : bool_decide (contents b' = []) = bool_decide (zlen (contents (outputBuffer_ c)) = n)).
  { apply bool_decide_ext. rewrite C. split; intros E.
    - apply (f_equal zlen) in E. rewrite zlen_zdrop_le, zlen_nil in E by lia. lia.
    - apply zdrop_ge. lia. }
  rewrite Hb. clear Hb. destruct (bool_decide (zlen _ = n)).
  - set (c2 := if hasWriteComplete _ then _ else _).
    assert (E2 : state_ c2 = kDisconnecting /\ accepted c2 = accepted c /\ outputBuffer_ c2 = b' /\
                 isWriting (channel_ c2) = false).
    { pose proof (isWriting_do DisableWriting c ltac:(done)) as Hw.
      subst c2. destruct (hasWriteComplete _); split_and!; try done; exact Hw. }
    clearbody c2. destruct E2 as (E1 & E2 & E3 & E4). unfold is_disconnecting.
    rewrite E1, bool_decide_eq_true_2 by done. unfold shutdownInLoop. rewrite E4.
    intros [= <-]. cbn. by rewrite E2, E3.
  - intros [= <-]. cbn. by rewrite Hf.
Qed.

Lemma drain_run ns c : inv c -> state_ c = kDisconnecting -> fin c = false ->
  Forall (fun n => 0 < n) ns -> ns <> [] -> foldr Z.add 0 ns = zlen (contents (outputBuffer_ c)) ->
  exists c', run ((fun n => EvWrite (Wrote n)) <$> ns) c = Ok c' /\ fin c' = true /\ wire c' = accepted c.
Proof.
  revert c. induction ns as [|n ns IH]; intros c I Hs Hf Hpos Hne Hsum; [done|].
  apply Forall_cons in Hpos as [Hn Hpos]. cbn in Hsum.
  assert (0 <= foldr Z.add 0 ns /\ (ns <> [] -> 0 < foldr Z.add 0 ns)) as [Hrest Hrest'].
  { clear -Hpos. induction Hpos as [|x l ?? IH]; cbn; [done|]. split; [lia|]. destruct IH. lia. }
  destruct (handleWrite_drains n c I Hs Hf ltac:(lia)) as (c1 & E & I1 & Hs1 & Ha & Hc & Hf1).
  unfold run. cbn [fmap list_fmap res_foldl exec]. rewrite E. cbn [res_bind].
  destruct (decide (ns = [])) as [->|Hns].
  - exists c1. split; [done|]. cbn in Hsum. rewrite bool_decide_eq_true_2 in Hf1 by lia.
    split; [done|]. rewrite <-Ha, (inv_stream c1 I1), Hc, zdrop_ge, app_nil_r by lia. done.
  - rewrite <-Ha. apply IH; [done|done| |done|done|].
    + rewrite Hf1. apply bool_decide_eq_false_2. specialize (Hrest' Hns). lia.
    + rewrite Hc, zlen_zdrop_le; lia.
Qed.

(** ** Admissibility, decided *)

Definition write_okb (c : TcpConnection) (len : Z) (w : write_result) : bool :=
  match w with
  | Wrote n => (0 <=? n) && (n <=? len) && negb (fin c)
  | WriteReset => true
  | WriteWouldBlock | WriteOther => negb (fin c)
  end.
Definition send_okb (c : TcpConnection) (m : bytes) (w : write_result) : bool :=
  write_okb c (zlen m) w && (writerIndex_ (outputBuffer_ c) + zlen m <=? MAX_SIZE).
Definition event_okb (ev : event) (c : TcpConnection) : bool :=
  match ev with
  | EvEstablished => bool_decide (state_ c = kConnecting)
  | EvSend _ m w => send_okb c m w
  | EvStartRead | EvStopRead => connected c || is_disconnecting c
  | EvFunctor w =>
      match posted c with
      | FSendInLoop m :: _ => send_okb c m w
      | (FStartReadInLoop | FStopReadInLoop) :: _ => false
      | _ => true
      end
  | EvRead r =>
      negb (events_ (channel_ c) =? kNoneEvent) &&
      match r with
      | ReadData d => (zlen d <=? readv_capacity (inputBuffer_ c)) &&
                      (size (inputBuffer_ c) + zlen d <=? MAX_SIZE)
      | ReadErr _ => true
      end
  | EvWrite w => write_okb c (readableBytes (outputBuffer_ c)) w
  | EvHangup => negb (events_ (channel_ c) =? kNoneEvent)
  | EvDestroyed => connected c || is_disconnected c
  | EvShutdown _ | EvForceClose | EvForceCloseWithDelay | EvDelayExpired | EvError => true
  end.
Fixpoint events_okb (l : list event) (c : TcpConnection) : bool :=
  match l with
  | [] => true
  | ev :: l' => event_okb ev c && match exec ev c with Ok c' => events_okb l' c' | Err _ => true end
  end.

Lemma write_okb_ok c len w : write_okb c len w = true -> write_ok c len w.
Proof. destruct w; cbn; rewrite ?andb_true_iff, ?negb_true_iff, ?Z.leb_le; tauto. Qed.
Lemma send_okb_ok c m w : send_okb c m w = true -> send_ok c m w.
Proof. unfold send_okb. rewrite andb_true_iff, Z.leb_le. intros [?%write_okb_ok ?]. by split. Qed.

Lemma event_okb_ok ev c : event_okb ev c = true -> event_ok ev c.
Proof.
  destruct ev as [|b m w|b| | | | | |w|r|w| | |]; cbn [event_okb event_ok]; try done.
  - apply bool_decide_eq_true.
  - apply send_okb_ok.
  - apply openb.
  - apply openb.
  - destruct (posted c) as [|[] ?]; try done. apply send_okb_ok.
  - rewrite andb_true_iff, negb_true_iff, Z.eqb_neq. intros [? H]. split; [done|].
    destruct r; [done|]. by apply andb_true_iff in H as [?%Z.leb_le ?%Z.leb_le].
  - apply write_okb_ok.
  - by rewrite negb_true_iff, Z.eqb_neq.
  - unfold connected, is_disconnected. by rewrite orb_true_iff, !bool_decide_eq_true.
Qed.

Lemma events_okb_ok l c : events_okb l c = true -> events_ok l c.
Proof.
  revert c. induction l as [|ev l IH]; intros c H; [done|]. cbn in H |- *.
  apply andb_true_iff in H as [H1 H2]. split; [by apply event_okb_ok|].
  intros c' E. rewrite E in H2. by apply IH.
Qed.

(** ** What a connection guarantees *)

(** C2: From a new connection, through every admissible sequence of events: no
    assertion fails; the bytes on the wire followed by the bytes waiting are
    exactly the accepted messages in order, so nothing is lost, repeated or
    reordered; while the connection is not closed its channel asks for
    writability exactly when bytes wait; and if the write side is shut down
    while it is not closed, every accepted byte has been written before. *)
Theorem stream_in_order fd wc hwm mark l (H : events_ok l (TcpConnection_new fd wc hwm mark)) :
  exists c, run l (TcpConnection_new fd wc hwm mark) = Ok c /\
    accepted c = wire c ++ contents (outputBuffer_ c) /\
    (state_ c <> kDisconnected ->
      (isWriting (channel_ c) = true <-> contents (outputBuffer_ c) <> []) /\
      (fin c = true -> wire c = accepted c)).
Proof.
  destruct (run_inv l _ (new_inv fd wc hwm mark) H) as (c & E & I). exists c.
  split; [done|]. split; [apply I|]. intros Hs. split; [by apply I|].
  intros Hf. destruct (inv_fin c I Hf) as [[_ Hn]|]; [|done].
  by rewrite (inv_stream c I), Hn, app_nil_r.
Qed.

(** A peer that takes three bytes, then nothing, then the rest; the shutdown
    comes between. *)
Definition sample_events : list event :=
  [EvEstablished; EvRead (ReadData (bs "ping")); EvSend true (bs "hello ") (Wrote 3);
   EvSend false (bs "world") WriteWouldBlock; EvFunctor WriteWouldBlock; EvShutdown true;
   EvWrite (Wrote 8)].

Lemma stream_in_order_witness :
  events_okb sample_events (TcpConnection_new 5 true true 64) = true /\
  exists c, run sample_events (TcpConnection_new 5 true true 64) = Ok c /\
    accepted c = wire c ++ contents (outputBuffer_ c) /\
    (state_ c <> kDisconnected ->
      (isWriting (channel_ c) = true <-> contents (outputBuffer_ c) <> []) /\
      (fin c = true -> wire c = accepted c)).
Proof.
  split; [by vm_compute|]. apply (stream_in_order 5 true true 64 sample_events).
  apply events_okb_ok. by vm_compute.
Defined.

(** The connection callback is called up once on establishment and down once
    on closing, in that order, whatever happens in between; the close callback,
    which removes the connection from its server, is called at most once; and a
    closed connection asks for no event. *)
Theorem connection_lifecycle fd wc hwm mark l (H : events_ok l (TcpConnection_new fd wc hwm mark)) :
  exists c, run l (TcpConnection_new fd wc hwm mark) = Ok c /\
    ups_and_downs (calls c) =
      match state_ c with
      | kConnecting => []
      | kConnected | kDisconnecting => [true]
      | kDisconnected => [true; false]
      end /\
    (closes (calls c) <= if is_disconnected c then 1 else 0)%nat /\
    (state_ c = kDisconnected -> isNoneEvent (channel_ c) = true).
Proof.
  destruct (run_inv l _ (new_inv fd wc hwm mark) H) as (c & E & I). exists c.
  split; [done|]. split; [apply I|]. split.
  - pose proof (inv_closes c I) as Hc. unfold is_disconnected. case_bool_decide as Hs.
    + by rewrite Hs in Hc.
    + destruct (state_ c); try done; by rewrite Hc.
  - intros Hs. unfold isNoneEvent. rewrite (inv_closed c I) by auto. done.
Qed.

Lemma connection_lifecycle_witness :
  exists c, run (sample_events ++ [EvRead (ReadData []); EvForceClose; EvDelayExpired; EvDestroyed])
              (TcpConnection_new 5 true true 64) = Ok c /\
    ups_and_downs (calls c) =
      match state_ c with
      | kConnecting => []
      | kConnected | kDisconnecting => [true]
      | kDisconnected => [true; false]
      end /\
    (closes (calls c) <= if is_disconnected c then 1 else 0)%nat /\
    (state_ c = kDisconnected -> isNoneEvent (channel_ c) = true).
Proof.
  apply (connection_lifecycle 5 true true 64). apply events_okb_ok. by vm_compute.
Defined.

(** C38: A graceful shutdown loses nothing: whatever an open connection still has
    to write when the loop's thread calls [shutdown], once the writes have
    taken those bytes, in pieces of any sizes, the socket's write side is shut
    down and all accepted bytes are on the wire. *)
Theorem graceful_shutdown fd wc hwm mark l c ns
  (H : events_ok l (TcpConnection_new fd wc hwm mark))
  (Hl : run l (TcpConnection_new fd wc hwm mark) = Ok c) (Hc : state_ c = kConnected)
  (Hns : Forall (fun n => 0 < n) ns) (Hsum : foldr Z.add 0 ns = zlen (contents (outputBuffer_ c))) :
  exists c', run (EvShutdown true :: ((fun n => EvWrite (Wrote n)) <$> ns)) c = Ok c' /\
    fin c' = true /\ wire c' = accepted c.
Proof.
  destruct (run_inv l _ (new_inv fd wc hwm mark) H) as (c0 & E & I).
  rewrite Hl in E. injection E as <-.
  assert (Hf : fin c = false) by
    (destruct (fin c) eqn:Ef; [destruct (inv_fin c I Ef) as [[]|]; congruence|done]).
  pose proof (inv_disconnecting c I ltac:(by left)) as I'.
  unfold run. cbn [res_foldl exec res_bind]. unfold shutdown, connected.
  rewrite bool_decide_eq_true_2 by done. unfold shutdownInLoop.
  destruct (isWriting (channel_ (setState kDisconnecting c))) eqn:Ew.
  - apply (drain_run ns _ I'); try done. intros ->. cbn in Hsum.
    apply (inv_writing _ I') in Ew; [|done]. apply Ew, zlen_0_nil. done.
  - pose proof (inv_pending_nil _ I' ltac:(done) Ew) as Hn. cbn in Hn. rewrite Hn in Hsum.
    destruct Hns as [|n ns Hn0 Hns]; [|exfalso].
    + eexists. split; [reflexivity|]. cbn. by rewrite (inv_stream c I), Hn, app_nil_r.
    + cbn in Hsum. change (zlen []) with 0 in Hsum.
      assert (0 <= foldr Z.add 0 ns) by (clear -Hns; induction Hns; cbn; lia). lia.
Qed.

(** Eleven bytes wait; the peer takes four, then seven. *)
Lemma graceful_shutdown_witness :
  let c0 := TcpConnection_new 5 true true 64 in
  let l := [EvEstablished; EvSend true (bs "hello world") WriteWouldBlock] in
  exists c, run l c0 = Ok c /\
  exists c', run (EvShutdown true :: ((fun n => EvWrite (Wrote n)) <$> [4; 7])) c = Ok c' /\
    fin c' = true /\ wire c' = accepted c.
Proof.
  intros c0 l. destruct (run l c0) as [c|] eqn:E; [|exfalso; by vm_compute in E].
  exists c. split; [done|]. apply (graceful_shutdown 5 true true 64 l c [4; 7]); [|exact E| | |].
  - apply events_okb_ok. by vm_compute.
  - vm_compute in E. by injection E as <-.
  - repeat constructor.
  - vm_compute in E. by injection E as <-.
Defined.

(** What [send(Buffer* )] does, case by case.  On a connected connection the
    loop's own thread sends the readable bytes and empties the buffer, but
    another thread sends nothing and the buffer keeps its bytes; on a
    connection that is not connected, where [send] of a string does nothing,
    the buffer is emptied and its bytes go to [sendInLoop]. *)
Theorem send_buffer_cases (buf : Buffer) (w : write_result) (c : TcpConnection) (H : good buf) :
  exists buf', contents buf' = [] /\
  send_buffer true buf w c =
    (if connected c then let* c' := send true (contents buf) w c in Ok (buf', c')
     else let* c' := sendInLoop (contents buf) w c in Ok (buf', c')) /\
  send_buffer false buf w c =
    (if connected c then Ok (buf, c) else Ok (buf', queueInLoop (FSendInLoop (contents buf)) c)).
Proof.
  pose proof (retrieveAllAsString_implements buf H) as R.
  unfold send_buffer, send. destruct (connected c).
  - exists (retrieveAll buf). split; [apply retrieveAll_spec; apply H|done].
  - destruct (retrieveAllAsString buf) as [[s b']|]; [|by destruct R as (? & ? & _)].
    destruct R as (? & [= -> <-] & _ & C). by exists b'.
Qed.

Lemma send_buffer_cases_witness :
  exists buf c, append (Buffer_new kInitialSize) (bs "bye") = Ok buf /\
    connectEstablished (TcpConnection_new 5 false false 64) = Ok c /\
    connected c = true /\ contents buf = bs "bye" /\
    send_buffer false buf (Wrote 3) c = Ok (buf, c).
Proof.
  destruct (append_ok (Buffer_new kInitialSize) (bs "bye")) as (b & E & G & C & _);
    [apply Buffer_new_good; by vm_compute|by vm_compute|].
  exists b. eexists. split; [exact E|]. split; [reflexivity|]. split; [reflexivity|].
  split; [exact C|].
  match goal with |- send_buffer _ _ ?w ?c = _ =>
    destruct (send_buffer_cases b w c G) as (b2 & _ & _ & E') end.
  exact E'.
Defined.
