(* ===== verification/HttpResponse.v ===== *)
(** * HTTP responses (cnet/net/http/HttpResponse.h, HttpResponse.cc) *)

From S2P Require Import Prelude Cstd StdMap Buffer HttpRequest.

(** The status code is the enum's integer value. *)
Definition kUnknownStatus : Z := 0.
Definition k200OK : Z := 200.
Definition k301MovedPermanently : Z := 301.
Definition k400BadRequest : Z := 400.
Definition k404NotFound : Z := 404.

Record HttpResponse := mkResponse {
  resp_headers_ : list (bytes * bytes);
  statusCode_ : Z;
  statusMessage_ : bytes;
  closeConnection_ : bool;
  body_ : bytes;
}.

Definition HttpResponse_new (close : bool) : HttpResponse :=
  mkResponse [] kUnknownStatus [] close [].
Definition setStatusCode (code : Z) (r : HttpResponse) : HttpResponse :=
  mkResponse (resp_headers_ r) code (statusMessage_ r) (closeConnection_ r) (body_ r).
Definition setStatusMessage (message : bytes) (r : HttpResponse) : HttpResponse :=
  mkResponse (resp_headers_ r) (statusCode_ r) message (closeConnection_ r) (body_ r).
Definition setCloseConnection (on : bool) (r : HttpResponse) : HttpResponse :=
  mkResponse (resp_headers_ r) (statusCode_ r) (statusMessage_ r) on (body_ r).
Definition resp_addHeader (key value : bytes) (r : HttpResponse) : HttpResponse :=
  mkResponse (map_set key value (resp_headers_ r)) (statusCode_ r) (statusMessage_ r)
    (closeConnection_ r) (body_ r).
Definition setContentType (contentType : bytes) (r : HttpResponse) : HttpResponse :=
  resp_addHeader (bs "Content-Type") contentType r.
Definition setBody (body : bytes) (r : HttpResponse) : HttpResponse :=
  mkResponse (resp_headers_ r) (statusCode_ r) (statusMessage_ r) (closeConnection_ r) body.

(** The two [snprintf]s into [char buf[32]]. *)
Definition status_text (code : Z) : bytes := snprintf 32 (bs "HTTP/1.1 " ++ fmt_d code ++ [SP]).
Definition length_text (n : Z) : bytes := snprintf 32 (bs "Content-Length: " ++ fmt_d n ++ CRLF).

Definition append_all (output : Buffer) (l : list bytes) : res Buffer :=
  res_foldl append_piece output l.

Definition append_response_header (output : Buffer) (kv : bytes * bytes) : res Buffer :=
  append_all output [kv.1; bs ": "; kv.2; CRLF].

Definition appendToBuffer (r : HttpResponse) (output : Buffer) : res Buffer :=
  let* output := append_all output [status_text (statusCode_ r); statusMessage_ r; CRLF] in
  let* output :=
    if closeConnection_ r then append_piece output (bs "Connection: close" ++ CRLF)
    else append_all output [length_text (zlen (body_ r)); bs "Connection: Keep-Alive" ++ CRLF] in
  let* output := res_foldl append_response_header output (resp_headers_ r) in
  append_all output [CRLF; body_ r].

(** What it writes, as one string. *)
Definition response_text (r : HttpResponse) : bytes :=
  (status_text (statusCode_ r) ++ statusMessage_ r ++ CRLF) ++
  (if closeConnection_ r then bs "Connection: close" ++ CRLF
   else length_text (zlen (body_ r)) ++ bs "Connection: Keep-Alive" ++ CRLF) ++
  headers_text (resp_headers_ r) ++ CRLF ++ body_ r.

Lemma append_all_spec l b : good b -> size b + zlen (concat l) < 2 ^ 31 ->
  exists b', append_all b l = Ok b' /\ good b' /\ contents b' = contents b ++ concat l /\
    size b' <= size b + zlen (concat l).
Proof.
  revert b. induction l as [|d l IH]; intros b G Hs; cbn [concat] in *.
  - exists b. rewrite app_nil_r, zlen_nil. split_and!; done || lia.
  - rewrite zlen_app in *. pose proof (zlen_nonneg (concat l)). unfold append_all. cbn [res_foldl].
    destruct (append_piece_step b d G) as (b1 & -> & G1 & C1 & S1); [lia|]. cbn [res_bind].
    destruct (IH b1 G1) as (b2 & E & G2 & C2 & S2); [lia|]. exists b2.
    rewrite C2, C1, <-app_assoc. split_and!; done || lia.
Qed.

Lemma append_response_headers_spec h b : good b -> size b + zlen (headers_text h) < 2 ^ 31 ->
  exists b', res_foldl append_response_header b h = Ok b' /\ good b' /\
    contents b' = contents b ++ headers_text h /\ size b' <= size b + zlen (headers_text h).
Proof.
  revert b. induction h as [|kv h IH]; intros b G Hs.
  - exists b. unfold headers_text. cbn. rewrite app_nil_r. split_and!; done || (rewrite ?zlen_nil; lia).
  - assert (E : headers_text (kv :: h) = concat [kv.1; bs ": "; kv.2; CRLF] ++ headers_text h).
    { unfold headers_text. cbn [map concat]. unfold header_text. by rewrite <-!app_assoc. }
    rewrite E in *. rewrite zlen_app in *. pose proof (zlen_nonneg (headers_text h)).
    cbn [res_foldl]. unfold append_response_header at 1.
    destruct (append_all_spec [kv.1; bs ": "; kv.2; CRLF] b G) as (b1 & -> & G1 & C1 & S1); [lia|].
    cbn [res_bind]. destruct (IH b1 G1) as (b2 & -> & G2 & C2 & S2); [lia|].
    exists b2. rewrite C2, C1, <-app_assoc. split_and!; done || lia.
Qed.

Lemma appendToBuffer_spec r b : good b -> size b + zlen (response_text r) < 2 ^ 31 ->
  exists b', appendToBuffer r b = Ok b' /\ good b' /\ contents b' = contents b ++ response_text r /\
    size b' <= size b + zlen (response_text r).
Proof.
  intros G Hs.
  set (first := [status_text (statusCode_ r); statusMessage_ r; CRLF]).
  set (mid := if closeConnection_ r then [bs "Connection: close" ++ CRLF]
              else [length_text (zlen (body_ r)); bs "Connection: Keep-Alive" ++ CRLF]).
  assert (E : response_text r = concat first ++ concat mid ++ headers_text (resp_headers_ r) ++
                                concat [CRLF; body_ r]).
  { unfold response_text, first, mid. destruct (closeConnection_ r); cbn [concat];
      by rewrite !app_nil_r. }
  rewrite E in *. rewrite !zlen_app in *.
  pose proof (zlen_nonneg (concat first)). pose proof (zlen_nonneg (concat mid)).
  pose proof (zlen_nonneg (headers_text (resp_headers_ r))).
  pose proof (zlen_nonneg (concat [CRLF; body_ r])).
  unfold appendToBuffer. fold first.
  destruct (append_all_spec first b G) as (b1 & -> & G1 & C1 & S1); [lia|]. cbn [res_bind].
  destruct (append_all_spec mid b1 G1) as (b2 & E2 & G2 & C2 & S2); [lia|].
  replace (if closeConnection_ r then _ else _) with (append_all b1 mid).
  2:{ unfold mid. destruct (closeConnection_ r); [|done]. unfold append_all. cbn [res_foldl].
      by destruct (append_piece b1 _). }
  rewrite E2. cbn [res_bind].
  destruct (append_response_headers_spec (resp_headers_ r) b2 G2) as (b3 & -> & G3 & C3 & S3); [lia|].
  cbn [res_bind]. destruct (append_all_spec [CRLF; body_ r] b3 G3) as (b4 & -> & G4 & C4 & S4); [lia|].
  exists b4. rewrite C4, C3, C2, C1, <-!app_assoc. split_and!; done || lia.
Qed.
