(* ===== verification/HttpServer.v ===== *)
(** * The HTTP server (cnet/net/http/HttpServer.h, HttpServer.cc)

    What the server does with the bytes of one connection: its message callback
    over the connection's state machine, the incremental parser and the
    printer of responses. *)

From S2P Require Import Prelude Cstd StdMap Buffer HttpRequest HttpContext.
From S2P Require Import HttpResponse Channel TcpConnection.

(** [detail::defaultHttpCallback] *)
Definition defaultHttpCallback (req : HttpRequest) (resp : HttpResponse) : HttpResponse :=
  setCloseConnection true (setStatusMessage (bs "Not Found") (setStatusCode k404NotFound resp)).

(** [onConnection]: the context kept with the connection. *)
Definition onConnection (conn : TcpConnection) (ctx : option HttpContext) : option HttpContext :=
  if connected conn then Some HttpContext_new else ctx.

Definition bad_request : bytes := bs "HTTP/1.1 400 Bad Request" ++ CRLF ++ CRLF.

Section server.
(** The user's [httpCallback_]. *)
Context (httpCallback : HttpRequest -> HttpResponse -> HttpResponse).

Definition wants_close (req : HttpRequest) : bool :=
  let connection := getHeader (bs "Connection") req in
  bytes_eqb connection (bs "close") ||
  (bool_decide (version_ req = kHttp10) && negb (bytes_eqb connection (bs "Keep-Alive"))).

(** [onRequest]; [w] is what [write(2)] returns if [send] calls it. *)
Definition onRequest (w : write_result) (req : HttpRequest) (conn : TcpConnection) : res TcpConnection :=
  let response := httpCallback req (HttpResponse_new (wants_close req)) in
  let* buf := appendToBuffer response (Buffer_new kInitialSize) in
  let* (buf, conn) := send_buffer true buf w conn in
  Ok (if closeConnection_ response then shutdown true conn else conn).

Definition onMessage (t : Z) (w : write_result) (ctx : HttpContext) (conn : TcpConnection)
  : res (HttpContext * TcpConnection) :=
  let* (ok, ctx, buf) := parseRequest t ctx (inputBuffer_ conn) in
  let conn := set_input buf conn in
  let* conn := (if ok then Ok conn
                else let* conn := send true bad_request w conn in Ok (shutdown true conn)) in
  if gotAll ctx then
    let* conn := onRequest w (request_ ctx) conn in Ok (reset ctx, conn)
  else Ok (ctx, conn).

(** ** Properties *)

(** What a parse of the unread bytes makes the server send. *)
Definition reply (r : bool * HttpContext * bytes) : option HttpResponse :=
  let '(ok, ctx, _) := r in
  if ok && gotAll ctx then
    Some (httpCallback (request_ ctx) (HttpResponse_new (wants_close (request_ ctx))))
  else None.

Lemma inv_set_input b c : inv c -> good b -> inv (set_input b c).
Proof. intros [] G. by constructor. Qed.

Lemma shutdown_inv c : inv c -> inv (shutdown true c).
Proof.
  intros I. destruct (exec_inv (EvShutdown true) c I Logic.I) as (c' & E & I'). by injection E as <-.
Qed.

Lemma send_accepts m w conn : inv conn -> state_ conn = kConnected -> send_ok conn m w ->
  w <> WriteReset ->
  exists conn', send true m w conn = Ok conn' /\ inv conn' /\ state_ conn' = kConnected /\
    accepted conn' = accepted conn ++ m /\ inputBuffer_ conn' = inputBuffer_ conn.
Proof.
  intros I Hs Hok Hw. destruct (sendInLoop_inv m w conn I ltac:(congruence) Hok) as (c' & E & I' & Hs' & _).
  destruct (sendInLoop_accepted m w conn c' E Hw ltac:(congruence)) as [Ha Hi].
  exists c'. unfold send, connected. rewrite bool_decide_eq_true_2 by done.
  by rewrite Hs', Hs.
Qed.

Lemma onRequest_spec w req conn :
  let response := httpCallback req (HttpResponse_new (wants_close req)) in
  inv conn -> state_ conn = kConnected -> send_ok conn (response_text response) w -> w <> WriteReset ->
  kCheapPrepend + kInitialSize + zlen (response_text response) < 2 ^ 31 ->
  exists conn', onRequest w req conn = Ok conn' /\ inv conn' /\
    accepted conn' = accepted conn ++ response_text response /\
    inputBuffer_ conn' = inputBuffer_ conn /\
    state_ conn' = (if closeConnection_ response then kDisconnecting else kConnected).
Proof.
  intros response I Hs Hok Hw Hsz. unfold onRequest. fold response.
  destruct (appendToBuffer_spec response (Buffer_new kInitialSize)) as (b & -> & G & C & _);
    [apply Buffer_new_good; by vm_compute|exact Hsz|]. cbn [res_bind].
  change (contents (Buffer_new kInitialSize)) with (@nil byte) in C. cbn [app] in C.
  destruct (send_accepts (response_text response) w conn I Hs Hok Hw) as (c' & E & I' & Hs' & Ha & Hi).
  unfold send_buffer. unfold send in E. unfold connected in *.
  rewrite bool_decide_eq_true_2 in * by done. rewrite C, E. cbn [res_bind].
  eexists. split; [reflexivity|]. destruct (closeConnection_ response); [|done].
  destruct (shutdown_fields true c') as (F1 & F2 & F3). unfold connected in F3.
  rewrite bool_decide_eq_true_2 in F3 by done.
  split; [by apply shutdown_inv|]. by rewrite F1, F2, F3.
Qed.

(** What the server does with a connection's unread bytes, for any callback:
    it parses them; a bad request gets the 400 answer and the shutdown; a
    complete request gets the text of the callback's response and nothing else,
    the connection is shut down exactly if the response closes it, and the
    context is ready for the next request; an incomplete one gets nothing.  The
    bytes of the rest stay unread. *)
Theorem onMessage_serves (t : Z) (w : write_result) (ctx : HttpContext) (conn : TcpConnection)
  (ok : bool) (ctx' : HttpContext) (rest : bytes)
  (I : inv conn) (Hs : state_ conn = kConnected) (A : active ctx)
  (P : parse_bytes t ctx (contents (inputBuffer_ conn)) = Ok (ok, ctx', rest))
  (Hw : w <> WriteReset)
  (Hok : send_ok conn bad_request w)
  (Hrep : forall resp, reply (ok, ctx', rest) = Some resp ->
     send_ok conn (response_text resp) w /\
     kCheapPrepend + kInitialSize + zlen (response_text resp) < 2 ^ 31) :
  exists ctx2 conn', onMessage t w ctx conn = Ok (ctx2, conn') /\ inv conn' /\
    contents (inputBuffer_ conn') = rest /\
    if negb ok then
      accepted conn' = accepted conn ++ bad_request /\ state_ conn' = kDisconnecting /\ ctx2 = ctx'
    else
      match reply (ok, ctx', rest) with
      | Some resp =>
          accepted conn' = accepted conn ++ response_text resp /\
          state_ conn' = (if closeConnection_ resp then kDisconnecting else kConnected) /\
          ctx2 = reset ctx' /\ active ctx2
      | None => accepted conn' = accepted conn /\ state_ conn' = kConnected /\ ctx2 = ctx'
      end.
Proof.
  pose proof (parseRequest_bytes t ctx (inputBuffer_ conn) ltac:(apply I) A) as R. rewrite P in R.
  destruct R as (buf & E & G & C). unfold onMessage. rewrite E. cbn [res_bind]. cbv zeta.
  pose proof (inv_set_input buf conn I G) as I1.
  destruct ok; cbn [negb res_bind].
  - unfold reply in *. destruct (gotAll ctx') eqn:Eg; cbn [andb] in *.
    + destruct (Hrep _ eq_refl) as [Hs1 Hs2].
      destruct (onRequest_spec w (request_ ctx') (set_input buf conn) I1 Hs Hs1 Hw Hs2)
        as (c' & -> & I' & Ha & Hi & Hst). cbn [res_bind].
      eexists _, _. split; [reflexivity|]. split; [done|]. rewrite Hi. split; [done|].
      split_and!; try done. by left.
    + eexists _, _. split; [reflexivity|]. done.
  - destruct (parse_bytes_rejects _ _ _ _ _ A P) as (line & r & _ & Hst & _).
    unfold gotAll. rewrite Hst, bool_decide_eq_false_2 by done.
    destruct (send_accepts bad_request w (set_input buf conn) I1 Hs Hok Hw) as (c' & -> & I' & Hs' & Ha & Hi).
    cbn [res_bind]. eexists _, _. split; [reflexivity|].
    destruct (shutdown_fields true c') as (F1 & F2 & F3). unfold connected in F3.
    rewrite Hs', bool_decide_eq_true_2 in F3 by done.
    split; [by apply shutdown_inv|]. by rewrite F1, F2, F3, Hi, Ha.
Qed.

(** C40: A request line that is rejected after its method was recognised, such as
    "GET / HTTP/2.0", is answered with 400 and a shutdown, but stays unread and
    leaves its method in the context.  The connection still reads: as soon as
    the peer sends any further bytes, an assertion fails and the process
    aborts. *)
Theorem rejected_request_aborts (t t' : Z) (w w' : write_result) (ctx ctx' : HttpContext)
  (conn : TcpConnection) (rest d : bytes)
  (I : inv conn) (Hs : state_ conn = kConnected)
  (A : HttpContext.state_ ctx = kExpectRequestLine) (Hm : method_ (request_ ctx) = kInvalid)
  (P : parse_bytes t ctx (contents (inputBuffer_ conn)) = Ok (false, ctx', rest))
  (Hm' : method_ (request_ ctx') <> kInvalid)
  (Hw : w <> WriteReset) (Hok : send_ok conn bad_request w) :
  exists conn', onMessage t w ctx conn = Ok (ctx', conn') /\ state_ conn' = kDisconnecting /\
    (d <> [] -> zlen d <= readv_capacity (inputBuffer_ conn') ->
     size (inputBuffer_ conn') + zlen d <= MAX_SIZE ->
     exists conn2, handleRead (ReadData d) conn' = Ok conn2 /\
       onMessage t' w' ctx' conn2 = Err EAssert).
Proof.
  pose proof (parseRequest_bytes t ctx (inputBuffer_ conn) ltac:(apply I) ltac:(by left)) as R.
  rewrite P in R. destruct R as (buf & E & G & C). unfold onMessage at 1. rewrite E. cbn [res_bind].
  pose proof (inv_set_input buf conn I G) as I1. cbv zeta.
  destruct (parse_bytes_rejects t ctx _ _ _ ltac:(by left) P) as (line & r & _ & Hst & _).
  unfold gotAll. rewrite Hst, bool_decide_eq_false_2 by done.
  destruct (send_accepts bad_request w (set_input buf conn) I1 Hs Hok Hw) as (c' & -> & I' & Hs' & Ha & Hi).
  cbn [res_bind]. eexists. split; [reflexivity|].
  destruct (shutdown_fields true c') as (F1 & F2 & F3). unfold connected in F3.
  rewrite Hs', bool_decide_eq_true_2 in F3 by done. split; [done|].
  rewrite F2, Hi. cbn [inputBuffer_ set_input]. intros Hd Hcap Hsz.
  unfold handleRead. rewrite F2, Hi. cbn [inputBuffer_ set_input].
  destruct (readFd_spec buf d G Hcap Hsz) as (rr & -> & En & _ & G' & C'). cbn [res_bind].
  rewrite En. assert (0 < zlen d) as Hpos.
  { destruct d; [done|]. rewrite zlen_cons. pose proof (zlen_nonneg d). lia. }
  rewrite (proj2 (Z.ltb_lt 0 (zlen d)) Hpos). eexists. split; [reflexivity|].
  unfold onMessage. cbn [inputBuffer_ call_ set_input].
  pose proof (parseRequest_bytes t' ctx' (rf_buffer rr) G' ltac:(by left)) as R.
  rewrite C', C, (rejected_again t t' ctx _ ctx' rest d A Hm P Hm') in R. by rewrite R.
Qed.
End server.

(** ** A connection that has just received a request *)

Definition receiving (data : bytes) : list event := [EvEstablished; EvRead (ReadData data)].
Definition received (data : bytes) : res TcpConnection :=
  run (receiving data) (TcpConnection_new 7 false false 64).

Definition receivedb (data : bytes) : bool :=
  events_okb (receiving data) (TcpConnection_new 7 false false 64) &&
  match received data with
  | Ok conn => connected conn && bytes_eqb (contents (inputBuffer_ conn)) data &&
               (writerIndex_ (outputBuffer_ conn) =? kCheapPrepend)
  | Err _ => false
  end.

Lemma received_spec data : receivedb data = true ->
  exists conn, received data = Ok conn /\ inv conn /\ state_ conn = kConnected /\
    contents (inputBuffer_ conn) = data /\
    forall m, zlen m < 2 ^ 31 -> send_ok conn m WriteWouldBlock.
Proof.
  unfold receivedb. intros [Hok H]%andb_true_iff. apply events_okb_ok in Hok.
  destruct (run_inv _ _ (new_inv 7 false false 64) Hok) as (conn & E & I).
  unfold received in *. rewrite E in *. exists conn.
  apply andb_true_iff in H as [[Hc Hin]%andb_true_iff Hout].
  apply bool_decide_eq_true in Hc. apply bytes_eqb_true in Hin. apply Z.eqb_eq in Hout.
  split_and!; try done. intros m Hm. split.
  - cbn. destruct (fin conn) eqn:Ef; [|done]. destruct (inv_fin conn I Ef) as [[]|]; congruence.
  - rewrite Hout. unfold kCheapPrepend, MAX_SIZE. lia.
Qed.

Definition parsed (data : bytes) : HttpContext :=
  match parse_bytes 0 HttpContext_new data with Ok (_, c, _) => c | Err _ => HttpContext_new end.

(** A complete request with five bytes of the next one. *)
Definition ex_get : bytes := bs "GET / HTTP/1.1" ++ CRLF ++ bs "Host: a" ++ CRLF ++ CRLF ++ bs "GET /".

Lemma onMessage_serves_witness :
  exists conn ctx2 conn', received ex_get = Ok conn /\
    onMessage defaultHttpCallback 0 WriteWouldBlock HttpContext_new conn = Ok (ctx2, conn') /\
    contents (inputBuffer_ conn') = bs "GET /".
Proof.
  destruct (received_spec ex_get) as (conn & E & I & Hs & Hin & Hok); [by vm_compute|].
  destruct (onMessage_serves defaultHttpCallback 0 WriteWouldBlock HttpContext_new conn true
              (parsed ex_get) (bs "GET /") I Hs) as (ctx2 & conn' & E' & _ & R & _).
  - by left.
  - rewrite Hin. by vm_compute.
  - done.
  - by apply Hok.
  - intros resp [= <-]. split; [apply Hok|]; by vm_compute.
  - by exists conn, ctx2, conn'.
Defined.

Definition ex_bad : bytes := bs "GET / HTTP/2.0" ++ CRLF.

Lemma rejected_request_aborts_witness :
  exists conn conn' conn2, received ex_bad = Ok conn /\
    onMessage defaultHttpCallback 0 WriteWouldBlock HttpContext_new conn = Ok (parsed ex_bad, conn') /\
    handleRead (ReadData (bs "x")) conn' = Ok conn2 /\
    onMessage defaultHttpCallback 1 WriteReset (parsed ex_bad) conn2 = Err EAssert.
Proof.
  destruct (received_spec ex_bad) as (conn & E & I & Hs & Hin & Hok); [by vm_compute|].
  destruct (rejected_request_aborts defaultHttpCallback 0 1 WriteWouldBlock WriteReset HttpContext_new
              (parsed ex_bad) conn ex_bad (bs "x") I Hs) as (conn' & E' & _ & H).
  - done.
  - done.
  - rewrite Hin. by vm_compute.
  - by vm_compute.
  - done.
  - by apply Hok.
  - exists conn, conn'. assert (Hsz : received ex_bad = Ok conn) by done.
    vm_compute in Hsz. injection Hsz as <-.
    vm_compute in E'. injection E' as <-.
    destruct H as (conn2 & H1 & H2); [done|by vm_compute|by vm_compute|].
    exists conn2. by rewrite H1, H2.
Defined.

(** ** The framing of a response *)

(** How a client reads a head: the lines up to the first empty one, and what
    follows it. *)
Fixpoint read_head (fuel : nat) (l : bytes) : option (list bytes * bytes) :=
  match fuel with
  | O => None
  | S fuel' =>
      match split_line l with
      | None => None
      | Some ([], rest) => Some ([], rest)
      | Some (line, rest) =>
          match read_head fuel' rest with
          | Some (lines, body) => Some (line :: lines, body)
          | None => None
          end
      end
  end.

Lemma read_head_lines lines body fuel :
  Forall (fun line => line <> [] /\ LF ∉ line) lines -> (length lines < fuel)%nat ->
  read_head fuel (concat (map (fun line => line ++ CRLF) lines) ++ CRLF ++ body) = Some (lines, body).
Proof.
  revert fuel. induction lines as [|line lines IH]; intros [|fuel] Hl Hf; cbn [length] in Hf; try lia.
  - pose proof (split_line_text [] body (not_elem_of_nil _)) as E. cbn [app] in E.
    cbn [map concat app read_head]. by rewrite E.
  - apply Forall_cons in Hl as [[Hne Hlf] Hl]. cbn [map concat read_head].
    rewrite <-!app_assoc, split_line_text by done.
    destruct line as [|c line]; [done|]. by rewrite IH by (done || lia).
Qed.

Lemma fmt_u_plain n c : 0 <= n -> isdigit c = false -> c ∉ fmt_u n.
Proof.
  intros Hn Hc Hin. pose proof (fmt_u_digits n Hn) as F. rewrite Forall_forall in F.
  by rewrite (F c Hin) in Hc.
Qed.

Lemma headers_text_lines h :
  headers_text h = concat (map (fun line => line ++ CRLF) (map (fun kv => kv.1 ++ bs ": " ++ kv.2) h)).
Proof. unfold headers_text. by rewrite map_map. Qed.

Definition response_lines (r : HttpResponse) : list bytes :=
  (bs "HTTP/1.1 " ++ fmt_d (statusCode_ r) ++ [SP] ++ statusMessage_ r) ::
  (if closeConnection_ r then [bs "Connection: close"]
   else [bs "Content-Length: " ++ fmt_d (zlen (body_ r)); bs "Connection: Keep-Alive"]) ++
  map (fun kv => kv.1 ++ bs ": " ++ kv.2) (resp_headers_ r).

Lemma response_text_lines r : 0 <= statusCode_ r < 2 ^ 31 -> zlen (body_ r) < 10 ^ 13 ->
  response_text r = concat (map (fun line => line ++ CRLF) (response_lines r)) ++ CRLF ++ body_ r.
Proof.
  intros Hc Hb. pose proof (zlen_nonneg (body_ r)). unfold response_text, response_lines.
  rewrite map_cons, map_app, headers_text_lines. cbn [concat]. rewrite concat_app, <-!app_assoc.
  assert (E1 : status_text (statusCode_ r) = bs "HTTP/1.1 " ++ fmt_d (statusCode_ r) ++ [SP]).
  { unfold status_text. apply snprintf_fits. rewrite !zlen_app. unfold fmt_d.
    rewrite (proj2 (Z.ltb_ge _ _)) by lia. pose proof (fmt_u_length (statusCode_ r) 10) as L.
    change (zlen (bs "HTTP/1.1 ")) with 9. change (zlen [SP]) with 1. lia. }
  assert (E2 : length_text (zlen (body_ r)) = bs "Content-Length: " ++ fmt_d (zlen (body_ r)) ++ CRLF).
  { unfold length_text. apply snprintf_fits. rewrite !zlen_app. unfold fmt_d.
    rewrite (proj2 (Z.ltb_ge _ _)) by lia. pose proof (fmt_u_length (zlen (body_ r)) 13) as L.
    change (zlen (bs "Content-Length: ")) with 16. change (zlen CRLF) with 2. lia. }
  rewrite E1, E2, <-!app_assoc. do 6 f_equal.
  destruct (closeConnection_ r); cbn [map concat app]; by rewrite <-?app_assoc, ?app_nil_r.
Qed.

(** A response is framed as a client reads it: the lines up to the first empty
    line are the status line, the connection headers (with the exact length of
    the body in decimal when the connection is kept) and the response's own
    headers in order, and what follows the empty line is exactly the body. *)
Theorem response_framed (r : HttpResponse)
  (Hcode : 0 <= statusCode_ r < 2 ^ 31) (Hbody : zlen (body_ r) < 10 ^ 13)
  (Hmsg : LF ∉ statusMessage_ r)
  (Hhdr : Forall (fun kv => LF ∉ kv.1 /\ LF ∉ kv.2) (resp_headers_ r)) :
  read_head (S (length (response_lines r))) (response_text r) = Some (response_lines r, body_ r).
Proof.
  rewrite response_text_lines by done. apply read_head_lines; [|lia].
  pose proof (zlen_nonneg (body_ r)).
  assert (D : forall n, 0 <= n -> LF ∉ fmt_d n).
  { intros n Hn. unfold fmt_d. rewrite (proj2 (Z.ltb_ge _ _)) by lia. by apply fmt_u_plain. }
  assert (L : forall s : bytes, bool_decide (LF ∉ s) = true -> LF ∉ s)
    by (intros s H0; by apply bool_decide_eq_true in H0).
  unfold response_lines. constructor; [|apply Forall_app; split].
  - split; [done|]. rewrite !not_elem_of_app. split_and!; [by apply L|apply D; lia|by apply L|done].
  - destruct (closeConnection_ r); repeat constructor; try done; try (by apply L).
    rewrite not_elem_of_app. split; [by apply L|by apply D].
  - apply Forall_map. apply (Forall_impl _ _ _ Hhdr). intros [k v] [Hk Hv]. cbn in *.
    split; [by destruct k|]. change (LF ∉ k ++ bs ": " ++ v).
    rewrite !not_elem_of_app. split_and!; [done|by apply L|done].
Qed.

Definition ex_response : HttpResponse :=
  setBody (bs "<html></html>") (setContentType (bs "text/html")
    (setStatusMessage (bs "OK") (setStatusCode k200OK (HttpResponse_new false)))).

Lemma response_framed_witness :
  read_head (S (length (response_lines ex_response))) (response_text ex_response) =
    Some ([bs "HTTP/1.1 200 OK"; bs "Content-Length: 13"; bs "Connection: Keep-Alive";
           bs "Content-Type: text/html"], bs "<html></html>").
Proof.
  rewrite (response_framed ex_response).
  - by vm_compute.
  - by vm_compute.
  - by vm_compute.
  - apply (bool_decide_unpack _). by vm_compute.
  - apply (bool_decide_unpack _). by vm_compute.
Defined.
