(* ===== verification/HttpTypes.v ===== *)
(** * Well-formed requests (cnet/net/http/HttpContext.cc, HttpServer.cc)

    The type, so to speak, of a context: what holds of the request in each state
    of the parser, and what the callback of a server may rely on. *)

From S2P Require Import Prelude Cstd StdMap Buffer HttpRequest HttpContext HttpResponse Channel TcpConnection HttpServer.

(** A header: no colon in its name, no white space around its value. *)
Definition header_wf (kv : bytes * bytes) : Prop :=
  x3a ∉ kv.1 /\
  (forall c l, kv.2 = c :: l -> isspace c = false) /\ (forall l c, kv.2 = l ++ [c] -> isspace c = false).

Record request_wf (r : HttpRequest) : Prop := mkRequestWf {
  rw_method : method_ r <> kInvalid;
  rw_version : version_ r <> kUnknown;
  rw_path : SP ∉ path r /\ x3f ∉ path r;
  rw_query : query r = [] \/ exists q, query r = x3f :: q /\ SP ∉ q;
  rw_headers : Forall header_wf (headers_ r);
  rw_ordered : ordered ((headers_ r).*1);
}.

(** Before a request line the request is empty, unless the line was refused. *)
Definition context_wf (c : HttpContext) : Prop :=
  match HttpContext.state_ c with
  | kExpectRequestLine => headers_ (request_ c) = [] /\ (method_ (request_ c) = kInvalid -> query (request_ c) = [])
  | kExpectHeaders | kGotAll => request_wf (request_ c)
  | kExpectBody => False
  end.

(** ** Trimming *)

Lemma drop_while_spec p l : exists a, l = a ++ drop_while p l /\ forall c k, drop_while p l = c :: k -> p c = false.
Proof.
  induction l as [|x l (a & E & H)]; [by exists []|]. cbn [drop_while]. destruct (p x) eqn:Ex.
  - exists (x :: a). split; [cbn; by f_equal|done].
  - exists []. split; [done|]. by intros c k [= <- _].
Qed.

Lemma trim_right_spec v : (exists b, v = trim_right v ++ b) /\ forall l c, trim_right v = l ++ [c] -> isspace c = false.
Proof.
  unfold trim_right. destruct (drop_while_spec isspace (rev v)) as (a & E & H). split.
  - exists (rev a). rewrite <-rev_app_distr, <-E. by rewrite rev_involutive.
  - intros l c E'. apply (f_equal (@rev byte)) in E'. rewrite rev_involutive, rev_app_distr in E'. cbn in E'. by eapply H.
Qed.

Lemma addHeader_wf line r : request_wf r -> request_wf (addHeader line (std_find x3a line) r).
Proof.
  intros [H1 H2 H3 H4 H5 H6]. unfold addHeader. constructor; try done; cbn.
  - apply map_set_Forall; [done|]. destruct (drop_while_spec isspace (drop (S (std_find x3a line)) line)) as (a & _ & Hd).
    destruct (trim_right_spec (drop_while isspace (drop (S (std_find x3a line)) line))) as ((b & Eb) & Ht).
    split; [|split; [|exact Ht]]; cbn.
    + destruct (std_find_spec x3a line) as [[E Hn]|(l1 & l2 & E & Hn & El)].
      * by rewrite E, firstn_all.
      * by rewrite El, E, take_app_length.
    + intros c l Ec. rewrite Ec in Eb. by eapply Hd.
  - by apply map_set_ordered.
Qed.

(** ** The request line *)

(** A target without spaces, cut at its first question mark. *)
Lemma target_wf target : SP ∉ target ->
  let q := std_find x3f target in
  SP ∉ take q target /\ x3f ∉ take q target /\
  ((q =? length target)%nat = false -> exists k, drop q target = x3f :: k /\ SP ∉ k).
Proof.
  intros Hs. cbv zeta. destruct (std_find_spec x3f target) as [[E Hn]|(l1 & l2 & E & Hn & El)].
  - rewrite E, firstn_all, Nat.eqb_refl. done.
  - rewrite El, E, take_app_length, drop_app_length in *. rewrite elem_of_app, elem_of_cons in Hs. split_and!; [tauto|done|].
    intros _. exists l2. split; [done|tauto].
Qed.

Lemma processRequestLine_wf line r r' : method_ r = kInvalid -> headers_ r = [] -> query r = [] ->
  processRequestLine line r = Ok (true, r') -> request_wf r'.
Proof.
  intros Hm Hh Hq H. destruct (processRequestLine_cut line r r' Hm H) as (m & target & v & -> & S1 & S2 & Hk).
  destruct (processRequestLine_parts m target v r Hm S1 S2 Hk) as [(? & E & _)|(ver & E & V)]; [congruence|].
  rewrite H in E. injection E as ->. apply version_of_Some in V.
  destruct (target_wf target S2) as (T1 & T2 & T3). unfold request_of_line. cbv zeta in *.
  assert (Hv : ver <> kUnknown) by (destruct V as [[_ ->]|[_ ->]]; done).
  destruct (std_find x3f target =? length target)%nat eqn:Eq; (constructor; cbn; try done).
  - apply Nat.eqb_eq in Eq. by rewrite Eq, firstn_all in T2.
  - left. exact Hq.
  - by rewrite Hh.
  - rewrite Hh. constructor.
  - right. by apply T3.
  - by rewrite Hh.
  - rewrite Hh. constructor.
Qed.

(** A refused line leaves no query in a request that has no method. *)
Lemma processRequestLine_refuses line r r' : headers_ r = [] -> (method_ r = kInvalid -> query r = []) ->
  processRequestLine line r = Ok (false, r') -> headers_ r' = [] /\ (method_ r' = kInvalid -> query r' = []).
Proof.
  intros Hh Hq. unfold processRequestLine. cbv zeta. destruct (_ =? _)%nat; [by intros [= <-]|].
  unfold setMethod. destruct (bool_decide_reflect (method_ r = kInvalid)) as [Hm|]; [|done]. cbn [assert_ res_bind].
  destruct (bool_decide_reflect (method_ (with_method (method_of_string (take (std_find SP line) line)) r) = kInvalid)) as [E|E];
    cbn [negb].
  - intros [= <-]. split; [done|]. intros _. by apply Hq.
  - cbn [method_ with_method] in E. repeat case_match; intros [= <-]; done.
Qed.

Lemma parse_bytes_wf t c l ok c' l' : context_wf c -> active c -> parse_bytes t c l = Ok (ok, c', l') -> context_wf c'.
Proof.
  revert c. induction l as [l IH] using (induction_ltof1 _ length). unfold ltof in IH.
  intros c W A. rewrite parse_bytes_unfold by done.
  destruct (bytes_turn t c l) as [[[[ok1 more] c1] l1]|e] eqn:E; cbn [res_bind]; [|done].
  assert (W1 : context_wf c1).
  { unfold bytes_turn in E. destruct A as [A|A]; rewrite A in E.
    - destruct (split_line l) as [[line rest]|]; [|by injection E as _ _ <- _].
      destruct (processRequestLine line (request_ c)) as [[[] r]|] eqn:Ep; cbn [res_bind] in E; [| |done].
      + injection E as _ _ <- _. unfold context_wf in *. rewrite A in W. cbn. destruct W as [W1 W2].
        assert (Hm : method_ (request_ c) = kInvalid).
        { unfold processRequestLine in Ep. cbv zeta in Ep. destruct (_ =? _)%nat; [done|]. unfold setMethod in Ep.
          by destruct (bool_decide_reflect (method_ (request_ c) = kInvalid)). }
        destruct (processRequestLine_wf line _ r Hm W1 (W2 Hm) Ep). by constructor.
      + injection E as _ _ <- _. unfold context_wf in *. rewrite A in *. cbn. destruct W.
        by eapply processRequestLine_refuses.
    - unfold context_wf in W. rewrite A in W. destruct (split_line l) as [[line rest]|];
        [|injection E as _ _ <- _; unfold context_wf; by rewrite A].
      cbv zeta in E. destruct (_ =? _)%nat; injection E as _ _ <- _; [done|]. by apply addHeader_wf. }
  destruct more; [|by intros [= <- <- <-]]. destruct (bytes_turn_active _ _ _ _ _ _ _ A E eq_refl). by apply IH.
Qed.

Lemma reset_wf c : context_wf (reset c).
Proof. done. Qed.

(** C14: What the callback of an HTTP server may rely on, and what keeps it so.  A new
    context is well-formed; [onMessage] on an active well-formed context leaves
    it active and well-formed, whatever the bytes, the callback and the results of the
    writes; and the callback is only ever given well-formed requests: a known
    method and version, a path without space or question mark, a query that
    begins with one, and headers in order, each name once and without a colon,
    each value trimmed.  (Two callbacks that agree on these requests make
    the same server.) *)
Theorem requests_well_formed (cb : HttpRequest -> HttpResponse -> HttpResponse) (t : Z) (w : write_result)
  (ctx : HttpContext) (k : TcpConnection)
  (G : good (inputBuffer_ k)) (A : active ctx) (W : context_wf ctx) :
  context_wf HttpContext_new /\
  (forall ctx' k', onMessage cb t w ctx k = Ok (ctx', k') -> context_wf ctx' /\ active ctx') /\
  (forall cb', (forall req resp, request_wf req -> cb req resp = cb' req resp) ->
     onMessage cb' t w ctx k = onMessage cb t w ctx k).
Proof.
  split; [done|].
  pose proof (parseRequest_bytes t ctx (inputBuffer_ k) G A) as R.
  destruct (parse_bytes t ctx (contents (inputBuffer_ k))) as [[[ok c'] l']|e] eqn:P.
  2:{ unfold onMessage. rewrite R. by split. }
  destruct R as (b & E & _ & _). pose proof (parse_bytes_wf _ _ _ _ _ _ W A P) as W'.
  unfold onMessage. rewrite E. cbn [res_bind]. cbv zeta. split.
  - intros ctx' k' H. destruct ok.
    + cbn [res_bind] in H. destruct (gotAll c') eqn:Eg.
      * destruct (onRequest _ _ _ _); [|done]. cbn [res_bind] in H. injection H as <- _. split; [done|by left].
      * injection H as <- _. split; [done|]. by eapply parse_bytes_active.
    + destruct (parse_bytes_rejects _ _ _ _ _ A P) as (line & l & _ & Hst & _).
      destruct (send _ _ _ _); [|done]. cbn [res_bind] in H.
      unfold gotAll in H. rewrite Hst, bool_decide_eq_false_2 in H by done. injection H as <- _.
      split; [done|by left].
  - intros cb' Hcb. destruct (gotAll c') eqn:Eg; [|done].
    assert (Wr : request_wf (request_ c')).
    { unfold gotAll in Eg. apply bool_decide_eq_true in Eg. unfold context_wf in W'. by rewrite Eg in W'. }
    unfold onRequest. by rewrite (Hcb _ _ Wr).
Qed.

Lemma requests_well_formed_witness :
  exists conn ctx' conn', received ex_get = Ok conn /\
    onMessage defaultHttpCallback 0 WriteWouldBlock HttpContext_new conn = Ok (ctx', conn') /\
    context_wf ctx' /\
    onMessage (fun req resp => if bytes_eqb (path req) (bs "a b") then resp else defaultHttpCallback req resp)
      0 WriteWouldBlock HttpContext_new conn = Ok (ctx', conn').
Proof.
  destruct (received_spec ex_get) as (conn & E & I & Hs & Hin & Hok); [by vm_compute|].
  destruct (requests_well_formed defaultHttpCallback 0 WriteWouldBlock HttpContext_new conn (inv_in conn I)
    ltac:(by left) ltac:(done)) as (_ & H1 & H2).
  assert (Ex : exists ctx' conn', onMessage defaultHttpCallback 0 WriteWouldBlock HttpContext_new conn = Ok (ctx', conn')).
  { assert (Hc : match received ex_get with
                 | Ok c => bool_decide (is_Some (match onMessage defaultHttpCallback 0 WriteWouldBlock HttpContext_new c with
                                                 Ok _ => Some tt | Err _ => None end))
                 | Err _ => false end = true) by (vm_compute; reflexivity).
    rewrite E in Hc. apply bool_decide_eq_true in Hc. destruct (onMessage _ _ _ _ _) as [[ctx' conn']|]; [eauto|].
    by destruct Hc. }
  destruct Ex as (ctx' & conn' & E'). exists conn, ctx', conn'. split; [done|]. split; [exact E'|].
  split; [exact (proj1 (H1 ctx' conn' E'))|]. rewrite H2; [exact E'|]. intros req resp [_ _ [Hp _] _ _ _].
  destruct (bytes_eqb (path req) (bs "a b")) eqn:Eb; [|done]. apply bytes_eqb_true in Eb. destruct Hp. rewrite Eb. apply (bool_decide_unpack _). by vm_compute.
Defined.
