(* ===== verification/HttpClient.v ===== *)
(** * The HTTP client (cnet/net/http/HttpClient.h, HttpClient.cc)

    The handlers of the client over a connection, and an exchange between the
    client and the server: the request crosses one connection in any segments,
    the answer comes back in any segments. *)

From S2P Require Import Prelude Cstd Buffer InetAddress HttpRequest HttpContext HttpResponse Channel TcpConnection HttpServer.

(** The request, and what [httpMessageCallback_] was called with. *)
Record HttpClient := mkHttpClient {
  client_request : HttpRequest;
  responses : list HttpResponse;
}.
Definition HttpClient_new (request : HttpRequest) : HttpClient := mkHttpClient request [].



Section url.
Context (lexical_cast gethostbyname : bytes -> option Z) (ndebug : bool) (garbage_flags : Z) (garbage_scheme : Scheme).
Definition get (url : bytes) : res HttpClient :=
  let* request := parseURL lexical_cast gethostbyname ndebug garbage_flags garbage_scheme url kGet in
  Ok (HttpClient_new request).
Definition post (url : bytes) : res HttpClient :=
  let* request := parseURL lexical_cast gethostbyname ndebug garbage_flags garbage_scheme url kPost in
  Ok (HttpClient_new request).
End url.

(** ** Reads *)



(** ** The sizes of the buffers *)





(** ** The server, reading a request in segments *)





(** ** The client, reading the answer *)


(** ** The exchange *)










