(* ===== verification/Inspector.v ===== *)
(** * The inspector (cnet/net/inspect/Inspector.h, Inspector.cc)

    An HTTP callback that serves pages about the process: the table of modules
    and commands, [add] and [remove], the dispatch of a request.  The pages are
    those of Inspectors.v. *)

From stdpp Require Import gmap.
From S2P Require Import Prelude Cstd StdMap HttpRequest HttpResponse.

Abbreviation ArgList := (list bytes).
(** [boost::function]: empty, or a command that gives the text of its page. *)
Abbreviation Callback := (option (Method -> ArgList -> res bytes)).
Abbreviation CommandList := (list (bytes * Callback)).
Abbreviation HelpList := (list (bytes * bytes)).

Definition SLASH : byte := x2f.

(** ** Paths *)

(** [str.find(c, from)] *)
Definition str_find (c : byte) (str : bytes) (from : nat) : option nat :=
  let i := (from + std_find c (drop from str))%nat in
  if (i <? length str)%nat then Some i else None.
(** [str.substr(pos, n)] *)
Definition substr (str : bytes) (pos n : nat) : bytes := take n (drop pos str).

(** The loop of [split]; [fuel] bounds its turns. *)
Fixpoint split_loop (fuel : nat) (str : bytes) (start : nat) (result : list bytes) : res (nat * list bytes) :=
  match str_find SLASH str start with
  | Some pos =>
      match fuel with
      | O => Err EFuel
      | S fuel =>
          let result := if (start <? pos)%nat then result ++ [substr str start (pos - start)] else result in
          split_loop fuel str (S pos) result
      end
  | None => Ok (start, result)
  end.

Definition split (str : bytes) : res (list bytes) :=
  let* (start, result) := split_loop (length str) str 0 [] in
  Ok (if (start <? length str)%nat then result ++ [drop start str] else result).

(** ** The table of commands *)

Record Inspector := mkInspector {
  modules_ : list (bytes * CommandList);
  helps_ : list (bytes * HelpList);
}.

(** The tables of a new inspector, before its own modules are registered. *)
Definition Inspector_new : Inspector := mkInspector [] [].

(** [m[module]]: the list of the module, made when it is not there. *)
Definition module_of {V} (module : bytes) (m : list (bytes * list (bytes * V))) : list (bytes * V) :=
  default [] (map_find module m).

Definition add (module command : bytes) (cb : Callback) (help : bytes) (ins : Inspector) : Inspector :=
  mkInspector (map_set module (map_set command cb (module_of module (modules_ ins))) (modules_ ins))
              (map_set module (map_set command help (module_of module (helps_ ins))) (helps_ ins)).

Definition remove (module command : bytes) (ins : Inspector) : Inspector :=
  match map_find module (modules_ ins) with
  | Some list =>
      mkInspector (map_set module (map_erase command list) (modules_ ins))
                  (map_set module (map_erase command (module_of module (helps_ ins))) (helps_ ins))
  | None => ins
  end.

(** ** Requests *)

(** A line of the page "/". *)
Definition help_line (module command help : bytes) : bytes :=
  let len := (length module + length command)%nat in
  bs "/" ++ module ++ bs "/" ++ command ++ replicate (if (25 <=? len)%nat then 1 else 25 - len)%nat SP ++
  help ++ [LF].

Definition help_page (ins : Inspector) : bytes :=
  concat (map (fun helpListI => concat (map (fun it => help_line helpListI.1 it.1 it.2) helpListI.2)) (helps_ ins)).

Definition respond_ok (contentType body : bytes) (resp : HttpResponse) : HttpResponse :=
  setBody body (setContentType contentType (setStatusMessage (bs "OK") (setStatusCode k200OK resp))).
Definition not_found (resp : HttpResponse) : HttpResponse :=
  setStatusMessage (bs "NOT FOUND") (setStatusCode k404NotFound resp).

(** The picture, a PNG of 16 by 16 pixels. *)
Definition favicon : bytes :=
  [
   x89; x50; x4e; x47; x0d; x0a; x1a; x0a; x00; x00; x00; x0d; x49; x48; x44; x52; x00; x00; x00; x10; x00; x00; x00; x10;
   x08; x06; x00; x00; x00; x1f; xf3; xff; x61; x00; x00; x00; x04; x73; x42; x49; x54; x08; x08; x08; x08; x7c; x08; x64;
   x88; x00; x00; x00; x09; x70; x48; x59; x73; x00; x00; x0b; x12; x00; x00; x0b; x12; x01; xd2; xdd; x7e; xfc; x00; x00;
   x00; x1c; x74; x45; x58; x74; x53; x6f; x66; x74; x77; x61; x72; x65; x00; x41; x64; x6f; x62; x65; x20; x46; x69; x72;
   x65; x77; x6f; x72; x6b; x73; x20; x43; x53; x33; x98; xd6; x46; x03; x00; x00; x00; x15; x74; x45; x58; x74; x43; x72;
   x65; x61; x74; x69; x6f; x6e; x20; x54; x69; x6d; x65; x00; x32; x2f; x31; x37; x2f; x30; x38; x20; x9c; xaa; x58; x00;
   x00; x04; x11; x74; x45; x58; x74; x58; x4d; x4c; x3a; x63; x6f; x6d; x2e; x61; x64; x6f; x62; x65; x2e; x78; x6d; x70;
   x00; x3c; x3f; x78; x70; x61; x63; x6b; x65; x74; x20; x62; x65; x67; x69; x6e; x3d; x22; x20; x20; x20; x22; x20; x69;
   x64; x3d; x22; x57; x35; x4d; x30; x4d; x70; x43; x65; x68; x69; x48; x7a; x72; x65; x53; x7a; x4e; x54; x63; x7a; x6b;
   x63; x39; x64; x22; x3f; x3e; x0a; x3c; x78; x3a; x78; x6d; x70; x6d; x65; x74; x61; x20; x78; x6d; x6c; x6e; x73; x3a;
   x78; x3d; x22; x61; x64; x6f; x62; x65; x3a; x6e; x73; x3a; x6d; x65; x74; x61; x2f; x22; x20; x78; x3a; x78; x6d; x70;
   x74; x6b; x3d; x22; x41; x64; x6f; x62; x65; x20; x58; x4d; x50; x20; x43; x6f; x72; x65; x20; x34; x2e; x31; x2d; x63;
   x30; x33; x34; x20; x34; x36; x2e; x32; x37; x32; x39; x37; x36; x2c; x20; x53; x61; x74; x20; x4a; x61; x6e; x20; x32;
   x37; x20; x32; x30; x30; x37; x20; x32; x32; x3a; x31; x31; x3a; x34; x31; x20; x20; x20; x20; x20; x20; x20; x20; x22;
   x3e; x0a; x20; x20; x20; x3c; x72; x64; x66; x3a; x52; x44; x46; x20; x78; x6d; x6c; x6e; x73; x3a; x72; x64; x66; x3d;
   x22; x68; x74; x74; x70; x3a; x2f; x2f; x77; x77; x77; x2e; x77; x33; x2e; x6f; x72; x67; x2f; x31; x39; x39; x39; x2f;
   x30; x32; x2f; x32; x32; x2d; x72; x64; x66; x2d; x73; x79; x6e; x74; x61; x78; x2d; x6e; x73; x23; x22; x3e; x0a; x20;
   x20; x20; x20; x20; x20; x3c; x72; x64; x66; x3a; x44; x65; x73; x63; x72; x69; x70; x74; x69; x6f; x6e; x20; x72; x64;
   x66; x3a; x61; x62; x6f; x75; x74; x3d; x22; x22; x0a; x20; x20; x20; x20; x20; x20; x20; x20; x20; x20; x20; x20; x78;
   x6d; x6c; x6e; x73; x3a; x78; x61; x70; x3d; x22; x68; x74; x74; x70; x3a; x2f; x2f; x6e; x73; x2e; x61; x64; x6f; x62;
   x65; x2e; x63; x6f; x6d; x2f; x78; x61; x70; x2f; x31; x2e; x30; x2f; x22; x3e; x0a; x20; x20; x20; x20; x20; x20; x20;
   x20; x20; x3c; x78; x61; x70; x3a; x43; x72; x65; x61; x74; x6f; x72; x54; x6f; x6f; x6c; x3e; x41; x64; x6f; x62; x65;
   x20; x46; x69; x72; x65; x77; x6f; x72; x6b; x73; x20; x43; x53; x33; x3c; x2f; x78; x61; x70; x3a; x43; x72; x65; x61;
   x74; x6f; x72; x54; x6f; x6f; x6c; x3e; x0a; x20; x20; x20; x20; x20; x20; x20; x20; x20; x3c; x78; x61; x70; x3a; x43;
   x72; x65; x61; x74; x65; x44; x61; x74; x65; x3e; x32; x30; x30; x38; x2d; x30; x32; x2d; x31; x37; x54; x30; x32; x3a;
   x33; x36; x3a; x34; x35; x5a; x3c; x2f; x78; x61; x70; x3a; x43; x72; x65; x61; x74; x65; x44; x61; x74; x65; x3e; x0a;
   x20; x20; x20; x20; x20; x20; x20; x20; x20; x3c; x78; x61; x70; x3a; x4d; x6f; x64; x69; x66; x79; x44; x61; x74; x65;
   x3e; x32; x30; x30; x38; x2d; x30; x33; x2d; x32; x34; x54; x31; x39; x3a; x30; x30; x3a; x34; x32; x5a; x3c; x2f; x78;
   x61; x70; x3a; x4d; x6f; x64; x69; x66; x79; x44; x61; x74; x65; x3e; x0a; x20; x20; x20; x20; x20; x20; x3c; x2f; x72;
   x64; x66; x3a; x44; x65; x73; x63; x72; x69; x70; x74; x69; x6f; x6e; x3e; x0a; x20; x20; x20; x20; x20; x20; x3c; x72;
   x64; x66; x3a; x44; x65; x73; x63; x72; x69; x70; x74; x69; x6f; x6e; x20; x72; x64; x66; x3a; x61; x62; x6f; x75; x74;
   x3d; x22; x22; x0a; x20; x20; x20; x20; x20; x20; x20; x20; x20; x20; x20; x20; x78; x6d; x6c; x6e; x73; x3a; x64; x63;
   x3d; x22; x68; x74; x74; x70; x3a; x2f; x2f; x70; x75; x72; x6c; x2e; x6f; x72; x67; x2f; x64; x63; x2f; x65; x6c; x65;
   x6d; x65; x6e; x74; x73; x2f; x31; x2e; x31; x2f; x22; x3e; x0a; x20; x20; x20; x20; x20; x20; x20; x20; x20; x3c; x64;
   x63; x3a; x66; x6f; x72; x6d; x61; x74; x3e; x69; x6d; x61; x67; x65; x2f; x70; x6e; x67; x3c; x2f; x64; x63; x3a; x66;
   x6f; x72; x6d; x61; x74; x3e; x0a; x20; x20; x20; x20; x20; x20; x3c; x2f; x72; x64; x66; x3a; x44; x65; x73; x63; x72;
   x69; x70; x74; x69; x6f; x6e; x3e; x0a; x20; x20; x20; x3c; x2f; x72; x64; x66; x3a; x52; x44; x46; x3e; x0a; x3c; x2f;
   x78; x3a; x78; x6d; x70; x6d; x65; x74; x61; x3e; x0a; x20; x20; x20; x20; x20; x20; x20; x20; x20; x20; x20; x20; x20;
   x20; x20; x20; x20; x20; x20; x20; x20; x20; x20; x20; x20; x20; x20; x20; x20; x20; x20; x20; x20; x20; x20; x20; x20;
   x20; x20; x20; x20; x20; x20; x20; x20; x20; x20; x20; x20; x20; x20; x20; x20; x20; x20; x20; x20; x20; x20; x20; x20;
   x20; x20; x20; x20; x20; x20; x20; x20; x20; x20; x20; x20; x20; x20; x20; x20; x20; x20; x20; x20; x20; x20; x20; x20;
   x20; x20; x20; x20; x20; x20; x20; x20; x20; x20; x20; x20; x20; x20; x20; x0a; x20; x20; x20; x20; x20; x20; x20; x20;
   x20; x20; x20; x20; x20; x20; x20; x20; x20; x20; x20; x20; x20; x20; x20; x20; x20; x20; x20; x20; x20; x20; x20; x20;
   x20; x20; x20; x20; x20; x20; x20; x20; x20; x20; x20; x20; x20; x20; x20; x20; x20; x20; x20; x20; x20; x20; x20; x20;
   x20; x20; x20; x20; x20; x20; x20; x20; x20; x20; x20; x20; x20; x20; x20; x20; x20; x20; x20; x20; x20; x20; x20; x20;
   x20; x20; x20; x20; x20; x20; x20; x20; x20; x20; x20; x20; x20; x20; x20; x20; x20; x20; x20; x20; x0a; x20; x20; x20;
   x20; x20; x20; x20; x20; x20; x20; x20; x20; x20; x20; x20; x20; x20; x20; x20; x20; x20; x20; x20; x20; x20; x20; x20;
   x20; x20; x20; x20; x20; x20; x20; x20; x20; x20; x20; x20; x20; x20; x20; x20; x20; x20; x20; x20; x20; x20; x20; x20;
   x20; x20; x20; x20; x20; x20; x20; x20; x20; x20; x20; x20; x20; x20; x20; x20; x20; x20; x20; x20; x20; x20; x20; x20;
   x20; x20; x20; x20; x20; x20; x20; x20; x20; x20; x20; x20; x20; x20; x20; x20; x35; x1d; x52; x64; x00; x00; x02; x0b;
   x49; x44; x41; x54; x38; x8d; xa5; x93; x41; x6b; x1a; x41; x18; x86; x9f; x89; x06; x23; x2e; x74; xf5; x20; x4a; x0e;
   x6b; x20; xe4; xe2; xa5; x78; xc8; xa1; x78; x89; x82; x17; x85; x82; x82; x3d; x26; x62; x58; x72; xcd; x4f; xf1; x18;
   x4b; x1b; x2f; xa5; x32; xe0; xb5; x9e; x35; x1a; x58; x2f; xe9; x0f; xe8; x65; x6d; x84; xa2; x84; x2c; x0a; x6b; x58;
   x62; xa7; x87; x68; x68; x13; xa1; xa5; x79; xe1; x3b; x0c; xc3; xfb; xcc; x37; xef; x7c; x23; x94; x52; xbc; x44; x7e;
   x00; x21; x04; x00; xad; x56; xcb; x18; x8f; xc7; x0d; xdb; xb6; xd3; x8e; xe3; xf8; x83; xc1; xa0; x8a; xc7; xe3; x3f;
   x12; x89; x44; xb9; x5c; x2e; xf7; x56; xa6; xdf; x0f; x15; x4a; x29; x84; x10; x34; x9b; xcd; x77; x96; x65; x7d; x36;
   x0c; x43; xe4; x72; x39; xe2; xf1; x38; xb7; xb7; xb7; xf4; xfb; x7d; x06; x83; x01; xa9; x54; xea; x43; xa5; x52; x39;
   x7e; x0a; x40; x29; x45; xab; xd5; x32; x4e; x4f; x4f; x7f; x4a; x29; xd5; xdd; xdd; xdd; xb3; xea; xf5; x7a; xea; xe4;
   xe4; x44; x49; x29; xd3; x2b; xcf; xaa; x36; x00; xc6; xe3; x71; x63; x67; x67; x47; xe4; xf3; x79; x00; x3c; xcf; xa3;
   x50; x28; xe0; xba; x2e; x9e; xe7; x91; x4a; xa5; xd8; xdb; xdb; x63; x34; x1a; x7d; x7c; x9a; xc1; x06; x80; x6d; xdb;
   xe9; x6c; x36; x8b; xcf; xe7; xc3; xf3; x3c; x5c; xd7; x05; x60; x36; x9b; xe1; xba; x2e; x8b; xc5; x82; x4c; x26; x83;
   x6d; xdb; xbb; x6b; x43; x74; x1c; xc7; x1f; x8b; xc5; x00; x28; x16; x8b; x8f; x9b; xd5; x6a; x15; x00; x29; x25; x9a;
   xa6; x31; x9f; xcf; xc5; x5a; xc0; xd6; xd6; x96; x9a; x4c; x26; x22; x14; x0a; x21; xa5; x64; x36; x9b; x51; xad; x56;
   xa9; xd5; x6a; x68; x9a; x06; xc0; xf5; xf5; x35; xba; xae; xdf; xaf; xbd; x82; x61; x18; xdf; x2c; xcb; x7a; x20; xfa;
   xfd; x04; x02; x01; x00; x34; x4d; x23; x10; x08; xb0; x58; x2c; xe8; x76; xbb; x24; x12; x89; x8b; xb5; x1d; x6c; x6f;
   x6f; x1f; x75; x3a; x9d; x7e; x38; x1c; x26; x97; xcb; x21; x84; x40; x4a; x09; xc0; xe6; xe6; x26; xed; x76; x9b; xc9;
   x64; xa2; xa6; xd3; xe9; x27; x78; x98; x9b; xd5; x53; x3e; xce; xc1; xf9; xf9; xf9; xfb; xc1; x60; x70; x9c; x4c; x26;
   xd9; xdf; xdf; x27; x12; x89; x30; x1c; x0e; xb9; xbc; xbc; xe4; xe6; xe6; x46; xf9; x7c; xbe; x2f; xd3; xe9; x34; x0f;
   x34; xea; xf5; x7a; xe5; x19; x60; x19; xd6; x9b; xd1; x68; xd4; x18; x0e; x87; xbb; xf3; xf9; x5c; xe8; xba; x7e; x6f;
   x18; xc6; x45; x34; x1a; x3d; x2c; x95; x4a; xdf; x4d; xd3; xbc; x02; x5e; x03; x5f; x81; x83; xb3; xb3; x33; xe7; x0f;
   xc0; xdf; x64; x9a; xa6; xb1; x34; xeb; x80; x03; x1c; x6c; xfc; x93; x73; xa9; x7a; xbd; x6e; x03; x47; xcb; xa5; x0e;
   xbc; xe2; x7f; x7e; xa3; x69; x9a; x87; xa6; x69; xbe; x55; x4a; x3d; x64; xf0; x12; xfd; x02; x0d; x53; x06; x24; x88;
   x3f; xe1; x69; x00; x00; x00; x00; x49; x45; x4e; x44; xae; x42; x60; x82  ].

Definition onRequest (ins : Inspector) (req : HttpRequest) (resp : HttpResponse) : res HttpResponse :=
  if bytes_eqb (path req) (bs "/") then Ok (respond_ok (bs "text/plain") (help_page ins) resp)
  else
    let* result := split (path req) in
    match result with
    | [] => Ok (not_found resp)
    | [module] =>
        if bytes_eqb module (bs "favicon.ico") then Ok (respond_ok (bs "image/png") favicon resp)
        else Ok (not_found resp)
    | module :: command :: args =>
        match map_find module (modules_ ins) with
        | Some commList =>
            match map_find command commList with
            | Some (Some cb) =>
                let* body := cb (method_ req) args in
                Ok (respond_ok (bs "text/plain") body resp)
            | _ => Ok (not_found resp)
            end
        | None => Ok (not_found resp)
        end
    end.

(** ** What [split] gives *)

(** The fields between the slashes. *)
Fixpoint fields (l : bytes) : list bytes :=
  match l with
  | [] => [[]]
  | x :: l =>
      if byte_eqb x SLASH then [] :: fields l
      else match fields l with f :: fs => (x :: f) :: fs | [] => [[x]] end
  end.
Definition nonempty (l : bytes) : bool := match l with [] => false | _ => true end.
Definition path_parts (path : bytes) : list bytes := filter (fun f => nonempty f = true) (fields path).

Lemma fields_plain l : SLASH ∉ l -> fields l = [l].
Proof.
  induction l as [|x l IH]; intros H; [done|]. rewrite not_elem_of_cons in H. destruct H as [Hx Hl]. cbn.
  rewrite (proj2 (byte_eqb_false x SLASH)) by congruence. by rewrite IH.
Qed.

Lemma fields_app l k : SLASH ∉ l -> fields (l ++ SLASH :: k) = l :: fields k.
Proof.
  induction l as [|x l IH]; intros H; cbn; [done|]. rewrite not_elem_of_cons in H. destruct H as [Hx Hl].
  rewrite (proj2 (byte_eqb_false x SLASH)) by congruence. by rewrite IH.
Qed.

Lemma path_parts_plain l : SLASH ∉ l -> path_parts l = if nonempty l then [l] else [].
Proof. intros H. unfold path_parts. rewrite fields_plain by done. by destruct l. Qed.

Lemma path_parts_app l k : SLASH ∉ l ->
  path_parts (l ++ SLASH :: k) = (if nonempty l then [l] else []) ++ path_parts k.
Proof. intros H. unfold path_parts. rewrite fields_app by done. by destruct l. Qed.

Lemma path_parts_slash k : path_parts (SLASH :: k) = path_parts k.
Proof. exact (path_parts_app [] k (not_elem_of_nil _)). Qed.

(** A path made of names has these names. *)
Lemma path_parts_join l : Forall (fun f => SLASH ∉ f /\ f <> []) l -> path_parts (concat (map (cons SLASH) l)) = l.
Proof.
  assert (H : forall f l, SLASH ∉ f -> f <> [] -> Forall (fun f => SLASH ∉ f /\ f <> []) l ->
    path_parts (f ++ concat (map (cons SLASH) l)) = f :: l).
  { intros f k. revert f. induction k as [|g k IH]; intros f Hf Hn Hk; cbn [map concat].
    - rewrite app_nil_r, path_parts_plain by done. by destruct f.
    - apply Forall_cons in Hk as [[Hg Hg'] Hk]. cbn [app]. rewrite path_parts_app, IH by done. by destruct f. }
  destruct l as [|f l]; intros Hl; [done|]. apply Forall_cons in Hl as [[Hf Hn] Hl]. cbn [map concat app].
  rewrite path_parts_slash. by apply H.
Qed.

Lemma split_loop_ok fuel str start result : (length str <= start + fuel)%nat ->
  exists start' result', split_loop fuel str start result = Ok (start', result') /\
    (if (start' <? length str)%nat then result' ++ [drop start' str] else result') =
    result ++ path_parts (drop start str).
Proof.
  revert start result. induction fuel as [|fuel IH]; intros start result Hf; cbn [split_loop]; unfold str_find.
  - rewrite drop_ge by lia. cbn [std_find]. rewrite (proj2 (Nat.ltb_ge _ _)) by lia.
    exists start, result. split; [done|]. rewrite (proj2 (Nat.ltb_ge _ _)) by lia. by rewrite app_nil_r.
  - pose proof (length_drop str start) as Hlen.
    destruct (std_find_spec SLASH (drop start str)) as [[-> Hn]|(l1 & l2 & E & Hn & ->)].
    + rewrite (proj2 (Nat.ltb_ge _ _)) by lia. exists start, result. split; [done|].
      rewrite path_parts_plain by done. destruct (drop start str) eqn:Ed; cbn in Hlen.
      * rewrite (proj2 (Nat.ltb_ge _ _)) by lia. by rewrite app_nil_r.
      * by rewrite (proj2 (Nat.ltb_lt _ _)) by lia.
    + assert (Hl : (length l1 + S (length l2) = length str - start)%nat) by (rewrite <-Hlen, E, length_app; done).
      rewrite (proj2 (Nat.ltb_lt _ _)) by lia.
      destruct (IH (S (start + length l1)) (if (start <? start + length l1)%nat
        then result ++ [substr str start (start + length l1 - start)] else result)) as (s' & r' & -> & Er); [lia|].
      exists s', r'. split; [done|]. rewrite Er, E, path_parts_app by done.
      replace (drop (S (start + length l1)) str) with l2.
      2:{ replace (S (start + length l1)) with (start + S (length l1))%nat by lia.
          rewrite <-drop_drop, E. by rewrite <-(Nat.add_1_r (length l1)), drop_app_add. }
      rewrite app_assoc. f_equal. unfold substr. rewrite E, Nat.add_comm, Nat.add_sub, take_app_length.
      destruct l1; cbn [length nonempty]; [|by rewrite (proj2 (Nat.ltb_lt _ _)) by lia].
      rewrite Nat.ltb_irrefl. by rewrite app_nil_r.
Qed.

(** [split] gives the fields that are not empty, in order; its loop ends. *)
Lemma split_parts str : split str = Ok (path_parts str).
Proof.
  unfold split. destruct (split_loop_ok (length str) str 0 []) as (s & r & -> & E); [lia|]. cbn [res_bind].
  by rewrite E.
Qed.

(** ** Two tables that are one map *)

Definition lookup2 {V} (module command : bytes) (t : list (bytes * list (bytes * V))) : option V :=
  map_find module t ≫= map_find command.

Definition nested {V} (t : list (bytes * list (bytes * V))) : Prop :=
  ordered (t.*1) /\ Forall (fun p => ordered (p.2.*1)) t.

Section nested.
Context {V : Type}.
Implicit Types (t : list (bytes * list (bytes * V))).

Lemma module_of_ordered m t : nested t -> ordered ((module_of m t).*1).
Proof.
  intros [_ H]. unfold module_of. destruct (map_find m t) as [l|] eqn:E; [|constructor].
  apply map_find_Some_elem in E. rewrite Forall_forall in H. exact (H _ E).
Qed.

Lemma nested_set m l t : nested t -> ordered (l.*1) -> nested (map_set m l t).
Proof. intros [H1 H2] Hl. split; [by apply map_set_ordered|]. by apply map_set_Forall. Qed.

Lemma lookup2_set m l t m' c : lookup2 m' c (map_set m l t) = if decide (m = m') then map_find c l else lookup2 m' c t.
Proof.
  unfold lookup2. case_decide as E; [subst; by rewrite map_find_set_eq|]. by rewrite map_find_set_ne.
Qed.

Lemma lookup2_module_of m c t : map_find c (module_of m t) = lookup2 m c t.
Proof. unfold module_of, lookup2. by destruct (map_find m t). Qed.

Lemma lookup2_insert m c v t m' c' : lookup2 m' c' (map_set m (map_set c v (module_of m t)) t) =
  if decide ((m, c) = (m', c')) then Some v else lookup2 m' c' t.
Proof.
  rewrite lookup2_set. destruct (decide (m = m')) as [<-|]; [|by rewrite decide_False by congruence].
  destruct (decide (c = c')) as [<-|]; [by rewrite map_find_set_eq, decide_True|].
  by rewrite map_find_set_ne, lookup2_module_of, decide_False by congruence.
Qed.

Lemma lookup2_erase m c t m' c' : nested t -> lookup2 m' c' (map_set m (map_erase c (module_of m t)) t) =
  if decide ((m, c) = (m', c')) then None else lookup2 m' c' t.
Proof.
  intros N. pose proof (module_of_ordered m t N) as O. rewrite lookup2_set.
  destruct (decide (m = m')) as [<-|]; [|by rewrite decide_False by congruence].
  destruct (decide (c = c')) as [<-|]; [by rewrite map_find_erase_eq, decide_True|].
  by rewrite map_find_erase_ne, lookup2_module_of, decide_False by congruence.
Qed.

Lemma pair_ltb_l (m m2 c c2 : bytes) : ltb m m2 = true -> ltb (m, c) (m2, c2) = true.
Proof. intros H. change (ltb m m2 || (negb (ltb m2 m) && ltb c c2) = true). by rewrite H. Qed.
Lemma pair_ltb_r (m c c2 : bytes) : ltb c c2 = true -> ltb (m, c) (m, c2) = true.
Proof. intros H. change (ltb m m || (negb (ltb m m) && ltb c c2) = true). by rewrite ltb_irrefl, H. Qed.

Lemma concat_elem {A} (x : A) ls : x ∈ concat ls <-> exists l, x ∈ l /\ l ∈ ls.
Proof.
  rewrite list_elem_of_In, in_concat. split; intros (l & ? & ?); exists l; rewrite !list_elem_of_In in *; done.
Qed.

(** The entries of a table, in the order it is iterated. *)
Definition entries t : list ((bytes * bytes) * V) :=
  concat (map (fun p => map (fun q => ((p.1, q.1), q.2)) p.2) t).

Lemma entries_elem t m c v : nested t -> ((m, c), v) ∈ entries t <-> lookup2 m c t = Some v.
Proof.
  intros [N1 N2]. unfold entries, lookup2. rewrite bind_Some. rewrite concat_elem. setoid_rewrite list_elem_of_fmap.
  split.
  - intros (l & Hin & [m' l'] & -> & Hp). apply list_elem_of_fmap in Hin as ([c' v'] & [= -> -> ->] & Hq).
    exists l'. split; [by apply map_elem_find|]. rewrite Forall_forall in N2. apply map_elem_find; [exact (N2 _ Hp)|done].
  - intros (l & Hl%map_find_Some_elem & Hc%map_find_Some_elem). eexists. split; [|exists (m, l); split; [reflexivity|done]].
    cbn. apply list_elem_of_fmap. by exists (c, v).
Qed.

Lemma entries_ordered t : nested t -> ordered ((entries t).*1).
Proof.
  intros [N1 N2]. unfold entries. induction t as [|[m l] t IH]; [constructor|]. cbn [map concat]. rewrite fmap_app.
  apply Forall_cons in N2 as [Nl N2]. cbn in N1. apply ordered_app.
  - clear -Nl. cbn in *. induction l as [|[c v] l IH]; cbn in *; constructor.
    + intros [m' c'] Hy. apply list_elem_of_fmap in Hy as ([[m'' c''] v'] & [= -> ->] & Hy).
      apply list_elem_of_fmap in Hy as ([c1 v1] & [= -> -> ->] & Hy). apply pair_ltb_r.
      eapply ordered_head; [exact Nl|]. apply list_elem_of_fmap. by exists (c1, v1).
    + apply IH. eapply ordered_tail. exact Nl.
  - apply IH; [eapply ordered_tail; exact N1|done].
  - intros [m1 c1] [m2 c2] H1 H2. apply list_elem_of_fmap in H1 as ([[m1' c1'] v1] & [= -> ->] & H1).
    apply list_elem_of_fmap in H1 as ([? ?] & [= -> -> ->] & H1).
    apply list_elem_of_fmap in H2 as ([[m2' c2'] v2] & [= -> ->] & H2).
    apply concat_elem in H2 as (l2 & H2 & Hl2). apply list_elem_of_fmap in Hl2 as ([m3 l3] & -> & Hp).
    apply list_elem_of_fmap in H2 as ([? ?] & [= -> -> ->] & H2).
    apply pair_ltb_l. eapply ordered_head; [exact N1|]. apply list_elem_of_fmap. by exists (m3, l3).
Qed.
End nested.

(** ** The inspector is one map from commands to callbacks and helps *)

Inductive op : Type :=
| Add (module command : bytes) (cb : Callback) (help : bytes)
| Remove (module command : bytes).

Definition do_op (ins : Inspector) (o : op) : Inspector :=
  match o with
  | Add module command cb help => add module command cb help ins
  | Remove module command => remove module command ins
  end.

Abbreviation commands := (gmap (bytes * bytes) (Callback * bytes)).
Definition spec_op (s : commands) (o : op) : commands :=
  match o with
  | Add module command cb help => <[(module, command) := (cb, help)]> s
  | Remove module command => delete (module, command) s
  end.

(** The answer to a path with the given parts, from the map. *)
Definition spec_request (s : commands) (req : HttpRequest) (resp : HttpResponse) (parts : list bytes) : res HttpResponse :=
  match parts with
  | module :: command :: args =>
      match s !! (module, command) with
      | Some (Some cb, _) => let* body := cb (method_ req) args in Ok (respond_ok (bs "text/plain") body resp)
      | _ => Ok (not_found resp)
      end
  | [module] =>
      Ok (if bytes_eqb module (bs "favicon.ico") then respond_ok (bs "image/png") favicon resp else not_found resp)
  | [] => Ok (not_found resp)
  end.

(** The commands with their helps, in the order of their names. *)
Definition listing (s : commands) (l : list ((bytes * bytes) * bytes)) : Prop :=
  ordered (l.*1) /\ forall k help, (k, help) ∈ l <-> snd <$> s !! k = Some help.

Record represents (ins : Inspector) (s : commands) : Prop := mkRepresents {
  rp_modules : nested (modules_ ins);
  rp_helps : nested (helps_ ins);
  rp_callback : forall m c, lookup2 m c (modules_ ins) = fst <$> s !! (m, c);
  rp_help : forall m c, lookup2 m c (helps_ ins) = snd <$> s !! (m, c);
}.

Lemma represents_new : represents Inspector_new ∅.
Proof. split; [split; constructor..| |]; intros; by rewrite lookup_empty. Qed.

Lemma represents_op ins s o : represents ins s -> represents (do_op ins o) (spec_op s o).
Proof.
  intros [N1 N2 R1 R2]. destruct o as [m c cb help|m c]; cbn [do_op spec_op].
  - split; cbn [add modules_ helps_].
    + apply nested_set; [done|]. by apply map_set_ordered, module_of_ordered.
    + apply nested_set; [done|]. by apply map_set_ordered, module_of_ordered.
    + intros m' c'. rewrite lookup2_insert, R1, lookup_insert. by case_decide.
    + intros m' c'. rewrite lookup2_insert, R2, lookup_insert. by case_decide.
  - unfold remove. destruct (map_find m (modules_ ins)) as [l|] eqn:E.
    + assert (module_of m (modules_ ins) = l) as <- by (unfold module_of; by rewrite E).
      split; cbn [modules_ helps_].
      * apply nested_set; [done|]. by apply map_erase_ordered, module_of_ordered.
      * apply nested_set; [done|]. by apply map_erase_ordered, module_of_ordered.
      * intros m' c'. rewrite lookup2_erase, R1, lookup_delete by done. by case_decide.
      * intros m' c'. rewrite lookup2_erase, R2, lookup_delete by done. by case_decide.
    + rewrite delete_id; [done|]. specialize (R1 m c). unfold lookup2 in R1. rewrite E in R1. cbn in R1.
      by destruct (s !! (m, c)).
Qed.

Lemma represents_ops ops ins s : represents ins s -> represents (foldl do_op ins ops) (foldl spec_op s ops).
Proof. revert ins s. induction ops as [|o ops IH]; intros ins s R; cbn; [done|]. by apply IH, represents_op. Qed.

Lemma inspector_onRequest_spec ins s req resp : represents ins s -> path req <> bs "/" ->
  onRequest ins req resp = spec_request s req resp (path_parts (path req)).
Proof.
  intros [_ _ R _] Hp. unfold onRequest. rewrite (proj2 (bytes_eqb_false _ _)) by done. rewrite split_parts.
  cbn [res_bind]. unfold spec_request. destruct (path_parts (path req)) as [|m [|c args]]; [done|by destruct (bytes_eqb _ _)|].
  specialize (R m c). unfold lookup2 in R. destruct (map_find m (modules_ ins)) as [l|]; cbn in R.
  - rewrite R. destruct (s !! (m, c)) as [[[cb|] h]|]; done.
  - by destruct (s !! (m, c)) as [[[cb|] h]|].
Qed.

Lemma help_page_listing ins s : represents ins s -> exists l, listing s l /\
  help_page ins = concat (map (fun x => help_line x.1.1 x.1.2 x.2) l).
Proof.
  intros [_ N _ R]. exists (entries (helps_ ins)). split; [split; [by apply entries_ordered|]|].
  - intros [m c] h. rewrite entries_elem by done. by rewrite R.
  - unfold help_page, entries. clear. induction (helps_ ins) as [|[m l] t IH]; [done|]. cbn [map concat].
    rewrite map_app, concat_app, <-IH, map_map. done.
Qed.

(** C28: The inspector is one map from pairs of a module and a command to a callback
    and a help, whatever was added, added again and removed before: the answer
    to a path is that of the callback found under its first two parts, called
    with the method and the other parts, and 404 without one; the page (bs "/") has
    one line per command of the map, in the order of the names. *)
Theorem inspector_refines (ops : list op) (req : HttpRequest) (resp : HttpResponse) :
  let ins := foldl do_op Inspector_new ops in
  let s := foldl spec_op ∅ ops in
  if bytes_eqb (path req) (bs "/")
  then exists l, listing s l /\
         onRequest ins req resp =
           Ok (respond_ok (bs "text/plain") (concat (map (fun x => help_line x.1.1 x.1.2 x.2) l)) resp)
  else onRequest ins req resp = spec_request s req resp (path_parts (path req)).
Proof.
  intros ins s. assert (R : represents ins s) by apply represents_ops, represents_new.
  destruct (bytes_eqb (path req) (bs "/")) eqn:E.
  - destruct (help_page_listing ins s R) as (l & Hl & Ep). exists l. split; [done|].
    unfold onRequest. by rewrite E, Ep.
  - apply inspector_onRequest_spec; [done|]. by apply bytes_eqb_false.
Qed.

(** A command is found by the path made of its names and its arguments. *)
Example inspector_echo :
  let echo := Some (fun (_ : Method) args => Ok (concat args)) in
  let ins := foldl do_op Inspector_new
    [Add (bs "m") (bs "echo") None (bs "old"); Add (bs "a") (bs "x") None (bs "help of x");
     Add (bs "m") (bs "echo") echo (bs "new"); Add (bs "m") (bs "gone") echo []; Remove (bs "m") (bs "gone")] in
  let page p := (let* r := onRequest ins (setPath p HttpRequest_new) (HttpResponse_new false) in
                 Ok (statusCode_ r, body_ r)) in
  page (bs "//m/echo/1//2/") = Ok (200, bs "12") /\ page (bs "/m/gone") = Ok (404, []) /\ page (bs "/a/x") = Ok (404, []) /\
  page (bs "/") = Ok (200, bs "/a/x                       help of x" ++ [LF] ++ bs "/m/echo                    new" ++ [LF]).
Proof. vm_compute. done. Qed.
