(* ===== verification/ProcessInspector.v ===== *)
(** * The pages of the inspector (cnet/net/inspect/ProcessInspector.cc,
    SystemInspector.cc)

    The texts of the pages under /proc and /sys of the inspector, from what
    the files under /proc say, and the commands that the constructor of
    [Inspector] registers. *)

From stdpp Require Import gmap.
From S2P Require Import Prelude Cstd StdMap Double Timestamp HttpRequest HttpResponse ReadSmallFile ProcessInfo Inspector.

(** ** Shared by both *)

(** [uptime]; the age is an [int64_t], the seconds an [int]. *)
Definition uptime (now start : Timestamp) (showMicroseconds : bool) : res bytes :=
  let* age := int64_ (now - start) in
  let seconds := s32 (age ÷ kMicroSecondsPerSecond) in
  let days := seconds ÷ 86400 in
  let hours := Z.rem seconds 86400 ÷ 3600 in
  let minutes := Z.rem seconds 3600 ÷ 60 in
  let hms := fmt_d days ++ bs " days " ++ fmt_0wd 2 hours ++ bs ":" ++ fmt_0wd 2 minutes ++ bs ":" ++
             fmt_0wd 2 (Z.rem seconds 60) in
  Ok (snprintf 256
        (if showMicroseconds
         then hms ++ bs "." ++ fmt_0wd 6 (s32 (Z.rem age kMicroSecondsPerSecond))
         else hms)).

(** [getLong]: the number behind a key, 0 when the key is missing. *)
Definition getLong (procStatus key : bytes) : res Z :=
  match find_after key procStatus with
  | Some s => match atol s with Some n => Ok n | None => Err EUndefined end
  | None => Ok 0
  end.

(** [s[i]] of a constant string: NUL just behind the end, undefined further. *)
Definition at_ (s : bytes) (i : nat) : res byte :=
  match s !! i with
  | Some c => Ok c
  | None => if (i =? length s)%nat then Ok x00 else Err EUndefined
  end.

(** [while (s[pos] == c) ++pos;] and [while (s[pos] != c) ++pos;] *)
Fixpoint skip (fuel : nat) (same : bool) (c : byte) (s : bytes) (pos : nat) : res nat :=
  let* x := at_ s pos in
  if Bool.eqb (byte_eqb x c) same then
    match fuel with O => Err EFuel | S fuel => skip fuel same c s (S pos) end
  else Ok pos.

Definition TAB : byte := x09.

(** A string has at most [length + 1] characters to skip. *)
Definition getProcessName (procStatus : bytes) : res bytes :=
  match std_search (bs "Name:") procStatus with
  | pos =>
      if is_prefix (bs "Name:") (drop pos procStatus) then
        let fuel := S (S (length procStatus)) in
        let* pos := skip fuel true TAB procStatus (pos + 5) in
        let* eol := skip fuel false LF procStatus pos in
        Ok (substr procStatus pos (eol - pos))
      else Ok []
  end.

(** [next]: the piece behind the next space; pieces go up to the end of the
    string. *)
Definition next (data : bytes) : bytes :=
  let sp := std_find SP data in
  if (sp <? length data)%nat then drop (S sp) data else [].

Definition getCpuTime (os : System) (data : bytes) : CpuTime :=
  let data := Nat.iter 10 next data in
  let utime := strtol data in
  let data := next data in
  let stime := strtol data in
  mkCpuTime (seconds_of os utime) (seconds_of os stime).

(** [stringPrintf]: what it appends, through a buffer of 256 characters. *)
Definition stringPrintf (text : bytes) : bytes := cstr (snprintf 256 text).

Section pages.
Context (os : System) (ndebug : bool).
(** The C library's [gmtime_r], the clock, and when the process was started. *)
Context (gmtime : Z -> tm) (now_ startTime : Timestamp).

(** ** ProcessInspector *)

Definition mebibytes (kb : Z) : double := ddiv (double_of_Z kb) (double_of_Z 1024).

Definition overview : res bytes :=
  let* up := uptime now_ startTime true in
  let* status := procStatus os in
  let* name := getProcessName status in
  let* exe := exePath os in
  let* nthreads := getLong status (bs "Threads:") in
  let* vmsize := getLong status (bs "VmSize:") in
  let* vmrss := getLong status (bs "VmRSS:") in
  let* opened := openedFiles os in
  let* limit := maxOpenFiles os in
  let t := cpuTime os in
  Ok (bs "Page generated at " ++ toFormattedString gmtime now_ true ++ bs " (UTC)" ++ [LF] ++ bs "Started at " ++
      toFormattedString gmtime startTime true ++ bs " (UTC), up for " ++ up ++ [LF] ++
      name ++ bs " (" ++ exe ++ bs ") running as " ++ username os ++ bs " on " ++ hostname os ++ [LF] ++
      (if isDebugBuild ndebug then bs "WARNING: debug build!" ++ [LF] else []) ++
      stringPrintf (bs "pid " ++ fmt_d (pid os) ++ bs ", num of threads " ++ fmt_d nthreads ++ bs ", bits " ++ fmt_d 64 ++ [LF]) ++
      bs "Virtual memory: " ++ stringPrintf (fmt_f 3 (mebibytes vmsize) ++ bs " MiB, ") ++
      bs "RSS memory: " ++ stringPrintf (fmt_f 3 (mebibytes vmrss) ++ bs " MiB" ++ [LF]) ++
      stringPrintf (bs "Opened files: " ++ fmt_d opened ++ bs ", limit: " ++ fmt_d limit ++ [LF]) ++
      stringPrintf (bs "User time: " ++ fmt_wf 12 3 (userSeconds t) ++ bs "s" ++ [LF] ++
                    bs "Sys time:  " ++ fmt_wf 12 3 (systemSeconds t) ++ bs "s" ++ [LF])).

Definition pid_page : bytes := snprintf 32 (fmt_d (pid os)).
Definition openedFiles_page : res bytes := let* n := openedFiles os in Ok (snprintf 32 (fmt_d n)).

(** [%-16s] *)
Definition pad_right (w : Z) (s : bytes) : bytes := s ++ replicate (Z.to_nat (w - zlen s)) SP.

(** The line of a thread, from its stat file, and what is left of the text: the character behind the name is
    overwritten with NUL, the state is two characters further, the numbers two
    more. *)
Definition thread_line (tid : Z) (stat : bytes) : res (bytes * bytes) :=
  let name := procname_of stat in
  let* rp := piece_end name in
  let* c := at_ stat rp in
  assert! byte_eqb c RPAREN;
  let state := (rp + 2)%nat in
  let stat := <[rp := x00]> stat in
  if (state + 2 <=? length stat)%nat then
    let* st := at_ stat state in
    let t := getCpuTime os (drop (state + 2) stat) in
    Ok (cstr (snprintf 256 (fmt_wd 5 tid ++ [SP] ++ pad_right 16 (cstr (drop (fst (default (0, 0)%nat name)) stat)) ++ [SP; st; SP] ++
                            fmt_wf 12 3 (userSeconds t) ++ [SP] ++ fmt_wf 12 3 (systemSeconds t) ++ [LF])), stat)
  else Err EUndefined.

Definition task_stat (tid : Z) : bytes :=
  snprintf 256 (bs "/proc/" ++ fmt_d (pid os) ++ bs "/task/" ++ fmt_d tid ++ bs "/stat").

(** The loop of [threads]; [stat] is kept from one turn to the next. *)
Definition thread_turn (r : bytes * bytes) (tid : Z) : res (bytes * bytes) :=
  let (result, stat) := r in
  let* (err, stat) := readFile (sys_open os (task_stat tid)) 65536 stat in
  if err =? 0 then let* (line, stat) := thread_line tid stat in Ok (result ++ line, stat) else Ok (result, stat).

Definition threads_header : bytes := bs "  TID NAME             S    User Time  System Time" ++ [LF].
Definition threads_page : res bytes :=
  let* l := threads os in
  let* (result, _) := res_foldl thread_turn (threads_header, []) l in
  Ok result.

Definition proc_commands (ins : Inspector) : Inspector :=
  let ins := add (bs "proc") (bs "overview") (Some (fun _ _ => overview)) (bs "print basic overview") ins in
  let ins := add (bs "proc") (bs "pid") (Some (fun _ _ => Ok pid_page)) (bs "print pid") ins in
  let ins := add (bs "proc") (bs "status") (Some (fun _ _ => procStatus os)) (bs "print /proc/self/status") ins in
  add (bs "proc") (bs "threads") (Some (fun _ _ => threads_page)) (bs "list /proc/self/task") ins.

(** ** SystemInspector *)

(** [uname]: the node, the machine, the system, its release and version. *)
Record utsname := mkUtsname { nodename : bytes; machine : bytes; sysname : bytes; release : bytes; version_ : bytes }.
Context (uname : option utsname).

Definition proc_file (name : bytes) : res bytes := read_proc os (bs "/proc/" ++ name) 65536.

(** [%6ld MiB] of a number of kilobytes, of the type [long]. *)
Definition mib_line (label : bytes) (kb : Z) : res bytes :=
  let* kb := int64_ kb in
  Ok (stringPrintf (label ++ fmt_wd 6 (kb ÷ 1024) ++ bs " MiB" ++ [LF])).

Definition sys_overview : res bytes :=
  let* stat := proc_file (bs "stat") in
  let* btime := getLong stat (bs "btime ") in
  let* bootTime := int64_ (kMicroSecondsPerSecond * btime) in
  let* up := uptime now_ bootTime false in
  let* loadavg := proc_file (bs "loadavg") in
  let* processes := getLong stat (bs "processes ") in
  let* meminfo := proc_file (bs "meminfo") in
  let* total_kb := getLong meminfo (bs "MemTotal:") in
  let* free_kb := getLong meminfo (bs "MemFree:") in
  let* buffers_kb := getLong meminfo (bs "Buffers:") in
  let* cached_kb := getLong meminfo (bs "Cached:") in
  let* used_kb := (let* d := int64_ (total_kb - free_kb) in let* d := int64_ (d - buffers_kb) in int64_ (d - cached_kb)) in
  let* avail_kb := (let* d := int64_ (free_kb + buffers_kb) in int64_ (d + cached_kb)) in
  let* l1 := mib_line (bs "Total Memory: ") total_kb in
  let* l2 := mib_line (bs "Free Memory:  ") free_kb in
  let* l3 := mib_line (bs "Buffers:      ") buffers_kb in
  let* l4 := mib_line (bs "Cached:       ") cached_kb in
  let* l5 := mib_line (bs "Real Used:    ") used_kb in
  let* l6 := mib_line (bs "Real Free:    ") avail_kb in
  Ok (bs "Page generated at " ++ toFormattedString gmtime now_ true ++ bs " (UTC)" ++ [LF] ++
      match uname with
      | Some un =>
          stringPrintf (bs "Hostname: " ++ cstr (nodename un) ++ [LF]) ++
          stringPrintf (bs "Machine: " ++ cstr (machine un) ++ [LF]) ++
          stringPrintf (bs "OS: " ++ cstr (sysname un) ++ [SP] ++ cstr (release un) ++ [SP] ++ cstr (version_ un) ++ [LF])
      | None => []
      end ++
      bs "Boot time: " ++ toFormattedString gmtime bootTime false ++ bs " (UTC)" ++ [LF] ++ bs "Up time: " ++ up ++ [LF] ++
      stringPrintf (bs "Processes created: " ++ fmt_d processes ++ [LF]) ++
      stringPrintf (bs "Loadavg: " ++ cstr loadavg ++ [LF]) ++ l1 ++ l2 ++ l3 ++ l4 ++ l5 ++ l6).

Definition sys_commands (ins : Inspector) : Inspector :=
  let page (name : bytes) : Callback := Some (fun _ _ => proc_file name) in
  let ins := add (bs "sys") (bs "overview") (Some (fun _ _ => sys_overview)) (bs "print system overview") ins in
  let ins := add (bs "sys") (bs "loadavg") (page (bs "loadavg")) (bs "print /proc/loadavg") ins in
  let ins := add (bs "sys") (bs "version") (page (bs "version")) (bs "print /proc/version") ins in
  let ins := add (bs "sys") (bs "cpuinfo") (page (bs "cpuinfo")) (bs "print /proc/cpuinfo") ins in
  let ins := add (bs "sys") (bs "meminfo") (page (bs "meminfo")) (bs "print /proc/meminfo") ins in
  add (bs "sys") (bs "stat") (page (bs "stat")) (bs "print /proc/stat") ins.

(** The constructor of [Inspector]: there is one inspector at a time, made by
    the main thread. *)
Definition Inspector_ctor (isMainThread another : bool) : res Inspector :=
  assert! isMainThread;
  assert! negb another;
  Ok (sys_commands (proc_commands Inspector_new)).
End pages.

(** ** What the parsers read *)

(** The fields of [uptime]: they make up the seconds of the age, each in its
    range, as long as the seconds fit in an [int]. *)
Lemma uptime_fields now start us : start <= now -> now - start < 2 ^ 31 * kMicroSecondsPerSecond ->
  let seconds := (now - start) / kMicroSecondsPerSecond in
  exists days hours minutes secs, uptime now start us =
    Ok (snprintf 256 ((fmt_d days ++ bs " days " ++ fmt_0wd 2 hours ++ bs ":" ++ fmt_0wd 2 minutes ++ bs ":" ++ fmt_0wd 2 secs) ++
          (if us then bs "." ++ fmt_0wd 6 ((now - start) mod kMicroSecondsPerSecond) else []))) /\
    seconds = ((days * 24 + hours) * 60 + minutes) * 60 + secs /\
    0 <= days /\ 0 <= hours < 24 /\ 0 <= minutes < 60 /\ 0 <= secs < 60.
Proof.
  intros Hle Hlt seconds. unfold kMicroSecondsPerSecond in *. set (age := now - start) in *.
  assert (Hs : 0 <= seconds < 2 ^ 31).
  { subst seconds. split; [apply Z.div_pos; lia|]. apply Z.div_lt_upper_bound; lia. }
  pose proof (Z.mod_pos_bound age (1000 * 1000)). pose proof (Z.mod_pos_bound seconds 86400).
  pose proof (Z.mod_pos_bound seconds 3600). pose proof (Z.mod_pos_bound seconds 60).
  exists (seconds / 86400), (seconds mod 86400 / 3600), (seconds mod 3600 / 60), (seconds mod 60). split.
  - unfold uptime. fold age. rewrite int64_small by lia. cbn [res_bind]. unfold kMicroSecondsPerSecond.
    rewrite (Z.quot_div_nonneg age), (Z.rem_mod_nonneg age) by lia. fold seconds. rewrite !s32_small by lia.
    rewrite !Z.rem_mod_nonneg, !Z.quot_div_nonneg by lia. destruct us; by rewrite ?app_nil_r.
  - pose proof (Z.div_mod seconds 86400). pose proof (Z.div_mod (seconds mod 86400) 3600).
    assert (seconds mod 3600 = (seconds mod 86400) mod 3600) as E1.
    { rewrite (Z.mod_mod_divide seconds 86400 3600); [done|]. by exists 24. }
    assert (seconds mod 60 = (seconds mod 3600) mod 60) as E2.
    { rewrite (Z.mod_mod_divide seconds 3600 60); [done|]. by exists 60. }
    pose proof (Z.div_mod (seconds mod 3600) 60). split; [lia|]. split; [apply Z.div_pos; lia|].
    split; [split; [apply Z.div_pos; lia|apply Z.div_lt_upper_bound; lia]|].
    split; [split; [apply Z.div_pos; lia|apply Z.div_lt_upper_bound; lia]|]. lia.
Qed.

(** The number behind the first occurrence of a key. *)
Lemma getLong_found key pre blanks n post :
  (forall i, (i < length pre)%nat -> ~ occurs_at key (pre ++ key ++ blanks ++ fmt_u n ++ post) i) ->
  Forall (fun c => isspace c = true) blanks -> 0 <= n < 2 ^ 63 -> not_digit_next post ->
  getLong (pre ++ key ++ blanks ++ fmt_u n ++ post) key = Ok n.
Proof.
  intros Hp Hb Hn Hk. unfold getLong. rewrite find_after_first by done. unfold atol.
  rewrite number_at_digits; [|done|apply fmt_u_digits; lia| |done].
  - rewrite fmt_u_value by lia. rewrite (proj2 (Z.leb_le _ _)), (proj2 (Z.ltb_lt _ _)) by lia. done.
  - pose proof (fmt_u_nonempty n). intros E. rewrite E, zlen_nil in *. lia.
Qed.

Lemma at_app s k : at_ (s ++ k) (length s) = match k with c :: _ => Ok c | [] => Ok x00 end.
Proof.
  unfold at_. destruct k as [|c k]; [by rewrite app_nil_r, lookup_ge_None_2, Nat.eqb_refl by lia|].
  by rewrite lookup_app_r, Nat.sub_diag by lia.
Qed.

Lemma skip_run fuel same c pre run stop post : Forall (fun x => Bool.eqb (byte_eqb x c) same = true) run ->
  Bool.eqb (byte_eqb stop c) same = false -> (length run <= fuel)%nat ->
  skip fuel same c (pre ++ run ++ stop :: post) (length pre) = Ok (length pre + length run)%nat.
Proof.
  intros Hr Hs. revert fuel pre. induction Hr as [|x run Hx _ IH]; intros fuel pre Hf.
  - destruct fuel; cbn [skip app]; rewrite at_app; cbn [res_bind]; rewrite Hs, Nat.add_0_r; done.
  - destruct fuel as [|fuel]; [cbn in Hf; lia|]. cbn [skip app]. rewrite at_app. cbn [res_bind]. rewrite Hx.
    specialize (IH fuel (pre ++ [x])). rewrite <-app_assoc, length_app, Nat.add_1_r in IH. cbn [app] in IH.
    rewrite IH by (cbn in Hf; lia). cbn [length]. f_equal. lia.
Qed.

(** A run that no character stops goes past the end of the string. *)
Lemma skip_past fuel same c s pos : (pos <= length s)%nat -> (length s - pos < fuel)%nat ->
  Forall (fun x => Bool.eqb (byte_eqb x c) same = true) (drop pos s) -> Bool.eqb (byte_eqb x00 c) same = true ->
  skip fuel same c s pos = Err EUndefined.
Proof.
  revert pos. induction fuel as [|fuel IH]; intros pos Hp Hf Hr H0; [lia|]. cbn [skip]. unfold at_ at 1.
  destruct (s !! pos) as [x|] eqn:E; cbn [res_bind].
  - rewrite (drop_S _ _ _ E) in Hr. apply Forall_cons in Hr as [-> Hr].
    apply lookup_lt_Some in E. apply IH; [lia|lia|done|done].
  - apply lookup_ge_None_1 in E. replace (pos =? length s)%nat with true by (symmetry; apply Nat.eqb_eq; lia).
    cbn [res_bind]. rewrite H0. destruct fuel; cbn [skip]; unfold at_; rewrite lookup_ge_None_2 by lia;
      by rewrite (proj2 (Nat.eqb_neq _ _)) by lia.
Qed.

(** The name in a status file: what stands between the tabs behind "Name:" and
    the end of the line. *)
Lemma getProcessName_found pre tabs name post :
  (forall i, (i < length pre)%nat -> ~ occurs_at (bs "Name:") (pre ++ bs "Name:" ++ replicate tabs TAB ++ name ++ LF :: post) i) ->
  LF ∉ name -> match name with c :: _ => c <> TAB | [] => True end ->
  getProcessName (pre ++ bs "Name:" ++ replicate tabs TAB ++ name ++ LF :: post) = Ok name.
Proof.
  intros Hp Hn Ht. pose proof (find_after_first _ _ _ Hp) as F. unfold find_after in F. unfold getProcessName.
  destruct (is_prefix _ _) eqn:Ei; [|done]. injection F as F.
  set (s := pre ++ _) in *. assert (E : std_search (bs "Name:") s = length pre).
  { assert (Ho : occurs_at (bs "Name:") s (length pre)) by apply occurs_at_app.
    pose proof (std_search_first _ _ _ Ho) as Hle.
    destruct (decide (std_search (bs "Name:") s < length pre)%nat) as [Hlt|]; [|lia]. by destruct (Hp _ Hlt). }
  rewrite E. set (head := pre ++ bs "Name:").
  assert (Es : s = head ++ replicate tabs TAB ++ (name ++ LF :: post)) by (unfold s, head; by rewrite <-app_assoc).
  assert (Lh : (length pre + 5 = length head)%nat) by (unfold head; by rewrite length_app).
  assert (Ls : (length s = length head + tabs + length name + S (length post))%nat).
  { rewrite Es, !length_app, length_replicate. cbn. lia. }
  rewrite Lh. set (fuel := S (S (length s))).
  assert (K1 : skip fuel true TAB s (length head) = Ok (length head + tabs)%nat).
  { rewrite Es. destruct (name ++ LF :: post) as [|c k] eqn:Ek; [by destruct name|].
    rewrite skip_run, length_replicate; [done| | |].
    - apply Forall_replicate. by rewrite byte_eqb_refl.
    - replace (byte_eqb c TAB) with false; [done|]. symmetry. apply byte_eqb_false.
      destruct name as [|x name]; [by injection Ek as <- _|]. by injection Ek as <- _.
    - rewrite length_replicate. lia. }
  rewrite K1. cbn [res_bind]. rewrite app_assoc in Es.
  assert (Lt : (length head + tabs = length (head ++ replicate tabs TAB))%nat) by (by rewrite length_app, length_replicate).
  rewrite Lt, Es, skip_run; [| |by rewrite byte_eqb_refl|lia].
  - cbn [res_bind]. unfold substr. rewrite drop_app_length. rewrite Nat.add_comm, Nat.add_sub. by rewrite take_app_length.
  - apply Forall_forall. intros x Hx. rewrite (proj2 (byte_eqb_false x LF)); [done|]. by intros ->.
Qed.

(** Without the end of line the search runs past the end of the string. *)
Lemma getProcessName_unterminated name : LF ∉ name -> TAB ∉ name -> getProcessName (bs "Name:" ++ name) = Err EUndefined.
Proof.
  intros Hn Ht. unfold getProcessName. change (std_search (bs "Name:") (bs "Name:" ++ name)) with 0%nat.
  rewrite drop_0, is_prefix_app. set (s := bs "Name:" ++ name). set (fuel := S (S (length s))).
  assert (Ed : drop 5 s = name) by done. assert (Ls : (length s = 5 + length name)%nat) by done.
  assert (K1 : skip fuel true TAB s (0 + 5) = Ok 5%nat).
  { unfold fuel. cbn [skip Nat.add]. unfold at_. rewrite <-(Nat.add_0_r 5), <-lookup_drop, Ed.
    destruct name as [|x name]; [done|]. cbn [lookup list_lookup res_bind].
    rewrite (proj2 (byte_eqb_false x TAB)); [done|]. intros ->. apply Ht. by left. }
  rewrite K1. cbn [res_bind]. rewrite skip_past; [done|lia|unfold fuel; lia| |done].
  rewrite Ed. apply Forall_forall. intros x Hx. rewrite (proj2 (byte_eqb_false x LF)); [done|]. by intros ->.
Qed.

Lemma next_field f k : SP ∉ f -> next (f ++ SP :: k) = k.
Proof.
  intros H. unfold next. rewrite std_find_app by done. rewrite (proj2 (Nat.ltb_lt _ _)) by (rewrite length_app; cbn; lia).
  rewrite <-Nat.add_1_r, drop_app_add. done.
Qed.

Lemma next_fields l k : Forall (fun f => SP ∉ f) l -> Nat.iter (length l) next (concat (map (fun f => f ++ [SP]) l) ++ k) = k.
Proof.
  induction 1 as [|f l Hf Hl IH]; [done|]. cbn [length map concat]. rewrite Nat.iter_succ_r, <-!app_assoc. cbn [app].
  by rewrite next_field.
Qed.

Lemma strtol_field n k : 0 <= n < 2 ^ 63 -> strtol (fmt_u n ++ SP :: k) = n.
Proof.
  intros Hn. unfold strtol. pose proof (number_at_digits [] (fmt_u n) (SP :: k)) as H. cbn [app] in H. rewrite H.
  - rewrite fmt_u_value by lia. lia.
  - constructor.
  - apply fmt_u_digits. lia.
  - intros E. pose proof (fmt_u_nonempty n) as Hne. rewrite E in Hne. done.
  - done.
Qed.

(** The times are the eleventh and the twelfth of the fields. *)
Lemma getCpuTime_fields os l u s k : Forall (fun f => SP ∉ f) l -> length l = 10%nat -> 0 <= u < 2 ^ 63 -> 0 <= s < 2 ^ 63 ->
  getCpuTime os (concat (map (fun f => f ++ [SP]) l) ++ fmt_u u ++ SP :: fmt_u s ++ SP :: k) =
  mkCpuTime (seconds_of os u) (seconds_of os s).
Proof.
  intros Hl H10 Hu Hs. unfold getCpuTime. rewrite <-H10, next_fields by done. rewrite strtol_field by done.
  rewrite next_field, strtol_field; [done|done|]. intros Hin. pose proof (fmt_u_digits u ltac:(lia)) as Hd.
  rewrite Forall_forall in Hd. by apply Hd in Hin.
Qed.

(** ** The page of the threads *)

Definition thread_stat (tid : Z) (name : bytes) (st : byte) (l : list bytes) (u s : Z) (rest : bytes) : bytes :=
  (fmt_u tid ++ [SP]) ++ LPAREN :: name ++ RPAREN :: [SP; st; SP] ++
  concat (map (fun f => f ++ [SP]) l) ++ fmt_u u ++ SP :: fmt_u s ++ SP :: rest.

(** The line of a thread, from what the kernel prints for it, unless the name
    contains a closing parenthesis. *)
Lemma thread_line_parses os tid name st l u s rest : 0 <= tid -> RPAREN ∉ name -> x00 ∉ name ->
  Forall (fun f => SP ∉ f) l -> length l = 10%nat -> 0 <= u < 2 ^ 63 -> 0 <= s < 2 ^ 63 ->
  exists stat', thread_line os tid (thread_stat tid name st l u s rest) =
    Ok (cstr (snprintf 256 (fmt_wd 5 tid ++ [SP] ++ pad_right 16 name ++ [SP; st; SP] ++
                            fmt_wf 12 3 (seconds_of os u) ++ [SP] ++ fmt_wf 12 3 (seconds_of os s) ++ [LF])), stat').
Proof.
  intros Ht Hn Hz Hl H10 Hu Hs. set (stat := thread_stat tid name st l u s rest).
  set (tail := concat (map (fun f => f ++ [SP]) l) ++ fmt_u u ++ SP :: fmt_u s ++ SP :: rest).
  set (pre := fmt_u tid ++ [SP]). set (head := pre ++ LPAREN :: name).
  assert (Es : stat = head ++ RPAREN :: [SP; st; SP] ++ tail) by (unfold stat, thread_stat, head, pre; by rewrite <-!app_assoc).
  assert (Hplain : forall c, isdigit c = false -> c <> SP -> c ∉ pre).
  { intros c Hc Hsp. unfold pre. rewrite elem_of_app, list_elem_of_singleton. intros [Hx | ->]; [|done].
    pose proof (fmt_u_digits tid Ht) as Hd. rewrite Forall_forall in Hd. apply Hd in Hx. congruence. }
  destruct (procname_of_found pre name ([SP; st; SP] ++ tail)) as (p & Ep & _ & Eend);
    [by apply Hplain|by apply Hplain|done|]. fold (thread_stat tid name st l u s rest) in *.
  assert (Lh : length head = (length pre + 1 + length name)%nat) by (unfold head; rewrite length_app; cbn; lia).
  change (pre ++ LPAREN :: name ++ RPAREN :: [SP; st; SP] ++ tail) with stat in Ep. rewrite <-Lh in Eend.
  unfold thread_line. rewrite Ep, Eend. cbn [res_bind]. rewrite Es, at_app. cbn [res_bind]. rewrite byte_eqb_refl.
  cbn [assert_ res_bind]. rewrite insert_app_r_alt, Nat.sub_diag by lia. cbn [insert list_insert app].
  rewrite (proj2 (Nat.leb_le _ _)) by (rewrite length_app; cbn; lia).
  assert (E1 : at_ (head ++ x00 :: SP :: st :: SP :: tail) (length head + 2) = Ok st).
  { unfold at_. by rewrite lookup_app_r, Nat.add_comm, Nat.add_sub by lia. }
  rewrite E1. cbn [res_bind]. replace (length head + 2 + 2)%nat with (length head + 4)%nat by lia.
  rewrite drop_app_add. change (drop 4 (x00 :: SP :: st :: SP :: tail)) with tail.
  pose proof (getCpuTime_fields os l u s rest Hl H10 Hu Hs : getCpuTime os tail = _) as Ecpu. rewrite !Ecpu. cbn [userSeconds systemSeconds].
  assert (Ename : cstr (drop (default (0, 0)%nat p).1 (head ++ x00 :: SP :: st :: SP :: tail)) = name).
  { destruct p as [[begin len]|]; [|done]. cbn [default from_option id fst]. unfold procname_of in Ep.
    rewrite Es in Ep at 4. clear Eend. assert (begin = S (length pre)) as ->.
    { rewrite Es in Ep. unfold head in Ep. rewrite <-app_assoc in Ep. cbn [app] in Ep.
      rewrite (std_find_app LPAREN pre) in Ep by by apply Hplain. case_match; by simplify_eq. }
    unfold head. rewrite <-app_assoc. replace (S (length pre)) with (length pre + 1)%nat by lia. rewrite drop_app_add.
    cbn [app]. rewrite skipn_cons, skipn_O, cstr_app by done. unfold cstr. cbn [std_find]. rewrite byte_eqb_refl.
    by rewrite take_0, app_nil_r. }
  rewrite Ename. by eexists.
Qed.

(** A thread whose name contains a closing parenthesis: the state that is shown
    is a character of its name. *)
Lemma thread_line_misparses : exists stat' line,
  let os := mkSystem 1 100 4096 (fun _ => inr 2) (fun _ => None) (fun _ => None) None None None None in
  thread_line os 7 (bs "7 (a) b) S 1 7 7 0 -1 64 5 0 0 0 300 200 0 0 20 0") = Ok (line, stat') /\
  line = bs "    7 a                b        0.000        0.000" ++ [LF].
Proof. eexists _, _. cbv zeta. split; vm_compute; reflexivity. Qed.

(** ** The commands of a new inspector *)

(** The constructor registers ten commands; what "/proc/status" answers is the
    beginning of the status file, however it is read. *)
Lemma inspector_commands os ndebug gmtime now_ start un : exists ins s,
  Inspector_ctor os ndebug gmtime now_ start un true false = Ok ins /\ represents ins s /\
  forall req resp, path req = bs "/proc/status" ->
    onRequest ins req resp = (let* body := procStatus os in Ok (respond_ok (bs "text/plain") body resp)).
Proof.
  set (page (name : bytes) := (fun (_ : Method) (_ : ArgList) => proc_file os name)).
  set (ops := [Add (bs "proc") (bs "overview") (Some (fun _ _ => overview os ndebug gmtime now_ start)) (bs "print basic overview");
    Add (bs "proc") (bs "pid") (Some (fun _ _ => Ok (pid_page os))) (bs "print pid");
    Add (bs "proc") (bs "status") (Some (fun _ _ => procStatus os)) (bs "print /proc/self/status");
    Add (bs "proc") (bs "threads") (Some (fun _ _ => threads_page os)) (bs "list /proc/self/task");
    Add (bs "sys") (bs "overview") (Some (fun _ _ => sys_overview os gmtime now_ un)) (bs "print system overview");
    Add (bs "sys") (bs "loadavg") (Some (page (bs "loadavg"))) (bs "print /proc/loadavg");
    Add (bs "sys") (bs "version") (Some (page (bs "version"))) (bs "print /proc/version");
    Add (bs "sys") (bs "cpuinfo") (Some (page (bs "cpuinfo"))) (bs "print /proc/cpuinfo");
    Add (bs "sys") (bs "meminfo") (Some (page (bs "meminfo"))) (bs "print /proc/meminfo");
    Add (bs "sys") (bs "stat") (Some (page (bs "stat"))) (bs "print /proc/stat")]).
  exists (foldl do_op Inspector_new ops), (foldl spec_op ∅ ops). split; [done|].
  assert (R : represents (foldl do_op Inspector_new ops) (foldl spec_op ∅ ops)) by apply represents_ops, represents_new.
  split; [done|]. intros req resp Hp. rewrite (inspector_onRequest_spec _ _ _ _ R) by (rewrite Hp; done). rewrite Hp. done.
Qed.
