(* ===== verification/Procmon.v ===== *)
(** * The process monitor (examples/procmon/procmon.cc)

    An HTTP server that shows what /proc says about another process: the
    parser of /proc/pid/stat over an input stream, the sampling of the CPU time
    every two seconds into a ring of ten minutes, and the pages.  Drawing the
    chart (plot.cc, the gd library) is a parameter. *)

From S2P Require Import Prelude Cstd Double Timestamp Buffer HttpRequest HttpResponse ReadSmallFile ProcessInfo.

(** ** std::istringstream *)

(** What is left to read, and whether an extraction has failed. *)
Record istream := mkIstream { unread : bytes; failed : bool }.

(** [iss >> c] *)
Definition extract_char (c : byte) (s : istream) : byte * istream :=
  if failed s then (c, s)
  else match drop_while isspace (unread s) with
       | [] => (c, mkIstream [] true)
       | x :: rest => (x, mkIstream rest false)
       end.

(** [iss >> n] for a signed integer of [w] bits; [None] is an indeterminate value.
    The value is not touched when nothing is left to read; it is 0 when there is
    no number, and the nearest one when the number is out of range. *)
Definition extract (w : Z) (n : option Z) (s : istream) : option Z * istream :=
  if failed s then (n, s)
  else
    let text := drop_while isspace (unread s) in
    match text with
    | [] => (n, mkIstream [] true)
    | c :: text' =>
        let '(sign, body) := if bool_decide (c = x2d) then (-1, text') else if bool_decide (c = x2b) then (1, text') else (1, text) in
        let digits := take_while isdigit body in
        let rest := drop_while isdigit body in
        match digits with
        | [] => (Some 0, mkIstream rest true)
        | _ =>
            let v := sign * dec_value digits in
            let v' := Z.max (- 2 ^ (w - 1)) (Z.min (2 ^ (w - 1) - 1) v) in
            (Some v', mkIstream rest (negb (v =? v')))
        end
    end.

(** A member that [bzero] has set. *)
Definition extract0 (w : Z) (s : istream) : Z * istream :=
  let (n, s) := extract w (Some 0) s in (default 0 n, s).

(** ** StatData *)

Record StatData := mkStatData {
  state : byte; ppid : Z; pgrp : Z; session : Z; tty_nr : Z; tpgid : Z; flags : Z;
  minflt : Z; cminflt : Z; majflt : Z; cmajflt : Z;
  utime : Z; stime : Z; cutime : Z; cstime : Z;
  priority : Z; nice : Z; num_threads : Z; itrealvalue : Z; starttime : Z;
  vsizeKb : Z; rssKb : Z; rsslim : Z;
}.
Definition StatData_zero : StatData := mkStatData x00 0 0 0 0 0 0 0 0 0 0 0 0 0 0 0 0 0 0 0 0 0 0.

(** [parse], on a zeroed object; [vsize] and [rss] are not initialised. *)
Definition parse (startAtState : bytes) (kbPerPage : Z) : res StatData :=
  let s := mkIstream (cstr startAtState) false in
  let (state, s) := extract_char x00 s in
  let (ppid, s) := extract0 32 s in
  let (pgrp, s) := extract0 32 s in
  let (session, s) := extract0 32 s in
  let (tty_nr, s) := extract0 32 s in
  let (tpgid, s) := extract0 32 s in
  let (flags, s) := extract0 32 s in
  let (minflt, s) := extract0 64 s in
  let (cminflt, s) := extract0 64 s in
  let (majflt, s) := extract0 64 s in
  let (cmajflt, s) := extract0 64 s in
  let (utime, s) := extract0 64 s in
  let (stime, s) := extract0 64 s in
  let (cutime, s) := extract0 64 s in
  let (cstime, s) := extract0 64 s in
  let (priority, s) := extract0 64 s in
  let (nice, s) := extract0 64 s in
  let (num_threads, s) := extract0 64 s in
  let (itrealvalue, s) := extract0 64 s in
  let (starttime, s) := extract0 64 s in
  let (vsize, s) := extract 64 None s in
  let (rss, s) := extract 64 None s in
  let (rsslim, s) := extract0 64 s in
  match vsize, rss with
  | Some vsize, Some rss =>
      let* rssKb := int64_ (rss * kbPerPage) in
      Ok (mkStatData state ppid pgrp session tty_nr tpgid flags minflt cminflt majflt cmajflt utime stime cutime cstime
            priority nice num_threads itrealvalue starttime (vsize ÷ 1024) rssKb rsslim)
  | _, _ => Err EUndefined
  end.

(** The text behind the name: [statData.parse(procname.end()+1, kbPerPage_)]. *)
Definition parse_stat (stat : bytes) (kbPerPage : Z) : res StatData :=
  let* rp := piece_end (procname_of stat) in
  parse (drop (S rp) stat) kbPerPage.

(** ** The ring of samples *)

(** [CpuTime], in clock ticks. *)
Record CpuTime := mkCpuTime { userTime_ : Z; sysTime_ : Z }.

Definition kPeriod_ : Z := 2.
Definition capacity : Z := 600 ÷ kPeriod_.

(** [boost::circular_buffer::push_back]: the oldest element makes room. *)
Definition push_back (x : CpuTime) (l : list CpuTime) : list CpuTime :=
  zdrop (zlen l + 1 - capacity) (l ++ [x]).

(** [cpuUsage(kPeriod_, kClockTicksPerSecond_)] *)
Definition cpuUsage (kClockTicksPerSecond : Z) (t : CpuTime) : res double :=
  let sum := userTime_ t + sysTime_ t in
  if (- 2 ^ 31 <=? sum) && (sum <? 2 ^ 31)
  then Ok (ddiv (double_of_Z sum) (dmul (double_of_Z kClockTicksPerSecond) (double_of_Z kPeriod_)))
  else Err EUndefined.

Record Procmon := mkProcmon {
  kClockTicksPerSecond_ : Z; kbPerPage_ : Z; kBootTime_ : Z; pid_ : Z;
  procname_ : bytes; hostname_ : bytes; cmdline_ : bytes;
  ticks_ : Z; lastStatDate_ : StatData; cpu_usage_ : list CpuTime; response_ : Buffer;
}.
Definition set_sample (ticks : Z) (last : StatData) (usage : list CpuTime) (p : Procmon) : Procmon :=
  mkProcmon (kClockTicksPerSecond_ p) (kbPerPage_ p) (kBootTime_ p) (pid_ p) (procname_ p) (hostname_ p) (cmdline_ p)
    ticks last usage (response_ p).
Definition set_response (b : Buffer) (p : Procmon) : Procmon :=
  mkProcmon (kClockTicksPerSecond_ p) (kbPerPage_ p) (kBootTime_ p) (pid_ p) (procname_ p) (hostname_ p) (cmdline_ p)
    (ticks_ p) (lastStatDate_ p) (cpu_usage_ p) b.

(** [std::max(0, static_cast<int>(a - b))] *)
Definition elapsed (a b : Z) : res Z := let* d := int64_ (a - b) in Ok (Z.max 0 (s32 d)).

(** [tick], with the text of the stat file. *)
Definition tick (stat : bytes) (p : Procmon) : res Procmon :=
  match stat with
  | [] => Ok p
  | _ =>
      let* statData := parse_stat stat (kbPerPage_ p) in
      let* usage :=
        (if 0 <? ticks_ p then
           let* user := elapsed (utime statData) (utime (lastStatDate_ p)) in
           let* sys := elapsed (stime statData) (stime (lastStatDate_ p)) in
           Ok (push_back (mkCpuTime user sys) (cpu_usage_ p))
         else Ok (cpu_usage_ p)) in
      if ticks_ p =? 2 ^ 31 - 1 then Err EUndefined else Ok (set_sample (ticks_ p + 1) statData usage p)
  end.

Section monitor.
Context (os : System).

(** [getLong]: [atoi], although the result is a [long]. *)
Definition getLong (status key : bytes) : res Z :=
  match find_after key status with
  | Some s => match atoi s with Some n => Ok n | None => Err EUndefined end
  | None => Ok 0
  end.

Definition getBootTime : res Z := let* stat := read_proc os (bs "/proc/stat") 65536 in getLong stat (bs "btime ").

Definition proc_path (pid : Z) (basename : bytes) : bytes :=
  snprintf 256 (bs "/proc/" ++ fmt_d pid ++ bs "/" ++ basename).
Definition readProcFile (pid : Z) (basename : bytes) : res bytes := read_proc os (proc_path pid basename) (1024 * 1024).

(** [replace_all_copy(..., string(1, '\0'), "\n\t")] *)
Definition replace_nul (s : bytes) : bytes := concat (map (fun c => if byte_eqb c x00 then [LF; x09] else [c]) s).
Definition getCmdLine (pid : Z) : res bytes := let* s := readProcFile pid (bs "cmdline") in Ok (replace_nul s).

Definition readLink (pid : Z) (basename : bytes) : bytes :=
  match sys_readlink os (proc_path pid basename) with Some link => ztake 1024 link | None => [] end.

(** The name of the server. *)
Definition getName (pid : Z) : bytes := snprintf 256 (bs "procmon-" ++ fmt_d pid).

Definition Procmon_new (pid : Z) : res Procmon :=
  let* boot := getBootTime in
  let* stat := readProcFile pid (bs "stat") in
  let* cmdline := getCmdLine pid in
  Ok (mkProcmon (clockTicksPerSecond os) (pageSize os ÷ 1024) boot pid (as_string stat (procname_of stat)) (hostname os)
        cmdline 0 StatData_zero [] (Buffer_new kInitialSize)).

Definition tick_ (p : Procmon) : res Procmon := let* stat := readProcFile (pid_ p) (bs "stat") in tick stat p.

(** ** Pages *)

Definition getSeconds (p : Procmon) (ticks : Z) : double :=
  ddiv (double_of_Z ticks) (double_of_Z (kClockTicksPerSecond_ p)).

Definition getState (state : byte) : bytes :=
  if byte_eqb state (Z_byte 82) then bs "Running"
  else if byte_eqb state (Z_byte 83) then bs "Sleeping"
  else if byte_eqb state (Z_byte 68) then bs "Disk sleep"
  else if byte_eqb state (Z_byte 90) then bs "Zombie"
  else bs "Unknown".

Definition getStartTime (p : Procmon) (starttime : Z) : res Timestamp :=
  let* boot := int64_ (kMicroSecondsPerSecond * kBootTime_ p) in
  let* since := int64_ (kMicroSecondsPerSecond * starttime) in
  int64_ (boot + since ÷ kClockTicksPerSecond_ p).

(** [appendResponse]: what it appends, through a buffer of 1024 characters. *)
Definition appendResponse (text : bytes) : bytes := cstr (snprintf 1024 text).

(** The texts of the table. *)
Definition row (name value : bytes) : bytes :=
  appendResponse (bs "<tr><td>" ++ name ++ bs "</td><td>" ++ value ++ bs "</td></tr>" ++ [LF]).
Definition row_long (name : bytes) (value : Z) : bytes := row name (fmt_d value).
Definition row_float (name : bytes) (value : double) : bytes := row name (fmt_f 2 value).
Definition row_string (name value : bytes) : bytes := row name (cstr value).

Definition fillRefresh (query : bytes) : res (list bytes) :=
  match find_after (bs "refresh=") query with
  | Some s =>
      match atoi s with
      | Some seconds =>
          Ok (if 0 <? seconds
              then [appendResponse (bs "<meta http-equiv=" ++ [x22] ++ bs "refresh" ++ [x22] ++ bs " content=" ++ [x22] ++ fmt_d seconds ++ [x22] ++ bs ">" ++ [LF])]
              else [])
      | None => Err EUndefined
      end
  | None => Ok []
  end.

(** [<a href="target">text</a>] *)
Definition link (target text : bytes) : bytes := bs "<a href=" ++ [x22] ++ target ++ [x22] ++ bs ">" ++ text ++ bs "</a>".

(** The rows of the page, for what the stat file says. *)
Definition rows (gmtime : Z -> tm) (now_ : Timestamp) (p : Procmon) (pid : Z) (d : StatData) : res (list bytes) :=
  let* started := getStartTime p (starttime d) in
  let* diff := timeDifference_us now_ started in
  Ok [row_long (bs "PID") pid;
      row_string (bs "Started at") (toFormattedString gmtime started false ++ bs " (UTC)");
      row_float (bs "Uptime (s)") (ddiv (double_of_Z diff) (double_of_Z kMicroSecondsPerSecond));
      row_string (bs "Executable") (readLink (pid_ p) (bs "exe"));
      row_string (bs "Current dir") (readLink (pid_ p) (bs "cwd"));
      row_string (bs "State") (getState (state d));
      row_float (bs "User time (s)") (getSeconds p (utime d));
      row_float (bs "System time (s)") (getSeconds p (stime d));
      row_long (bs "VmSize (KiB)") (vsizeKb d);
      row_long (bs "VmRSS (KiB)") (rssKb d);
      row_long (bs "Threads") (num_threads d);
      row_string (bs "CPU usage")
        (bs "<img src=" ++ [x22] ++ bs "/cpu.png" ++ [x22] ++ bs " height=" ++ [x22] ++ bs "100" ++ [x22] ++
         bs " witdh=" ++ [x22] ++ bs "640" ++ [x22] ++ bs ">");
      row_long (bs "Priority") (priority d);
      row_long (bs "Nice") (nice d);
      row_long (bs "Minor page faults") (minflt d);
      row_long (bs "Major page faults") (majflt d)].

(** The links at the top of the page. *)
Definition page_links : list bytes :=
  [bs "<p>Refresh " ++ link (bs "?refresh=1") (bs "1s") ++ [SP];
   link (bs "?refresh=2") (bs "2s") ++ [SP];
   link (bs "?refresh=5") (bs "5s") ++ [SP];
   link (bs "?refresh=15") (bs "15s") ++ [SP];
   link (bs "?refresh=60") (bs "60s") ++ [LF];
   bs "<p>" ++ link (bs "/cmdline") (bs "Command line") ++ [LF];
   link (bs "/environ") (bs "Environment variables") ++ [LF];
   link (bs "/threads") (bs "Threads") ++ [LF]].

(** The pieces of [fillOverview], in the order they are appended. *)
Definition overview_pieces (gmtime : Z -> tm) (now_ : Timestamp) (query : bytes) (p : Procmon) : res (list bytes) :=
  let title (name : bytes) := cstr name ++ bs " on " ++ cstr (hostname_ p) in
  let* refresh := fillRefresh query in
  let head := [appendResponse (bs "<html><head><title>" ++ title (procname_ p) ++ bs "</title>" ++ [LF])] ++ refresh ++
              [appendResponse (bs "</head><body>" ++ [LF])] in
  let* stat := readProcFile (pid_ p) (bs "stat") in
  match stat with
  | [] => Ok (head ++ [appendResponse (bs "<h1>PID " ++ fmt_d (pid_ p) ++ bs " doesn't exist.</h1></body></html>")])
  | _ =>
      match atoi stat with
      | None => Err EUndefined
      | Some pid =>
          assert! pid =? pid_ p;
          let procname := procname_of stat in
          let* d := parse_stat stat (kbPerPage_ p) in
          let* table := rows gmtime now_ p pid d in
          Ok (head ++ [appendResponse (bs "<h1>" ++ title (as_string stat procname) ++ bs "</h1>")] ++ page_links ++
              [appendResponse (bs "<p>Page generated at " ++ toFormattedString gmtime now_ true ++ bs " (UTC)"); bs "<p><table>"] ++
              table ++ [bs "</table>"; bs "</body></html>"])
      end
  end.

Definition fillOverview (gmtime : Z -> tm) (now_ : Timestamp) (query : bytes) (p : Procmon) : res Procmon :=
  let* pieces := overview_pieces gmtime now_ query p in
  let* b := append_all (retrieveAll (response_ p)) pieces in
  Ok (set_response b p).

(** [onRequest]; [plotCpu] draws the chart. *)
Definition onRequest (gmtime : Z -> tm) (now_ : Timestamp) (plotCpu : list double -> bytes) (req : HttpRequest)
  (resp : HttpResponse) (p : Procmon) : res (HttpResponse * Procmon) :=
  let resp := resp_addHeader (bs "Server") (bs "Cnet-Procmon") (setStatusMessage (bs "OK") (setStatusCode k200OK resp)) in
  if bytes_eqb (path req) (bs "/") then
    let* p := fillOverview gmtime now_ (query req) p in
    let* (body, b) := retrieveAllAsString (response_ p) in
    Ok (setBody body (setContentType (bs "text/html") resp), set_response b p)
  else if bytes_eqb (path req) (bs "/cmdline") then Ok (setBody (cmdline_ p) resp, p)
  else if bytes_eqb (path req) (bs "/cpu.png") then
    let* cpu_usage := res_foldl (fun l t => let* u := cpuUsage (kClockTicksPerSecond_ p) t in Ok (l ++ [u])) [] (cpu_usage_ p) in
    Ok (setBody (plotCpu cpu_usage) (setContentType (bs "image/png") resp), p)
  else Ok (resp, p).
End monitor.

(** ** The parser reads back what the kernel prints *)

Definition clamp (w z : Z) : Z := Z.max (- 2 ^ (w - 1)) (Z.min (2 ^ (w - 1) - 1) z).

Lemma drop_while_all p l k : Forall (fun x => p x = true) l -> (forall c k', k = c :: k' -> p c = false) ->
  drop_while p (l ++ k) = k.
Proof.
  intros Hl Hk. induction Hl as [|x l Hx _ IH]; cbn.
  - destruct k as [|c k]; [done|]. cbn. by rewrite (Hk c k).
  - by rewrite Hx.
Qed.

Lemma extract_printed w n z k : not_digit_next k ->
  extract w n (mkIstream (SP :: fmt_d z ++ k) false) = (Some (clamp w z), mkIstream k (negb (z =? clamp w z))).
Proof.
  intros Hk. assert (Hk' : forall c k', k = c :: k' -> isdigit c = false) by (intros c k' ->; done).
  assert (D : forall m, 0 <= m -> exists c s, fmt_u m = c :: s /\ isspace c = false /\ c <> x2d /\ c <> x2b).
  { intros m Hm. pose proof (fmt_u_digits m Hm) as Hd. pose proof (fmt_u_nonempty m) as Hne.
    destruct (fmt_u m) as [|c s]; [rewrite zlen_nil in Hne; lia|]. exists c, s. split; [done|].
    apply Forall_cons in Hd as [Hd _]. unfold isdigit, isspace in *. split; [lia|]. split; intros ->; done. }
  unfold extract. cbn [failed unread drop_while]. change (isspace SP) with true. cbn beta iota. unfold fmt_d, clamp.
  destruct (Z.ltb_spec z 0) as [Hz|Hz].
  - destruct (D (- z)) as (c & s & E & _); [lia|]. cbn [app drop_while]. change (isspace x2d) with false. cbn beta iota.
    rewrite bool_decide_eq_true_2 by done. rewrite take_while_all, drop_while_all by (done || apply fmt_u_digits; lia).
    rewrite fmt_u_value by lia. rewrite E. replace (-1 * - z) with z by lia. done.
  - destruct (D z Hz) as (c & s & E & Hs & H1 & H2). rewrite E. cbn [app drop_while]. rewrite Hs. cbn beta iota.
    rewrite !bool_decide_eq_false_2 by done. change (c :: s ++ k) with ((c :: s) ++ k). rewrite <-E.
    rewrite take_while_all, drop_while_all by (done || apply fmt_u_digits; lia).
    rewrite fmt_u_value by lia. rewrite E, Z.mul_1_l. done.
Qed.

Lemma clamp_id w z : - 2 ^ (w - 1) <= z < 2 ^ (w - 1) -> clamp w z = z.
Proof. unfold clamp. lia. Qed.

Lemma extract_fits w n z k : not_digit_next k -> - 2 ^ (w - 1) <= z < 2 ^ (w - 1) ->
  extract w n (mkIstream (SP :: fmt_d z ++ k) false) = (Some z, mkIstream k false).
Proof. intros Hk Hz. rewrite extract_printed, clamp_id, Z.eqb_refl by done. done. Qed.

Lemma extract0_fits w z k : not_digit_next k -> - 2 ^ (w - 1) <= z < 2 ^ (w - 1) ->
  extract0 w (mkIstream (SP :: fmt_d z ++ k) false) = (z, mkIstream k false).
Proof. intros Hk Hz. unfold extract0. by rewrite extract_fits. Qed.

(** What the kernel prints: the values before the sizes are converted, and the
    limit as an unsigned number. *)
Definition stat_ints (d : StatData) : list Z := [ppid d; pgrp d; session d; tty_nr d; tpgid d; flags d].
Definition stat_longs (d : StatData) (vsize rss : Z) : list Z :=
  [minflt d; cminflt d; majflt d; cmajflt d; utime d; stime d; cutime d; cstime d; priority d; nice d; num_threads d;
   itrealvalue d; starttime d; vsize; rss].
Definition print_fields (l : list Z) : bytes := concat (map (fun z => SP :: fmt_d z) l).

(** [raw_name]: the name of the program at that time; [raw_rest]: the fields after
    the limit. *)
Record raw_stat := mkRaw {
  raw_data : StatData; raw_vsize : Z; raw_rss : Z; raw_rsslim : Z; raw_name : bytes; raw_rest : bytes;
}.

Definition kernel_stat (pid : Z) (r : raw_stat) : bytes :=
  (fmt_u pid ++ [SP]) ++ LPAREN :: raw_name r ++ RPAREN :: SP :: state (raw_data r) ::
  print_fields (stat_ints (raw_data r) ++ stat_longs (raw_data r) (raw_vsize r) (raw_rss r) ++ [raw_rsslim r]) ++ raw_rest r.

Definition fits (w z : Z) : Prop := - 2 ^ (w - 1) <= z < 2 ^ (w - 1).

(** The data that the kernel means: the numbers fit the members, and the name has
    no closing parenthesis. *)
Record raw_ok (kbPerPage : Z) (r : raw_stat) : Prop := mkRawOk {
  ro_state : isspace (state (raw_data r)) = false /\ state (raw_data r) <> x00;
  ro_ints : Forall (fits 32) (stat_ints (raw_data r));
  ro_longs : Forall (fits 64) (stat_longs (raw_data r) (raw_vsize r) (raw_rss r));
  ro_vsize : vsizeKb (raw_data r) = raw_vsize r ÷ 1024;
  ro_rss : rssKb (raw_data r) = raw_rss r * kbPerPage /\ fits 64 (rssKb (raw_data r));
  ro_rsslim : rsslim (raw_data r) = clamp 64 (raw_rsslim r);
  ro_name : RPAREN ∉ raw_name r;
  ro_rest : not_digit_next (cstr (raw_rest r));
}.

Lemma fmt_d_no_nul z : x00 ∉ fmt_d z.
Proof.
  unfold fmt_d. destruct (Z.ltb_spec z 0).
  - rewrite not_elem_of_cons. split; [done|]. apply digit_no_nul, fmt_u_digits. lia.
  - apply digit_no_nul, fmt_u_digits. lia.
Qed.

Lemma print_fields_no_nul l : x00 ∉ print_fields l.
Proof.
  unfold print_fields. induction l as [|z l IH]; cbn; [apply not_elem_of_nil|].
  rewrite not_elem_of_cons, not_elem_of_app. split; [done|]. split; [apply fmt_d_no_nul|done].
Qed.

Lemma print_fields_cons z l k : print_fields (z :: l) ++ k = SP :: fmt_d z ++ print_fields l ++ k.
Proof. unfold print_fields. cbn [map concat app]. by rewrite <-app_assoc. Qed.

Lemma print_fields_next z l k : not_digit_next (print_fields (z :: l) ++ k).
Proof. done. Qed.

Lemma parse_kernel kbPerPage r : raw_ok kbPerPage r ->
  parse (SP :: state (raw_data r) ::
    print_fields (stat_ints (raw_data r) ++ stat_longs (raw_data r) (raw_vsize r) (raw_rss r) ++ [raw_rsslim r]) ++ raw_rest r) kbPerPage =
  Ok (raw_data r).
Proof.
  intros [[Hs1 Hs2] Hi Hl Hv [Hr1 Hr2] Hrl _ Hrest]. unfold parse. set (rest := raw_rest r) in *. set (l := stat_ints _ ++ _).
  assert (E : cstr (SP :: state (raw_data r) :: print_fields l ++ rest) = SP :: state (raw_data r) :: print_fields l ++ cstr rest).
  { change (SP :: state (raw_data r) :: print_fields l ++ rest) with ((SP :: state (raw_data r) :: print_fields l) ++ rest).
    rewrite cstr_app; [done|]. rewrite !not_elem_of_cons. split; [done|]. split; [done|]. apply print_fields_no_nul. }
  rewrite E. clear E. unfold extract_char. cbn [failed unread drop_while]. change (isspace SP) with true. cbn beta iota.
  rewrite Hs1. subst l. clearbody rest. unfold stat_ints, stat_longs, raw_data in *. destruct r as [[] vsize rss rl nm rs].
  cbn [app state ppid pgrp session tty_nr tpgid flags minflt cminflt majflt cmajflt utime stime cutime cstime priority
    nice num_threads itrealvalue starttime vsizeKb rssKb rsslim raw_vsize raw_rss raw_rsslim] in *.
  repeat match goal with H : Forall _ (_ :: _) |- _ => apply Forall_cons in H as [? H] end. unfold fits in *.
  rewrite print_fields_cons.
  do 19 (rewrite print_fields_cons, extract0_fits by done; cbv beta iota).
  rewrite print_fields_cons, extract_fits by done. cbv beta iota.
  rewrite print_fields_cons, extract_fits by done. cbv beta iota.
  unfold extract0. change (print_fields [] ++ cstr rest) with (cstr rest). rewrite extract_printed by done.
  cbv beta iota. cbn [default from_option id]. rewrite <-Hr1, int64_small by done. cbn [res_bind].
  by rewrite Hv, Hrl.
Qed.

(** The stat file of a process whose name has no closing parenthesis. *)
Lemma parse_stat_kernel kbPerPage pid r : 0 <= pid -> raw_ok kbPerPage r ->
  parse_stat (kernel_stat pid r) kbPerPage = Ok (raw_data r).
Proof.
  intros Hp Hr. pose proof (ro_name _ _ Hr) as Hn. unfold parse_stat, kernel_stat. set (name := raw_name r) in *. set (pre := fmt_u pid ++ [SP]). set (tail := SP :: _ :: _).
  assert (Hplain : forall c, isdigit c = false -> c <> SP -> c ∉ pre).
  { intros c Hc Hsp. unfold pre. rewrite elem_of_app, list_elem_of_singleton. intros [Hx | ->]; [|done].
    pose proof (fmt_u_digits pid Hp) as Hd. rewrite Forall_forall in Hd. apply Hd in Hx. congruence. }
  destruct (procname_of_found pre name tail) as (p & -> & _ & ->); [by apply Hplain..|done|]. cbn [res_bind].
  replace (drop _ _) with tail; [by apply parse_kernel|].
  assert (E : pre ++ LPAREN :: name ++ RPAREN :: tail = (pre ++ LPAREN :: name) ++ RPAREN :: tail) by by rewrite <-app_assoc.
  rewrite E. replace (S _) with (length (pre ++ LPAREN :: name) + 1)%nat by (rewrite length_app; cbn; lia).
  by rewrite drop_app_add.
Qed.

(** With one, the extractions fail, and the sizes are read although nothing was
    stored in them. *)
Lemma parse_stat_misled :
  parse_stat (bs "7 (a) b) S 1 7 7 0 -1 64 5 0 0 0 300 200 0 0 20 0 1 0 99 1024 6 7 8 9") 4 = Err EUndefined.
Proof. vm_compute. reflexivity. Qed.

(** ** The samples *)

Definition delta (a b : StatData) : CpuTime :=
  mkCpuTime (Z.max 0 (s32 (utime b - utime a))) (Z.max 0 (s32 (stime b - stime a))).

(** The CPU time between each data read and the next. *)
Fixpoint samples (l : list StatData) : list CpuTime :=
  match l with
  | a :: t => match t with b :: _ => delta a b :: samples t | [] => [] end
  | [] => []
  end.

(** The last [capacity] of a history. *)
Definition window {A} (l : list A) : list A := zdrop (zlen l - capacity) l.

Lemma samples_snoc l a b : samples (l ++ [a; b]) = samples (l ++ [a]) ++ [delta a b].
Proof. induction l as [|c l IH]; [done|]. destruct l as [|d l]; [done|]. cbn [app samples] in *. by rewrite IH. Qed.

Lemma push_back_window x l : push_back x (window l) = window (l ++ [x]).
Proof.
  unfold push_back, window. rewrite zlen_zdrop, zlen_app. change (zlen [x]) with 1. pose proof (zlen_nonneg l).
  assert (Hc : capacity = 300) by reflexivity. rewrite Hc. destruct (Z.le_gt_cases (zlen l) 300).
  - rewrite (zdrop_nonpos (zlen l - 300)) by lia. f_equal. lia.
  - assert (E : zdrop (zlen l - 300) l ++ [x] = zdrop (zlen l - 300) (l ++ [x])).
    { rewrite zdrop_app. f_equal. rewrite zdrop_nonpos by lia. done. }
    rewrite E, zdrop_zdrop by lia. f_equal. lia.
Qed.

(** The monitor after the data [seen] have been read. *)
Record sampled (kbPerPage : Z) (seen : list StatData) (p : Procmon) : Prop := mkSampled {
  sm_kb : kbPerPage_ p = kbPerPage;
  sm_ticks : ticks_ p = zlen seen;
  sm_last : forall l a, seen = l ++ [a] -> lastStatDate_ p = a;
  sm_usage : cpu_usage_ p = window (samples seen);
}.

(** The clock ticks are counted up from zero. *)
Definition counters_ok (d : StatData) : Prop := 0 <= utime d < 2 ^ 63 /\ 0 <= stime d < 2 ^ 63.

Lemma elapsed_ok a b : 0 <= a < 2 ^ 63 -> 0 <= b < 2 ^ 63 -> elapsed a b = Ok (Z.max 0 (s32 (a - b))).
Proof. intros Ha Hb. unfold elapsed. by rewrite int64_small by lia. Qed.

Lemma tick_sampled kbPerPage seen p stat d : sampled kbPerPage seen p -> stat <> [] ->
  parse_stat stat kbPerPage = Ok d -> Forall counters_ok seen -> counters_ok d -> zlen seen < 2 ^ 31 - 1 ->
  exists p', tick stat p = Ok p' /\ sampled kbPerPage (seen ++ [d]) p'.
Proof.
  intros [S1 S2 S3 S4] Hne Hp Hseen [Hu Hs] Hl. unfold tick. destruct stat as [|c stat]; [done|].
  rewrite S1, Hp. cbn [res_bind]. rewrite S2, S4.
  destruct seen as [|x seen _] using rev_ind.
  - cbn. eexists. split; [reflexivity|]. split; [done|done| |done].
    intros l a E. by apply (app_inj_2 [] l [d] [a]) in E as [_ [= ->]].
  - rewrite (S3 seen x) by done. apply Forall_app in Hseen as [_ Hx]. apply Forall_cons in Hx as [[Hxu Hxs] _].
    rewrite zlen_app in *. change (zlen [x]) with 1 in *. pose proof (zlen_nonneg seen).
    rewrite (proj2 (Z.ltb_lt 0 _)) by lia. rewrite !elapsed_ok by done. cbn [res_bind].
    rewrite (proj2 (Z.eqb_neq _ _)) by lia. eexists. split; [reflexivity|].
    split; cbn [set_sample kbPerPage_ ticks_ lastStatDate_ cpu_usage_]; [done| | |].
    + rewrite !zlen_app. done.
    + intros l a E. by apply app_inj_2 in E as [_ [= ->]].
    + rewrite <-app_assoc. cbn [app]. rewrite samples_snoc, <-push_back_window. done.
Qed.

(** The text of the stat file at a tick: nothing once the process is gone. *)
Definition stat_text (pid : Z) (r : option raw_stat) : bytes :=
  match r with Some r => kernel_stat pid r | None => [] end.

(** C29: The monitor, ticking: as long as the numbers of the stat file fit the
    members they are read into and the name of the program, whatever it is at
    each tick, has no closing parenthesis ([parse_stat_misled] shows what one
    does), each tick reads the numbers the kernel means, or nothing once the
    process has vanished, and the ring holds the last three hundred differences
    between consecutive readings, oldest first and never negative. *)
Theorem procmon_samples (kbPerPage pid : Z) (l : list (option raw_stat)) (p : Procmon)
  (Hpid : 0 <= pid)
  (Hl : Forall (fun r => raw_ok kbPerPage r /\ counters_ok (raw_data r)) (omap id l)) (Hlen : zlen l < 2 ^ 31)
  (Hp : sampled kbPerPage [] p) :
  let seen := map raw_data (omap id l) in
  exists p', res_foldl (fun p r => tick (stat_text pid r) p) p l = Ok p' /\
    ticks_ p' = zlen seen /\ cpu_usage_ p' = window (samples seen) /\
    (forall k d, seen = k ++ [d] -> lastStatDate_ p' = d) /\ Forall (fun t => 0 <= userTime_ t /\ 0 <= sysTime_ t) (cpu_usage_ p').
Proof.
  intros seen.
  assert (G : forall l seen p, sampled kbPerPage seen p -> Forall counters_ok seen -> zlen seen + zlen l < 2 ^ 31 ->
    Forall (fun r => raw_ok kbPerPage r /\ counters_ok (raw_data r)) (omap id l) ->
    exists p', res_foldl (fun p r => tick (stat_text pid r) p) p l = Ok p' /\
      sampled kbPerPage (seen ++ map raw_data (omap id l)) p').
  { clear l Hl Hlen p Hp seen. induction l as [|r l IH]; intros seen p Hp Hseen Hlen Hl; cbn [res_foldl].
    - exists p. by rewrite app_nil_r.
    - rewrite zlen_cons in Hlen. pose proof (zlen_nonneg l). destruct r as [r|]; cbn [omap list_omap id] in *.
      + apply Forall_cons in Hl as [[Hr Hc] Hl]. destruct (tick_sampled kbPerPage seen p (stat_text pid (Some r)) (raw_data r))
          as (p1 & -> & Hp1); [done| |by apply parse_stat_kernel|done|done|lia|].
        { intros E%(f_equal length). unfold stat_text, kernel_stat in E. rewrite !length_app in E. cbn in E. lia. }
        cbn [res_bind]. destruct (IH (seen ++ [raw_data r]) p1) as (p' & -> & Hp'); [done|by apply Forall_app_2, Forall_singleton| |done|].
        { rewrite zlen_app. change (zlen [raw_data r]) with 1. lia. }
        exists p'. split; [done|]. cbn [map]. by rewrite <-app_assoc in Hp'.
      + cbn [stat_text tick res_bind]. apply IH; [done|done|lia|done]. }
  destruct (G l [] p Hp ltac:(constructor) ltac:(rewrite zlen_nil; lia) Hl) as (p' & E & [_ S2 S3 S4]).
  exists p'. split; [exact E|]. split; [exact S2|]. split; [exact S4|]. split; [exact S3|]. rewrite S4.
  unfold window, zdrop. apply Forall_drop. clear. cbn [app]. induction (map raw_data (omap id l)) as [|a [|b t] IH]; [constructor..|].
  cbn [samples]. constructor; [|exact IH]. unfold delta. cbn. lia.
Qed.

(** The process changes its name, and vanishes for a moment. *)
Module MonitorDemo.
Definition raw (name : bytes) (u s : Z) : raw_stat :=
  mkRaw (mkStatData (Z_byte 83) 1 7 7 0 (-1) 64 5 0 0 0 u s 0 0 20 0 1 0 99 4 24 (2 ^ 63 - 1)) 4096 6 (2 ^ 64 - 1) name (bs " 0 0").
Definition start : Procmon := mkProcmon 100 4 1000 7 (bs "a") (bs "h") [] 0 StatData_zero [] (Buffer_new kInitialSize).
Definition history : list (option raw_stat) :=
  [Some (raw (bs "a (b") 10 5); Some (raw (bs "a (b") 25 6); None; Some (raw (bs "c") 20 9)].
End MonitorDemo.

Lemma procmon_samples_witness :
  let seen := map raw_data (omap id MonitorDemo.history) in
  exists p', res_foldl (fun p r => tick (stat_text 7 r) p) MonitorDemo.start MonitorDemo.history = Ok p' /\
    ticks_ p' = zlen seen /\ cpu_usage_ p' = window (samples seen) /\
    (forall k d, seen = k ++ [d] -> lastStatDate_ p' = d) /\ Forall (fun t => 0 <= userTime_ t /\ 0 <= sysTime_ t) (cpu_usage_ p').
Proof.
  assert (N : forall name : bytes, bool_decide (RPAREN ∉ name) = true -> RPAREN ∉ name) by (intros name; apply bool_decide_eq_true_1).
  apply (procmon_samples 4 7 MonitorDemo.history MonitorDemo.start).
  - lia.
  - repeat constructor; try (vm_compute; congruence); apply N; vm_compute; reflexivity.
  - vm_compute. reflexivity.
  - split; [reflexivity|reflexivity| |reflexivity]. intros l a E. by destruct l.
Defined.

Example monitor_demo :
  (let* p := res_foldl (fun p r => tick (stat_text 7 r) p) MonitorDemo.start MonitorDemo.history in
   Ok (cpu_usage_ p)) = Ok [mkCpuTime 15 1; mkCpuTime 0 3].
Proof. vm_compute. reflexivity. Qed.

(** ** The pages *)

(** The number in the query makes the page refresh itself. *)
Lemma fillRefresh_number n k : 0 < n < 2 ^ 31 -> not_digit_next k ->
  fillRefresh (bs "refresh=" ++ fmt_u n ++ k) =
  Ok [appendResponse (bs "<meta http-equiv=" ++ [x22] ++ bs "refresh" ++ [x22] ++ bs " content=" ++ [x22] ++ fmt_d n ++ [x22] ++ bs ">" ++ [LF])].
Proof.
  intros Hn Hk. unfold fillRefresh. 
  pose proof (find_after_first (bs "refresh=") [] (fmt_u n ++ k) (fun i Hi => match Nat.nlt_0_r i Hi with end)) as F.
  rewrite (F : find_after _ (bs "refresh=" ++ fmt_u n ++ k) = _).
  rewrite atoi_number. pose proof (number_at_digits [] (fmt_u n) k) as H. cbn [app] in H. rewrite H; [|constructor| | |done].
  - rewrite fmt_u_value by lia. cbv zeta. rewrite (proj2 (Z.leb_le _ _)), (proj2 (Z.ltb_lt n (2 ^ 31))) by lia. cbn [andb].
    by rewrite (proj2 (Z.ltb_lt 0 _)) by lia.
  - apply fmt_u_digits. lia.
  - intros E. pose proof (fmt_u_nonempty n) as Hne. by rewrite E in Hne.
Qed.

(** The body of the page is its pieces, one after the other, whatever the
    buffer was used for before. *)
Lemma overview_page os gmtime now_ plotCpu req resp p pieces : path req = bs "/" ->
  overview_pieces os gmtime now_ (query req) p = Ok pieces -> good (response_ p) ->
  size (response_ p) + zlen (concat pieces) < 2 ^ 31 ->
  exists resp' p', onRequest os gmtime now_ plotCpu req resp p = Ok (resp', p') /\ body_ resp' = concat pieces /\
    statusCode_ resp' = k200OK /\ good (response_ p').
Proof.
  intros Hp Hpieces G Hs. unfold onRequest. rewrite Hp. rewrite (proj2 (bytes_eqb_true _ _)) by done. unfold fillOverview. rewrite Hpieces. cbn [res_bind].
  destruct (retrieveAll_spec _ (proj1 G) (proj2 G)) as [W C].
  destruct (append_all_spec pieces (retrieveAll (response_ p))) as (b & -> & Gb & Cb & _); [by split; [|exact (proj2 G)]|done|].
  cbn [res_bind set_response response_]. pose proof (retrieveAllAsString_implements b Gb) as R.
  destruct R as (b2 & R & Gb2 & _). unfold out in R. destruct (retrieveAllAsString b) as [[body b']|]; [|done].
  cbn in R |- *. injection R as -> ->. eexists _, _. split; [reflexivity|]. rewrite C in Cb. by cbn in *.
Qed.
