(* ===== verification/Plot.v ===== *)
(** * The chart of the process monitor (examples/procmon/plot.h, plot.cc)

    Where the lines and the labels are drawn.  The image and its encoding belong
    to the gd library: an image is what has been drawn on it, in order. *)

From Stdlib Require Import SpecFloat.
From S2P Require Import Prelude Cstd Double Date.

Definition dsub (x y : double) : double := SFsub 53 1024 x y.
Definition dplus (x y : double) : double := SFadd 53 1024 x y.
Definition dleb (x y : double) : bool := SFleb x y.
Definition dltb (x y : double) : bool := SFltb x y.
Definition half : double := ddiv (double_of_Z 1) (double_of_Z 2).
Definition tenth : double := ddiv (double_of_Z 1) (double_of_Z 10).

(** [ceil] *)
Definition dceil (x : double) : double :=
  match x with
  | S754_finite s m e =>
      if 0 <=? e then x
      else let n := if s then - (Zpos m / 2 ^ (- e)) else - ((- Zpos m) / 2 ^ (- e)) in
           if n =? 0 then S754_zero s else double_of_Z n
  | _ => x
  end.

(** [static_cast<int>] *)
Definition int_of_double (x : double) : res Z := let* z := int64_of_double x in int_ z.

(** [%.0f] *)
Definition fmt_0f (x : double) : bytes :=
  match x with
  | S754_finite s m e => (if s then bs "-" else []) ++ fmt_u (scaled 0 (Zpos m) e)
  | S754_zero s => (if s then bs "-" else []) ++ bs "0"
  | _ => fmt_f 1 x
  end.

Inductive color : Set := Background | Black | Gray | Blue.
Inductive drawing : Set :=
| FilledRectangle (x1 y1 x2 y2 : Z) (c : color)
| Thickness (n : Z)
| Line (x1 y1 x2 y2 : Z) (c : color)
| Text (x y : Z) (s : bytes) (c : color).

(** [class Plot]; [image_] is what has been drawn. *)
Record Plot := mkPlot {
  width_ : Z;
  height_ : Z;
  totalSeconds_ : Z;
  samplingPeriod_ : Z;
  image_ : list drawing;
  fontWidth_ : Z;
  fontHeight_ : Z;
  kRightMargin_ : Z;
  ratioX_ : double;
}.

Definition kLeftMargin_ : Z := 5.
Definition kMarginY_ : Z := 5.

(** The constructor; the size of the font is gd's. *)
Definition Plot_new (fontWidth fontHeight width height totalSeconds samplingPeriod : Z) : res Plot :=
  let* margin := int_ (3 * fontWidth + 5) in
  let* inner := int_ (width - kLeftMargin_ - margin) in
  let* scaled := int_ (samplingPeriod * inner) in
  Ok (mkPlot width height totalSeconds samplingPeriod [] fontWidth fontHeight margin
        (ddiv (double_of_Z scaled) (double_of_Z totalSeconds))).

Definition draw (l : list drawing) (p : Plot) : Plot :=
  mkPlot (width_ p) (height_ p) (totalSeconds_ p) (samplingPeriod_ p) (image_ p ++ l) (fontWidth_ p) (fontHeight_ p)
    (kRightMargin_ p) (ratioX_ p).

Definition getX (p : Plot) (i total : Z) : res Z :=
  let x := dplus (double_of_Z (width_ p - kLeftMargin_ - kRightMargin_ p)) (dmul (double_of_Z (i - total)) (ratioX_ p)) in
  let* n := int_of_double (dplus x half) in int_ (n + kLeftMargin_).

Definition getY (p : Plot) (value : double) : res Z :=
  let y := dmul (dsub (double_of_Z 1) value) (double_of_Z (height_ p - 2 * kMarginY_)) in
  let* n := int_of_double (dplus y half) in int_ (n + kMarginY_).

Definition label (maxValue : double) (p : Plot) : list drawing :=
  let text := if dleb (double_of_Z 10) maxValue then fmt_0f maxValue else fmt_f 1 maxValue in
  [Text (width_ p - kRightMargin_ p + 3) (kMarginY_ - 3) (snprintf 64 text) Black;
   Text (width_ p - kRightMargin_ p + 3) (height_ p - kMarginY_ - 3 - fontHeight_ p ÷ 2) (bs "0") Gray;
   Text kLeftMargin_ (height_ p - kMarginY_ - fontHeight_ p) (bs "-" ++ fmt_d (totalSeconds_ p) ++ bs "s") Blue].

(** [std::max_element], then the scale. *)
Definition max_element (first : double) (data : list double) : double :=
  fold_left (fun m x => if dltb m x then x else m) data first.
Definition scale_of (max : double) : double :=
  if dleb (double_of_Z 10) max then dceil max
  else let x := ddiv (dceil (dmul max (double_of_Z 10))) (double_of_Z 10) in if dltb tenth x then x else tenth.

(** One turn of the loop over the samples, and the loop from sample [i]. *)
Definition segment (p : Plot) (max : double) (size i : Z) (a b : double) : res drawing :=
  let* x1 := getX p i size in
  let* y1 := getY p (ddiv a max) in
  let* x2 := getX p (i + 1) size in
  let* y2 := getY p (ddiv b max) in
  Ok (Line x1 y1 x2 y2 Black).
Fixpoint segments (p : Plot) (max : double) (size i : Z) (data : list double) : res (list drawing) :=
  match data with
  | a :: ((b :: _) as rest) =>
      let* s := segment p max size i a b in
      let* l := segments p max size (i + 1) rest in
      Ok (s :: l)
  | _ => Ok []
  end.

(** The axes. *)
Definition axes (p : Plot) : res (list drawing) :=
  if samplingPeriod_ p =? 0 then Err EUndefined else
  let* total := int_ (totalSeconds_ p ÷ samplingPeriod_ p) in
  let* x0 := getX p 0 total in
  let* x1 := getX p total total in
  let* y0 := getY p (double_of_Z 0) in
  let* y1 := getY p (double_of_Z 1) in
  Ok [Thickness 1; Line x0 (y0 + 2) x1 (y0 + 2) Gray; Line x1 (y0 + 2) x1 (y1 + 2) Gray].

Definition plotCpu (toPng : list drawing -> bytes) (data : list double) (p : Plot) : res (bytes * Plot) :=
  let p := draw [FilledRectangle 0 0 (width_ p) (height_ p) Background] p in
  let* p := match data with
    | first :: _ :: _ =>
        let max := scale_of (max_element first data) in
        let* l := segments p max (zlen data) 0 data in
        Ok (draw (Thickness 2 :: label max p ++ l) p)
    | _ => Ok p
    end in
  let* l := axes p in
  let p := draw l p in
  Ok (toPng (image_ p), p).

(** ** The chart of the process monitor *)

(** [cpu_chart_], for a font of that size. *)
Definition cpu_chart (fontWidth fontHeight : Z) : res Plot := Plot_new fontWidth fontHeight 640 100 600 2.

(** The column [k] samples before the last. *)
Definition column (p : Plot) (k : nat) : Z := match getX p (- Z.of_nat k) 0 with Ok x => x | Err _ => 0 end.

Lemma getX_diff p i total : getX p i total = getX p (i - total) 0.
Proof. unfold getX. by rewrite Z.sub_0_r. Qed.

Definition columns_okb (p : Plot) (margin : Z) : bool :=
  forallb (fun k => is_ok (getX p (- Z.of_nat k) 0) && (5 <=? column p k) && (column p (S k) <=? column p k)) (seq 0 301) &&
  (column p 0 =? 640 - margin).

Lemma columns_okb_same p q m : (forall i, getX p i 0 = getX q i 0) -> columns_okb p m = columns_okb q m.
Proof.
  intros H. assert (C : forall k, column p k = column q k) by (intros k; unfold column; by rewrite H).
  unfold columns_okb. rewrite C. f_equal.
  induction (seq 0 301) as [|k l IH]; [done|]. cbn [forallb]. by rewrite H, !C, IH.
Qed.

Lemma columns_okb_spec p m k : columns_okb p m = true -> (k <= 300)%nat ->
  getX p (- Z.of_nat k) 0 = Ok (column p k) /\ 5 <= column p k /\ column p (S k) <= column p k /\ column p k <= 640 - m.
Proof.
  unfold columns_okb. intros H Hk. apply andb_true_iff in H as [A E]. rewrite forallb_forall in A.
  assert (B : forall j, (j <= 300)%nat -> getX p (- Z.of_nat j) 0 = Ok (column p j) /\ 5 <= column p j /\ column p (S j) <= column p j).
  { intros j Hj. specialize (A j ltac:(apply in_seq; lia)). rewrite !andb_true_iff in A. destruct A as [[A1 A2] A3].
    split; [|lia]. unfold column. by destruct (getX p (- Z.of_nat j) 0). }
  destruct (B k Hk) as (B1 & B2 & B3). split_and!; try done. clear A B1 B2 B3.
  induction k as [|k IH]; [lia|]. specialize (IH ltac:(lia)). destruct (B k ltac:(lia)) as (_ & _ & ?). lia.
Qed.

Lemma chart_columns fontWidth fontHeight : 0 <= fontWidth <= 16 -> exists p, cpu_chart fontWidth fontHeight = Ok p /\
  kRightMargin_ p = 3 * fontWidth + 5 /\ width_ p = 640 /\ height_ p = 100 /\ totalSeconds_ p = 600 /\ samplingPeriod_ p = 2 /\
  columns_okb p (kRightMargin_ p) = true.
Proof.
  intros Hw.
  assert (A : forallb (fun w => match cpu_chart (Z.of_nat w) 0 with
      | Ok p => columns_okb p (kRightMargin_ p) && (kRightMargin_ p =? 3 * Z.of_nat w + 5) | Err _ => false end) (seq 0 17) = true)
    by (vm_compute; reflexivity).
  rewrite forallb_forall in A. specialize (A (Z.to_nat fontWidth) ltac:(apply in_seq; lia)). rewrite Z2Nat.id in A by lia.
  unfold cpu_chart, Plot_new in *.
  destruct (int_ (3 * fontWidth + 5)) as [m|]; [|done]. cbn [res_bind] in *.
  destruct (int_ (640 - kLeftMargin_ - m)) as [inner|]; [|done]. cbn [res_bind] in *.
  destruct (int_ (2 * inner)) as [sc|]; [|done]. cbn [res_bind] in *.
  eexists. split; [done|]. cbn [kRightMargin_ width_ height_ image_] in *. apply andb_true_iff in A as [A E].
  apply Z.eqb_eq in E. split; [exact E|]. do 4 (split; [done|]). rewrite <- A. by apply columns_okb_same.
Qed.

Lemma column_0 p m : columns_okb p m = true -> column p 0 = 640 - m.
Proof. unfold columns_okb. intros H. apply andb_true_iff in H as [_ E]. lia. Qed.

Lemma getX_column p m i n : columns_okb p m = true -> 0 <= n - i <= 300 -> getX p i n = Ok (column p (Z.to_nat (n - i))).
Proof.
  intros H Hi. rewrite getX_diff. destruct (columns_okb_spec p m (Z.to_nat (n - i)) H ltac:(lia)) as (E & _).
  rewrite <- E. f_equal. lia.
Qed.

(** Line [i] of [size] samples, from the sample [a] to the sample [b]. *)
Definition line_between (p : Plot) (max : double) (size i : Z) (a b : double) (d : drawing) : Prop :=
  exists y1 y2, getY p (ddiv a max) = Ok y1 /\ getY p (ddiv b max) = Ok y2 /\
    d = Line (column p (Z.to_nat (size - i))) y1 (column p (Z.to_nat (size - (i + 1)))) y2 Black.

Lemma segments_lines p m max size data i : columns_okb p m = true ->
  Forall (fun a => is_ok (getY p (ddiv a max)) = true) data -> 0 <= i -> i + zlen data = size -> size <= 300 ->
  exists l, segments p max size i data = Ok l /\ length l = pred (length data) /\
    forall k d, l !! k = Some d -> exists a b, data !! k = Some a /\ data !! S k = Some b /\
      line_between p max size (i + Z.of_nat k) a b d.
Proof.
  intros Hc. revert i. induction data as [|a [|b data] IH]; intros i F Hi Hs Hn; [by exists []|by exists []|].
  apply Forall_cons in F as [Ha F]. rewrite !zlen_cons in Hs. pose proof (zlen_nonneg data).
  destruct (IH (i + 1) F ltac:(lia) ltac:(rewrite zlen_cons; lia) Hn) as (l & E & L & K). clear IH.
  apply Forall_cons in F as [Hb _]. change (segments p max size i (a :: b :: data)) with
    (let* s := segment p max size i a b in let* l := segments p max size (i + 1) (b :: data) in Ok (s :: l)).
  unfold segment. rewrite !(getX_column p m) by (done || lia). cbn [res_bind].
  destruct (getY p (ddiv a max)) as [y1|] eqn:E1; [|done]. destruct (getY p (ddiv b max)) as [y2|] eqn:E2; [|done].
  cbn [res_bind]. rewrite E. cbn [res_bind]. eexists. split; [done|]. split; [cbn in *; lia|].
  intros [|k] d Hd.
  - injection Hd as <-. exists a, b. split; [done|]. split; [done|]. exists y1, y2. by rewrite Z.add_0_r.
  - destruct (K k d Hd) as (a' & b' & Ka & Kb & Kd). exists a', b'. split; [done|]. split; [done|].
    by replace (i + Z.of_nat (S k)) with (i + 1 + Z.of_nat k) by lia.
Qed.

Lemma getY_ends p : height_ p = 100 -> getY p (double_of_Z 0) = Ok 95 /\ getY p (double_of_Z 1) = Ok 5.
Proof. intros H. unfold getY. rewrite H. split; vm_compute; reflexivity. Qed.

Lemma chart_axes p m : columns_okb p m = true -> height_ p = 100 -> totalSeconds_ p = 600 -> samplingPeriod_ p = 2 ->
  axes p = Ok [Thickness 1; Line (column p 300) 97 (640 - m) 97 Gray; Line (640 - m) 97 (640 - m) 7 Gray].
Proof.
  intros C H T S. unfold axes. rewrite S, T. cbn [Z.eqb]. change (int_ (600 ÷ 2)) with (Ok 300). cbn [res_bind].
  rewrite !(getX_column p m) by (done || lia). cbn [res_bind]. change (Z.to_nat (300 - 300)) with 0%nat.
  rewrite (column_0 p m C). destruct (getY_ends p H) as [-> ->]. reflexivity.
Qed.

(** The chart of two to three hundred samples, whatever they are, as long as
    their heights are numbers: one line for each two successive samples, each
    begins where the one before it ends, runs to the right or upright, and stays
    between the margins of the image; then the axes, of the width of three hundred
    samples, which the samples of the whole ring fill. *)
Theorem chart_within_margins (fontWidth fontHeight : Z) (toPng : list drawing -> bytes) (first : double) (data : list double)
    (p : Plot) (Hw : 0 <= fontWidth <= 16) (Hp : cpu_chart fontWidth fontHeight = Ok p)
    (Hn : 1 <= zlen data <= 299) (max := scale_of (max_element first (first :: data)))
    (Hy : Forall (fun a => is_ok (getY p (ddiv a max)) = true) (first :: data)) :
  let margin := 3 * fontWidth + 5 in
  exists lines, length lines = length data /\
    plotCpu toPng (first :: data) p =
      (let p' := draw ([FilledRectangle 0 0 640 100 Background] ++ (Thickness 2 :: label max p ++ lines) ++
         [Thickness 1; Line (column p 300) 97 (640 - margin) 97 Gray; Line (640 - margin) 97 (640 - margin) 7 Gray]) p in
       Ok (toPng (image_ p'), p')) /\
    (forall k d, lines !! k = Some d -> exists a b, (first :: data) !! k = Some a /\ data !! k = Some b /\
       line_between p max (zlen (first :: data)) (Z.of_nat k) a b d) /\
    (forall k, (k <= 300)%nat -> 5 <= column p k <= 640 - margin) /\
    (forall k, (k <= 300)%nat -> column p (S k) <= column p k).
Proof.
  intros margin. destruct (chart_columns fontWidth fontHeight Hw) as (p0 & E0 & Hm & W & H & T & S & C).
  rewrite Hp in E0. injection E0 as <-. set (q := draw [FilledRectangle 0 0 640 100 Background] p).
  assert (Cd : forall l, columns_okb (draw l p) (kRightMargin_ p) = true) by (intros; rewrite <- C; by apply columns_okb_same).
  assert (Cq : forall l, columns_okb (draw l q) (kRightMargin_ p) = true) by (intros; rewrite <- (Cd []); by apply columns_okb_same).
  destruct (segments_lines q (kRightMargin_ p) max (zlen (first :: data)) (first :: data) 0 (Cd _) Hy) as (l & E & L & K);
    [lia|lia|rewrite zlen_cons; lia|].
  pose proof (chart_axes (draw (Thickness 2 :: label max q ++ l) q) (kRightMargin_ p) (Cq _) H T S) as X. rewrite Hm in X.
  exists l. split; [by rewrite L|]. split_and!.
  - unfold plotCpu. rewrite W, H. fold q. destruct data as [|b data]; [rewrite zlen_nil in Hn; lia|].
    fold max. rewrite E. cbn [res_bind]. rewrite X. cbn [res_bind]. unfold draw. cbn. by rewrite <- !app_assoc.
  - intros k d Hd. destruct (K k d Hd) as (a & b & Ka & Kb & Kd). exists a, b. split; [done|]. split; [done|]. exact Kd.
  - intros k Hk. destruct (columns_okb_spec p _ k C Hk) as (_ & ? & _ & ?). unfold margin. lia.
  - intros k Hk. by destruct (columns_okb_spec p _ k C Hk) as (_ & _ & ? & _).
Qed.

(** Three samples. *)
Definition ex_samples : list double := map (fun n => ddiv (double_of_Z n) (double_of_Z 200)) [37; 190].
Lemma chart_within_margins_witness : exists p (lines : list drawing), cpu_chart 6 13 = Ok p /\ length lines = 2%nat /\
  (forall k, (k <= 300)%nat -> 5 <= column p k <= 617) /\
  exists image, plotCpu (fun _ => []) (double_of_Z 0 :: ex_samples) p = Ok ([], draw (FilledRectangle 0 0 640 100 Background :: image) p).
Proof.
  destruct (cpu_chart 6 13) as [p|] eqn:E; [|vm_compute in E; discriminate E].
  destruct (chart_within_margins 6 13 (fun _ => []) (double_of_Z 0) ex_samples p) as (l & L & P & _ & C & _).
  - lia.
  - exact E.
  - vm_compute. split; discriminate.
  - vm_compute in E. injection E as <-. repeat constructor; vm_compute; reflexivity.
  - exists p, l. split; [reflexivity|]. split; [exact L|]. split; [exact C|]. eexists. exact P.
Defined.
