(* ===== verification/Connector.v ===== *)
(** * Outgoing connections (cnet/net/Connector.h, Connector.cc)

    The connector as its loop runs it: the retry machine, its timers and
    functors, and every socket it opens.  What the system calls return comes
    with the events. *)

From S2P Require Import Prelude.

Inductive States : Set := kDisconnected | kConnecting | kConnected.

#[export] Instance States_eq_dec : EqDecision States.
Proof. solve_decision. Defined.

Definition kMaxRetryDelayMs : Z := 30 * 1000.
Definition kInitRetryDelayMs : Z := 500.

Inductive functor : Set := FStartInLoop | FStopInLoop | FResetChannel.

#[export] Instance functor_eq_dec : EqDecision functor.
Proof. solve_decision. Defined.

(** [channel_]: the descriptor of the channel, if there is one.  [posted] are the
    functors waiting in the loop, [timers] the delays of the pending timers.
    The rest is history: the sockets opened, closed, handed to
    [newConnectionCallback_], and all delays so far. *)
Record Connector := mkConnector {
  connect_ : bool;
  state_ : States;
  channel_ : option Z;
  retryDelayMs_ : Z;
  posted : list functor;
  timers : list Z;
  opened : list Z;
  closed : list Z;
  delivered : list Z;
  delays : list Z;
}.

Definition Connector_new : Connector :=
  mkConnector false kDisconnected None kInitRetryDelayMs [] [] [] [] [] [].

Definition set_connect (b : bool) (c : Connector) : Connector :=
  mkConnector b (state_ c) (channel_ c) (retryDelayMs_ c) (posted c) (timers c)
    (opened c) (closed c) (delivered c) (delays c).
Definition setState (s : States) (c : Connector) : Connector :=
  mkConnector (connect_ c) s (channel_ c) (retryDelayMs_ c) (posted c) (timers c)
    (opened c) (closed c) (delivered c) (delays c).
Definition set_channel (ch : option Z) (c : Connector) : Connector :=
  mkConnector (connect_ c) (state_ c) ch (retryDelayMs_ c) (posted c) (timers c)
    (opened c) (closed c) (delivered c) (delays c).
Definition set_delay (n : Z) (c : Connector) : Connector :=
  mkConnector (connect_ c) (state_ c) (channel_ c) n (posted c) (timers c)
    (opened c) (closed c) (delivered c) (delays c).
Definition set_posted (l : list functor) (c : Connector) : Connector :=
  mkConnector (connect_ c) (state_ c) (channel_ c) (retryDelayMs_ c) l (timers c)
    (opened c) (closed c) (delivered c) (delays c).
Definition set_timers (l : list Z) (c : Connector) : Connector :=
  mkConnector (connect_ c) (state_ c) (channel_ c) (retryDelayMs_ c) (posted c) l
    (opened c) (closed c) (delivered c) (delays c).
Definition open_ (fd : Z) (c : Connector) : Connector :=
  mkConnector (connect_ c) (state_ c) (channel_ c) (retryDelayMs_ c) (posted c) (timers c)
    (opened c ++ [fd]) (closed c) (delivered c) (delays c).
Definition close_ (fd : Z) (c : Connector) : Connector :=
  mkConnector (connect_ c) (state_ c) (channel_ c) (retryDelayMs_ c) (posted c) (timers c)
    (opened c) (closed c ++ [fd]) (delivered c) (delays c).
Definition deliver (fd : Z) (c : Connector) : Connector :=
  mkConnector (connect_ c) (state_ c) (channel_ c) (retryDelayMs_ c) (posted c) (timers c)
    (opened c) (closed c) (delivered c ++ [fd]) (delays c).

Definition queueInLoop (f : functor) (c : Connector) : Connector := set_posted (posted c ++ [f]) c.

(** [runAfter(retryDelayMs_/1000.0, startInLoop)] *)
Definition runAfter (c : Connector) : Connector :=
  mkConnector (connect_ c) (state_ c) (channel_ c) (retryDelayMs_ c) (posted c)
    (timers c ++ [retryDelayMs_ c]) (opened c) (closed c) (delivered c) (delays c ++ [retryDelayMs_ c]).

Definition retry (sockfd : Z) (c : Connector) : Connector :=
  let c := setState kDisconnected (close_ sockfd c) in
  if connect_ c then
    let c := runAfter c in
    set_delay (Z.min (retryDelayMs_ c * 2) kMaxRetryDelayMs) c
  else c.

Definition connecting (sockfd : Z) (c : Connector) : res Connector :=
  let c := setState kConnecting c in
  assert! bool_decide (channel_ c = None);
  Ok (set_channel (Some sockfd) c).

(** The values of errno on Linux. *)
Definition EINTR : Z := 4.
Definition EAGAIN : Z := 11.
Definition EADDRINUSE : Z := 98.
Definition EADDRNOTAVAIL : Z := 99.
Definition ENETUNREACH : Z := 101.
Definition EISCONN : Z := 106.
Definition ECONNREFUSED : Z := 111.
Definition EINPROGRESS : Z := 115.

(** [connect()]: the descriptor [socket(2)] gave, and what [connect(2)] set errno
    to, 0 on success. *)
Definition connect (sockfd savedErrno : Z) (c : Connector) : res Connector :=
  let c := open_ sockfd c in
  if bool_decide (savedErrno ∈ [0; EINPROGRESS; EINTR; EISCONN]) then connecting sockfd c
  else if bool_decide (savedErrno ∈ [EAGAIN; EADDRINUSE; EADDRNOTAVAIL; ECONNREFUSED; ENETUNREACH])
  then Ok (retry sockfd c)
  else Ok (close_ sockfd c).

Definition startInLoop (sockfd savedErrno : Z) (c : Connector) : res Connector :=
  assert! bool_decide (state_ c = kDisconnected);
  if connect_ c then connect sockfd savedErrno c else Ok c.

Definition start (inLoopThread : bool) (sockfd savedErrno : Z) (c : Connector) : res Connector :=
  let c := set_connect true c in
  if inLoopThread then startInLoop sockfd savedErrno c else Ok (queueInLoop FStartInLoop c).

Definition restart (sockfd savedErrno : Z) (c : Connector) : res Connector :=
  let c := set_connect true (set_delay kInitRetryDelayMs (setState kDisconnected c)) in
  startInLoop sockfd savedErrno c.

Definition stop (c : Connector) : Connector := queueInLoop FStopInLoop (set_connect false c).

(** [removeAndResetChannel]: dereferences [channel_]. *)
Definition removeAndResetChannel (c : Connector) : res (Z * Connector) :=
  match channel_ c with
  | Some sockfd => Ok (sockfd, queueInLoop FResetChannel c)
  | None => Err EUndefined
  end.

Definition resetChannel (c : Connector) : Connector := set_channel None c.

Definition stopInLoop (c : Connector) : res Connector :=
  if bool_decide (state_ c = kConnecting) then
    let c := setState kDisconnected c in
    let* (sockfd, c) := removeAndResetChannel c in
    Ok (retry sockfd c)
  else Ok c.

(** [err]: SO_ERROR; [self]: the two ends of the socket are the same. *)
Definition handleWrite (err : Z) (self : bool) (c : Connector) : res Connector :=
  if bool_decide (state_ c = kConnecting) then
    let* (sockfd, c) := removeAndResetChannel c in
    if negb (err =? 0) then Ok (retry sockfd c)
    else if self then Ok (retry sockfd c)
    else
      let c := setState kConnected c in
      Ok (if connect_ c then deliver sockfd c else close_ sockfd c)
  else
    assert! bool_decide (state_ c = kDisconnected);
    Ok c.

Definition handleError (c : Connector) : res Connector :=
  if bool_decide (state_ c = kConnecting) then
    let* (sockfd, c) := removeAndResetChannel c in
    Ok (retry sockfd c)
  else Ok c.

(** The assertion of the destructor. *)
Definition Connector_delete (c : Connector) : res unit := assert_ (bool_decide (channel_ c = None)).

(** ** What may happen to a connector *)

Inductive event : Type :=
| EvStart (inLoopThread : bool) (sockfd savedErrno : Z)
| EvRestart (sockfd savedErrno : Z)
| EvStop
| EvFunctor (sockfd savedErrno : Z)     (* the loop runs the next functor *)
| EvTimer (sockfd savedErrno : Z)       (* the first timer expires *)
| EvWrite (err : Z) (self : bool)
| EvError.

Definition exec (ev : event) (c : Connector) : res Connector :=
  match ev with
  | EvStart b fd e => start b fd e c
  | EvRestart fd e => restart fd e c
  | EvStop => Ok (stop c)
  | EvFunctor fd e =>
      match posted c with
      | [] => Ok c
      | FStartInLoop :: l => startInLoop fd e (set_posted l c)
      | FStopInLoop :: l => stopInLoop (set_posted l c)
      | FResetChannel :: l => Ok (resetChannel (set_posted l c))
      end
  | EvTimer fd e =>
      match timers c with
      | [] => Ok c
      | _ :: l => startInLoop fd e (set_timers l c)
      end
  | EvWrite err self => handleWrite err self c
  | EvError => handleError c
  end.

Definition run (l : list event) (c : Connector) : res Connector :=
  res_foldl (fun c ev => exec ev c) c l.

(** Nothing is under way: no attempt, no timer, no start waiting. *)
Definition idle (c : Connector) : Prop :=
  channel_ c = None /\ timers c = [] /\ FStartInLoop ∉ posted c.
#[export] Instance idle_dec c : Decision (idle c).
Proof. unfold idle. apply _. Defined.

(** The discipline of the callers: [start] and [restart] when nothing is under
    way; a timer waits at least half a second, so the functor queued before it
    has run; the channel's events come while connecting, or in the same
    [handleEvent]. *)
Definition event_ok (ev : event) (c : Connector) : Prop :=
  match ev with
  | EvStart _ _ _ => state_ c = kDisconnected /\ idle c
  | EvRestart _ _ => state_ c <> kConnecting /\ idle c
  | EvTimer _ _ => FResetChannel ∉ posted c
  | EvWrite _ _ => state_ c <> kConnected
  | EvStop | EvFunctor _ _ | EvError => True
  end.
#[export] Instance event_ok_dec ev c : Decision (event_ok ev c).
Proof. destruct ev; cbn; apply _. Defined.

Fixpoint events_ok (l : list event) (c : Connector) : Prop :=
  match l with
  | [] => True
  | ev :: l' => event_ok ev c /\ match exec ev c with Ok c' => events_ok l' c' | Err _ => True end
  end.
#[export] Instance events_ok_dec l c : Decision (events_ok l c).
Proof.
  revert c. induction l as [|ev l IH]; intros c; cbn; [apply _|].
  destruct (exec ev c); apply _.
Defined.

(** ** The invariant *)

(** The socket of the attempt under way. *)
Definition held (c : Connector) : list Z :=
  match state_ c, channel_ c with kConnecting, Some fd => [fd] | _, _ => [] end.

(** How often a functor waits. *)
Definition waiting (f : functor) (l : list functor) : nat := length (filter (eq f) l).
#[local] Arguments waiting : simpl never.
#[local] Arguments held : simpl never.

Record inv (c : Connector) : Prop := mkInv {
  inv_sockets : opened c ≡ₚ closed c ++ delivered c ++ held c;
  inv_channel : state_ c = kConnecting -> channel_ c <> None;
  (* a channel is either in use or about to be reset, once *)
  inv_reset : waiting FResetChannel (posted c) =
    if decide (channel_ c = None \/ state_ c = kConnecting) then O else 1%nat;
  (* at most one attempt is due *)
  inv_one : (length (timers c) + waiting FStartInLoop (posted c) <=
             if decide (state_ c = kDisconnected) then 1 else 0)%nat;
  inv_start : (0 < waiting FStartInLoop (posted c))%nat -> channel_ c = None;
  inv_delay : kInitRetryDelayMs <= retryDelayMs_ c <= kMaxRetryDelayMs;
}.

Lemma waiting_cons f g l : waiting f (g :: l) = ((if decide (f = g) then 1 else 0) + waiting f l)%nat.
Proof. unfold waiting. rewrite filter_cons. by case_decide. Qed.
Lemma waiting_snoc f g l : waiting f (l ++ [g]) = (waiting f l + if decide (f = g) then 1 else 0)%nat.
Proof.
  unfold waiting. rewrite filter_app, length_app, filter_cons. by case_decide.
Qed.
Lemma waiting_0 f l : f ∉ l <-> waiting f l = O.
Proof.
  unfold waiting. induction l as [|g l IH]; [split; [done|intros _; apply not_elem_of_nil]|].
  rewrite not_elem_of_cons, filter_cons, IH. case_decide; cbn; [|naive_solver].
  split; [by intros []|done].
Qed.

(** The socket [fd] has left the machine and is about to be closed. *)
Record loose (fd : Z) (c : Connector) : Prop := mkLoose {
  loose_sockets : opened c ≡ₚ fd :: closed c ++ delivered c;
  loose_reset : waiting FResetChannel (posted c) = if decide (channel_ c = None) then O else 1%nat;
  loose_none : (length (timers c) + waiting FStartInLoop (posted c) = 0)%nat;
  loose_delay : kInitRetryDelayMs <= retryDelayMs_ c <= kMaxRetryDelayMs;
}.

Lemma held_not s ch c : s <> kConnecting -> held (setState s (set_channel ch c)) = [].
Proof. unfold held. cbn. by destruct s. Qed.

Lemma close_inv fd s c : loose fd c -> s <> kConnecting -> inv (setState s (close_ fd c)).
Proof.
  intros [L1 L2 L3 L4] Hs. constructor; cbn; try done.
  - replace (held _) with (@nil Z) by (unfold held; cbn; by destruct s).
    rewrite L1, app_nil_r, <-app_assoc. cbn. by rewrite Permutation_middle.
  - rewrite L2. repeat case_decide; try done; tauto.
  - rewrite L3. lia.
  - lia.
Qed.

Lemma retry_inv fd c : loose fd c -> inv (retry fd c).
Proof.
  intros L. pose proof (close_inv fd kDisconnected c L ltac:(done)) as [I1 I2 I3 I4 I5 I6].
  destruct L as [L1 L2 L3 L4]. unfold retry. destruct (connect_ _); [|by constructor].
  cbn in *. constructor; try done; cbn in *.
  - rewrite length_app. cbn. case_decide; [lia|done].
  - unfold kInitRetryDelayMs, kMaxRetryDelayMs in *. lia.
Qed.

(** An attempt may begin. *)
Record ready (c : Connector) : Prop := mkReady {
  ready_sockets : opened c ≡ₚ closed c ++ delivered c;
  ready_state : state_ c = kDisconnected;
  ready_channel : channel_ c = None;
  ready_reset : waiting FResetChannel (posted c) = O;
  ready_none : (length (timers c) + waiting FStartInLoop (posted c) = 0)%nat;
  ready_delay : kInitRetryDelayMs <= retryDelayMs_ c <= kMaxRetryDelayMs;
}.

Lemma startInLoop_inv fd e c : ready c -> exists c', startInLoop fd e c = Ok c' /\ inv c'.
Proof.
  intros [R1 R2 R3 R4 R5 R6]. unfold startInLoop. rewrite R2, bool_decide_eq_true_2 by done.
  cbn [assert_ res_bind]. destruct (connect_ c).
  2:{ exists c. split; [done|]. constructor; try done.
      - unfold held. by rewrite R2, app_nil_r.
      - congruence.
      - rewrite R4. case_decide; tauto.
      - case_decide; lia. }
  assert (L : loose fd (open_ fd c)).
  { constructor; cbn; try done.
    - rewrite R1. by rewrite <-Permutation_cons_append.
    - rewrite R4, R3. done. }
  unfold connect. destruct (bool_decide _).
  - unfold connecting. cbn [channel_ setState open_]. rewrite R3, bool_decide_eq_true_2 by done.
    cbn [assert_ res_bind]. eexists. split; [reflexivity|]. constructor; cbn; try done.
    + rewrite R1, app_assoc. done.
    + rewrite R5. lia.
    + lia.
  - destruct (bool_decide _); eexists; (split; [reflexivity|]); [by apply retry_inv|].
    pose proof (close_inv fd kDisconnected _ L ltac:(done)) as I.
    replace (close_ fd (open_ fd c)) with (setState kDisconnected (close_ fd (open_ fd c))); [done|].
    unfold setState, close_, open_. cbn. by rewrite R2.
Qed.

(** Taking the socket out of the machine, while connecting. *)
Lemma remove_loose c : inv c -> state_ c = kConnecting ->
  exists fd c', removeAndResetChannel c = Ok (fd, c') /\
    forall s, loose fd (setState s c').
Proof.
  intros [I1 I2 I3 I4 I5 I6] Hs. unfold removeAndResetChannel.
  destruct (channel_ c) as [fd|] eqn:Ec; [|by destruct (I2 Hs)].
  exists fd. eexists. split; [reflexivity|]. intros s. unfold held in I1.
  rewrite Hs, Ec in *. constructor; cbn; try done.
  - rewrite I1, app_assoc. by rewrite <-Permutation_cons_append.
  - rewrite waiting_snoc, I3, Ec. done.
  - rewrite waiting_snoc. repeat (case_decide; try done); lia.
Qed.

Lemma inv_ready c : inv c -> state_ c <> kConnecting -> channel_ c = None ->
  (length (timers c) + waiting FStartInLoop (posted c) = 0)%nat ->
  ready (set_connect true (setState kDisconnected c)).
Proof.
  intros [I1 I2 I3 I4 I5 I6] Hs Hc Hn. constructor; cbn; try done.
  - rewrite I1. unfold held. rewrite Hc. destruct (state_ c); by rewrite app_nil_r.
  - rewrite I3, decide_True by auto. done.
Qed.

Lemma connector_exec_inv ev c : inv c -> event_ok ev c -> exists c', exec ev c = Ok c' /\ inv c'.
Proof.
  intros I Hok. pose proof I as [I1 I2 I3 I4 I5 I6].
  assert (Hidle : idle c -> channel_ c = None /\ (length (timers c) + waiting FStartInLoop (posted c) = 0)%nat).
  { intros (Hc & Ht & Hp). rewrite Ht, (proj1 (waiting_0 _ _) Hp). done. }
  assert (Hretry : state_ c = kConnecting ->
            exists fd c', removeAndResetChannel c = Ok (fd, c') /\ loose fd c').
  { intros Hs. destruct (remove_loose c I Hs) as (fd & c' & E & L). exists fd, c'. split; [done|].
    specialize (L (state_ c')). by destruct c'. }
  destruct ev as [b fd e|fd e| |fd e|fd e|err self|]; cbn [exec event_ok] in *.
  - destruct Hok as [Hs Hi]. destruct (Hidle Hi) as [Hc Hn].
    pose proof (inv_ready c I ltac:(congruence) Hc Hn) as R.
    replace (setState kDisconnected c) with c in R by (rewrite <-Hs; by destruct c).
    unfold start. destruct b; [by apply startInLoop_inv|]. eexists. split; [reflexivity|].
    constructor; cbn; try done.
    + rewrite waiting_snoc, I3. rewrite !decide_True by auto. done.
    + rewrite waiting_snoc, Hs. repeat (case_decide; try done); lia.
  - destruct Hok as [Hs Hi]. destruct (Hidle Hi) as [Hc Hn].
    destruct (inv_ready c I Hs Hc Hn) as [R1 R2 R3 R4 R5 R6]. unfold restart.
    apply startInLoop_inv. by constructor.
  - eexists. split; [reflexivity|]. constructor; cbn; try done;
      by rewrite waiting_snoc, decide_False, Nat.add_0_r by done.
  - destruct (posted c) as [|f l] eqn:Ep; [by exists c|].
    assert (W : forall g, waiting g (posted c) = ((if decide (g = f) then 1 else 0) + waiting g l)%nat)
      by (intros g; by rewrite Ep, waiting_cons).
    pose proof (W FStartInLoop) as W1. pose proof (W FResetChannel) as W2. rewrite Ep in W1, W2.
    clear W. destruct f; (destruct (decide (FStartInLoop = _)) in W1; try done);
      (destruct (decide (FResetChannel = _)) in W2; try done); cbn [Nat.add] in W1, W2;
      rewrite W2 in I3; rewrite W1 in I4, I5; clear W1 W2.
    + assert (Hc : channel_ c = None) by (apply I5; lia).
      rewrite Hc in I3. rewrite decide_True in I3 by auto.
      destruct (decide (state_ c = kDisconnected)) as [Hs|]; [|lia].
      apply startInLoop_inv. constructor; cbn; try done; [|lia].
      rewrite I1. unfold held. by rewrite Hs, app_nil_r.
    + assert (I' : inv (set_posted l c)) by (by constructor).
      unfold stopInLoop. destruct (bool_decide_reflect (state_ (set_posted l c) = kConnecting)) as [Hs|Hs];
        [|by exists (set_posted l c)].
      destruct (remove_loose _ I' Hs) as (fd' & c' & E & L).
      unfold removeAndResetChannel in *. cbn [channel_ setState set_posted] in *.
      destruct (channel_ c) as [fd0|]; [|done]. injection E as <- <-.
      cbn [res_bind]. eexists. split; [reflexivity|]. apply retry_inv. exact (L kDisconnected).
    + eexists. split; [reflexivity|]. cbn in I3, I4, I5.
      assert (Hs : state_ c <> kConnecting /\ waiting FResetChannel l = O /\ channel_ c <> None).
      { destruct (decide (channel_ c = None \/ _)) as [Hd|Hd]; [lia|]. split_and!; [tauto|lia|tauto]. }
      destruct Hs as (Hs & Hw & Hc). constructor; cbn; try done.
      * rewrite I1. unfold held. cbn. by destruct (state_ c).
  - destruct (timers c) as [|d l] eqn:Et; [by exists c|].
    apply waiting_0 in Hok. rewrite Hok in I3.
    assert (Hs : state_ c = kDisconnected)
      by (destruct (decide (state_ c = kDisconnected)); [done|cbn in I4; lia]).
    assert (Hc : channel_ c = None).
    { destruct (decide (channel_ c = None \/ _)) as [[Hd|Hd]|Hd]; [done|congruence|done]. }
    rewrite decide_True in I4 by done. cbn in I4.
    apply startInLoop_inv. constructor; cbn; try done; [|lia].
    rewrite I1. unfold held. by rewrite Hs, app_nil_r.
  - unfold handleWrite. destruct (bool_decide_reflect (state_ c = kConnecting)) as [Hs|Hs].
    + destruct (remove_loose c I Hs) as (fd & c' & E & L). rewrite E. cbn [res_bind].
      assert (L' : loose fd c') by (specialize (L (state_ c')); by destruct c').
      destruct (negb (err =? 0)); [eexists; split; [reflexivity|]; by apply retry_inv|].
      destruct self; [eexists; split; [reflexivity|]; by apply retry_inv|].
      eexists. split; [reflexivity|]. destruct (connect_ _).
      * specialize (L kConnected) as [L1 L2 L3 L4]. constructor; cbn; try done.
        -- cbn in L1. rewrite L1. unfold held. cbn. rewrite app_nil_r, app_assoc.
           by rewrite <-Permutation_cons_append.
        -- cbn in L2. rewrite L2. repeat case_decide; try done; naive_solver.
        -- cbn in L3. lia.
        -- cbn in L3. lia.
      * exact (close_inv fd kConnected c' L' ltac:(done)).
    + assert (state_ c = kDisconnected) as -> by (by destruct (state_ c)).
      rewrite bool_decide_eq_true_2 by done. by exists c.
  - unfold handleError. destruct (bool_decide_reflect (state_ c = kConnecting)) as [Hs|Hs]; [|by exists c].
    destruct (Hretry Hs) as (fd & c' & -> & L). cbn [res_bind]. eexists. split; [reflexivity|].
    by apply retry_inv.
Qed.

Lemma connector_new_inv : inv Connector_new.
Proof. constructor; cbn; try done. unfold waiting. cbn. lia. Qed.

Lemma connector_run_inv l c : inv c -> events_ok l c -> exists c', run l c = Ok c' /\ inv c'.
Proof.
  revert c. induction l as [|ev l IH]; intros c I Hok; [by exists c|]. destruct Hok as [H1 H2].
  destruct (connector_exec_inv ev c I H1) as (c' & E & I'). unfold run. cbn [res_foldl]. rewrite E in *.
  by apply IH.
Qed.

(** ** Calls in any order

    [start] at any time, even when an attempt or a timer is under way, and
    [restart] except during an attempt. *)

Definition call_ok (ev : event) (c : Connector) : Prop :=
  match ev with EvRestart _ _ => state_ c <> kConnecting | _ => True end.
#[export] Instance call_ok_dec ev c : Decision (call_ok ev c).
Proof. destruct ev; cbn; apply _. Defined.

Fixpoint calls_ok (l : list event) (c : Connector) : Prop :=
  match l with
  | [] => True
  | ev :: l' => call_ok ev c /\ match exec ev c with Ok c' => calls_ok l' c' | Err _ => True end
  end.
#[export] Instance calls_ok_dec l c : Decision (calls_ok l c).
Proof.
  revert c. induction l as [|ev l IH]; intros c; cbn; [apply _|].
  destruct (exec ev c); apply _.
Defined.

(** What holds of the sockets whatever the calls. *)
Record sound (c : Connector) : Prop := mkSound {
  so_sockets : opened c ≡ₚ closed c ++ delivered c ++ held c;
  so_channel : state_ c = kConnecting -> channel_ c <> None;
  so_reset : waiting FResetChannel (posted c) =
    if decide (channel_ c = None \/ state_ c = kConnecting) then O else 1%nat;
  so_delay : kInitRetryDelayMs <= retryDelayMs_ c <= kMaxRetryDelayMs;
}.

(** The result of a step is sound, or an assertion. *)
Definition sound_or_asserts (r : res Connector) : Prop :=
  match r with Ok c => sound c | Err x => x = EAssert end.

(** The socket [fd] is about to be closed, the connector not connecting. *)
Lemma close_sound fd s c : opened c ≡ₚ fd :: closed c ++ delivered c -> s <> kConnecting ->
  waiting FResetChannel (posted c) = (if decide (channel_ c = None) then O else 1%nat) ->
  kInitRetryDelayMs <= retryDelayMs_ c <= kMaxRetryDelayMs -> sound (setState s (close_ fd c)).
Proof.
  intros L1 Hs L2 L3. constructor; cbn; try done.
  - replace (held _) with (@nil Z) by (unfold held; cbn; by destruct s).
    rewrite L1, app_nil_r, <-app_assoc. cbn. by rewrite Permutation_middle.
  - rewrite L2. repeat case_decide; try done; tauto.
Qed.

Lemma retry_sound fd c : opened c ≡ₚ fd :: closed c ++ delivered c ->
  waiting FResetChannel (posted c) = (if decide (channel_ c = None) then O else 1%nat) ->
  kInitRetryDelayMs <= retryDelayMs_ c <= kMaxRetryDelayMs -> sound (retry fd c).
Proof.
  intros L1 L2 L3. pose proof (close_sound fd kDisconnected c L1 ltac:(done) L2 L3) as [I1 I2 I3 I4].
  unfold retry. destruct (connect_ _); constructor; try done. cbn in *.
  unfold kInitRetryDelayMs, kMaxRetryDelayMs in *. lia.
Qed.

Lemma startInLoop_sound fd e c : sound c -> sound_or_asserts (startInLoop fd e c).
Proof.
  intros [I1 I2 I3 I4]. unfold startInLoop.
  destruct (bool_decide_reflect (state_ c = kDisconnected)) as [Hs|]; [cbn [assert_ res_bind]|done].
  destruct (connect_ c); [|by constructor].
  assert (L1 : opened (open_ fd c) ≡ₚ fd :: closed c ++ delivered c).
  { cbn. rewrite I1. unfold held. rewrite Hs, app_nil_r. by rewrite <-Permutation_cons_append. }
  assert (L2 : waiting FResetChannel (posted c) = if decide (channel_ c = None) then O else 1%nat).
  { rewrite I3, Hs. repeat case_decide; try done; naive_solver. }
  unfold connect. destruct (bool_decide (e ∈ [0; _; _; _])).
  - unfold connecting. cbn [channel_ setState open_].
    destruct (bool_decide_reflect (channel_ c = None)) as [Hc|]; [cbn [assert_ res_bind]|done].
    rewrite Hc, decide_True in L2 by done. constructor; cbn; try done.
    cbn in L1. rewrite L1, app_assoc. by rewrite Permutation_cons_append.
  - destruct (bool_decide _); [by apply retry_sound|].
    pose proof (close_sound fd kDisconnected (open_ fd c) L1 ltac:(done) L2 I4) as S.
    assert (E : setState kDisconnected (close_ fd (open_ fd c)) = close_ fd (open_ fd c))
      by (unfold setState, close_, open_; cbn; by rewrite Hs).
    by rewrite E in S.
Qed.

(** Taking the socket out of the machine, whatever becomes of the state. *)
Lemma remove_sound s c : sound c -> state_ c = kConnecting ->
  exists fd c', removeAndResetChannel (setState s c) = Ok (fd, c') /\ state_ c' = s /\
    opened c' ≡ₚ fd :: closed c' ++ delivered c' /\ channel_ c' <> None /\
    waiting FResetChannel (posted c') = 1%nat /\ kInitRetryDelayMs <= retryDelayMs_ c' <= kMaxRetryDelayMs.
Proof.
  intros [I1 I2 I3 I4] Hs. unfold removeAndResetChannel. cbn [channel_ setState].
  destruct (channel_ c) as [fd|] eqn:Ec; [|by destruct (I2 Hs)]. exists fd. eexists. split; [reflexivity|].
  unfold held in I1. rewrite Hs, Ec in *. rewrite decide_True in I3 by auto. cbn. split_and!; try done; try lia.
  - rewrite I1, app_assoc. by rewrite <-Permutation_cons_append.
  - congruence.
  - by rewrite waiting_snoc, I3.
Qed.

Lemma exec_sound ev c : sound c -> call_ok ev c -> sound_or_asserts (exec ev c).
Proof.
  intros S Hok. pose proof S as [I1 I2 I3 I4].
  assert (Q : forall f l, f <> FResetChannel -> posted c = f :: l -> sound (set_posted l c)).
  { intros f l Hf Ep. rewrite Ep, waiting_cons, decide_False in I3 by congruence. by constructor. }
  assert (P : forall b f, f <> FResetChannel -> sound (queueInLoop f (set_connect b c))).
  { intros b f Hf. constructor; cbn; try done. by rewrite waiting_snoc, decide_False, Nat.add_0_r by congruence. }
  assert (R : forall s c', sound c' -> state_ c' = kConnecting ->
    sound_or_asserts (let* (fd, c1) := removeAndResetChannel (setState s c') in Ok (retry fd c1))).
  { intros s c' S' Hs. destruct (remove_sound s c' S' Hs) as (fd & c1 & -> & _ & L1 & L2 & L3 & L4). cbn.
    apply retry_sound; try done. by rewrite decide_False. }
  assert (Same : state_ c = kConnecting -> setState kConnecting c = c) by (intros <-; by destruct c).
  destruct ev as [b fd e|fd e| |fd e|fd e|err self|]; cbn [exec call_ok] in *.
  - unfold start. destruct b; [|by apply P]. apply startInLoop_sound. by constructor.
  - unfold restart. apply startInLoop_sound. constructor; cbn; try done.
    + rewrite I1. unfold held. cbn. by destruct (state_ c).
    + rewrite I3. repeat case_decide; try done; naive_solver.
  - by apply P.
  - destruct (posted c) as [|[] l] eqn:Ep; [done| | |].
    + apply startInLoop_sound. by apply (Q FStartInLoop).
    + unfold stopInLoop. pose proof (Q FStopInLoop l ltac:(done) eq_refl) as S'.
      destruct (bool_decide_reflect (state_ (set_posted l c) = kConnecting)) as [Hs|]; [by apply R|done].
    + rewrite waiting_cons, decide_True in I3 by done. cbn in I3.
      destruct (decide (channel_ c = None \/ state_ c = kConnecting)) as [|Hd]; [lia|]. constructor; cbn; try done.
      * rewrite I1. unfold held. cbn. destruct (state_ c); try done. by destruct Hd; right.
      * intros Hs. by destruct Hd; right.
      * rewrite decide_True by auto. lia.
  - destruct (timers c) as [|d l]; [done|]. apply startInLoop_sound. by constructor.
  - unfold handleWrite. destruct (bool_decide_reflect (state_ c = kConnecting)) as [Hs|Hs].
    + pose proof (R kConnecting c S Hs) as R'. destruct (remove_sound kConnecting c S Hs) as (fd & c' & E & _ & L1 & L2 & L3 & L4).
      rewrite (Same Hs) in *. rewrite E in *. cbn [res_bind] in *.
      destruct (negb (err =? 0)); [done|]. destruct self; [done|]. cbn [sound_or_asserts].
      destruct (connect_ _); [|apply (close_sound fd kConnected c' L1 ltac:(done)); [by rewrite decide_False|done]].
      constructor; cbn; try done.
      * rewrite L1. unfold held. cbn. rewrite app_nil_r, app_assoc. by rewrite <-Permutation_cons_append.
      * rewrite L3, decide_False; [done|]. by intros [|].
    + by destruct (bool_decide _).
  - unfold handleError. destruct (bool_decide_reflect (state_ c = kConnecting)) as [Hs|]; [|done].
    pose proof (R kConnecting c S Hs) as R'. by rewrite (Same Hs) in R'.
Qed.

Lemma run_sound l c : sound c -> calls_ok l c -> sound_or_asserts (run l c).
Proof.
  revert c. induction l as [|ev l IH]; intros c S Hok; [done|]. destruct Hok as [H1 H2].
  pose proof (exec_sound ev c S H1) as X. unfold run. cbn [res_foldl].
  destruct (exec ev c) as [c'|x]; [|done]. by apply IH.
Qed.

(** ** What the loop brings *)

(** The events that the loop brings; the others are calls of member functions. *)
Definition from_loop (ev : event) : bool :=
  match ev with
  | EvFunctor _ _ | EvTimer _ _ | EvWrite _ _ | EvError => true
  | EvStart _ _ _ | EvRestart _ _ | EvStop => false
  end.

Lemma retry_fields fd c : delivered (retry fd c) = delivered c /\ state_ (retry fd c) = kDisconnected /\
  connect_ (retry fd c) = connect_ c /\ posted (retry fd c) = posted c.
Proof. unfold retry. cbn. destruct (connect_ c) eqn:E; cbn; by rewrite ?E. Qed.

Lemma startInLoop_delivered fd e c c' : startInLoop fd e c = Ok c' -> delivered c' = delivered c.
Proof.
  unfold startInLoop, connect, connecting. intros H. inv_ok. destruct (connect_ c); [|by inv_ok; subst].
  case_bool_decide; [inv_ok; by subst|]. case_bool_decide; inv_ok; subst; [|done].
  by destruct (retry_fields fd (open_ fd c)) as (-> & _).
Qed.

(** What starts is not connected yet. *)
Lemma startInLoop_state fd e c c' : startInLoop fd e c = Ok c' ->
  state_ c = kDisconnected /\ state_ c' <> kConnected.
Proof.
  unfold startInLoop, connect, connecting. intros H. inv_ok.
  match goal with H : assert_ _ = Ok ?x |- _ => destruct x; apply assert_Ok, bool_decide_eq_true in H end.
  destruct (connect_ c); [|inv_ok; subst; split; congruence]. split; [done|].
  case_bool_decide; [inv_ok; by subst|]. case_bool_decide; inv_ok; subst; cbn; [|congruence].
  destruct (retry_fields fd (open_ fd c)) as (_ & -> & _). done.
Qed.

(** A socket is handed over by an attempt that succeeds, one at a time; until
    then no event makes the connector connected. *)
Lemma exec_delivered ev c c' : inv c -> event_ok ev c -> from_loop ev = true -> exec ev c = Ok c' ->
  (delivered c' = delivered c /\ (state_ c = kConnected -> state_ c' = kConnected)) \/
  (exists fd, delivered c' = delivered c ++ [fd] /\ state_ c = kConnecting /\ state_ c' = kConnected /\
     connect_ c = true).
Proof.
  intros I Hok Hl H. destruct ev as [| | |fd e|fd e|err self|]; try done; cbn [exec event_ok] in *.
  - destruct (posted c) as [|[] l] eqn:Ep; [injection H as <-; by left|left..].
    + split; [exact (startInLoop_delivered _ _ _ _ H)|]. intros Hs.
      apply startInLoop_state in H as [Hd _]. cbn in Hd. congruence.
    + unfold stopInLoop in H. case_bool_decide as Hs; inv_ok; [|by subst].
      unfold removeAndResetChannel in *. destruct (channel_ _); [|done]. inv_ok. subst. inv_ok. subst.
      match goal with |- context [retry ?a ?b] => destruct (retry_fields a b) as (-> & -> & _) end.
      cbn in *. split; [done|congruence].
    + inv_ok. by subst.
  - destruct (timers c); [injection H as <-; by left|]. left.
    split; [exact (startInLoop_delivered _ _ _ _ H)|]. intros Hs.
    apply startInLoop_state in H as [Hd _]. cbn in Hd. congruence.
  - unfold handleWrite in H. case_bool_decide as Hs; [|inv_ok; left; subst; by split].
    inv_ok. unfold removeAndResetChannel in *. destruct (channel_ _) as [fd|]; [|done]. inv_ok. subst. inv_ok. subst.
    destruct (negb _); [|destruct self]; inv_ok; subst.
    1,2: left; match goal with |- context [retry ?a ?b] => destruct (retry_fields a b) as (-> & -> & _) end;
      (split; [done|congruence]).
    cbn [connect_ setState]. destruct (connect_ _) eqn:Ec; [right|by left].
    eexists. split; [reflexivity|]. done.
  - unfold handleError in H. case_bool_decide as Hs; [|inv_ok; left; by subst].
    unfold removeAndResetChannel in *. destruct (channel_ _) as [fd|]; [|done]. inv_ok. subst. inv_ok. subst.
    left. match goal with |- context [retry ?a ?b] => destruct (retry_fields a b) as (-> & -> & _) end.
    split; [done|congruence].
Qed.

(** A connector that has been stopped: it is not connecting, or will be told so. *)
Definition stopped (c : Connector) : Prop :=
  connect_ c = false /\ (state_ c = kConnecting -> FStopInLoop ∈ posted c).

Lemma exec_stopped ev c c' : stopped c -> from_loop ev = true -> exec ev c = Ok c' ->
  stopped c' /\ delivered c' = delivered c.
Proof.
  intros [Hc Hp] Hl H.
  assert (Hstart : forall l t fd e, startInLoop fd e (set_timers t (set_posted l c)) = Ok c' ->
            stopped c' /\ delivered c' = delivered c).
  { intros l t fd e Hs. pose proof (startInLoop_state _ _ _ _ Hs) as [Hd _]. unfold startInLoop in Hs.
    cbn [connect_ set_posted set_timers] in Hs. rewrite Hc in Hs. inv_ok. subst c'.
    split; [split; [done|]|done]. cbn in *. congruence. }
  destruct ev as [| | |fd e|fd e|err self|]; try done; cbn [exec] in *.
  - destruct (posted c) as [|[] l] eqn:Ep; [injection H as <-; split; [split|]; by rewrite ?Ep| | |].
    + apply (Hstart l (timers c) fd e). by destruct c.
    + unfold stopInLoop in H. case_bool_decide as Hs; inv_ok.
      2:{ subst. split; [split; [done|intros Hk; by destruct Hs]|done]. }
      unfold removeAndResetChannel in *. destruct (channel_ _); [|done]. inv_ok. subst. inv_ok. subst.
      match goal with |- context [retry ?a ?b] =>
        destruct (retry_fields a b) as (F1 & F2 & F3 & _) end.
      split; [split; [by rewrite F3|by rewrite F2]|by rewrite F1].
    + inv_ok. subst. split; [split; [done|]|done]. intros Hs. specialize (Hp Hs).
      by apply elem_of_cons in Hp as [|].
  - destruct (timers c) as [|t l] eqn:Et; [injection H as <-; by split|].
    apply (Hstart (posted c) l fd e). by destruct c.
  - unfold handleWrite in H. case_bool_decide as Hs; [|inv_ok; by subst].
    inv_ok. unfold removeAndResetChannel in *. destruct (channel_ _) as [fd|]; [|done]. inv_ok. subst. inv_ok. subst.
    destruct (negb _); [|destruct self]; inv_ok; subst.
    1,2: match goal with |- context [retry ?a ?b] => destruct (retry_fields a b) as (F1 & F2 & F3 & _) end;
      (split; [split; [by rewrite F3|by rewrite F2]|by rewrite F1]).
    cbn [connect_ setState queueInLoop set_posted]. rewrite Hc. by split.
  - unfold handleError in H. case_bool_decide as Hs; [|inv_ok; by subst].
    unfold removeAndResetChannel in *. destruct (channel_ _) as [fd|]; [|done]. inv_ok. subst. inv_ok. subst.
    match goal with |- context [retry ?a ?b] => destruct (retry_fields a b) as (F1 & F2 & F3 & _) end.
    split; [split; [by rewrite F3|by rewrite F2]|by rewrite F1].
Qed.

(** With nothing left to run, the channel of a connector that is not connecting
    is gone. *)
Lemma inv_quiet c : inv c -> FResetChannel ∉ posted c -> state_ c <> kConnecting -> channel_ c = None.
Proof.
  intros I Hp%waiting_0 Hs. pose proof (inv_reset c I) as Hr. rewrite Hp in Hr.
  destruct (decide (channel_ c = None \/ _)) as [[]|]; done.
Qed.

(** ... and a connected one may be restarted. *)
Lemma inv_idle c : inv c -> state_ c = kConnected -> FResetChannel ∉ posted c -> idle c.
Proof.
  intros I Hs Hp. split; [apply inv_quiet; [done|done|congruence]|].
  pose proof (inv_one c I) as Ho. rewrite decide_False in Ho by congruence.
  split; [apply length_zero_iff_nil; lia|apply waiting_0; lia].
Qed.

(** ** Properties *)

(** C25: Through every sequence of events, whatever the system calls return and
    whenever [start], [stop] and [restart] are called (the last not in the middle
    of an attempt), no socket is leaked or closed twice: each socket the connector
    opened is, exactly once, among those it closed, those it handed over to its
    client, or the one whose attempt is under way; the retry delay stays between
    half a second and thirty seconds; and nothing worse happens than that an
    assertion fails.  None fails, and at most one attempt is ever due, if [start]
    and [restart] are only called when no attempt, timer or start is pending
    ([events_ok]); otherwise one may ([restart_before_timer_aborts]). *)
Theorem connector_sockets_accounted l (H : calls_ok l Connector_new) :
  match run l Connector_new with
  | Ok c =>
      opened c ≡ₚ closed c ++ delivered c ++ held c /\
      (state_ c <> kConnecting -> held c = []) /\
      kInitRetryDelayMs <= retryDelayMs_ c <= kMaxRetryDelayMs
  | Err x => x = EAssert
  end /\
  (events_ok l Connector_new ->
     exists c, run l Connector_new = Ok c /\
       (length (timers c) + waiting FStartInLoop (posted c) <= 1)%nat).
Proof.
  split.
  - assert (S0 : sound Connector_new) by (destruct connector_new_inv; by constructor).
    pose proof (run_sound l _ S0 H) as S. destruct (run l Connector_new) as [c|x]; [|done].
    destruct S as [I1 I2 I3 I4]. split; [done|]. split; [|done].
    intros Hs. unfold held. by destruct (state_ c).
  - intros Hok. destruct (connector_run_inv l _ connector_new_inv Hok) as (c & E & I). exists c.
    split; [done|]. pose proof (inv_one c I). case_decide; lia.
Qed.

(** Refused, timed out with an error, connected to itself, stopped while
    connecting; then started anew and connected. *)
Definition sample_events : list event :=
  [EvStart true 5 ECONNREFUSED; EvTimer 6 EINPROGRESS; EvWrite 110 false; EvFunctor 0 0;
   EvTimer 7 0; EvWrite 0 true; EvFunctor 0 0; EvTimer 8 EINPROGRESS; EvStop; EvFunctor 0 0;
   EvFunctor 0 0; EvStart false 0 0; EvFunctor 9 EINPROGRESS; EvWrite 0 false; EvFunctor 0 0].

Lemma connector_sockets_accounted_witness :
  (exists c, run sample_events Connector_new = Ok c /\
    opened c ≡ₚ closed c ++ delivered c ++ held c /\ (length (timers c) + waiting FStartInLoop (posted c) <= 1)%nat) /\
  (* started anew before the timer of the first attempt has expired *)
  run [EvStart true 5 ECONNREFUSED; EvStop; EvFunctor 0 0; EvStart true 6 ECONNREFUSED; EvTimer 7 EINPROGRESS; EvTimer 8 0]
    Connector_new = Err EAssert.
Proof.
  destruct (connector_sockets_accounted sample_events) as [H1 H2]; [apply (bool_decide_unpack _); by vm_compute|].
  split; [|by vm_compute].
  destruct H2 as (c & E & H2); [apply (bool_decide_unpack _); by vm_compute|].
  rewrite E in H1. exists c. destruct H1 as (H1 & _). by split_and!.
Defined.

(** [n] attempts that are refused at once. *)
Definition refusals (fds : list Z) : list event :=
  match fds with
  | [] => []
  | fd :: fds' => EvStart true fd ECONNREFUSED :: map (fun fd => EvTimer fd ECONNREFUSED) fds'
  end.

Definition backoff (k : nat) : Z := Z.min (kInitRetryDelayMs * 2 ^ Z.of_nat k) kMaxRetryDelayMs.

Lemma backoff_S k : backoff (S k) = Z.min (backoff k * 2) kMaxRetryDelayMs.
Proof.
  unfold backoff, kInitRetryDelayMs, kMaxRetryDelayMs. rewrite Nat2Z.inj_succ, Z.pow_succ_r by lia. lia.
Qed.

Lemma refused_once fd c : state_ c = kDisconnected -> connect_ c = true ->
  startInLoop fd ECONNREFUSED c = Ok (retry fd (open_ fd c)).
Proof. intros Hs Hc. unfold startInLoop. by rewrite Hs, Hc. Qed.

Lemma stopInLoop_idle c : state_ c <> kConnecting -> stopInLoop c = Ok c.
Proof. intros Hs. unfold stopInLoop. by rewrite bool_decide_eq_false_2. Qed.

Lemma begun_once fd e c : state_ c = kDisconnected -> connect_ c = true -> channel_ c = None ->
  e = 0 \/ e = EINPROGRESS ->
  startInLoop fd e c = Ok (set_channel (Some fd) (setState kConnecting (open_ fd c))).
Proof.
  intros Hs Hc Hn He. unfold startInLoop, connect, connecting. cbn [channel_ setState open_].
  rewrite Hs, Hc, Hn. rewrite (bool_decide_eq_true_2 (e ∈ _)); [done|].
  destruct He as [->| ->]; apply (bool_decide_unpack _); by vm_compute.
Qed.

Lemma refused_run fds k c : state_ c = kDisconnected -> connect_ c = true -> length (timers c) = 1%nat ->
  retryDelayMs_ c = backoff k ->
  exists c', run (map (fun fd => EvTimer fd ECONNREFUSED) fds) c = Ok c' /\
    delays c' = delays c ++ map backoff (seq k (length fds)) /\ closed c' = closed c ++ fds.
Proof.
  revert k c. induction fds as [|fd fds IH]; intros k c Hs Hc Ht Hd.
  - exists c. cbn. by rewrite !app_nil_r.
  - destruct (timers c) as [|d [|]] eqn:Et; try done.
    unfold run. cbn [map res_foldl exec]. rewrite Et. cbn match.
    rewrite refused_once by done. cbn [res_bind].
    unfold retry. cbn [connect_ setState close_ open_ set_timers]. rewrite Hc.
    destruct (IH (S k) (set_delay (Z.min (retryDelayMs_ c * 2) kMaxRetryDelayMs)
      (runAfter (setState kDisconnected (close_ fd (open_ fd (set_timers [] c)))))))
      as (c' & E & H1 & H2); try done.
    + by rewrite backoff_S, <-Hd.
    + exists c'. split; [exact E|]. rewrite H1, H2. cbn. rewrite Hd, <-!app_assoc. done.
Qed.

(** Against a server that refuses every attempt, the connector waits 500 ms
    after the first, doubles the wait after each further one, and never waits
    more than 30 s; every socket is closed. *)
Theorem retry_backoff (fd : Z) (fds : list Z) :
  exists c, run (refusals (fd :: fds)) Connector_new = Ok c /\
    delays c = map (fun k => Z.min (500 * 2 ^ Z.of_nat k) 30000) (seq 0 (length (fd :: fds))) /\
    closed c = fd :: fds.
Proof.
  unfold run, refusals. cbn [res_foldl exec start]. rewrite refused_once by done. cbn [res_bind].
  destruct (refused_run fds 1 (retry fd (open_ fd (set_connect true Connector_new))))
    as (c & E & H1 & H2); try done.
  exists c. split; [exact E|]. rewrite H1, H2. done.
Qed.

(** A connector that is stopped while it waits to retry, and started again
    before that timer expires, does not cancel the timer: if the new attempt
    is under way or has connected when it expires, [startInLoop]'s assertion
    fails. *)
Theorem restart_before_timer_aborts (c : Connector) (fd fd1 fd2 e e2 : Z) (connected : bool)
  (Hs : state_ c = kDisconnected) (Hi : idle c) (Hp : posted c = [])
  (He : e = 0 \/ e = EINPROGRESS) :
  exists c', run ([EvStart true fd ECONNREFUSED; EvStop; EvFunctor 0 0; EvStart true fd1 e] ++
                  (if connected then [EvWrite 0 false] else [])) c = Ok c' /\
    state_ c' = (if connected then kConnected else kConnecting) /\
    exec (EvTimer fd2 e2) c' = Err EAssert.
Proof.
  destruct Hi as (Hc & Ht & _). destruct c as [b s ch d p tm o cl dl ds]. cbn in *. subst.
  unfold run. cbn [app res_foldl exec start]. rewrite refused_once by done. cbn [res_bind].
  cbn -[startInLoop stopInLoop handleWrite]. rewrite stopInLoop_idle by done. cbn [res_bind].
  rewrite begun_once by done. cbn [res_bind].
  destruct connected; cbn -[startInLoop]; (eexists; split; [reflexivity|]; split; [reflexivity|]);
    cbn -[startInLoop]; unfold startInLoop; cbn [state_ set_timers]; by rewrite bool_decide_eq_false_2.
Qed.

Lemma restart_before_timer_aborts_witness :
  exists c', run [EvStart true 5 ECONNREFUSED; EvStop; EvFunctor 0 0; EvStart true 6 EINPROGRESS]
               Connector_new = Ok c' /\
    state_ c' = kConnecting /\ exec (EvTimer 7 0) c' = Err EAssert.
Proof.
  apply (restart_before_timer_aborts Connector_new 5 6 7 EINPROGRESS 0 false).
  - done.
  - split; [done|]. split; [done|]. apply not_elem_of_nil.
  - done.
  - by right.
Defined.
