(* ===== verification/EventLoopThread.v ===== *)
(** * A thread with an event loop (cnet/net/EventLoopThread.h,
    EventLoopThread.cc)

    [startLoop] starts the thread and waits on a condition variable until the
    thread has made its loop, a variable of the function it runs; the destructor
    asks the loop to quit and joins the thread.  The loop is an [EventLoop], the
    thread a [Thread]; the steps are those of the owner and of the started
    thread, cut where one can see what the other does: [loop_] is read and
    written outside the mutex, and [quit()] writes to the loop twice. *)

From stdpp Require Import relations gmap.
From S2P Require Import Prelude Thread EventLoop.

(** Where the owner is: before [startLoop]; competing for the mutex, or waiting
    on the condition; past the critical section; [startLoop] has returned;
    the destructor has seen a loop, and has [quit_] to set; has the wakeup to
    write; is in [join()]; is done.  [Dangling]: it wrote to a loop that was
    destroyed. *)
Inductive owner_place : Type :=
| New | InStart | InWait | Started | Returned (loop : bool) | Quitting | Waking_ | Joining | Gone | Dangling.

(** Where the thread is: not started; in the constructor of the loop or in
    [callback_]; past the critical section, in [loop()] for as long as the loop
    is ([EventLoop.at_]); [loop_] is reset; the loop is destroyed. *)
Inductive worker_place : Set := NotRunning | Initialising | Serving | Cleared | Finished.

#[export] Instance owner_place_eq_dec : EqDecision owner_place.
Proof. solve_decision. Defined.
#[export] Instance worker_place_eq_dec : EqDecision worker_place.
Proof. solve_decision. Defined.

(** [loop_] points to the loop or is null.  [loop]: the variable of
    [threadFunc]. *)
Record EventLoopThread := mkELT {
  loop_ : bool;
  exiting_ : bool;
  thread_ : Thread;
  pthread_ : pthread;
  owner : owner_place;
  worker : worker_place;
  loop : EventLoop;
}.

Definition set_owner (o : owner_place) (s : EventLoopThread) : EventLoopThread :=
  mkELT (loop_ s) (exiting_ s) (thread_ s) (pthread_ s) o (worker s) (loop s).
Definition set_worker (w : worker_place) (s : EventLoopThread) : EventLoopThread :=
  mkELT (loop_ s) (exiting_ s) (thread_ s) (pthread_ s) (owner s) w (loop s).
Definition set_loop (l : EventLoop) (s : EventLoopThread) : EventLoopThread :=
  mkELT (loop_ s) (exiting_ s) (thread_ s) (pthread_ s) (owner s) (worker s) l.
Definition set_loop_ (b : bool) (s : EventLoopThread) : EventLoopThread :=
  mkELT b (exiting_ s) (thread_ s) (pthread_ s) (owner s) (worker s) (loop s).
Definition set_thread (t : Thread) (p : pthread) (s : EventLoopThread) : EventLoopThread :=
  mkELT (loop_ s) (exiting_ s) t p (owner s) (worker s) (loop s).

(** The constructor; [garbage] as in [EventLoop_new]. *)
Definition EventLoopThread_new (garbage : bool) (t : Thread) : EventLoopThread :=
  mkELT false false t NoThread New NotRunning (EventLoop_new garbage).

(** The loop exists from its constructor to the end of [threadFunc]. *)
Definition loop_alive (w : worker_place) : bool :=
  match w with Initialising | Serving | Cleared => true | _ => false end.

(** ** The owner *)

(** [startLoop], up to the critical section: the new thread runs. *)
Definition startLoop (s : EventLoopThread) : res EventLoopThread :=
  assert! negb (Thread.started_ (thread_ s));
  let* (t, p) := Thread.start true (thread_ s) (pthread_ s) in
  Ok (set_owner InStart (set_worker Initialising (set_thread t p s))).

(** The test of the [while], in the mutex. *)
Definition start_test (s : EventLoopThread) : EventLoopThread :=
  set_owner (if loop_ s then Started else InWait) s.
(** [return loop_;] *)
Definition start_return (s : EventLoopThread) : EventLoopThread := set_owner (Returned (loop_ s)) s.

(** The destructor up to the test of [loop_]; without a loop only the
    destructor of [thread_] is left. *)
Definition destroy (s : EventLoopThread) : res EventLoopThread :=
  let s := mkELT (loop_ s) true (thread_ s) (pthread_ s) (owner s) (worker s) (loop s) in
  if loop_ s then Ok (set_owner Quitting s)
  else
    let* p := Thread_delete (thread_ s) (pthread_ s) in
    Ok (set_owner Gone (set_thread (thread_ s) p s)).

(** The two halves of [loop_->quit()]. *)
Definition quit_set (s : EventLoopThread) : EventLoopThread :=
  if loop_alive (worker s)
  then set_owner Waking_ (set_loop (set_owing (set_quit (loop s) QUITED) (S (owing (loop s)))) s)
  else set_owner Dangling s.
Definition quit_wakeup (s : EventLoopThread) : EventLoopThread :=
  if loop_alive (worker s)
  then set_owner Joining (set_loop (set_owing (wakeup (loop s)) (pred (owing (loop s)))) s)
  else set_owner Dangling s.

(** [thread_.join()], which returns once the thread is finished. *)
Definition join_thread (s : EventLoopThread) : res EventLoopThread :=
  let* (t, p) := Thread.join (thread_ s) (pthread_ s) in
  let* p := Thread_delete t p in
  Ok (set_owner Gone (set_thread t p s)).

(** ** The thread *)

(** [threadFunc]: [loop_ = &loop; cond_.notify();] *)
Definition publish (s : EventLoopThread) : EventLoopThread :=
  let s := set_worker Serving (set_loop_ true s) in
  match owner s with InWait => set_owner InStart s | _ => s end.
(** [loop_ = NULL;] after [loop()]; the loop is destroyed. *)
Definition clear (s : EventLoopThread) : EventLoopThread := set_worker Cleared (set_loop_ false s).
Definition end_func (s : EventLoopThread) : EventLoopThread := set_worker Finished s.

(** A step of the loop, or of somebody that uses it, as long as it exists: no
    [loop()] before the thread is there, and nobody does the owner's wakeup for
    it.  [others]: may somebody else than the destructor call [quit()]? *)
Definition loop_step (others : bool) (s : EventLoopThread) (l : EventLoop) : Prop :=
  loop_alive (worker s) = true /\ EventLoop.step (loop s) l /\
  (worker s = Initialising -> at_ l = Idle) /\
  (owner s = Waking_ -> (0 < owing l)%nat) /\
  (others = false -> quit_ l = QUITED -> quit_ (loop s) = QUITED).

Inductive step (others : bool) (s : EventLoopThread) : EventLoopThread -> Prop :=
| step_startLoop s' : owner s = New -> startLoop s = Ok s' -> step others s s'
| step_test : owner s = InStart -> step others s (start_test s)
| step_spurious : owner s = InWait -> step others s (set_owner InStart s)
| step_return : owner s = Started -> step others s (start_return s)
| step_destroy s' : owner s = New \/ (exists b, owner s = Returned b) -> destroy s = Ok s' -> step others s s'
| step_quit_set : owner s = Quitting -> step others s (quit_set s)
| step_quit_wakeup : owner s = Waking_ -> step others s (quit_wakeup s)
| step_join s' : owner s = Joining -> worker s = Finished -> join_thread s = Ok s' -> step others s s'
| step_publish : worker s = Initialising -> step others s (publish s)
| step_loop l : loop_step others s l -> step others s (set_loop l s)
| step_clear : worker s = Serving -> at_ (loop s) = Exited -> step others s (clear s)
| step_end : worker s = Cleared -> step others s (end_func s).

(** From a new [Thread] made by its constructor. *)
Inductive reachable (others garbage : bool) : EventLoopThread -> Prop :=
| reach_new t : Thread.started_ t = false -> Thread.joined_ t = false ->
    reachable others garbage (EventLoopThread_new garbage t)
| reach_step s s' : reachable others garbage s -> step others s s' -> reachable others garbage s'.

(** ** What a loop does once it is asked to quit *)

(** The next move of the loop's own thread, callbacks that queue nothing. *)
Definition own_move (l : EventLoop) : option EventLoop :=
  match at_ l with
  | Idle => match loop_start l true with Ok l' => Some l' | Err _ => None end
  | Starting => Some (loop_running l)
  | Check_ => Some (if bool_decide (quit_ l = RUNNING) then set_at l Polling else loop_end l)
  | Polling => Some (poll_returned l)
  | Handling true => Some (set_at (handleRead l) (Handling false))
  | Handling false => Some (begin_pending l)
  | Swapping => Some (swap_pending l)
  | Running (f :: fs) => Some (run_functor l f fs)
  | Running [] => Some (end_pending l)
  | Exited => None
  end.

(** The number of moves until [loop()] returns, [quit_] being set, and not about
    to be overwritten. *)
Definition distance (l : EventLoop) : nat :=
  match at_ l with
  | Idle => 2
  | Check_ | Starting => 1
  | Running fs => length fs + 2
  | Swapping => length (pendingFunctors_ l) + 3
  | Handling b => length (pendingFunctors_ l) + (if b then 5 else 4)
  | Polling => length (pendingFunctors_ l) + 6
  | Exited => 0
  end.

Lemma own_move_step l l' : own_move l = Some l' -> EventLoop.step l l'.
Proof.
  unfold own_move. destruct (at_ l) as [| | | |[]| |[|f fs]|] eqn:Ha; try (intros [= <-]; by constructor); try done.
  - destruct (loop_start l true) eqn:E; [|done]. intros [= <-]. by eapply step_start.
  - intros [= <-]. case_bool_decide; by constructor.
Qed.

Record quit_inv (l : EventLoop) : Prop := mkQuitInv {
  qi_idle : at_ l = Idle -> looping_ l = false;
  qi_created : at_ l <> Idle -> at_ l <> Starting -> quit_ l <> CREATED;
  qi_exited : at_ l = Exited -> quit_ l = QUITED;
}.

Lemma loop_start_Ok l l' : loop_start l true = Ok l' ->
  quit_ l' = quit_ l /\ at_ l' = match quit_ l with CREATED => Starting | _ => Check_ end.
Proof. unfold loop_start. destruct (negb (looping_ l)); [|done]. by intros [= <-]. Qed.

Lemma step_quit_inv l l' : quit_inv l -> EventLoop.step l l' -> quit_inv l'.
Proof.
  intros [I1 I2 I3] S. destruct S; try (unfold queueInLoop, quit; repeat case_match); try (by constructor);
    try (constructor; cbn; (done || intros; first [apply I1 | apply I2 | apply I3]; congruence)).
  - match goal with H : loop_start _ _ = Ok _ |- _ => apply loop_start_Ok in H as [E1 E2] end.
    constructor; rewrite E2, ?E1; destruct (quit_ l); done.
  - constructor; cbn; try done; intros _; destruct (quit_ l) eqn:Eq; try done; exfalso; apply I2; congruence.
Qed.

Lemma reachable_quit_inv g l : EventLoop.reachable g l -> quit_inv l.
Proof. induction 1; [by constructor|by eapply step_quit_inv]. Qed.

(** The loop has been asked to quit, and has not a test behind it that is older
    than the question. *)
Definition heard (l : EventLoop) : Prop := quit_ l = QUITED /\ at_ l <> Starting.

(** Then it stays so. *)
Lemma step_heard l l' : EventLoop.step l l' -> heard l -> heard l'.
Proof.
  intros S [Hq Ha]. destruct S; try (unfold queueInLoop, quit; repeat case_match); try (by split); try (split; cbn; congruence).
  match goal with H : loop_start _ _ = Ok _ |- _ => apply loop_start_Ok in H as [E1 E2] end.
  split; [congruence|]. rewrite E2, Hq. done.
Qed.

Lemma own_move_closer l : quit_inv l -> heard l -> at_ l <> Exited ->
  exists l', own_move l = Some l' /\ (distance l' < distance l)%nat.
Proof.
  intros [I1 I2 I3] [Hq Hs] Ha. unfold own_move, distance.
  destruct (at_ l) as [| | | |[]| |[|f fs]|] eqn:Ea; try done; rewrite ?Hq;
    try (eexists; split; [done|]; cbn; (done || lia)).
  - unfold loop_start. rewrite I1, Hq by done. eexists. split; [done|]. cbn. lia.
  - rewrite bool_decide_eq_false_2 by done. eexists. split; [done|]. cbn. lia.
  - eexists. split; [done|]. cbn. destruct (0 <? eventfd_ l); lia.
Qed.

(** The loop's thread leaves [loop()] by its own moves. *)
Lemma quit_terminates (n : nat) l : (distance l <= n)%nat -> quit_inv l -> heard l ->
  exists l', rtc (fun a b => own_move a = Some b) l l' /\ at_ l' = Exited.
Proof.
  revert l. induction n as [|n IH]; intros l Hd I Hq;
    assert (at_ l = Exited \/ at_ l <> Exited) as [Hx|Hx] by (destruct (at_ l); auto).
  1, 3: by exists l.
  - unfold distance in Hd. destruct (at_ l) as [| | | |[]| | |]; done || lia.
  - destruct (own_move_closer l I Hq Hx) as (l1 & E & Hlt).
    destruct (IH l1) as (l2 & R & Hx2); [lia|by eapply step_quit_inv, own_move_step|by eapply step_heard, Hq; apply own_move_step|].
    exists l2. split; [|done]. by eapply rtc_l.
Qed.

(** ** The invariant, when only the destructor calls [quit()] *)

Definition placed (o : owner_place) (w : worker_place) (b : bool) : Prop :=
  match o with
  | New => w = NotRunning /\ b = false
  | InStart => (w = Initialising /\ b = false) \/ (w = Serving /\ b = true)
  | InWait => w = Initialising /\ b = false
  | Started | Quitting | Returned true => w = Serving /\ b = true
  | Returned false => False
  | Waking_ | Joining => w = Serving \/ w = Cleared \/ w = Finished
  | Gone => w = NotRunning \/ w = Finished
  | Dangling => w = Finished
  end.

Definition asked (o : owner_place) : Prop :=
  match o with Waking_ | Joining | Gone | Dangling => True | _ => False end.

(** The state of the thread and of its pthread. *)
Definition thread_at (o : owner_place) (w : worker_place) (t : Thread) (p : pthread) : Prop :=
  match o with
  | New => Thread.started_ t = false /\ Thread.joined_ t = false /\ p = NoThread
  | Gone => (w = NotRunning /\ p = NoThread) \/ (w = Finished /\ p = Joined)
  | _ => Thread.started_ t = true /\ Thread.joined_ t = false /\ p = Joinable
  end.

Record inv (g : bool) (s : EventLoopThread) : Prop := mkInv {
  inv_loop : EventLoop.reachable g (loop s);
  inv_idle : worker s = NotRunning \/ worker s = Initialising -> at_ (loop s) = Idle;
  inv_quit : quit_ (loop s) = QUITED -> asked (owner s);
  inv_placed : placed (owner s) (worker s) (loop_ s);
  inv_owing : owner s = Waking_ -> (0 < owing (loop s))%nat;
  inv_thread : thread_at (owner s) (worker s) (thread_ s) (pthread_ s);
}.

Lemma startLoop_inv g s s' : inv g s -> owner s = New -> startLoop s = Ok s' -> inv g s'.
Proof.
  intros [I1 I2 I3 I5 I6 I7] Ho E. rewrite Ho in *. destruct I7 as (T1 & T2 & T3), I5 as [W L].
  unfold startLoop, Thread.start in E. rewrite T1 in E. cbn in E. injection E as <-.
  constructor; cbn; try done; auto; naive_solver.
Qed.

Lemma destroy_inv g s s' : inv g s -> owner s = New \/ (exists b, owner s = Returned b) -> destroy s = Ok s' -> inv g s'.
Proof.
  intros [I1 I2 I3 I5 I6 I7] Ho E. unfold destroy in E. cbn [loop_ thread_ pthread_] in E.
  destruct Ho as [Ho|[b Ho]]; rewrite Ho in *; cbn in I5, I7.
  - destruct I7 as (T1 & T2 & T3), I5 as [W L]. rewrite L in E. unfold Thread_delete in E. rewrite T1, T3 in E.
    cbn in E. injection E as <-. constructor; cbn; try done; auto; naive_solver.
  - destruct b; [|done]. destruct I5 as [W L]. rewrite L in E. injection E as <-.
    constructor; cbn; try done; auto; naive_solver.
Qed.

Lemma join_inv g s s' : inv g s -> owner s = Joining -> worker s = Finished -> join_thread s = Ok s' -> inv g s'.
Proof.
  intros [I1 I2 I3 I5 I6 I7] Ho Hw E. rewrite Ho in *. destruct I7 as (T1 & T2 & T3).
  unfold join_thread, Thread.join, Thread_delete in E. rewrite T1, T2, T3 in E. cbn in E.
  injection E as <-. constructor; cbn; try done; auto.
Qed.

Lemma publish_inv g s : inv g s -> worker s = Initialising -> inv g (publish s).
Proof.
  intros [I1 I2 I3 I5 I6 I7] Hw. unfold publish. destruct s as [b e t p o w l]. cbn in *. subst w.
  destruct o as [| | | |[]| | | | |]; cbn in *; try naive_solver; constructor; cbn; try done; naive_solver.
Qed.

Lemma loop_step_inv g s l : inv g s -> loop_step false s l -> inv g (set_loop l s).
Proof.
  intros [I1 I2 I3 I5 I6 I7] (Ha & S & Hi & Hw & Hq). constructor; cbn; try done.
  - by eapply EventLoop.reach_step.
  - intros [E|E]; [|by apply Hi]. by rewrite E in Ha.
  - intros Q. by apply I3, Hq.
Qed.

Lemma clear_inv g s : inv g s -> worker s = Serving -> at_ (loop s) = Exited -> inv g (clear s).
Proof.
  intros [I1 I2 I3 I5 I6 I7] Hw Hx.
  pose proof (I3 (qi_exited _ (reachable_quit_inv _ _ I1) Hx)) as Ha.
  destruct s as [b e t p o w l]. cbn in *. subst w.
  destruct o as [| | | |[]| | | | |]; try done; constructor; cbn; try done; naive_solver.
Qed.

Lemma quit_inv_steps g s : inv g s -> (owner s = Quitting -> inv g (quit_set s)) /\ (owner s = Waking_ -> inv g (quit_wakeup s)).
Proof.
  intros [I1 I2 I3 I5 I6 I7]. destruct s as [b e t p o w l]. cbn in *. split; intros ->; cbn in *.
  - destruct I5 as [-> ->]. constructor; cbn; try done; try lia; try naive_solver.
    by eapply EventLoop.reach_step, step_other_quit.
  - specialize (I6 eq_refl). destruct (owing l) as [|n] eqn:Eo; [lia|].
    unfold quit_wakeup. cbn. rewrite Eo. cbn.
    destruct I5 as [->|[->| ->]]; cbn; constructor; cbn; try done; try lia; try naive_solver.
    all: by eapply EventLoop.reach_step, step_other_wakeup.
Qed.

Lemma elt_step_inv g s s' : inv g s -> step false s s' -> inv g s'.
Proof.
  intros I S. pose proof I as [I1 I2 I3 I5 I6 I7].
  destruct S as [s' Ho E|Ho|Ho|Ho|s' Ho E|Ho|Ho|s' Ho Hw E|Hw|l Hl|Hw Hx|Hw].
  - by eapply startLoop_inv.
  - rewrite Ho in *. unfold start_test. destruct I5 as [[W L]|[W L]]; rewrite L; constructor; cbn; try done; naive_solver.
  - rewrite Ho in *. constructor; cbn; try done; naive_solver.
  - rewrite Ho in *. unfold start_return. destruct I5 as [W L]. rewrite L. constructor; cbn; try done; naive_solver.
  - by eapply destroy_inv.
  - by apply quit_inv_steps.
  - by apply quit_inv_steps.
  - by eapply join_inv.
  - by apply publish_inv.
  - by apply loop_step_inv.
  - by apply clear_inv.
  - destruct s as [b e t p o w l]. cbn in *. subst w. destruct o as [| | | |[]| | | | |]; cbn in *;
      constructor; cbn; try done; naive_solver.
Qed.

Lemma elt_inv g s : reachable false g s -> inv g s.
Proof.
  induction 1 as [t Hs Hj|s s' _ IH S]; [|by eapply elt_step_inv].
  constructor; cbn; try done. apply EventLoop.reach_new.
Qed.

(** ** Progress *)

Lemma own_moves_steps s l : owner s = Joining -> worker s = Serving -> quit_inv (loop s) -> heard (loop s) ->
  rtc (fun a b => own_move a = Some b) (loop s) l -> rtc (step false) s (set_loop l s).
Proof.
  intros Ho Hw I Hq R. remember (loop s) as l0 eqn:E0. revert s Ho Hw E0. induction R as [l0|l0 l1 l2 E R IH]; intros s Ho Hw E0.
  - rewrite E0. by destruct s.
  - assert (S : EventLoop.step l0 l1) by by apply own_move_step.
    assert (Hq1 : heard l1) by (by eapply step_heard).
    eapply rtc_l; [apply (step_loop false s l1)|].
    + rewrite E0 in S, Hq. split; [by rewrite Hw|]. destruct Hq. split_and!; try done; intros E1; [by rewrite Hw in E1|by rewrite Ho in E1].
    + assert (Hs : set_loop l2 s = set_loop l2 (set_loop l1 s)) by done. rewrite Hs.
      apply IH; try done. by eapply step_quit_inv.
Qed.

(** [join()] returns, if the question was heard. *)
Lemma join_returns g s : inv g s -> owner s = Joining -> heard (loop s) ->
  exists s', rtc (step false) s s' /\ owner s' = Gone /\ pthread_ s' = Joined.
Proof.
  intros I Ho Hq. pose proof I as [I1 I2 I3 I5 I6 I7]. rewrite Ho in I5.
  assert (Hfin : forall s, inv g s -> owner s = Joining -> worker s = Finished ->
    exists s', rtc (step false) s s' /\ owner s' = Gone /\ pthread_ s' = Joined).
  { clear. intros s [_ _ _ _ _ I7] Ho Hw. rewrite Ho in I7. destruct I7 as (T1 & T2 & T3).
    eexists. split; [apply rtc_once; eapply step_join; try done|].
    - unfold join_thread, Thread.join, Thread_delete. rewrite T1, T2, T3. cbn. reflexivity.
    - done. }
  assert (Hclr : forall s, inv g s -> owner s = Joining -> worker s = Cleared ->
    exists s', rtc (step false) s s' /\ owner s' = Gone /\ pthread_ s' = Joined).
  { clear -Hfin. intros s I Ho Hw. pose proof (step_end false s Hw) as S.
    destruct (Hfin _ (elt_step_inv _ _ _ I S)) as (s' & R & H); [done..|]. exists s'. split; [|done]. by eapply rtc_l. }
  destruct I5 as [Hw|[Hw|Hw]]; eauto.
  assert (Qi := reachable_quit_inv _ _ I1).
  destruct (quit_terminates _ _ (le_n _) Qi Hq) as (l & R & Hx).
  pose proof (own_moves_steps s l Ho Hw Qi Hq R) as R1.
  assert (I' : inv g (set_loop l s)).
  { clear -I R1. induction R1 as [|? ? ? S _ IH]; [done|]. eapply IH, elt_step_inv; eassumption. }
  pose proof (step_clear false (set_loop l s) Hw Hx) as S.
  destruct (Hclr _ (elt_step_inv _ _ _ I' S)) as (s' & R2 & H); [done..|]. exists s'. split; [|done].
  etrans; [exact R1|]. by eapply rtc_l.
Qed.

Lemma startLoop_returns g s : inv g s -> owner s = InStart \/ owner s = InWait \/ owner s = Started ->
  exists s', rtc (step false) s s' /\ owner s' = Returned true.
Proof.
  intros I Ho. pose proof (inv_placed g s I) as I5. destruct s as [b e t p o w l]. cbn in *.
  assert (H3 : forall e t p l, exists s', rtc (step false) (mkELT true e t p Started Serving l) s' /\ owner s' = Returned true).
  { intros. eexists. split; [by apply rtc_once, step_return|]. done. }
  assert (H2 : forall e t p l, exists s', rtc (step false) (mkELT true e t p InStart Serving l) s' /\ owner s' = Returned true).
  { intros e' t' p' l'. destruct (H3 e' t' p' l') as (s' & R & H). exists s'. split; [|done].
    eapply rtc_l; [by apply step_test|]. exact R. }
  assert (H1 : forall o e t p l, o = InStart \/ o = InWait ->
    exists s', rtc (step false) (mkELT false e t p o Initialising l) s' /\ owner s' = Returned true).
  { intros o' e' t' p' l' Ho'. destruct (H2 e' t' p' l') as (s' & R & H). exists s'. split; [|done].
    eapply rtc_l; [by apply step_publish|]. destruct Ho' as [->| ->]; exact R. }
  destruct Ho as [->|[->| ->]]; cbn in I5; naive_solver.
Qed.

Lemma rtc_heard s s' : heard (loop s) -> rtc (step false) s s' -> heard (loop s').
Proof.
  intros H R. induction R as [|s s1 s2 S _ IH]; [done|]. apply IH. clear IH.
  destruct S as [s1 Ho E|Ho|Ho|Ho|s1 Ho E|Ho|Ho|s1 Ho Hw E|Hw|l Hl|Hw Hx|Hw]; try done.
  - unfold startLoop in E. inv_ok. repeat case_match. inv_ok. by subst.
  - unfold destroy in E. cbn [loop_ thread_ pthread_] in E. destruct (loop_ s); inv_ok; by subst.
  - destruct H. unfold quit_set. destruct (loop_alive _); by split.
  - unfold quit_wakeup. by destruct (loop_alive _).
  - unfold join_thread in E. inv_ok. repeat case_match. inv_ok. by subst.
  - unfold publish. cbn. by destruct (owner s).
  - destruct Hl as (_ & S & _). by eapply step_heard.
Qed.

(** The question was asked between the test and the assignment of [loop()], and
    is or will be overwritten. *)
Definition unheard (s : EventLoopThread) : Prop :=
  (owner s = Waking_ \/ owner s = Joining) /\ worker s = Serving /\
  (at_ (loop s) = Starting \/ (quit_ (loop s) = RUNNING /\ at_ (loop s) <> Idle /\ at_ (loop s) <> Exited)).

Lemma loop_unheard l l' : EventLoop.step l l' -> (quit_ l' = QUITED -> quit_ l = QUITED) ->
  at_ l = Starting \/ (quit_ l = RUNNING /\ at_ l <> Idle /\ at_ l <> Exited) ->
  at_ l' = Starting \/ (quit_ l' = RUNNING /\ at_ l' <> Idle /\ at_ l' <> Exited).
Proof.
  intros S Hq U. destruct S; try (unfold queueInLoop, quit; repeat case_match); cbn in *; try done;
    try (destruct U as [U|(U1 & U2 & U3)]; [first [by left|congruence|by right; split_and!]|right; split_and!; congruence]).
  all: destruct U as [U|(U1 & _)]; [by left|]; specialize (Hq eq_refl); congruence.
Qed.

Lemma step_unheard s s' : step false s s' -> unheard s -> unheard s'.
Proof.
  intros S (Ho' & Hw' & Hl'). destruct S as [s1 Ho E|Ho|Ho|Ho|s1 Ho E|Ho|Ho|s1 Ho Hw E|Hw|l Hl|Hw Hx|Hw];
    try (destruct Ho'; congruence); try congruence.
  - destruct Ho as [Ho|[? Ho]], Ho'; congruence.
  - unfold quit_wakeup. rewrite Hw'. cbn. split; [by right|]. by split.
  - destruct Hl as (_ & S & _ & _ & Hq). split; [done|]. split; [done|]. cbn.
    eapply loop_unheard; [exact S|by apply Hq|done].
  - exfalso. destruct Hl' as [|(_ & _ & ?)]; congruence.
Qed.

Lemma rtc_unheard s s' : rtc (step false) s s' -> unheard s -> unheard s'.
Proof. induction 1; [done|]. eauto using step_unheard. Qed.

(** ** What can go wrong *)

Lemma reachable_rtc others g s s' : reachable others g s -> rtc (step others) s s' -> reachable others g s'.
Proof. intros H R. induction R; [done|]. by eauto using reach_step. Qed.

(** Runs the two threads forward: the argument proves the next step. *)
Tactic Notation "run" hyp(R) tactic3(T) := eapply reach_step in R; [|T]; cbn in R.

(** The loop may see [quit_] and be destroyed before [quit()] has written the
    wakeup, which then goes to an object that is no more: nobody but the
    destructor is needed for it. *)
Theorem quit_races_with_loop : exists s, reachable false false s /\ owner s = Dangling.
Proof.
  pose proof (reach_new false false (mkThread false false 0 []) eq_refl eq_refl) as R.
  run R (eapply step_startLoop; reflexivity). run R (by apply step_publish). run R (by apply step_test).
  run R (by apply step_return). run R (eapply step_destroy; [eauto|reflexivity]). run R (by apply step_quit_set).
  assert (exists l, reachable false false (mkELT true true (mkThread true false 0 []) Joinable Waking_ Serving l) /\ at_ l = Exited)
    as (l & R1 & Hl).
  { eexists. split.
    - eapply reach_step; [eapply reach_step; [exact R|]|]; eapply step_loop.
      + split; [done|]. split; [by eapply EventLoop.step_start|]. split_and!; done || (cbn; lia).
      + split; [done|]. split; [by apply step_leave|]. split_and!; done || (cbn; lia).
    - done. }
  run R1 (by apply step_clear). run R1 (by apply step_end). run R1 (by apply step_quit_wakeup).
  eexists. split; [exact R1|done].
Qed.

(** If somebody else makes the loop quit first, [loop_] may be null again before
    the owner has looked: then [startLoop] never returns. *)
Lemma hangs_step s s' : (owner s = InStart \/ owner s = InWait) /\ (worker s = Cleared \/ worker s = Finished) /\ loop_ s = false ->
  step true s s' ->
  (owner s' = InStart \/ owner s' = InWait) /\ (worker s' = Cleared \/ worker s' = Finished) /\ loop_ s' = false.
Proof.
  intros (Ho & Hw & Hl) S. destruct S; cbn; try naive_solver; try (destruct Ho as [Ho|Ho], Hw as [Hw|Hw]; congruence).
  - rewrite Hl. auto.
  - destruct Ho as [Ho|Ho], H as [H|[b H]]; congruence.
Qed.

Theorem startLoop_hangs : exists s, reachable true false s /\ owner s = InWait /\
  forall s', rtc (step true) s s' -> owner s' = InStart \/ owner s' = InWait.
Proof.
  pose proof (reach_new true false (mkThread false false 0 []) eq_refl eq_refl) as R.
  run R (eapply step_startLoop; reflexivity). run R (by apply step_publish).
  assert (exists l, reachable true false (mkELT true false (mkThread true false 0 []) Joinable InStart Serving l) /\ at_ l = Exited)
    as (l & R1 & Hl).
  { eexists. split.
    - eapply reach_step; [eapply reach_step; [eapply reach_step; [exact R|]|]|].
      + apply step_loop. split; [done|]. split; [by eapply step_other_quit|]. by split_and!.
      + apply step_loop. split; [done|]. split; [by eapply EventLoop.step_start|]. by split_and!.
      + eapply step_loop. split; [done|]. split; [by apply step_leave|]. by split_and!.
    - done. }
  run R1 (by apply step_clear). run R1 (by apply step_test).
  eexists. split; [exact R1|]. split; [done|]. intros s' R'.
  assert (H : forall s, rtc (step true) s s' ->
    (owner s = InStart \/ owner s = InWait) /\ (worker s = Cleared \/ worker s = Finished) /\ loop_ s = false ->
    owner s' = InStart \/ owner s' = InWait).
  { clear. induction 1 as [s|s1 s2 s3 S _ IH]; [naive_solver|]. intros H. by eapply IH, hangs_step. }
  eapply H; [exact R'|]. cbn. auto.
Qed.

(** The owner may ask just then, between the test and the assignment, and hang. *)
Theorem join_hangs : exists s, reachable false false s /\ owner s = Joining /\
  forall s', rtc (step false) s s' -> owner s' = Joining.
Proof.
  pose proof (reach_new false false (mkThread false false 0 []) eq_refl eq_refl) as R.
  run R (eapply step_startLoop; reflexivity). run R (by apply step_publish). run R (by apply step_test).
  run R (by apply step_return). run R (eapply step_destroy; [eauto|reflexivity]).
  assert (exists l, reachable false false (mkELT true true (mkThread true false 0 []) Joinable Quitting Serving l) /\ at_ l = Starting)
    as (l & R1 & Hl).
  { eexists. split; [|shelve]. eapply reach_step; [exact R|]. eapply step_loop.
    split; [done|]. split; [by eapply EventLoop.step_start|]. by split_and!. Unshelve. done. }
  run R1 (by apply step_quit_set). run R1 (by apply step_quit_wakeup).
  eexists. split; [exact R1|]. split; [done|]. intros s' R'.
  assert (forall s, rtc (step false) s s' -> unheard s -> owner s = Joining -> owner s' = Joining) as G.
  { clear. intros s R'. induction R' as [s|s1 s2 s3 S _ IH]; [done|]. intros U Ho. apply IH; [by eapply step_unheard|].
    destruct U as (_ & Hw & _). destruct S; cbn; try congruence; try done.
    match goal with H : _ \/ _ |- _ => destruct H as [H|[b H]]; congruence end. }
  eapply G; [exact R'| |done]. split; [by right|]. split; [done|]. by left.
Qed.

(** ** One loop per thread

    [t_loopInThisThread], of every thread; a loop is named by its address.  The
    destructor first disables the wakeup channel, which only the loop's own
    thread may do. *)

Record loops := mkLoops { t_loopInThisThread : gmap Z Z; threadId_ : gmap Z Z }.

Definition isInLoopThread (tid this : Z) (s : loops) : bool := bool_decide (threadId_ s !! this = Some tid).
Definition assertInLoopThread (tid this : Z) (s : loops) : res unit :=
  if isInLoopThread tid this s then Ok tt else Err EFatal.

(** The constructor: another loop in the thread is fatal. *)
Definition EventLoop_construct (tid this : Z) (s : loops) : res loops :=
  match t_loopInThisThread s !! tid with
  | Some _ => Err EFatal
  | None => Ok (mkLoops (<[tid := this]> (t_loopInThisThread s)) (<[this := tid]> (threadId_ s)))
  end.
Definition EventLoop_destroy (tid this : Z) (s : loops) : res loops :=
  let* _ := assertInLoopThread tid this s in
  Ok (mkLoops (delete tid (t_loopInThisThread s)) (delete this (threadId_ s))).
Definition getEventLoopOfCurrentThread (tid : Z) (s : loops) : option Z := t_loopInThisThread s !! tid.

Inductive loop_op : Set := Construct (tid this : Z) | Destroy (tid this : Z).
Definition loop_op_exec (s : loops) (o : loop_op) : res loops :=
  match o with
  | Construct tid this => if bool_decide (threadId_ s !! this = None) then EventLoop_construct tid this s else Err EUndefined
  | Destroy tid this => EventLoop_destroy tid this s
  end.

(** As long as the process lives, a thread finds its own loop, the one that
    exists and was made in it, and no other. *)
Theorem one_loop_per_thread (l : list loop_op) s : res_foldl loop_op_exec (mkLoops ∅ ∅) l = Ok s ->
  forall tid this, getEventLoopOfCurrentThread tid s = Some this <-> isInLoopThread tid this s = true.
Proof.
  assert (G : forall s0, (forall tid this, t_loopInThisThread s0 !! tid = Some this <-> threadId_ s0 !! this = Some tid) ->
    res_foldl loop_op_exec s0 l = Ok s ->
    forall tid this, t_loopInThisThread s !! tid = Some this <-> threadId_ s !! this = Some tid).
  { induction l as [|o l IH]; intros s0 H0 E; cbn [res_foldl] in E; [by injection E as <-|].
    apply res_bind_Ok in E as (s1 & E1 & E). apply (IH s1); [|done]. clear IH E. destruct o as [t0 l0|t0 l0]; cbn in E1.
    - case_bool_decide as Hf; [|done]. unfold EventLoop_construct in E1.
      destruct (t_loopInThisThread s0 !! t0) eqn:Et; [done|]. injection E1 as <-. intros tid this. cbn.
      rewrite !lookup_insert_Some, H0. split; intros [[-> ->]|[Hn H]]; try (by left); right; (split; [|done]); intros ->.
      + congruence.
      + apply H0 in H. congruence.
    - unfold EventLoop_destroy, assertInLoopThread, isInLoopThread in E1. case_bool_decide as Ht; [|done].
      cbn in E1. injection E1 as <-. intros tid this. cbn. rewrite !lookup_delete_Some, H0.
      split; intros [Hn H]; (split; [|done]); intros ->; apply Hn; [|apply H0 in H, Ht]; congruence. }
  intros E tid this. unfold getEventLoopOfCurrentThread, isInLoopThread. rewrite bool_decide_eq_true. apply (G (mkLoops ∅ ∅)); [|done].
  intros t i. cbn. by rewrite !lookup_empty.
Qed.

(** ** The property *)

(** C8: a loop's thread is started, handed over and ended.  As long as only the
    destructor asks the loop to quit: [startLoop] returns, and what it returns is
    the loop, which exists then and is served until the destructor; [quit()] sets
    its flag in a loop that exists.  What follows depends on the place of the
    loop's thread at that moment.  If it is between the test and the assignment
    at the beginning of [loop()], the question is overwritten, and whatever
    happens the destructor never returns.  Otherwise, once the wakeup is written
    too, the loop does not sleep on, [join()] returns, and the thread is finished
    and joined when the object is gone.  (Between the flag and the wakeup the loop
    may be gone: [quit_races_with_loop]; if somebody else may ask, [startLoop] may
    not return: [startLoop_hangs].) *)
Theorem loop_thread_lifecycle (garbage : bool) (s : EventLoopThread) : reachable false garbage s ->
  (owner s = InStart \/ owner s = InWait \/ owner s = Started ->
     exists s', rtc (step false) s s' /\ owner s' = Returned true) /\
  (forall b, owner s = Returned b -> b = true /\ worker s = Serving /\ at_ (loop s) <> Exited) /\
  (owner s = Quitting -> loop_alive (worker s) = true /\
     if decide (at_ (loop s) = Starting)
     then forall s', rtc (step false) (quit_set s) s' -> owner s' = Waking_ \/ owner s' = Joining
     else forall s1, rtc (step false) (quit_set s) s1 -> owner s1 = Joining ->
       (at_ (loop s1) = Polling -> 0 < eventfd_ (loop s1) \/ (0 < owing (loop s1))%nat) /\
       exists s', rtc (step false) s1 s' /\ owner s' = Gone /\ pthread_ s' = Joined) /\
  (owner s = Gone -> pthread_ s = NoThread \/ pthread_ s = Joined /\ worker s = Finished).
Proof.
  intros R. apply elt_inv in R as I. pose proof I as [I1 I2 I3 I5 I6 I7]. split_and!.
  - by eapply startLoop_returns.
  - intros b Ho. rewrite Ho in *. destruct b; [|done]. destruct I5 as [Hw _]. split_and!; try done.
    intros Hx. by apply (I3 (qi_exited _ (reachable_quit_inv _ _ I1) Hx)).
  - intros Ho. pose proof I5 as Hp. rewrite Ho in Hp. destruct Hp as [Hw _]. rewrite Hw. split; [done|].
    case_decide as Ha.
    + intros s' R'. assert (U : unheard (quit_set s)).
      { unfold quit_set. rewrite Hw. split; [by left|]. by split; [|left]. }
      by destruct (rtc_unheard _ _ R' U) as [H _].
    + intros s1 R' Ho1. assert (Hh : heard (loop s1)).
      { eapply rtc_heard; [|exact R']. unfold quit_set. by rewrite Hw. }
      assert (R1 : reachable false garbage s1) by (eapply reachable_rtc, R'; eapply reach_step, step_quit_set; done).
      apply elt_inv in R1 as J. split; [|by eapply join_returns].
      intros Hpo. destruct (EventLoop.inv_quit _ (EventLoop.reachable_inv _ _ (inv_loop _ _ J)) Hpo) as [Hq|[_ ?]]; [|done].
      destruct Hh. congruence.
  - intros Ho. rewrite Ho in I7. naive_solver.
Qed.

(** Destroyed before its thread has entered [loop()], the object ends it. *)
Lemma loop_thread_lifecycle_witness : exists s, reachable false false s /\ owner s = Quitting /\ worker s = Serving /\
  exists s1 s', rtc (step false) (quit_set s) s1 /\ owner s1 = Joining /\
    rtc (step false) s1 s' /\ owner s' = Gone /\ pthread_ s' = Joined.
Proof.
  pose proof (reach_new false false (mkThread false false 0 (bs "io")) eq_refl eq_refl) as R.
  run R (eapply step_startLoop; reflexivity). run R (by apply step_test). run R (by apply step_publish).
  run R (by apply step_test). run R (by apply step_return).
  run R (eapply step_destroy; [right; eexists; reflexivity|reflexivity]).
  eexists. split; [exact R|]. split; [reflexivity|]. split; [reflexivity|].
  destruct (loop_thread_lifecycle false _ R) as (_ & _ & H & _). destruct (H eq_refl) as [_ H'].
  rewrite decide_False in H' by done.
  match type of R with reachable _ _ ?s0 =>
    assert (R1 : rtc (step false) (quit_set s0) (quit_wakeup (quit_set s0))) by (by apply rtc_once, step_quit_wakeup);
    destruct (H' _ R1 eq_refl) as (_ & s' & R' & H1 & H2); exists (quit_wakeup (quit_set s0)), s'
  end.
  by split_and!.
Defined.
