(* ===== verification/EventLoopThreadPool.v ===== *)
(** * The pool of event loops (cnet/net/EventLoopThreadPool.h,
    EventLoopThreadPool.cc)

    Loops are named by numbers; [startLoop] is what [EventLoopThread::startLoop]
    returned for each thread. *)

From S2P Require Import Prelude.

Record EventLoopThreadPool := mkPool {
  baseLoop_ : Z;
  started_ : bool;
  numThreads_ : Z;
  next_ : Z;
  loops_ : list Z;
}.

Definition EventLoopThreadPool_new (baseLoop : Z) : EventLoopThreadPool :=
  mkPool baseLoop false 0 0 [].
Definition setThreadNum (numThreads : Z) (p : EventLoopThreadPool) : EventLoopThreadPool :=
  mkPool (baseLoop_ p) (started_ p) numThreads (next_ p) (loops_ p).

(** [start]: the threads are numbered from 0; the result includes the loops on
    which the thread-init callback ran, in order, if there is one. *)
Definition start (startLoop : Z -> Z) (cb : bool) (p : EventLoopThreadPool)
  : res (EventLoopThreadPool * list Z) :=
  assert! negb (started_ p);
  let loops := map (fun i => startLoop (Z.of_nat i)) (seq 0 (Z.to_nat (numThreads_ p))) in
  Ok (mkPool (baseLoop_ p) true (numThreads_ p) (next_ p) (loops_ p ++ loops),
      if cb then (if numThreads_ p =? 0 then [baseLoop_ p] else loops) else []).

(** [loops_[i]] *)
Definition loop_at (p : EventLoopThreadPool) (i : Z) : res Z :=
  match loops_ p !! Z.to_nat i with Some l => Ok l | None => Err EUndefined end.

Definition getNextLoop (p : EventLoopThreadPool) : res (Z * EventLoopThreadPool) :=
  assert! started_ p;
  match loops_ p with
  | [] => Ok (baseLoop_ p, p)
  | _ =>
      let* loop := loop_at p (next_ p) in
      let next := next_ p + 1 in
      let next := if zlen (loops_ p) <=? u64 next then 0 else next in
      Ok (loop, mkPool (baseLoop_ p) (started_ p) (numThreads_ p) next (loops_ p))
  end.

Definition getLoopForHash (hashCode : Z) (p : EventLoopThreadPool) : res Z :=
  match loops_ p with
  | [] => Ok (baseLoop_ p)
  | _ => loop_at p (hashCode mod zlen (loops_ p))
  end.

Definition getAllLoops (p : EventLoopThreadPool) : res (list Z) :=
  assert! started_ p;
  Ok (match loops_ p with [] => [baseLoop_ p] | ls => ls end).

(** The loops of [k] consecutive calls of [getNextLoop]. *)
Fixpoint next_loops (k : nat) (p : EventLoopThreadPool) : res (list Z * EventLoopThreadPool) :=
  match k with
  | O => Ok ([], p)
  | S k' =>
      let* (l, p) := getNextLoop p in
      let* (ls, p) := next_loops k' p in Ok (l :: ls, p)
  end.

(** What [start] leaves and [getNextLoop] keeps. *)
Record pool_ok (p : EventLoopThreadPool) : Prop := mkPoolOk {
  pool_started : started_ p = true;
  pool_next : loops_ p <> [] -> 0 <= next_ p < zlen (loops_ p);
  pool_size : zlen (loops_ p) < 2 ^ 31;
}.

Definition all_loops (p : EventLoopThreadPool) : list Z :=
  match loops_ p with [] => [baseLoop_ p] | ls => ls end.

Lemma loop_at_ok p i : 0 <= i < zlen (loops_ p) ->
  exists l, loop_at p i = Ok l /\ loops_ p !! Z.to_nat i = Some l.
Proof.
  intros Hi. unfold loop_at. destruct (lookup_lt_is_Some_2 (loops_ p) (Z.to_nat i)) as [l E].
  - unfold zlen in Hi. lia.
  - rewrite E. by exists l.
Qed.

Lemma getNextLoop_ok p : pool_ok p ->
  exists l p', getNextLoop p = Ok (l, p') /\ pool_ok p' /\ loops_ p' = loops_ p /\
    baseLoop_ p' = baseLoop_ p /\ all_loops p !! Z.to_nat (next_ p mod zlen (all_loops p)) = Some l /\
    next_ p' mod zlen (all_loops p) = (next_ p + 1) mod zlen (all_loops p).
Proof.
  intros [H1 H2 H3]. unfold getNextLoop, all_loops. rewrite H1. cbn [assert_ res_bind].
  destruct (loops_ p) as [|l0 ls] eqn:El.
  - exists (baseLoop_ p), p. change (zlen [baseLoop_ p]) with 1. rewrite !Z.mod_1_r.
    split_and!; try done. by constructor; rewrite ?El.
  - specialize (H2 ltac:(done)). rewrite <-El in *.
    destruct (loop_at_ok p (next_ p) H2) as (l & -> & E). cbn [res_bind]. cbv zeta.
    rewrite u64_small by lia. eexists l, _. split; [reflexivity|].
    rewrite (Z.mod_small (next_ p)) by done.
    destruct (Z.leb_spec (zlen (loops_ p)) (next_ p + 1)); cbn [loops_ baseLoop_ next_];
      (split_and!; try done); try (constructor; cbn; try done; lia).
    replace (next_ p + 1) with (zlen (loops_ p)) by lia. rewrite Z.mod_same, Z.mod_0_l by lia. done.
Qed.

(** A started pool hands out its loops in turn, in the order the threads were
    started, and over again from the first (the base loop each time, if it has
    no threads); the index never leaves the vector.  Connections are thus
    spread evenly. *)
Theorem round_robin (p : EventLoopThreadPool) (k : nat) (H : pool_ok p) :
  exists ls p', next_loops k p = Ok (ls, p') /\ pool_ok p' /\ loops_ p' = loops_ p /\
    length ls = k /\
    forall i, (i < k)%nat ->
      ls !! i = all_loops p !! Z.to_nat ((next_ p + Z.of_nat i) mod zlen (all_loops p)).
Proof.
  revert p H. induction k as [|k IH]; intros p H.
  - exists [], p. split_and!; try done. intros i Hi. lia.
  - destruct (getNextLoop_ok p H) as (l & p1 & E & H1 & L1 & B1 & Hl & Hn). cbn [next_loops].
    rewrite E. cbn [res_bind]. destruct (IH p1 H1) as (ls & p2 & -> & H2 & L2 & Hk & Hi).
    cbn [res_bind]. exists (l :: ls), p2. split_and!; try done; [by rewrite L2|cbn; lia|].
    assert (Ha : all_loops p1 = all_loops p) by (unfold all_loops; by rewrite L1, B1).
    intros [|i] Hlt.
    + rewrite Z.add_0_r, Hl. done.
    + cbn [lookup list_lookup]. rewrite Hi, Ha by lia. do 2 f_equal.
      rewrite Z.add_mod, Hn, <-Z.add_mod; [f_equal; lia|..];
        (unfold all_loops; destruct (loops_ p); unfold zlen; cbn; lia).
Qed.

Lemma round_robin_witness :
  exists p, start (fun i => 10 + i) false (setThreadNum 3 (EventLoopThreadPool_new 1)) = Ok (p, []) /\
    exists ls p', next_loops 7 p = Ok (ls, p') /\ length ls = 7%nat /\
    (forall i, (i < 7)%nat ->
      ls !! i = all_loops p !! Z.to_nat ((next_ p + Z.of_nat i) mod zlen (all_loops p))) /\
    ls = [10; 11; 12; 10; 11; 12; 10].
Proof.
  eexists. split; [reflexivity|].
  match goal with |- exists ls p', next_loops 7 ?p = _ /\ _ =>
    destruct (round_robin p 7) as (ls & p' & E & _ & _ & L & Hi) end.
  - constructor; vm_compute; [done|intros _; split; congruence|done].
  - exists ls, p'. split; [exact E|]. split; [exact L|]. split; [exact Hi|].
    vm_compute in E. by injection E as <- _.
Defined.
