(* ===== verification/TcpServer.v ===== *)
(** * The server (cnet/net/TcpServer.h, TcpServer.cc, Acceptor.h, Acceptor.cc)

    The acceptor, the registry of connections and their removal, over the pool
    of loops and the connections' own state machine.  A loop is a number; what
    is queued in the loops is one list of tasks, each with its loop, and a loop
    runs its own tasks in order. *)

From stdpp Require Import gmap.
From S2P Require Import Prelude Cstd Buffer Channel TcpConnection EventLoopThreadPool.

(** ** The acceptor *)

(** [fds_closed]: the descriptors it has closed. *)
Record Acceptor := mkAcceptor {
  listenning_ : bool;
  idleFd_ : Z;
  fds_closed : list Z;
}.

Definition Acceptor_new (idleFd : Z) : res Acceptor :=
  assert! 0 <=? idleFd; Ok (mkAcceptor false idleFd []).
Definition listen (a : Acceptor) : Acceptor := mkAcceptor true (idleFd_ a) (fds_closed a).

(** What [accept(2)] gave: a socket, or an error, EMFILE or not. *)
Inductive accept_result : Type :=
| Accepted (connfd : Z)
| AcceptFailed (emfile : bool).

(** [handleRead], the callback being set: the socket to hand over, if any.
    [connfd2] and [newIdle] are what [accept] and [open] return when the
    process is out of descriptors. *)
Definition acceptor_handleRead (r : accept_result) (connfd2 newIdle : Z) (a : Acceptor)
  : option Z * Acceptor :=
  match r with
  | Accepted connfd => (Some connfd, a)
  | AcceptFailed true =>
      (None, mkAcceptor (listenning_ a) newIdle (fds_closed a ++ [idleFd_ a; connfd2]))
  | AcceptFailed false => (None, a)
  end.

(** ** The server *)

Inductive task : Set := TEstablished (c : Z) | TRemove (c : Z) | TDestroyed (c : Z).

#[export] Instance task_eq_dec : EqDecision task.
Proof. solve_decision. Defined.

Definition task_conn (t : task) : Z :=
  match t with TEstablished c | TRemove c | TDestroyed c => c end.

Record SConn := mkSConn { conn_name : bytes; conn_loop : Z; conn : TcpConnection }.

(** [conns]: all connections made, by their number; [destroyed]: those for which
    [connectDestroyed] has run. *)
Record TcpServer := mkServer {
  loop_ : Z;
  ipPort_ : bytes;
  name_ : bytes;
  acceptor_ : Acceptor;
  threadPool_ : EventLoopThreadPool;
  startCount : Z;
  nextConnId_ : Z;
  connections_ : gmap bytes Z;
  conns : gmap Z SConn;
  tasks : list (Z * task);
  destroyed : list Z;
}.

Definition TcpServer_new (loop : Z) (ipPort name : bytes) (a : Acceptor) : TcpServer :=
  mkServer loop ipPort name a (EventLoopThreadPool_new loop) 0 1 ∅ ∅ [] [].

Definition set_acceptor (a : Acceptor) (s : TcpServer) : TcpServer :=
  mkServer (loop_ s) (ipPort_ s) (name_ s) a (threadPool_ s) (startCount s) (nextConnId_ s)
    (connections_ s) (conns s) (tasks s) (destroyed s).
Definition set_pool (p : EventLoopThreadPool) (s : TcpServer) : TcpServer :=
  mkServer (loop_ s) (ipPort_ s) (name_ s) (acceptor_ s) p (startCount s) (nextConnId_ s)
    (connections_ s) (conns s) (tasks s) (destroyed s).
Definition set_started (n : Z) (s : TcpServer) : TcpServer :=
  mkServer (loop_ s) (ipPort_ s) (name_ s) (acceptor_ s) (threadPool_ s) n (nextConnId_ s)
    (connections_ s) (conns s) (tasks s) (destroyed s).
Definition set_connections (m : gmap bytes Z) (s : TcpServer) : TcpServer :=
  mkServer (loop_ s) (ipPort_ s) (name_ s) (acceptor_ s) (threadPool_ s) (startCount s) (nextConnId_ s)
    m (conns s) (tasks s) (destroyed s).
Definition set_conn (c : Z) (sc : SConn) (s : TcpServer) : TcpServer :=
  mkServer (loop_ s) (ipPort_ s) (name_ s) (acceptor_ s) (threadPool_ s) (startCount s) (nextConnId_ s)
    (connections_ s) (<[c := sc]> (conns s)) (tasks s) (destroyed s).
Definition set_tasks (l : list (Z * task)) (s : TcpServer) : TcpServer :=
  mkServer (loop_ s) (ipPort_ s) (name_ s) (acceptor_ s) (threadPool_ s) (startCount s) (nextConnId_ s)
    (connections_ s) (conns s) l (destroyed s).
Definition set_nextConnId (n : Z) (s : TcpServer) : TcpServer :=
  mkServer (loop_ s) (ipPort_ s) (name_ s) (acceptor_ s) (threadPool_ s) (startCount s) n
    (connections_ s) (conns s) (tasks s) (destroyed s).
Definition add_destroyed (c : Z) (s : TcpServer) : TcpServer :=
  mkServer (loop_ s) (ipPort_ s) (name_ s) (acceptor_ s) (threadPool_ s) (startCount s) (nextConnId_ s)
    (connections_ s) (conns s) (tasks s) (destroyed s ++ [c]).

Definition server_setThreadNum (numThreads : Z) (s : TcpServer) : res TcpServer :=
  assert! 0 <=? numThreads;
  Ok (set_pool (setThreadNum numThreads (threadPool_ s)) s).

(** [start], called on the server's loop. *)
Definition server_start (startLoop : Z -> Z) (cb : bool) (s : TcpServer) : res TcpServer :=
  let first := startCount s =? 0 in
  let s := set_started (startCount s + 1) s in
  if first then
    let* (pool, _) := start startLoop cb (threadPool_ s) in
    let s := set_pool pool s in
    assert! negb (listenning_ (acceptor_ s));
    Ok (set_acceptor (listen (acceptor_ s)) s)
  else Ok s.

Definition queueInLoop (l : Z) (t : task) (s : TcpServer) : TcpServer :=
  set_tasks (tasks s ++ [(l, t)]) s.

Definition find_conn (c : Z) (s : TcpServer) : res SConn :=
  match conns s !! c with Some sc => Ok sc | None => Err EUndefined end.

(** A member function of a connection, run on its own loop. *)
Definition with_conn (cur c : Z) (f : TcpConnection -> res TcpConnection) (s : TcpServer)
  : res TcpServer :=
  let* sc := find_conn c s in
  if negb (cur =? conn_loop sc) then Err EFatal else
  let* k := f (conn sc) in
  Ok (set_conn c (mkSConn (conn_name sc) (conn_loop sc) k) s).

Definition removeConnectionInLoop (cur c : Z) (s : TcpServer) : res TcpServer :=
  if negb (cur =? loop_ s) then Err EFatal else
  let* sc := find_conn c s in
  let n := if decide (is_Some (connections_ s !! conn_name sc)) then 1 else 0 in
  let s := set_connections (delete (conn_name sc) (connections_ s)) s in
  assert! n =? 1;
  Ok (queueInLoop (conn_loop sc) (TDestroyed c) s).

(** A queued functor, run by the loop [cur]. *)
Definition exec_task (cur : Z) (t : task) (s : TcpServer) : res TcpServer :=
  match t with
  | TEstablished c => with_conn cur c connectEstablished s
  | TRemove c => removeConnectionInLoop cur c s
  | TDestroyed c => let* s := with_conn cur c connectDestroyed s in Ok (add_destroyed c s)
  end.

Definition runInLoop (cur target : Z) (t : task) (s : TcpServer) : res TcpServer :=
  if cur =? target then exec_task cur t s else Ok (queueInLoop target t s).

(** The name given to the connection numbered [id]. *)
Definition conn_name_of (ipPort name : bytes) (id : Z) : bytes :=
  name ++ snprintf 64 (bs "-" ++ ipPort ++ bs "#" ++ fmt_d id).

Definition newConnection (sockfd : Z) (s : TcpServer) : res TcpServer :=
  let* (ioLoop, pool) := getNextLoop (threadPool_ s) in
  let s := set_pool pool s in
  let id := nextConnId_ s in
  let connName := conn_name_of (ipPort_ s) (name_ s) id in
  let s := set_nextConnId (id + 1) s in
  let c := TcpConnection_new sockfd false false defaultHighWaterMark in
  let s := set_conn id (mkSConn connName ioLoop c) s in
  let s := set_connections (<[connName := id]> (connections_ s)) s in
  runInLoop (loop_ s) ioLoop (TEstablished id) s.

(** [removeConnection], the close callback, on the connection's loop. *)
Definition removeConnection (cur c : Z) (s : TcpServer) : res TcpServer :=
  runInLoop cur (loop_ s) (TRemove c) s.

(** ** What may happen to a server *)

Inductive server_event : Type :=
| SvAccept (r : accept_result) (connfd2 newIdle : Z)    (* the acceptor's channel *)
| SvTask (l : Z)                                        (* the loop [l] runs its next task *)
| SvConn (c : Z) (ev : event).                          (* an event of a connection *)

(** The first task of a loop, and the others. *)
Fixpoint take_task (l : Z) (ts : list (Z * task)) : option (task * list (Z * task)) :=
  match ts with
  | [] => None
  | (l', t) :: ts' =>
      if l' =? l then Some (t, ts')
      else match take_task l ts' with
           | Some (t', rest) => Some (t', (l', t) :: rest)
           | None => None
           end
  end.

(** An event of a connection; if it made the connection call its close callback,
    the server removes it. *)
Definition conn_event (c : Z) (ev : event) (s : TcpServer) : res TcpServer :=
  let* sc := find_conn c s in
  let* k := exec ev (conn sc) in
  let s := set_conn c (mkSConn (conn_name sc) (conn_loop sc) k) s in
  if (closes (calls (conn sc)) <? closes (calls k))%nat
  then removeConnection (conn_loop sc) c s else Ok s.

Definition server_exec (ev : server_event) (s : TcpServer) : res TcpServer :=
  match ev with
  | SvAccept r connfd2 newIdle =>
      let '(fd, a) := acceptor_handleRead r connfd2 newIdle (acceptor_ s) in
      let s := set_acceptor a s in
      match fd with Some connfd => newConnection connfd s | None => Ok s end
  | SvTask l =>
      match take_task l (tasks s) with
      | Some (t, rest) => exec_task l t (set_tasks rest s)
      | None => Ok s
      end
  | SvConn c ev => conn_event c ev s
  end.

Definition server_run (l : list server_event) (s : TcpServer) : res TcpServer :=
  res_foldl (fun s ev => server_exec ev s) s l.

(** [nextConnId_] is an int; a connection is established and destroyed by the
    server only. *)
Definition server_event_okb (ev : server_event) (s : TcpServer) : bool :=
  match ev with
  | SvAccept _ _ _ => nextConnId_ s <? 2 ^ 31 - 1
  | SvTask _ => true
  | SvConn c ev =>
      match conns s !! c with
      | Some sc => event_okb ev (conn sc) &&
                   match ev with EvEstablished | EvDestroyed => false | _ => true end
      | None => false
      end
  end.

Fixpoint server_events_okb (l : list server_event) (s : TcpServer) : bool :=
  match l with
  | [] => true
  | ev :: l' => server_event_okb ev s &&
                match server_exec ev s with Ok s' => server_events_okb l' s' | Err _ => true end
  end.

(** ** The invariant *)

Definition pending (t : task) (ts : list (Z * task)) : nat := length (filter (fun x => x.2 = t) ts).
#[local] Arguments pending : simpl never.


(** The tasks about other connections. *)
Definition others (c : Z) (ts : list (Z * task)) : list (Z * task) :=
  filter (fun x => task_conn x.2 <> c) ts.
#[local] Arguments others : simpl never.

(** The loop on which a task must run. *)
Definition right_loop (s : TcpServer) (t : task) (sc : SConn) : Z :=
  match t with TRemove _ => loop_ s | _ => conn_loop sc end.

(** Where a connection is in its life: registered until removed; established,
    removed and destroyed by one task each. *)
Definition phase (m : gmap bytes Z) (ts : list (Z * task)) (dead : list Z) (c : Z) (sc : SConn) : Prop :=
  let e := pending (TEstablished c) ts in
  let r := pending (TRemove c) ts in
  let d := pending (TDestroyed c) ts in
  let x := occ c dead in
  match state_ (conn sc) with
  | kConnecting => e = 1%nat /\ (r + d + x = 0)%nat /\ m !! conn_name sc = Some c
  | kConnected | kDisconnecting => (e + r + d + x = 0)%nat /\ m !! conn_name sc = Some c
  | kDisconnected => e = O /\
      ((r = 1%nat /\ (d + x = 0)%nat /\ m !! conn_name sc = Some c) \/
       (r = O /\ (d + x = 1)%nat /\ m !! conn_name sc = None))
  end.

Record server_inv (s : TcpServer) : Prop := mkServerInv {
  si_pool : pool_ok (threadPool_ s);
  si_ip : zlen (ipPort_ s) <= 50;
  si_id : 1 <= nextConnId_ s < 2 ^ 31;
  si_conn : forall c sc, conns s !! c = Some sc ->
    1 <= c < nextConnId_ s /\ conn_name sc = conn_name_of (ipPort_ s) (name_ s) c /\
    inv (conn sc) /\ phase (connections_ s) (tasks s) (destroyed s) c sc;
  si_map : forall n c, connections_ s !! n = Some c ->
    exists sc, conns s !! c = Some sc /\ conn_name sc = n;
  si_task : forall l t, (l, t) ∈ tasks s ->
    exists sc, conns s !! task_conn t = Some sc /\ l = right_loop s t sc;
  si_dead : forall c, c ∈ destroyed s -> is_Some (conns s !! c);
}.

(** No two connections have the same name: the number is not cut off. *)
Lemma conn_name_inj ip name c1 c2 : zlen ip <= 50 -> 0 <= c1 < 2 ^ 31 -> 0 <= c2 < 2 ^ 31 ->
  conn_name_of ip name c1 = conn_name_of ip name c2 -> c1 = c2.
Proof.
  intros Hip H1 H2. unfold conn_name_of. intros E%(inj (app name)).
  assert (F : forall c, 0 <= c < 2 ^ 31 -> snprintf 64 (bs "-" ++ ip ++ bs "#" ++ fmt_d c) =
                        bs "-" ++ ip ++ bs "#" ++ fmt_d c).
  { intros c Hc. apply snprintf_fits. rewrite !zlen_app. change (zlen (bs "-")) with 1.
    change (zlen (bs "#")) with 1. unfold fmt_d. rewrite (proj2 (Z.ltb_ge _ _)) by lia.
    pose proof (fmt_u_length c 10). lia. }
  rewrite !F in E by done. do 3 apply (inj (app _)) in E. apply fmt_d_inj in E; lia.
Qed.

Lemma pending_perm t ts ts' : ts ≡ₚ ts' -> pending t ts = pending t ts'.
Proof. unfold pending. by intros ->. Qed.
Lemma pending_cons t l u ts : pending t ((l, u) :: ts) = ((if decide (u = t) then 1 else 0) + pending t ts)%nat.
Proof. unfold pending. rewrite filter_cons. cbn. by case_decide. Qed.
Lemma pending_snoc t l u ts : pending t (ts ++ [(l, u)]) = ((if decide (u = t) then 1 else 0) + pending t ts)%nat.
Proof.
  rewrite (pending_perm t _ ((l, u) :: ts)) by (by rewrite <-Permutation_cons_append).
  apply pending_cons.
Qed.
Lemma pending_others t c ts : task_conn t <> c -> pending t (others c ts) = pending t ts.
Proof.
  intros Ht. induction ts as [|[l u] ts IH]; [done|]. unfold others in *. rewrite filter_cons, pending_cons.
  destruct (decide (task_conn (l, u).2 <> c)) as [Hd|Hd]; cbn in Hd.
  - by rewrite pending_cons, IH.
  - rewrite IH, decide_False; [done|]. intros ->. by destruct Hd.
Qed.
Lemma elem_of_others l t c ts : task_conn t <> c -> (l, t) ∈ others c ts <-> (l, t) ∈ ts.
Proof. intros Ht. unfold others. rewrite list_elem_of_filter. cbn. naive_solver. Qed.
Lemma others_cons c l t ts : task_conn t = c -> others c ((l, t) :: ts) = others c ts.
Proof. intros Ht. unfold others. rewrite filter_cons, decide_False; [done|]. cbn. by intros []. Qed.
Lemma others_snoc c l t ts : task_conn t = c -> others c (ts ++ [(l, t)]) = others c ts.
Proof.
  intros Ht. unfold others. rewrite filter_app, filter_cons, decide_False; [by rewrite app_nil_r|].
  cbn. by intros [].
Qed.

Lemma take_task_perm l ts t rest : take_task l ts = Some (t, rest) -> ts ≡ₚ (l, t) :: rest.
Proof.
  revert t rest. induction ts as [|[l' t'] ts IH]; intros t rest; [done|]. cbn.
  destruct (Z.eqb_spec l' l) as [->|]; [by intros [= -> ->]|].
  destruct (take_task l ts) as [[t1 rest1]|]; [|done]. intros [= -> <-].
  rewrite (IH _ _ eq_refl). constructor.
Qed.

Lemma find_conn_Some c s sc : conns s !! c = Some sc -> find_conn c s = Ok sc.
Proof. unfold find_conn. by intros ->. Qed.

(** A step that concerns the connection [c] only. *)
Lemma server_frame s s' c sc :
  server_inv s ->
  loop_ s' = loop_ s -> ipPort_ s' = ipPort_ s -> name_ s' = name_ s ->
  pool_ok (threadPool_ s') -> nextConnId_ s <= nextConnId_ s' < 2 ^ 31 ->
  conns s' = <[c := sc]> (conns s) -> 1 <= c < nextConnId_ s' ->
  (forall sc0, conns s !! c = Some sc0 -> conn_loop sc = conn_loop sc0) ->
  conn_name sc = conn_name_of (ipPort_ s) (name_ s) c ->
  (forall n, n <> conn_name sc -> connections_ s' !! n = connections_ s !! n) ->
  (forall c', connections_ s' !! conn_name sc = Some c' -> c' = c) ->
  others c (tasks s') ≡ₚ others c (tasks s) ->
  (forall l t, (l, t) ∈ tasks s' -> task_conn t = c -> l = right_loop s t sc) ->
  (forall c', c' <> c -> occ c' (destroyed s') = occ c' (destroyed s)) ->
  (forall c', c' ∈ destroyed s' -> c' ∈ destroyed s \/ c' = c) ->
  inv (conn sc) -> phase (connections_ s') (tasks s') (destroyed s') c sc ->
  server_inv s'.
Proof.
  intros [I1 I2 I3 I4 I5 I6 I7] El Ei En Hp Hid Ec Hc Hl Hn Hm Hm' Ht Htl Hg Hd Hi Hph.
  assert (Hname : forall c' sc', conns s !! c' = Some sc' -> c' <> c -> conn_name sc' <> conn_name sc).
  { intros c' sc' E Hne E'. destruct (I4 c' sc' E) as (Hr & Hn' & _). apply Hne.
    rewrite Hn, Hn' in E'. apply (conn_name_inj (ipPort_ s) (name_ s)); [done|lia|lia|done]. }
  constructor; try done.
  - by rewrite Ei.
  - lia.
  - intros c' sc'. rewrite Ec. destruct (decide (c' = c)) as [->|Hne].
    + rewrite lookup_insert_eq. intros [= <-]. by rewrite Ei, En.
    + rewrite lookup_insert_ne by done. intros E. destruct (I4 c' sc' E) as (Hr & Hn' & Hi' & Hph').
      rewrite Ei, En. split; [lia|]. split; [done|]. split; [done|].
      unfold phase in *. rewrite (Hm (conn_name sc')) by eauto. rewrite (Hg c' Hne).
      assert (P : forall t, task_conn t = c' -> pending t (tasks s') = pending t (tasks s)).
      { intros t Et. rewrite <-(pending_others t c (tasks s')), <-(pending_others t c (tasks s)) by congruence.
        by apply pending_perm. }
      by rewrite !P.
  - intros n c' E. destruct (decide (n = conn_name sc)) as [->|Hne].
    + apply Hm' in E as ->. exists sc. by rewrite Ec, lookup_insert_eq.
    + rewrite Hm in E by done. destruct (I5 n c' E) as (sc' & E' & <-). rewrite Ec.
      destruct (decide (c' = c)) as [->|].
      * destruct Hne. destruct (I4 c sc' E') as (_ & -> & _). done.
      * exists sc'. by rewrite lookup_insert_ne.
  - intros l t Hin. destruct (decide (task_conn t = c)) as [E|Hne].
    + exists sc. rewrite Ec, E, lookup_insert_eq. split; [done|]. rewrite (Htl l t Hin E).
      unfold right_loop. by rewrite El.
    + rewrite <-(elem_of_others l t c) in Hin by done. rewrite Ht, elem_of_others in Hin by done.
      destruct (I6 l t Hin) as (sc' & E & ->). exists sc'. rewrite Ec, lookup_insert_ne by done.
      split; [done|]. unfold right_loop. by rewrite El.
  - intros c' [Hin| ->]%Hd; rewrite Ec; [|rewrite lookup_insert_eq; eauto].
    destruct (decide (c' = c)) as [->|]; [rewrite lookup_insert_eq; eauto|].
    rewrite lookup_insert_ne by done. by apply I7.
Qed.

Ltac pend := rewrite ?pending_cons, ?pending_snoc, ?occ_snoc in *; repeat (case_decide; simplify_eq); try lia.


(** What the waiting task tells of its connection. *)
Lemma task_phase s l t rest : server_inv s -> tasks s ≡ₚ (l, t) :: rest ->
  exists sc, conns s !! task_conn t = Some sc /\ l = right_loop s t sc /\
    1 <= task_conn t < nextConnId_ s /\
    conn_name sc = conn_name_of (ipPort_ s) (name_ s) (task_conn t) /\ inv (conn sc) /\
    phase (connections_ s) ((l, t) :: rest) (destroyed s) (task_conn t) sc.
Proof.
  intros I P. destruct (si_task s I l t) as (sc & E & El); [rewrite P; left|].
  destruct (si_conn s I _ sc E) as (Hr & Hn & Hi & Hph). exists sc. split_and!; try done; try lia.
  unfold phase in *. by rewrite <-!(pending_perm _ _ _ P).
Qed.

Lemma exec_task_inv s l t rest : server_inv s -> tasks s ≡ₚ (l, t) :: rest ->
  exists s', exec_task l t (set_tasks rest s) = Ok s' /\ server_inv s'.
Proof.
  intros I P. destruct (task_phase s l t rest I P) as (sc & E & El & Hr & Hn & Hi & Hph).
  assert (Hin : forall l' t', (l', t') ∈ rest -> (l', t') ∈ tasks s) by (intros; rewrite P; by right).
  assert (Hright : forall l' t', (l', t') ∈ rest -> task_conn t' = task_conn t -> l' = right_loop s t' sc).
  { intros l' t' Hin' Et. destruct (si_task s I l' t' (Hin _ _ Hin')) as (sc' & E' & ->).
    rewrite Et, E in E'. by injection E' as <-. }
  assert (Hoth : others (task_conn t) rest ≡ₚ others (task_conn t) (tasks s)).
  { unfold others at 2. rewrite P. fold (others (task_conn t) ((l, t) :: rest)). by rewrite others_cons. }
  assert (Hm : forall c', connections_ s !! conn_name sc = Some c' -> c' = task_conn t).
  { intros c' E'. destruct (si_map s I _ _ E') as (sc' & E2 & En).
    destruct (si_conn s I _ _ E2) as (Hr2 & Hn2 & _). pose proof (si_id s I). pose proof (si_ip s I).
    rewrite Hn2, Hn in En. apply (conn_name_inj (ipPort_ s) (name_ s)) in En; lia || done. }
  unfold phase in Hph. cbv zeta in Hph.
  rewrite !pending_cons in Hph.
  destruct t as [c|c|c]; cbn [task_conn right_loop exec_task] in *;
    repeat (case_decide; try congruence); cbn [Nat.add] in Hph.
  - assert (Hs : state_ (conn sc) = kConnecting) by (destruct (state_ (conn sc)); try done; lia).
    rewrite Hs in Hph. destruct Hph as (He & Hrd & Hreg).
    destruct (exec_inv EvEstablished (conn sc) Hi Hs) as (k & Ek & Ik). cbn in Ek.
    unfold with_conn. rewrite (find_conn_Some c _ sc) by done. cbn [res_bind].
    rewrite El, Z.eqb_refl. cbn [negb]. rewrite Ek. cbn [res_bind]. eexists. split; [reflexivity|].
    eapply (server_frame s _ c (mkSConn (conn_name sc) (conn_loop sc) k)); try done; try apply (si_pool s I).
    + cbn. pose proof (si_id s I). lia.
    + intros sc0 E0. rewrite E in E0. by injection E0 as <-.
    + by left.
    + unfold phase. cbn. rewrite (established_state _ _ Ek). cbv zeta. pend. split; [lia|done].
  - assert (Hs : state_ (conn sc) = kDisconnected) by (destruct (state_ (conn sc)); try done; lia).
    rewrite Hs in Hph. destruct Hph as (He & [(Hr1 & Hd & Hreg)|(Hr1 & _ & _)]);
      [|lia].
    unfold removeConnectionInLoop. cbn [loop_ set_tasks]. rewrite El, Z.eqb_refl. cbn [negb].
    rewrite (find_conn_Some c _ sc) by done. cbn [res_bind connections_ set_tasks].
    rewrite decide_True by eauto. cbn [assert_ res_bind Z.eqb Pos.eqb]. eexists. split; [reflexivity|].
    eapply (server_frame s _ c sc); try done; try apply (si_pool s I); cbn.
    + pose proof (si_id s I). lia.
    + by rewrite insert_id.
    + intros sc0 E0. rewrite E in E0. by injection E0 as <-.
    + intros n Hne. by rewrite lookup_delete_ne.
    + intros c'. by rewrite lookup_delete_eq.
    + by rewrite others_snoc.
    + intros l' t' [Hin'|Heq]%elem_of_app Et; [by apply Hright|].
      apply list_elem_of_singleton in Heq. by injection Heq as -> ->.
    + by left.
    + unfold phase. rewrite Hs, lookup_delete_eq. cbv zeta. pend. split; [lia|]. right. split; [lia|]. split; [lia|done].
  - assert (Hs : state_ (conn sc) = kDisconnected) by (destruct (state_ (conn sc)); try done; lia).
    rewrite Hs in Hph. destruct Hph as (He & [(Hr1 & Hd & Hreg)|(Hr1 & Hd & Hreg)]);
      [lia|].
    destruct (exec_inv EvDestroyed (conn sc) Hi (or_intror Hs)) as (k & Ek & Ik). cbn in Ek.
    unfold with_conn. rewrite (find_conn_Some c _ sc) by done. cbn [res_bind].
    rewrite El, Z.eqb_refl. cbn [negb]. rewrite Ek. cbn [res_bind]. eexists. split; [reflexivity|].
    eapply (server_frame s _ c (mkSConn (conn_name sc) (conn_loop sc) k)); try done; try apply (si_pool s I); cbn.
    + pose proof (si_id s I). lia.
    + intros sc0 E0. rewrite E in E0. by injection E0 as <-.
    + intros c' Hne. rewrite occ_snoc, decide_False by done. done.
    + intros c' [?|Heq]%elem_of_app; [by left|right]. by apply list_elem_of_singleton in Heq.
    + unfold phase. cbn. rewrite (destroyed_state _ _ Hs Ek). cbv zeta. pend. split; [lia|]. right.
      split; [lia|]. split; [lia|done].
Qed.

Lemma runInLoop_inv cur target t s : server_inv (queueInLoop target t s) ->
  exists s', runInLoop cur target t s = Ok s' /\ server_inv s'.
Proof.
  intros I. unfold runInLoop. destruct (Z.eqb_spec cur target) as [->|]; [|eauto].
  destruct (exec_task_inv _ target t (tasks s) I) as (s' & E & I').
  - cbn. by rewrite <-Permutation_cons_append.
  - exists s'. split; [|done]. rewrite <-E. by destruct s.
Qed.

Lemma pending_zero t ts : (forall l, (l, t) ∉ ts) -> pending t ts = O.
Proof.
  induction ts as [|[l u] ts IH]; intros H; [done|]. rewrite pending_cons, decide_False.
  - apply IH. intros l' Hin. apply (H l'). by right.
  - intros ->. apply (H l). left.
Qed.

(** A connection not made yet is in no task. *)
Lemma fresh_conn s id : server_inv s -> nextConnId_ s <= id ->
  conns s !! id = None /\ (forall t, task_conn t = id -> pending t (tasks s) = O) /\
  (forall l t, (l, t) ∈ tasks s -> task_conn t <> id) /\ occ id (destroyed s) = O.
Proof.
  intros I Hid. assert (Hn : conns s !! id = None).
  { destruct (conns s !! id) as [sc|] eqn:E; [|done]. destruct (si_conn s I _ _ E). lia. }
  assert (Ht : forall l t, (l, t) ∈ tasks s -> task_conn t <> id).
  { intros l t Hin <-. destruct (si_task s I l t Hin) as (sc & E & _). congruence. }
  split_and!; try done.
  - intros t Et. apply pending_zero. intros l Hin. by apply (Ht l t Hin).
  - apply occ_zero. intros Hin. destruct (si_dead s I id Hin). congruence.
Qed.

Lemma newConnection_inv fd s : server_inv s -> nextConnId_ s < 2 ^ 31 - 1 ->
  exists s', newConnection fd s = Ok s' /\ server_inv s'.
Proof.
  intros I Hid. unfold newConnection.
  destruct (getNextLoop_ok (threadPool_ s) (si_pool s I)) as (io & pool & -> & Hp & _). cbn [res_bind].
  cbv zeta. apply runInLoop_inv. set (id := nextConnId_ s).
  destruct (fresh_conn s id I) as (Hnone & Hpend & Htask & Hgone); [subst id; lia|].
  pose proof (si_id s I). set (n := conn_name_of _ _ _).
  eapply (server_frame s _ id (mkSConn n io (TcpConnection_new fd false false defaultHighWaterMark)));
    try done; cbn; try (subst id; lia).
  - intros sc0. by rewrite Hnone.
  - intros n' Hne. by rewrite lookup_insert_ne.
  - intros c'. rewrite lookup_insert_eq. by intros [= <-].
  - by rewrite others_snoc.
  - intros l t [Hin|Heq]%elem_of_app Et; [by destruct (Htask l t Hin)|].
    apply list_elem_of_singleton in Heq. by injection Heq as -> ->.
  - by left.
  - apply new_inv.
  - unfold phase. cbn. cbv zeta. rewrite !pending_snoc, !Hpend, Hgone by done.
    subst id. repeat (case_decide; try congruence). by rewrite lookup_insert_eq.
Qed.

Lemma conn_event_inv c ev s sc : server_inv s -> conns s !! c = Some sc -> event_ok ev (conn sc) ->
  ev <> EvEstablished -> ev <> EvDestroyed ->
  exists s', conn_event c ev s = Ok s' /\ server_inv s'.
Proof.
  intros I E Hok H1 H2. destruct (si_conn s I c sc E) as (Hr & Hn & Hi & Hph).
  destruct (exec_inv ev (conn sc) Hi Hok) as (k & Ek & Ik).
  pose proof (exec_outcome ev (conn sc) k Hi Hok H1 H2 Ek) as Hout.
  unfold conn_event. rewrite (find_conn_Some c s sc E). cbn [res_bind]. rewrite Ek. cbn [res_bind]. cbv zeta.
  assert (Hright : forall l t, (l, t) ∈ tasks s -> task_conn t = c -> l = right_loop s t sc).
  { intros l t Hin Et. destruct (si_task s I l t Hin) as (sc' & E' & ->).
    rewrite Et, E in E'. by injection E' as <-. }
  assert (Hm : forall c', connections_ s !! conn_name sc = Some c' -> c' = c).
  { intros c' E'. destruct (si_map s I _ _ E') as (sc' & E2 & En).
    destruct (si_conn s I _ _ E2) as (Hr2 & Hn2 & _). pose proof (si_id s I). pose proof (si_ip s I).
    rewrite Hn2, Hn in En. apply (conn_name_inj (ipPort_ s) (name_ s)) in En; lia || done. }
  assert (Hl : forall sc0, conns s !! c = Some sc0 -> conn_loop sc = conn_loop sc0)
    by (intros sc0 E0; rewrite E in E0; by injection E0 as <-).
  destruct Hout as [(Hc & Hk & Hd)|(Ho & Hk & Hc)].
  - rewrite Hc, Nat.ltb_irrefl. eexists. split; [reflexivity|].
    eapply (server_frame s _ c (mkSConn (conn_name sc) (conn_loop sc) k)); try done; try apply (si_pool s I); cbn.
    + pose proof (si_id s I). lia.
    + by left.
    + unfold phase in *. cbn. clear -Hph Hk Hd.
      destruct (state_ k), (state_ (conn sc)); try exact Hph; exfalso; clear Hph; intuition congruence.
  - rewrite (proj2 (Nat.ltb_lt _ _)) by lia. apply runInLoop_inv.
    eapply (server_frame s _ c (mkSConn (conn_name sc) (conn_loop sc) k)); try done; try apply (si_pool s I); cbn.
    + pose proof (si_id s I). lia.
    + by rewrite others_snoc.
    + intros l t [Hin|Heq]%elem_of_app Et; [by apply Hright|].
      apply list_elem_of_singleton in Heq. by injection Heq as -> ->.
    + by left.
    + unfold phase in *. cbn. rewrite Hk. cbv zeta in *. rewrite !pending_snoc.
      repeat (case_decide; try congruence). destruct Ho as [Ho|Ho]; rewrite Ho in Hph;
        destruct Hph as [Hph Hreg]; (split; [lia|]; left; split; [lia|]; split; [lia|done]).
Qed.

Lemma server_exec_inv ev s : server_inv s -> server_event_okb ev s = true ->
  exists s', server_exec ev s = Ok s' /\ server_inv s'.
Proof.
  intros I Hok. destruct ev as [r fd2 idle|l|c ev]; cbn [server_exec server_event_okb] in *.
  - destruct (acceptor_handleRead r fd2 idle (acceptor_ s)) as [fd a].
    assert (I' : server_inv (set_acceptor a s)) by (destruct I; by constructor).
    destruct fd as [connfd|]; [|by eexists]. apply newConnection_inv; [done|]. cbn. lia.
  - destruct (take_task l (tasks s)) as [[t rest]|] eqn:E; [|by exists s].
    apply (exec_task_inv s l t rest I). by apply take_task_perm.
  - destruct (conns s !! c) as [sc|] eqn:E; [|done]. apply andb_true_iff in Hok as [H1 H2].
    apply (conn_event_inv c ev s sc I E); [by apply event_okb_ok|by intros ->|by intros ->].
Qed.

(** The server's names never change. *)
Lemma exec_task_names l t s s' : exec_task l t s = Ok s' -> ipPort_ s' = ipPort_ s /\ name_ s' = name_ s.
Proof.
  destruct t; cbn; unfold with_conn, removeConnectionInLoop, find_conn; intros H; inv_ok; subst;
    repeat (case_match; inv_ok; subst; try done).
Qed.
Lemma runInLoop_names cur target t s s' : runInLoop cur target t s = Ok s' ->
  ipPort_ s' = ipPort_ s /\ name_ s' = name_ s.
Proof. unfold runInLoop. destruct (_ =? _); [apply exec_task_names|by intros [= <-]]. Qed.
Lemma server_exec_names ev s s' : server_exec ev s = Ok s' -> ipPort_ s' = ipPort_ s /\ name_ s' = name_ s.
Proof.
  destruct ev as [r fd2 idle|l|c ev]; cbn [server_exec].
  - destruct (acceptor_handleRead _ _ _ _) as [[fd|] a]; [|by intros [= <-]].
    unfold newConnection. destruct (getNextLoop _) as [[io p]|]; [|done]. cbn [res_bind].
    intros H. by apply runInLoop_names in H.
  - destruct (take_task _ _) as [[t rest]|]; [|by intros [= <-]]. intros H. by apply exec_task_names in H.
  - unfold conn_event. intros H. inv_ok. destruct (_ <? _)%nat; inv_ok; [|by subst].
    unfold removeConnection in H. by apply runInLoop_names in H.
Qed.

Lemma server_run_inv l s : server_inv s -> server_events_okb l s = true ->
  exists s', server_run l s = Ok s' /\ server_inv s' /\ ipPort_ s' = ipPort_ s /\ name_ s' = name_ s.
Proof.
  revert s. induction l as [|ev l IH]; intros s I H; [by exists s|]. cbn in H.
  apply andb_true_iff in H as [H1 H2]. destruct (server_exec_inv ev s I H1) as (s1 & E & I1).
  pose proof (server_exec_names ev s s1 E) as [<- <-].
  unfold server_run. cbn [res_foldl]. rewrite E in *. by apply IH.
Qed.

Lemma server_start_inv loop ip name idle n startLoop cb a s : zlen ip <= 50 -> 0 <= n < 2 ^ 31 ->
  Acceptor_new idle = Ok a ->
  (let* s := server_setThreadNum n (TcpServer_new loop ip name a) in server_start startLoop cb s) = Ok s ->
  server_inv s.
Proof.
  intros Hip Hn Ha. unfold Acceptor_new in Ha. inv_ok. subst a.
  unfold server_setThreadNum. rewrite (proj2 (Z.leb_le 0 n)) by lia. cbn.
  intros [= <-]. constructor; cbn; try done.
  - constructor; cbn; [done| |].
    + unfold zlen. destruct (map _ _) eqn:E; [done|]. cbn. lia.
    + unfold zlen. rewrite length_map, length_seq. lia.
  - intros l t Hin. by apply elem_of_nil in Hin.
  - intros c Hin. by apply elem_of_nil in Hin.
Qed.

(** What a phase tells of the map and of the removal. *)
Lemma phase_facts m ts dead c sc : phase m ts dead c sc ->
  (state_ (conn sc) <> kDisconnected -> m !! conn_name sc = Some c) /\
  (occ c dead <= 1)%nat /\
  ((0 < occ c dead)%nat -> state_ (conn sc) = kDisconnected /\ m !! conn_name sc = None) /\
  (ts = [] -> (m !! conn_name sc = Some c -> open (conn sc)) /\
              (state_ (conn sc) = kDisconnected -> occ c dead = 1%nat)).
Proof.
  unfold phase, open. cbv zeta. intros H.
  destruct (state_ (conn sc)) eqn:Es.
  - destruct H as (He & [(Hr & Hd & Hm)|(Hr & Hd & Hm)]); split_and!; try done; try lia.
    + intros ->. done.
    + intros ->. change (pending _ []) with O in Hd. rewrite Hm. by split.
  - destruct H as (He & Hr & Hm). split_and!; try done; try lia. intros ->. done.
  - destruct H as (Hr & Hm). split_and!; try done; try lia. intros _. split; [by left|done].
  - destruct H as (Hr & Hm). split_and!; try done; try lia. intros _. split; [by right|done].
Qed.

(** C3: The registry of a server, from its start, through every interleaving of
    accepted connections, failed accepts, the loops' tasks and the connections'
    own events: no assertion fails, in the server ([n == 1]) or in a connection,
    and nothing runs on a wrong thread; a connection that has not closed is in
    the map under its name; a closed one is destroyed at most once, and only
    after it has left the map; and when no task waits, the map holds exactly
    the open connections, while each closed one has been destroyed once. *)
Theorem server_registry loop ip name idle n startLoop cb a s l
  (Hip : zlen ip <= 50) (Hn : 0 <= n < 2 ^ 31) (Ha : Acceptor_new idle = Ok a)
  (Hs : (let* s := server_setThreadNum n (TcpServer_new loop ip name a) in
         server_start startLoop cb s) = Ok s)
  (Hl : server_events_okb l s = true) :
  exists s', server_run l s = Ok s' /\
    (forall c sc, conns s' !! c = Some sc ->
       conn_name sc = conn_name_of ip name c /\
       (state_ (conn sc) <> kDisconnected -> connections_ s' !! conn_name sc = Some c) /\
       (occ c (destroyed s') <= 1)%nat /\
       (c ∈ destroyed s' -> state_ (conn sc) = kDisconnected /\ connections_ s' !! conn_name sc = None)) /\
    (tasks s' = [] ->
       (forall nm c, connections_ s' !! nm = Some c <->
          exists sc, conns s' !! c = Some sc /\ conn_name sc = nm /\ open (conn sc)) /\
       (forall c sc, conns s' !! c = Some sc -> state_ (conn sc) = kDisconnected ->
          occ c (destroyed s') = 1%nat)).
Proof.
  pose proof (server_start_inv loop ip name idle n startLoop cb a s Hip Hn Ha Hs) as I0.
  assert (Hc : ipPort_ s = ip /\ name_ s = name).
  { unfold server_setThreadNum in Hs. rewrite (proj2 (Z.leb_le 0 n)) in Hs by lia. revert Hs.
    unfold Acceptor_new in Ha. inv_ok. subst a. cbn. by intros [= <-]. }
  destruct (server_run_inv l s I0 Hl) as (s' & E & I & Hip' & Hname'). exists s'. split; [done|].
  rewrite (proj1 Hc) in Hip'. rewrite (proj2 Hc) in Hname'. clear Hc.
  assert (P : forall c sc, conns s' !! c = Some sc -> conn_name sc = conn_name_of ip name c /\
    phase (connections_ s') (tasks s') (destroyed s') c sc).
  { intros c sc Hsc. destruct (si_conn s' I c sc Hsc) as (_ & Hnm & _ & Hph).
    by rewrite Hip', Hname' in Hnm. }
  split; [intros c sc Hsc|intros Ht; split; [intros nm c|intros c sc Hsc Hd]].
  - destruct (P c sc Hsc) as [Hnm Hph]. destruct (phase_facts _ _ _ _ _ Hph) as (F1 & F2 & F3 & _).
    split_and!; try done. intros Hin. by apply F3, occ_pos.
  - split.
    + intros Hm. destruct (si_map s' I _ _ Hm) as (sc & Hsc & <-). exists sc. split_and!; try done.
      destruct (P c sc Hsc) as [_ Hph]. destruct (phase_facts _ _ _ _ _ Hph) as (_ & _ & _ & F4).
      by apply F4.
    + intros (sc & Hsc & <- & Ho). destruct (P c sc Hsc) as [_ Hph].
      destruct (phase_facts _ _ _ _ _ Hph) as (F1 & _). apply F1. destruct Ho as [-> | ->]; done.
  - destruct (P c sc Hsc) as [_ Hph]. destruct (phase_facts _ _ _ _ _ Hph) as (_ & _ & _ & F4).
    by apply F4.
Qed.

(** Two threads; three connections: one closed by its peer, one by the server
    while the process is out of descriptors, one left open. *)
Definition ex_events : list server_event :=
  [SvAccept (Accepted 20) 0 0; SvAccept (Accepted 21) 0 0; SvTask 11; SvTask 10;
   SvAccept (AcceptFailed true) 22 9; SvConn 1 (EvRead (ReadData []));
   SvConn 2 EvForceClose; SvConn 2 (EvFunctor WriteWouldBlock); SvAccept (Accepted 23) 0 0;
   SvTask 10; SvTask 1; SvTask 1; SvTask 10; SvTask 11].

Definition ex_server : TcpServer :=
  mkServer 1 (bs "0.0.0.0:80") (bs "web") (mkAcceptor true 3 []) (mkPool 1 true 2 0 [10; 11]) 1 1
    ∅ ∅ [] [].

Lemma server_registry_witness :
  exists s', server_run ex_events ex_server = Ok s' /\ tasks s' = [] /\
    forall nm c, connections_ s' !! nm = Some c <->
      exists sc, conns s' !! c = Some sc /\ conn_name sc = nm /\ open (conn sc).
Proof.
  destruct (server_registry 1 (bs "0.0.0.0:80") (bs "web") 3 2 (fun i => 10 + i) false
              (mkAcceptor false 3 []) ex_server ex_events) as (s' & E & _ & H).
  - by vm_compute.
  - by vm_compute.
  - done.
  - by vm_compute.
  - by vm_compute.
  - exists s'. split; [exact E|].
    assert (T : match server_run ex_events ex_server with Ok s1 => tasks s1 = [] | Err _ => False end)
      by (by vm_compute).
    rewrite E in T. split; [exact T|]. exact (proj1 (H T)).
Defined.
