(* ===== verification/AcceptorChannel.v ===== *)
(** * The acceptor and its channel (cnet/net/Acceptor.h, Acceptor.cc)

    The life of an acceptor over the poller of its loop, against the contract of
    pollers: it is made, listens, and is destroyed with its channel and its
    socket. *)

From stdpp Require Import gmap.
From S2P Require Import Prelude Channel EPollPoller TcpServer.

Section acceptor.
Context {P : Type} `{PollerLaws P}.

(** The channel at the address [p], for the listening socket, with its callback:
    nothing is asked of the poller yet. *)
Definition acceptChannel (sockfd : Z) : Channel := setCallbacks (Channel_new sockfd) true false false false.

(** [listen()], on the thread of the loop; [ok]: [listen(2)] succeeded. *)
Definition Acceptor_listen (ok : bool) (p : Z) (po : P) (st : store) (a : Acceptor) : res (P * store * Acceptor) :=
  if negb ok then Err EFatal else
  let* (po, st) := enableReading po st p in
  Ok (po, st, TcpServer.listen a).

(** The destructor, then those of the members: the channel checks that it is
    gone, the socket is closed. *)
Definition Acceptor_delete (p : Z) (po : P) (st : store) (a : Acceptor) : res (P * store * Acceptor) :=
  let* c := channel_at st p in
  let* (po, st) := disableAll po st p in
  let* (po, st) := remove po st p in
  let* st := Channel_delete po st p in
  Ok (po, st, mkAcceptor (listenning_ a) (idleFd_ a) (fds_closed a ++ [idleFd_ a; fd_ c])).

(** [n] calls of [listen]. *)
Fixpoint listens (n : nat) (p : Z) (s : P * store * Acceptor) : res (P * store * Acceptor) :=
  match n with
  | O => Ok s
  | S n => let* s := listens n p s in Acceptor_listen true p s.1.1 s.1.2 s.2
  end.

(** ** Properties *)

(** The channel of the acceptor in its store: what it asks for, and what else the
    poller and the store hold. *)
Record accepting (sockfd p e : Z) (po0 po : P) (st0 st : store) : Prop := mkAccepting {
  ac_ok : poller_ok po st;
  ac_channel : exists c, st !! p = Some c /\ fd_ c = sockfd /\ events_ c = e /\ eventHandling_ c = false /\ st = <[p := c]> st0;
  ac_channels : channels_ po = channels_ po0 \/ channels_ po = <[sockfd := p]> (channels_ po0);
  ac_asks : e <> kNoneEvent -> channels_ po !! sockfd = Some p;
}.

Lemma accepting_free sockfd p e po0 po st0 st : channels_ po0 !! sockfd = None -> accepting sockfd p e po0 po st0 st ->
  channels_ po !! sockfd = None \/ channels_ po !! sockfd = Some p.
Proof. intros Hf [_ _ [-> | ->] _]; [by left|right; by rewrite lookup_insert_eq]. Qed.

(** An operation on the channel, other than its removal. *)
Lemma accepting_op o sockfd p e po0 po st0 st : channels_ po0 !! sockfd = None -> o <> Remove ->
  accepting sockfd p e po0 po st0 st -> exists po' st', run_op o po st p = Ok (po', st') /\
    accepting sockfd p (op_events o e) po0 po' st0 st' /\ channels_ po' = <[sockfd := p]> (channels_ po0).
Proof.
  intros Hf Ho A. pose proof (accepting_free _ _ _ _ _ _ _ Hf A) as Hc. destruct A as [I (c & Hp & Efd & Ee & Eh & Es) Ch As].
  rewrite <- Efd in Hc. destruct (update_ok po st p c I Hp Hc (op_events o e)) as (po' & i & E & I' & Ch').
  assert (Ec : channels_ po' = <[sockfd := p]> (channels_ po0)).
  { rewrite Ch', Efd. destruct Ch as [-> | ->]; [done|by rewrite insert_insert_eq]. }
  exists po'. eexists. split; [rewrite (run_op_set o po st p c Ho Hp), Ee; exact E|]. split; [|exact Ec].
  constructor; [exact I'| |by right|].
  - eexists. split; [by rewrite lookup_insert_eq|]. do 3 (split; [done|]). by rewrite Es, insert_insert_eq.
  - intros _. by rewrite Ec, lookup_insert_eq.
Qed.

Lemma accepting_listens n sockfd p po0 st0 a : channels_ po0 !! sockfd = None ->
  accepting sockfd p kNoneEvent po0 po0 st0 (<[p := acceptChannel sockfd]> st0) ->
  exists po st, listens n p (po0, <[p := acceptChannel sockfd]> st0, a) =
      Ok (po, st, match n with O => a | S _ => TcpServer.listen a end) /\
    accepting sockfd p (match n with O => kNoneEvent | S _ => kReadEvent end) po0 po st0 st.
Proof.
  intros Hf A. induction n as [|n (po & st & E & A')]; [by do 2 eexists|]. cbn [listens]. rewrite E. cbn [res_bind fst snd].
  destruct (accepting_op EnableReading _ _ _ _ _ _ _ Hf ltac:(done) A') as (po' & st' & E' & A2 & _).
  cbn [run_op] in E'. unfold Acceptor_listen. cbn [negb]. rewrite E'. cbn [res_bind]. exists po', st'.
  split; [by destruct n|]. by destruct n.
Qed.

(** The acceptor of a socket that its poller does not know yet, over any poller
    that keeps the contract.  While it has been told to listen, and only then,
    the poller watches the socket for connections.  Its destructor, whether it
    listened or not, fails no assertion, of the poller or of the channel; it
    leaves the poller with the channels it had, the socket unwatched, and both
    descriptors closed once. *)
Theorem acceptor_unwatched (sockfd p : Z) (po0 : P) (st0 : store) (a : Acceptor) (n : nat)
    (I : poller_ok po0 (<[p := acceptChannel sockfd]> st0)) (Hf : channels_ po0 !! sockfd = None) (Hp : st0 !! p = None) :
  exists po1 st1 a1 po2 a2, listens n p (po0, <[p := acceptChannel sockfd]> st0, a) = Ok (po1, st1, a1) /\
    (listenning_ a = false -> (n = 0%nat <-> listenning_ a1 = false)) /\
    watched po1 sockfd = match n with O => None | S _ => Some (kReadEvent, p) end /\
    Acceptor_delete p po1 st1 a1 = Ok (po2, st0, a2) /\
    channels_ po2 = channels_ po0 /\ watched po2 sockfd = None /\
    fds_closed a2 = fds_closed a ++ [idleFd_ a; sockfd].
Proof.
  assert (A : accepting sockfd p kNoneEvent po0 po0 st0 (<[p := acceptChannel sockfd]> st0)).
  { constructor; [done| |by left|done]. eexists. split; [by rewrite lookup_insert_eq|done]. }
  destruct (accepting_listens n sockfd p po0 st0 a Hf A) as (po1 & st1 & E1 & A1).
  destruct (accepting_op DisableAll _ _ _ _ _ _ _ Hf ltac:(done) A1) as (po2 & st2 & E2 & A2 & C2). cbn [run_op] in E2.
  destruct A2 as [I2 (c2 & Hc2 & Efd & Ee & Eh & Es) _ _]. cbn [op_events] in Ee.
  assert (Hr : channels_ po2 !! fd_ c2 = Some p) by (by rewrite C2, Efd, lookup_insert_eq).
  destruct (remove_ok po2 st2 p c2 I2 Hc2 Hr Ee) as (po3 & i & E3 & I3 & C3).
  assert (C : channels_ po3 = channels_ po0) by (by rewrite C3, C2, Efd, delete_insert_id).
  exists po1, st1, (match n with O => a | S _ => TcpServer.listen a end), po3. eexists. split; [exact E1|]. split_and!.
  - intros Ha. by destruct n.
  - destruct A1 as [I1 (c1 & Hc1 & Efd1 & Ee1 & _) Ch1 As1]. destruct n as [|n].
    + cbn in E1. injection E1 as <- _. destruct (watched po0 sockfd) as [[e q]|] eqn:W; [|done].
      destruct (watched_registered _ _ _ _ _ I W) as (Hq & _). congruence.
    + rewrite <- Efd1, <- Ee1. apply (watched_events _ _ _ _ I1 Hc1); [|by rewrite Ee1]. rewrite Efd1. by apply As1.
  - unfold Acceptor_delete. unfold channel_at. destruct A1 as [_ (c1 & Hc1 & Efd1 & _) _ _]. rewrite Hc1. cbn [res_bind]. rewrite E2. cbn [res_bind].
    unfold remove, channel_at. rewrite Hc2. cbn [res_bind]. unfold isNoneEvent. rewrite Ee. cbn [Z.eqb kNoneEvent assert_ res_bind].
    rewrite E3. cbn [res_bind]. unfold Channel_delete, channel_at. rewrite lookup_insert_eq. cbn [res_bind].
    cbn [set_index set_added eventHandling_ addedToLoop_]. rewrite Eh. cbn [negb assert_ res_bind].
    unfold hasChannel, channel_at. rewrite lookup_insert_eq. cbn [res_bind fd_ set_index set_added].
    rewrite C, Efd, Hf. rewrite bool_decide_eq_false_2 by done. cbn [negb assert_ res_bind].
    rewrite Efd1, Es, insert_insert_eq, delete_insert_id by done. reflexivity.
  - exact C.
  - destruct (watched po3 sockfd) as [[e q]|] eqn:W; [|done].
    destruct (watched_registered _ _ _ _ _ I3 W) as (Hq & _). congruence.
  - cbn. by destruct n.
Qed.
End acceptor.

(** Over epoll. *)
Lemma acceptor_unwatched_witness :
  let po := EPollPoller_new (∅ : gmap Z (Z * Z)) in
  exists po1 st1 a1, listens 1 100 (po, <[100 := acceptChannel 3]> ∅, mkAcceptor false 4 []) = Ok (po1, st1, a1) /\
    watched po1 3 = Some (kReadEvent, 100) /\
    exists po2 a2, Acceptor_delete 100 po1 st1 a1 = Ok (po2, ∅, a2) /\ fds_closed a2 = [4; 3].
Proof.
  intros po. assert (R : poller_ok po (<[100 := acceptChannel 3]> ∅)).
  { constructor; cbn.
    - intros p c _ Hr. done.
    - intros p c Hp _. apply lookup_insert_Some in Hp as [[_ <-]|[_ Hp]]; [reflexivity|done].
    - intros fd p Hr. done.
    - intros fd [x Hx]. done. }
  destruct (acceptor_unwatched 3 100 po ∅ (mkAcceptor false 4 []) 1 R eq_refl eq_refl) as (po1 & st1 & a1 & po2 & a2 & E1 & _ & W & E2 & _ & _ & F).
  exists po1, st1, a1. split; [exact E1|]. split; [exact W|]. exists po2, a2. split; [exact E2|exact F].
Defined.
