(* ===== verification/Callbacks.v ===== *)
(** * The callbacks that the connections of a server make

    What one event of TcpServer does to the connection it is about, and which
    callbacks that connection makes: what the programs that set callbacks on a
    server (the cache, the HTTP server) are proved over. *)

From stdpp Require Import gmap.
From S2P Require Import Prelude Channel TcpConnection EventLoopThreadPool TcpServer.

(** The connection that an event of the server is about. *)
Definition touched (ev : server_event) (s : TcpServer) : option Z :=
  match ev with
  | SvAccept (Accepted _) _ _ => Some (nextConnId_ s)
  | SvAccept (AcceptFailed _) _ _ => None
  | SvTask l => task_conn ∘ fst <$> take_task l (tasks s)
  | SvConn c _ => Some c
  end.

Definition calls_of (c : Z) (s : TcpServer) : list call :=
  default [] ((calls ∘ conn) <$> conns s !! c).

(** The callbacks of a connection that an event made. *)
Definition new_calls (c : Z) (s s' : TcpServer) : list call :=
  drop (length (calls_of c s)) (calls_of c s').

(** ** What a connection says *)

(** [c'] has made more callbacks than [c], messages not among them. *)
Definition says (c c' : TcpConnection) : Prop := exists new, calls c' = calls c ++ new /\ CallMessage ∉ new.

Lemma says_same c c' : calls c' = calls c -> says c c'.
Proof. intros E. exists []. rewrite app_nil_r. split; [done|apply not_elem_of_nil]. Qed.
Lemma says_trans c1 c2 c3 : says c1 c2 -> says c2 c3 -> says c1 c3.
Proof.
  intros (n1 & E1 & H1) (n2 & E2 & H2). exists (n1 ++ n2). rewrite E2, E1, app_assoc. split; [done|].
  rewrite elem_of_app. tauto.
Qed.
Lemma says_from c c1 c' : calls c1 = calls c -> says c1 c' -> says c c'.
Proof. unfold says. by intros ->. Qed.
Lemma says_call k c c1 : calls c1 = calls c -> k <> CallMessage -> says c (call_ k c1).
Proof.
  intros E Hk. exists [k]. cbn. rewrite E. split; [done|]. intros H%list_elem_of_singleton. by destruct Hk.
Qed.

Lemma handleClose_says c c' : handleClose c = Ok c' -> says c c'.
Proof.
  unfold handleClose. intros H. inv_ok. subst c'.
  eapply says_trans; [|apply says_call; [reflexivity|done]]. by apply (says_call (CallConnection _)).
Qed.

Lemma forceCloseInLoop_says c c' : forceCloseInLoop c = Ok c' -> says c c'.
Proof.
  unfold forceCloseInLoop. destruct (_ || _); [apply handleClose_says|]. intros [= <-]. by apply says_same.
Qed.

Lemma write_directly_calls data w c : calls (write_directly data w c).1.1.1 = calls c.
Proof. unfold write_directly. repeat case_match; done. Qed.

Lemma sendInLoop_says data w c c' : sendInLoop data w c = Ok c' -> says c c'.
Proof.
  unfold sendInLoop. destruct (is_disconnected c); [intros [= <-]; by apply says_same|].
  set (b := negb (isWriting (channel_ c)) && _).
  set (wd := if b then write_directly data w c else (c, 0, zlen data, false)).
  assert (Hw : calls wd.1.1.1 = calls c) by (unfold wd; case_match; [apply write_directly_calls|done]).
  destruct wd as [[[c1 nw] rem] fe]. cbn in Hw. intros H. inv_ok. apply says_same.
  destruct (negb fe && _); [|inv_ok; by subst c']. unfold buffer_rest in *. inv_ok. subst c'. repeat case_match; done.
Qed.

Lemma run_functor_says f w c c' : run_functor f w c = Ok c' -> says c c'.
Proof.
  destruct f; cbn [run_functor]; try (intros [= <-]; try by apply says_call).
  - apply sendInLoop_says.
  - apply says_same. unfold shutdownInLoop. by case_match.
  - apply forceCloseInLoop_says.
  - apply says_same. unfold startReadInLoop. by case_match.
  - apply says_same. unfold stopReadInLoop. by case_match.
Qed.

(** An event adds callbacks; a message is the only one. *)
Lemma exec_says ev c c' : exec ev c = Ok c' ->
  says c c' \/ ((exists r, ev = EvRead r) /\ state_ c' = state_ c /\ calls c' = calls c ++ [CallMessage]).
Proof.
  destruct ev; cbn [exec].
  - unfold connectEstablished. intros H. inv_ok. subst. left. by apply says_call.
  - left. unfold send in *. repeat case_match; inv_ok; subst; try by apply says_same. eapply sendInLoop_says; eauto.
  - intros [= <-]. left. apply says_same. unfold shutdown, shutdownInLoop. repeat case_match; done.
  - intros [= <-]. left. apply says_same. unfold forceClose. by case_match.
  - intros [= <-]. left. apply says_same. unfold forceCloseWithDelay. by case_match.
  - left. by apply forceCloseInLoop_says.
  - intros [= <-]. left. apply says_same. unfold startReadInLoop. by case_match.
  - intros [= <-]. left. apply says_same. unfold stopReadInLoop. by case_match.
  - destruct (posted c) as [|f fs]; [intros [= <-]; left; by apply says_same|].
    intros H%run_functor_says. left. by apply (says_from c (set_posted fs c)).
  - unfold handleRead. intros H. inv_ok. repeat case_match; inv_ok; subst.
    + right. eauto.
    + left. by eapply (says_from c (set_input _ c)), handleClose_says.
    + left. by apply says_same.
  - unfold handleWrite, shutdownInLoop. intros H. left. apply says_same.
    repeat (case_match; inv_ok; subst; try done).
  - left. by apply handleClose_says.
  - intros [= <-]. left. by apply says_same.
  - unfold connectDestroyed. intros H. inv_ok. subst. left. destruct (connected c).
    + by apply (says_call (CallConnection _)).
    + by apply says_same.
Qed.

(** ** What an event of the server does to its connection *)

Definition talks (k k' : TcpConnection) : Prop :=
  says k k' \/ (open k /\ state_ k' = state_ k /\ calls k' = calls k ++ [CallMessage]).

(** A connection is established or destroyed by tasks; the rest are its own
    events. *)
Definition moves (ev : server_event) (k k' : TcpConnection) : Prop :=
  match ev with
  | SvConn _ ev => exec ev k = Ok k'
  | _ => k' = k \/ connectEstablished k = Ok k' \/ connectDestroyed k = Ok k'
  end.

Lemma moves_talks ev k k' : TcpConnection.inv k -> match ev with SvConn _ ev => event_ok ev k | _ => True end ->
  moves ev k k' -> talks k k'.
Proof.
  intros I. destruct ev as [r fd2 idle|l|c ev]; cbn [moves]; intros Hok.
  3:{ intros E. destruct (exec_says ev k k' E) as [|([r ->] & Es & Ec)]; [by left|right]. split_and!; try done.
      destruct Hok as [He _]. unfold open. destruct (state_ k) eqn:E'; try by auto.
      all: destruct He; apply (inv_closed _ I); auto. }
  all: intros [->|[E|E]]; left; [by apply says_same| |].
  1,3: destruct (exec_says EvEstablished k k' E) as [|([r' Er] & _)]; done.
  all: destruct (exec_says EvDestroyed k k' E) as [|([r' Er] & _)]; done.
Qed.

(** Only the connection [c] changes, from [k]. *)
Record only (ev : server_event) (c : Z) (k : TcpConnection) (s s' : TcpServer) (sc' : SConn) : Prop := mkOnly {
  on_at : conns s' !! c = Some sc';
  on_others : forall c', c' <> c -> conns s' !! c' = conns s !! c';
  on_name : forall sc, conns s !! c = Some sc -> conn_name sc' = conn_name sc;
  on_moves : moves ev k (conn sc');
}.

Lemma task_only ev l t s s' sc : match ev with SvConn _ _ => False | _ => True end ->
  conns s !! task_conn t = Some sc -> exec_task l t s = Ok s' ->
  exists sc', only ev (task_conn t) (conn sc) s s' sc'.
Proof.
  intros Hev Hc. assert (W : forall f s1, with_conn l (task_conn t) f s = Ok s1 ->
    (forall k', f (conn sc) = Ok k' -> moves ev (conn sc) k') -> exists sc', only ev (task_conn t) (conn sc) s s1 sc').
  { intros f s1. unfold with_conn. rewrite (find_conn_Some _ _ _ Hc). cbn [res_bind]. destruct (negb _); [done|].
    intros H Hf. inv_ok. subst s1. eexists. constructor; cbn.
    - by rewrite lookup_insert_eq.
    - intros c' Hne. by rewrite lookup_insert_ne.
    - intros sc0 E. rewrite Hc in E. by injection E as <-.
    - by apply Hf. }
  destruct t as [c|c|c]; cbn [exec_task task_conn] in *.
  - intros H. apply (W _ _ H). intros k' E. destruct ev; try done; by right; left.
  - unfold removeConnectionInLoop. destruct (negb _); [done|]. rewrite (find_conn_Some _ _ _ Hc). cbn [res_bind].
    intros H. inv_ok. subst s'. exists sc. constructor; [exact Hc|done| |destruct ev; try done; by left].
    intros sc0 E. rewrite Hc in E. by injection E as <-.
  - intros H. inv_ok. subst s'. destruct (W _ _ H0) as (sc' & [O1 O2 O3 O4]).
    + intros k' E. destruct ev; try done; by right; right.
    + by exists sc'.
Qed.

Lemma runInLoop_only ev cur target t s s' sc : match ev with SvConn _ _ => False | _ => True end ->
  conns s !! task_conn t = Some sc -> runInLoop cur target t s = Ok s' ->
  exists sc', only ev (task_conn t) (conn sc) s s' sc'.
Proof.
  intros Hev Hc. unfold runInLoop. destruct (cur =? target); [by apply task_only|]. intros [= <-].
  exists sc. constructor; [exact Hc|done| |destruct ev; try done; by left].
  intros sc0 E. rewrite Hc in E. by injection E as <-.
Qed.

Lemma conn_event_only c ev s s' sc : conns s !! c = Some sc -> conn_event c ev s = Ok s' ->
  exists sc', only (SvConn c ev) c (conn sc) s s' sc'.
Proof.
  intros Hc. unfold conn_event. rewrite (find_conn_Some _ _ _ Hc). cbn [res_bind]. intros H.
  apply res_bind_Ok in H as (k & Ek & H). cbv zeta in H.
  set (s1 := set_conn c (mkSConn (conn_name sc) (conn_loop sc) k) s) in *.
  assert (O : forall s2, conns s2 = conns s1 -> exists sc', only (SvConn c ev) c (conn sc) s s2 sc').
  { intros s2 E2. exists (mkSConn (conn_name sc) (conn_loop sc) k). constructor; rewrite ?E2; cbn.
    - by rewrite lookup_insert_eq.
    - intros c' Hne. by rewrite lookup_insert_ne.
    - intros sc0 E. rewrite Hc in E. by injection E as <-.
    - done. }
  destruct (_ <? _)%nat; [|injection H as <-; by apply O].
  unfold removeConnection, runInLoop in H. destruct (_ =? _); [|injection H as <-; by apply O].
  cbn [exec_task] in H. unfold removeConnectionInLoop in H. destruct (negb _); [done|].
  destruct (find_conn c s1) as [sc1|]; [|done]. cbn [res_bind] in H. inv_ok. subst s'. by apply O.
Qed.

(** What is known of the connection that an event is about. *)
Record about (ev : server_event) (c : Z) (k : TcpConnection) (s s' : TcpServer) (sc' : SConn) : Prop := mkAbout {
  ab_only : only ev c k s s' sc';
  ab_inv : TcpConnection.inv k;
  ab_calls : calls_of c s = calls k;
  ab_from : (exists sc, conns s !! c = Some sc /\ k = conn sc) \/
            (conns s !! c = None /\ exists fd, k = TcpConnection_new fd false false defaultHighWaterMark);
  ab_talks : talks k (conn sc');
}.

Lemma server_about ev s s' : server_inv s -> server_event_okb ev s = true -> server_exec ev s = Ok s' ->
  match touched ev s with
  | None => conns s' = conns s
  | Some c => exists k sc', about ev c k s s' sc'
  end.
Proof.
  intros I Hok.
  assert (Of : forall c sc, conns s !! c = Some sc -> match ev with SvConn _ ev => event_ok ev (conn sc) | _ => True end ->
    (exists sc', only ev c (conn sc) s s' sc') -> exists k sc', about ev c k s s' sc').
  { intros c sc Hc He (sc' & O). pose proof (si_conn s I c sc Hc) as (_ & _ & Hi & _). exists (conn sc), sc'.
    constructor; [done|done| |left; by exists sc|].
    - unfold calls_of. by rewrite Hc.
    - by eapply moves_talks, O. }
  destruct ev as [[connfd|em] fd2 idle|l|c ev]; cbn [touched server_exec server_event_okb acceptor_handleRead] in *.
  - intros H. unfold newConnection in H. destruct (getNextLoop _) as [[io pool]|]; [|done]. cbn [res_bind] in H.
    destruct (fresh_conn s (nextConnId_ s) I (Z.le_refl _)) as (Hnone & _).
    set (k := TcpConnection_new connfd false false defaultHighWaterMark) in *.
    eapply (runInLoop_only (SvAccept (Accepted connfd) fd2 idle) _ _ (TEstablished (nextConnId_ s))) in H
      as (sc' & [O1 O2 O3 O4]); [|done|cbn; by rewrite lookup_insert_eq]. cbn [task_conn conn] in *.
    exists k, sc'. constructor; [|apply new_inv|unfold calls_of; by rewrite Hnone|right; eauto|].
    + constructor; [exact O1| | |exact O4].
      * intros c' Hne. rewrite O2 by done. cbn. by rewrite lookup_insert_ne.
      * intros sc E. congruence.
    + by eapply (moves_talks (SvAccept (Accepted connfd) fd2 idle)); [apply new_inv| |].
  - destruct em; intros [= <-]; done.
  - destruct (take_task l (tasks s)) as [[t rest]|] eqn:E; cbn; [|by intros [= <-]]. apply take_task_perm in E.
    destruct (task_phase s l t rest I E) as (sc & Hc & _). intros H. apply (Of _ sc Hc Logic.I).
    destruct (task_only (SvTask l) l t (set_tasks rest s) s' sc Logic.I Hc H) as (sc' & [O1 O2 O3 O4]).
    exists sc'. constructor; [exact O1|exact O2|exact O3|exact O4].
  - destruct (conns s !! c) as [sc|] eqn:E; [|done]. apply andb_true_iff in Hok as [H1 H2]. intros H.
    apply (Of c sc E); [by apply event_okb_ok|]. by apply conn_event_only.
Qed.

(** ** Ups and downs *)

(** Ups and downs that take turns: what they lead to. *)
Fixpoint turns (up : bool) (l : list bool) : option bool :=
  match l with
  | [] => Some up
  | b :: l => if Bool.eqb b up then None else turns b l
  end.

Definition is_open (k : TcpConnection) : bool := connected k || is_disconnecting k.

Lemma open_turns k k' new : TcpConnection.inv k -> TcpConnection.inv k' -> calls k' = calls k ++ new ->
  turns (is_open k) (ups_and_downs new) = Some (is_open k').
Proof.
  intros I I' E. pose proof (inv_calls _ I) as H. pose proof (inv_calls _ I') as H'.
  rewrite E, ups_and_downs_app, H in H'. unfold is_open, connected, is_disconnecting.
  destruct (state_ k), (state_ k'); cbn in H' |- *; try done; simplify_eq; try rewrite H'; done.
Qed.

Lemma names_unique s c1 c2 sc1 sc2 : server_inv s -> conns s !! c1 = Some sc1 -> conns s !! c2 = Some sc2 ->
  conn_name sc1 = conn_name sc2 -> c1 = c2.
Proof.
  intros I H1 H2 E. destruct (si_conn s I _ _ H1) as (R1 & N1 & _), (si_conn s I _ _ H2) as (R2 & N2 & _).
  pose proof (si_ip s I). pose proof (si_id s I). rewrite N1, N2 in E.
  apply (conn_name_inj (ipPort_ s) (name_ s)) in E; lia || done.
Qed.

Lemma is_open_spec k : is_open k = true <-> open k.
Proof. apply openb. Qed.


(** The callbacks of an event: one message on an open connection, or the ups and
    downs that lead from what it was to what it is. *)
Lemma about_calls ev c k s s' sc' : about ev c k s s' sc' -> server_inv s' ->
  (CallMessage ∉ new_calls c s s' /\
   turns (is_open k) (ups_and_downs (new_calls c s s')) = Some (is_open (conn sc'))) \/
  (new_calls c s s' = [CallMessage] /\ open k /\ state_ (conn sc') = state_ k).
Proof.
  intros [[O1 _ _ _] Ik Ec _ T] I'. pose proof (si_conn s' I' c sc' O1) as (_ & _ & Ik' & _).
  assert (E : forall new, calls (conn sc') = calls k ++ new -> new_calls c s s' = new).
  { intros new En. unfold new_calls. rewrite Ec. unfold calls_of. rewrite O1. cbn. rewrite En.
    apply drop_app_length. }
  destruct T as [(new & En & Hm)|(Ho & Es & En)]; rewrite (E _ En); [left|right; done].
  split; [done|]. by apply open_turns.
Qed.

Lemma about_new_calls ev c k s s' sc' : about ev c k s s' sc' ->
  new_calls c s s' = drop (length (calls k)) (calls (conn sc')).
Proof. intros [[O1 _ _ _] _ Ec _ _]. unfold new_calls. rewrite Ec. unfold calls_of. by rewrite O1. Qed.

(** A server that has just been started. *)
Lemma server_start_empty loop ip name idle n startLoop cb a s : 0 <= n -> Acceptor_new idle = Ok a ->
  (let* s := server_setThreadNum n (TcpServer_new loop ip name a) in server_start startLoop cb s) = Ok s ->
  conns s = ∅.
Proof.
  intros Hn Ha. unfold server_setThreadNum. rewrite (proj2 (Z.leb_le 0 n)) by lia.
  unfold Acceptor_new in Ha. inv_ok. subst a. cbn. by intros [= <-].
Qed.
