(* ===== verification/HttpService.v ===== *)
(** * HttpServer over TcpServer (cnet/net/http/HttpServer.cc)

    The whole server: what [onConnection] and [onMessage] do to the connections
    of a TcpServer, in any interleaving, and what one connection alone would
    see, [serve]. *)

From stdpp Require Import gmap.
From S2P Require Import Prelude Buffer HttpRequest HttpContext HttpResponse Channel TcpConnection EventLoopThreadPool TcpServer Callbacks HttpServer.

(** ** One connection *)

(** The server posts nothing: it sends on the connection's own loop, and sets no
    callbacks for the end of a write. *)
Definition quiet (k : TcpConnection) : Prop :=
  posted k = [] /\ hasWriteComplete k = false /\ hasHighWaterMark k = false.

(** [k'] has sent more than [k], the rest being the same. *)
Record sends (k k' : TcpConnection) : Prop := mkSends {
  se_quiet : quiet k';
  se_input : inputBuffer_ k' = inputBuffer_ k;
  se_calls : calls k' = calls k;
}.

Lemma write_directly_sends m w k : quiet k -> sends k (write_directly m w k).1.1.1.
Proof.
  intros (Q1 & Q2 & Q3). unfold write_directly. destruct w; cbn; rewrite ?Q2, ?andb_false_r; by constructor.
Qed.

Lemma sendInLoop_sends m w k k' : quiet k -> sendInLoop m w k = Ok k' -> sends k k'.
Proof.
  intros Q. unfold sendInLoop. destruct (is_disconnected k); [intros [= <-]; by constructor|].
  set (b := negb (isWriting (channel_ k)) && _). clearbody b.
  set (wd := if b then write_directly m w k else (k, 0, zlen m, false)).
  assert (S : sends k wd.1.1.1) by (unfold wd; destruct b; [by apply write_directly_sends|by constructor]).
  destruct wd as [[[k1 nw] rem] fe]. cbn in S. destruct S as [(Q1 & Q2 & Q3) Si Sc]. intros H. inv_ok.
  destruct (negb fe && _); [|inv_ok; subst k'; constructor; [exact (conj Q1 (conj Q2 Q3))|exact Si|exact Sc]].
  unfold buffer_rest in H. cbn [hasHighWaterMark set_accepted] in H. rewrite Q3, andb_false_r in H. inv_ok. subst k'.
  destruct (isWriting _); (constructor; [exact (conj Q1 (conj Q2 Q3))|exact Si|exact Sc]).
Qed.

Lemma shutdown_sends k : quiet k -> sends k (shutdown true k).
Proof.
  intros Q. unfold shutdown. destruct (connected k); [|by constructor]. unfold shutdownInLoop.
  destruct (isWriting _); by constructor.
Qed.

Lemma sends_trans k1 k2 k3 : sends k1 k2 -> sends k2 k3 -> sends k1 k3.
Proof. intros [] []. constructor; congruence. Qed.

(** What an event of the loop does to such a connection. *)
Record steps (ev : event) (k k' : TcpConnection) : Prop := mkSteps {
  st_quiet : quiet k';
  st_accepted : accepted k' = accepted k;
  st_input : contents (inputBuffer_ k') =
    contents (inputBuffer_ k) ++ match ev with EvRead (ReadData d) => d | _ => [] end;
  st_calls : match ev with
    | EvRead (ReadData (_ :: _)) =>
        calls k' = calls k ++ [CallMessage] /\ state_ k' = state_ k /\ open k /\
        outputBuffer_ k' = outputBuffer_ k /\ fin k' = fin k /\ channel_ k' = channel_ k
    | _ => (calls k' = calls k /\ state_ k' = state_ k) \/ (says k k' /\ state_ k' = kDisconnected)
    end;
}.

Lemma steps_same ev k k' : quiet k' -> accepted k' = accepted k -> inputBuffer_ k' = inputBuffer_ k ->
  calls k' = calls k -> state_ k' = state_ k -> match ev with EvRead (ReadData _) => False | _ => True end -> steps ev k k'.
Proof.
  intros Q Ha Hi Hc Hs He. constructor; [done|done| |].
  - rewrite Hi. destruct ev as [| | | | | | | | |[]| | | |]; try done; by rewrite app_nil_r.
  - destruct ev as [| | | | | | | | |[]| | | |]; try done; by left.
Qed.

Lemma close_steps ev k k' : quiet k -> handleClose k = Ok k' ->
  match ev with EvRead (ReadData _) => False | _ => True end -> steps ev k k'.
Proof.
  intros Q H He. pose proof (handleClose_says k k' H) as S. unfold handleClose in H. inv_ok. subst k'.
  constructor; [done|done| |].
  - destruct ev as [| | | | | | | | |[]| | | |]; try done; by rewrite app_nil_r.
  - destruct ev as [| | | | | | | | |[]| | | |]; try done; by right.
Qed.

Lemma read_steps r k k' : quiet k -> TcpConnection.inv k -> event_ok (EvRead r) k -> handleRead r k = Ok k' ->
  steps (EvRead r) k k'.
Proof.
  intros Q I [Hev Hr]. unfold handleRead. destruct r as [e|d].
  { cbn [readFd res_bind rf_buffer rf_n Z.ltb Z.eqb Z.compare]. intros [= <-]. by apply steps_same. }
  destruct Hr as [Hc Hs]. destruct (readFd_spec _ d (inv_in k I) Hc Hs) as (rr & -> & En & _ & G & C). cbn [res_bind].
  rewrite En. destruct d as [|b d].
  - change (0 <? zlen []) with false. change (zlen [] =? 0) with true. cbv iota. intros H.
    pose proof (handleClose_says _ _ H) as S. unfold handleClose in H. inv_ok. subst k'.
    constructor; [done|done|exact C|]. right. split; [|done]. by eapply (says_from k), S.
  - assert (0 < zlen (b :: d)) by (rewrite zlen_cons; pose proof (zlen_nonneg d); lia).
    rewrite (proj2 (Z.ltb_lt _ _)) by done. intros [= <-]. constructor; [done|done|exact C|].
    split_and!; try done. unfold open. destruct (state_ k) eqn:E; auto; destruct Hev; apply (inv_closed k I); auto.
Qed.

Lemma loop_steps ev k k' : quiet k -> TcpConnection.inv k -> from_loop ev = true -> event_ok ev k -> exec ev k = Ok k' ->
  steps ev k k'.
Proof.
  intros Q I Hl Hok. pose proof Q as (Q1 & Q2 & Q3). destruct ev as [| | | | | | | |w|r|w| | |]; try done; cbn [exec].
  - unfold forceCloseInLoop. destruct (_ || _); [intros H; by apply close_steps|]. intros [= <-]. by apply steps_same.
  - rewrite Q1. intros [= <-]. by apply steps_same.
  - by apply read_steps.
  - unfold handleWrite. destruct (isWriting _); [|intros [= <-]; by apply steps_same].
    destruct w as [n| | |]; try (intros [= <-]; by apply steps_same).
    destruct (0 <? n); [|intros [= <-]; by apply steps_same].
    destruct (retrieve _ _) as [b|]; [|done]. cbn [res_bind]. destruct (_ =? 0); [|intros [= <-]; by apply steps_same].
    cbv zeta. set (k1 := channel_do _ _). replace (hasWriteComplete k1) with false by (by rewrite <-Q2).
    intros [= <-]. unfold shutdownInLoop. repeat case_match; by apply steps_same.
  - intros H. by apply close_steps.
  - intros [= <-]. by apply steps_same.
Qed.

(** What is sent is written at once; otherwise it waits behind the rest. *)
Definition writes_now (k : TcpConnection) : bool :=
  negb (isWriting (channel_ k)) && (readableBytes (outputBuffer_ k) =? 0).

Lemma sendInLoop_refused m k k' : sendInLoop m WriteReset k = Ok k' -> state_ k <> kDisconnected ->
  writes_now k = true -> accepted k' = accepted k.
Proof.
  unfold writes_now. intros H Hs Hw. unfold sendInLoop, is_disconnected in H. rewrite bool_decide_eq_false_2, Hw in H by done.
  cbn [write_directly] in H. cbn in H. inv_ok. subst k'. cbn. by rewrite app_nil_r.
Qed.

Lemma sendInLoop_open m w k : TcpConnection.inv k -> open k -> quiet k -> send_ok k m w ->
  exists k', sendInLoop m w k = Ok k' /\ TcpConnection.inv k' /\ sends k k' /\ state_ k' = state_ k /\
    (w <> WriteReset -> accepted k' = accepted k ++ m) /\
    (w = WriteReset -> writes_now k = true -> accepted k' = accepted k).
Proof.
  intros I Ho Q Hok. assert (Hs : state_ k <> kConnecting /\ state_ k <> kDisconnected) by (split; destruct Ho; congruence).
  destruct (sendInLoop_inv m w k I (proj1 Hs) Hok) as (k' & E & I' & Es & _). exists k'.
  split; [done|]. split; [done|]. split; [by eapply sendInLoop_sends|]. split; [done|]. split.
  - intros Hw. by destruct (sendInLoop_accepted m w k k' E Hw (proj2 Hs)).
  - intros -> Hw. by apply (sendInLoop_refused m k k' E (proj2 Hs)).
Qed.

Lemma quiet_input b k : quiet k -> quiet (set_input b k).
Proof. done. Qed.

Lemma shutdown_open k : open k -> open (shutdown true k) /\ connected (shutdown true k) = false.
Proof.
  intros Ho. destruct (shutdown_fields true k) as (_ & _ & Hs). unfold open, connected in *. rewrite Hs.
  destruct Ho as [E|E]; rewrite E; vm_compute; auto.
Qed.

(** [contexts]: the [context_] of each connection, when it is set. *)
Record HttpService := mkService {
  server_ : TcpServer;
  contexts : gmap Z HttpContext;
}.

Section service.
Context (httpCallback : HttpRequest -> HttpResponse -> HttpResponse).

(** The constructor, the listening address being that of [server_]. *)
Definition HttpServer_new (loop : Z) (ipPort name : bytes) (a : Acceptor) : HttpService :=
  mkService (TcpServer_new loop ipPort name a) ∅.
(** [setThreadNum] and [start] hand on to [server_]. *)
Definition service_start (numThreads : Z) (startLoop : Z -> Z) (s : HttpService) : res HttpService :=
  let* sv := server_setThreadNum numThreads (server_ s) in
  let* sv := server_start startLoop false sv in
  Ok (mkService sv (contexts s)).

(** What the constructor sets as the callbacks of the connections; [t] is the
    time of the poll, [w] what [write(2)] returns. *)
Definition service_callback (c t : Z) (w : write_result) (s : HttpService) (k : call) : res HttpService :=
  match k with
  | CallConnection _ =>
      let* sc := find_conn c (server_ s) in
      Ok (match onConnection (conn sc) (contexts s !! c) with
          | Some ctx => mkService (server_ s) (<[c := ctx]> (contexts s))
          | None => s
          end)
  | CallMessage =>
      let* sc := find_conn c (server_ s) in
      match contexts s !! c with
      | None => Err EUndefined                 (* any_cast gives a null pointer *)
      | Some ctx =>
          let* (ctx, k) := onMessage httpCallback t w ctx (conn sc) in
          Ok (mkService (set_conn c (mkSConn (conn_name sc) (conn_loop sc) k) (server_ s)) (<[c := ctx]> (contexts s)))
      end
  | CallWriteComplete | CallHighWaterMark _ | CallClose => Ok s
  end.

Abbreviation service_event := (server_event * Z * write_result)%type.

Definition service_exec (e : service_event) (s : HttpService) : res HttpService :=
  let '(ev, t, w) := e in
  let* sv := server_exec ev (server_ s) in
  match touched ev (server_ s) with
  | None => Ok (mkService sv (contexts s))
  | Some c => res_foldl (service_callback c t w) (mkService sv (contexts s)) (new_calls c (server_ s) sv)
  end.

Definition service_run (l : list service_event) (s : HttpService) : res HttpService :=
  res_foldl (fun s e => service_exec e s) s l.

(** ** What one connection sees *)

(** [p_open]: no answer has closed the connection. *)
Record peer := mkPeer {
  p_context : HttpContext;
  p_unread : bytes;
  p_sent : bytes;
  p_open : bool;
}.
Definition peer_new : peer := mkPeer HttpContext_new [] [] true.

Abbreviation parse_result := (bool * HttpContext * bytes)%type.

(** What a parse makes the server hand to [sendInLoop], if anything: a bad request
    is only answered while the connection is open. *)
Definition message (opened : bool) (r : parse_result) : option bytes :=
  if negb r.1.1 then (if opened then Some bad_request else None)
  else option_map response_text (reply httpCallback r).

(** The peer is gone: [write(2)] says EPIPE or ECONNRESET. *)
Definition refused (w : write_result) : bool := match w with WriteReset => true | _ => false end.

(** What the connection takes of it, [w] being what [write(2)] returns. *)
Definition answer (opened : bool) (w : write_result) (r : parse_result) : bytes :=
  match message opened r with Some m => if refused w then [] else m | None => [] end.
Definition stays_open (r : parse_result) : bool :=
  r.1.1 && match reply httpCallback r with Some resp => negb (closeConnection_ resp) | None => true end.
Definition next_context (r : parse_result) : HttpContext :=
  match reply httpCallback r with Some _ => reset r.1.2 | None => r.1.2 end.

Definition serve_chunk (p : peer) (d : Z * write_result * bytes) : res peer :=
  let '(t, w, d) := d in
  let* r := parse_bytes t (p_context p) (p_unread p ++ d) in
  Ok (mkPeer (next_context r) r.2 (p_sent p ++ answer (p_open p) w r) (p_open p && stays_open r)).
Definition serve (ds : list (Z * write_result * bytes)) : res peer := res_foldl serve_chunk peer_new ds.

(** What the connection [c] received, in order, with the times and the results of
    the writes. *)
Definition read_of (c : Z) (e : service_event) : option (Z * write_result * bytes) :=
  match e with
  | (SvConn c' (EvRead (ReadData (b :: d))), t, w) => if bool_decide (c' = c) then Some (t, w, b :: d) else None
  | _ => None
  end.
Definition reads (c : Z) (l : list service_event) : list (Z * write_result * bytes) := omap (read_of c) l.

(** ** What may happen *)

(** The context of a connection whose request line was refused. *)
Definition rejected (ctx : HttpContext) : bool :=
  bool_decide (HttpContext.state_ ctx = kExpectRequestLine) && negb (bool_decide (method_ (request_ ctx) = kInvalid)).

(** A message for which the buffers have room: its answer fits, and [w] is what
    [write(2)] may return if it is called at all. *)
Definition message_okb (t : Z) (w : write_result) (ctx : HttpContext) (k : TcpConnection) (d : bytes) : bool :=
  match parse_bytes t ctx (contents (inputBuffer_ k) ++ d) with
  | Ok r => match message (connected k) r with
            | Some m => send_okb k m w && (kCheapPrepend + kInitialSize + zlen m <? 2 ^ 31) &&
                        (negb (refused w) || writes_now k)
            | None => negb (refused w)
            end
  | Err _ => true
  end.

Definition service_event_okb (e : service_event) (s : HttpService) : bool :=
  let '(ev, t, w) := e in
  server_event_okb ev (server_ s) &&
  match ev with
  | SvConn c ev =>
      from_loop ev &&
      match ev with
      | EvRead (ReadData (b :: d)) =>
          match conns (server_ s) !! c, contexts s !! c with
          | Some sc, Some ctx => message_okb t w ctx (conn sc) (b :: d)
          | _, _ => true
          end
      | _ => true
      end
  | _ => true
  end.

Fixpoint service_events_okb (l : list service_event) (s : HttpService) : bool :=
  match l with
  | [] => true
  | e :: l' => service_event_okb e s &&
               match service_exec e s with Ok s' => service_events_okb l' s' | Err _ => true end
  end.

(** ** The parser, on a context that has refused nothing *)

Lemma processRequestLine_ok line r : method_ r = kInvalid -> exists v, processRequestLine line r = Ok v.
Proof.
  intros Hm. unfold processRequestLine. cbv zeta. destruct (_ =? _)%nat; [by eexists|].
  rewrite setMethod_fresh by done. cbn [res_bind]. destruct (negb _); [by eexists|].
  repeat (case_match; try by eexists).
Qed.

Lemma parse_bytes_ok t c l : active c -> rejected c = false -> exists r, parse_bytes t c l = Ok r.
Proof.
  revert c. induction l as [l IH] using (induction_ltof1 _ length). unfold ltof in IH.
  intros c A R. rewrite parse_bytes_unfold by done.
  destruct (bytes_turn t c l) as [[[[ok more] c1] l1]|e] eqn:E; cbn [res_bind].
  - destruct more; [|by eexists]. destruct (bytes_turn_active _ _ _ _ _ _ _ A E eq_refl) as [A1 Hl].
    apply IH; [done..|]. unfold bytes_turn in E. unfold rejected.
    destruct A as [A|A]; rewrite A in E; destruct (split_line l) as [[line rest]|]; try done.
    + destruct (processRequestLine line (request_ c)) as [[[] r]|]; cbn [res_bind] in E; try done.
      injection E as _ <- _. done.
    + cbv zeta in E. destruct (_ =? _)%nat; [done|]. injection E as _ <- _. done.
  - exfalso. unfold bytes_turn in E. destruct A as [A|A]; rewrite A in E; destruct (split_line l) as [[line rest]|]; try done.
    + unfold rejected in R. rewrite A, bool_decide_eq_true_2 in R by done. apply negb_false_iff, bool_decide_eq_true in R.
      destruct (processRequestLine_ok line (request_ c) R) as ([[] r] & E1); rewrite E1 in E; done.
    + cbv zeta in E. by destruct (_ =? _)%nat.
Qed.

Lemma parse_bytes_rejected t c l x : active c -> parse_bytes t c l = Err x -> x = EAssert /\ rejected c = true.
Proof.
  intros A E. split; [by eapply parse_bytes_err|]. destruct (rejected c) eqn:R; [done|].
  destruct (parse_bytes_ok t c l A R). congruence.
Qed.

(** ** One message *)

(** What [onMessage] does to an open connection, the parse being [r]. *)
Record served (w : write_result) (k : TcpConnection) (r : parse_result) (ctx' : HttpContext) (k' : TcpConnection) : Prop :=
  mkServed {
  sd_inv : TcpConnection.inv k';
  sd_quiet : quiet k';
  sd_calls : calls k' = calls k;
  sd_open : open k';
  sd_input : contents (inputBuffer_ k') = r.2;
  sd_context : ctx' = next_context r;
  sd_connected : connected k' = connected k && stays_open r;
  sd_accepted : negb (refused w) || writes_now k = true -> accepted k' = accepted k ++ answer (connected k) w r;
}.

Lemma connected_state k k' : state_ k' = state_ k -> connected k' = connected k.
Proof. unfold connected. by intros ->. Qed.
Lemma open_state k k' : state_ k' = state_ k -> open k -> open k'.
Proof. unfold open. by intros ->. Qed.

(** What is sent at once. *)
Lemma sent_answer w m k k' r : message (connected k) r = Some m ->
  (w <> WriteReset -> accepted k' = accepted k ++ m) ->
  (w = WriteReset -> writes_now k = true -> accepted k' = accepted k) ->
  negb (refused w) || writes_now k = true -> accepted k' = accepted k ++ answer (connected k) w r.
Proof.
  intros Hm H1 H2 Hw. unfold answer. rewrite Hm. destruct w; try (by apply H1).
  cbn in *. rewrite app_nil_r. by apply H2.
Qed.

Lemma bad_request_served w k b ctx' : TcpConnection.inv k -> open k -> quiet k -> good b ->
  (connected k = true -> send_ok k bad_request w) ->
  exists k', send true bad_request w (set_input b k) = Ok k' /\
    served w k (false, ctx', contents b) ctx' (shutdown true k').
Proof.
  intros I Ho Q G Hok. pose proof (inv_set_input b k I G) as I1. unfold send.
  assert (F : forall k1 m, inputBuffer_ k1 = b -> TcpConnection.inv k1 -> quiet k1 -> calls k1 = calls k -> open k1 ->
    (negb (refused w) || writes_now k = true -> accepted k1 = accepted k ++ answer (connected k) w (m, ctx', contents b)) -> m = false ->
    served w k (false, ctx', contents b) ctx' (shutdown true k1)).
  { intros k1 m Hi I2 Q2 Hc Ho2 Ha ->. destruct (shutdown_sends k1 Q2) as [S1 S2 S3].
    destruct (shutdown_open k1 Ho2) as [O1 O2]. destruct (shutdown_fields true k1) as (A & _ & _).
    constructor; try done.
    - by apply shutdown_inv.
    - congruence.
    - by rewrite S2, Hi.
    - rewrite O2. unfold stays_open. by rewrite andb_false_r.
    - by rewrite A. }
  change (connected (set_input b k)) with (connected k). destruct (connected k) eqn:Ec.
  - destruct (sendInLoop_open bad_request w (set_input b k) I1 Ho Q (Hok eq_refl)) as (k1 & -> & I2 & [Q2 Hi Hc] & Hs & Ha & Ha').
    exists k1. split; [done|]. apply (F k1 false); try done; [by eapply open_state|].
    pose proof (sent_answer w bad_request k k1 (false, ctx', contents b)) as Hans. unfold message in Hans. rewrite Ec in Hans.
    by apply Hans.
  - eexists. split; [reflexivity|]. apply (F (set_input b k) false); try done.
    intros _. cbn. by rewrite app_nil_r.
Qed.

Lemma request_served w k b ctx' resp : TcpConnection.inv k -> open k -> quiet k -> good b ->
  reply httpCallback (true, ctx', contents b) = Some resp -> send_ok k (response_text resp) w ->
  kCheapPrepend + kInitialSize + zlen (response_text resp) < 2 ^ 31 ->
  exists k', onRequest httpCallback w (request_ ctx') (set_input b k) = Ok k' /\
    served w k (true, ctx', contents b) (reset ctx') k'.
Proof.
  intros I Ho Q G Hr Hok Hsz. pose proof (inv_set_input b k I G) as I1. unfold onRequest.
  assert (Er : httpCallback (request_ ctx') (HttpResponse_new (wants_close (request_ ctx'))) = resp).
  { unfold reply in Hr. destruct (true && gotAll ctx'); [|done]. by injection Hr. }
  rewrite Er. destruct (appendToBuffer_spec resp (Buffer_new kInitialSize)) as (out & -> & Go & Co & _);
    [apply Buffer_new_good; by vm_compute|exact Hsz|]. cbn [res_bind].
  change (contents (Buffer_new kInitialSize)) with (@nil byte) in Co. cbn [app] in Co.
  destruct (sendInLoop_open (response_text resp) w (set_input b k) I1 Ho Q Hok) as (k1 & E1 & I2 & [Q2 Hi Hc] & Hs & Ha & Ha').
  assert (E : exists out', send_buffer true out w (set_input b k) = Ok (out', k1)).
  { unfold send_buffer. destruct (connected _).
    - rewrite Co, E1. by eexists.
    - pose proof (retrieveAllAsString_implements out Go) as R. destruct (retrieveAllAsString out) as [[str b']|];
        [|by destruct R as (? & ? & _)]. destruct R as (? & [= -> <-] & _ & _). cbn [res_bind]. rewrite Co, E1. by eexists. }
  destruct E as (out' & ->). cbn [res_bind]. eexists. split; [reflexivity|].
  assert (Ho1 : open k1) by (by eapply open_state). pose proof (connected_state _ _ Hs) as Hcn. cbn in Hcn.
  assert (Hans : negb (refused w) || writes_now k = true ->
    accepted k1 = accepted k ++ answer (connected k) w (true, ctx', contents b)).
  { apply (sent_answer w (response_text resp)); try done. unfold message. cbn [fst negb]. by rewrite Hr. }
  assert (Hst : stays_open (true, ctx', contents b) = negb (closeConnection_ resp)) by (unfold stays_open; by rewrite Hr).
  assert (Hnx : next_context (true, ctx', contents b) = reset ctx') by (unfold next_context; by rewrite Hr).
  destruct (closeConnection_ resp) eqn:Ecl.
  - destruct (shutdown_sends k1 Q2) as [S1 S2 S3]. destruct (shutdown_open k1 Ho1) as [O1 O2].
    destruct (shutdown_fields true k1) as (A & _ & _). constructor; try done.
    + by apply shutdown_inv.
    + rewrite S3, Hc. done.
    + by rewrite S2, Hi.
    + by rewrite O2, Hst, andb_false_r.
    + by rewrite A.
  - constructor; try done.
    + by rewrite Hi.
    + by rewrite Hcn, Hst, andb_true_r.
Qed.

Lemma onMessage_served t w ctx k r : TcpConnection.inv k -> open k -> quiet k -> active ctx ->
  parse_bytes t ctx (contents (inputBuffer_ k)) = Ok r ->
  (forall m, message (connected k) r = Some m -> send_ok k m w /\ kCheapPrepend + kInitialSize + zlen m < 2 ^ 31) ->
  exists ctx' k', onMessage httpCallback t w ctx k = Ok (ctx', k') /\ served w k r ctx' k' /\ active ctx'.
Proof.
  intros I Ho Q A P Hrep. destruct r as [[ok ctx'] rest].
  pose proof (parseRequest_bytes t ctx (inputBuffer_ k) (inv_in k I) A) as R. rewrite P in R.
  destruct R as (b & E & G & <-). unfold onMessage. rewrite E. cbn [res_bind]. cbv zeta. destruct ok; cbn [res_bind].
  - destruct (gotAll ctx') eqn:Eg.
    + assert (Hr : reply httpCallback (true, ctx', contents b) =
        Some (httpCallback (request_ ctx') (HttpResponse_new (wants_close (request_ ctx'))))) by (unfold reply; by rewrite Eg).
      destruct (Hrep (response_text (httpCallback (request_ ctx') (HttpResponse_new (wants_close (request_ ctx'))))))
        as [H1 H2]; [unfold message; cbn [fst negb]; by rewrite Hr|].
      destruct (request_served w k b ctx' _ I Ho Q G Hr H1 H2) as (k' & -> & S). cbn [res_bind].
      exists (reset ctx'), k'. split; [done|]. split; [done|]. by left.
    + exists ctx', (set_input b k). split; [done|].
      assert (Hr : reply httpCallback (true, ctx', contents b) = None) by (unfold reply; by rewrite Eg).
      split; [|by eapply parse_bytes_active].
      constructor; try done; [by apply inv_set_input|unfold next_context; by rewrite Hr| |].
      * unfold stays_open. rewrite Hr. cbn. by rewrite andb_true_r.
      * intros _. unfold answer, message. rewrite Hr. cbn. by rewrite app_nil_r.
  - destruct (parse_bytes_rejects _ _ _ _ _ A P) as (line & l & _ & Hst & _).
    destruct (bad_request_served w k b ctx' I Ho Q G) as (k' & -> & S).
    { intros Hc. apply Hrep. unfold message. cbn. by rewrite Hc. }
    cbn [res_bind]. unfold gotAll. rewrite Hst, bool_decide_eq_false_2 by done. eexists _, _. split; [reflexivity|].
    split; [done|]. by left.
Qed.

(** ** The invariant *)

(** What holds of the connection [c], [k], after the events [pre]. *)
Record conn_ok (pre : list service_event) (ctxs : gmap Z HttpContext) (c : Z) (k : TcpConnection) : Prop := mkConnOk {
  co_quiet : quiet k;
  co_context : state_ k <> kConnecting -> exists ctx, ctxs !! c = Some ctx /\ active ctx;
  co_fresh : state_ k = kConnecting -> reads c pre = [] /\ contents (inputBuffer_ k) = [] /\ accepted k = [];
  co_serve : exists p, serve (reads c pre) = Ok p /\
    contents (inputBuffer_ k) = p_unread p /\ accepted k = p_sent p /\
    (state_ k <> kConnecting -> ctxs !! c = Some (p_context p)) /\ (open k -> connected k = p_open p);
}.

Record service_inv (pre : list service_event) (s : HttpService) : Prop := mkServiceInv {
  sv_server : server_inv (server_ s);
  sv_none : forall c, conns (server_ s) !! c = None -> reads c pre = [];
  sv_conn : forall c sc, conns (server_ s) !! c = Some sc -> conn_ok pre (contexts s) c (conn sc);
}.

Lemma reads_snoc c pre e : reads c (pre ++ [e]) = reads c pre ++ omap (read_of c) [e].
Proof. apply omap_app. Qed.

Lemma conn_ok_new pre ctxs c fd mark : reads c pre = [] -> conn_ok pre ctxs c (TcpConnection_new fd false false mark).
Proof.
  intros Hr. constructor; try done. exists peer_new. rewrite Hr. split_and!; try done. by intros [|].
Qed.

(** A step that reads nothing. *)
Lemma conn_ok_same pre e ctxs ctxs' c k : conn_ok pre ctxs c k -> read_of c e = None -> ctxs' !! c = ctxs !! c ->
  conn_ok (pre ++ [e]) ctxs' c k.
Proof.
  intros [Q C F S] He Hc. assert (Hr : reads c (pre ++ [e]) = reads c pre) by (rewrite reads_snoc; cbn; by rewrite He, app_nil_r).
  constructor; try done.
  - by rewrite Hc.
  - by rewrite Hr.
  - by rewrite Hr, Hc.
Qed.

Lemma conn_ok_like pre ctxs c k k' : conn_ok pre ctxs c k -> quiet k' -> state_ k' = state_ k ->
  contents (inputBuffer_ k') = contents (inputBuffer_ k) -> accepted k' = accepted k -> conn_ok pre ctxs c k'.
Proof.
  intros [Q C F S] Q' Hs Hi Ha. constructor; rewrite ?Hs, ?Hi, ?Ha; try done.
  destruct S as (p & E & E1 & E2 & E3 & E4). exists p. rewrite (connected_state _ _ Hs).
  split_and!; try done. unfold open in *. by rewrite Hs.
Qed.

(** The same, when the connection has become [k'], established or closed. *)
Lemma conn_ok_step pre ctxs c k k' : conn_ok pre ctxs c k -> quiet k' -> state_ k <> kConnecting ->
  state_ k' <> kConnecting ->
  contents (inputBuffer_ k') = contents (inputBuffer_ k) -> accepted k' = accepted k ->
  (open k' -> open k /\ connected k' = connected k) -> conn_ok pre ctxs c k'.
Proof.
  intros [Q C F S] Q' Hs Hs' Hi Ha Ho. constructor; try done.
  - intros _. by apply C.
  - destruct S as (p & E & E1 & E2 & E3 & E4). exists p. rewrite Hi, Ha. split_and!; try done.
    + intros _. by apply E3.
    + intros O. destruct (Ho O) as [O1 ->]. by apply E4.
Qed.

Lemma conn_ok_up pre ctxs c k k' : conn_ok pre ctxs c k -> connectEstablished k = Ok k' ->
  conn_ok pre (<[c := HttpContext_new]> ctxs) c k' /\ connected k' = true /\ calls k' = calls k ++ [CallConnection true].
Proof.
  intros [Q C F S]. unfold connectEstablished. intros H. destruct (bool_decide_reflect (state_ k = kConnecting)) as [H0|]; [|done]. cbn [assert_ res_bind] in H. inv_ok.
  destruct (F H0) as (F1 & F2 & F3). subst k'. split; [|done]. constructor; try done.
  - intros _. exists HttpContext_new. rewrite lookup_insert_eq. split; [done|by left].
  - exists peer_new. rewrite F1, lookup_insert_eq. done.
Qed.

Lemma connectDestroyed_spec k k' : connectDestroyed k = Ok k' -> quiet k ->
  quiet k' /\ connected k' = false /\ says k k' /\ contents (inputBuffer_ k') = contents (inputBuffer_ k) /\
  accepted k' = accepted k /\
  (state_ k' = state_ k \/ (state_ k = kConnected /\ state_ k' = kDisconnected)).
Proof.
  intros H Q. assert (S : says k k').
  { destruct (exec_says EvDestroyed k k' H) as [|([r Er] & _)]; done. }
  unfold connectDestroyed in H. inv_ok. subst k'. destruct (connected k) eqn:E; split_and!; try done; [right|by left].
  split; [|done]. by apply bool_decide_eq_true in E.
Qed.

(** Callbacks that are no messages, on a connection that is not up. *)
Lemma callbacks_silent c t w s sc new : conns (server_ s) !! c = Some sc -> CallMessage ∉ new ->
  connected (conn sc) = false \/ new = [] -> res_foldl (service_callback c t w) s new = Ok s.
Proof.
  intros Hc Hm [Hd| ->]; [|done]. induction new as [|k new IH]; [done|].
  apply not_elem_of_cons in Hm as [Hk Hm]. cbn [res_foldl].
  assert (E : service_callback c t w s k = Ok s); [|rewrite E; by apply IH].
  destruct k; try done. cbn [service_callback]. rewrite (find_conn_Some _ _ _ Hc). cbn [res_bind].
  unfold onConnection. rewrite Hd. destruct (contexts s !! c) as [ctx|] eqn:E; [|done]. rewrite insert_id by done. by destruct s.
Qed.

(** A connection that has sent an answer is in its place still. *)
Lemma server_inv_set s c sc k : server_inv s -> conns s !! c = Some sc -> TcpConnection.inv k -> open (conn sc) -> open k ->
  server_inv (set_conn c (mkSConn (conn_name sc) (conn_loop sc) k) s).
Proof.
  intros I E Ik Ho Ho'. destruct (si_conn s I c sc E) as (Hr & Hn & Hi & Hph).
  eapply (server_frame s _ c (mkSConn (conn_name sc) (conn_loop sc) k)); try done; try apply (si_pool s I); cbn.
  - pose proof (si_id s I). lia.
  - intros sc0 E0. rewrite E in E0. by injection E0 as <-.
  - intros c' E'. destruct (si_map s I _ _ E') as (sc2 & E2 & En). by eapply names_unique.
  - intros l t Hin Et. destruct (si_task s I l t Hin) as (sc' & E' & ->). rewrite Et, E in E'. by injection E' as <-.
  - by left.
  - unfold phase in *. cbn. cbv zeta in *. destruct Ho as [Ho|Ho]; rewrite Ho in Hph; destruct Ho' as [-> | ->]; done.
Qed.

(** The one thing that can go wrong: the connection [c] receives more after a
    request line that was refused; then a server with this connection alone
    stops as well. *)
Record stopped (pre : list service_event) (e : service_event) (s : HttpService) (c : Z) : Prop := mkStopped {
  sp_read : read_of c e <> None;
  sp_rejected : exists ctx, contexts s !! c = Some ctx /\ rejected ctx = true;
  sp_serve : serve (reads c (pre ++ [e])) = Err EAssert;
}.

(** What an event does to the service, for the connection it is about. *)
Definition step_to (pre : list service_event) (e : service_event) (s : HttpService) (sv : TcpServer) (c : Z) : Prop :=
  match res_foldl (service_callback c e.1.2 e.2) (mkService sv (contexts s)) (new_calls c (server_ s) sv) with
  | Ok s' =>
      server_inv (server_ s') /\
      (forall c', c' <> c -> conns (server_ s') !! c' = conns sv !! c' /\ contexts s' !! c' = contexts s !! c') /\
      exists sc, conns (server_ s') !! c = Some sc /\ conn_ok (pre ++ [e]) (contexts s') c (conn sc)
  | Err x => x = EAssert /\ stopped pre e s c
  end.

Lemma step_silent pre e s sv c sc new : new = new_calls c (server_ s) sv -> server_inv sv -> conns sv !! c = Some sc ->
  CallMessage ∉ new -> connected (conn sc) = false \/ new = [] ->
  conn_ok (pre ++ [e]) (contexts s) c (conn sc) -> step_to pre e s sv c.
Proof.
  intros -> I Hc Hm Hd Hk. unfold step_to. rewrite (callbacks_silent c _ _ _ sc) by done.
  split; [done|]. split; [done|]. by exists sc.
Qed.

(** Tasks establish and destroy. *)
Lemma step_task pre e s sv c k sc : match e.1.1 with SvConn _ _ => False | _ => True end ->
  about e.1.1 c k (server_ s) sv sc -> server_inv sv -> conn_ok pre (contexts s) c k ->
  step_to pre e s sv c.
Proof.
  intros He A I K. pose proof (about_new_calls _ _ _ _ _ _ A) as En. destruct A as [[O1 O2 O3 M] Ik _ _ _].
  assert (Hr : read_of c e = None) by (destruct e as [[[| |] ?] ?]; done).
  assert (M' : conn sc = k \/ connectEstablished k = Ok (conn sc) \/ connectDestroyed k = Ok (conn sc))
    by (destruct e as [[[| |] ?] ?]; done).
  pose proof (conn_ok_same pre e _ (contexts s) c k K Hr eq_refl) as K1. destruct M' as [E|[E|E]].
  - apply (step_silent pre e s sv c sc []); [|done|done|apply not_elem_of_nil|by right|by rewrite E].
    rewrite En, E. by rewrite drop_ge.
  - destruct (conn_ok_up (pre ++ [e]) (contexts s) c k _ K1 E) as (K2 & Hu & Hcl).
    rewrite Hcl, drop_app_length in En. unfold step_to. rewrite En.
    cbn [res_foldl service_callback server_]. rewrite (find_conn_Some _ _ _ O1). cbn [res_bind].
    unfold onConnection. rewrite Hu. cbn [contexts]. split; [done|]. split; [|by exists sc].
    intros c' Hne. cbn. by rewrite lookup_insert_ne.
  - destruct (connectDestroyed_spec k _ E (co_quiet _ _ _ _ K)) as (Q & Hd & (new & Hcl & Hm) & Hi & Ha & Hs).
    rewrite Hcl, drop_app_length in En. apply (step_silent pre e s sv c sc new); try done; [by left|].
    destruct Hs as [Hs|[Hs Hs']]; [by apply (conn_ok_like _ _ _ k)|].
    apply (conn_ok_step _ _ _ k); try done; [congruence|congruence|]. intros [Ho|Ho]; congruence.
Qed.

Lemma send_ok_output k k' m w : outputBuffer_ k' = outputBuffer_ k -> fin k' = fin k -> send_ok k m w -> send_ok k' m w.
Proof. unfold send_ok, write_ok. intros -> ->. done. Qed.

Lemma message_okb_ok t w ctx k d r : message_okb t w ctx k d = true ->
  parse_bytes t ctx (contents (inputBuffer_ k) ++ d) = Ok r ->
  (forall m, message (connected k) r = Some m -> send_ok k m w /\ kCheapPrepend + kInitialSize + zlen m < 2 ^ 31) /\
  negb (refused w) || writes_now k = true.
Proof.
  unfold message_okb. intros H E. rewrite E in H. destruct (message (connected k) r) as [m|].
  - apply andb_true_iff in H as [[H1%send_okb_ok H2%Z.ltb_lt]%andb_true_iff H3]. split; [|done]. by intros m' [= <-].
  - rewrite H. split; [|done]. done.
Qed.

(** A read with its message. *)
Lemma step_message pre c b d t w s sv sc0 sc ctx : let e := (SvConn c (EvRead (ReadData (b :: d))), t, w) in
  about e.1.1 c (conn sc0) (server_ s) sv sc -> server_inv sv -> conn_ok pre (contexts s) c (conn sc0) ->
  steps (EvRead (ReadData (b :: d))) (conn sc0) (conn sc) -> contexts s !! c = Some ctx ->
  message_okb t w ctx (conn sc0) (b :: d) = true -> step_to pre e s sv c.
Proof.
  intros e A I K [Q Ha Hi (Hcl & Hs & Ho & Hout & Hfin & Hch)] Hctx Hm.
  pose proof (about_new_calls _ _ _ _ _ _ A) as En. rewrite Hcl, drop_app_length in En.
  destruct A as [[O1 O2 O3 _] _ _ _ _]. pose proof (si_conn sv I c sc O1) as (_ & _ & Ik & _).
  assert (Ac : active ctx).
  { destruct (co_context _ _ _ _ K) as (ctx1 & E1 & A1); [destruct Ho; congruence|]. rewrite Hctx in E1. by injection E1 as ->. }
  assert (Ho' : open (conn sc)) by (by eapply open_state).
  destruct (co_serve _ _ _ _ K) as (p & P1 & P2 & P3 & P4 & P5).
  assert (Hp : p_context p = ctx) by (rewrite P4 in Hctx; [by injection Hctx|destruct Ho; congruence]).
  assert (Sv : serve (reads c (pre ++ [e])) = serve_chunk p (t, w, b :: d)).
  { assert (Hro : read_of c e = Some (t, w, b :: d)) by (cbn; by rewrite bool_decide_eq_true_2).
    rewrite reads_snoc. cbn [omap list_omap]. rewrite Hro. unfold serve in *.
    rewrite res_foldl_app, P1. cbn [res_bind res_foldl]. by destruct (serve_chunk p (t, w, b :: d)). }
  unfold serve_chunk in Sv. rewrite Hp, <-P2 in Sv.
  unfold step_to. rewrite En. cbn [res_foldl service_callback server_ contexts e fst snd].
  rewrite (find_conn_Some _ _ _ O1). cbn [res_bind]. rewrite Hctx.
  destruct (parse_bytes t ctx (contents (inputBuffer_ (conn sc0)) ++ b :: d)) as [r|x] eqn:Er.
  2:{ destruct (parse_bytes_rejected _ _ _ _ Ac Er) as [-> Hrej].
      pose proof (parseRequest_bytes t ctx (inputBuffer_ (conn sc)) (inv_in _ Ik) Ac) as R. rewrite Hi, Er in R.
      unfold onMessage. rewrite R. cbn [res_bind]. split; [done|]. constructor; [|by exists ctx|done].
      cbn. by rewrite bool_decide_eq_true_2. }
  destruct (message_okb_ok _ _ _ _ _ _ Hm Er) as [Hrep Hw].
  rewrite <-(connected_state _ _ Hs) in Hrep.
  destruct (onMessage_served t w ctx (conn sc) r Ik Ho' Q Ac) as (ctx' & k' & -> & [S1 S2 S3 S4 S5 S6 S7 S8] & Ac').
  { by rewrite Hi. }
  { intros m Hr. destruct (Hrep m Hr). split; [|done]. by eapply send_ok_output. }
  cbn [res_bind]. split; [by apply server_inv_set|]. split.
  - intros c' Hne. cbn. by rewrite !lookup_insert_ne.
  - exists (mkSConn (conn_name sc) (conn_loop sc) k'). cbn. rewrite !lookup_insert_eq. split; [done|].
    constructor; [done| | |].
    + intros _. exists ctx'. by rewrite lookup_insert_eq.
    + intros E. destruct S4; congruence.
    + exists (mkPeer (next_context r) r.2 (p_sent p ++ answer (p_open p) w r) (p_open p && stays_open r)).
      split; [by rewrite Sv|]. cbn. rewrite <-(P5 Ho), <-P3, <-Ha, lookup_insert_eq, <-(connected_state _ _ Hs).
      split; [done|]. split; [|split; [by rewrite S6|intros _; exact S7]]. apply S8.
      unfold writes_now in *. rewrite Hout, Hch. exact Hw.
Qed.

(** Any event that the loop brings. *)
Lemma step_event pre c ev t w s sv sc0 sc : let e := (SvConn c ev, t, w) in
  conns (server_ s) !! c = Some sc0 -> service_event_okb e s = true ->
  about e.1.1 c (conn sc0) (server_ s) sv sc -> server_inv (server_ s) -> server_inv sv ->
  conn_ok pre (contexts s) c (conn sc0) -> step_to pre e s sv c.
Proof.
  intros e Hc Hok A I0 I K. unfold service_event_okb, e in Hok. cbn [server_event_okb] in Hok. rewrite Hc in Hok.
  apply andb_true_iff in Hok as [[Hev H2]%andb_true_iff [Hl Hm]%andb_true_iff]. apply event_okb_ok in Hev.
  pose proof (si_conn _ I0 c sc0 Hc) as (_ & _ & Ik0 & _). pose proof A as [[O1 O2 O3 M] _ _ _ _].
  pose proof (loop_steps ev _ _ (co_quiet _ _ _ _ K) Ik0 Hl Hev M) as S.
  pose proof (about_new_calls _ _ _ _ _ _ A) as En.
  assert (Hne : ev <> EvEstablished /\ ev <> EvDestroyed) by (split; by intros ->).
  pose proof (exec_outcome ev _ _ Ik0 Hev (proj1 Hne) (proj2 Hne) M) as Hout.
  assert (F : match ev with EvRead (ReadData (_ :: _)) => False | _ => True end -> step_to pre e s sv c).
  { intros Hn. destruct S as [Q Ha Hi Hcl].
    assert (Hr : read_of c e = None) by (destruct ev as [| | | | | | | | |[|[]]| | | |]; done).
    pose proof (conn_ok_same pre e _ (contexts s) c _ K Hr eq_refl) as K1.
    assert (Hi' : contents (inputBuffer_ (conn sc)) = contents (inputBuffer_ (conn sc0))).
    { rewrite Hi. destruct ev as [| | | | | | | | |[|[]]| | | |]; try done; by rewrite app_nil_r. }
    assert (Hcl' : (calls (conn sc) = calls (conn sc0) /\ state_ (conn sc) = state_ (conn sc0)) \/
      (says (conn sc0) (conn sc) /\ state_ (conn sc) = kDisconnected))
      by (destruct ev as [| | | | | | | | |[|[]]| | | |]; done).
    clear Hcl. destruct Hcl' as [[Hcl Hs]|[(new & Hcl & Hnew) Hs]].
    - apply (step_silent pre e s sv c sc []); [by rewrite En, Hcl, drop_ge|done|done|apply not_elem_of_nil|by right|].
      by apply (conn_ok_like _ _ _ (conn sc0)).
    - apply (step_silent pre e s sv c sc new); [by rewrite En, Hcl, drop_app_length|done|done|done| |].
      + left. unfold connected. by rewrite Hs.
      + apply (conn_ok_step _ _ _ (conn sc0)); try done; [|congruence|intros [|]; congruence].
        intros E. destruct Hout as [(_ & _ & Hd)|(Ho & _)]; [rewrite (proj1 Hd Hs) in E; done|destruct Ho; congruence]. }
  destruct ev as [| | | | | | | | |[|[|b d]]| | | |]; try by apply F.
  destruct (contexts s !! c) as [ctx|] eqn:Hctx.
  - by apply (step_message pre c b d t w s sv sc0 sc ctx).
  - exfalso. destruct S as [_ _ _ (_ & _ & Ho & _)].
    destruct (co_context _ _ _ _ K) as (ctx & E & _); [destruct Ho; congruence|]. congruence.
Qed.

Lemma read_of_other c e s : touched e.1.1 (server_ s) <> Some c -> read_of c e = None.
Proof.
  destruct e as [[[r fd2 idle|l|c' ev] t] w]; cbn [fst touched]; try done. intros Hne.
  assert (c' <> c) as Hc by congruence.
  destruct ev as [| | | | | | | | |[|[]]| | | |]; try done. cbn. by rewrite bool_decide_eq_false_2.
Qed.

Lemma service_exec_ok pre e s : service_inv pre s -> service_event_okb e s = true ->
  match service_exec e s with
  | Ok s' => service_inv (pre ++ [e]) s'
  | Err x => x = EAssert /\ exists c, stopped pre e s c
  end.
Proof.
  intros [I0 Hn K] Hok.
  assert (Hok1 : server_event_okb e.1.1 (server_ s) = true)
    by (destruct e as [[ev t] w]; by apply andb_true_iff in Hok as [H _]).
  destruct (server_exec_inv e.1.1 _ I0 Hok1) as (sv & E & I).
  pose proof (server_about e.1.1 _ _ I0 Hok1 E) as A.
  assert (Ex : service_exec e s = match touched e.1.1 (server_ s) with
    | None => Ok (mkService sv (contexts s))
    | Some c => res_foldl (service_callback c e.1.2 e.2) (mkService sv (contexts s)) (new_calls c (server_ s) sv) end).
  { destruct e as [[ev t] w]. unfold service_exec. cbn [fst snd] in *. by rewrite E. }
  rewrite Ex. clear Ex.
  assert (O : forall c, touched e.1.1 (server_ s) <> Some c -> reads c (pre ++ [e]) = reads c pre).
  { intros c Hc. rewrite reads_snoc. cbn. by rewrite (read_of_other c e s Hc), app_nil_r. }
  destruct (touched e.1.1 (server_ s)) as [c|] eqn:Et.
  - destruct A as (k & sc & A). assert (S : step_to pre e s sv c).
    { destruct (ab_from _ _ _ _ _ _ A) as [(sc0 & Hc & ->)|(Hc & fd & ->)].
      - pose proof (K c sc0 Hc) as Kc. destruct e as [[[r fd2 idle|l|c' ev] t] w]; cbn [fst touched] in *.
        + by apply (step_task pre (SvAccept r fd2 idle, t, w) s sv c _ sc Logic.I A).
        + by apply (step_task pre (SvTask l, t, w) s sv c _ sc Logic.I A).
        + injection Et as ->. by apply (step_event pre c ev t w s sv sc0 sc).
      - destruct e as [[[r fd2 idle|l|c' ev] t] w]; cbn [fst touched] in *.
        + apply (step_task pre (SvAccept r fd2 idle, t, w) s sv c _ sc Logic.I A I). apply conn_ok_new. by apply Hn.
        + apply (step_task pre (SvTask l, t, w) s sv c _ sc Logic.I A I). apply conn_ok_new. by apply Hn.
        + injection Et as ->. cbn in Hok1. by rewrite Hc in Hok1. }
    unfold step_to in S. destruct (res_foldl _ _ _) as [s'|x]; [|destruct S as [-> S]; by eauto].
    destruct S as (I' & Ho & sc' & Hc' & Kc). constructor; [done| |].
    + intros c1 Hc1. assert (Hne : c1 <> c) by (intros ->; congruence). rewrite O by congruence. apply Hn.
      destruct (Ho c1 Hne) as [Hc2 _]. rewrite <-(on_others _ _ _ _ _ _ (ab_only _ _ _ _ _ _ A) c1 Hne). congruence.
    + intros c1 sc1 Hc1. destruct (decide (c1 = c)) as [->|Hne]; [rewrite Hc' in Hc1; by injection Hc1 as <-|].
      destruct (Ho c1 Hne) as [Hc2 Hx]. rewrite Hc2, (on_others _ _ _ _ _ _ (ab_only _ _ _ _ _ _ A) c1 Hne) in Hc1.
      apply (conn_ok_same pre e (contexts s)); [by apply K| |done]. apply (read_of_other c1 e s). congruence.
  - constructor; [done| |]; cbn; rewrite A.
    + intros c Hc. rewrite O by done. by apply Hn.
    + intros c sc Hc. apply (conn_ok_same pre e (contexts s)); [by apply K| |done]. apply (read_of_other c e s). congruence.
Qed.

Lemma service_run_ok l pre s : service_inv pre s -> service_events_okb l s = true ->
  match service_run l s with
  | Ok s' => service_inv (pre ++ l) s'
  | Err x => x = EAssert /\ exists l1 e l2 s1 c, l = l1 ++ e :: l2 /\ service_run l1 s = Ok s1 /\ stopped (pre ++ l1) e s1 c
  end.
Proof.
  revert pre s. induction l as [|e l IH]; intros pre s I H; [by rewrite app_nil_r|]. cbn in H.
  apply andb_true_iff in H as [H1 H2]. pose proof (service_exec_ok pre e s I H1) as S.
  unfold service_run. cbn [res_foldl]. destruct (service_exec e s) as [s1|x] eqn:E; cbn [res_bind].
  - pose proof (IH _ s1 S H2) as R. unfold service_run in R. destruct (res_foldl _ s1 l) as [s'|x].
    + by rewrite <-app_assoc in R.
    + destruct R as (-> & l1 & e1 & l2 & s2 & c & -> & E2 & R). split; [done|].
      exists (e :: l1), e1, l2, s2, c. split; [done|]. cbn [res_foldl]. rewrite E. split; [exact E2|].
      by rewrite <-app_assoc in R.
  - destruct S as (-> & c & S). split; [done|]. exists [], e, l, s, c. by rewrite app_nil_r.
Qed.

(** C4: From the start of the server, in any interleaving of accepted connections,
    the tasks of its loops and the events of its connections, with the messages
    handled as they come, as long as the buffers have room.  Only one thing can
    fail: a peer whose request line was refused sends more, and an assertion
    stops the process; a server with this connection alone would stop as well.
    Otherwise no assertion fails, no context is missing and no call is made on a
    wrong thread, and the connections do not disturb each other: each has been
    sent, and has left to read, exactly what a server with this connection alone
    would make of the pieces it received (an answer that [write(2)] refuses
    because the peer is gone, or the connection shut down, is not sent), and is
    up as long as that server would keep it up. *)
Theorem http_service (loop : Z) (ip name : bytes) (idle n : Z) (startLoop : Z -> Z) (a : Acceptor)
  (s : HttpService) (l : list service_event)
  (Hip : zlen ip <= 50) (Hn : 0 <= n < 2 ^ 31) (Ha : Acceptor_new idle = Ok a)
  (Hs : service_start n startLoop (HttpServer_new loop ip name a) = Ok s)
  (Hl : service_events_okb l s = true) :
  match service_run l s with
  | Ok s' =>
      forall c sc, conns (server_ s') !! c = Some sc ->
        exists p, serve (reads c l) = Ok p /\
          contents (inputBuffer_ (conn sc)) = p_unread p /\
          wire (conn sc) ++ contents (outputBuffer_ (conn sc)) = p_sent p /\
          (open (conn sc) -> contexts s' !! c = Some (p_context p) /\ connected (conn sc) = p_open p)
  | Err x => x = EAssert /\
      exists l1 e l2 s1 c ctx, l = l1 ++ e :: l2 /\ service_run l1 s = Ok s1 /\
        read_of c e <> None /\ contexts s1 !! c = Some ctx /\ rejected ctx = true /\
        serve (reads c (l1 ++ [e])) = Err EAssert
  end.
Proof.
  unfold service_start in Hs. cbn [server_ HttpServer_new] in Hs.
  apply res_bind_Ok in Hs as (sv0 & E0 & Hs). apply res_bind_Ok in Hs as (sv & E1 & Hs). injection Hs as <-.
  assert (Hstart : (let* s := server_setThreadNum n (TcpServer_new loop ip name a) in server_start startLoop false s) = Ok sv)
    by (by rewrite E0).
  pose proof (server_start_inv loop ip name idle n startLoop false a sv Hip Hn Ha Hstart) as I0.
  pose proof (server_start_empty loop ip name idle n startLoop false a sv ltac:(lia) Ha Hstart) as Emp.
  assert (I : service_inv [] (mkService sv ∅)).
  { constructor; [done|done|]. cbn. rewrite Emp. intros c sc H. by apply lookup_empty_Some in H. }
  pose proof (service_run_ok l [] _ I Hl) as R. destruct (service_run l _) as [s'|x].
  - destruct R as [Is _ K]. intros c sc Hc.
    pose proof (si_conn _ Is c sc Hc) as (_ & _ & Ik & _). destruct (co_serve _ _ _ _ (K c sc Hc)) as (p & P1 & P2 & P3 & P4 & P5).
    exists p. split; [done|]. split; [done|]. rewrite <-(inv_stream _ Ik). split; [done|]. intros Ho.
    split; [|by apply P5]. apply P4. destruct Ho; congruence.
  - destruct R as (-> & l1 & e & l2 & s1 & c & -> & E & [S1 (ctx & S2 & S3) S4]). split; [done|].
    by exists l1, e, l2, s1, c, ctx.
Qed.
End service.

(** Two connections on two loops, their requests in pieces that interleave; the
    first asks to be closed. *)
Definition ex_callback (req : HttpRequest) (resp : HttpResponse) : HttpResponse :=
  setBody (path req) (setStatusMessage (bs "OK") (setStatusCode k200OK resp)).
Definition ex_read (c : Z) (d : bytes) : server_event * Z * write_result :=
  (SvConn c (EvRead (ReadData d)), 5, WriteWouldBlock).
Definition ex_serving : list (server_event * Z * write_result) :=
  [(SvAccept (Accepted 20) 0 0, 0, WriteOther); (SvAccept (Accepted 21) 0 0, 0, WriteOther);
   (SvTask 11, 0, WriteOther); (SvTask 10, 0, WriteOther); ex_read 1 (bs "GE");
   ex_read 2 (bs "GET /b HTTP/1.1" ++ CRLF ++ CRLF ++ bs "GET"); ex_read 1 (bs "T /a HTTP/1.0" ++ CRLF ++ CRLF)].
Definition ex_service : res HttpService :=
  service_start 2 (fun i => 10 + i) (HttpServer_new 1 (bs "0.0.0.0:80") (bs "web") (mkAcceptor false 3 [])).

(** What is seen of the two connections at the end. *)
Definition ex_seen (s : res HttpService) : option (bytes * bool * bytes * bool) :=
  match s with
  | Ok s =>
      match conns (server_ s) !! 1, conns (server_ s) !! 2 with
      | Some sc1, Some sc2 => Some (contents (outputBuffer_ (conn sc1)), connected (conn sc1),
                                    contents (inputBuffer_ (conn sc2)), connected (conn sc2))
      | _, _ => None
      end
  | Err _ => None
  end.

Lemma http_service_witness :
  exists s s' sc1 p1, ex_service = Ok s /\ service_run ex_callback ex_serving s = Ok s' /\
    conns (server_ s') !! 1 = Some sc1 /\ serve ex_callback (reads 1 ex_serving) = Ok p1 /\
    wire (conn sc1) ++ contents (outputBuffer_ (conn sc1)) = p_sent p1 /\
    p_open p1 = false /\
    ex_seen (Ok s') = Some (bs "HTTP/1.1 200 OK" ++ CRLF ++ bs "Connection: close" ++ CRLF ++ CRLF ++ bs "/a", false, bs "GET", true).
Proof.
  assert (Hs : match ex_service with Ok s => service_events_okb ex_callback ex_serving s | Err _ => false end = true)
    by (vm_compute; reflexivity).
  assert (Hx : ex_seen (let* s := ex_service in service_run ex_callback ex_serving s) =
    Some (bs "HTTP/1.1 200 OK" ++ CRLF ++ bs "Connection: close" ++ CRLF ++ CRLF ++ bs "/a", false, bs "GET", true))
    by (vm_compute; reflexivity).
  assert (Hp : match serve ex_callback (reads 1 ex_serving) with Ok p => p_open p | Err _ => true end = false)
    by (vm_compute; reflexivity).
  destruct ex_service as [s|] eqn:E; [|discriminate].
  pose proof (http_service ex_callback 1 (bs "0.0.0.0:80") (bs "web") 3 2 (fun i => 10 + i) (mkAcceptor false 3 []) s ex_serving
    ltac:(by vm_compute) ltac:(done) ltac:(done) E Hs) as T.
  cbn [res_bind] in Hx. destruct (service_run ex_callback ex_serving s) as [s'|] eqn:Er; [|discriminate].
  unfold ex_seen in Hx |- *. destruct (conns (server_ s') !! 1) as [sc1|] eqn:E1; [|discriminate].
  destruct (T 1 sc1 E1) as (p1 & P1 & _ & P3 & _).
  rewrite P1 in Hp. exists s, s', sc1, p1. rewrite E1. split_and!; try done.
Defined.
