(* ===== verification/SocketsOps.v ===== *)
(** * System calls on sockets (cnet/net/SocketsOps.h, SocketsOps.cc, Socket.h,
    Socket.cc, Acceptor::handleRead)

    What the wrappers make of the answers of the kernel: which errors are fatal,
    which are logged, and what [errno] is afterwards, since callers look at it.
    A function is a computation over [errno] and the lines logged; the answers
    of the system calls are arguments. *)

From S2P Require Import Prelude Cstd Endian InetAddress TcpServer.

Definition EPERM : Z := 1.
Definition EINTR : Z := 4.
Definition EAGAIN : Z := 11.
Definition ENFILE : Z := 23.
Definition EMFILE : Z := 24.
Definition EPROTO : Z := 71.
Definition ECONNABORTED : Z := 103.

(** ** The monad *)

(** [logged]: the text of each line and the [errno] it tells. *)
Record world := mkWorld { errno_ : Z; logged : list (bytes * Z) }.

Definition M (A : Type) : Type := world -> res (A * world).
Definition ret {A} (a : A) : M A := fun w => Ok (a, w).
Definition bind {A B} (m : M A) (k : A -> M B) : M B := fun w => let* (a, w) := m w in k a w.
Definition get_errno : M Z := fun w => Ok (errno_ w, w).
Definition set_errno (e : Z) : M unit := fun w => Ok (tt, mkWorld e (logged w)).
Definition LOG_FATAL {A} : M A := fun _ => Err EFatal.

Notation "'do!' x ':=' m 'in' k" := (bind m (fun x => k))
  (at level 10, x pattern, m at level 100, k at level 200) : cnet_scope.

(** A system call returns a number, or -1 with an error. *)
Inductive answer : Type := Ret (n : Z) | Fail (e : Z).
Definition syscall (a : answer) : M Z :=
  match a with Ret n => ret n | Fail e => do! _ := set_errno e in ret (-1) end.

Section sockets.
(** What [errno] is once a line has been logged. *)
Context (log_errno : Z -> Z).

Definition LOG_SYSERR (text : bytes) : M unit :=
  fun w => Ok (tt, mkWorld (log_errno (errno_ w)) (logged w ++ [(text, errno_ w)])).

(** ** sockets:: *)

Definition createNonblockingOrDie (socket : answer) : M Z :=
  do! sockfd := syscall socket in if sockfd <? 0 then LOG_FATAL else ret sockfd.
Definition bindOrdie (bind_ : answer) : M unit :=
  do! r := syscall bind_ in if r <? 0 then LOG_FATAL else ret tt.
Definition listenOrDie (listen_ : answer) : M unit :=
  do! r := syscall listen_ in if r <? 0 then LOG_FATAL else ret tt.

(** The errors of [accept] that are expected. *)
Definition expected_error (e : Z) : bool :=
  bool_decide (e ∈ [EAGAIN; ECONNABORTED; EINTR; EPROTO; EPERM; EMFILE]).

Definition accept (accept4 : answer) : M Z :=
  do! connfd := syscall accept4 in
  if connfd <? 0 then
    do! savedError := get_errno in
    do! _ := LOG_SYSERR (bs "Socket::accept") in
    if expected_error savedError then do! _ := set_errno savedError in ret connfd
    else LOG_FATAL
  else ret connfd.

Definition close (close_ : answer) : M unit :=
  do! r := syscall close_ in if r <? 0 then LOG_SYSERR (bs "sockets::close") else ret tt.
Definition shutdownWrite (shutdown_ : answer) : M unit :=
  do! r := syscall shutdown_ in if r <? 0 then LOG_SYSERR (bs "sockets::shutdownWrite") else ret tt.

(** [getSocketError]: the option, or why it could not be had. *)
Definition getSocketError (getsockopt : answer) (optval : Z) : M Z :=
  do! r := syscall getsockopt in if r <? 0 then get_errno else ret optval.

(** A zeroed address stays if the kernel fails. *)
Definition zero_addr : InetAddress := mkAddr 0 0 (In4 0).
Definition getLocalAddr (getsockname : answer) (addr : InetAddress) : M InetAddress :=
  do! r := syscall getsockname in
  if r <? 0 then do! _ := LOG_SYSERR (bs "sockets::getLocalAddr") in ret zero_addr else ret addr.
Definition getPeerAddr (getpeername : answer) (addr : InetAddress) : M InetAddress :=
  do! r := syscall getpeername in
  if r <? 0 then do! _ := LOG_SYSERR (bs "sockets::getPeerAddr") in ret zero_addr else ret addr.
(** [isSelfConnet]: the comparison is [InetAddress.isSelfConnet]. *)
Definition isSelfConnet_fd (getsockname : answer) (local : InetAddress) (getpeername : answer) (peer : InetAddress) : M bool :=
  do! localaddr := getLocalAddr getsockname local in
  do! peeraddr := getPeerAddr getpeername peer in
  ret (isSelfConnet localaddr peeraddr).

(** ** Socket *)

(** [Socket::accept]: the peer is set only if there is a connection. *)
Definition Socket_accept (accept4 : answer) (addr peeraddr : InetAddress) : M (Z * InetAddress) :=
  do! connfd := accept accept4 in
  ret (connfd, if 0 <=? connfd then setSockAddrInet6 peeraddr addr else peeraddr).

(** The options: what is logged if [setsockopt] fails. *)
Inductive option_ : Set := TcpNoDelay | ReuseAddr | ReusePort | KeepAlive.
Definition option_text (o : option_) (on : bool) : bytes :=
  match o with
  | TcpNoDelay => bs "Socket::setTcpNoDelay, on: "
  | ReuseAddr | ReusePort => bs "Socket::setTcpNoDelay"
  | KeepAlive => bs "Socket::setKeepAlive"
  end ++ (if on then bs "true" else bs "false").
Definition set_option (o : option_) (on : bool) (setsockopt : answer) : M unit :=
  do! r := syscall setsockopt in
  if r <? 0 then LOG_SYSERR (option_text o on) else ret tt.

(** ** Acceptor *)

(** The constructor, [Acceptor_new] with its system calls. *)
Definition Acceptor_construct (socket open_ setReuseAddr setReusePort bind_ : answer) (reuseport : bool) : M Acceptor :=
  do! _ := createNonblockingOrDie socket in
  do! idleFd := syscall open_ in
  do! a := (fun w => let* a := Acceptor_new idleFd in Ok (a, w)) in
  do! _ := set_option ReuseAddr true setReuseAddr in
  do! _ := set_option ReusePort reuseport setReusePort in
  do! _ := bindOrdie bind_ in
  ret a.

(** [handleRead]: the socket for the callback. *)
Definition Acceptor_handleRead (accept4 : answer) (addr : InetAddress) (connfd2 newIdle : Z) (a : Acceptor)
  : M (option Z * Acceptor) :=
  do! (connfd, _) := Socket_accept accept4 addr zero_addr in
  if 0 <=? connfd then ret (Some connfd, a)
  else
    do! _ := LOG_SYSERR (bs "in Acceptor::handleRead") in
    do! e := get_errno in
    if e =? EMFILE
    then ret (None, mkAcceptor (listenning_ a) newIdle (fds_closed a ++ [idleFd_ a; connfd2]))
    else ret (None, a).

(** ** What they do *)

(** [accept] returns a socket, or -1 with [errno] as the kernel left it, even if
    logging changes it, or ends the process. *)
Theorem accept_outcome (a : answer) (w : world) : (forall n, a = Ret n -> 0 <= n) ->
  accept a w =
    match a with
    | Ret n => Ok (n, w)
    | Fail e => if expected_error e then Ok (-1, mkWorld e (logged w ++ [(bs "Socket::accept", e)])) else Err EFatal
    end.
Proof.
  intros Hn. destruct a as [n|e]; unfold accept, bind; cbn.
  - by rewrite (proj2 (Z.ltb_ge n 0)) by (by apply Hn).
  - by destruct (expected_error e).
Qed.

(** The handler of the acceptor is the one of the server's model, when logging
    leaves [errno] alone. *)
Definition accept_result_of (a : answer) : accept_result :=
  match a with Ret n => Accepted n | Fail e => AcceptFailed (e =? EMFILE) end.

Theorem handleRead_refines (acc : answer) (addr : InetAddress) (connfd2 newIdle : Z) (a : Acceptor) (w : world) :
  (forall e, log_errno e = e) -> (forall n, acc = Ret n -> 0 <= n) -> (forall e, acc = Fail e -> expected_error e = true) ->
  exists w', Acceptor_handleRead acc addr connfd2 newIdle a w =
    Ok (acceptor_handleRead (accept_result_of acc) connfd2 newIdle a, w').
Proof.
  intros Hlog Hn He. unfold Acceptor_handleRead, Socket_accept, bind. rewrite accept_outcome by done.
  destruct acc as [n|e]; cbn.
  - rewrite (proj2 (Z.leb_le 0 n)) by (by apply Hn). eexists. done.
  - rewrite (He e) by done. cbn. rewrite Hlog. destruct (e =? EMFILE); cbn; eexists; done.
Qed.

(** A connection cannot be taken for one to itself because its addresses could
    not be had. *)
Theorem isSelfConnet_unknown (a1 a2 : answer) (local peer : InetAddress) (w w' : world) (b : bool) :
  isSelfConnet_fd a1 local a2 peer w = Ok (b, w') -> (exists e, a1 = Fail e) -> b = false.
Proof.
  intros E [e ->]. unfold isSelfConnet_fd, getLocalAddr, getPeerAddr, bind in E. cbn in E.
  destruct (syscall a2 _) as [[r w2]|]; cbn in E; [|done].
  destruct (r <? 0); cbn in E; by injection E as <- _.
Qed.
End sockets.

(** If logging changes [errno] (the log cannot be written), the acceptor does not
    see that the process is out of descriptors: it does not use the spare one,
    and the connection stays in the queue. *)
Theorem emfile_missed (addr : InetAddress) (connfd2 newIdle : Z) (a : Acceptor) (w : world) :
  exists w', Acceptor_handleRead (fun _ => 28) (Fail EMFILE) addr connfd2 newIdle a w = Ok ((None, a), w').
Proof. eexists. reflexivity. Qed.

(** Two options are logged under the name of a third. *)
Example option_names : option_text ReuseAddr true = bs "Socket::setTcpNoDelaytrue" /\
  option_text ReusePort false = bs "Socket::setTcpNoDelayfalse".
Proof. done. Qed.

(** ** TCP_INFO *)

Record tcp_info := mkInfo {
  tcpi_retransmits : Z; tcpi_rto : Z; tcpi_ato : Z; tcpi_snd_mss : Z; tcpi_rcv_mss : Z; tcpi_lost : Z;
  tcpi_retrans : Z; tcpi_rtt : Z; tcpi_rttvar : Z; tcpi_snd_ssthresh : Z; tcpi_snd_cwnd : Z; tcpi_total_retrans : Z;
}.

(** The labels of [getTcpInfoString] with their values. *)
Definition info_fields (t : tcp_info) : list (bytes * Z) :=
  [(bs "unrecovered=", tcpi_retransmits t); (bs " rto=", tcpi_rto t); (bs " ato=", tcpi_ato t);
   (bs " snd_mss=", tcpi_snd_mss t); (bs " rcv_mss=", tcpi_rcv_mss t); (bs " lost=", tcpi_lost t);
   (bs " retrans=", tcpi_retrans t); (bs " rtt=", tcpi_rtt t); (bs " rttvar=", tcpi_rttvar t);
   (bs " sshthresh=", tcpi_snd_ssthresh t); (bs " cwnd=", tcpi_snd_cwnd t); (bs " total_retrans=", tcpi_total_retrans t)].
Definition fields_text (l : list (bytes * Z)) : bytes := concat (map (fun x => x.1 ++ fmt_u x.2) l).

(** [Socket::getTcpInfoString(buf, len)]: the text, if the kernel answers. *)
Definition Socket_getTcpInfoString (info : option tcp_info) (len : Z) (buf : bytes) : bool * bytes :=
  match info with
  | Some t => (true, snprintf len (fields_text (info_fields t)))
  | None => (false, buf)
  end.
(** [TcpConnection::getTcpInfoString] *)
Definition getTcpInfoString (info : option tcp_info) : bytes := snd (Socket_getTcpInfoString info 1024 []).

Definition u32_ok (z : Z) : Prop := 0 <= z < 2 ^ 32.

Lemma fields_length l : Forall (fun x => zlen x.1 <= 15 /\ u32_ok x.2) l -> zlen (fields_text l) <= 25 * zlen l.
Proof.
  induction 1 as [|[s v] l [Hs Hv] _ IH]; [done|]. unfold fields_text in *. cbn [map concat fst snd] in *.
  rewrite !zlen_app, zlen_cons. unfold u32_ok in Hv. pose proof (fmt_u_length v 10) as L.
  change (Z.of_nat 10) with 10 in L. assert (v < 10 ^ 10) by (change (10 ^ 10) with 10000000000; lia).
  specialize (L ltac:(lia) ltac:(lia)). lia.
Qed.

(** The text is never cut: the 1024 bytes are enough for any numbers. *)
Theorem tcp_info_fits (t : tcp_info) : Forall (fun x => u32_ok x.2) (info_fields t) ->
  getTcpInfoString (Some t) = fields_text (info_fields t).
Proof.
  intros F. unfold getTcpInfoString. cbn [Socket_getTcpInfoString snd]. unfold snprintf. apply ztake_ge.
  pose proof (fields_length (info_fields t)) as L. change (zlen (info_fields t)) with 12 in L.
  assert (zlen (fields_text (info_fields t)) <= 25 * 12); [|lia]. apply L.
  unfold info_fields in *. rewrite !Forall_cons in *. cbn [fst snd] in *. split_and!; try apply F; done || (by vm_compute).
Qed.
