(* ===== verification/ServerTeardown.v ===== *)
(** * The end of a server (cnet/net/TcpServer.cc, ~TcpServer)

    The destructor has every connection that is registered destroyed, on the
    loop of the connection.  What it needs for that to be right, and what happens
    otherwise. *)

From stdpp Require Import gmap.
From S2P Require Import Prelude Channel TcpConnection EventLoopThreadPool TcpServer.

(** The loop over [connections_]; [order]: the connections in the order of the
    map. *)
Definition destroy_one (cur : Z) (s : TcpServer) (c : Z) : res TcpServer :=
  let* sc := find_conn c s in
  TcpServer.runInLoop cur (conn_loop sc) (TDestroyed c) s.
Definition TcpServer_delete (cur : Z) (order : list Z) (s : TcpServer) : res TcpServer :=
  if negb (cur =? TcpServer.loop_ s) then Err EFatal else res_foldl (destroy_one cur) s order.

(** The loops run what has been queued. *)
Definition run_tasks (s : TcpServer) : res TcpServer :=
  res_foldl (fun s x => exec_task x.1 x.2 s) (set_tasks [] s) (tasks s).

(** ** One connection *)

Record alive (s : TcpServer) (c : Z) (sc : SConn) : Prop := mkAlive {
  al_at : conns s !! c = Some sc;
  al_inv : TcpConnection.inv (conn sc);
  al_up : state_ (conn sc) = kConnected;
}.

(** [s'] is [s] with the connection [c] destroyed. *)
Definition finished (s' : TcpServer) (c : Z) : Prop :=
  exists sc, conns s' !! c = Some sc /\ state_ (conn sc) = kDisconnected /\ ups_and_downs (calls (conn sc)) = [true; false] /\
    events_ (channel_ (conn sc)) = kNoneEvent.

Lemma exec_destroyed s c sc : alive s c sc ->
  exists k, exec_task (conn_loop sc) (TDestroyed c) s =
      Ok (add_destroyed c (set_conn c (mkSConn (conn_name sc) (conn_loop sc) k) s)) /\
    TcpConnection.inv k /\ state_ k = kDisconnected.
Proof.
  intros [Hc Hi Hu]. destruct (exec_inv EvDestroyed (conn sc) Hi (or_introl Hu)) as (k & Ek & Ik). cbn [exec] in Ek.
  exists k. unfold exec_task, with_conn. rewrite (find_conn_Some _ _ _ Hc). cbn [res_bind].
  rewrite Z.eqb_refl, Ek. cbn. split; [done|]. split; [done|].
  unfold connectDestroyed, connected in Ek. rewrite Hu in Ek. cbn in Ek. inv_ok. subst k. done.
Qed.

Lemma disconnected_finished s c sc : conns s !! c = Some sc -> TcpConnection.inv (conn sc) ->
  state_ (conn sc) = kDisconnected -> finished s c.
Proof.
  intros Hc I Hd. exists sc. split; [done|]. split; [done|]. split.
  - pose proof (inv_calls _ I) as H. by rewrite Hd in H.
  - apply (inv_closed _ I). by left.
Qed.

(** ** All of them *)

(** What destroying the connections of [l] does, some at once and some queued. *)
Record destroying (s s' : TcpServer) (now later : list Z) : Prop := mkDestroying {
  de_tasks : exists ts, tasks s' = tasks s ++ ts /\
    Forall2 (fun x c => x.2 = TDestroyed c /\ exists sc, conns s !! c = Some sc /\ x.1 = conn_loop sc) ts later;
  de_destroyed : destroyed s' = destroyed s ++ now;
  de_now : forall c, c ∈ now -> finished s' c;
  de_others : forall c, c ∉ now -> conns s' !! c = conns s !! c;
}.

Lemma delete_loop cur order s : NoDup order -> (forall c, c ∈ order -> exists sc, alive s c sc) ->
  exists s' now later, res_foldl (destroy_one cur) s order = Ok s' /\ destroying s s' now later /\ now ++ later ≡ₚ order.
Proof.
  revert s. induction order as [|c order IH]; intros s Hnd Ha.
  - exists s, [], []. split; [done|]. split; [|done]. constructor; try done.
    + exists []. by rewrite app_nil_r.
    + by rewrite app_nil_r.
    + intros c H. by apply not_elem_of_nil in H.
  - apply NoDup_cons in Hnd as [Hc Hnd]. destruct (Ha c ltac:(left)) as (sc & Al). pose proof Al as [Hs Hi Hu].
    cbn [res_foldl]. unfold destroy_one at 1. rewrite (find_conn_Some _ _ _ Hs). cbn [res_bind]. unfold TcpServer.runInLoop.
    destruct (Z.eqb_spec cur (conn_loop sc)) as [->|Hne].
    + destruct (exec_destroyed s c sc Al) as (k & -> & Ik & Sk). cbn [res_bind].
      set (s1 := add_destroyed c (set_conn c _ s)).
      destruct (IH s1 Hnd) as (s' & now & later & E & [[ts [D1 D1']] D2 D3 D4] & P).
      { intros c' Hc'. destruct (Ha c' ltac:(by right)) as (sc' & [A1 A2 A3]). exists sc'. constructor; try done. cbn.
        rewrite lookup_insert_ne by (by intros ->). done. }
      assert (Hcn : c ∉ now) by (intros H; apply Hc; rewrite <-P; set_solver).
      exists s', (c :: now), later. split; [done|]. split; [|by rewrite <-P].
      constructor.
      * exists ts. split; [exact D1|].
        assert (Hl : Forall (fun c' => c' <> c) later).
        { apply Forall_forall. intros c' Hc' ->. apply Hc. rewrite <-P. set_solver. }
        clear -D1' Hl. induction D1' as [|x c' ts later (E1 & sc' & E2 & E3) _ IHF]; [constructor|].
        apply Forall_cons in Hl as [Hne Hl]. constructor; [|by apply IHF]. split; [done|]. exists sc'. split; [|done].
        cbn in E2. by rewrite lookup_insert_ne in E2.
      * rewrite D2. cbn. by rewrite <-app_assoc.
      * intros c' [->|Hc']%elem_of_cons; [|by apply D3].
        eapply disconnected_finished; [rewrite D4 by done; cbn; apply lookup_insert_eq|done|done].
      * intros c' Hc'. apply not_elem_of_cons in Hc' as [H1 H2]. rewrite D4 by done. cbn. by rewrite lookup_insert_ne.
    + set (s1 := TcpServer.queueInLoop (conn_loop sc) (TDestroyed c) s). cbn [res_bind].
      destruct (IH s1 Hnd) as (s' & now & later & E & [[ts [D1 D1']] D2 D3 D4] & P).
      { intros c' Hc'. destruct (Ha c' ltac:(by right)) as (sc' & [A1 A2 A3]). exists sc'. by constructor. }
      exists s', now, (c :: later). split; [done|]. split; [|by rewrite <-P, Permutation_middle].
      constructor; try done. exists ((conn_loop sc, TDestroyed c) :: ts). split; [by rewrite D1; cbn; rewrite <-app_assoc|].
      constructor; [|exact D1']. split; [done|]. by exists sc.
Qed.

Lemma run_loop ts later s : NoDup later ->
  Forall2 (fun x c => x.2 = TDestroyed c /\ exists sc, alive s c sc /\ x.1 = conn_loop sc) ts later ->
  exists s', res_foldl (fun s x => exec_task x.1 x.2 s) s ts = Ok s' /\ tasks s' = tasks s /\
    destroyed s' = destroyed s ++ later /\ (forall c, c ∈ later -> finished s' c) /\
    (forall c, c ∉ later -> conns s' !! c = conns s !! c).
Proof.
  revert later s. induction ts as [|[l t] ts IH]; intros later s Hnd F.
  - apply Forall2_nil_inv_l in F as ->. exists s. split_and!; try done; [by rewrite app_nil_r|].
    intros c H. by apply not_elem_of_nil in H.
  - apply Forall2_cons_inv_l in F as (c & later' & (E1 & sc & Al & E2) & F & ->). cbn in E1, E2. subst t l.
    apply NoDup_cons in Hnd as [Hc Hnd]. destruct (exec_destroyed s c sc Al) as (k & E & Ik & Sk).
    cbn [res_foldl fst snd]. rewrite E. cbn [res_bind]. set (s1 := add_destroyed c (set_conn c _ s)).
    destruct (IH later' s1 Hnd) as (s' & -> & D1 & D2 & D3 & D4).
    { clear -F Hc. induction F as [|x c' ts later (E1 & sc' & [A1 A2 A3] & E2) F' IHF]; [constructor|].
      apply not_elem_of_cons in Hc as [Hne Hc]. constructor; [|by apply IHF]. split; [done|]. exists sc'. split; [|done].
      constructor; try done. cbn. by rewrite lookup_insert_ne. }
    exists s'. split; [done|]. split; [done|]. split; [rewrite D2; cbn; by rewrite <-app_assoc|]. split.
    + intros c' [->|Hc']%elem_of_cons; [|by apply D3].
      eapply disconnected_finished; [rewrite D4 by done; cbn; apply lookup_insert_eq|done|done].
    + intros c' Hc'. apply not_elem_of_cons in Hc' as [H1 H2]. rewrite D4 by done. cbn. by rewrite lookup_insert_ne.
Qed.

(** A server that is destroyed on its own loop, with nothing left to run and all
    its connections up, has each of them taken down and destroyed, once, when
    the loops have run what it queued. *)
Theorem server_teardown (s : TcpServer) (order : list Z) : server_inv s -> tasks s = [] ->
  order ≡ₚ (map_to_list (connections_ s)).*2 -> NoDup order ->
  (forall c, c ∈ order -> exists sc, conns s !! c = Some sc /\ state_ (conn sc) = kConnected) ->
  exists s1 s2, TcpServer_delete (TcpServer.loop_ s) order s = Ok s1 /\ run_tasks s1 = Ok s2 /\ tasks s2 = [] /\
    destroyed s2 ≡ₚ destroyed s ++ order /\ (forall c, c ∈ order -> finished s2 c) /\
    (forall c, c ∉ order -> conns s2 !! c = conns s !! c).
Proof.
  intros I Ht P Hnd Hup. unfold TcpServer_delete. rewrite Z.eqb_refl. cbn [negb].
  assert (Ha : forall c, c ∈ order -> exists sc, alive s c sc).
  { intros c Hc. destruct (Hup c Hc) as (sc & H1 & H2). exists sc. constructor; try done.
    by destruct (si_conn s I c sc H1) as (_ & _ & ? & _). }
  destruct (delete_loop (TcpServer.loop_ s) order s Hnd Ha) as (s1 & now & later & E & [[ts [D1 D1']] D2 D3 D4] & P').
  rewrite Ht in D1. cbn [app] in D1.
  assert (Hnd' : NoDup (now ++ later)) by (by rewrite P'). apply NoDup_app in Hnd' as (_ & Hdis & Hnl).
  destruct (run_loop ts later (set_tasks [] s1) Hnl) as (s2 & E2 & T1 & T2 & T3 & T4).
  { assert (Hin : Forall (fun c => c ∈ order /\ c ∉ now) later).
    { apply Forall_forall. intros c Hc. split; [rewrite <-P'; set_solver|]. intros Hn. by apply (Hdis c). }
    clear -D1' D4 Ha Hin. induction D1' as [|x c ts later (E1 & sc & E2 & E3) _ IHF]; [constructor|].
    apply Forall_cons in Hin as [[Hc Hn] Hin]. constructor; [|by apply IHF]. split; [done|]. exists sc. split; [|done].
    destruct (Ha c Hc) as (sc' & [A1 A2 A3]). assert (sc' = sc) as -> by congruence. constructor; try done. cbn. by rewrite D4. }
  exists s1, s2. split; [done|]. split; [unfold run_tasks; by rewrite D1|]. split; [done|]. split_and!.
  - rewrite T2. cbn. rewrite D2, <-app_assoc. by rewrite P'.
  - intros c Hc. rewrite <-P' in Hc. apply elem_of_app in Hc as [Hc|Hc]; [|by apply T3].
    destruct (D3 c Hc) as (sc & H). exists sc. rewrite T4; [exact H|]. by apply Hdis.
  - intros c Hc. rewrite T4, <-D4; [done|..]; intros H; apply Hc; rewrite <-P'; set_solver.
Qed.

(** ** What goes wrong otherwise *)

(** A connection that has been shut down and waits for its peer is registered,
    and still watched; the destructor's [connectDestroyed] does not disable its
    channel, and the assertion of [remove] fails. *)
Theorem half_closed_aborts s c sc : conns s !! c = Some sc -> state_ (conn sc) = kDisconnecting ->
  events_ (channel_ (conn sc)) <> kNoneEvent -> exec_task (conn_loop sc) (TDestroyed c) s = Err EAssert.
Proof.
  intros Hc Hs He. unfold exec_task, with_conn. rewrite (find_conn_Some _ _ _ Hc). cbn [res_bind]. rewrite Z.eqb_refl. cbn [negb].
  unfold connectDestroyed, connected. rewrite Hs. cbn. unfold isNoneEvent. by rewrite (proj2 (Z.eqb_neq _ _)).
Qed.

(** A server with a connection that has been shut down and not yet closed by its
    peer: the destructor makes the process abort. *)
Theorem teardown_aborts : exists s order,
  server_run [SvAccept (Accepted 7) 0 0; SvTask 10; SvConn 1 (EvShutdown true)] ex_server = Ok s /\
  order ≡ₚ (map_to_list (connections_ s)).*2 /\ tasks s = [] /\
  (let* s := TcpServer_delete (TcpServer.loop_ s) order s in run_tasks s) = Err EAssert.
Proof. eexists _, [1]. vm_compute. done. Qed.
