(* ===== verification/TcpClient.v ===== *)
(** * The client (cnet/net/TcpClient.h, TcpClient.cc)

    A client as its loop's thread runs it: the connector that makes its
    connections, one after the other, the connections' own state machines, and
    the functors that destroy them.  The callbacks between the three are calls:
    the connector hands a socket to [newConnection], a connection that closes
    calls [removeConnection]. *)

From stdpp Require Import gmap.
From S2P Require Import Prelude Cstd Buffer Channel Connector TcpConnection.

(** A connection of the client: its name, the peer's address as text, the
    socket, and the connection itself. *)
Record CConn := mkCConn {
  cc_name : bytes;
  cc_peer : bytes;
  cc_fd : Z;
  cc_conn : TcpConnection;
}.

(** [conns]: all connections made, by their number; [tasks]: the numbers of those
    whose [connectDestroyed] waits in the loop; [destroyed]: those for which it
    has run; [alive]: the destructor of the client has not run. *)
Record TcpClient := mkClient {
  connector_ : Connector.Connector;
  name_ : bytes;
  retry_ : bool;
  connect_ : bool;
  nextConnId_ : Z;
  connection_ : option Z;
  conns : gmap Z CConn;
  tasks : list Z;
  destroyed : list Z;
  alive : bool;
}.

Definition TcpClient_new (nameArg : bytes) : TcpClient :=
  mkClient Connector.Connector_new nameArg false true 1 None ∅ [] [] true.

Definition set_connector (k : Connector.Connector) (s : TcpClient) : TcpClient :=
  mkClient k (name_ s) (retry_ s) (connect_ s) (nextConnId_ s) (connection_ s) (conns s) (tasks s)
    (destroyed s) (alive s).
Definition set_connect (b : bool) (s : TcpClient) : TcpClient :=
  mkClient (connector_ s) (name_ s) (retry_ s) b (nextConnId_ s) (connection_ s) (conns s) (tasks s)
    (destroyed s) (alive s).
Definition enableRetry (s : TcpClient) : TcpClient :=
  mkClient (connector_ s) (name_ s) true (connect_ s) (nextConnId_ s) (connection_ s) (conns s)
    (tasks s) (destroyed s) (alive s).
Definition set_nextConnId (n : Z) (s : TcpClient) : TcpClient :=
  mkClient (connector_ s) (name_ s) (retry_ s) (connect_ s) n (connection_ s) (conns s)
    (tasks s) (destroyed s) (alive s).
Definition set_connection (o : option Z) (s : TcpClient) : TcpClient :=
  mkClient (connector_ s) (name_ s) (retry_ s) (connect_ s) (nextConnId_ s) o (conns s)
    (tasks s) (destroyed s) (alive s).
Definition set_conn (c : Z) (cc : CConn) (s : TcpClient) : TcpClient :=
  mkClient (connector_ s) (name_ s) (retry_ s) (connect_ s) (nextConnId_ s) (connection_ s)
    (<[c := cc]> (conns s)) (tasks s) (destroyed s) (alive s).
Definition set_tasks (l : list Z) (s : TcpClient) : TcpClient :=
  mkClient (connector_ s) (name_ s) (retry_ s) (connect_ s) (nextConnId_ s) (connection_ s)
    (conns s) l (destroyed s) (alive s).
Definition add_destroyed (c : Z) (s : TcpClient) : TcpClient :=
  mkClient (connector_ s) (name_ s) (retry_ s) (connect_ s) (nextConnId_ s) (connection_ s)
    (conns s) (tasks s) (destroyed s ++ [c]) (alive s).
Definition set_dead (s : TcpClient) : TcpClient :=
  mkClient (connector_ s) (name_ s) (retry_ s) (connect_ s) (nextConnId_ s) None (conns s)
    (tasks s) (destroyed s) false.

Definition find_conn (c : Z) (s : TcpClient) : res CConn :=
  match conns s !! c with Some cc => Ok cc | None => Err EUndefined end.
Definition with_connection (cc : CConn) (k : TcpConnection) : CConn :=
  mkCConn (cc_name cc) (cc_peer cc) (cc_fd cc) k.

(** [connect()]: what [socket(2)] and [connect(2)] give, if the attempt is made
    at once. *)
Definition connect (inLoopThread : bool) (sockfd savedErrno : Z) (s : TcpClient) : res TcpClient :=
  let s := set_connect true s in
  let* k := Connector.start inLoopThread sockfd savedErrno (connector_ s) in
  Ok (set_connector k s).

Definition disconnect (inLoopThread : bool) (s : TcpClient) : res TcpClient :=
  let s := set_connect false s in
  match connection_ s with
  | Some c =>
      let* cc := find_conn c s in
      Ok (set_conn c (with_connection cc (shutdown inLoopThread (cc_conn cc))) s)
  | None => Ok s
  end.

Definition stop (s : TcpClient) : TcpClient :=
  let s := set_connect false s in set_connector (Connector.stop (connector_ s)) s.

(** The name given to the connection numbered [id]; the buffer has 32 bytes. *)
Definition conn_name_of (name peer : bytes) (id : Z) : bytes :=
  name ++ snprintf 32 (bs ":" ++ peer ++ bs "#" ++ fmt_d id).

(** [newConnection], the connector's callback; it is bound to the client itself,
    whose destructor must not have run. *)
Definition newConnection (sockfd : Z) (peer : bytes) (s : TcpClient) : res TcpClient :=
  if negb (alive s) then Err EUndefined else
  let id := nextConnId_ s in
  let connName := conn_name_of (name_ s) peer id in
  let s := set_nextConnId (id + 1) s in
  let k := TcpConnection_new sockfd false false defaultHighWaterMark in
  let s := set_connection (Some id) s in
  let* k := connectEstablished k in
  Ok (set_conn id (mkCConn connName peer sockfd k) s).

(** [removeConnection], the close callback of the connections; [sockfd] and
    [savedErrno] serve a restart. *)
Definition removeConnection (c sockfd savedErrno : Z) (s : TcpClient) : res TcpClient :=
  assert! bool_decide (connection_ s = Some c);
  let s := set_connection None s in
  let s := set_tasks (tasks s ++ [c]) s in
  if retry_ s && connect_ s then
    let* k := Connector.restart sockfd savedErrno (connector_ s) in
    Ok (set_connector k s)
  else Ok s.

(** [detail::removeConnection], the close callback once the client is gone. *)
Definition detail_removeConnection (c : Z) (s : TcpClient) : TcpClient :=
  set_tasks (tasks s ++ [c]) s.

(** The destructor, on the loop's thread; [unique]: nobody else holds the
    connection.  With a connection the connector is destroyed with the client;
    without one, it is kept for a second. *)
Definition TcpClient_delete (unique : bool) (s : TcpClient) : res TcpClient :=
  match connection_ s with
  | Some c =>
      let* cc := find_conn c s in
      let k := if unique then forceClose (cc_conn cc) else cc_conn cc in
      let* _ := Connector.Connector_delete (connector_ s) in
      Ok (set_dead (set_conn c (with_connection cc k) s))
  | None => Ok (set_dead (set_connector (Connector.stop (connector_ s)) s))
  end.

(** ** What may happen to a client *)

Inductive client_event : Type :=
| ClConnect (inLoopThread : bool) (sockfd savedErrno : Z)
| ClDisconnect (inLoopThread : bool)
| ClStop
| ClEnableRetry
| ClDelete (unique : bool)
| ClRemoveConnector                                    (* the last reference to the connector goes *)
| ClConnector (ev : Connector.event) (peer : bytes)    (* the loop runs something of the connector *)
| ClConn (c : Z) (ev : event) (sockfd savedErrno : Z)  (* an event of a connection *)
| ClTask.                                              (* the loop runs the next connectDestroyed *)

(** An event of the connector; a socket it hands over becomes a connection. *)
Definition connector_event (ev : Connector.event) (peer : bytes) (s : TcpClient) : res TcpClient :=
  let* k := Connector.exec ev (connector_ s) in
  let before := Connector.delivered (connector_ s) in
  let s := set_connector k s in
  match drop (length before) (Connector.delivered k) with
  | sockfd :: _ => newConnection sockfd peer s
  | [] => Ok s
  end.

(** An event of a connection; if it made the connection call its close callback,
    the client removes it. *)
Definition conn_event (c : Z) (ev : event) (sockfd savedErrno : Z) (s : TcpClient) : res TcpClient :=
  let* cc := find_conn c s in
  let* k := exec ev (cc_conn cc) in
  let s := set_conn c (with_connection cc k) s in
  if (closes (calls (cc_conn cc)) <? closes (calls k))%nat then
    if alive s then removeConnection c sockfd savedErrno s else Ok (detail_removeConnection c s)
  else Ok s.

Definition client_exec (ev : client_event) (s : TcpClient) : res TcpClient :=
  match ev with
  | ClConnect b fd e => connect b fd e s
  | ClDisconnect b => disconnect b s
  | ClStop => Ok (stop s)
  | ClEnableRetry => Ok (enableRetry s)
  | ClDelete unique => TcpClient_delete unique s
  | ClRemoveConnector => let* _ := Connector.Connector_delete (connector_ s) in Ok s
  | ClConnector ev peer => connector_event ev peer s
  | ClConn c ev fd e => conn_event c ev fd e s
  | ClTask =>
      match tasks s with
      | [] => Ok s
      | c :: l =>
          let s := set_tasks l s in
          let* cc := find_conn c s in
          let* k := connectDestroyed (cc_conn cc) in
          Ok (add_destroyed c (set_conn c (with_connection cc k) s))
      end
  end.

Definition client_run (l : list client_event) (s : TcpClient) : res TcpClient :=
  res_foldl (fun s ev => client_exec ev s) s l.

(** [connect] on the loop's thread while the connector is connecting or counts
    itself connected. *)
Definition connect_busy (ev : client_event) (s : TcpClient) : bool :=
  match ev with
  | ClConnect true _ _ => negb (bool_decide (Connector.state_ (connector_ s) = Connector.kDisconnected))
  | _ => false
  end.

(** The discipline.  [connect] when the connector is at rest, or busy, but not
    while it waits to retry or to start; the functor that
    resets the connector's channel was queued before anything a connection made
    by the same event can bring, and runs before it; the client is destroyed
    when no functor of its connector waits, since they hold bare pointers to
    it, and a connector is dropped when its own have run. *)
Definition client_event_okb (ev : client_event) (s : TcpClient) : bool :=
  match ev with
  | ClConnect b fd e =>
      alive s && (connect_busy ev s || bool_decide (Connector.event_ok (Connector.EvStart b fd e) (connector_ s)))
  | ClDisconnect _ | ClStop | ClEnableRetry => alive s
  | ClDelete _ => alive s && (bool_decide (connection_ s = None) ||
                              bool_decide (Connector.posted (connector_ s) = []))
  | ClRemoveConnector => negb (alive s) && bool_decide (Connector.posted (connector_ s) = [])
  | ClConnector ev _ => Connector.from_loop ev && bool_decide (Connector.event_ok ev (connector_ s)) &&
                        (nextConnId_ s <? 2 ^ 31 - 1)
  | ClConn c ev _ _ =>
      match conns s !! c with
      | Some cc => event_okb ev (cc_conn cc) &&
                   match ev with EvEstablished | EvDestroyed => false | _ => true end &&
                   (negb (from_loop ev) ||
                    bool_decide (Connector.FResetChannel ∉ Connector.posted (connector_ s)))
      | None => false
      end
  | ClTask => true
  end.

Fixpoint client_events_okb (l : list client_event) (s : TcpClient) : bool :=
  match l with
  | [] => true
  | ev :: l' => client_event_okb ev s &&
                match client_exec ev s with Ok s' => client_events_okb l' s' | Err _ => true end
  end.

(** ** The invariant *)

(** Where a connection is in its life: the current one until it closes, then
    destroyed by one task. *)
Definition cphase (al : bool) (cur : option Z) (ts dead : list Z) (c : Z) (k : TcpConnection) : Prop :=
  match state_ k with
  | kConnecting => False
  | kConnected | kDisconnecting => (occ c ts + occ c dead = 0)%nat /\ (al = true -> cur = Some c)
  | kDisconnected => (occ c ts + occ c dead = 1)%nat /\ cur <> Some c
  end.

Record client_inv (s : TcpClient) : Prop := mkClientInv {
  ci_connector : Connector.inv (connector_ s);
  ci_id : 1 <= nextConnId_ s < 2 ^ 31;
  (* a socket handed over, a connection *)
  ci_delivered : zlen (Connector.delivered (connector_ s)) = nextConnId_ s - 1;
  ci_dom : forall c, is_Some (conns s !! c) <-> 1 <= c < nextConnId_ s;
  ci_conn : forall c cc, conns s !! c = Some cc ->
    cc_name cc = conn_name_of (name_ s) (cc_peer cc) c /\
    Connector.delivered (connector_ s) !! Z.to_nat (c - 1) = Some (cc_fd cc) /\
    inv (cc_conn cc) /\ cphase (alive s) (connection_ s) (tasks s) (destroyed s) c (cc_conn cc);
  ci_current : forall c, connection_ s = Some c ->
    alive s = true /\ Connector.state_ (connector_ s) = Connector.kConnected /\ is_Some (conns s !! c);
  ci_task : forall c, c ∈ tasks s ++ destroyed s -> is_Some (conns s !! c);
  ci_dead : alive s = false ->
    Connector.stopped (connector_ s) \/ Connector.state_ (connector_ s) = Connector.kConnected;
}.

Lemma client_find c s cc : conns s !! c = Some cc -> find_conn c s = Ok cc.
Proof. unfold find_conn. by intros ->. Qed.

(** A step that concerns the connection [c], and perhaps the connector. *)
Lemma client_frame s s' c cc k :
  client_inv s -> conns s !! c = Some cc -> conns s' = <[c := with_connection cc k]> (conns s) ->
  name_ s' = name_ s -> nextConnId_ s' = nextConnId_ s ->
  Connector.inv (connector_ s') -> Connector.delivered (connector_ s') = Connector.delivered (connector_ s) ->
  (forall c', c' <> c -> occ c' (tasks s') = occ c' (tasks s) /\ occ c' (destroyed s') = occ c' (destroyed s)) ->
  (forall c', c' ∈ tasks s' ++ destroyed s' -> c' = c \/ c' ∈ tasks s ++ destroyed s) ->
  (forall c', c' <> c -> (connection_ s' = Some c' -> connection_ s = Some c') /\
     (alive s' = true -> alive s = true /\ (connection_ s = Some c' -> connection_ s' = Some c'))) ->
  (connection_ s' <> None ->
     alive s' = true /\ Connector.state_ (connector_ s') = Connector.kConnected) ->
  (alive s' = false -> Connector.stopped (connector_ s') \/
     Connector.state_ (connector_ s') = Connector.kConnected) ->
  inv k -> cphase (alive s') (connection_ s') (tasks s') (destroyed s') c k ->
  client_inv s'.
Proof.
  intros [I1 I2 I3 I4 I5 I6 I7 I8] E Ec En Eid Hk Ed Hocc Hin Hcur Hcur' Hdead Hi Hph.
  assert (Hdom : forall c', is_Some (conns s' !! c') <-> is_Some (conns s !! c')).
  { intros c'. rewrite Ec. destruct (decide (c' = c)) as [->|].
    - rewrite lookup_insert_eq, E. split; eauto.
    - by rewrite lookup_insert_ne. }
  constructor; try done.
  - by rewrite Eid.
  - by rewrite Ed, Eid.
  - intros c'. by rewrite Hdom, Eid.
  - intros c' cc'. rewrite Ec, En, Ed. destruct (decide (c' = c)) as [->|Hne].
    + rewrite lookup_insert_eq. intros [= <-]. cbn. destruct (I5 c cc E) as (? & ? & _). by split_and!.
    + rewrite lookup_insert_ne by done. intros E'. destruct (I5 c' cc' E') as (Hn & Hd & Hi' & Hph').
      split; [done|]. split; [done|]. split; [done|]. unfold cphase in *.
      destruct (Hocc c' Hne) as [-> ->]. destruct (Hcur c' Hne) as [Hc1 Hc2].
      destruct (state_ (cc_conn cc')); naive_solver.
  - intros c' E'. destruct (Hcur' ltac:(congruence)) as [Ha Hs]. split; [done|]. split; [done|].
    rewrite Hdom. destruct (decide (c' = c)) as [->|Hne]; [by rewrite E|].
    destruct (I6 c') as (_ & _ & ?); [|done]. by apply (Hcur c' Hne).
  - intros c' [->|Hc]%Hin; rewrite Hdom; [by rewrite E|by apply I7].
Qed.

(** A step of the connector that hands over nothing. *)
Lemma client_connector s k : client_inv s -> Connector.inv k ->
  Connector.delivered k = Connector.delivered (connector_ s) ->
  (connection_ s <> None -> Connector.state_ k = Connector.kConnected) ->
  (alive s = false -> Connector.stopped k \/ Connector.state_ k = Connector.kConnected) ->
  client_inv (set_connector k s).
Proof.
  intros [I1 I2 I3 I4 I5 I6 I7 I8] Hk Hd Hs Hdead. constructor; cbn; try done.
  - by rewrite Hd.
  - by rewrite Hd.
  - intros c E. destruct (I6 c E) as (? & _ & ?). split; [done|]. split; [|done]. apply Hs. congruence.
Qed.

Lemma client_set_connect b s : client_inv s -> client_inv (set_connect b s).
Proof. intros []. by constructor. Qed.

(** [stop] changes nothing that the others see. *)
Lemma connector_stop_inv k : Connector.inv k -> Connector.inv (Connector.stop k) /\
  Connector.delivered (Connector.stop k) = Connector.delivered k /\
  Connector.state_ (Connector.stop k) = Connector.state_ k /\ Connector.stopped (Connector.stop k).
Proof.
  intros I. destruct (Connector.connector_exec_inv Connector.EvStop k I ltac:(done)) as (k' & E & I').
  cbn in E. injection E as <-. split; [done|]. split; [done|]. split; [done|]. split; [done|].
  intros _. cbn. apply elem_of_app. right. by left.
Qed.

Lemma client_stop s : client_inv s -> alive s = true -> client_inv (stop s).
Proof.
  intros I Ha. destruct (connector_stop_inv (connector_ s) (ci_connector s I)) as (Ik & Ed & Es & _).
  apply client_connector; [by apply client_set_connect|done|done| |cbn; congruence].
  cbn. intros Hc. destruct (connection_ s) as [c|] eqn:Ec; [|done].
  by destruct (ci_current s I c Ec) as (_ & ? & _).
Qed.

Lemma newConnection_client s k fd peer : client_inv s -> alive s = true ->
  nextConnId_ s < 2 ^ 31 - 1 -> connection_ s = None -> Connector.inv k ->
  Connector.state_ k = Connector.kConnected ->
  Connector.delivered k = Connector.delivered (connector_ s) ++ [fd] ->
  exists s', newConnection fd peer (set_connector k s) = Ok s' /\ client_inv s'.
Proof.
  intros [I1 I2 I3 I4 I5 I6 I7 I8] Ha Hid Hcur Hk Hks Hd. unfold newConnection.
  cbn [alive set_connector]. rewrite Ha. cbn [negb]. cbv zeta.
  destruct (exec_inv EvEstablished (TcpConnection_new fd false false defaultHighWaterMark)) as (t & Et & It);
    [apply new_inv|done|]. cbn [exec] in Et. pose proof (established_state _ _ Et) as Hs.
  rewrite Et. cbn [res_bind]. eexists. split; [reflexivity|].
  set (id := nextConnId_ s) in *.
  assert (Hnone : conns s !! id = None).
  { destruct (conns s !! id) eqn:E; [|done]. assert (1 <= id < id) by (apply I4; eauto). lia. }
  assert (Hfresh : occ id (tasks s) = O /\ occ id (destroyed s) = O).
  { split; apply occ_zero; intros Hin; destruct (I7 id) as [? E]; try congruence;
      apply elem_of_app; tauto. }
  assert (Hlen : length (Connector.delivered (connector_ s)) = Z.to_nat (id - 1)) by (unfold zlen in I3; lia).
  constructor; cbn; try done.
  - subst id. lia.
  - rewrite Hd, zlen_app, I3. change (zlen [fd]) with 1. subst id. lia.
  - intros c. destruct (decide (c = id)) as [->|Hne].
    + rewrite lookup_insert_eq. split; [lia|eauto].
    + rewrite lookup_insert_ne, I4 by done. fold id. lia.
  - intros c cc. destruct (decide (c = id)) as [->|Hne].
    + rewrite lookup_insert_eq. intros [= <-]. cbn. split; [done|]. rewrite Hd.
      rewrite lookup_app_r, Hlen, Nat.sub_diag by lia. split; [done|]. split; [done|].
      unfold cphase. rewrite Hs. destruct Hfresh as [-> ->]. done.
    + rewrite lookup_insert_ne by done. intros E. destruct (I5 c cc E) as (Hn & Hdl & Hi & Hph).
      split; [done|]. rewrite Hd, lookup_app_l by (apply lookup_lt_Some in Hdl; done).
      split; [done|]. split; [done|]. unfold cphase in *. rewrite Hcur, Ha in Hph.
      destruct (state_ (cc_conn cc)); try (destruct Hph as [_ Hph]; by specialize (Hph eq_refl)); [|done].
      destruct Hph as [Hph _]. split; [done|naive_solver].
  - intros c [= <-]. split; [done|]. split; [done|]. rewrite lookup_insert_eq. eauto.
  - intros c Hin%I7. destruct (decide (c = id)) as [->|]; [rewrite lookup_insert_eq; eauto|].
    by rewrite lookup_insert_ne.
  - congruence.
Qed.

Lemma connector_event_inv ev peer s : client_inv s -> Connector.from_loop ev = true ->
  Connector.event_ok ev (connector_ s) -> nextConnId_ s < 2 ^ 31 - 1 ->
  exists s', connector_event ev peer s = Ok s' /\ client_inv s'.
Proof.
  intros I Hl Hok Hid. pose proof (ci_connector s I) as Ik.
  destruct (Connector.connector_exec_inv ev _ Ik Hok) as (k & Ek & Ik').
  unfold connector_event. rewrite Ek. cbn [res_bind]. cbv zeta.
  destruct (Connector.exec_delivered ev _ _ Ik Hok Hl Ek) as [[Hd Hs]|(fd & Hd & Hs1 & Hs2 & Hc)]; rewrite Hd.
  - rewrite drop_all. eexists. split; [reflexivity|]. apply client_connector; [done|done|done| |].
    + intros Hne. apply Hs. destruct (connection_ s) as [c|] eqn:Ec; [|done].
      by destruct (ci_current s I c Ec) as (_ & ? & _).
    + intros Ha. destruct (ci_dead s I Ha) as [Hst|Hst]; [left|right; by apply Hs].
      by destruct (Connector.exec_stopped ev _ _ Hst Hl Ek).
  - rewrite drop_app_length. apply newConnection_client; try done.
    + destruct (alive s) eqn:Ha; [done|]. destruct (ci_dead s I Ha) as [[Hst _]|Hst]; congruence.
    + destruct (connection_ s) as [c|] eqn:Ec; [|done].
      destruct (ci_current s I c Ec) as (_ & ? & _). congruence.
Qed.

Lemma cphase_cases al cur ts dead c k : cphase al cur ts dead c k ->
  (open k /\ (occ c ts + occ c dead = 0)%nat /\ (al = true -> cur = Some c)) \/
  (state_ k = kDisconnected /\ (occ c ts + occ c dead = 1)%nat /\ cur <> Some c).
Proof. unfold cphase, open. destruct (state_ k); naive_solver. Qed.

(** The connection has not closed. *)
Lemma cphase_keep al cur ts dead c k k' : cphase al cur ts dead c k ->
  (state_ k' = kConnecting <-> state_ k = kConnecting) ->
  (state_ k' = kDisconnected <-> state_ k = kDisconnected) -> cphase al cur ts dead c k'.
Proof.
  unfold cphase. intros Hph Hk Hd.
  destruct (state_ k'), (state_ k); try exact Hph; exfalso; clear Hph; intuition congruence.
Qed.

Lemma client_conn s c cc k : client_inv s -> conns s !! c = Some cc -> inv k ->
  (state_ k = kConnecting <-> state_ (cc_conn cc) = kConnecting) ->
  (state_ k = kDisconnected <-> state_ (cc_conn cc) = kDisconnected) ->
  client_inv (set_conn c (with_connection cc k) s).
Proof.
  intros I E Ik Hk Hd. destruct (ci_conn s I c cc E) as (_ & _ & _ & Hph).
  eapply (client_frame s _ c cc k); try done; try apply I; cbn; try done.
  - by right.
  - intros Hne. destruct (connection_ s) as [c'|] eqn:Ec; [|done].
    by destruct (ci_current s I c' Ec) as (? & ? & _).
  - by apply (cphase_keep _ _ _ _ _ (cc_conn cc)).
Qed.

(** A connection that closes while the client lives. *)
Lemma removeConnection_inv s c cc k fd e : client_inv s -> alive s = true -> conns s !! c = Some cc ->
  open (cc_conn cc) -> inv k -> state_ k = kDisconnected ->
  Connector.FResetChannel ∉ Connector.posted (connector_ s) ->
  exists s', removeConnection c fd e (set_conn c (with_connection cc k) s) = Ok s' /\ client_inv s'.
Proof.
  intros I Ha E Ho Ik Hk Hr. destruct (ci_conn s I c cc E) as (_ & _ & _ & Hph).
  destruct (cphase_cases _ _ _ _ _ _ Hph) as [(_ & Hocc & Hcur)|(Hs & _)];
    [|destruct Ho as [Ho|Ho]; congruence].
  specialize (Hcur Ha). destruct (ci_current s I c Hcur) as (_ & Hks & _).
  unfold removeConnection. cbn [connection_ set_conn]. rewrite Hcur, bool_decide_eq_true_2 by done.
  cbn [assert_ res_bind]. cbv zeta.
  set (s1 := set_tasks _ _).
  assert (F : forall k1, Connector.inv k1 -> Connector.delivered k1 = Connector.delivered (connector_ s) ->
            client_inv (set_connector k1 s1)).
  { intros k1 Ik1 Hd1. eapply (client_frame s _ c cc k); try done; cbn; try done.
    - intros c' Hne. rewrite occ_snoc, decide_False by done. done.
    - intros c'. rewrite !elem_of_app, list_elem_of_singleton. tauto.
    - intros c' Hne. split; [done|]. intros _. split; [done|]. rewrite Hcur. congruence.
    - congruence.
    - unfold cphase. rewrite Hk, occ_snoc, decide_True by done. split; [lia|done]. }
  destruct (retry_ _ && connect_ _); [|exists s1; split; [done|]].
  - pose proof (ci_connector s I) as Iks.
    assert (Hidle : Connector.event_ok (Connector.EvRestart fd e) (connector_ s))
      by (split; [congruence|by apply Connector.inv_idle]).
    destruct (Connector.connector_exec_inv _ _ Iks Hidle) as (k1 & Ek & Ik1). cbn in Ek.
    change (connector_ s1) with (connector_ s). rewrite Ek. cbn [res_bind]. eexists. split; [reflexivity|].
    apply F; [done|]. apply Connector.startInLoop_delivered in Ek. exact Ek.
  - replace s1 with (set_connector (connector_ s) s1) by done. apply F; [apply I|done].
Qed.

Lemma client_conn_event c ev fd e s cc : client_inv s -> conns s !! c = Some cc ->
  event_ok ev (cc_conn cc) -> ev <> EvEstablished -> ev <> EvDestroyed ->
  (from_loop ev = true -> Connector.FResetChannel ∉ Connector.posted (connector_ s)) ->
  exists s', conn_event c ev fd e s = Ok s' /\ client_inv s'.
Proof.
  intros I E Hok H1 H2 Hr. destruct (ci_conn s I c cc E) as (_ & _ & Hi & Hph).
  destruct (exec_inv ev _ Hi Hok) as (k & Ek & Ik).
  unfold conn_event. rewrite (client_find c s cc E). cbn [res_bind]. rewrite Ek. cbn [res_bind]. cbv zeta.
  destruct (exec_outcome ev _ k Hi Hok H1 H2 Ek) as [(Hc & Hk & Hd)|(Ho & Hk & Hc)].
  - rewrite Hc, Nat.ltb_irrefl. eexists. split; [reflexivity|]. by apply client_conn.
  - rewrite (proj2 (Nat.ltb_lt _ _)) by lia.
    assert (Hl : from_loop ev = true).
    { destruct (from_loop ev) eqn:Hl; [done|].
      pose proof (exec_quiet ev _ _ Hi Hok Hl H1 H2 Ek). lia. }
    change (alive (set_conn c (with_connection cc k) s)) with (alive s).
    destruct (alive s) eqn:Ha; [by apply removeConnection_inv; auto|].
    eexists. split; [reflexivity|]. destruct (cphase_cases _ _ _ _ _ _ Hph) as [(_ & Hocc & _)|(Hs & _)];
      [|destruct Ho as [Ho|Ho]; congruence].
    assert (Hnone : connection_ s = None).
    { destruct (connection_ s) as [c'|] eqn:Ec; [|done]. destruct (ci_current s I c' Ec). congruence. }
    eapply (client_frame s _ c cc k); try done; try apply I; cbn; try done.
    + intros c' Hne. rewrite occ_snoc, decide_False by done. done.
    + intros c'. rewrite !elem_of_app, list_elem_of_singleton. tauto.
    + unfold cphase. rewrite Hk, occ_snoc, decide_True, Hnone by done. split; [lia|done].
Qed.

Lemma client_task s c l : client_inv s -> tasks s = c :: l ->
  exists s', client_exec ClTask s = Ok s' /\ client_inv s'.
Proof.
  intros I Et. cbn [client_exec]. rewrite Et.
  destruct (ci_task s I c) as [cc E]; [rewrite Et; by left|].
  destruct (ci_conn s I c cc E) as (_ & _ & Hi & Hph). rewrite Et in Hph.
  destruct (cphase_cases _ _ _ _ _ _ Hph) as [(_ & Hocc & _)|(Hs & Hocc & Hcur)];
    rewrite occ_cons, decide_True in Hocc by done; [lia|].
  destruct (exec_inv EvDestroyed _ Hi (or_intror Hs)) as (k & Ek & Ik). cbn [exec] in Ek.
  rewrite (client_find c _ cc) by done. cbn [res_bind]. rewrite Ek. cbn [res_bind].
  eexists. split; [reflexivity|].
  eapply (client_frame s _ c cc k); try done; try apply I; cbn; try done.
  - intros c' Hne. rewrite Et, occ_cons, occ_snoc, !decide_False by done. done.
  - intros c'. rewrite Et, !elem_of_app, list_elem_of_singleton, elem_of_cons. tauto.
  - intros Hne. destruct (connection_ s) as [c'|] eqn:Ec; [|done].
    by destruct (ci_current s I c' Ec) as (? & ? & _).
  - unfold cphase. rewrite (destroyed_state _ _ Hs Ek), occ_snoc, decide_True by done. split; [lia|done].
Qed.

Lemma forceClose_fields k : inv k -> open k ->
  inv (forceClose k) /\ open (forceClose k).
Proof.
  intros I Ho. destruct (exec_inv EvForceClose k I Logic.I) as (k' & Ek & I'). injection Ek as <-.
  split; [done|]. unfold forceClose. rewrite (proj2 (openb k) Ho). by right.
Qed.

Lemma client_delete unique s : client_inv s -> alive s = true ->
  (connection_ s = None \/ Connector.posted (connector_ s) = []) ->
  exists s', TcpClient_delete unique s = Ok s' /\ client_inv s'.
Proof.
  intros I Ha Hp. unfold TcpClient_delete.
  destruct (connection_ s) as [c|] eqn:Ec; [destruct Hp as [|Hp]; [done|]|].
  - destruct (ci_current s I c Ec) as (_ & Hks & [cc E]). rewrite (client_find c s cc E). cbn [res_bind].
    destruct (ci_conn s I c cc E) as (_ & _ & Hi & Hph).
    destruct (cphase_cases _ _ _ _ _ _ Hph) as [(Ho & Hocc & _)|(_ & _ & Hcur)]; [|congruence].
    unfold Connector.Connector_delete.
    rewrite bool_decide_eq_true_2.
    2:{ apply Connector.inv_quiet; [apply I|rewrite Hp; apply not_elem_of_nil|congruence]. }
    cbn [assert_ res_bind]. set (k := if unique then _ else _). eexists. split; [reflexivity|].
    assert (Hk : inv k /\ open k) by (subst k; destruct unique; [by apply forceClose_fields|done]).
    eapply (client_frame s _ c cc k); try done; try apply I; cbn; try done.
    + by right.
    + intros _. by right.
    + apply Hk.
    + unfold cphase. destruct Hk as [_ [-> | ->]]; done.
  - destruct (connector_stop_inv (connector_ s) (ci_connector s I)) as (Ik & Ed & Es & Est).
    eexists. split; [reflexivity|]. destruct I as [I1 I2 I3 I4 I5 I6 I7 I8]. constructor; try done.
    + intros c cc E. destruct (I5 c cc E) as (? & ? & ? & Hph). split_and!; try done.
      destruct (cphase_cases _ _ _ _ _ _ Hph) as [(Ho & _ & Hcur)|(Hs & Hocc & _)];
        [by specialize (Hcur Ha); congruence|]. unfold cphase. by rewrite Hs.
    + intros _. by left.
Qed.

Lemma connect_busy_aborts ev s : connect_busy ev s = true -> client_exec ev s = Err EAssert.
Proof.
  destruct ev as [[] fd e| | | | | | | |]; try done. cbn [connect_busy client_exec]. intros H%negb_true_iff.
  unfold connect. cbv zeta. cbn [connector_ set_connect]. unfold Connector.start, Connector.startInLoop.
  cbn [Connector.state_ Connector.set_connect]. by rewrite H.
Qed.

Lemma client_exec_inv ev s : client_inv s -> client_event_okb ev s = true -> connect_busy ev s = false ->
  exists s', client_exec ev s = Ok s' /\ client_inv s'.
Proof.
  intros I Hok Hb. destruct ev as [b fd e|b| | |unique| |ev peer|c ev fd e|];
    cbn [client_exec client_event_okb] in *.
  - rewrite Hb in Hok. apply andb_true_iff in Hok as [Ha Hok%bool_decide_eq_true]. unfold connect. cbv zeta.
    destruct (Connector.connector_exec_inv _ _ (ci_connector s I) Hok) as (k & Ek & Ik).
    cbn [Connector.exec] in Ek. cbn [connector_ set_connect]. rewrite Ek. cbn [res_bind].
    eexists. split; [reflexivity|]. destruct Hok as [Hs _].
    apply client_connector; [by apply client_set_connect|done| |cbn|cbn; congruence].
    + unfold Connector.start in Ek. destruct b; [|by injection Ek as <-].
      apply Connector.startInLoop_delivered in Ek. exact Ek.
    + intros Hne. destruct (connection_ s) as [c|] eqn:Ec; [|done].
      destruct (ci_current s I c Ec) as (_ & ? & _). congruence.
  - unfold disconnect. cbn [connection_ set_connect]. destruct (connection_ s) as [c|] eqn:Ec;
      [|eexists; split; [reflexivity|]; by apply client_set_connect].
    destruct (ci_current s I c Ec) as (_ & _ & [cc E]). rewrite (client_find c _ cc) by done.
    cbn [res_bind]. eexists. split; [reflexivity|].
    destruct (ci_conn s I c cc E) as (_ & _ & Hi & _).
    destruct (exec_inv (EvShutdown b) _ Hi Logic.I) as (k & Ek & Ik).
    pose proof (exec_outcome (EvShutdown b) _ k Hi Logic.I ltac:(done) ltac:(done) Ek) as Hout.
    pose proof (exec_quiet (EvShutdown b) _ k Hi Logic.I ltac:(done) ltac:(done) ltac:(done) Ek) as Hq.
    injection Ek as <-. destruct Hout as [(_ & Hk & Hd)|(_ & _ & Hc)]; [|lia].
    apply client_conn; [by apply client_set_connect|done..].
  - eexists. split; [reflexivity|]. by apply client_stop.
  - eexists. split; [reflexivity|]. destruct I. by constructor.
  - apply andb_true_iff in Hok as [Ha [Hp%bool_decide_eq_true|Hp%bool_decide_eq_true]%orb_true_iff];
      apply client_delete; auto.
  - apply andb_true_iff in Hok as [Ha%negb_true_iff Hp%bool_decide_eq_true].
    unfold Connector.Connector_delete. rewrite bool_decide_eq_true_2; [by exists s|].
    apply Connector.inv_quiet; [apply I|rewrite Hp; apply not_elem_of_nil|].
    intros Hs. destruct (ci_dead s I Ha) as [[_ Hst]|Hst]; [|congruence].
    specialize (Hst Hs). rewrite Hp in Hst. by apply not_elem_of_nil in Hst.
  - rewrite !andb_true_iff in Hok. destruct Hok as [[Hl Hok%bool_decide_eq_true] Hid%Z.ltb_lt].
    by apply connector_event_inv.
  - destruct (conns s !! c) as [cc|] eqn:E; [|done]. rewrite !andb_true_iff in Hok.
    destruct Hok as [[H1%event_okb_ok H2] H3].
    apply (client_conn_event c ev fd e s cc I E H1); [by intros ->|by intros ->|].
    intros Hl. rewrite Hl in H3. by apply bool_decide_eq_true in H3.
  - destruct (tasks s) as [|c l] eqn:Et; [by exists s|].
    destruct (client_task s c l I Et) as (s' & E & I'). cbn [client_exec] in E. rewrite Et in E.
    by exists s'.
Qed.

(** What a run comes to: it goes on, or ends at a [connect] that came too early. *)
Lemma client_run_inv l s : client_inv s -> client_events_okb l s = true ->
  match client_run l s with
  | Ok s' => client_inv s'
  | Err x => x = EAssert /\ exists l1 ev l2 s1, l = l1 ++ ev :: l2 /\ client_run l1 s = Ok s1 /\ connect_busy ev s1 = true
  end.
Proof.
  revert s. induction l as [|ev l IH]; intros s I H; [done|]. cbn in H.
  apply andb_true_iff in H as [H1 H2]. unfold client_run. cbn [res_foldl].
  destruct (connect_busy ev s) eqn:Hb.
  - rewrite (connect_busy_aborts ev s Hb). split; [done|]. by exists [], ev, l, s.
  - destruct (client_exec_inv ev s I H1 Hb) as (s1 & E & I1). rewrite E in *. cbn [res_bind].
    pose proof (IH s1 I1 H2) as R. unfold client_run in R. destruct (res_foldl _ s1 l) as [s'|x]; [done|].
    destruct R as (-> & l1 & ev1 & l2 & s2 & -> & E2 & R). split; [done|]. exists (ev :: l1), ev1, l2, s2.
    split; [done|]. split; [|done]. cbn [res_foldl]. by rewrite E.
Qed.

Lemma client_new_inv name : client_inv (TcpClient_new name).
Proof.
  constructor; cbn; try done.
  - apply Connector.connector_new_inv.
  - intros c. rewrite lookup_empty. split; [by intros []|lia].
  - intros c Hin. by apply not_elem_of_nil in Hin.
Qed.

(** ** Properties *)


(** Refused, tried again, connected; lost and connected anew, because the user
    wants it; then the client is destroyed, which forces the connection closed. *)
Definition ex_client_events : list client_event :=
  [ClEnableRetry; ClConnect true 5 Connector.ECONNREFUSED;
   ClConnector (Connector.EvTimer 6 Connector.EINPROGRESS) [];
   ClConnector (Connector.EvWrite 0 false) (bs "10.0.0.1:80"); ClConn 1 (EvSend true (bs "hi") (Wrote 2)) 0 0;
   ClConnector (Connector.EvFunctor 0 0) []; ClConn 1 (EvRead (ReadData [])) 7 Connector.EINPROGRESS;
   ClTask; ClConnector (Connector.EvWrite 0 false) (bs "10.0.0.1:80"); ClConnector (Connector.EvFunctor 0 0) [];
   ClDisconnect true; ClDelete true; ClConn 2 (EvFunctor WriteWouldBlock) 0 0; ClTask; ClRemoveConnector].


Example ex_client_end :
  match client_run ex_client_events (TcpClient_new (bs "cli")) with
  | Ok s => (destroyed s, tasks s, Connector.opened (connector_ s), Connector.closed (connector_ s)) =
            ([1; 2], [], [5; 6; 7], [5])
  | Err _ => False
  end.
Proof. by vm_compute. Qed.

(** A client that does not retry cannot be used again: once its connection has
    closed, [connect] fails the assertion of the connector, which still counts
    itself connected. *)
Theorem reconnect_aborts name l s c ev fd e fd2 e2 s'
  (H : client_events_okb l (TcpClient_new name) = true) (Hl : client_run l (TcpClient_new name) = Ok s)
  (Hc : connection_ s = Some c) (Hr : retry_ s && connect_ s = false)
  (Hev : client_exec (ClConn c ev fd e) s = Ok s') (Hc' : connection_ s' = None) :
  client_exec (ClConnect true fd2 e2) s' = Err EAssert.
Proof.
  pose proof (client_run_inv l _ (client_new_inv name) H) as I. rewrite Hl in I. destruct (ci_current s I c Hc) as (Ha & Hks & _).
  assert (Hk : connector_ s' = connector_ s).
  { cbn [client_exec] in Hev. unfold conn_event in Hev. inv_ok. destruct (_ <? _)%nat; [|by inv_ok; subst].
    cbn [alive set_conn] in Hev. rewrite Ha in Hev. unfold removeConnection in Hev. inv_ok.
    cbn [retry_ connect_ set_tasks set_connection set_conn] in Hev. rewrite Hr in Hev. inv_ok. by subst. }
  cbn [client_exec]. unfold connect. cbn [connector_ set_connect]. rewrite Hk.
  unfold Connector.start, Connector.startInLoop. cbn [Connector.state_ Connector.set_connect].
  rewrite Hks. done.
Qed.

(** Names: the number is not cut off for the address and port of an IPv4 peer,
    until the client has made a hundred million connections. *)
Lemma client_name_full name peer id : zlen peer <= 21 -> 0 <= id < 10 ^ 8 ->
  conn_name_of name peer id = name ++ bs ":" ++ peer ++ bs "#" ++ fmt_d id.
Proof.
  intros Hp Hid. unfold conn_name_of. rewrite snprintf_fits; [done|].
  rewrite !zlen_app. change (zlen (bs ":")) with 1. change (zlen (bs "#")) with 1.
  unfold fmt_d. rewrite (proj2 (Z.ltb_ge _ _)) by lia. pose proof (fmt_u_length id 8). lia.
Qed.
