(* ===== verification/LogStream.v ===== *)
(** * The log stream (cnet/base/LogStream.h, LogStream.cc)

    The fixed buffer with its bounds, the integer conversions as the code does
    them (least significant digit first through the table of digits, then
    reversed), and the stream operators. *)

From S2P Require Import Prelude Cstd.

Definition kSmallBuffer : Z := 4000.
Definition kLargeBuffer : Z := 4000 * 1000.
Definition kMaxNumericSize : Z := 32.

(** ** FixedBuffer<SIZE> *)

(** [data_] is the array, [cur_] the offset of the cursor. *)
Record FixedBuffer := mkFixed { data_ : bytes; cur_ : Z }.

Definition FixedBuffer_new (SIZE : Z) : FixedBuffer := mkFixed (replicate (Z.to_nat SIZE) x00) 0.
Definition length_ (b : FixedBuffer) : Z := s32 (cur_ b).
Definition avail (b : FixedBuffer) : Z := s32 (zlen (data_ b) - cur_ b).
Definition add (len : Z) (b : FixedBuffer) : FixedBuffer := mkFixed (data_ b) (cur_ b + len).
Definition reset (b : FixedBuffer) : FixedBuffer := mkFixed (data_ b) 0.
Definition bzero (b : FixedBuffer) : FixedBuffer :=
  mkFixed (replicate (length (data_ b)) x00) (cur_ b).
Definition toString (b : FixedBuffer) : bytes := ztake (length_ b) (data_ b).

(** A write of [s] at offset [i] of the array; outside it, undefined. *)
Definition store_at (i : Z) (s : bytes) (b : FixedBuffer) : res FixedBuffer :=
  if (0 <=? i) && (i + zlen s <=? zlen (data_ b))
  then Ok (mkFixed (zblit i s (data_ b)) (cur_ b)) else Err EUndefined.

(** [append(buf, len)]; [implicit_cast<size_t>] of an int. *)
Definition append (s : bytes) (b : FixedBuffer) : res FixedBuffer :=
  if zlen s <? u64 (avail b) then
    let* b := store_at (cur_ b) s b in Ok (add (zlen s) b)
  else Ok b.

(** [*cur_ = 0] *)
Definition debugString (b : FixedBuffer) : res FixedBuffer := store_at (cur_ b) [x00] b.

(** ** Integers to text *)

Definition digits : bytes := bs "9876543210123456789".
Definition digitsHex : bytes := bs "0123456789ABCDEF".

Definition table (t : bytes) (i : Z) : res byte :=
  if i <? 0 then Err EUndefined else
  match t !! Z.to_nat i with Some c => Ok c | None => Err EUndefined end.

(** The loop of [convert]: C's division truncates, so the remainder of a negative
    number is negative, and [zero = digits + 9]. *)
Fixpoint convert_loop (fuel : nat) (i : Z) : res bytes :=
  match fuel with
  | O => Err EFuel
  | S fuel' =>
      let lsd := Z.rem i 10 in
      let i := Z.quot i 10 in
      let* c := table digits (9 + lsd) in
      if i =? 0 then Ok [c] else let* r := convert_loop fuel' i in Ok (c :: r)
  end.

(** [convert(buf, value)]: the characters before the NUL.  A 64-bit number has at
    most twenty digits. *)
Definition convert (value : Z) : res bytes :=
  let* p := convert_loop 20 value in
  Ok (rev (if value <? 0 then p ++ [x2d] else p)).

Fixpoint convertHex_loop (fuel : nat) (i : Z) : res bytes :=
  match fuel with
  | O => Err EFuel
  | S fuel' =>
      let lsd := i mod 16 in
      let i := i / 16 in
      let* c := table digitsHex lsd in
      if i =? 0 then Ok [c] else let* r := convertHex_loop fuel' i in Ok (c :: r)
  end.
Definition converHex (value : Z) : res bytes :=
  let* p := convertHex_loop 16 value in Ok (rev p).

(** ** The stream *)

(** [convert(buffer_.current(), v)] stores the text and its NUL. *)
Definition formatInteger (v : Z) (b : FixedBuffer) : res FixedBuffer :=
  if kMaxNumericSize <=? avail b then
    let* s := convert v in
    let* b := store_at (cur_ b) (s ++ [x00]) b in
    Ok (add (zlen s) b)
  else Ok b.

Definition formatPointer (v : Z) (b : FixedBuffer) : res FixedBuffer :=
  if kMaxNumericSize <=? avail b then
    let* b := store_at (cur_ b) (bs "0x") b in
    let* s := converHex v in
    let* b := store_at (cur_ b + 2) (s ++ [x00]) b in
    Ok (add (zlen s + 2) b)
  else Ok b.

(** What is streamed.  [IDouble] and [IFmt] carry what [snprintf] prints for
    their value and format. *)
Inductive item : Type :=
| IBool (v : bool)
| IInt (v : Z)                 (* short to unsigned long long *)
| IPointer (v : Z)
| IDouble (printed : bytes)
| IChar (c : byte)
| ICString (s : option bytes)  (* const char*, NULL or not *)
| IString (s : bytes)          (* string, StringPiece, another buffer *)
| IFmt (printed : bytes).

(** [snprintf(current(), 32, "%.12g", v)]: the text and a NUL. *)
Definition formatDouble (printed : bytes) (b : FixedBuffer) : res FixedBuffer :=
  if kMaxNumericSize <? avail b then
    let* b := store_at (cur_ b) (snprintf kMaxNumericSize printed ++ [x00]) b in
    Ok (add (zlen printed) b)
  else Ok b.

(** The constructor of [Fmt], with [char buf_[32]]. *)
Definition Fmt_new (printed : bytes) : res bytes :=
  assert! zlen printed <? 32; Ok (snprintf 32 printed).

Definition stream (x : item) (b : FixedBuffer) : res FixedBuffer :=
  match x with
  | IBool v => append (if v then bs "1" else bs "0") b
  | IInt v => formatInteger v b
  | IPointer v => formatPointer v b
  | IDouble s => formatDouble s b
  | IChar c => append [c] b
  | ICString None => append (bs "(null)") b
  | ICString (Some s) => append (cstr s) b
  | IString s => append s b
  | IFmt s => let* f := Fmt_new s in append f b
  end.

Definition stream_all (l : list item) (b : FixedBuffer) : res FixedBuffer :=
  res_foldl (fun b x => stream x b) b l.

(** ** The conversions are the decimal and hexadecimal notations *)

Lemma table_digits d : -9 <= d <= 9 -> table digits (9 + d) = Ok (digit (Z.abs d)).
Proof.
  intros Hd. assert (H : forallb (fun k => match table digits (Z.of_nat k) with
      | Ok c => byte_eqb c (digit (Z.abs (Z.of_nat k - 9))) | Err _ => false end) (seq 0 19) = true)
    by (by vm_compute).
  rewrite forallb_forall in H. specialize (H (Z.to_nat (9 + d))).
  rewrite in_seq, Z2Nat.id in H by lia. specialize (H ltac:(lia)).
  destruct (table digits (9 + d)) as [c|]; [|done]. apply byte_eqb_true in H as ->.
  do 3 f_equal. lia.
Qed.

Lemma convert_loop_pos fuel i : 0 <= i -> i < 10 ^ Z.of_nat fuel -> (0 < fuel)%nat ->
  convert_loop fuel i = Ok (digits_rev fuel i).
Proof.
  revert i. induction fuel as [|fuel IH]; intros i Hi Hf H0; [lia|]. cbn [convert_loop digits_rev].
  rewrite Z.rem_mod_nonneg, Z.quot_div_nonneg by lia.
  pose proof (Z.mod_pos_bound i 10 ltac:(lia)). rewrite table_digits by lia. cbn [res_bind].
  rewrite Z.abs_eq by lia. destruct (Z.eqb_spec (i / 10) 0) as [|Hn]; [done|].
  destruct fuel as [|fuel]; [rewrite Z.div_small in Hn; [lia|simpl in Hf; lia]|].
  rewrite IH; [done|apply Z.div_pos; lia| |lia].
  rewrite Nat2Z.inj_succ, Z.pow_succ_r in Hf by lia. apply Z.div_lt_upper_bound; lia.
Qed.

(** The digits of a negative number are those of its absolute value. *)
Lemma convert_loop_opp fuel i : convert_loop fuel (- i) = convert_loop fuel i.
Proof.
  revert i. induction fuel as [|fuel IH]; intros i; [done|]. cbn [convert_loop].
  rewrite Z.rem_opp_l, Z.quot_opp_l by lia. pose proof (Z.rem_bound_abs i 10 ltac:(lia)).
  rewrite !table_digits, Z.abs_opp by lia. cbn [res_bind].
  rewrite IH. destruct (Z.eqb_spec (Z.quot i 10) 0), (Z.eqb_spec (- Z.quot i 10) 0); done || lia.
Qed.

(** Any fuel that bounds the number of digits gives all of them. *)
Lemma digits_rev_enough k f m : 0 <= m < 10 ^ Z.of_nat k -> (0 < k)%nat -> (Z.to_nat (Z.log2 m) < f)%nat ->
  digits_rev k m = digits_rev f m.
Proof.
  revert f m. induction k as [|k IH]; intros f m Hm Hk Hf; [lia|]. destruct f as [|f]; [lia|].
  cbn [digits_rev]. destruct (Z.eqb_spec (m / 10) 0) as [|Hd]; [done|]. f_equal.
  assert (0 < m / 10) by (pose proof (Z.div_pos m 10); lia).
  assert (10 <= m) by (Z.to_euclidean_division_equations; lia).
  pose proof (log2_div10 m). pose proof (Z.log2_nonneg (m / 10)).
  destruct k as [|k]; [rewrite Z.div_small in Hd; [lia|simpl in Hm; lia]|].
  apply IH; [|lia|lia]. rewrite Nat2Z.inj_succ, Z.pow_succ_r in Hm by lia.
  split; [lia|apply Z.div_lt_upper_bound; lia].
Qed.

Lemma digits_rev_20 n : 0 <= n < 10 ^ 20 -> digits_rev 20 n = digits_rev (dec_fuel n) n.
Proof. intros Hn. apply digits_rev_enough; [done|lia|]. unfold dec_fuel. lia. Qed.

Lemma convert_fmt v : - 2 ^ 63 <= v < 2 ^ 64 -> convert v = Ok (fmt_d v).
Proof.
  intros Hv. unfold convert, fmt_d, fmt_u. destruct (Z.ltb_spec v 0).
  - rewrite <-(Z.opp_involutive v) at 1. rewrite convert_loop_opp, convert_loop_pos by (simpl; lia).
    cbn [res_bind]. rewrite digits_rev_20 by lia. by rewrite rev_app_distr.
  - rewrite convert_loop_pos by (simpl; lia). cbn [res_bind]. by rewrite digits_rev_20 by lia.
Qed.

Lemma convert_length v s : - 2 ^ 63 <= v < 2 ^ 64 -> convert v = Ok s -> 1 <= zlen s <= 20.
Proof.
  intros Hv. rewrite convert_fmt by done. intros [= <-]. unfold fmt_d.
  assert (L : forall n, 1 <= zlen (fmt_u n)).
  { intros n. unfold fmt_u, zlen. rewrite length_rev. unfold dec_fuel. cbn. lia. }
  destruct (Z.ltb_spec v 0).
  - rewrite zlen_cons. pose proof (fmt_u_length (- v) 19). pose proof (L (- v)). lia.
  - pose proof (fmt_u_length v 20). pose proof (L v). lia.
Qed.

(** The hexadecimal notation: [fuel] digits at most, least significant first. *)
Definition hex_digit (d : Z) : byte := if d <? 10 then Z_byte (48 + d) else Z_byte (55 + d).
Definition hex_val (c : byte) : Z := if isdigit c then byte_Z c - 48 else byte_Z c - 55.
Fixpoint hex_rev (fuel : nat) (n : Z) : bytes :=
  match fuel with
  | O => []
  | S fuel' => hex_digit (n mod 16) :: (if n / 16 =? 0 then [] else hex_rev fuel' (n / 16))
  end.
Definition fmt_X (n : Z) : bytes := rev (hex_rev 16 n).
Definition hex_value (s : bytes) : Z := fold_left (fun acc c => 16 * acc + hex_val c) s 0.

Lemma table_hex d : 0 <= d < 16 -> table digitsHex d = Ok (hex_digit d) /\ hex_val (hex_digit d) = d.
Proof.
  intros Hd. assert (H : forallb (fun k => match table digitsHex (Z.of_nat k) with
      | Ok c => byte_eqb c (hex_digit (Z.of_nat k)) && (hex_val c =? Z.of_nat k)
      | Err _ => false end) (seq 0 16) = true) by (by vm_compute).
  rewrite forallb_forall in H. specialize (H (Z.to_nat d)).
  rewrite in_seq, Z2Nat.id in H by lia. specialize (H ltac:(lia)).
  destruct (table digitsHex d) as [c|]; [|done]. apply andb_true_iff in H as [->%byte_eqb_true H].
  split; [done|]. by apply Z.eqb_eq in H.
Qed.

Lemma convertHex_loop_rev fuel i : 0 <= i < 16 ^ Z.of_nat fuel -> (0 < fuel)%nat ->
  convertHex_loop fuel i = Ok (hex_rev fuel i) /\
  fold_right (fun c acc => 16 * acc + hex_val c) 0 (hex_rev fuel i) = i /\
  (length (hex_rev fuel i) <= fuel)%nat.
Proof.
  revert i. induction fuel as [|fuel IH]; intros i Hi H0; [lia|]. cbn [convertHex_loop hex_rev].
  pose proof (Z.mod_pos_bound i 16 ltac:(lia)). pose proof (Z.div_mod i 16 ltac:(lia)).
  destruct (table_hex (i mod 16)) as [-> Hv]; [lia|]. cbn [res_bind].
  destruct (Z.eqb_spec (i / 16) 0) as [E|Hn]; cbn [fold_right length].
  - rewrite Hv. split; [done|]. lia.
  - destruct fuel as [|fuel]; [rewrite Z.div_small in Hn; [lia|simpl in Hi; lia]|].
    assert (0 <= i / 16 < 16 ^ Z.of_nat (S fuel)).
    { rewrite (Nat2Z.inj_succ (S fuel)), Z.pow_succ_r in Hi by lia.
      split; [apply Z.div_pos; lia|apply Z.div_lt_upper_bound; lia]. }
    destruct (IH (i / 16)) as (-> & -> & L); [done|lia|]. cbn [res_bind]. rewrite Hv.
    split; [done|]. lia.
Qed.

Lemma converHex_fmt v : 0 <= v < 2 ^ 64 ->
  converHex v = Ok (fmt_X v) /\ hex_value (fmt_X v) = v /\ zlen (fmt_X v) <= 16.
Proof.
  intros Hv. destruct (convertHex_loop_rev 16 v) as (E & V & L); [simpl; lia|lia|].
  unfold converHex, fmt_X, hex_value, zlen. rewrite E, length_rev. split; [done|].
  rewrite <-fold_left_rev_right, rev_involutive. split; [done|lia].
Qed.

(** ** What the stream holds *)

Definition wf (b : FixedBuffer) : Prop := 0 <= cur_ b <= zlen (data_ b) /\ zlen (data_ b) < 2 ^ 31.

(** The text of an item, and whether the operator takes it, given the room. *)
Definition text (x : item) : bytes :=
  match x with
  | IBool v => if v then bs "1" else bs "0"
  | IInt v => fmt_d v
  | IPointer v => bs "0x" ++ fmt_X v
  | IDouble s => s
  | IChar c => [c]
  | ICString None => bs "(null)"
  | ICString (Some s) => cstr s
  | IString s => s
  | IFmt s => s
  end.
Definition fits (x : item) (room : Z) : bool :=
  match x with
  | IInt _ | IPointer _ => 32 <=? room
  | IDouble _ => 32 <? room
  | _ => zlen (text x) <? room
  end.
Definition item_ok (x : item) : Prop :=
  match x with
  | IInt v => - 2 ^ 63 <= v < 2 ^ 64
  | IPointer v => 0 <= v < 2 ^ 64
  | IDouble s | IFmt s => zlen s < 32
  | _ => True
  end.

Lemma avail_wf b : wf b -> avail b = zlen (data_ b) - cur_ b.
Proof. intros [H1 H2]. unfold avail. apply s32_small. lia. Qed.

Lemma toString_wf b : wf b -> toString b = ztake (cur_ b) (data_ b).
Proof. intros [H1 H2]. unfold toString, length_. by rewrite s32_small by lia. Qed.

(** Storing [s ++ junk] at the cursor and advancing by [s]. *)
Lemma store_spec s junk b : wf b -> cur_ b + zlen (s ++ junk) <= zlen (data_ b) ->
  exists b', store_at (cur_ b) (s ++ junk) b = Ok b' /\ wf (add (zlen s) b') /\
    zlen (data_ (add (zlen s) b')) = zlen (data_ b) /\
    toString (add (zlen s) b') = toString b ++ s.
Proof.
  intros W Hl. pose proof W as [H1 H2]. pose proof (zlen_nonneg s). pose proof (zlen_nonneg junk).
  unfold store_at. rewrite (proj2 (Z.leb_le 0 _)), (proj2 (Z.leb_le _ _)) by lia. cbn [andb].
  rewrite zlen_app in Hl. eexists. split; [reflexivity|].
  assert (L : zlen (zblit (cur_ b) (s ++ junk) (data_ b)) = zlen (data_ b))
    by (apply zlen_zblit; rewrite ?zlen_app; lia).
  assert (W' : wf (add (zlen s) (mkFixed (zblit (cur_ b) (s ++ junk) (data_ b)) (cur_ b)))).
  { split; cbn; rewrite L; lia. }
  split; [done|]. split; [done|]. rewrite !toString_wf by done. cbn [add cur_ data_].
  unfold zblit. rewrite <-app_assoc, (app_assoc (ztake _ _)), ztake_app_exact; [done|].
  rewrite zlen_app, zlen_ztake. lia.
Qed.

Lemma append_spec s b : wf b -> exists b', append s b = Ok b' /\ wf b' /\
  zlen (data_ b') = zlen (data_ b) /\
  toString b' = toString b ++ (if zlen s <? zlen (data_ b) - cur_ b then s else []).
Proof.
  intros W. pose proof W as [H1 H2]. unfold append. rewrite avail_wf, u64_small by (done || lia).
  destruct (Z.ltb_spec (zlen s) (zlen (data_ b) - cur_ b)).
  - destruct (store_spec s [] b W) as (b' & E & R); [rewrite app_nil_r; lia|].
    rewrite app_nil_r in E. rewrite E. cbn [res_bind]. by eexists.
  - exists b. by rewrite app_nil_r.
Qed.

Lemma stream_spec x b : wf b -> item_ok x ->
  exists b', stream x b = Ok b' /\ wf b' /\ zlen (data_ b') = zlen (data_ b) /\
    toString b' = toString b ++ (if fits x (zlen (data_ b) - cur_ b) then text x else []).
Proof.
  intros W Hok. pose proof W as [H1 H2]. pose proof (zlen_nonneg (data_ b)).
  destruct x as [v|v|v|s|c|s|s|s]; cbn [stream fits text item_ok] in *; try (by apply append_spec).
  - unfold formatInteger. rewrite avail_wf by done. unfold kMaxNumericSize.
    destruct (Z.leb_spec 32 (zlen (data_ b) - cur_ b)); [|exists b; by rewrite app_nil_r].
    pose proof (convert_length v _ Hok (convert_fmt v Hok)). rewrite convert_fmt by done. cbn [res_bind].
    destruct (store_spec (fmt_d v) [x00] b W) as (b' & -> & R); [rewrite zlen_app; change (zlen [x00]) with 1; lia|].
    cbn [res_bind]. by eexists.
  - unfold formatPointer. rewrite avail_wf by done. unfold kMaxNumericSize.
    destruct (Z.leb_spec 32 (zlen (data_ b) - cur_ b)); [|exists b; by rewrite app_nil_r].
    destruct (converHex_fmt v Hok) as (-> & _ & L). pose proof (zlen_nonneg (fmt_X v)).
    destruct (store_spec (bs "0x") [] b W) as (b1 & E1 & W1 & L1 & T1);
      [change (zlen (bs "0x" ++ [])) with 2; lia|].
    change (bs "0x" ++ []) with (bs "0x") in E1. rewrite E1. cbn [res_bind].
    change (zlen (bs "0x")) with 2 in *.
    destruct (store_spec (fmt_X v) [x00] (add 2 b1) W1) as (b2 & E2 & W2 & L2 & T2).
    { rewrite L1, zlen_app. change (zlen [x00]) with 1. cbn [cur_ add].
      assert (cur_ b1 = cur_ b) as ->; [|lia]. revert E1. unfold store_at. destruct (_ && _); [|done].
      by intros [= <-]. }
    unfold store_at in *. cbn [data_ add cur_] in *.
    destruct (_ && _) in E2 |- *; [|done]. injection E2 as <-. cbn [res_bind].
    exists (add (zlen (fmt_X v)) (mkFixed (zblit (cur_ b1 + 2) (fmt_X v ++ [x00]) (data_ b1)) (cur_ b1 + 2))).
    split; [|split; [exact W2|split; [by transitivity (zlen (data_ b1))|]]].
    + unfold add. cbn [data_ cur_]. do 2 f_equal. lia.
    + rewrite app_assoc, <-T1. exact T2.
  - unfold formatDouble. rewrite avail_wf by done. unfold kMaxNumericSize.
    destruct (Z.ltb_spec 32 (zlen (data_ b) - cur_ b)); [|exists b; by rewrite app_nil_r].
    rewrite snprintf_fits by done.
    destruct (store_spec s [x00] b W) as (b' & -> & R); [rewrite zlen_app; change (zlen [x00]) with 1; lia|].
    cbn [res_bind]. by eexists.
  - destruct s as [s|]; by apply append_spec.
  - unfold Fmt_new. rewrite (proj2 (Z.ltb_lt _ _)) by done. cbn [assert_ res_bind].
    rewrite snprintf_fits by done. by apply append_spec.
Qed.

(** The text a buffer of [size] characters keeps of a sequence of items: each is
    there as a whole, or not at all. *)
Fixpoint kept (size : Z) (out : bytes) (l : list item) : bytes :=
  match l with
  | [] => out
  | x :: l' => kept size (if fits x (size - zlen out) then out ++ text x else out) l'
  end.

Lemma toString_length b : wf b -> zlen (toString b) = cur_ b.
Proof. intros W. pose proof W as [H1 H2]. rewrite toString_wf, zlen_ztake by done. lia. Qed.

Lemma stream_all_spec l b : wf b -> Forall item_ok l ->
  exists b', stream_all l b = Ok b' /\ wf b' /\ zlen (data_ b') = zlen (data_ b) /\
    toString b' = kept (zlen (data_ b)) (toString b) l.
Proof.
  revert b. induction l as [|x l IH]; intros b W Hok; [by exists b|].
  apply Forall_cons in Hok as [Hx Hok]. destruct (stream_spec x b W Hx) as (b1 & E & W1 & L1 & T1).
  unfold stream_all. cbn [res_foldl kept]. rewrite E. cbn [res_bind].
  destruct (IH b1 W1 Hok) as (b2 & E2 & W2 & L2 & T2). exists b2.
  split; [exact E2|]. split; [done|]. split; [congruence|].
  rewrite T2, T1, L1, toString_length by done. destruct (fits _ _); [done|]. by rewrite app_nil_r.
Qed.

Lemma fits_room x room : item_ok x -> zlen (text x) + 32 < room -> fits x room = true.
Proof.
  intros Hok H. pose proof (zlen_nonneg (text x)).
  destruct x; cbn [fits]; first [apply Z.leb_le; lia|apply Z.ltb_lt; lia].
Qed.

Lemma kept_all size out l : Forall item_ok l ->
  zlen out + zlen (concat (map text l)) + 32 < size -> kept size out l = out ++ concat (map text l).
Proof.
  revert out. induction l as [|x l IH]; intros out Hok Hs; cbn [kept map concat] in *.
  - by rewrite app_nil_r.
  - apply Forall_cons in Hok as [Hx Hok]. rewrite zlen_app in Hs.
    pose proof (zlen_nonneg (concat (map text l))). rewrite fits_room by (done || lia).
    rewrite IH by (rewrite ?zlen_app; done || lia). by rewrite app_assoc.
Qed.

(** A short text is kept entirely. *)
Lemma stream_short l : Forall item_ok l -> zlen (concat (map text l)) + 32 < kSmallBuffer ->
  exists b, stream_all l (FixedBuffer_new kSmallBuffer) = Ok b /\ toString b = concat (map text l).
Proof.
  intros H Hs. assert (W : wf (FixedBuffer_new kSmallBuffer)) by (split; vm_compute; [split; congruence|done]).
  destruct (stream_all_spec l _ W H) as (b & E & W' & L & T). exists b. split; [done|].
  change (zlen (data_ (FixedBuffer_new kSmallBuffer))) with 4000 in *. unfold kSmallBuffer in *.
  rewrite T, kept_all by (done || change (toString (FixedBuffer_new 4000)) with (@nil byte); rewrite ?zlen_nil; lia).
  done.
Qed.

(** C36: The log stream never writes outside its buffer of 4000 characters, not
    even a terminating NUL, whatever is streamed into it: it keeps, in order,
    exactly the items that fit, each entirely, and drops the others; if all
    fit with 32 characters to spare, it holds their concatenation. *)
Theorem log_stream_keeps (l : list item) (H : Forall item_ok l) :
  exists b, stream_all l (FixedBuffer_new kSmallBuffer) = Ok b /\
    0 <= cur_ b <= kSmallBuffer /\ zlen (data_ b) = kSmallBuffer /\
    toString b = kept kSmallBuffer [] l /\
    (zlen (concat (map text l)) + 32 < kSmallBuffer -> toString b = concat (map text l)).
Proof.
  assert (W : wf (FixedBuffer_new kSmallBuffer)) by (split; vm_compute; [split; congruence|done]).
  destruct (stream_all_spec l _ W H) as (b & E & W' & L & T). exists b.
  change (zlen (data_ (FixedBuffer_new kSmallBuffer))) with 4000 in *.
  change (toString (FixedBuffer_new kSmallBuffer)) with (@nil byte) in T.
  pose proof W' as [Hc _]. unfold kSmallBuffer in *. split_and!; try done; try lia.
  intros Hs. rewrite T, kept_all by (rewrite ?zlen_nil; done || lia). done.
Qed.

Lemma log_stream_keeps_witness :
  exists b, stream_all [IInt (-42); IChar x20; IPointer 48879; ICString None] (FixedBuffer_new kSmallBuffer) = Ok b /\
    toString b = bs "-42 0xBEEF(null)".
Proof.
  destruct (log_stream_keeps [IInt (-42); IChar x20; IPointer 48879; ICString None])
    as (b & E & _ & _ & _ & T); [repeat constructor; cbn; lia|].
  exists b. split; [exact E|]. rewrite T; by vm_compute.
Defined.

(** The integer conversions, for every 64-bit value, signed or unsigned, the
    most negative included: [convert] gives the decimal notation, which reads
    back as the value and has at most twenty characters, and [converHex] a
    hexadecimal notation of at most sixteen that reads back as the value; the
    digit tables are never indexed outside. *)
Theorem integer_conversions (v : Z) :
  (- 2 ^ 63 <= v < 2 ^ 64 -> exists s, convert v = Ok s /\ s = fmt_d v /\ 1 <= zlen s <= 20 /\
     (if v <? 0 then exists s', s = x2d :: s' /\ dec_value s' = - v else dec_value s = v)) /\
  (0 <= v < 2 ^ 64 -> exists s, converHex v = Ok s /\ hex_value s = v /\ zlen s <= 16).
Proof.
  split.
  - intros Hv. exists (fmt_d v). pose proof (convert_fmt v Hv) as E. split; [done|]. split; [done|].
    split; [by apply (convert_length v)|]. unfold fmt_d. destruct (Z.ltb_spec v 0).
    + eexists. split; [done|]. apply fmt_u_value. lia.
    + apply fmt_u_value. lia.
  - intros Hv. destruct (converHex_fmt v Hv) as (E & V & L). by exists (fmt_X v).
Qed.

Lemma integer_conversions_witness :
  (exists s, convert (- 2 ^ 63) = Ok s /\ s = fmt_d (- 2 ^ 63) /\ 1 <= zlen s <= 20 /\
     (if - 2 ^ 63 <? 0 then exists s', s = x2d :: s' /\ dec_value s' = - - 2 ^ 63
      else dec_value s = - 2 ^ 63)) /\
  fmt_d (- 2 ^ 63) = bs "-9223372036854775808".
Proof.
  split; [apply (proj1 (integer_conversions (- 2 ^ 63))); lia|by vm_compute].
Defined.
