(* ===== verification/PerformanceInspector.v ===== *)
(** * The profiling pages of the inspector (cnet/net/inspect/PerformanceInspector.cc)

    The pages under /pprof, in a build with tcmalloc.  What the allocator and
    the profiler of gperftools answer, and Boost's [replace_all_copy], are
    parameters. *)

From stdpp Require Import gmap.
From S2P Require Import Prelude Cstd Double Timestamp Thread HttpRequest ReadSmallFile ProcessInfo Inspector ProcessInspector LogStream.

Section pprof.
Context (os : System) (now_ : Timestamp).

(** [GetHeapSample], [GetHeapGrowthStacks], [GetStats] into a buffer of that
    size, [GetMemoryReleaseRate]; whether [ProfilerStart] succeeds and the file
    it leaves. *)
Context (GetHeapSample GetHeapGrowthStacks : bytes) (GetStats : Z -> bytes) (GetMemoryReleaseRate : double).
Context (ProfilerStart : bytes -> bool) (profile_file : descriptor + Z).

(** [MallocMemoryStats]: the blocks, the total and the histogram, of
    [kMallocHistogramSize] numbers. *)
Record memory_stats := mkMemoryStats { blocks : Z; total : Z; histogram : list Z }.
Context (MallocMemoryStats : memory_stats).

(** [boost::replace_all_copy(input, search, format)] *)
Context (replace_all_copy : bytes -> bytes -> bytes -> bytes).

(** What a page does besides its text. *)
Inductive effect : Set := Slept (ts : Z * Z) | ProfilerStop | Unlinked (filename : bytes) | ReleaseFreeMemory.

Definition readProcFile (basename : bytes) : res bytes :=
  read_proc os (snprintf 256 (bs "/proc/" ++ fmt_d (pid os) ++ bs "/" ++ cstr basename)) (1024 * 1024).

Definition heap : bytes := GetHeapSample.
Definition growth : bytes := GetHeapGrowthStacks.

Definition profile_name : res bytes :=
  let* name := procname os in
  Ok (bs "/tmp/" ++ name ++ bs "." ++ pidString os ++ bs "." ++ Timestamp.toString now_ ++ bs ".profile").

Definition profile : res (bytes * list effect) :=
  let* filename := profile_name in
  if ProfilerStart (cstr filename) then
    let* (_, profile) := readFile profile_file (1024 * 1024) [] in
    Ok (profile, [Slept (sleepUsec (30 * 1000 * 1000)); ProfilerStop; Unlinked (cstr filename)])
  else Ok ([], []).

Definition cmdline : res bytes :=
  let* content := readProcFile (bs "cmdline") in
  Ok (replace_all_copy content [x00] [LF; TAB]).

Definition memstats : bytes := cstr (GetStats (1024 * 64)).

(** The items that [memhistogram] streams. *)
Fixpoint histogram_items (i : nat) (histogram : list Z) : list item :=
  match histogram with
  | [] => []
  | n :: l => IInt (Z.of_nat i) :: ICString (Some (bs " ")) :: IInt n :: ICString (Some [LF]) :: histogram_items (S i) l
  end.
Definition memhistogram_items : list item :=
  [ICString (Some (bs "blocks ")); IInt (blocks MallocMemoryStats); ICString (Some ([LF] ++ bs "total "));
   IInt (total MallocMemoryStats); ICString (Some [LF])] ++
  histogram_items 0 (histogram MallocMemoryStats).
Definition memhistogram : res bytes :=
  let* s := stream_all memhistogram_items (FixedBuffer_new kSmallBuffer) in Ok (LogStream.toString s).

Definition releaseFreeMemory : bytes * list effect :=
  (cstr (snprintf 256 (bs "memory release rate: " ++ fmt_f 6 GetMemoryReleaseRate ++ [LF] ++
                       bs "All free memory released." ++ [LF])), [ReleaseFreeMemory]).

(** [registerCommands]; the table keeps the text of each page. *)
Definition pprof_commands (ins : Inspector) : Inspector :=
  let page (p : res bytes) : Callback := Some (fun _ _ => p) in
  let text {A} (p : res (bytes * A)) : res bytes := let* (t, _) := p in Ok t in
  let ins := Inspector.add (bs "pprof") (bs "heap") (page (Ok heap)) (bs "get heap information") ins in
  let ins := Inspector.add (bs "pprof") (bs "growth") (page (Ok growth)) (bs "get heap growth information") ins in
  let ins := Inspector.add (bs "pprof") (bs "profile") (page (text profile))
               (bs "get cpu profiling information. CAUTION: blocking thread for 30 seconds!") ins in
  let ins := Inspector.add (bs "pprof") (bs "cmdline") (page cmdline) (bs "get command line") ins in
  let ins := Inspector.add (bs "pprof") (bs "memstats") (page (Ok memstats)) (bs "get memory stats") ins in
  let ins := Inspector.add (bs "pprof") (bs "memhistogram") (page memhistogram) (bs "get memory histogram") ins in
  Inspector.add (bs "pprof") (bs "releasefreememory") (page (Ok releaseFreeMemory.1)) (bs "release free memory") ins.

(** ** Properties *)

Definition memory_ok (m : memory_stats) : Prop :=
  - 2 ^ 31 <= blocks m < 2 ^ 31 /\ 0 <= total m < 2 ^ 64 /\ length (histogram m) = 64%nat /\
  Forall (fun n => - 2 ^ 31 <= n < 2 ^ 31) (histogram m).

Fixpoint histogram_text (i : nat) (l : list Z) : bytes :=
  match l with [] => [] | n :: l => fmt_u (Z.of_nat i) ++ bs " " ++ fmt_d n ++ [LF] ++ histogram_text (S i) l end.

Lemma histogram_items_text l i : Forall (fun n => - 2 ^ 31 <= n < 2 ^ 31) l -> (i + length l <= 64)%nat ->
  Forall item_ok (histogram_items i l) /\ concat (map text (histogram_items i l)) = histogram_text i l /\
  zlen (histogram_text i l) <= 15 * zlen l.
Proof.
  revert i. induction l as [|n l IH]; intros i F Hi; [done|]. apply Forall_cons in F as [Hn F]. cbn [length] in Hi.
  destruct (IH (S i) F ltac:(lia)) as (I1 & I2 & I3). cbn [histogram_items histogram_text map concat text].
  rewrite I2. split_and!.
  - repeat constructor; cbn; try done; lia.
  - unfold fmt_d at 1. rewrite (proj2 (Z.ltb_ge _ _)) by lia. done.
  - rewrite !zlen_app, (zlen_cons n l). pose proof (fmt_u_length (Z.of_nat i) 2 ltac:(lia) ltac:(lia)).
    pose proof (fmt_d_short n Hn). change (zlen (bs " ")) with 1. change (zlen [LF]) with 1. lia.
Qed.
End pprof.

(** The pages under /pprof.  The histogram of the allocator is shown entirely: it
    always fits in the buffer of a stream.  The profile is the first mebibyte of
    the file that the profiler leaves under a name of the process and the time,
    which is removed, after thirty seconds; the command line that of /proc. *)
Theorem pprof_pages (os : System) (now_ : Timestamp) (m : memory_stats) (Hm : memory_ok m) :
  memhistogram m = Ok (bs "blocks " ++ fmt_d (blocks m) ++ [LF] ++ bs "total " ++ fmt_d (total m) ++ [LF] ++
                       histogram_text 0 (histogram m)) /\
  (forall ProfilerStart file name, procname os = Ok name ->
     exists filename, profile_name os now_ = Ok filename /\
       profile os now_ ProfilerStart file =
         Ok (if ProfilerStart (cstr filename)
             then (match file with inl fd => (read_result (1024 * 1024) fd 0).2 | inr _ => [] end,
                   [Slept (30, 0); ProfilerStop; Unlinked (cstr filename)])
             else ([], []))) /\
  (forall replace_all_copy, cmdline os replace_all_copy =
     Ok (replace_all_copy (match sys_open os (snprintf 256 (bs "/proc/" ++ fmt_d (pid os) ++ bs "/cmdline")) with
                           | inl fd => (read_result (1024 * 1024) fd 0).2 | inr _ => [] end) [x00] [LF; TAB])).
Proof.
  split_and!.
  - destruct Hm as (Hb & Ht & Hl & F). unfold memhistogram, memhistogram_items.
    destruct (histogram_items_text (histogram m) 0 F ltac:(lia)) as (I1 & I2 & I3). set (head := [_; _; _; _; _]).
    assert (T : concat (map text (head ++ histogram_items 0 (histogram m))) =
      bs "blocks " ++ fmt_d (blocks m) ++ [LF] ++ bs "total " ++ fmt_d (total m) ++ [LF] ++ histogram_text 0 (histogram m)).
    { rewrite map_app, concat_app, I2. unfold head. cbn. by rewrite <- !app_assoc. }
    destruct (stream_short (head ++ histogram_items 0 (histogram m))) as (b & -> & E); [| |by rewrite <- T, <- E].
    + apply Forall_app. split; [|done]. unfold head. repeat constructor; cbn; try done; lia.
    + rewrite T, !zlen_app. pose proof (fmt_d_short _ Hb).
      assert (zlen (fmt_d (total m)) <= 20).
      { unfold fmt_d. rewrite (proj2 (Z.ltb_ge _ _)) by lia.
        pose proof (fmt_u_length (total m) 20). change (Z.of_nat 20) with 20 in *. lia. }
      assert (zlen (histogram m) = 64) by (unfold zlen; lia).
      change (zlen (bs "blocks ")) with 7. change (zlen (bs "total ")) with 6. change (zlen [LF]) with 1.
      unfold kSmallBuffer. lia.
  - intros start file name E. unfold profile, profile_name. rewrite E. cbn [res_bind]. eexists. split; [done|].
    case_match; [|done]. rewrite readFile_reads by lia. cbn [res_bind]. destruct file as [fd|e]; [|done].
    by destruct (read_result _ fd 0).
  - intros r. unfold cmdline, readProcFile, read_proc. rewrite readFile_reads by lia. cbn [res_bind].
    change (cstr (bs "cmdline")) with (bs "cmdline"). destruct (sys_open os _) as [fd|e]; [|done].
    by destruct (read_result _ fd 0).
Qed.

Lemma pprof_pages_witness : memory_ok (mkMemoryStats 3 96 (replicate 64 0)) /\
  exists text, memhistogram (mkMemoryStats 3 96 (replicate 64 0)) = Ok (bs "blocks 3" ++ [LF] ++ bs "total 96" ++ [LF] ++ text).
Proof.
  assert (H : memory_ok (mkMemoryStats 3 96 (replicate 64 0))) by (unfold memory_ok; cbn -[replicate]; split_and!; try lia; [done|by apply Forall_replicate]).
  split; [exact H|]. eexists.
  exact (proj1 (pprof_pages (mkSystem 1 100 4096 (fun _ => inr 2) (fun _ => None) (fun _ => None) None None None None) 0 _ H)).
Defined.
