(* ===== verification/Logging.v ===== *)
(** * Log statements (cnet/base/Logging.h, Logging.cc, CurrentThread.h)

    The life of a log statement: the temporary [Logger] that puts the time, the
    thread, the level and the error in front of what the user streams, and the
    source position behind; the cache of the formatted second that each thread
    keeps; the level, zone and output that all threads share. *)

From S2P Require Import Prelude Cstd Timestamp TimeZone LogStream.

(** ** Levels and source files *)

Inductive LogLevel : Set := TRACE | DEBUG | INFO | WARN | ERROR | FATAL.

#[export] Instance LogLevel_eq_dec : EqDecision LogLevel.
Proof. solve_decision. Defined.

(** The value of the enumerator. *)
Definition level_Z (l : LogLevel) : Z :=
  match l with TRACE => 0 | DEBUG => 1 | INFO => 2 | WARN => 3 | ERROR => 4 | FATAL => 5 end.

Definition LogLevelName (l : LogLevel) : bytes :=
  match l with
  | TRACE => bs "TRACE "
  | DEBUG => bs "DEBUG "
  | INFO => bs "INFO  "
  | WARN => bs "WARN  "
  | ERROR => bs "ERROR "
  | FATAL => bs "FATAL "
  end.

(** Which of the two variables are in the environment. *)
Definition initLogLevel (trace debug : bool) : LogLevel :=
  if trace then TRACE else if debug then DEBUG else INFO.

(** [strrchr]: the position of the last occurrence in the C string. *)
Fixpoint rfind (c : byte) (l : bytes) : option nat :=
  match l with
  | [] => None
  | x :: l =>
      match rfind c l with
      | Some i => Some (S i)
      | None => if bool_decide (x = c) then Some O else None
      end
  end.
Definition SLASH : byte := x2f.

(** [SourceFile] from a literal of [zlen arr] characters; from a C string. *)
Definition SourceFile_literal (arr : bytes) : bytes :=
  match rfind SLASH (cstr arr) with Some slash => drop (S slash) arr | None => arr end.
Definition SourceFile (filename : bytes) : bytes :=
  match rfind SLASH (cstr filename) with
  | Some slash => drop (S slash) (cstr filename)
  | None => cstr filename
  end.

(** ** What a thread keeps, and what all share *)

(** [t_time], as a C string, [t_lastSecond]; the cached thread number and its
    text. *)
Record Thread := mkThread {
  t_time : bytes;
  t_lastSecond : Z;
  t_cachedTid : Z;
  t_tidString : bytes;
  t_tidStringLength : Z;
}.
Definition Thread_new : Thread := mkThread [] 0 0 [] 6.

(** [outputs]: what [g_output] was given; [flushes]: the calls of [g_flush];
    [aborted]: [abort] was called. *)
Record Globals := mkGlobals {
  g_logLevel : LogLevel;
  g_logTimeZone : TimeZone;
  outputs : list bytes;
  flushes : Z;
  aborted : bool;
}.
Definition Globals_new (level : LogLevel) : Globals := mkGlobals level TimeZone_invalid [] 0 false.
Definition setLogLevel (l : LogLevel) (g : Globals) : Globals :=
  mkGlobals l (g_logTimeZone g) (outputs g) (flushes g) (aborted g).
Definition setTimeZone (tz : TimeZone) (g : Globals) : Globals :=
  mkGlobals (g_logLevel g) tz (outputs g) (flushes g) (aborted g).
Definition output (msg : bytes) (g : Globals) : Globals :=
  mkGlobals (g_logLevel g) (g_logTimeZone g) (outputs g ++ [msg]) (flushes g) (aborted g).
Definition flush_abort (g : Globals) : Globals :=
  mkGlobals (g_logLevel g) (g_logTimeZone g) (outputs g) (flushes g + 1) true.

Section logging.
(** The C library: [gmtime_r], [strerror_r]; and what [gettid] gives. *)
Context (gmtime : Z -> tm) (strerror : Z -> bytes) (gettid : Z).

Definition cacheTid (t : Thread) : Thread :=
  if t_cachedTid t =? 0 then
    let s := fmt_wd 5 gettid ++ [SP] in
    mkThread (t_time t) (t_lastSecond t) gettid (snprintf 32 s) (zlen s)
  else t.

(** A text of a length known at compile time. *)
Definition T (str : bytes) (len : Z) : res item :=
  assert! zlen (cstr str) =? len; Ok (IString (ztake len str)).

(** The broken-down time of a second, in the zone of the log. *)
Definition log_tm (tz : TimeZone) (seconds : Z) : res tm :=
  if valid tz then toLocalTime gmtime tz seconds else Ok (gmtime seconds).

(** ["%4d%02d%02d %02d:%02d:%02d"] *)
Definition time_text (t : tm) : bytes :=
  fmt_wd 4 (tm_year t + 1900) ++ fmt_0wd 2 (tm_mon t + 1) ++ fmt_0wd 2 (tm_mday t) ++ [SP] ++
  fmt_0wd 2 (tm_hour t) ++ bs ":" ++ fmt_0wd 2 (tm_min t) ++ bs ":" ++ fmt_0wd 2 (tm_sec t).

(** [formatTime]: the items it streams. *)
Definition formatTime (time_ : Timestamp) (tz : TimeZone) (t : Thread) : res (list item * Thread) :=
  let seconds := time_ ÷ kMicroSecondsPerSecond in
  let microseconds := s32 (Z.rem time_ kMicroSecondsPerSecond) in
  let* t :=
    (if negb (seconds =? t_lastSecond t) then
       let* tm_time := log_tm tz seconds in
       let text := time_text tm_time in
       assert! zlen text =? 17;
       Ok (mkThread (snprintf 32 text) seconds (t_cachedTid t) (t_tidString t) (t_tidStringLength t))
     else Ok t) in
  let suffix := if valid tz then bs " " else bs "Z " in
  let n := if valid tz then 8 else 9 in
  let* us := Fmt_new (bs "." ++ fmt_0wd 6 microseconds ++ suffix) in
  assert! zlen us =? n;
  let* a := T (t_time t) 17 in
  let* b := T us n in
  Ok ([a; b], t).

(** [Impl::Impl]: what it streams. *)
Definition Impl_new (time_ : Timestamp) (tz : TimeZone) (level : LogLevel) (savedErrno : Z) (t : Thread)
  : res (list item * Thread) :=
  let* (stamp, t) := formatTime time_ tz t in
  let t := cacheTid t in
  let* tid := T (t_tidString t) (t_tidStringLength t) in
  let* name := T (LogLevelName level) 6 in
  let err := if negb (savedErrno =? 0)
             then [ICString (Some (strerror savedErrno)); ICString (Some (bs " (errno=")); IInt savedErrno;
                   ICString (Some (bs ") "))]
             else [] in
  Ok (stamp ++ [tid; name] ++ err, t).

Definition finish (basename : bytes) (line : Z) : list item :=
  [ICString (Some (bs " - ")); IString basename; IChar (Z_byte 58); IInt line; IChar LF].

(** The macros; [LOG_SYSERR] and [LOG_SYSFATAL] save errno. *)
Inductive macro : Set := LOG_TRACE | LOG_DEBUG | LOG_INFO | LOG_WARN | LOG_ERROR | LOG_FATAL | LOG_SYSERR | LOG_SYSFATAL.

Definition macro_level (m : macro) : LogLevel :=
  match m with
  | LOG_TRACE => TRACE | LOG_DEBUG => DEBUG | LOG_INFO => INFO | LOG_WARN => WARN
  | LOG_ERROR | LOG_SYSERR => ERROR | LOG_FATAL | LOG_SYSFATAL => FATAL
  end.
Definition macro_enabled (m : macro) (level : LogLevel) : bool :=
  match m with
  | LOG_TRACE | LOG_DEBUG | LOG_INFO => level_Z level <=? level_Z (macro_level m)
  | _ => true
  end.

(** A statement of the program, as it is executed: [errno], the time, and what
    the user streams. *)
Record statement := mkStatement {
  st_macro : macro;
  st_file : bytes;
  st_line : Z;
  st_func : bytes;
  st_errno : Z;
  st_time : Timestamp;
  st_items : list item;
}.

Definition st_level (s : statement) : LogLevel := macro_level (st_macro s).
Definition saved_errno (s : statement) : Z :=
  match st_macro s with LOG_SYSERR | LOG_SYSFATAL => st_errno s | _ => 0 end.
(** The name of the function, for [LOG_TRACE] and [LOG_DEBUG]. *)
Definition func_items (s : statement) : list item :=
  match st_macro s with LOG_TRACE | LOG_DEBUG => [ICString (Some (st_func s)); IChar SP] | _ => [] end.

(** A whole statement: the constructor, the user's operators, the destructor. *)
Definition log (s : statement) (t : Thread) (g : Globals) : res (Thread * Globals) :=
  if macro_enabled (st_macro s) (g_logLevel g) then
    let* (head, t) := Impl_new (st_time s) (g_logTimeZone g) (st_level s) (saved_errno s) t in
    let items := head ++ func_items s ++ st_items s ++ finish (SourceFile_literal (st_file s)) (st_line s) in
    let* buf := stream_all items (FixedBuffer_new kSmallBuffer) in
    let g := output (toString buf) g in
    Ok (t, if bool_decide (st_level s = FATAL) then flush_abort g else g)
  else Ok (t, g).

(** The statements of a thread, until [abort]. *)
Fixpoint log_all (l : list statement) (t : Thread) (g : Globals) : res (Thread * Globals) :=
  match l with
  | [] => Ok (t, g)
  | s :: l =>
      let* (t, g) := log s t g in
      if aborted g then Ok (t, g) else log_all l t g
  end.

(** [CheckNotNull] *)
Definition CheckNotNull (file : bytes) (line : Z) (names : bytes) (isnull : bool) (time : Timestamp) (t : Thread)
  (g : Globals) : res (Thread * Globals) :=
  if isnull then log (mkStatement LOG_FATAL file line [] 0 time [ICString (Some names)]) t g else Ok (t, g).

(** ** The text of a line *)

(** The time of a line. *)
Definition stamp (tz : TimeZone) (time_ : Timestamp) : res bytes :=
  let* tm_time := log_tm tz (time_ ÷ kMicroSecondsPerSecond) in
  Ok (time_text tm_time ++ bs "." ++ fmt_0wd 6 (Z.rem time_ kMicroSecondsPerSecond) ++
      (if valid tz then bs " " else bs "Z ")).

Definition error_text (e : Z) : bytes :=
  if e =? 0 then [] else cstr (strerror e) ++ bs " (errno=" ++ fmt_d e ++ bs ") ".

Definition line_text (tz : TimeZone) (s : statement) : res bytes :=
  let* time := stamp tz (st_time s) in
  Ok (time ++ fmt_wd 5 gettid ++ [SP] ++ LogLevelName (st_level s) ++ error_text (saved_errno s) ++
      concat (map text (func_items s)) ++ concat (map text (st_items s)) ++
      bs " - " ++ SourceFile_literal (st_file s) ++ bs ":" ++ fmt_d (st_line s) ++ [LF]).
End logging.

(** ** The cache of the second *)

(** The fields of a calendar time until the year 9999. *)
Record valid_tm (t : tm) : Prop := mkValidTm {
  vt_year : -900 <= tm_year t <= 8099;
  vt_mon : 0 <= tm_mon t <= 11;
  vt_mday : 1 <= tm_mday t <= 31;
  vt_hour : 0 <= tm_hour t <= 23;
  vt_min : 0 <= tm_min t <= 59;
  vt_sec : 0 <= tm_sec t <= 60;
}.

Lemma fmt_0wd_length w n : 0 <= n < 10 ^ Z.of_nat w -> (0 < w)%nat -> zlen (fmt_0wd (Z.of_nat w) n) = Z.of_nat w.
Proof.
  intros Hn Hw. unfold fmt_0wd. rewrite (proj2 (Z.ltb_ge n 0)) by lia. unfold pad_left. rewrite zlen_app.
  pose proof (fmt_u_length n w Hn Hw). unfold zlen at 1. rewrite length_replicate. lia.
Qed.

Lemma fmt_wd_length w n : 0 <= n < 10 ^ Z.of_nat w -> (0 < w)%nat -> zlen (fmt_wd (Z.of_nat w) n) = Z.of_nat w.
Proof.
  intros Hn Hw. unfold fmt_wd, fmt_d. rewrite (proj2 (Z.ltb_ge n 0)) by lia. unfold pad_left. rewrite zlen_app.
  pose proof (fmt_u_length n w Hn Hw). unfold zlen at 1. rewrite length_replicate. lia.
Qed.

Lemma digits_no_nul s : Forall (fun c => isdigit c = true) s -> x00 ∉ s.
Proof. intros H Hin. rewrite Forall_forall in H. by apply H in Hin. Qed.

Lemma fmt_0wd_no_nul w n : 0 <= n -> x00 ∉ fmt_0wd w n.
Proof.
  intros Hn. unfold fmt_0wd. rewrite (proj2 (Z.ltb_ge n 0)) by lia.
  by apply digits_no_nul, pad_zeros_digits, fmt_u_digits.
Qed.
Lemma fmt_wd_no_nul w n : 0 <= n -> x00 ∉ fmt_wd w n.
Proof.
  intros Hn. unfold fmt_wd, fmt_d, pad_left. rewrite (proj2 (Z.ltb_ge n 0)) by lia. rewrite elem_of_app.
  intros [Hx|Hx]; [by apply elem_of_replicate in Hx as [? _]|].
  by apply (digits_no_nul _ (fmt_u_digits n Hn)) in Hx.
Qed.

Lemma time_text_ok t : valid_tm t -> zlen (time_text t) = 17 /\ x00 ∉ time_text t.
Proof.
  intros []. unfold time_text. split.
  - rewrite !zlen_app. rewrite (fmt_wd_length 4) by lia. rewrite !(fmt_0wd_length 2) by lia. done.
  - rewrite !elem_of_app. intros Hx. destruct_or! Hx;
      try (by apply fmt_wd_no_nul in Hx; [|lia]); try (by apply fmt_0wd_no_nul in Hx; [|lia]);
      apply list_elem_of_singleton in Hx; done.
Qed.

(** ** The lines of a thread *)

Section lines.
Context (gmtime : Z -> tm) (strerror : Z -> bytes) (gettid : Z).
Hypothesis Htid : 0 < gettid < 2 ^ 31.

Definition second (time_ : Timestamp) : Z := time_ ÷ kMicroSecondsPerSecond.

(** The time of a line: after the first second of the epoch, and one that the
    zone can break down, before the year 10000. *)
Definition time_ok (tz : TimeZone) (time_ : Timestamp) : Prop :=
  kMicroSecondsPerSecond <= time_ /\ exists t, log_tm gmtime tz (second time_) = Ok t /\ valid_tm t.

(** What the thread keeps is what it would compute again. *)
Record thread_ok (tz : TimeZone) (t : Thread) : Prop := mkThreadOk {
  to_time : t_lastSecond t = 0 \/
    exists x, log_tm gmtime tz (t_lastSecond t) = Ok x /\ valid_tm x /\ t_time t = time_text x;
  to_tid : t_cachedTid t = 0 \/
    (t_cachedTid t = gettid /\ t_tidString t = fmt_wd 5 gettid ++ [SP] /\ t_tidStringLength t = zlen (t_tidString t));
}.

Lemma thread_new_ok tz : thread_ok tz Thread_new.
Proof. split; by left. Qed.

Lemma T_whole s : x00 ∉ s -> T s (zlen s) = Ok (IString s).
Proof. intros H. unfold T. rewrite cstr_no_nul, Z.eqb_refl by done. cbn. by rewrite ztake_ge by lia. Qed.

Lemma formatTime_ok tz time_ t : thread_ok tz t -> time_ok tz time_ ->
  exists a b t', formatTime gmtime time_ tz t = Ok ([IString a; IString b], t') /\
    stamp gmtime tz time_ = Ok (a ++ b) /\ zlen (a ++ b) <= 26 /\ thread_ok tz t'.
Proof using Type.
  intros [T1 T2] [Ht (x & Ex & Vx)]. unfold formatTime, stamp. fold (second time_).
  destruct (time_text_ok x Vx) as [Lx Nx].
  assert (Hs : 1 <= second time_).
  { unfold second. apply Z.quot_le_lower_bound; unfold kMicroSecondsPerSecond in *; lia. }
  assert (Hr : 0 <= Z.rem time_ kMicroSecondsPerSecond < 10 ^ 6).
  { unfold kMicroSecondsPerSecond in *. pose proof (Z.rem_bound_pos time_ (1000 * 1000)). lia. }
  rewrite s32_small by lia.
  set (t2 := mkThread (time_text x) (second time_) (t_cachedTid t) (t_tidString t) (t_tidStringLength t)).
  assert (E : exists t', (if negb (second time_ =? t_lastSecond t) then
       let* tm_time := log_tm gmtime tz (second time_) in
       assert! zlen (time_text tm_time) =? 17;
       Ok (mkThread (snprintf 32 (time_text tm_time)) (second time_) (t_cachedTid t) (t_tidString t) (t_tidStringLength t))
     else Ok t) = Ok t' /\ t_time t' = time_text x /\ thread_ok tz t').
  { destruct (Z.eqb_spec (second time_) (t_lastSecond t)) as [El|]; cbn [negb].
    - exists t. split; [done|]. split; [|by constructor]. destruct T1 as [T1|(y & Ey & _ & ->)]; [lia|].
      rewrite <-El, Ex in Ey. by injection Ey as ->.
    - rewrite Ex. cbn [res_bind]. rewrite Lx. cbn [assert_ Z.eqb Pos.eqb res_bind]. rewrite snprintf_fits by lia.
      exists t2. split; [done|]. split; [done|]. constructor; [right; by exists x|exact T2]. }
  destruct E as (t' & E & Et & Ok'). cbv zeta in *. rewrite E. cbn [res_bind].
  set (suffix := if valid tz then bs " " else bs "Z ").
  set (us := bs "." ++ fmt_0wd 6 (Z.rem time_ kMicroSecondsPerSecond) ++ suffix).
  assert (Lu : zlen us = if valid tz then 8 else 9).
  { unfold us, suffix. rewrite !zlen_app, (fmt_0wd_length 6) by lia. by destruct (valid tz). }
  assert (Nu : x00 ∉ us).
  { unfold us, suffix. rewrite !elem_of_app. intros [Hx|[Hx|Hx]].
    - apply list_elem_of_singleton in Hx. done.
    - by apply fmt_0wd_no_nul in Hx; [|lia].
    - revert Hx. apply (bool_decide_eq_false_1 _). by destruct (valid tz); vm_compute. }
  assert (Hlt : zlen us < 32) by (rewrite Lu; by destruct (valid tz)).
  unfold Fmt_new. rewrite (proj2 (Z.ltb_lt _ _)) by done. cbn [assert_ res_bind].
  rewrite snprintf_fits by done. rewrite Lu, Z.eqb_refl. cbn [assert_ res_bind].
  rewrite Et, <-Lx, T_whole by done. cbn [res_bind]. rewrite <-Lu, T_whole by done. cbn [res_bind].
  exists (time_text x), us, t'. split; [done|]. split; [|split; [|done]].
  - by rewrite Ex.
  - rewrite zlen_app, Lx, Lu. destruct (valid tz); lia.
Qed.

Lemma cacheTid_ok tz t : thread_ok tz t -> thread_ok tz (cacheTid gettid t) /\
  t_tidString (cacheTid gettid t) = fmt_wd 5 gettid ++ [SP] /\
  t_tidStringLength (cacheTid gettid t) = zlen (fmt_wd 5 gettid ++ [SP]).
Proof using Htid.
  assert (Hl : zlen (fmt_wd 5 gettid ++ [SP]) < 32).
  { rewrite zlen_app. change (zlen [SP]) with 1. unfold fmt_wd, fmt_d, pad_left. rewrite (proj2 (Z.ltb_ge gettid 0)) by lia.
    rewrite zlen_app. unfold zlen at 1. rewrite length_replicate. pose proof (fmt_u_length gettid 10). lia. }
  intros [T1 T2]. unfold cacheTid. destruct (Z.eqb_spec (t_cachedTid t) 0) as [E|E].
  - rewrite snprintf_fits by done. split; [|done]. constructor; [exact T1|]. by right.
  - destruct T2 as [T2|(E1 & E2 & E3)]; [done|]. split; [constructor; [done|by right]|]. by rewrite E3, E2.
Qed.

Definition int32 (z : Z) : Prop := - 2 ^ 31 <= z < 2 ^ 31.

Lemma Impl_ok tz time_ level e t : thread_ok tz t -> time_ok tz time_ -> int32 e ->
  exists items t', Impl_new gmtime strerror gettid time_ tz level e t = Ok (items, t') /\ thread_ok tz t' /\
    Forall item_ok items /\ exists s, stamp gmtime tz time_ = Ok s /\
    concat (map text items) = s ++ fmt_wd 5 gettid ++ [SP] ++ LogLevelName level ++ error_text strerror e.
Proof using Htid.
  intros Ht Htime He. unfold Impl_new.
  destruct (formatTime_ok tz time_ t Ht Htime) as (a & b & t1 & -> & Es & _ & Ht1). cbn [res_bind].
  destruct (cacheTid_ok tz t1 Ht1) as (Ht2 & E1 & E2). rewrite E1, E2.
  rewrite T_whole.
  2:{ rewrite elem_of_app. intros [Hx|Hx]; [by apply fmt_wd_no_nul in Hx; [|lia]|]. by apply list_elem_of_singleton in Hx. }
  cbn [res_bind]. assert (En : T (LogLevelName level) 6 = Ok (IString (LogLevelName level))) by (by destruct level).
  rewrite En. cbn [res_bind]. eexists _, _. split; [reflexivity|]. split; [done|]. split.
  - repeat constructor. destruct (Z.eqb_spec e 0); cbn [negb]; repeat constructor; cbn; unfold int32 in *; lia.
  - exists (a ++ b). split; [done|]. cbn [map concat app text]. rewrite <-!app_assoc. do 2 f_equal.
    cbn [app]. do 2 f_equal. unfold error_text. destruct (e =? 0); cbn [negb map concat text]; [done|].
    by rewrite app_nil_r.
Qed.

(** A statement whose line fits in the buffer, with room to spare. *)
Record statement_ok (tz : TimeZone) (s : statement) : Prop := mkStatementOk {
  so_time : time_ok tz (st_time s);
  so_errno : int32 (saved_errno s);
  so_line : int32 (st_line s);
  so_items : Forall item_ok (st_items s);
  so_short : forall l, line_text gmtime strerror gettid tz s = Ok l -> zlen l + 32 < kSmallBuffer;
}.

Lemma log_ok s t g : statement_ok (g_logTimeZone g) s -> thread_ok (g_logTimeZone g) t ->
  macro_enabled (st_macro s) (g_logLevel g) = true ->
  exists line t', line_text gmtime strerror gettid (g_logTimeZone g) s = Ok line /\
    log gmtime strerror gettid s t g =
      Ok (t', if bool_decide (st_level s = FATAL) then flush_abort (output line g) else output line g) /\
    thread_ok (g_logTimeZone g) t'.
Proof using Htid.
  intros [S1 S2 S3 S4 S5] Ht He. unfold log. rewrite He.
  destruct (Impl_ok (g_logTimeZone g) (st_time s) (st_level s) (saved_errno s) t Ht S1 S2)
    as (head & t' & -> & Ht' & Hh & z & Ez & Eh). cbn [res_bind].
  set (items := head ++ _ ++ _ ++ _).
  assert (El : line_text gmtime strerror gettid (g_logTimeZone g) s = Ok (concat (map text items))).
  { unfold line_text. rewrite Ez. cbn [res_bind]. f_equal. unfold items.
    rewrite !map_app, !concat_app, Eh, <-!app_assoc. reflexivity. }
  destruct (stream_short items) as (b & Eb & Et).
  - unfold items. repeat apply Forall_app_2; [done| |done|].
    + unfold func_items. destruct (st_macro s); repeat constructor.
    + unfold finish. repeat constructor; cbn; unfold int32 in *; lia.
  - by apply S5.
  - rewrite Eb. cbn [res_bind]. rewrite Et. eexists _, t'. split; [exact El|]. done.
Qed.

(** The statements that are printed: those of an enabled level, up to the first
    that is fatal. *)
Fixpoint printed (level : LogLevel) (l : list statement) : list statement :=
  match l with
  | [] => []
  | s :: l =>
      if macro_enabled (st_macro s) level
      then s :: (if bool_decide (st_level s = FATAL) then [] else printed level l)
      else printed level l
  end.

Lemma fatal_enabled s level : st_level s = FATAL -> macro_enabled (st_macro s) level = true.
Proof. unfold st_level. by destruct (st_macro s). Qed.

Lemma log_all_ok l t g : Forall (statement_ok (g_logTimeZone g)) l -> thread_ok (g_logTimeZone g) t -> aborted g = false ->
  exists t' g' lines, log_all gmtime strerror gettid l t g = Ok (t', g') /\ outputs g' = outputs g ++ lines /\
    Forall2 (fun s line => line_text gmtime strerror gettid (g_logTimeZone g) s = Ok line)
      (printed (g_logLevel g) l) lines /\
    (aborted g' = true <-> Exists (fun s => st_level s = FATAL) l) /\
    flushes g' = flushes g + (if aborted g' then 1 else 0).
Proof using Htid.
  intros Hl. revert t g Hl. induction l as [|s l IH]; intros t g Hl Ht Ha.
  - exists t, g, []. rewrite app_nil_r, Ha. split; [done|]. split; [done|]. split; [constructor|].
    split; [|lia]. split; [done|]. intros Hx. by apply Exists_nil in Hx.
  - apply Forall_cons in Hl as [Hs Hl]. cbn [log_all printed].
    destruct (macro_enabled (st_macro s) (g_logLevel g)) eqn:He.
    + destruct (log_ok s t g Hs Ht He) as (line & t1 & El & Eg & Ht1). rewrite Eg. cbn [res_bind].
      case_bool_decide as Hf.
      * cbn [aborted flush_abort output]. exists t1, (flush_abort (output line g)), [line].
        split; [done|]. split; [done|]. split; [by repeat constructor|]. rewrite Exists_cons. split; [tauto|done].
      * cbn [aborted output]. rewrite Ha.
        destruct (IH t1 (output line g) Hl Ht1 Ha) as (t' & g' & lines & E & Eo & F & Hab & Efl).
        exists t', g', (line :: lines). split; [exact E|]. rewrite Eo. cbn [outputs output]. rewrite <-app_assoc.
        split; [done|]. split; [by constructor|]. rewrite Exists_cons. split; [tauto|exact Efl].
    + unfold log. rewrite He. cbn [res_bind]. rewrite Ha.
      destruct (IH t g Hl Ht Ha) as (t' & g' & lines & E & Eo & F & Hab & Efl).
      exists t', g', lines. split; [exact E|]. split; [done|]. split; [done|]. split; [|done]. rewrite Hab, Exists_cons.
      split; [by right|]. intros [Hf|]; [|done]. rewrite (fatal_enabled s (g_logLevel g) Hf) in He. done.
Qed.

(** C37: The log of a thread, when each line fits in the buffer of 4000 bytes with
    the room of one more number to spare (the end of a longer one is lost:
    [long_line_unterminated]) and the zone of the log is set once, before the
    first statement (the text of a second outlives a change of zone:
    [zone_change_stale]): each enabled statement, up to the first fatal one,
    gives one line, in the order of the program, with the time it was made at in
    the zone of the log although the thread formats a second only once; a fatal
    statement flushes, once, and nothing runs after it. *)
Theorem log_lines l level tz : Forall (statement_ok tz) l ->
  exists t' g' lines,
    log_all gmtime strerror gettid l Thread_new (setTimeZone tz (Globals_new level)) = Ok (t', g') /\ outputs g' = lines /\
    Forall2 (fun s line => line_text gmtime strerror gettid tz s = Ok line) (printed level l) lines /\
    (aborted g' = true <-> Exists (fun s => st_level s = FATAL) l) /\
    flushes g' = if aborted g' then 1 else 0.
Proof using Htid.
  intros Hl. destruct (log_all_ok l Thread_new (setTimeZone tz (Globals_new level)) Hl (thread_new_ok tz) eq_refl)
    as (t' & g' & lines & E & Eo & F & Hab & Efl).
  by exists t', g', lines.
Qed.
End lines.

(** A concrete program: three statements in two seconds, the second of them
    of a level that is not enabled, a fourth that is fatal, a fifth that is
    never reached. *)
Module LogDemo.
Definition gmtime (s : Z) : tm := match toUtcTime s false with Ok t => t | _ => mkTm 0 0 0 0 0 0 0 0 0 0 [] end.
Definition strerror (e : Z) : bytes := bs "Error".
Definition st (m : macro) (time_ : Z) (text : bytes) : statement :=
  mkStatement m (bs "src/cnet/demo.cc") 7 (bs "main") 2 time_ [ICString (Some text)].
Definition program : list statement :=
  [st LOG_INFO 1400000000000001 (bs "one"); st LOG_DEBUG 1400000000000002 (bs "two"); st LOG_WARN 1400000000000003 (bs "three");
   st LOG_SYSERR 1400000001000000 (bs "four"); st LOG_FATAL 1400000001000001 (bs "five"); st LOG_INFO 1400000001000002 (bs "six")].
End LogDemo.

(** The checks that a statement of the program is one of [statement_ok]. *)
Lemma demo_ok : Forall (statement_ok LogDemo.gmtime LogDemo.strerror 4711 TimeZone_invalid) LogDemo.program.
Proof.
  assert (H : forall m t text, kMicroSecondsPerSecond <= t -> valid_tm (LogDemo.gmtime (second t)) ->
    (forall l, line_text LogDemo.gmtime LogDemo.strerror 4711 TimeZone_invalid (LogDemo.st m t text) = Ok l -> zlen l + 32 < 4000) ->
    statement_ok LogDemo.gmtime LogDemo.strerror 4711 TimeZone_invalid (LogDemo.st m t text)).
  { intros m t text Ht Hv Hs. split; [split; [done|by eexists]| | | |exact Hs].
    - destruct m; split; vm_compute; congruence.
    - split; vm_compute; congruence.
    - repeat constructor. }
  unfold LogDemo.program.
  repeat (apply Forall_cons; split; [apply H; [vm_compute; congruence|split; vm_compute; split; congruence|
    intros l El; vm_compute in El; injection El as <-; vm_compute; reflexivity]|]). constructor.
Qed.

Lemma log_lines_witness :
  exists t' g' lines,
    log_all LogDemo.gmtime LogDemo.strerror 4711 LogDemo.program Thread_new
      (setTimeZone TimeZone_invalid (Globals_new INFO)) = Ok (t', g') /\ outputs g' = lines /\
    Forall2 (fun s line => line_text LogDemo.gmtime LogDemo.strerror 4711 TimeZone_invalid s = Ok line)
      (printed INFO LogDemo.program) lines /\
    (aborted g' = true <-> Exists (fun s => st_level s = FATAL) LogDemo.program) /\
    flushes g' = if aborted g' then 1 else 0.
Proof. apply (log_lines LogDemo.gmtime LogDemo.strerror 4711); [split; vm_compute; congruence|exact demo_ok]. Defined.

Example demo_lines :
  (let* (_, g) := log_all LogDemo.gmtime LogDemo.strerror 4711 LogDemo.program Thread_new (Globals_new INFO) in
   Ok (outputs g, flushes g)) =
  Ok ([bs "20140513 16:53:20.000001Z  4711 INFO  one - demo.cc:7" ++ [LF];
       bs "20140513 16:53:20.000003Z  4711 WARN  three - demo.cc:7" ++ [LF];
       bs "20140513 16:53:21.000000Z  4711 ERROR Error (errno=2) four - demo.cc:7" ++ [LF];
       bs "20140513 16:53:21.000001Z  4711 FATAL five - demo.cc:7" ++ [LF]], 1).
Proof. vm_compute. reflexivity. Qed.

(** ** What the cache forgets *)

Section stale.
Context (gmtime : Z -> tm).

(** The zone is not part of the cache: after [setTimeZone], the lines of the
    same second still carry the time of the old zone. *)
Lemma zone_change_stale tz1 tz2 a b t : valid tz1 = valid tz2 ->
  thread_ok gmtime 1 tz1 t -> time_ok gmtime tz1 a -> time_ok gmtime tz1 b -> second a = second b ->
  exists i1 t1 i2 t2, formatTime gmtime a tz1 t = Ok (i1, t1) /\ formatTime gmtime b tz2 t1 = Ok (i2, t2) /\
    stamp gmtime tz1 b = Ok (concat (map text i2)).
Proof.
  intros Hv Ht Ha Hb Hs.
  assert (E2 : forall tz, valid tz = valid tz1 -> forall t1, t_lastSecond t1 = second b ->
    formatTime gmtime b tz t1 = formatTime gmtime b tz1 t1).
  { intros tz Etz t1 El. unfold formatTime. fold (second b). rewrite El, Z.eqb_refl, Etz. done. }
  destruct (formatTime_ok gmtime 1 tz1 a t Ht Ha) as (x & y & t1 & E & _ & _ & Ht1).
  destruct (formatTime_ok gmtime 1 tz1 b t1 Ht1 Hb) as (x' & y' & t2 & E' & S & _ & _).
  exists [IString x; IString y], t1, [IString x'; IString y'], t2. split; [done|]. rewrite E2; [|done|].
  - split; [done|]. cbn [map concat text]. by rewrite app_nil_r.
  - rewrite <-Hs. clear -E. unfold formatTime in E. fold (second a) in E.
    destruct (Z.eqb_spec (second a) (t_lastSecond t)) as [El|]; cbn [negb] in E.
    + inv_ok. repeat match goal with x : () |- _ => destruct x; inv_ok end. by simplify_eq.
    + inv_ok. repeat match goal with x : () |- _ => destruct x; inv_ok end. by simplify_eq.
Qed.
End stale.

(** ** What the buffer drops *)

(** A text that fills the buffer, in two operators: the source position and
    the newline are dropped with what does not fit, and the line that the
    output gets runs into the next one. *)
Lemma long_line_unterminated :
  let s := mkStatement LOG_INFO (bs "src/cnet/demo.cc") 7 (bs "main") 0 1400000000000001
             [ICString (Some (replicate 3900 x78)); ICString (Some (replicate 61 x79))] in
  exists t g, log LogDemo.gmtime LogDemo.strerror 4711 s Thread_new (Globals_new INFO) = Ok (t, g) /\
    outputs g = [bs "20140513 16:53:20.000001Z  4711 INFO  " ++ replicate 3900 x78 ++ replicate 61 x79].
Proof. cbv zeta. eexists _, _. split; vm_compute; reflexivity. Qed.
