(* ===== verification/MemcacheServer.v ===== *)
(** * The cache (examples/memcached/server/Item.h, Item.cc, MemcacheServer.h,
    MemcacheServer.cc)

    Items as they are received and stored, the sharded table with its update
    policies, and the map from keys to entries that it implements.  The hash of
    a key ([boost::hash_range]) is a parameter. *)

From stdpp Require Import gmap.
From S2P Require Import Prelude Cstd LogStream.

Inductive UpdatePolicy : Set := kInvalid | kSet | kAdd | kReplace | kAppend | kPrepend | kCas.

#[export] Instance UpdatePolicy_eq_dec : EqDecision UpdatePolicy.
Proof. solve_decision. Defined.

(** [received_]: the bytes of [data_] received so far, the key and then the
    value; [receivedBytes_] is their number. *)
Record Item := mkItem {
  keylen_ : Z;
  flags_ : Z;
  rel_exptime_ : Z;
  valuelen_ : Z;
  cas_ : Z;
  hash_ : Z;
  received_ : bytes;
}.

Section memcached.
Context (hash_range : bytes -> Z).

Definition receivedBytes_ (i : Item) : Z := zlen (received_ i).
Definition totalLen (i : Item) : Z := keylen_ i + valuelen_ i.
Definition key (i : Item) : bytes := ztake (keylen_ i) (received_ i).
Definition value (i : Item) : bytes := zdrop (keylen_ i) (received_ i).
Definition valueLength (i : Item) : Z := u64 (valuelen_ i).
Definition neededBytes (i : Item) : Z := u64 (totalLen i - receivedBytes_ i).

Definition setCas (casArg : Z) (i : Item) : Item :=
  mkItem (keylen_ i) (flags_ i) (rel_exptime_ i) (valuelen_ i) casArg (hash_ i) (received_ i).
Definition set_received (l : bytes) (i : Item) : Item :=
  mkItem (keylen_ i) (flags_ i) (rel_exptime_ i) (valuelen_ i) (cas_ i) (hash_ i) l.

Definition item_append (data : bytes) (i : Item) : res Item :=
  assert! zlen data <=? neededBytes i;
  let i := set_received (received_ i ++ data) i in
  assert! receivedBytes_ i <=? totalLen i;
  Ok i.

Definition makeItem (keyArg : bytes) (flagsArg exptimeArg valuelen casArg : Z) : res Item :=
  let i := mkItem (zlen keyArg) flagsArg exptimeArg valuelen casArg (hash_range keyArg) [] in
  assert! 2 <=? valuelen_ i;
  assert! receivedBytes_ i <? totalLen i;
  item_append keyArg i.

Definition endsWithCRLF (i : Item) : bool :=
  (receivedBytes_ i =? totalLen i) && bytes_eqb (zdrop (totalLen i - 2) (received_ i)) CRLF.

Definition resetKey (k : bytes) (i : Item) : res Item :=
  assert! zlen k <=? 250;
  let i := mkItem (zlen k) (flags_ i) (rel_exptime_ i) (valuelen_ i) (cas_ i) (hash_ i) [] in
  let* i := item_append k i in
  Ok (mkItem (keylen_ i) (flags_ i) (rel_exptime_ i) (valuelen_ i) (cas_ i) (hash_range k) (received_ i)).

(** [output(out, needCas)]: what it appends. *)
Definition output (i : Item) (needCas : bool) : res bytes :=
  let items := [IChar SP; IInt (flags_ i); IChar SP; IInt (valuelen_ i - 2)] ++
               (if needCas then [IChar SP; IInt (cas_ i)] else []) ++ [ICString (Some CRLF)] in
  let* buf := stream_all items (FixedBuffer_new kSmallBuffer) in
  Ok (bs "VALUE " ++ key i ++ toString buf ++ ztake (valuelen_ i) (value i)).

(** ** The server's table *)

Definition kShards : Z := 4096.

(** [shards_]: for each index a set of items, found by their key.  [g_cas] is the
    global counter. *)
Record MemcacheServer := mkMemcache {
  startTime_ : Z;
  shards_ : gmap Z (gmap bytes Item);
  g_cas : Z;
  stopping : bool;
}.

Definition MemcacheServer_new (time : Z) : MemcacheServer := mkMemcache (time - 1) ∅ 0 false.
Definition stop (s : MemcacheServer) : MemcacheServer :=
  mkMemcache (startTime_ s) (shards_ s) (g_cas s) true.

Definition items (h : Z) (s : MemcacheServer) : gmap bytes Item :=
  default ∅ (shards_ s !! (h mod kShards)).
Definition set_items (h : Z) (m : gmap bytes Item) (s : MemcacheServer) : MemcacheServer :=
  mkMemcache (startTime_ s) (<[h mod kShards := m]> (shards_ s)) (g_cas s) (stopping s).
Definition incrementAndGet (s : MemcacheServer) : Z * MemcacheServer :=
  (u64 (g_cas s + 1), mkMemcache (startTime_ s) (shards_ s) (u64 (g_cas s + 1)) (stopping s)).

(** The item made by appending or prepending. *)
Definition joined (policy : UpdatePolicy) (item oldItem : Item) (cas : Z) : res Item :=
  let newLen := s32 (u64 (valueLength item + valueLength oldItem - 2)) in
  let* newItem := makeItem (key item) (flags_ oldItem) (rel_exptime_ oldItem) newLen cas in
  let trimmed i := ztake (u64 (valueLength i - 2)) (value i) in
  let* newItem :=
    (if bool_decide (policy = kAppend) then
       let* newItem := item_append (trimmed oldItem) newItem in
       item_append (ztake (valueLength item) (value item)) newItem
     else
       let* newItem := item_append (trimmed item) newItem in
       item_append (ztake (valueLength oldItem) (value oldItem)) newItem) in
  assert! neededBytes newItem =? 0;
  assert! endsWithCRLF newItem;
  Ok newItem.

(** [storeItem]: the result, [*exists] and the server. *)
Definition storeItem (item : Item) (policy : UpdatePolicy) (s : MemcacheServer)
  : res (bool * bool * MemcacheServer) :=
  assert! neededBytes item =? 0;
  let h := hash_ item in
  let it := items h s !! key item in
  let exists_ := bool_decide (is_Some it) in
  let store s :=
    let '(n, s) := incrementAndGet s in
    set_items h (<[key item := setCas n item]> (items h s)) s in
  match policy with
  | kSet => Ok (true, exists_, store s)
  | kAdd => if exists_ then Ok (false, exists_, s) else Ok (true, exists_, store s)
  | kReplace => if exists_ then Ok (true, exists_, store s) else Ok (false, exists_, s)
  | kAppend | kPrepend =>
      match it with
      | Some oldItem =>
          let '(n, s) := incrementAndGet s in
          let* newItem := joined policy item oldItem n in
          Ok (true, exists_, set_items h (<[key newItem := newItem]> (delete (key item) (items h s))) s)
      | None => Ok (false, exists_, s)
      end
  | kCas =>
      match it with
      | Some oldItem =>
          if cas_ oldItem =? cas_ item then Ok (true, exists_, store s) else Ok (false, exists_, s)
      | None => Ok (false, exists_, s)
      end
  | kInvalid => Ok (true, exists_, s)
  end.

Definition getItem (k : Item) (s : MemcacheServer) : option Item := items (hash_ k) s !! key k.

Definition deleteItem (k : Item) (s : MemcacheServer) : bool * MemcacheServer :=
  let m := items (hash_ k) s in
  (bool_decide (is_Some (m !! key k)), set_items (hash_ k) (delete (key k) m) s).

(** ** What it promises: one map from keys to entries *)

(** The data of an entry is the value without its CR LF. *)
Record entry := mkEntry { e_flags : Z; e_exptime : Z; e_data : bytes; e_cas : Z }.

Definition entry_of (i : Item) : entry :=
  mkEntry (flags_ i) (rel_exptime_ i) (ztake (valuelen_ i - 2) (value i)) (cas_ i).

(** The update [policy] of the entry of [k] with [e]; [n] is the next cas. *)
Definition spec_store (policy : UpdatePolicy) (k : bytes) (e : entry) (n : Z) (m : gmap bytes entry)
  : bool * Z * gmap bytes entry :=
  let put := (true, n, <[k := mkEntry (e_flags e) (e_exptime e) (e_data e) n]> m) in
  let no := (false, n - 1, m) in
  let join f := match m !! k with
                | Some o => (true, n, <[k := mkEntry (e_flags o) (e_exptime o) (f (e_data o)) n]> m)
                | None => no
                end in
  match policy with
  | kSet => put
  | kAdd => match m !! k with Some _ => no | None => put end
  | kReplace => match m !! k with Some _ => put | None => no end
  | kAppend => join (fun d => d ++ e_data e)
  | kPrepend => join (fun d => e_data e ++ d)
  | kCas => match m !! k with
            | Some o => if e_cas o =? e_cas e then put else no
            | None => no
            end
  | kInvalid => (true, n - 1, m)
  end.

(** A complete item with the key [k]: the key, the data and CR LF, of lengths an
    int holds. *)
Record item_is (k : bytes) (i : Item) : Prop := mkItemIs {
  ii_key : keylen_ i = zlen k;
  ii_hash : hash_ i = hash_range k;
  ii_data : exists d, received_ i = k ++ d ++ CRLF /\ valuelen_ i = zlen d + 2;
  ii_len : totalLen i < 2 ^ 31;
}.

Definition models (s : MemcacheServer) (m : gmap bytes entry) : Prop :=
  0 <= g_cas s /\
  forall k, match items (hash_range k) s !! k with
            | Some i => item_is k i /\ m !! k = Some (entry_of i)
            | None => m !! k = None
            end.

Lemma item_key k i : item_is k i -> key i = k.
Proof.
  intros [Hk _ (d & Hd & _) _]. unfold key. rewrite Hk, Hd. by apply ztake_app_exact.
Qed.
Lemma item_value k i : item_is k i ->
  exists d, value i = d ++ CRLF /\ valuelen_ i = zlen d + 2 /\ received_ i = k ++ d ++ CRLF /\
    e_data (entry_of i) = d.
Proof.
  intros [Hk _ (d & Hd & Hv) _]. exists d.
  assert (E : value i = d ++ CRLF) by (unfold value; rewrite Hk, Hd; by apply zdrop_app_exact).
  split_and!; try done. unfold entry_of. cbn. rewrite E, Hv. apply ztake_app_exact. lia.
Qed.

Lemma item_needed k i : item_is k i -> neededBytes i = 0 /\ totalLen i = receivedBytes_ i.
Proof.
  intros I. destruct (item_value k i I) as (d & _ & Hv & Hr & _). destruct I as [Hk _ _ Hl].
  unfold neededBytes, totalLen, receivedBytes_ in *. rewrite Hr, !zlen_app, Hk, Hv in *.
  change (zlen CRLF) with 2. split; [|lia].
  replace (zlen k + (zlen d + 2) - (zlen k + (zlen d + 2))) with 0 by lia. done.
Qed.

Lemma item_append_spec data i : 0 <= receivedBytes_ i -> totalLen i < 2 ^ 31 ->
  receivedBytes_ i + zlen data <= totalLen i ->
  item_append data i = Ok (set_received (received_ i ++ data) i).
Proof.
  intros H0 Hl H. pose proof (zlen_nonneg data). unfold item_append, neededBytes.
  rewrite u64_small by lia. rewrite (proj2 (Z.leb_le _ _)) by lia. cbn [assert_ res_bind].
  unfold receivedBytes_, totalLen in *. cbn [received_ keylen_ valuelen_ set_received].
  rewrite zlen_app, (proj2 (Z.leb_le _ _)) by lia. done.
Qed.

Lemma makeItem_spec k fl ex n c : 2 <= n -> zlen k + n < 2 ^ 31 ->
  makeItem k fl ex n c = Ok (mkItem (zlen k) fl ex n c (hash_range k) k).
Proof.
  intros Hn Hl. pose proof (zlen_nonneg k). unfold makeItem. cbn [valuelen_].
  rewrite (proj2 (Z.leb_le _ _)) by lia. cbn [assert_ res_bind].
  unfold receivedBytes_, totalLen. cbn [received_ keylen_ valuelen_]. rewrite zlen_nil.
  rewrite (proj2 (Z.ltb_lt _ _)) by lia. cbn [assert_ res_bind].
  rewrite item_append_spec; unfold receivedBytes_, totalLen; cbn [received_ keylen_ valuelen_];
    rewrite ?zlen_nil; done || lia.
Qed.

Lemma items_set_eq h m s : items h (set_items h m s) = m.
Proof. unfold items, set_items. cbn. by rewrite lookup_insert_eq. Qed.
Lemma items_set h h' m s : items h' (set_items h m s) =
  if decide (h' mod kShards = h mod kShards) then m else items h' s.
Proof.
  unfold items, set_items. cbn. case_decide as E; [by rewrite E, lookup_insert_eq|].
  by rewrite lookup_insert_ne.
Qed.

(** Replacing one key's item. *)
Lemma models_update s s' m k i e n :
  models s m -> 0 <= n -> item_is k i -> entry_of i = e ->
  shards_ s' = shards_ (set_items (hash_range k) (<[k := i]> (items (hash_range k) s)) s) ->
  g_cas s' = n -> models s' (<[k := e]> m).
Proof.
  intros [Hc H] Hn Hi He Hs Hg. split; [lia|]. intros k'. specialize (H k').
  assert (E : items (hash_range k') s' = items (hash_range k')
                (set_items (hash_range k) (<[k := i]> (items (hash_range k) s)) s))
    by (unfold items; by rewrite Hs).
  rewrite E, items_set. destruct (decide (k' = k)) as [->|Hne].
  - rewrite decide_True, lookup_insert_eq by done. split; [done|]. by rewrite lookup_insert_eq, He.
  - rewrite (lookup_insert_ne m) by done.
    case_decide as Ed; [rewrite lookup_insert_ne by done|done].
    assert (items (hash_range k') s = items (hash_range k) s) as Ei by (unfold items; by rewrite Ed).
    by rewrite <-Ei.
Qed.

Lemma item_is_setCas k i n : item_is k i -> item_is k (setCas n i).
Proof. intros []. by constructor. Qed.
Lemma entry_setCas i n : entry_of (setCas n i) =
  mkEntry (e_flags (entry_of i)) (e_exptime (entry_of i)) (e_data (entry_of i)) n.
Proof. done. Qed.

(** The joined item of an append or a prepend. *)
Lemma joined_spec policy item old k n : policy = kAppend \/ policy = kPrepend ->
  item_is k item -> item_is k old ->
  zlen k + zlen (e_data (entry_of item)) + zlen (e_data (entry_of old)) + 2 < 2 ^ 31 ->
  exists i, joined policy item old n = Ok i /\ item_is k i /\
    entry_of i = mkEntry (flags_ old) (rel_exptime_ old)
      (if decide (policy = kAppend) then e_data (entry_of old) ++ e_data (entry_of item)
       else e_data (entry_of item) ++ e_data (entry_of old)) n.
Proof.
  intros Hp Hi Ho Hl. destruct (item_value k item Hi) as (d & Vd & Ld & _ & Ed).
  destruct (item_value k old Ho) as (o & Vo & Lo & _ & Eo). rewrite Ed, Eo in *.
  pose proof (zlen_nonneg k). pose proof (zlen_nonneg d). pose proof (zlen_nonneg o).
  pose proof (ii_len k item Hi) as Hi'. pose proof (ii_len k old Ho) as Ho'.
  unfold totalLen in Hi', Ho'. rewrite (ii_key k item Hi) in Hi'. rewrite (ii_key k old Ho) in Ho'.
  unfold joined, valueLength. rewrite (item_key k item Hi), Ld, Lo, Vd, Vo.
  rewrite (u64_small (zlen d + 2)), (u64_small (zlen o + 2)), !u64_small by lia.
  replace (zlen d + 2 + (zlen o + 2) - 2) with (zlen d + zlen o + 2) by lia.
  rewrite s32_small by lia. rewrite makeItem_spec by lia. cbn [res_bind].
  replace (zlen d + 2 - 2) with (zlen d) by lia. replace (zlen o + 2 - 2) with (zlen o) by lia.
  rewrite (ztake_app_exact (zlen d) d CRLF), (ztake_app_exact (zlen o) o CRLF) by done.
  rewrite (ztake_ge (zlen d + 2)), (ztake_ge (zlen o + 2)) by (rewrite zlen_app; change (zlen CRLF) with 2; lia).
  set (i0 := mkItem _ _ _ _ _ _ k). set (p := if decide (policy = kAppend) then o else d).
  set (q := if decide (policy = kAppend) then d else o).
  assert (Hpq : zlen p + zlen q = zlen d + zlen o) by (subst p q; case_decide; lia).
  pose proof (zlen_nonneg p). pose proof (zlen_nonneg q).
  match goal with |- context [res_bind (if ?b then ?x else ?y) ?f] =>
    assert (E : (if b then x else y) = Ok (set_received (k ++ (p ++ q) ++ CRLF) i0)) end.
  { assert (E : forall a b, zlen a + zlen b = zlen d + zlen o ->
      (let* j := item_append a i0 in item_append (b ++ CRLF) j) =
        Ok (set_received (k ++ (a ++ b) ++ CRLF) i0)).
    { intros a b Hab. pose proof (zlen_nonneg a). pose proof (zlen_nonneg b).
      rewrite item_append_spec by (unfold receivedBytes_, totalLen, i0; cbn [received_ keylen_ valuelen_]; lia).
      cbn [res_bind]. rewrite item_append_spec by (unfold receivedBytes_, totalLen, i0;
        cbn [received_ keylen_ valuelen_ set_received];
        rewrite ?zlen_app; change (zlen CRLF) with 2; lia).
      unfold i0. cbn [received_ set_received]. by rewrite <-!app_assoc. }
    clear H2 H3 Hpq. subst p q. case_bool_decide; case_decide; try done; apply E; lia. }
  rewrite E. cbn [res_bind].
  assert (I : item_is k (set_received (k ++ (p ++ q) ++ CRLF) i0)).
  { constructor; try done.
    - exists (p ++ q). split; [done|]. cbn. rewrite zlen_app. lia.
    - unfold totalLen. cbn. lia. }
  rewrite (proj1 (item_needed _ _ I)). cbn [Z.eqb assert_ res_bind].
  assert (Hcr : endsWithCRLF (set_received (k ++ (p ++ q) ++ CRLF) i0) = true).
  { unfold endsWithCRLF. rewrite <-(proj2 (item_needed _ _ I)), Z.eqb_refl. apply bytes_eqb_true.
    unfold totalLen. cbn [received_ set_received keylen_ valuelen_ i0].
    rewrite (app_assoc k). apply zdrop_app_exact. rewrite zlen_app, zlen_app. lia. }
  rewrite Hcr. cbn [assert_ res_bind]. eexists. split; [reflexivity|]. split; [done|].
  destruct (item_value k _ I) as (dd & _ & _ & R & Ev). cbn in R.
  apply app_inv_head, app_inv_tail in R. subst dd. unfold entry_of in *. cbn [e_data] in Ev. rewrite Ev.
  cbn. subst p q. by case_decide.
Qed.

Definition needle_of (k : bytes) (nd : Item) : Prop := key nd = k /\ hash_ nd = hash_range k.

Lemma models_get s m k nd : models s m -> needle_of k nd ->
  match getItem nd s with Some i => item_is k i /\ m !! k = Some (entry_of i) | None => m !! k = None end.
Proof. intros [_ H] [Hk Hh]. unfold getItem. rewrite Hk, Hh. apply H. Qed.

Lemma models_delete s m k nd : models s m -> needle_of k nd ->
  exists s', deleteItem nd s = (bool_decide (is_Some (m !! k)), s') /\ models s' (delete k m) /\
    startTime_ s' = startTime_ s /\ g_cas s' = g_cas s.
Proof.
  intros [Hc H] [Hk Hh]. unfold deleteItem. rewrite Hk, Hh.
  exists (set_items (hash_range k) (delete k (items (hash_range k) s)) s).
  split; [apply (f_equal2 pair); [|done]|split; [split; [exact Hc|]|done]].
  - apply bool_decide_ext. specialize (H k).
    destruct (items (hash_range k) s !! k) as [i|]; [destruct H as [_ ->]|rewrite H]; split; intros Hs; eauto; by destruct Hs.
  - intros k'. rewrite items_set. specialize (H k'). destruct (decide (k' = k)) as [->|Hne].
    + by rewrite decide_True, !lookup_delete_eq.
    + rewrite (lookup_delete_ne m) by done. case_decide as Ed; [rewrite lookup_delete_ne by done|done].
      assert (items (hash_range k') s = items (hash_range k) s) as Ei by (unfold items; by rewrite Ed).
      by rewrite <-Ei.
Qed.

Lemma storeItem_spec policy item k s m : models s m -> item_is k item ->
  (policy = kAppend \/ policy = kPrepend -> forall o, m !! k = Some o ->
     zlen k + zlen (e_data (entry_of item)) + zlen (e_data o) + 2 < 2 ^ 31) ->
  g_cas s + 1 < 2 ^ 63 ->
  exists s', let '(r, n, m') := spec_store policy k (entry_of item) (g_cas s + 1) m in
    storeItem item policy s = Ok (r, bool_decide (is_Some (m !! k)), s') /\
    g_cas s' = n /\ models s' m' /\ startTime_ s' = startTime_ s.
Proof.
  intros M I Hj Hc. pose proof (proj1 M) as Hc0. pose proof (proj2 M k) as Hk. unfold storeItem.
  rewrite (proj1 (item_needed k item I)). cbn [Z.eqb assert_ res_bind].
  rewrite (ii_hash k item I), (item_key k item I).
  set (ex := bool_decide (is_Some (items (hash_range k) s !! k))). cbv zeta.
  assert (Hex : ex = bool_decide (is_Some (m !! k))).
  { subst ex. apply bool_decide_ext. destruct (items (hash_range k) s !! k) as [i|];
      [destruct Hk as [_ ->]|rewrite Hk]; split; intros Hs; eauto; by destruct Hs. }
  assert (Hn : u64 (g_cas s + 1) = g_cas s + 1) by (apply u64_small; lia).
  set (store := let '(n, s) := incrementAndGet s in _).
  assert (P : g_cas store = g_cas s + 1 /\ startTime_ store = startTime_ s /\
              models store (<[k := mkEntry (e_flags (entry_of item)) (e_exptime (entry_of item))
                                     (e_data (entry_of item)) (g_cas s + 1)]> m)).
  { subst store. unfold incrementAndGet. rewrite Hn. split; [done|]. split; [done|].
    apply (models_update s _ m k (setCas (g_cas s + 1) item) _ (g_cas s + 1)); try done; [lia|].
    by apply item_is_setCas. }
  destruct P as (P1 & P2 & P3). clearbody store.
  assert (N : g_cas s + 1 - 1 = g_cas s) by lia.
  rewrite Hex. unfold spec_store. rewrite N.
  destruct (items (hash_range k) s !! k) as [old|] eqn:Eo; [destruct Hk as [Io Hk]|]; rewrite Hk in *;
    [rewrite bool_decide_eq_true_2 by eauto|rewrite bool_decide_eq_false_2 by (by intros [])];
    destruct policy; try (by exists s); try (by exists store).
  - (* append *)
    unfold incrementAndGet. rewrite Hn.
    destruct (joined_spec kAppend item old k (g_cas s + 1)) as (i & -> & Ii & Ei);
      [by left|done|done|apply (Hj ltac:(by left) _ eq_refl)|].
    cbn [res_bind]. rewrite (item_key k i Ii). eexists. split; [reflexivity|]. split; [done|]. split; [|done].
    apply (models_update s _ m k i _ (g_cas s + 1)); try done; [lia|].
    cbn. unfold items. by rewrite insert_delete_eq.
  - unfold incrementAndGet. rewrite Hn.
    destruct (joined_spec kPrepend item old k (g_cas s + 1)) as (i & -> & Ii & Ei);
      [by right|done|done|apply (Hj ltac:(by right) _ eq_refl)|].
    cbn [res_bind]. rewrite (item_key k i Ii). eexists. split; [reflexivity|]. split; [done|]. split; [|done].
    apply (models_update s _ m k i _ (g_cas s + 1)); try done; [lia|].
    cbn. unfold items. by rewrite insert_delete_eq.
  - (* cas *) cbn [entry_of e_cas]. destruct (cas_ old =? cas_ item); [by exists store|by exists s].
Qed.

(** C22: For every hash function, the sharded table implements one map from keys
    to entries.  Storing a received item under each of the policies gives the
    result, the [exists] flag, the next cas number and the updated map of the
    specification (set always, add only if absent, replace, append and prepend
    only if present, cas only if the cas numbers agree), with no assertion
    failing as long as the lengths fit an int; looking up gives the entry of the
    map; deleting removes it and tells whether it was there. *)
Theorem cache_refines_map (policy : UpdatePolicy) (item nd : Item) (k k' : bytes) (s : MemcacheServer)
  (m : gmap bytes entry) (M : models s m) (I : item_is k item)
  (Hj : policy = kAppend \/ policy = kPrepend -> forall o, m !! k = Some o ->
     zlen k + zlen (e_data (entry_of item)) + zlen (e_data o) + 2 < 2 ^ 31)
  (Hc : g_cas s + 1 < 2 ^ 63) (Hnd : needle_of k' nd) :
  (exists s', let '(r, n, m') := spec_store policy k (entry_of item) (g_cas s + 1) m in
     storeItem item policy s = Ok (r, bool_decide (is_Some (m !! k)), s') /\
     g_cas s' = n /\ models s' m') /\
  entry_of <$> getItem nd s = m !! k' /\
  (exists s', deleteItem nd s = (bool_decide (is_Some (m !! k')), s') /\ models s' (delete k' m)).
Proof.
  split; [|split].
  - destruct (storeItem_spec policy item k s m M I Hj Hc) as (s' & H). exists s'.
    destruct (spec_store _ _ _ _ _) as [[r n] m']. destruct H as (H1 & H2 & H3 & _). done.
  - pose proof (models_get s m k' nd M Hnd) as H. destruct (getItem nd s) as [i|]; [|done].
    by destruct H as [_ ->].
  - destruct (models_delete s m k' nd M Hnd) as (s' & H1 & H2 & _). by exists s'.
Qed.
End memcached.

Definition ex_item : Item := mkItem 1 5 0 4 0 7 (bs "k" ++ bs "ab" ++ CRLF).

Lemma cache_refines_map_witness :
  exists s', storeItem (fun _ => 7) ex_item kAdd (MemcacheServer_new 100) = Ok (true, false, s') /\ g_cas s' = 1 /\
    models (fun _ => 7) s' {[ bs "k" := mkEntry 5 0 (bs "ab") 1 ]}.
Proof.
  destruct (cache_refines_map (fun _ => 7) kAdd ex_item ex_item (bs "k") (bs "k") (MemcacheServer_new 100) ∅)
    as [(s' & H1 & H2 & H3) _].
  - split; [done|]. intros k. unfold items. cbn. by rewrite !lookup_empty.
  - constructor; try done. by exists (bs "ab").
  - by intros [?|?].
  - done.
  - done.
  - exists s'. split; [exact H1|]. split; [exact H2|exact H3].
Defined.
