(* ===== verification/MemcacheSessions.v ===== *)
(** * The sessions of the cache server (examples/memcached/server/MemcacheServer.cc,
    onConnection)

    The map of sessions, filled and emptied by the connection callback, over
    TcpServer: every callback that a connection makes goes to the cache. *)

From stdpp Require Import gmap.
From S2P Require Import Prelude Channel TcpConnection EventLoopThreadPool TcpServer Callbacks.

(** A session is the one of the connection with that number; nothing else keeps
    it alive. *)
Record Cache := mkCache {
  server_ : TcpServer;
  sessions_ : gmap bytes Z;
}.

(** [onConnection]: the check and the change are under [mutex_]. *)
Definition cache_onConnection (c : Z) (name : bytes) (up : bool) (sessions : gmap bytes Z) : res (gmap bytes Z) :=
  if up then
    assert! bool_decide (sessions !! name = None);
    Ok (<[name := c]> sessions)
  else
    assert! bool_decide (sessions !! name <> None);
    Ok (delete name sessions).

(** The callbacks of a connection.  The message callback is bound to the session
    itself, not to a pointer that keeps it alive. *)
Definition cache_callback (c : Z) (name : bytes) (sessions : gmap bytes Z) (k : call) : res (gmap bytes Z) :=
  match k with
  | CallConnection up => cache_onConnection c name up sessions
  | CallMessage => if decide (sessions !! name = Some c) then Ok sessions else Err EUndefined
  | CallWriteComplete | CallHighWaterMark _ | CallClose => Ok sessions
  end.

Definition cache_exec (ev : server_event) (s : Cache) : res Cache :=
  let* sv := server_exec ev (server_ s) in
  let* sessions :=
    (match touched ev (server_ s) with
     | None => Ok (sessions_ s)
     | Some c =>
         match conns sv !! c with
         | None => Ok (sessions_ s)
         | Some sc => res_foldl (cache_callback c (conn_name sc)) (sessions_ s)
                        (new_calls c (server_ s) sv)
         end
     end) in
  Ok (mkCache sv sessions).

Definition cache_run (l : list server_event) (s : Cache) : res Cache :=
  res_foldl (fun s ev => cache_exec ev s) s l.

(** ** The map of sessions *)

(** The callbacks of a connection, messages apart, keep its session in the map
    while it is open. *)
Lemma callbacks_ok c n new up up' m : CallMessage ∉ new -> turns up (ups_and_downs new) = Some up' ->
  m !! n = (if up then Some c else None) ->
  exists m', res_foldl (cache_callback c n) m new = Ok m' /\ m' !! n = (if up' then Some c else None) /\
    forall n', n' <> n -> m' !! n' = m !! n'.
Proof.
  revert up m. induction new as [|k new IH]; intros up m Hm Ht Hn.
  - exists m. injection Ht as <-. done.
  - apply not_elem_of_cons in Hm as [Hk Hm]. cbn [res_foldl].
    assert (K : forall up1 m1, cache_callback c n m k = Ok m1 -> turns up1 (ups_and_downs new) = Some up' ->
      m1 !! n = (if up1 then Some c else None) -> (forall n', n' <> n -> m1 !! n' = m !! n') ->
      exists m', res_bind (cache_callback c n m k) (fun m1 => res_foldl (cache_callback c n) m1 new) = Ok m' /\
        m' !! n = (if up' then Some c else None) /\ forall n', n' <> n -> m' !! n' = m !! n').
    { intros up1 m1 -> Ht1 Hn1 Ho. destruct (IH up1 m1 Hm Ht1 Hn1) as (m' & E & E1 & E2). exists m'.
      split; [done|]. split; [done|]. intros n' Hne. by rewrite E2, Ho. }
    destruct k as [b| | |h|]; try done; cbn [cache_callback] in *; try (by apply (K up m)).
    change (ups_and_downs (CallConnection b :: new)) with (b :: ups_and_downs new) in Ht. cbn [turns] in Ht.
    destruct b, up; try done; unfold cache_onConnection in *; rewrite bool_decide_eq_true_2 in * by congruence;
      cbn [assert_ res_bind] in *.
    + apply (K true (<[n := c]> m)); [done|done|by rewrite lookup_insert_eq|]. intros n' Hne. by rewrite lookup_insert_ne.
    + apply (K false (delete n m)); [done|done|by rewrite lookup_delete_eq|]. intros n' Hne. by rewrite lookup_delete_ne.
Qed.

Definition sessions_match (s : Cache) : Prop := forall n c,
  sessions_ s !! n = Some c <-> exists sc, conns (server_ s) !! c = Some sc /\ conn_name sc = n /\ open (conn sc).

(** The entry of a connection that has sc for its state. *)
Lemma match_at s c sc : server_inv (server_ s) -> sessions_match s -> conns (server_ s) !! c = Some sc ->
  sessions_ s !! conn_name sc = (if is_open (conn sc) then Some c else None).
Proof.
  intros I M Hc. destruct (is_open (conn sc)) eqn:E.
  - apply M. exists sc. by rewrite <-is_open_spec.
  - destruct (sessions_ s !! conn_name sc) as [c2|] eqn:E2; [|done]. apply M in E2 as (sc2 & H2 & Hn & Ho).
    assert (c2 = c) as -> by by eapply names_unique. rewrite Hc in H2. injection H2 as <-.
    apply is_open_spec in Ho. congruence.
Qed.

Lemma cache_exec_ok ev s : server_inv (server_ s) -> sessions_match s -> server_event_okb ev (server_ s) = true ->
  exists s', cache_exec ev s = Ok s' /\ server_exec ev (server_ s) = Ok (server_ s') /\
    server_inv (server_ s') /\ sessions_match s'.
Proof.
  intros I M Hok. destruct (server_exec_inv ev _ I Hok) as (sv & E & I'). unfold cache_exec. rewrite E. cbn [res_bind].
  pose proof (server_about ev _ _ I Hok E) as S. destruct (touched ev (server_ s)) as [c|].
  2:{ eexists. split; [reflexivity|]. split; [done|]. split; [done|]. intros n c. cbn. by rewrite S. }
  destruct S as (k & sc' & A). pose proof A as [[O1 O2 O3 _] Ik _ Hk _]. rewrite O1.
  assert (Hm : sessions_ s !! conn_name sc' = (if is_open k then Some c else None)).
  { destruct Hk as [(sc & Hc & ->)|(Hc & fd & ->)]; [rewrite (O3 sc Hc); by apply match_at|]. cbn.
    destruct (sessions_ s !! conn_name sc') as [c2|] eqn:E2; [|done]. apply M in E2 as (sc2 & H2 & Hn & _).
    assert (c2 <> c) as Hne by congruence. rewrite <-(O2 c2 Hne) in H2. destruct Hne. by eapply names_unique. }
  assert (F : exists m, res_foldl (cache_callback c (conn_name sc')) (sessions_ s) (new_calls c (server_ s) sv)
      = Ok m /\ m !! conn_name sc' = (if is_open (conn sc') then Some c else None) /\
    forall n, n <> conn_name sc' -> m !! n = sessions_ s !! n).
  { destruct (about_calls _ _ _ _ _ _ A I') as [[Hnew Ht]|(-> & Ho & Es)].
    - by apply (callbacks_ok c (conn_name sc') _ (is_open k)).
    - exists (sessions_ s). cbn. apply is_open_spec in Ho. rewrite Ho in Hm. rewrite decide_True by done.
      split; [done|]. split; [|done]. unfold is_open, connected, is_disconnecting in *. by rewrite Es, Ho. }
  destruct F as (m & -> & Fn & Fo). eexists. split; [reflexivity|]. split; [done|]. split; [done|].
  intros n c'. cbn. destruct (decide (n = conn_name sc')) as [->|Hne].
  - rewrite Fn. split.
    + destruct (is_open (conn sc')) eqn:Eo; [|done]. intros [= <-]. exists sc'. by rewrite <-is_open_spec.
    + intros (sc2 & H2 & Hn & Ho). assert (c' = c) as -> by by eapply names_unique.
      rewrite O1 in H2. injection H2 as <-. apply is_open_spec in Ho. by rewrite Ho.
  - rewrite Fo by done. rewrite (M n c'). split; intros (sc2 & H2 & Hn & Ho); exists sc2; split_and!; try done;
      destruct (decide (c' = c)) as [->|Hc'].
    + destruct Hne. rewrite (O3 sc2 H2). congruence.
    + by rewrite O2.
    + destruct Hne. congruence.
    + by rewrite <-O2.
Qed.

Lemma cache_run_ok l s : server_inv (server_ s) -> sessions_match s -> server_events_okb l (server_ s) = true ->
  exists s', cache_run l s = Ok s' /\ server_inv (server_ s') /\ sessions_match s'.
Proof.
  revert s. induction l as [|ev l IH]; intros s I M H; [by exists s|]. cbn [server_events_okb] in H.
  apply andb_true_iff in H as [H1 H2]. destruct (cache_exec_ok ev s I M H1) as (s1 & E & Es & I1 & M1).
  rewrite Es in H2. unfold cache_run. cbn [res_foldl]. rewrite E. by apply IH.
Qed.

(** When no task waits, the server's map holds the open connections too. *)
Lemma quiet_registry s n c : server_inv s -> tasks s = [] ->
  connections_ s !! n = Some c <-> exists sc, conns s !! c = Some sc /\ conn_name sc = n /\ open (conn sc).
Proof.
  intros I Ht. split.
  - intros Hm. destruct (si_map s I _ _ Hm) as (sc & Hsc & <-). exists sc. split_and!; try done.
    destruct (si_conn s I _ _ Hsc) as (_ & _ & _ & Hph). by apply (phase_facts _ _ _ _ _ Hph).
  - intros (sc & Hsc & <- & Ho). destruct (si_conn s I _ _ Hsc) as (_ & _ & _ & Hph).
    apply (phase_facts _ _ _ _ _ Hph). destruct Ho as [-> | ->]; done.
Qed.

(** From the start of the server, through every interleaving of accepted
    connections, tasks of the loops and events of the connections, neither
    assertion of [onConnection] fails and every message finds its session alive;
    the map of sessions holds exactly the open connections, under their names,
    and when no task waits it is the server's map of connections. *)
Theorem sessions_follow_connections loop ip name idle n startLoop cb a s l
  (Hip : zlen ip <= 50) (Hn : 0 <= n < 2 ^ 31) (Ha : Acceptor_new idle = Ok a)
  (Hs : (let* s := server_setThreadNum n (TcpServer_new loop ip name a) in
         server_start startLoop cb s) = Ok s)
  (Hl : server_events_okb l s = true) :
  exists s', cache_run l (mkCache s ∅) = Ok s' /\
    (forall nm c, sessions_ s' !! nm = Some c <->
       exists sc, conns (server_ s') !! c = Some sc /\ conn_name sc = nm /\ open (conn sc)) /\
    (tasks (server_ s') = [] -> sessions_ s' = connections_ (server_ s')).
Proof.
  pose proof (server_start_inv loop ip name idle n startLoop cb a s Hip Hn Ha Hs) as I0.
  assert (M0 : sessions_match (mkCache s ∅)).
  { intros nm c. split; [done|]. intros (sc & Hc & _). cbn in Hc.
    by rewrite (server_start_empty loop ip name idle n startLoop cb a s ltac:(lia) Ha Hs) in Hc. }
  destruct (cache_run_ok l (mkCache s ∅) I0 M0 Hl) as (s' & E & I & M). exists s'. split; [done|]. split; [exact M|].
  intros Ht. apply map_eq. intros nm. apply option_eq. intros c. rewrite (M nm c). symmetry. by apply quiet_registry.
Qed.

Lemma sessions_follow_connections_witness :
  exists s', cache_run ex_events (mkCache ex_server ∅) = Ok s' /\ sessions_ s' = connections_ (server_ s') /\
    size (sessions_ s') = 1%nat.
Proof.
  destruct (sessions_follow_connections 1 (bs "0.0.0.0:80") (bs "web") 3 2 (fun i => 10 + i) false
              (mkAcceptor false 3 []) ex_server ex_events) as (s' & E & _ & H).
  - by vm_compute.
  - by vm_compute.
  - done.
  - by vm_compute.
  - by vm_compute.
  - exists s'. split; [exact E|].
    assert (T : match cache_run ex_events (mkCache ex_server ∅) with
                | Ok s1 => (length (tasks (server_ s1)), size (sessions_ s1)) | Err _ => (1%nat, O) end = (O, 1%nat))
      by (vm_compute; reflexivity).
    rewrite E in T. injection T as T1 T2. split; [|exact T2]. apply H. by apply nil_length_inv.
Defined.
