(* ===== verification/Session.v ===== *)
(** * A client's session with the cache (examples/memcached/server/Session.h,
    Session.cc)

    The text protocol: requests are lines, a storage command is followed by its
    value.  The session sees its input Buffer as the queue of unread bytes it
    is (Buffer.v), and [outputBuf_] as the bytes in it; what it does to its
    connection is recorded as a list of actions. *)

From stdpp Require Import gmap.
From S2P Require Import Prelude Cstd LogStream HttpContext MemcacheServer.

Inductive State : Set := kNewCommand | kReceiveValue | kDiscardValue.
Inductive Protocol : Set := kAscii | kBinary | kAuto.

#[export] Instance State_eq_dec : EqDecision State.
Proof. solve_decision. Defined.

Definition kLongestKeySize : Z := 250.

(** [AReply], [ASend]: [conn_->send] of a message, of the output buffer.
    [ATrim n]: [conn_->outputBuffer()->shrink(n)] if it has more than [n]
    writable bytes. *)
Inductive action : Type :=
| AReply (msg : bytes)
| ATrim (n : Z)
| ASend (msg : bytes)
| AShutdown.

Record Session := mkSession {
  state_ : State;
  protocol_ : Protocol;
  command_ : bytes;
  noreply_ : bool;
  policy_ : UpdatePolicy;
  currItem_ : option Item;
  bytesToDiscard_ : Z;
  needle_ : Item;
  outputBuf_ : bytes;
  bytesRead_ : Z;
  requestsProcessed_ : Z;
  actions : list action;
}.

Definition set_state (st : State) (s : Session) : Session :=
  mkSession st (protocol_ s) (command_ s) (noreply_ s) (policy_ s) (currItem_ s) (bytesToDiscard_ s)
    (needle_ s) (outputBuf_ s) (bytesRead_ s) (requestsProcessed_ s) (actions s).
Definition set_protocol (p : Protocol) (s : Session) : Session :=
  mkSession (state_ s) p (command_ s) (noreply_ s) (policy_ s) (currItem_ s) (bytesToDiscard_ s)
    (needle_ s) (outputBuf_ s) (bytesRead_ s) (requestsProcessed_ s) (actions s).
Definition set_command (c : bytes) (s : Session) : Session :=
  mkSession (state_ s) (protocol_ s) c (noreply_ s) (policy_ s) (currItem_ s) (bytesToDiscard_ s)
    (needle_ s) (outputBuf_ s) (bytesRead_ s) (requestsProcessed_ s) (actions s).
Definition set_noreply (b : bool) (s : Session) : Session :=
  mkSession (state_ s) (protocol_ s) (command_ s) b (policy_ s) (currItem_ s) (bytesToDiscard_ s)
    (needle_ s) (outputBuf_ s) (bytesRead_ s) (requestsProcessed_ s) (actions s).
Definition set_policy (p : UpdatePolicy) (s : Session) : Session :=
  mkSession (state_ s) (protocol_ s) (command_ s) (noreply_ s) p (currItem_ s) (bytesToDiscard_ s)
    (needle_ s) (outputBuf_ s) (bytesRead_ s) (requestsProcessed_ s) (actions s).
Definition set_currItem (i : option Item) (s : Session) : Session :=
  mkSession (state_ s) (protocol_ s) (command_ s) (noreply_ s) (policy_ s) i (bytesToDiscard_ s)
    (needle_ s) (outputBuf_ s) (bytesRead_ s) (requestsProcessed_ s) (actions s).
Definition set_discard (n : Z) (s : Session) : Session :=
  mkSession (state_ s) (protocol_ s) (command_ s) (noreply_ s) (policy_ s) (currItem_ s) n
    (needle_ s) (outputBuf_ s) (bytesRead_ s) (requestsProcessed_ s) (actions s).
Definition set_needle (i : Item) (s : Session) : Session :=
  mkSession (state_ s) (protocol_ s) (command_ s) (noreply_ s) (policy_ s) (currItem_ s) (bytesToDiscard_ s)
    i (outputBuf_ s) (bytesRead_ s) (requestsProcessed_ s) (actions s).
Definition set_output (l : bytes) (s : Session) : Session :=
  mkSession (state_ s) (protocol_ s) (command_ s) (noreply_ s) (policy_ s) (currItem_ s) (bytesToDiscard_ s)
    (needle_ s) l (bytesRead_ s) (requestsProcessed_ s) (actions s).
Definition count_request (s : Session) : Session :=
  mkSession (state_ s) (protocol_ s) (command_ s) (noreply_ s) (policy_ s) (currItem_ s) (bytesToDiscard_ s)
    (needle_ s) (outputBuf_ s) (bytesRead_ s) (u64 (requestsProcessed_ s + 1)) (actions s).
Definition add_read (n : Z) (s : Session) : Session :=
  mkSession (state_ s) (protocol_ s) (command_ s) (noreply_ s) (policy_ s) (currItem_ s) (bytesToDiscard_ s)
    (needle_ s) (outputBuf_ s) (u64 (bytesRead_ s + n)) (requestsProcessed_ s) (actions s).
Definition act (a : action) (s : Session) : Session :=
  mkSession (state_ s) (protocol_ s) (command_ s) (noreply_ s) (policy_ s) (currItem_ s) (bytesToDiscard_ s)
    (needle_ s) (outputBuf_ s) (bytesRead_ s) (requestsProcessed_ s) (actions s ++ [a]).

(** ** Words and numbers *)

(** The tokens that [SpaceSeparator] cuts a line into. *)
Fixpoint tokens_fuel (fuel : nat) (l : bytes) : list bytes :=
  match fuel with
  | O => []
  | S fuel' =>
      match drop_while (byte_eqb SP) l with
      | [] => []
      | start => let sp := std_find SP start in take sp start :: tokens_fuel fuel' (drop sp start)
      end
  end.
Definition tokens (l : bytes) : list bytes := tokens_fuel (length l) l.

(** [strtoull(p, &end, 10)] where it consumes exactly the token at [p].  What
    follows a token is a space or a CR, which no number continues with. *)
Definition strtoull_token (tok : bytes) : option Z :=
  let s := drop_while isspace tok in
  let '(neg, s) := match s with
                   | x2d :: s' => (true, s')
                   | x2b :: s' => (false, s')
                   | _ => (false, s)
                   end in
  if bytes_eqb s [] || negb (forallb isdigit s) then None
  else let x := dec_value s in
       Some (if 2 ^ 64 - 1 <? x then 2 ^ 64 - 1 else if neg then u64 (- x) else x).

(** [Reader::read]: the number and the tokens left. *)
Definition read (toks : list bytes) : option (Z * list bytes) :=
  match toks with
  | [] => None
  | t :: rest => match strtoull_token t with Some x => Some (x, rest) | None => None end
  end.

(** ** The commands *)

Section session.
Context (hash_range : bytes -> Z).

Definition Session_new : res Session :=
  let* needle := makeItem hash_range (replicate 250 x78) 0 0 2 0 in
  Ok (mkSession kNewCommand kAscii [] false kInvalid None 0 needle [] 0 0 []).

Definition resetRequest (s : Session) : Session :=
  set_discard 0 (set_currItem None (set_policy kInvalid (set_noreply false (set_command [] s)))).

Definition reply (msg : bytes) (s : Session) : Session :=
  if noreply_ s then s else act (AReply msg) s.

Definition isBinaryProtocol (firstByte : byte) : bool := byte_eqb firstByte x80.

Definition policy_of (command : bytes) : option UpdatePolicy :=
  if bytes_eqb command (bs "set") then Some kSet
  else if bytes_eqb command (bs "add") then Some kAdd
  else if bytes_eqb command (bs "replace") then Some kReplace
  else if bytes_eqb command (bs "append") then Some kAppend
  else if bytes_eqb command (bs "prepend") then Some kPrepend
  else if bytes_eqb command (bs "cas") then Some kCas
  else None.

(** [good], [flags], [exptime], [bytes] after the reads, and the tokens left. *)
Definition update_args (key : bytes) (rest : list bytes) : bool * Z * Z * Z * list bytes :=
  if negb (zlen key <? kLongestKeySize) then (false, 0, 1, -1, rest) else
  match read rest with
  | None => (false, 0, 1, -1, rest)
  | Some (f, rest) =>
      match read rest with
      | None => (false, u32 f, 1, -1, rest)
      | Some (e, rest) =>
          match read rest with
          | None => (false, u32 f, s64 e, -1, rest)
          | Some (n, rest) => (true, u32 f, s64 e, s32 n, rest)
          end
      end
  end.

Definition bad_format : bytes := bs "CLIENT_ERROR bad command line format" ++ CRLF.

(** Whether the request is finished, the session and the server.  Dereferencing
    the end iterator, and overflowing [bytes + 2], are undefined. *)
Definition doUpdate (toks : list bytes) (s : Session) (srv : MemcacheServer)
  : res (bool * Session * MemcacheServer) :=
  match policy_of (command_ s) with
  | None => Err EAssert
  | Some policy =>
      let s := set_policy policy s in
      match toks with
      | [] => Err EUndefined
      | key :: rest =>
          let '(good, flags, exptime, n, rest) := update_args key rest in
          let rel_exptime :=
            if 60 * 60 * 24 * 30 <? exptime
            then (let r := s32 (exptime - startTime_ srv) in if r <? 1 then 1 else r)
            else s32 exptime in
          let '(good, cas) :=
            if good && bool_decide (policy = kCas)
            then match read rest with Some (c, _) => (true, c) | None => (false, 0) end
            else (good, 0) in
          if negb good then Ok (true, reply bad_format s, srv)
          else if 1024 * 1024 <? n then
            let s := reply (bs "SERVER_ERROR object too large for cache" ++ CRLF) s in
            let* needle := resetKey hash_range key (needle_ s) in
            let '(_, srv) := deleteItem needle srv in
            if 2 ^ 31 - 1 <? n + 2 then Err EUndefined else
            Ok (false, set_state kDiscardValue (set_discard (n + 2) (set_needle needle s)), srv)
          else
            let* item := makeItem hash_range key flags rel_exptime (n + 2) cas in
            Ok (false, set_state kReceiveValue (set_currItem (Some item) s), srv)
      end
  end.

(** The keys of a [get]; [None]: the request ended on a key too long. *)
Fixpoint get_keys (toks : list bytes) (cas : bool) (s : Session) (srv : MemcacheServer)
  : res (bool * Session) :=
  match toks with
  | [] => Ok (true, s)
  | key :: rest =>
      if negb (zlen key <=? kLongestKeySize) then Ok (false, reply bad_format s)
      else
        let* needle := resetKey hash_range key (needle_ s) in
        let s := set_needle needle s in
        match getItem needle srv with
        | Some item =>
            let* out := output item cas in
            get_keys rest cas (set_output (outputBuf_ s ++ out) s) srv
        | None => get_keys rest cas s srv
        end
  end.

(** [conn_->send(&outputBuf_)] leaves the buffer empty. *)
Definition send_output (s : Session) : Session :=
  set_output [] (act (ASend (outputBuf_ s)) (act (ATrim (u64 (65535 + zlen (outputBuf_ s)))) s)).

Definition doDelete (toks : list bytes) (s : Session) (srv : MemcacheServer)
  : res (Session * MemcacheServer) :=
  match toks with
  | [] => Err EAssert
  | key :: rest =>
      if negb (zlen key <=? kLongestKeySize) then Ok (reply bad_format s, srv)
      else if match rest with t :: _ => negb (bytes_eqb t (bs "0")) | [] => false end then
        Ok (reply (bs "CLIENT_ERROR bad command line format. Usage: delete <key> [noreply]" ++ CRLF) s, srv)
      else
        let* needle := resetKey hash_range key (needle_ s) in
        let s := set_needle needle s in
        let '(found, srv) := deleteItem needle srv in
        Ok (reply ((if found then bs "DELETED" else bs "NOT_FOUND") ++ CRLF) s, srv)
  end.

Definition noreply_suffix : bytes := bs " noreply".

(** The command executed, and whether the request is finished. *)
Definition dispatch (command : bytes) (toks : list bytes) (s : Session) (srv : MemcacheServer)
  : res (bool * Session * MemcacheServer) :=
  match policy_of command with
  | Some _ => doUpdate toks s srv
  | None =>
      if bytes_eqb command (bs "get") || bytes_eqb command (bs "gets") then
        let* (all, s) := get_keys toks (bytes_eqb command (bs "gets")) s srv in
        if all
        then Ok (true, send_output (set_output (outputBuf_ s ++ bs "END" ++ CRLF) s), srv)
        else Ok (true, s, srv)
      else if bytes_eqb command (bs "delete") then
        let* (s, srv) := doDelete toks s srv in Ok (true, s, srv)
      else if bytes_eqb command (bs "version") then
        Ok (true, reply (bs "VERSION 0.01 cnet" ++ CRLF) s, srv)
      else if bytes_eqb command (bs "quit") then Ok (true, act AShutdown s, srv)
      else if bytes_eqb command (bs "shutdown") then Ok (true, act AShutdown s, stop srv)
      else Ok (true, reply (bs "ERROR" ++ CRLF) s, srv)
  end.

Definition is_quiet (request : bytes) : bool :=
  let n := zlen request - 8 in (0 <=? n) && bytes_eqb (zdrop n request) noreply_suffix.

Definition processRequest (request : bytes) (s : Session) (srv : MemcacheServer)
  : res (bool * Session * MemcacheServer) :=
  assert! bytes_eqb (command_ s) [];
  assert! negb (noreply_ s);
  assert! bool_decide (policy_ s = kInvalid);
  assert! bool_decide (currItem_ s = None);
  assert! bytesToDiscard_ s =? 0;
  let s := count_request s in
  let quiet := is_quiet request in
  let s := if quiet then set_noreply true s else s in
  let request := if quiet then ztake (zlen request - 8) request else request in
  match tokens request with
  | [] => Ok (true, reply (bs "ERROR" ++ CRLF) s, srv)
  | command :: toks => dispatch command toks (set_command command s) srv
  end.

(** What is answered when an item was not stored: two of the answers lack the
    end of line. *)
Definition not_stored (policy : UpdatePolicy) (exists_ : bool) : bytes :=
  if bool_decide (policy = kCas) then (if exists_ then bs "EXISTS" else bs "NOT_FOUND" ++ CRLF)
  else bs "NOT_FOUND".

(** The unread bytes left, the session and the server. *)
Definition receiveValue (l : bytes) (s : Session) (srv : MemcacheServer)
  : res (bytes * Session * MemcacheServer) :=
  match currItem_ s with
  | None => Err EAssert
  | Some item =>
      assert! bool_decide (state_ s = kReceiveValue);
      let avail := Z.min (zlen l) (neededBytes item) in
      let* item := item_append (ztake avail l) item in
      let s := set_currItem (Some item) s in
      let l := zdrop avail l in
      if neededBytes item =? 0 then
        let* (s, srv) :=
          (if endsWithCRLF item then
             let* (stored, exists_, srv) := storeItem hash_range item (policy_ s) srv in
             Ok (reply (if stored then bs "STORED" ++ CRLF else not_stored (policy_ s) exists_) s, srv)
           else Ok (reply (bs "CLIENT_ERROR bad data chunk" ++ CRLF) s, srv)) in
        Ok (l, set_state kNewCommand (resetRequest s), srv)
      else Ok (l, s, srv)
  end.

Definition discardValue (l : bytes) (s : Session) : res (bytes * Session) :=
  assert! bool_decide (currItem_ s = None);
  assert! bool_decide (state_ s = kDiscardValue);
  if zlen l <? bytesToDiscard_ s then
    Ok ([], set_discard (bytesToDiscard_ s - zlen l) s)
  else
    Ok (zdrop (bytesToDiscard_ s) l, set_state kNewCommand (resetRequest (set_discard 0 s))).

(** One turn of the loop of [onMessage]; the first result tells whether the loop
    goes on. *)
Definition session_turn (l : bytes) (s : Session) (srv : MemcacheServer)
  : res (bool * bytes * Session * MemcacheServer) :=
  match state_ s with
  | kNewCommand =>
      let* s := (match protocol_ s with
                 | kAuto =>
                     assert! bytesRead_ s =? 0;
                     Ok (set_protocol (match l with
                                       | c :: _ => if isBinaryProtocol c then kBinary else kAscii
                                       | [] => kAscii end) s)
                 | _ => Ok s
                 end) in
      match protocol_ s with
      | kBinary => Ok (true, l, s, srv)          (* nothing is read *)
      | _ =>
          match split_line l with
          | Some (line, rest) =>
              let* (finished, s, srv) := processRequest line s srv in
              Ok (true, rest, if finished then resetRequest s else s, srv)
          | None => Ok (false, l, if 1024 <? zlen l then act AShutdown s else s, srv)
          end
      end
  | kReceiveValue => let* (l, s, srv) := receiveValue l s srv in Ok (true, l, s, srv)
  | kDiscardValue => let* (l, s) := discardValue l s in Ok (true, l, s, srv)
  end.

(** [while (buf->readableBytes() > 0)], for at most [fuel] turns. *)
Fixpoint session_loop (fuel : nat) (l : bytes) (s : Session) (srv : MemcacheServer)
  : res (bytes * Session * MemcacheServer) :=
  match l with
  | [] => Ok (l, s, srv)
  | _ =>
      match fuel with
      | O => Err EFuel
      | S fuel' =>
          let* (more, l, s, srv) := session_turn l s srv in
          if more then session_loop fuel' l s srv else Ok (l, s, srv)
      end
  end.

(** Every turn that goes on consumes a byte. *)
Definition onMessage (l : bytes) (s : Session) (srv : MemcacheServer)
  : res (bytes * Session * MemcacheServer) :=
  let* (rest, s, srv) := session_loop (length l) l s srv in
  Ok (rest, add_read (zlen l - zlen rest) s, srv).
End session.

(** ** Tokens of a request line *)

(** A word of a request: not empty, without spaces. *)
Definition word (w : bytes) : Prop := w <> [] /\ SP ∉ w.

(** The words separated by one space. *)
Definition request_line (ws : list bytes) : bytes :=
  match ws with [] => [] | w :: ws => w ++ concat (map (cons SP) ws) end.

Lemma tokens_fuel_words ws fuel : Forall word ws -> (length ws <= fuel)%nat ->
  tokens_fuel fuel (concat (map (cons SP) ws)) = ws.
Proof.
  revert ws. induction fuel as [|fuel IH]; intros ws Hw Hf; [by destruct ws; [|cbn in Hf; lia]|].
  destruct ws as [|w ws]; [done|]. apply Forall_cons in Hw as [[Hne Hsp] Hw].
  cbn in Hf. cbn [map concat tokens_fuel app drop_while]. rewrite byte_eqb_refl.
  assert (E : drop_while (byte_eqb SP) (w ++ concat (map (cons SP) ws)) = w ++ concat (map (cons SP) ws)).
  { destruct w as [|c w]; [done|]. cbn. apply not_elem_of_cons in Hsp as [Hc _].
    by rewrite (proj2 (byte_eqb_false _ _)). }
  rewrite E. assert (F : std_find SP (w ++ concat (map (cons SP) ws)) = length w).
  { destruct ws; cbn; [rewrite app_nil_r; by apply std_find_none|by apply std_find_app]. }
  destruct (w ++ concat (map (cons SP) ws)) as [|c l] eqn:El; [by destruct w|]. rewrite <-El in F |- *.
  rewrite F, take_app_length, drop_app_length. f_equal. apply IH; [done|lia].
Qed.

Lemma length_concat_words ws : (length ws <= length (concat (map (cons SP) ws)))%nat.
Proof. induction ws; cbn; [lia|]. rewrite length_app. lia. Qed.

Lemma tokens_line ws : Forall word ws -> tokens (request_line ws) = ws.
Proof.
  destruct ws as [|w ws]; [done|]. intros Hw. pose proof Hw as Hw'. apply Forall_cons in Hw' as [[Hne Hsp] _].
  unfold tokens, request_line. rewrite length_app. pose proof (length_concat_words ws).
  destruct w as [|c w]; [done|]. cbn [length plus].
  etransitivity; [|apply (tokens_fuel_words _ (S (length w + length (concat (map (cons SP) ws)))) Hw);
                   cbn [length]; lia].
  reflexivity.
Qed.

Lemma LF_request ws : Forall (fun w => LF ∉ w) ws -> LF ∉ request_line ws.
Proof.
  intros H. assert (G : LF ∉ concat (map (cons SP) ws)).
  { induction H as [|w ws Hw _ IH]; cbn; [apply not_elem_of_nil|].
    rewrite not_elem_of_cons, not_elem_of_app. done. }
  destruct ws as [|w ws]; [apply not_elem_of_nil|]. apply Forall_cons in H as [Hw _].
  cbn in *. rewrite not_elem_of_cons, not_elem_of_app in *. naive_solver.
Qed.

(** Whether a line ends with " noreply" is told by its last word. *)
Lemma last_word_unique a b c d : SP ∉ b -> SP ∉ d -> a ++ SP :: b = c ++ SP :: d -> b = d.
Proof.
  intros Hb Hd. revert c. induction a as [|x a IH]; intros [|y c]; cbn; intros E; simplify_eq.
  - done.
  - destruct Hb. set_solver.
  - destruct Hd. set_solver.
  - by apply (IH c).
Qed.

Lemma not_quiet pre w : SP ∉ w -> w <> bs "noreply" -> is_quiet (pre ++ SP :: w) = false.
Proof.
  intros Hw Hne. unfold is_quiet. set (l := pre ++ SP :: w). apply andb_false_iff. right.
  apply bytes_eqb_false. intros E. apply Hne. symmetry.
  apply (last_word_unique (ztake (zlen l - 8) l) _ pre).
  - by apply (bool_decide_unpack _).
  - done.
  - fold l. rewrite <-(ztake_zdrop (zlen l - 8) l) at 3. by rewrite E.
Qed.

Lemma strtoull_number n : 0 <= n < 2 ^ 64 -> strtoull_token (fmt_u n) = Some n.
Proof.
  intros Hn. pose proof (fmt_u_digits n ltac:(lia)) as Hd. pose proof (fmt_u_value n ltac:(lia)) as Hv.
  assert (Hne : fmt_u n <> []).
  { unfold fmt_u, dec_fuel. cbn [digits_rev rev]. by destruct (rev _). }
  unfold strtoull_token. destruct (fmt_u n) as [|c l] eqn:E; [done|].
  apply Forall_cons in Hd as Hd'. destruct Hd' as [Hc _].
  assert (Hs : isspace c = false) by (revert Hc; unfold isdigit, isspace; lia).
  cbn [drop_while]. rewrite Hs.
  assert (E2 : match c :: l with x2d :: s' => (true, s') | x2b :: s' => (false, s') | _ => (false, c :: l) end
           = (false, c :: l)) by (clear -Hc; by destruct c).
  rewrite E2. assert (F : forallb isdigit (c :: l) = true) by (apply forallb_forall; by apply List.Forall_forall).
  rewrite F, Hv. cbn. by rewrite (proj2 (Z.ltb_ge _ _)) by lia.
Qed.

(** ** The three turns of a set followed by a get *)

Section spec.
Context (hash_range : bytes -> Z).

Lemma resetKey_spec k nd : valuelen_ nd = 2 -> zlen k <= 250 ->
  exists nd', resetKey hash_range k nd = Ok nd' /\ valuelen_ nd' = 2 /\ needle_of hash_range k nd'.
Proof.
  intros Hv Hk. pose proof (zlen_nonneg k). unfold resetKey.
  rewrite (proj2 (Z.leb_le _ _)) by lia. cbn [assert_ res_bind].
  rewrite item_append_spec by (unfold receivedBytes_, totalLen; cbn [received_ keylen_ valuelen_];
    rewrite ?zlen_nil; first [apply zlen_nonneg|lia]).
  cbn. eexists. split; [reflexivity|]. cbn. split; [done|]. split; [|done].
  unfold key. cbn. by apply ztake_ge.
Qed.

(** What a [get] prints of an entry. *)
Definition value_text (k : bytes) (e : entry) : bytes :=
  bs "VALUE " ++ k ++ [SP] ++ fmt_u (e_flags e) ++ [SP] ++ fmt_u (zlen (e_data e)) ++ CRLF ++ e_data e ++ CRLF.

Lemma fmt_d_nonneg n : 0 <= n -> fmt_d n = fmt_u n.
Proof. intros H. unfold fmt_d. by rewrite (proj2 (Z.ltb_ge _ _)). Qed.

Lemma output_spec k i : item_is hash_range k i -> 0 <= flags_ i < 2 ^ 32 ->
  output i false = Ok (value_text k (entry_of i)).
Proof.
  intros I Hf. destruct (item_value hash_range k i I) as (d & V & L & _ & E).
  pose proof (ii_len _ _ _ I) as Hl. unfold totalLen in Hl. rewrite (ii_key _ _ _ I) in Hl.
  pose proof (zlen_nonneg k). pose proof (zlen_nonneg d).
  set (l := [IChar SP; IInt (flags_ i); IChar SP; IInt (valuelen_ i - 2)] ++ [] ++ [ICString (Some CRLF)]).
  assert (W : wf (FixedBuffer_new kSmallBuffer)) by (split; vm_compute; [split; congruence|done]).
  assert (Hok : Forall item_ok l) by (subst l; cbn; rewrite !Forall_cons, Forall_nil; cbn; lia).
  destruct (stream_all_spec l _ W Hok) as (b & Eb & Wb & Lb & T).
  change (zlen (data_ (FixedBuffer_new kSmallBuffer))) with 4000 in *.
  change (toString (FixedBuffer_new kSmallBuffer)) with (@nil byte) in T.
  assert (Et : concat (map text l) = [SP] ++ fmt_u (flags_ i) ++ [SP] ++ fmt_u (zlen d) ++ CRLF).
  { subst l. rewrite L. cbn [map text app concat]. replace (zlen d + 2 - 2) with (zlen d) by lia.
    rewrite !fmt_d_nonneg by lia. reflexivity. }
  pose proof (fmt_u_length (flags_ i) 20 ltac:(cbn; lia) ltac:(lia)).
  pose proof (fmt_u_length (zlen d) 20 ltac:(cbn; lia) ltac:(lia)).
  rewrite kept_all, Et in T by (done || rewrite Et, zlen_nil, !zlen_app;
    change (zlen [SP]) with 1; change (zlen CRLF) with 2; lia).
  unfold output. cbv zeta iota. fold l. rewrite Eb. cbn [res_bind].
  rewrite T, (item_key _ _ _ I), V, (ztake_ge (valuelen_ i)) by (rewrite zlen_app, L; change (zlen CRLF) with 2; lia).
  unfold value_text. rewrite E. cbn [e_flags entry_of]. by rewrite !app_nil_l, <-!app_assoc.
Qed.

(** A session that awaits a command, its fields reset; [outputBuf_] may hold
    what an earlier request left there. *)
Definition ready (s : Session) : Prop :=
  state_ s = kNewCommand /\ protocol_ s = kAscii /\ command_ s = [] /\ noreply_ s = false /\
  policy_ s = kInvalid /\ currItem_ s = None /\ bytesToDiscard_ s = 0 /\ valuelen_ (needle_ s) = 2.

Lemma turn_request line rest s srv : ready s -> LF ∉ line ->
  session_turn hash_range (line ++ CRLF ++ rest) s srv =
    let* (finished, s, srv) := processRequest hash_range line s srv in
    Ok (true, rest, if finished then resetRequest s else s, srv).
Proof.
  intros (E1 & E2 & _) Hl. unfold session_turn. rewrite E1, E2. cbn [res_bind].
  by rewrite E2, split_line_text.
Qed.

Lemma processRequest_ready command toks w s srv : ready s ->
  Forall word (command :: toks ++ [w]) -> w <> bs "noreply" ->
  processRequest hash_range (request_line (command :: toks ++ [w])) s srv =
    dispatch hash_range command (toks ++ [w]) (set_command command (count_request s)) srv.
Proof.
  intros (_ & _ & E3 & E4 & E5 & E6 & E7 & _) Hw Hn. unfold processRequest.
  rewrite E3, E4, E5, E6, E7. rewrite !bool_decide_eq_true_2 by done.
  change (bytes_eqb [] []) with true. cbn [negb assert_ res_bind Z.eqb]. cbv zeta.
  assert (Q : is_quiet (request_line (command :: toks ++ [w])) = false).
  { cbn [request_line]. rewrite map_app, concat_app, app_assoc. cbn. rewrite app_nil_r.
    apply not_quiet; [|done]. apply Forall_cons in Hw as [_ Hw]. apply Forall_app in Hw as [_ Hw].
    by apply Forall_cons in Hw as [[_ ?] _]. }
  by rewrite Q, tokens_line.
Qed.
Lemma update_args_numbers k f e n : zlen k < kLongestKeySize ->
  0 <= f < 2 ^ 32 -> 0 <= e < 2 ^ 63 -> 0 <= n < 2 ^ 31 ->
  update_args k [fmt_u f; fmt_u e; fmt_u n] = (true, f, e, n, []).
Proof.
  intros Hk Hf He Hn. unfold update_args. rewrite (proj2 (Z.ltb_lt _ _)) by done. cbn [negb].
  unfold read. rewrite !strtoull_number by lia. unfold u32.
  by rewrite Z.mod_small, s64_small, s32_small by lia.
Qed.

Lemma dispatch_set k f e n s srv : zlen k < kLongestKeySize ->
  0 <= f < 2 ^ 32 -> 0 <= e <= 60 * 60 * 24 * 30 -> 0 <= n <= 1024 * 1024 ->
  dispatch hash_range (bs "set") [k; fmt_u f; fmt_u e; fmt_u n] (set_command (bs "set") s) srv =
    Ok (false, set_state kReceiveValue
                 (set_currItem (Some (mkItem (zlen k) f e (n + 2) 0 (hash_range k) k))
                    (set_policy kSet (set_command (bs "set") s))), srv).
Proof.
  intros Hk Hf He Hn. unfold dispatch.
  assert (P : policy_of (bs "set") = Some kSet) by (by vm_compute). rewrite P.
  unfold doUpdate. cbn [command_ set_command]. rewrite P, update_args_numbers by lia. cbv zeta.
  rewrite (bool_decide_eq_false_2 (kSet = kCas)) by done. cbn [andb negb].
  rewrite (proj2 (Z.ltb_ge (1024 * 1024) n)), (proj2 (Z.ltb_ge (60 * 60 * 24 * 30) e)) by lia.
  unfold kLongestKeySize in Hk. rewrite makeItem_spec, s32_small by lia. reflexivity.
Qed.

(** A value that arrives complete is stored, and answered. *)
Lemma receiveValue_whole k f e d s srv m rest : models hash_range srv m ->
  state_ s = kReceiveValue -> policy_ s = kSet -> noreply_ s = false ->
  currItem_ s = Some (mkItem (zlen k) f e (zlen d + 2) 0 (hash_range k) k) ->
  zlen k + zlen d + 2 < 2 ^ 31 -> g_cas srv + 1 < 2 ^ 63 ->
  exists srv', receiveValue hash_range (d ++ CRLF ++ rest) s srv =
      Ok (rest, set_state kNewCommand (resetRequest (act (AReply (bs "STORED" ++ CRLF))
            (set_currItem (Some (mkItem (zlen k) f e (zlen d + 2) 0 (hash_range k) (k ++ d ++ CRLF))) s))), srv') /\
    models hash_range srv' (<[k := mkEntry f e d (g_cas srv + 1)]> m).
Proof.
  intros M Es Ep En Ei Hl Hc. pose proof (zlen_nonneg k). pose proof (zlen_nonneg d).
  pose proof (zlen_nonneg rest).
  unfold receiveValue. rewrite Ei, Es, bool_decide_eq_true_2 by done. cbn [assert_ res_bind].
  set (it := mkItem _ _ _ _ _ _ k).
  assert (Hn : neededBytes it = zlen d + 2).
  { unfold neededBytes, totalLen, receivedBytes_. cbn. rewrite u64_small by lia. lia. }
  rewrite Hn, app_assoc.
  rewrite Z.min_r by (rewrite !zlen_app; change (zlen CRLF) with 2; lia).
  rewrite ztake_app_exact, zdrop_app_exact by (rewrite zlen_app; done).
  rewrite item_append_spec by (unfold receivedBytes_, totalLen, it; cbn [received_ keylen_ valuelen_];
    rewrite ?zlen_app; change (zlen CRLF) with 2; lia).
  cbn [res_bind]. change (set_received _ it) with
    (mkItem (zlen k) f e (zlen d + 2) 0 (hash_range k) (k ++ d ++ CRLF)). set (it' := mkItem _ _ _ _ _ _ (k ++ _)).
  assert (I : item_is hash_range k it').
  { constructor; try done; [by exists d|]. unfold totalLen. cbn. lia. }
  rewrite (proj1 (item_needed _ _ _ I)). change (0 =? 0) with true. cbv iota zeta.
  assert (Hcr : endsWithCRLF it' = true).
  { unfold endsWithCRLF. rewrite <-(proj2 (item_needed _ _ _ I)), Z.eqb_refl. apply bytes_eqb_true.
    unfold totalLen. cbn [received_ keylen_ valuelen_ it']. rewrite (app_assoc k).
    apply zdrop_app_exact. rewrite zlen_app. lia. }
  rewrite Hcr. cbn [policy_ set_currItem]. rewrite Ep.
  destruct (storeItem_spec hash_range kSet it' k srv m M I) as (srv' & E & _ & M' & _);
    [by intros [?|?]|done|].
  exists srv'. rewrite E. cbn [res_bind]. unfold reply. cbn [noreply_ set_currItem]. rewrite En.
  split; [done|]. destruct (item_value _ _ _ I) as (d' & _ & _ & R & Ed).
  cbn in R. apply app_inv_head, app_inv_tail in R. subst d'. rewrite Ed in M'. exact M'.
Qed.

Lemma dispatch_get k e s srv m : models hash_range srv m -> m !! k = Some e ->
  0 <= e_flags e < 2 ^ 32 -> zlen k <= 250 -> valuelen_ (needle_ s) = 2 ->
  exists nd, valuelen_ nd = 2 /\
  dispatch hash_range (bs "get") [k] (set_command (bs "get") s) srv =
    let out := outputBuf_ s ++ value_text k e ++ bs "END" ++ CRLF in
    Ok (true, set_output [] (act (ASend out) (act (ATrim (u64 (65535 + zlen out)))
          (set_output out (set_needle nd (set_command (bs "get") s))))), srv).
Proof.
  intros M Hk Hf Hl Hv. destruct (resetKey_spec k (needle_ s) Hv Hl) as (nd & En & Hv' & Hnd).
  exists nd. split; [done|]. unfold dispatch.
  change (policy_of (bs "get")) with (@None UpdatePolicy).
  change (bytes_eqb (bs "get") (bs "get") || bytes_eqb (bs "get") (bs "gets")) with true.
  change (bytes_eqb (bs "get") (bs "gets")) with false. cbv iota. cbn [get_keys].
  unfold kLongestKeySize. rewrite (proj2 (Z.leb_le _ _)) by lia. cbn [negb needle_ set_command].
  rewrite En. cbn [res_bind]. pose proof (models_get hash_range srv m k nd M Hnd) as G.
  destruct (getItem nd srv) as [i|]; [|congruence]. destruct G as [I G]. rewrite Hk in G. injection G as ->.
  rewrite (output_spec k i I) by done. cbn [res_bind]. unfold send_output.
  cbn [outputBuf_ set_output set_needle set_command act]. by rewrite <-!app_assoc.
Qed.

Lemma session_loop_step fuel l s srv l' s' srv' : l <> [] ->
  session_turn hash_range l s srv = Ok (true, l', s', srv') ->
  session_loop hash_range (S fuel) l s srv = session_loop hash_range fuel l' s' srv'.
Proof. intros Hl E. destruct l; [done|]. cbn [session_loop]. by rewrite E. Qed.

Lemma turn_set k f e n s srv rest : ready s -> word k -> LF ∉ k -> zlen k < kLongestKeySize ->
  0 <= f < 2 ^ 32 -> 0 <= e <= 60 * 60 * 24 * 30 -> 0 <= n <= 1024 * 1024 ->
  session_turn hash_range (request_line [bs "set"; k; fmt_u f; fmt_u e; fmt_u n] ++ CRLF ++ rest) s srv =
    Ok (true, rest, set_state kReceiveValue
                 (set_currItem (Some (mkItem (zlen k) f e (n + 2) 0 (hash_range k) k))
                    (set_policy kSet (set_command (bs "set") (count_request s)))), srv).
Proof.
  intros R Wk Lk Hk Hf He Hn.
  assert (N : forall x, 0 <= x -> forall c, isdigit c = false -> c ∉ fmt_u x).
  { intros x Hx c Hc Hi. pose proof (fmt_u_digits x Hx) as F. rewrite Forall_forall in F.
    by rewrite (F c Hi) in Hc. }
  assert (W : forall x, 0 <= x -> word (fmt_u x)).
  { intros x Hx. split; [unfold fmt_u, dec_fuel; cbn [digits_rev rev]; by destruct (rev _)|by apply N]. }
  rewrite turn_request; [|done|].
  - change [bs "set"; k; fmt_u f; fmt_u e; fmt_u n] with (bs "set" :: [k; fmt_u f; fmt_u e] ++ [fmt_u n]).
    rewrite processRequest_ready; [|done| |].
    + cbn [app]. by rewrite dispatch_set.
    + repeat (apply Forall_cons; split); try (by apply W; lia); try done.
      split; [done|]. by apply (bool_decide_unpack _).
    + intros E. apply (N n ltac:(lia) x6e ltac:(done)). rewrite E. by apply (bool_decide_unpack _).
  - apply LF_request. repeat (apply Forall_cons; split); try (by apply N; lia || done); try done.
    by apply (bool_decide_unpack _).
Qed.

Lemma turn_get k e s srv m rest : ready s -> word k -> LF ∉ k -> zlen k <= 250 -> k <> bs "noreply" ->
  models hash_range srv m -> m !! k = Some e -> 0 <= e_flags e < 2 ^ 32 ->
  exists s', session_turn hash_range (request_line [bs "get"; k] ++ CRLF ++ rest) s srv = Ok (true, rest, s', srv) /\
    ready s' /\ outputBuf_ s' = [] /\
    let out := outputBuf_ s ++ value_text k e ++ bs "END" ++ CRLF in
    actions s' = actions s ++ [ATrim (u64 (65535 + zlen out)); ASend out].
Proof.
  intros R Wk Lk Hk Hn M Hm Hf. rewrite turn_request; [|done|].
  - change [bs "get"; k] with (bs "get" :: [] ++ [k]). rewrite processRequest_ready; [|done| |done].
    + pose proof R as (R1 & R2 & R3 & R4 & R5 & R6 & R7 & R8).
      destruct (dispatch_get k e (count_request s) srv m M Hm Hf Hk R8) as (nd & Hnd & E).
      cbn [app]. rewrite E. cbn [res_bind]. eexists. split; [reflexivity|]. split; [by repeat split|]. split; [done|].
      cbn [actions outputBuf_ resetRequest set_discard set_currItem set_policy set_noreply set_command set_output act set_needle count_request].
      by rewrite <-app_assoc.
    + repeat (apply Forall_cons; split); try done. split; [done|]. by apply (bool_decide_unpack _).
  - apply LF_request. repeat (apply Forall_cons; split); try done. by apply (bool_decide_unpack _).
Qed.

(** ** The state machine and the segmentation of its input *)

(** Between two turns: the fields are reset in [kNewCommand], an item misses
    some of its bytes in [kReceiveValue], bytes are to discard in
    [kDiscardValue]. *)
Definition session_ok (s : Session) : Prop :=
  protocol_ s = kAscii /\
  match state_ s with
  | kNewCommand => command_ s = [] /\ noreply_ s = false /\ policy_ s = kInvalid /\
                   currItem_ s = None /\ bytesToDiscard_ s = 0
  | kReceiveValue => exists i, currItem_ s = Some i /\ 0 <= receivedBytes_ i < totalLen i /\ totalLen i < 2 ^ 31
  | kDiscardValue => currItem_ s = None /\ 0 < bytesToDiscard_ s
  end.

(** The fields that the commands other than an update leave. *)
Definition same_frame (s s' : Session) : Prop :=
  state_ s' = state_ s /\ protocol_ s' = protocol_ s.

Lemma reply_frame msg s : same_frame s (reply msg s).
Proof. unfold reply. by destruct (noreply_ s). Qed.

Lemma get_keys_frame toks cas s srv b s' : get_keys hash_range toks cas s srv = Ok (b, s') -> same_frame s s'.
Proof.
  revert s. induction toks as [|k toks IH]; intros s; cbn [get_keys]; [by intros [= <- <-]|].
  destruct (negb _); [intros [= <- <-]; apply reply_frame|].
  destruct (resetKey _ _ _) as [nd|]; [|done]. cbn [res_bind].
  destruct (getItem _ _); [destruct (output _ _); [|done]; cbn [res_bind]|]; intros H; by apply IH in H.
Qed.

Lemma doUpdate_ok toks s srv b s' srv' : doUpdate hash_range toks s srv = Ok (b, s', srv') ->
  protocol_ s = kAscii -> currItem_ s = None ->
  if b then same_frame s s' else session_ok s'.
Proof.
  intros E Hp Hi. unfold doUpdate in E. destruct (policy_of _) as [p|]; [|done].
  destruct toks as [|key toks]; [done|].
  assert (A : let '(good, _, _, n, _) := update_args key toks in good = true -> zlen key < 250 /\ - 2 ^ 31 <= n < 2 ^ 31).
  { unfold update_args, kLongestKeySize. destruct (Z.ltb_spec (zlen key) 250); [|done]. cbn [negb].
    destruct (read toks) as [[? t1]|]; [|done]. destruct (read t1) as [[? t2]|]; [|done].
    destruct (read t2) as [[x t3]|]; [|done]. intros _. split; [done|].
    unfold s32, to_signed. pose proof (Z.mod_pos_bound (x + 2 ^ (32 - 1)) (2 ^ 32) ltac:(lia)). lia. }
  destruct (update_args key toks) as [[[[good f] e] n] rest].
  destruct (if good && bool_decide (p = kCas) then _ else _) as [good' cas] eqn:Eg.
  assert (G : good' = true -> good = true) by (intros ->; destruct good; [done|]; cbn in Eg; congruence).
  destruct good'; cbn [negb] in E; [|injection E as <- <- <-; exact (reply_frame _ (set_policy p s))].
  destruct (A (G eq_refl)) as [Hk Hn]. destruct (Z.ltb_spec (1024 * 1024) n).
  - destruct (resetKey _ _ _) as [nd|]; [|done]. cbn [res_bind] in E. destruct (deleteItem _ _) as [? ?].
    destruct (_ <? _); [done|]. injection E as <- <- <-. destruct (reply_frame (bs "SERVER_ERROR object too large for cache" ++ CRLF) (set_policy p s)) as [_ F].
    split; [cbn in *; congruence|]. cbn. split; [|lia]. unfold reply. by destruct (noreply_ _).
  - pose proof (zlen_nonneg key). destruct (Z.leb_spec 2 (n + 2)) as [H2|H2].
    + rewrite makeItem_spec in E by lia. injection E as <- <- <-. split; [done|].
      eexists. split; [reflexivity|]. unfold receivedBytes_, totalLen. cbn. lia.
    + unfold makeItem in E. cbn [valuelen_] in E. by rewrite (proj2 (Z.leb_gt _ _)) in E by lia.
Qed.

Lemma dispatch_ok command toks s srv b s' srv' : dispatch hash_range command toks s srv = Ok (b, s', srv') ->
  protocol_ s = kAscii -> currItem_ s = None ->
  if b then same_frame s s' else session_ok s'.
Proof.
  intros E Hp Hi. unfold dispatch in E. destruct (policy_of _); [by eapply doUpdate_ok|].
  destruct (_ || _).
  { destruct (get_keys _ _ _ _ _) as [[[] s1]|] eqn:G; [| |done]; apply get_keys_frame in G;
      cbn [res_bind] in E; injection E as <- <- <-; done. }
  destruct (bytes_eqb _ _).
  { destruct (doDelete _ _ _) as [[s1 srv1]|] eqn:G; [|done]. cbn [res_bind] in E. injection E as <- <- <-.
    revert G. unfold doDelete. destruct toks as [|k t]; [done|].
    destruct (negb _); [intros [= <- <-]; apply reply_frame|].
    destruct (match t with [] => _ | _ => _ end); [intros [= <- <-]; apply reply_frame|].
    destruct (resetKey _ _ _) as [nd|]; [|done]. cbn [res_bind]. destruct (deleteItem _ _) as [fd ?].
    intros [= <- <-]. exact (reply_frame _ (set_needle nd s)). }
  destruct (bytes_eqb _ _); [injection E as <- <- <-; apply reply_frame|].
  destruct (bytes_eqb _ _); [by injection E as <- <- <-|].
  destruct (bytes_eqb _ _); [by injection E as <- <- <-|]. injection E as <- <- <-. apply reply_frame.
Qed.

Lemma processRequest_ok line s srv b s' srv' : session_ok s -> state_ s = kNewCommand ->
  processRequest hash_range line s srv = Ok (b, s', srv') ->
  session_ok (if b then resetRequest s' else s').
Proof.
  intros [Hp Ho] Es. rewrite Es in Ho. destruct Ho as (E3 & E4 & E5 & E6 & E7).
  unfold processRequest. rewrite E3, E4, E5, E6, E7. rewrite !bool_decide_eq_true_2 by done.
  change (bytes_eqb [] []) with true. cbn [negb assert_ res_bind Z.eqb]. cbv zeta.
  set (s0 := if is_quiet line then set_noreply _ _ else _). set (l0 := if is_quiet line then ztake _ _ else _).
  assert (F : state_ s0 = kNewCommand /\ protocol_ s0 = kAscii /\ currItem_ s0 = None)
    by (subst s0; by destruct (is_quiet line)).
  clearbody s0 l0. destruct F as (F1 & F2 & F3). destruct (tokens l0) as [|c toks].
  - intros [= <- <- <-]. destruct (reply_frame (bs "ERROR" ++ CRLF) s0) as [G1 G2].
    split; [cbn in *; congruence|]. cbn in *. by rewrite G1, F1.
  - intros H. apply dispatch_ok in H; [|done|done]. destruct b; [|done]. destruct H as [G1 G2].
    split; [cbn in *; congruence|]. cbn in *. by rewrite G1, F1.
Qed.

(** What [receiveValue] does once the item is complete. *)
Definition complete (item : Item) (l : bytes) (s : Session) (srv : MemcacheServer)
  : res (bytes * Session * MemcacheServer) :=
  let* (s, srv) :=
    (if endsWithCRLF item then
       let* (stored, exists_, srv) := storeItem hash_range item (policy_ s) srv in
       Ok (reply (if stored then bs "STORED" ++ CRLF else not_stored (policy_ s) exists_) s, srv)
     else Ok (reply (bs "CLIENT_ERROR bad data chunk" ++ CRLF) s, srv)) in
  Ok (l, set_state kNewCommand (resetRequest s), srv).

Definition receive (bytes : bytes) (i : Item) : Item := set_received (received_ i ++ bytes) i.

Lemma receiveValue_cases l s srv i : state_ s = kReceiveValue -> currItem_ s = Some i ->
  0 <= receivedBytes_ i < totalLen i -> totalLen i < 2 ^ 31 ->
  let need := totalLen i - receivedBytes_ i in
  receiveValue hash_range l s srv =
    if zlen l <? need then Ok ([], set_currItem (Some (receive l i)) s, srv)
    else let i' := receive (ztake need l) i in complete i' (zdrop need l) (set_currItem (Some i') s) srv.
Proof.
  intros Es Ei Hr Ht need. pose proof (zlen_nonneg l). unfold receiveValue.
  rewrite Ei, Es, bool_decide_eq_true_2 by done. cbn [assert_ res_bind].
  assert (Hn : neededBytes i = need) by (unfold neededBytes; apply u64_small; lia). rewrite Hn.
  assert (L : zlen (ztake (Z.min (zlen l) need) l) = Z.min (zlen l) need) by (rewrite zlen_ztake; lia).
  rewrite item_append_spec by (rewrite ?L; lia). cbn [res_bind]. cbv zeta. fold (receive (ztake (Z.min (zlen l) need) l) i).
  assert (N : neededBytes (receive (ztake (Z.min (zlen l) need) l) i) = need - Z.min (zlen l) need).
  { unfold neededBytes, receivedBytes_, totalLen, receive in *. cbn [received_ set_received keylen_ valuelen_] in *.
    rewrite zlen_app, L. rewrite u64_small; lia. }
  rewrite N. destruct (Z.ltb_spec (zlen l) need).
  - rewrite Z.min_l, (proj2 (Z.eqb_neq _ _)) by lia. rewrite ztake_ge, zdrop_ge by lia. done.
  - rewrite Z.min_r, Z.sub_diag by lia. reflexivity.
Qed.

(** What happens to the loop's turns when more bytes follow. *)
Definition continues (l k : bytes) (s : Session) (srv : MemcacheServer) (l' : bytes) (s' : Session)
  (srv' : MemcacheServer) : Prop :=
  session_turn hash_range (l ++ k) s srv = Ok (true, l' ++ k, s', srv') \/
  l' = [] /\ session_turn hash_range (l ++ k) s srv = session_turn hash_range k s' srv'.

Lemma resets_ok s : protocol_ s = kAscii -> session_ok (set_state kNewCommand (resetRequest s)).
Proof. by intros H. Qed.

Lemma reply_protocol msg s : protocol_ (reply msg s) = protocol_ s.
Proof. apply reply_frame. Qed.

Lemma complete_ok item l s srv : protocol_ s = kAscii ->
  match complete item l s srv with
  | Ok (l', s', srv') => l' = l /\ session_ok s' /\ forall k, complete item (l ++ k) s srv = Ok (l ++ k, s', srv')
  | Err e => forall k, complete item (l ++ k) s srv = Err e
  end.
Proof.
  intros Hp. unfold complete. destruct (endsWithCRLF item).
  - destruct (storeItem _ _ _ _) as [[[st ex] srv1]|]; [|done]. cbn [res_bind].
    split_and!; try done. apply resets_ok. by rewrite reply_protocol.
  - cbn [res_bind]. split_and!; try done. apply resets_ok. by rewrite reply_protocol.
Qed.

Lemma receive_turn l s srv i : protocol_ s = kAscii -> state_ s = kReceiveValue -> currItem_ s = Some i ->
  0 <= receivedBytes_ i < totalLen i -> totalLen i < 2 ^ 31 -> l <> [] ->
  match session_turn hash_range l s srv with
  | Ok (more, l', s', srv') =>
      more = true /\ session_ok s' /\ (length l' < length l)%nat /\ forall k, continues l k s srv l' s' srv'
  | Err e => forall k, session_turn hash_range (l ++ k) s srv = Err e
  end.
Proof.
  intros Hp Es Ei Hr Ht Hl. assert (Hl0 : 0 < zlen l) by (destruct l; [done|rewrite zlen_cons; pose proof (zlen_nonneg l); lia]).
  unfold continues, session_turn. rewrite Es.
  rewrite (receiveValue_cases l s srv i) by done. set (need := totalLen i - receivedBytes_ i). cbv zeta.
  destruct (Z.ltb_spec (zlen l) need) as [Hlt|Hge].
  - cbn [res_bind state_ set_currItem]. rewrite Es. split; [done|].
    assert (Hr' : receivedBytes_ (receive l i) = receivedBytes_ i + zlen l /\ totalLen (receive l i) = totalLen i)
      by (unfold receive, receivedBytes_, totalLen; cbn; by rewrite zlen_app).
    destruct Hr' as [Hr' Ht'].
    split; [split; [done|]; cbn; rewrite Es; eexists; split; [done|]; rewrite Hr', Ht'; lia|].
    split; [destruct l; [done|cbn; lia]|]. intros k. right. split; [done|].
    rewrite (receiveValue_cases (l ++ k) s srv i) by done. fold need.
    rewrite (receiveValue_cases k _ srv (receive l i)) by (rewrite ?Hr', ?Ht'; done || lia).
    rewrite Hr', Ht', zlen_app. replace (totalLen i - (receivedBytes_ i + zlen l)) with (need - zlen l) by lia.
    rewrite ztake_app, zdrop_app, ztake_ge, zdrop_ge by lia.
    assert (Hc : forall x, receive x (receive l i) = receive (l ++ x) i)
      by (intros; unfold receive; cbn; by rewrite <-app_assoc).
    rewrite !Hc. destruct (Z.ltb_spec (zlen l + zlen k) need), (Z.ltb_spec (zlen k) (need - zlen l)); done || lia.
  - set (i' := receive (ztake need l) i).
    pose proof (complete_ok i' (zdrop need l) (set_currItem (Some i') s) srv Hp) as C.
    assert (D : forall k, receiveValue hash_range (l ++ k) s srv =
                          complete i' (zdrop need l ++ k) (set_currItem (Some i') s) srv).
    { intros k. rewrite (receiveValue_cases _ s srv i) by done. fold need. cbv zeta.
      rewrite zlen_app, (proj2 (Z.ltb_ge _ _)) by (pose proof (zlen_nonneg k); lia).
      rewrite ztake_app, zdrop_app, (ztake_nonpos (need - zlen l)), (zdrop_nonpos (need - zlen l)), app_nil_r by lia. done. }
    destruct (complete _ _ _ _) as [[[l' s'] srv']|e]; cbn [res_bind].
    + destruct C as (-> & Ok' & C). split; [done|]. split; [done|].
      split; [unfold zdrop; rewrite length_drop; unfold zlen in *; lia|]. intros k. left. by rewrite D, C.
    + intros k. by rewrite D, C.
Qed.

Lemma discard_turn l s srv : protocol_ s = kAscii -> state_ s = kDiscardValue -> currItem_ s = None ->
  0 < bytesToDiscard_ s -> l <> [] ->
  match session_turn hash_range l s srv with
  | Ok (more, l', s', srv') =>
      more = true /\ session_ok s' /\ (length l' < length l)%nat /\ forall k, continues l k s srv l' s' srv'
  | Err e => forall k, session_turn hash_range (l ++ k) s srv = Err e
  end.
Proof.
  intros Hp Es Ei Hd Hl. unfold continues, session_turn, discardValue. rewrite Es, Ei, !bool_decide_eq_true_2 by done.
  cbn [assert_ res_bind]. assert (Hl0 : 0 < zlen l) by (destruct l; [done|rewrite zlen_cons; pose proof (zlen_nonneg l); lia]).
  destruct (Z.ltb_spec (zlen l) (bytesToDiscard_ s)) as [Hlt|Hge]; cbn [res_bind]; (split; [done|]).
  - split; [split; [done|]; cbn; rewrite Es; split; [done|]; lia|]. split; [destruct l; [done|cbn; lia]|].
    intros k. right. split; [done|]. cbn [state_ set_discard currItem_ bytesToDiscard_]. rewrite Es, Ei, !bool_decide_eq_true_2 by done.
    cbn [assert_ res_bind]. rewrite zlen_app, zdrop_app, (zdrop_ge _ l) by lia.
    destruct (Z.ltb_spec (zlen l + zlen k) (bytesToDiscard_ s)), (Z.ltb_spec (zlen k) (bytesToDiscard_ s - zlen l)); try lia; [|done].
    cbn [res_bind]. by rewrite Z.sub_add_distr.
  - split; [by apply resets_ok|]. split; [unfold zdrop; rewrite length_drop; unfold zlen in *; lia|].
    intros k. left. rewrite zlen_app, (proj2 (Z.ltb_ge _ _)) by (pose proof (zlen_nonneg k); lia).
    cbn [res_bind]. by rewrite zdrop_app, (zdrop_nonpos (_ - zlen l)) by lia.
Qed.

(** A command line: the third case is the line that has not arrived. *)
Lemma command_turn l s srv : session_ok s -> state_ s = kNewCommand ->
  match session_turn hash_range l s srv with
  | Ok (true, l', s', srv') =>
      session_ok s' /\ (length l' < length l)%nat /\ forall k, continues l k s srv l' s' srv'
  | Ok (false, l', s', srv') => l' = l /\ srv' = srv /\ session_ok s' /\ (zlen l <= 1024 -> s' = s)
  | Err e => forall k, session_turn hash_range (l ++ k) s srv = Err e
  end.
Proof.
  intros Ok' Es. pose proof Ok' as [Hp Hf]. unfold continues, session_turn. rewrite Es, Hp. cbn [res_bind]. rewrite Hp.
  destruct (split_line l) as [[line rest]|] eqn:E.
  - pose proof (processRequest_ok line s srv) as P.
    assert (E' : forall k, split_line (l ++ k) = Some (line, rest ++ k)) by (intros; by apply split_line_app).
    destruct (processRequest _ _ _ _) as [[[b s'] srv']|e] eqn:Ep; cbn [res_bind].
    + split; [by apply (P b s' srv')|]. split; [by apply (split_line_shorter l line)|].
      intros k. left. rewrite E'. cbn. by rewrite Ep.
    + intros k. rewrite E'. cbn. by rewrite Ep.
  - split; [done|]. split; [done|]. split; [|intros H; by rewrite (proj2 (Z.ltb_ge _ _))].
    destruct (_ <? _); [|done]. split; [done|]. cbn. rewrite Es in *. done.
Qed.

(** Any turn: it either stops the loop, or shortens the input. *)
Lemma session_turn_ok l s srv : session_ok s -> l <> [] ->
  match session_turn hash_range l s srv with
  | Ok (true, l', s', srv') =>
      session_ok s' /\ (length l' < length l)%nat /\ forall k, continues l k s srv l' s' srv'
  | Ok (false, l', s', srv') => l' = l /\ srv' = srv /\ session_ok s' /\ (zlen l <= 1024 -> s' = s)
  | Err e => forall k, session_turn hash_range (l ++ k) s srv = Err e
  end.
Proof.
  intros Ok' Hl. pose proof Ok' as [Hp H]. destruct (state_ s) eqn:Es.
  - by apply command_turn.
  - destruct H as (i & Ei & Hr & Ht). pose proof (receive_turn l s srv i Hp Es Ei Hr Ht Hl) as T.
    destruct (session_turn _ _ _ _) as [[[[more l'] s'] srv']|]; [|done]. destruct T as (-> & T). done.
  - destruct H as [Ei Hd]. pose proof (discard_turn l s srv Hp Es Ei Hd Hl) as T.
    destruct (session_turn _ _ _ _) as [[[[more l'] s'] srv']|]; [|done]. destruct T as (-> & T). done.
Qed.

(** More turns than bytes change nothing. *)
Lemma session_loop_fuel n n' l s srv : session_ok s -> (length l <= n)%nat -> (length l <= n')%nat ->
  session_loop hash_range n l s srv = session_loop hash_range n' l s srv.
Proof.
  revert n' l s srv. induction n as [|n IH]; intros n' l s srv Ok' Hn Hn'; [destruct l; [by destruct n'|cbn in Hn; lia]|].
  destruct l as [|c l]; [by destruct n'|]. destruct n' as [|n']; [cbn in Hn'; lia|].
  pose proof (session_turn_ok (c :: l) s srv Ok' ltac:(done)) as T. cbn [session_loop].
  destruct (session_turn _ _ _ _) as [[[[[] l'] s'] srv']|]; cbn [res_bind]; try done.
  destruct T as (Ok'' & Hl & _). cbn in *. apply IH; done || lia.
Qed.

Lemma session_loop_app n l s srv k : session_ok s -> (length l <= n)%nat ->
  match session_loop hash_range n l s srv with
  | Ok (r, s1, srv1) => session_ok s1 /\ (length r <= length l)%nat /\
      (zlen r <= 1024 -> forall n', (length (l ++ k) <= n')%nat ->
         session_loop hash_range n' (l ++ k) s srv = session_loop hash_range n' (r ++ k) s1 srv1)
  | Err e => forall n', (length (l ++ k) <= n')%nat -> session_loop hash_range n' (l ++ k) s srv = Err e
  end.
Proof.
  revert l s srv. induction n as [|n IH]; intros l s srv Ok' Hn; [destruct l; [done|cbn in Hn; lia]|].
  destruct l as [|c l]; [done|]. pose proof (session_turn_ok (c :: l) s srv Ok' ltac:(done)) as T.
  assert (U : forall n' m, session_loop hash_range (S n') ((c :: l) ++ m) s srv =
     let* (more, l, s, srv) := session_turn hash_range ((c :: l) ++ m) s srv in
     if more then session_loop hash_range n' l s srv else Ok (l, s, srv)) by done.
  cbn [session_loop]. remember (c :: l) as l0 eqn:El0.
  destruct (session_turn _ l0 _ _) as [[[[[] l'] s'] srv']|e] eqn:Et; cbn [res_bind].
  - destruct T as (Ok'' & Hl & C). specialize (IH l' s' srv' Ok'' ltac:(lia)). specialize (C k).
    assert (V : forall n', (length (l0 ++ k) <= n')%nat ->
      session_loop hash_range n' (l0 ++ k) s srv = session_loop hash_range n' (l' ++ k) s' srv').
    { intros [|n'] Hn'; [subst; cbn in Hn'; lia|]. rewrite length_app in Hn'.
      rewrite (session_loop_fuel (S n') n' (l' ++ k)) by (rewrite ?length_app; done || lia).
      rewrite U. destruct C as [-> | [-> Et2]]; [done|]. cbn [app].
      destruct k as [|b k].
      + assert (E : session_turn hash_range (l0 ++ []) s srv = Ok (true, [], s', srv')) by (by rewrite app_nil_r).
        rewrite E. cbn [res_bind]. done.
      + rewrite Et2, <-(session_loop_fuel (S n') n' (b :: k)) by (done || cbn in *; lia). done. }
    destruct (session_loop hash_range n l' s' srv') as [[[r s1] srv1]|e].
    + destruct IH as (Ok1 & Hr & IH). split; [done|]. split; [lia|]. intros Hs n' Hn'. rewrite V by done.
      apply IH; [done|]. rewrite length_app in *. lia.
    + intros n' Hn'. rewrite V by done. apply IH. rewrite length_app in *. lia.
  - destruct T as (-> & -> & Ok'' & Hs). split; [done|]. split; [done|]. intros Hr n' Hn'. by rewrite Hs.
  - intros [|n'] Hn'; [subst; cbn in Hn'; lia|]. by rewrite U, T.
Qed.

(** ** The byte counter is only counted *)

Definition map_read {A} (x : Z) (r : res (A * Session * MemcacheServer)) : res (A * Session * MemcacheServer) :=
  let* (a, s, srv) := r in Ok (a, add_read x s, srv).

Lemma reply_read x msg s : reply msg (add_read x s) = add_read x (reply msg s).
Proof. unfold reply. cbn. by destruct (noreply_ s). Qed.

Lemma get_keys_read x toks cas s srv : get_keys hash_range toks cas (add_read x s) srv =
  let* (b, s) := get_keys hash_range toks cas s srv in Ok (b, add_read x s).
Proof.
  revert s. induction toks as [|k toks IH]; intros s; cbn [get_keys]; [done|].
  destruct (negb _); [by rewrite reply_read|]. cbn [needle_ add_read].
  destruct (resetKey _ _ _) as [nd|]; [|done]. cbn [res_bind].
  destruct (getItem _ _); [destruct (output _ _); [|done]|]; apply (IH (set_needle _ _)) || idtac.
  - apply (IH (set_output _ (set_needle nd s))).
Qed.

Lemma dispatch_read x command toks s srv :
  dispatch hash_range command toks (add_read x s) srv = map_read x (dispatch hash_range command toks s srv).
Proof.
  unfold dispatch. destruct (policy_of command).
  { unfold doUpdate. cbn [command_ add_read]. destruct (policy_of _) as [p|]; [|done].
    destruct toks as [|key toks]; [done|]. destruct (update_args _ _) as [[[[g f] e] n] rest]. cbv zeta.
    destruct (if _ && _ then _ else _) as [g' c]. change (set_policy p (add_read x s)) with (add_read x (set_policy p s)).
    destruct (negb g'); [by rewrite reply_read|]. destruct (_ <? n).
    - rewrite reply_read. cbn [needle_ add_read]. destruct (resetKey _ _ _); [|done]. cbn [res_bind].
      destruct (deleteItem _ _). by destruct (_ <? _).
    - by destruct (makeItem _ _ _ _ _ _). }
  destruct (_ || _). { rewrite get_keys_read. by destruct (get_keys _ _ _ _ _) as [[[] ?]|]. }
  destruct (bytes_eqb _ _).
  { unfold doDelete. destruct toks as [|k t]; [done|]. destruct (negb _); [by rewrite reply_read|].
    destruct (match t with [] => _ | _ => _ end); [by rewrite reply_read|]. cbn [needle_ add_read].
    destruct (resetKey _ _ _) as [nd|]; [|done]. cbn [res_bind]. destruct (deleteItem _ _) as [fd ?].
    change (set_needle nd (add_read x s)) with (add_read x (set_needle nd s)). by rewrite reply_read. }
  destruct (bytes_eqb _ _); [by rewrite reply_read|]. destruct (bytes_eqb _ _); [done|].
  destruct (bytes_eqb _ _); [done|]. by rewrite reply_read.
Qed.

Lemma processRequest_read x line s srv :
  processRequest hash_range line (add_read x s) srv = map_read x (processRequest hash_range line s srv).
Proof.
  unfold processRequest. cbn [command_ noreply_ policy_ currItem_ bytesToDiscard_ add_read].
  repeat (destruct (assert_ _); [cbn [res_bind]|done]). cbv zeta.
  change (count_request (add_read x s)) with (add_read x (count_request s)).
  assert (E : (if is_quiet line then set_noreply true (add_read x (count_request s)) else add_read x (count_request s))
    = add_read x (if is_quiet line then set_noreply true (count_request s) else count_request s))
    by (by destruct (is_quiet line)).
  rewrite E. destruct (tokens _) as [|c toks]; [by rewrite reply_read|]. apply (dispatch_read x c toks (set_command c _)).
Qed.

Lemma session_turn_read x l s srv : protocol_ s = kAscii ->
  session_turn hash_range l (add_read x s) srv = map_read x (session_turn hash_range l s srv).
Proof.
  intros Hp. unfold session_turn. cbn [state_ protocol_ add_read]. rewrite Hp. destruct (state_ s) eqn:Es; cbn [res_bind].
  - cbn [protocol_ add_read]. rewrite Hp. destruct (split_line l) as [[line rest]|].
    + rewrite processRequest_read. by destruct (processRequest _ _ _ _) as [[[[] ?] ?]|].
    + by destruct (_ <? _).
  - unfold receiveValue. cbn [state_ currItem_ add_read]. destruct (currItem_ s) as [i|]; [|done].
    destruct (assert_ _); [cbn [res_bind]|done]. destruct (item_append _ _) as [i'|]; [cbn [res_bind]|done].
    destruct (_ =? 0); [|done]. cbn [policy_ add_read set_currItem]. destruct (endsWithCRLF _).
    + destruct (storeItem _ _ _ _) as [[[st ex] srv']|]; [cbn [res_bind]|done].
      change (set_currItem (Some i') (add_read x s)) with (add_read x (set_currItem (Some i') s)).
      by rewrite reply_read.
    + change (set_currItem (Some i') (add_read x s)) with (add_read x (set_currItem (Some i') s)).
      by rewrite reply_read.
  - unfold discardValue. cbn [state_ currItem_ bytesToDiscard_ add_read].
    repeat (destruct (assert_ _); [cbn [res_bind]|done]). by destruct (_ <? _).
Qed.

Lemma session_loop_read x n l s srv : session_ok s ->
  session_loop hash_range n l (add_read x s) srv = map_read x (session_loop hash_range n l s srv).
Proof.
  revert l s srv. induction n as [|n IH]; intros l s srv Ok'; [by destruct l|]. destruct l as [|c l]; [done|].
  cbn [session_loop]. rewrite session_turn_read by apply Ok'.
  pose proof (session_turn_ok (c :: l) s srv Ok' ltac:(done)) as T.
  destruct (session_turn _ _ _ _) as [[[[[] l'] s'] srv']|]; cbn [res_bind map_read]; try done.
  apply IH, T.
Qed.

(** C23: The state of a session does not depend on how its input is cut into
    segments.  In every state (awaiting a command, in the middle of a value, or
    discarding one), handling [l1] keeps the state machine's invariant, and
    handling what it left unread followed by [l2] gives exactly what handling
    [l1 ++ l2] at once gives (unread bytes, replies, cache, counters), unless
    the bytes left exceed the 1024 after which the session shuts down; where
    [l1] alone aborts, the whole does.  More turns than bytes never change the
    result. *)
Theorem session_segmentation (l1 l2 : bytes) (s : Session) (srv : MemcacheServer) (Hs : session_ok s) :
  match onMessage hash_range l1 s srv with
  | Ok (rest, s1, srv1) =>
      session_ok s1 /\
      (zlen rest <= 1024 -> onMessage hash_range (rest ++ l2) s1 srv1 = onMessage hash_range (l1 ++ l2) s srv)
  | Err e => onMessage hash_range (l1 ++ l2) s srv = Err e
  end /\
  forall n, (length l1 <= n)%nat -> session_loop hash_range n l1 s srv = session_loop hash_range (length l1) l1 s srv.
Proof.
  split; [|intros n Hn; by apply session_loop_fuel].
  pose proof (session_loop_app (length l1) l1 s srv l2 Hs ltac:(done)) as A. unfold onMessage.
  destruct (session_loop hash_range (length l1) l1 s srv) as [[[r s1] srv1]|e]; cbn [res_bind];
    [|by rewrite A]. destruct A as (Ok1 & Hr & A). split; [done|]. intros Hl.
  rewrite (A Hl (length (l1 ++ l2))) by done. rewrite session_loop_read by done.
  rewrite (session_loop_fuel (length (l1 ++ l2)) (length (r ++ l2))) by (rewrite ?length_app; done || lia).
  unfold map_read. destruct (session_loop _ _ _ _ _) as [[[r2 s2] srv2]|]; cbn [res_bind]; [|done].
  unfold add_read. cbn. do 4 f_equal. unfold u64. rewrite !zlen_app.
  rewrite Zplus_mod_idemp_l. f_equal. lia.
Qed.

(** C27: In one segment, a client that sets a key to a value and gets it back: from a
    session awaiting a command, on a cache that implements the map [m], the
    lines and the value are consumed entirely, the answers are STORED and then
    whatever an earlier request left in [outputBuf_] (nothing, unless a [get] or
    [gets] was answered with an error after its first key), followed by
    the VALUE line with the flags and length that were set, the value, byte for
    byte whatever it contains, and END; the cache then implements [m] updated at
    the key, with the next cas number, the session awaits a command and its
    [outputBuf_] is empty. The key is a word (no space, no line feed) of fewer
    than 250 bytes other than [noreply], the flags fit 32 bits, the expiry time
    is relative (at most thirty days), the value at most one megabyte, and the
    counter of cas numbers is not at its end. *)
Theorem set_then_get (k d : bytes) (f e : Z) (s : Session) (srv : MemcacheServer) (m : gmap bytes entry)
  (R : ready s) (M : models hash_range srv m) (Wk : word k) (Lk : LF ∉ k) (Nk : k <> bs "noreply")
  (Hk : zlen k < kLongestKeySize) (Hf : 0 <= f < 2 ^ 32) (He : 0 <= e <= 60 * 60 * 24 * 30)
  (Hd : zlen d <= 1024 * 1024) (Hc : g_cas srv + 1 < 2 ^ 63) :
  let entry := mkEntry f e d (g_cas srv + 1) in
  let out := outputBuf_ s ++ value_text k entry ++ bs "END" ++ CRLF in
  exists s' srv',
    onMessage hash_range
      (request_line [bs "set"; k; fmt_u f; fmt_u e; fmt_u (zlen d)] ++ CRLF ++ d ++ CRLF ++
       request_line [bs "get"; k] ++ CRLF ++ []) s srv = Ok ([], s', srv') /\
    ready s' /\ outputBuf_ s' = [] /\ models hash_range srv' (<[k := entry]> m) /\
    actions s' = actions s ++ [AReply (bs "STORED" ++ CRLF); ATrim (u64 (65535 + zlen out)); ASend out].
Proof.
  intros entry out. pose proof (zlen_nonneg d). pose proof R as (R1 & R2 & R3 & R4 & R5 & R6 & R7 & R8).
  set (get := request_line [bs "get"; k] ++ CRLF ++ []).
  set (l := _ ++ CRLF ++ d ++ CRLF ++ get). unfold onMessage.
  assert (L : exists n, length l = S (S (S n))).
  { subst l get. rewrite !length_app. cbn. eexists. rewrite <-!plus_n_Sm. reflexivity. }
  destruct L as [n L]. rewrite L.
  rewrite (session_loop_step _ l _ _ _ _ _ ltac:(by intros El; rewrite El in L)
             (turn_set k f e (zlen d) s srv _ R Wk Lk Hk Hf He ltac:(lia))).
  match goal with |- context [session_loop _ _ _ ?x _] => set (s1 := x) end.
  unfold kLongestKeySize in Hk.
  destruct (receiveValue_whole k f e d s1 srv m get M eq_refl eq_refl R4 eq_refl ltac:(lia) Hc) as (srv1 & E2 & M1).
  match type of E2 with _ = Ok (_, ?x, _) => set (s2 := x) in E2 end.
  rewrite (session_loop_step _ (d ++ CRLF ++ get) s1 srv get s2 srv1); [|by destruct d|].
  2: { unfold session_turn. cbn [state_ s1 set_state]. by rewrite E2. }
  assert (R' : ready s2) by (by repeat split).
  destruct (turn_get k entry s2 srv1 (<[k := entry]> m) [] R' Wk Lk ltac:(lia) Nk M1
              ltac:(apply lookup_insert_eq) Hf) as (s3 & E3 & R3' & O3 & A3).
  rewrite (session_loop_step n get s2 srv1 [] s3 srv1 ltac:(done) E3).
  replace (session_loop hash_range n [] s3 srv1) with (Ok (@nil byte, s3, srv1)) by (by destruct n).
  cbn [res_bind]. eexists _, srv1. split; [reflexivity|]. split; [exact R3'|]. split; [exact O3|]. split; [exact M1|].
  cbn [actions add_read]. rewrite A3. cbn [actions s2 s1 set_state resetRequest set_discard set_currItem set_policy set_noreply set_command act count_request].
  by rewrite <-app_assoc.
Qed.

(** Three request lines that stop the server, whichever client sends them and
    whatever the cache holds: [delete] without a key fails the assertion of
    [doDelete], [set] without a key dereferences the end of the tokens, and a
    [set] with a negative length fails the assertion of [Item]'s constructor. *)
Theorem requests_that_abort (s : Session) (srv : MemcacheServer) (rest : bytes)
  (H : session_ok s) (Hs : state_ s = kNewCommand) :
  onMessage hash_range (bs "delete" ++ CRLF ++ rest) s srv = Err EAssert /\
  onMessage hash_range (bs "set" ++ CRLF ++ rest) s srv = Err EUndefined /\
  onMessage hash_range (bs "set k 0 0 -3" ++ CRLF ++ rest) s srv = Err EAssert.
Proof.
  pose proof H as [Hp F]. rewrite Hs in F. destruct F as (E3 & E4 & E5 & E6 & E7).
  assert (T : forall line e, LF ∉ line -> line <> [] ->
    (processRequest hash_range line s srv = dispatch hash_range (hd [] (tokens line))
        (tl (tokens line)) (set_command (hd [] (tokens line)) (count_request s)) srv) ->
    dispatch hash_range (hd [] (tokens line)) (tl (tokens line)) (set_command (hd [] (tokens line)) (count_request s)) srv = Err e ->
    onMessage hash_range (line ++ CRLF ++ rest) s srv = Err e).
  { intros line e Hl Hn Hd He. unfold onMessage. destruct (line ++ CRLF ++ rest) as [|c l] eqn:El; [by destruct line|].
    cbn [session_loop length]. unfold session_turn. rewrite Hs, Hp. cbn [res_bind].
    by rewrite Hp, <-El, split_line_text, Hd, He. }
  assert (P : forall line, is_quiet line = false -> tokens line <> [] ->
    processRequest hash_range line s srv = dispatch hash_range (hd [] (tokens line))
        (tl (tokens line)) (set_command (hd [] (tokens line)) (count_request s)) srv).
  { intros line Hq Ht. unfold processRequest. rewrite E3, E4, E5, E6, E7, !bool_decide_eq_true_2 by done.
    change (bytes_eqb [] []) with true. cbn [negb assert_ res_bind Z.eqb]. cbv zeta. rewrite Hq.
    by destruct (tokens line). }
  split_and!; (apply T; [by apply (bool_decide_unpack _)|done|by apply P|]).
  - by vm_compute.
  - by vm_compute.
  - change (tokens (bs "set k 0 0 -3")) with (bs "set" :: [bs "k"; bs "0"; bs "0"; bs "-3"]). cbn [hd tl].
    unfold dispatch, doUpdate. cbn [command_ set_command].
    change (policy_of (bs "set")) with (Some kSet). cbv iota zeta.
    assert (U : update_args (bs "k") [bs "0"; bs "0"; bs "-3"] = (true, 0, 0, -3, [])) by (by vm_compute).
    rewrite U. by rewrite (bool_decide_eq_false_2 (kSet = kCas)) by done.
Qed.

End spec.

(** ** A session and a cache to apply the theorems to *)

Definition ex_hash (k : bytes) : Z := zlen k.
Definition ex_session : Session :=
  mkSession kNewCommand kAscii [] false kInvalid None 0 (mkItem 250 0 0 2 0 250 (replicate 250 x78)) [] 0 0 [].
Definition ex_cache : MemcacheServer := MemcacheServer_new 1000.

Example session_new : Session_new ex_hash = Ok ex_session.
Proof. by vm_compute. Qed.

Lemma set_then_get_witness :
  exists s' srv', onMessage ex_hash (bs "set k 5 60 4" ++ CRLF ++ (CRLF ++ CRLF) ++ CRLF ++ bs "get k" ++ CRLF ++ [])
      ex_session ex_cache = Ok ([], s', srv') /\
    models ex_hash srv' {[ bs "k" := mkEntry 5 60 (CRLF ++ CRLF) 1 ]}.
Proof.
  destruct (set_then_get ex_hash (bs "k") (CRLF ++ CRLF) 5 60 ex_session ex_cache ∅)
    as (s' & srv' & E & _ & _ & M & _).
  - by repeat split.
  - split; [done|]. intros k. unfold items. cbn. by rewrite !lookup_empty.
  - split; [done|by apply (bool_decide_unpack _)].
  - by apply (bool_decide_unpack _).
  - done.
  - done.
  - done.
  - done.
  - done.
  - done.
  - exists s', srv'. split; [exact E|exact M].
Defined.

Lemma session_segmentation_witness :
  match onMessage ex_hash (bs "set k 5 60 4" ++ CRLF ++ bs "ab") ex_session ex_cache with
  | Ok (rest, s1, srv1) => rest = [] /\ state_ s1 = kReceiveValue /\
      onMessage ex_hash (bs "cd" ++ CRLF) s1 srv1 =
      onMessage ex_hash (bs "set k 5 60 4" ++ CRLF ++ bs "ab" ++ bs "cd" ++ CRLF) ex_session ex_cache
  | Err e => False
  end.
Proof.
  assert (H : session_ok ex_session) by (by repeat split).
  destruct (session_segmentation ex_hash (bs "set k 5 60 4" ++ CRLF ++ bs "ab") (bs "cd" ++ CRLF)
              ex_session ex_cache H) as [S _].
  destruct (onMessage ex_hash (bs "set k 5 60 4" ++ CRLF ++ bs "ab") ex_session ex_cache)
    as [[[rest s1] srv1]|e] eqn:E; [|vm_compute in E; discriminate E].
  vm_compute in E. injection E as <- <- <-. split; [done|]. split; [done|].
  apply S. done.
Defined.

Lemma requests_that_abort_witness :
  onMessage ex_hash (bs "delete" ++ CRLF ++ []) ex_session ex_cache = Err EAssert.
Proof. apply (requests_that_abort ex_hash ex_session ex_cache []); by repeat split. Defined.

(** The value found before a key that is too long stays in [outputBuf_], and is
    sent with the answer to the next [get]. *)
Example stale_output :
  match onMessage ex_hash (bs "set k 0 0 1" ++ CRLF ++ bs "v" ++ CRLF ++
                           bs "get k " ++ replicate 251 x61 ++ CRLF ++ bs "get x" ++ CRLF) ex_session ex_cache with
  | Ok (rest, s, _) => rest = [] /\
      actions s = [AReply (bs "STORED" ++ CRLF); AReply bad_format; ATrim 65556;
                   ASend (bs "VALUE k 0 1" ++ CRLF ++ bs "v" ++ CRLF ++ bs "END" ++ CRLF)]
  | Err _ => False
  end.
Proof. by vm_compute. Qed.
