(* ===== verification/LogFile.v ===== *)
(** * Log files (cnet/base/FileUtil.h, FileUtil.cc: AppendFile; cnet/base/LogFile.h, LogFile.cc)

    A file opened for appending, and the log that rolls from one file to the
    next by size and by day.  What [fwrite] accepts, what [time] returns and
    whether [fopen] opens the file are arguments of the operations that call them; [gmtime_r], the host name and the
    process id are parameters. *)

From Stdlib Require Import Sorted.
From S2P Require Import Prelude Cstd Timestamp.

(** ** AppendFile *)

(** [written]: the bytes stdio has accepted; [flushed]: how many of them the last
    [fflush] covered. *)
Record AppendFile := mkFile {
  filename_ : bytes;
  written : bytes;
  flushed : Z;
  writtenBytes_ : Z;
}.

(** [opened]: [fopen] gave a file. *)
Definition AppendFile_new (opened : bool) (filename : bytes) : res AppendFile :=
  assert! opened;
  Ok (mkFile filename [] 0 0).
Definition file_flush (f : AppendFile) : AppendFile :=
  mkFile (filename_ f) (written f) (zlen (written f)) (writtenBytes_ f).
Definition add_written (len : Z) (f : AppendFile) : AppendFile :=
  mkFile (filename_ f) (written f) (flushed f) (u64 (writtenBytes_ f + len)).

(** [write]: [fwrite_unlocked] accepts the first [x] bytes. *)
Definition write (logline : bytes) (x : Z) (f : AppendFile) : AppendFile :=
  mkFile (filename_ f) (written f ++ ztake x logline) (flushed f) (writtenBytes_ f).

(** The loop of [append] on what remains; [xs]: what the next calls of
    [fwrite_unlocked] return. *)
Fixpoint append_rest (xs : list Z) (rest : bytes) (f : AppendFile) : res AppendFile :=
  if zlen rest =? 0 then Ok f else
  match xs with
  | [] => Err EFuel
  | x :: xs => if x =? 0 then Ok f else append_rest xs (zdrop x rest) (write rest x f)
  end.

Definition file_append (xs : list Z) (logline : bytes) (f : AppendFile) : res AppendFile :=
  match xs with
  | [] => Err EFuel
  | n :: xs =>
      let* f := append_rest xs (zdrop n logline) (write logline n f) in
      Ok (add_written (zlen logline) f)
  end.

(** [fwrite] returns at most what it was asked to write: [fwrites] is a sequence
    of its results for [n] bytes, up to an error or the end; [takes_all], one
    without an error. *)
Fixpoint fwrites (xs : list Z) (n : Z) : Prop :=
  if n =? 0 then True else
  match xs with
  | [] => False
  | x :: xs => 0 <= x <= n /\ (x = 0 \/ fwrites xs (n - x))
  end.
Fixpoint takes_all (xs : list Z) (n : Z) : Prop :=
  if n =? 0 then True else
  match xs with
  | [] => False
  | x :: xs => 0 < x <= n /\ takes_all xs (n - x)
  end.

(** What such a sequence takes of a text. *)
Fixpoint taken_rest (xs : list Z) (rest : bytes) : bytes :=
  match xs with
  | [] => []
  | x :: xs => if (zlen rest =? 0) || (x =? 0) then [] else ztake x rest ++ taken_rest xs (zdrop x rest)
  end.
Definition taken (xs : list Z) (logline : bytes) : bytes :=
  match xs with
  | [] => []
  | n :: xs => ztake n logline ++ taken_rest xs (zdrop n logline)
  end.

Lemma append_rest_taken xs rest f : fwrites xs (zlen rest) ->
  append_rest xs rest f = Ok (mkFile (filename_ f) (written f ++ taken_rest xs rest) (flushed f) (writtenBytes_ f)).
Proof.
  revert rest f. induction xs as [|x xs IH]; intros rest f H; cbn [append_rest fwrites taken_rest] in *;
    destruct (zlen rest =? 0); try done; try (rewrite app_nil_r; by destruct f).
  destruct H as [Hx H]. cbn [orb]. destruct (Z.eqb_spec x 0) as [->|Hn]; [rewrite app_nil_r; by destruct f|].
  destruct H as [|H]; [done|]. rewrite IH by (by rewrite zlen_zdrop_le by lia). cbn. by rewrite <-app_assoc.
Qed.

Lemma takes_all_taken xs rest : takes_all xs (zlen rest) -> fwrites xs (zlen rest) /\ taken_rest xs rest = rest.
Proof.
  revert rest. induction xs as [|x xs IH]; intros rest H; cbn [takes_all fwrites taken_rest] in *;
    (destruct (Z.eqb_spec (zlen rest) 0) as [E|E]; [apply zlen_0_nil in E as ->; done|]); [done|].
  destruct H as [Hx H]. destruct (IH (zdrop x rest)) as [H1 H2]; [by rewrite zlen_zdrop_le by lia|].
  rewrite zlen_zdrop_le in H1 by lia. split; [split; [lia|by right]|]. cbn [orb].
  rewrite (proj2 (Z.eqb_neq x 0)) by lia. by rewrite H2, ztake_zdrop.
Qed.

Lemma file_append_taken n xs line f : 0 <= n <= zlen line -> fwrites xs (zlen line - n) ->
  file_append (n :: xs) line f =
    Ok (mkFile (filename_ f) (written f ++ taken (n :: xs) line) (flushed f) (u64 (writtenBytes_ f + zlen line))).
Proof.
  intros Hn H. unfold file_append. rewrite append_rest_taken by (by rewrite zlen_zdrop_le).
  cbn. by rewrite <-app_assoc.
Qed.

(** ** LogFile *)

Definition kRollPerSeconds_ : Z := 60 * 60 * 24.

(** [rolled]: the files closed so far, with the time they were opened at. *)
Record LogFile := mkLogFile {
  basename_ : bytes;
  rollSize_ : Z;
  flushInterval_ : Z;
  checkEveryN_ : Z;
  count_ : Z;
  startOfPeriod_ : Z;
  lastRoll_ : Z;
  lastFlush_ : Z;
  file_ : option AppendFile;
  rolled : list (Z * AppendFile);
}.

Definition set_file (f : AppendFile) (l : LogFile) : LogFile :=
  mkLogFile (basename_ l) (rollSize_ l) (flushInterval_ l) (checkEveryN_ l) (count_ l) (startOfPeriod_ l)
    (lastRoll_ l) (lastFlush_ l) (Some f) (rolled l).
Definition set_count (n : Z) (l : LogFile) : LogFile :=
  mkLogFile (basename_ l) (rollSize_ l) (flushInterval_ l) (checkEveryN_ l) n (startOfPeriod_ l)
    (lastRoll_ l) (lastFlush_ l) (file_ l) (rolled l).
Definition set_lastFlush (t : Z) (l : LogFile) : LogFile :=
  mkLogFile (basename_ l) (rollSize_ l) (flushInterval_ l) (checkEveryN_ l) (count_ l) (startOfPeriod_ l)
    (lastRoll_ l) t (file_ l) (rolled l).

(** What one call of [append] sees: [e_fwrite], the results of [fwrite]; [e_now],
    the time read by [append_unlocked]; [e_roll], the time read by [rollFile];
    [e_opened], whether it can open its file. *)
Record env := mkEnv { e_fwrite : list Z; e_now : Z; e_roll : Z; e_opened : bool }.

Section logfile.
Context (gmtime : Z -> tm) (hostname : bytes) (pid : Z).

Definition strftime (t : tm) : bytes :=
  bs "." ++ fmt_d (tm_year t + 1900) ++ fmt_0wd 2 (tm_mon t + 1) ++ fmt_0wd 2 (tm_mday t) ++ bs "-" ++
  fmt_0wd 2 (tm_hour t) ++ fmt_0wd 2 (tm_min t) ++ fmt_0wd 2 (tm_sec t).

Definition getLogFileName (basename : bytes) (now : Z) : bytes :=
  basename ++ strftime (gmtime now) ++ hostname ++ snprintf 32 (bs "." ++ fmt_d pid) ++ bs ".log".

(** [file_.reset] closes the file there was. *)
Definition rollFile (now : Z) (opened : bool) (l : LogFile) : res (bool * LogFile) :=
  let filename := getLogFileName (basename_ l) now in
  let start := now ÷ kRollPerSeconds_ * kRollPerSeconds_ in
  if lastRoll_ l <? now then
    let* f := AppendFile_new opened filename in
    Ok (true, mkLogFile (basename_ l) (rollSize_ l) (flushInterval_ l) (checkEveryN_ l) (count_ l) start now now
             (Some f)
             (rolled l ++ match file_ l with Some f => [(lastRoll_ l, file_flush f)] | None => [] end))
  else Ok (false, l).

Definition LogFile_new (basename : bytes) (rollSize flushInterval checkEveryN now : Z) (opened : bool) : res LogFile :=
  assert! negb (bool_decide (x2f ∈ basename));
  let* (_, l) := rollFile now opened (mkLogFile basename rollSize flushInterval checkEveryN 0 0 0 0 None []) in
  Ok l.

Definition append_unlocked (e : env) (logline : bytes) (l : LogFile) : res LogFile :=
  match file_ l with
  | None => Err EUndefined
  | Some f =>
      let* f := file_append (e_fwrite e) logline f in
      let l := set_file f l in
      if rollSize_ l <? writtenBytes_ f then
        let* (_, l) := rollFile (e_roll e) (e_opened e) l in Ok l
      else
        let l := set_count (count_ l + 1) l in
        if checkEveryN_ l <=? count_ l then
          let l := set_count 0 l in
          let thisperiod_ := e_now e ÷ kRollPerSeconds_ * kRollPerSeconds_ in
          if negb (thisperiod_ =? startOfPeriod_ l) then
            let* (_, l) := rollFile (e_roll e) (e_opened e) l in Ok l
          else if flushInterval_ l <? e_now e - lastFlush_ l
          then Ok (set_file (file_flush f) (set_lastFlush (e_now e) l))
          else Ok l
        else Ok l
  end.

(** [append] and [flush] take the mutex, if there is one, around these. *)
Definition append (e : env) (logline : bytes) (l : LogFile) : res LogFile := append_unlocked e logline l.
Definition flush (l : LogFile) : res LogFile :=
  match file_ l with
  | None => Err EUndefined
  | Some f => Ok (set_file (file_flush f) l)
  end.

(** ** What the files hold *)

(** The files in the order they were opened, and what they hold together. *)
Definition files (l : LogFile) : list (Z * AppendFile) :=
  rolled l ++ match file_ l with Some f => [(lastRoll_ l, f)] | None => [] end.
Definition log_text (l : LogFile) : bytes := concat (map (fun p => written p.2) (files l)).

(** [fwrite] does what it may; [env_full]: and it writes everything, in however
    many pieces, and the file of a roll can be opened. *)
Definition env_ok (e : env) (logline : bytes) : Prop :=
  match e_fwrite e with
  | [] => False
  | n :: xs => 0 <= n <= zlen logline /\ fwrites xs (zlen logline - n)
  end.
Definition env_full (e : env) (logline : bytes) : Prop :=
  e_opened e = true /\
  match e_fwrite e with
  | [] => False
  | n :: xs => 0 <= n <= zlen logline /\ takes_all xs (zlen logline - n)
  end.

(** What the file keeps of a line. *)
Definition kept (e : env * bytes) : bytes := taken (e_fwrite e.1) e.2.

Lemma env_full_ok e line : env_full e line -> env_ok e line /\ kept (e, line) = line.
Proof.
  unfold env_full, env_ok, kept, taken. intros [_ H]. cbn [fst snd]. destruct (e_fwrite e) as [|n xs]; [done|].
  destruct H as [Hn H]. rewrite <-zlen_zdrop_le in H by lia. apply takes_all_taken in H as [H1 H2].
  rewrite zlen_zdrop_le in H1 by lia. split; [done|]. by rewrite H2, ztake_zdrop.
Qed.

Definition appends (es : list (env * bytes)) (l : LogFile) : res LogFile :=
  res_foldl (fun l e => append e.1 e.2 l) l es.

(** What a file with the lines [g] holds, and what it counts. *)
Definition holds (g : list (env * bytes)) (f : AppendFile) : Prop :=
  written f = concat (map kept g) /\ writtenBytes_ f = u64 (zlen (concat (map snd g))).

(** The invariant: a file is open; [groups] tells which lines each file holds, and
    each counts their bytes; the files were opened at increasing times; the lines
    since the last check of the clock are fewer than [checkEveryN_]. *)
Definition log_ok (groups : list (list (env * bytes))) (l : LogFile) : Prop :=
  is_Some (file_ l) /\
  Forall2 (fun g p => holds g p.2) groups (files l) /\
  StronglySorted Z.lt (map fst (files l)) /\
  (0 < checkEveryN_ l -> 0 <= count_ l < checkEveryN_ l).

Lemma files_last l f : file_ l = Some f -> files l = rolled l ++ [(lastRoll_ l, f)].
Proof. unfold files. by intros ->. Qed.

Lemma log_ok_last groups l f : log_ok groups l -> file_ l = Some f ->
  exists gs g, groups = gs ++ [g] /\ holds g f /\ Forall2 (fun g p => holds g p.2) gs (rolled l).
Proof.
  intros (_ & F & _) Hf. rewrite (files_last l f Hf) in F.
  apply Forall2_app_inv_r in F as (gs & g & F1 & F2 & ->).
  apply Forall2_cons_inv_r in F2 as (g' & [] & H & F2 & ->); [|by inversion F2].
  by exists gs, g'.
Qed.

(** A roll that the clock allows opens one file more, or fails its assertion; one
    that it does not changes nothing. *)
Lemma rollFile_ok groups now (opened : bool) l : log_ok groups l ->
  if lastRoll_ l <? now
  then if opened
       then exists l', rollFile now opened l = Ok (true, l') /\ log_ok (groups ++ [[]]) l' /\ lastRoll_ l' = now
       else rollFile now opened l = Err EAssert
  else rollFile now opened l = Ok (false, l).
Proof.
  intros Ho. pose proof Ho as ([f Hf] & F & S & C). unfold rollFile.
  destruct (Z.ltb_spec (lastRoll_ l) now); [|done]. destruct opened; [|done]. cbn [AppendFile_new assert_ res_bind].
  eexists. split; [reflexivity|]. split; [|done].
  destruct (log_ok_last groups l f Ho Hf) as (gs & g & -> & [E1 E2] & F1). rewrite Hf.
  split; [done|]. rewrite (files_last l f Hf) in S. unfold files. cbn [rolled file_ lastRoll_ fst snd]. split; [|split].
  - apply Forall2_app; [apply Forall2_app; [done|by repeat constructor]|by repeat constructor].
  - rewrite map_app in S. rewrite !map_app. cbn in *. clear -S H.
    induction (map fst (rolled l)) as [|x xs IH]; cbn in *.
    + repeat constructor. done.
    + apply StronglySorted_inv in S as [S Hx]. constructor; [by apply IH|].
      rewrite !Forall_app in *. destruct Hx as [Hx Hl]. repeat split; try done.
      constructor; [|done]. apply Forall_cons in Hl as [Hl _]. lia.
  - done.
Qed.

Lemma log_ok_write groups g f e line fl l : log_ok (groups ++ [g]) l -> file_ l = Some f -> holds g f ->
  log_ok (groups ++ [g ++ [(e, line)]])
    (set_file (mkFile (filename_ f) (written f ++ kept (e, line)) fl (u64 (writtenBytes_ f + zlen line))) l).
Proof.
  intros Ho Hf [E1 E2]. pose proof Ho as (_ & F & S & C). destruct (log_ok_last _ l f Ho Hf) as (gs & g' & Eg & _ & F1).
  apply app_inj_tail in Eg as [<- <-]. split; [done|]. rewrite (files_last l f Hf) in S.
  unfold files. cbn [set_file file_ rolled lastRoll_]. split; [|split; [by rewrite map_app in *|done]].
  apply Forall2_app; [done|]. constructor; [|done]. unfold holds. cbn [snd written writtenBytes_].
  rewrite E1, E2, !map_app, !concat_app. cbn. rewrite !app_nil_r.
  split; [done|]. rewrite zlen_app. unfold u64. by rewrite Zplus_mod_idemp_l.
Qed.

(** Whether an append makes the log roll. *)
Definition roll_due (e : env) (logline : bytes) (f : AppendFile) (l : LogFile) : bool :=
  ((rollSize_ l <? u64 (writtenBytes_ f + zlen logline)) ||
   (checkEveryN_ l <=? count_ l + 1) &&
   negb (e_now e ÷ kRollPerSeconds_ * kRollPerSeconds_ =? startOfPeriod_ l)) &&
  (lastRoll_ l <? e_roll e).

Lemma log_ok_fields groups l l' : log_ok groups l -> file_ l' = file_ l -> rolled l' = rolled l ->
  lastRoll_ l' = lastRoll_ l -> (0 < checkEveryN_ l' -> 0 <= count_ l' < checkEveryN_ l') -> log_ok groups l'.
Proof. intros (H1 & H2 & H3 & _) Ef Er El C. unfold log_ok, files. by rewrite Ef, Er, El. Qed.

(** What an append does: the line goes to the last file, whole or in part; then
    the log rolls, or not, or cannot. *)
Definition append_outcome (groups : list (list (env * bytes))) (g : list (env * bytes)) (e : env) (line : bytes)
    (due : bool) (r : res LogFile) : Prop :=
  if due && negb (e_opened e) then r = Err EAssert
  else exists l', r = Ok l' /\ log_ok (groups ++ [g ++ [(e, line)]] ++ (if due then [[]] else [])) l'.

Lemma roll_outcome groups g e line l due : log_ok (groups ++ [g ++ [(e, line)]]) l -> due = (lastRoll_ l <? e_roll e) ->
  append_outcome groups g e line due (let* (_, l') := rollFile (e_roll e) (e_opened e) l in Ok l').
Proof.
  intros O ->. pose proof (rollFile_ok _ (e_roll e) (e_opened e) l O) as R. unfold append_outcome.
  destruct (lastRoll_ l <? e_roll e); [|rewrite R; by exists l].
  destruct (e_opened e); [|by rewrite R]. destruct R as (l' & -> & O' & _). cbn. exists l'. by rewrite <-app_assoc in O'.
Qed.

Lemma log_append_ok groups g e line l f : log_ok (groups ++ [g]) l -> file_ l = Some f -> env_ok e line ->
  append_outcome groups g e line (roll_due e line f l) (append e line l).
Proof.
  intros Ho Hf He. destruct (log_ok_last _ l f Ho Hf) as (gs & g' & Eg & Hh & F1).
  apply app_inj_tail in Eg as [<- <-]. unfold append, append_unlocked. rewrite Hf.
  unfold env_ok in He. destruct (e_fwrite e) as [|n xs] eqn:Ee; [done|]. destruct He as [Hn Hx].
  rewrite (file_append_taken n xs line f Hn Hx), <-Ee. cbn [res_bind]. change (taken (e_fwrite e) line) with (kept (e, line)).
  pose proof (log_ok_write groups g f e line (flushed f) l Ho Hf Hh) as Ho'.
  set (f' := mkFile _ _ _ _) in *. set (l1 := set_file f' l) in *. change (writtenBytes_ f') with (u64 (writtenBytes_ f + zlen line)).
  unfold roll_due. change (rollSize_ l1) with (rollSize_ l).
  destruct (rollSize_ l <? u64 (writtenBytes_ f + zlen line)); cbn [orb andb].
  { by apply roll_outcome. }
  change (count_ (set_count (count_ l1 + 1) l1)) with (count_ l + 1).
  change (checkEveryN_ (set_count (count_ l1 + 1) l1)) with (checkEveryN_ l).
  assert (Stay : forall l', log_ok (groups ++ [g ++ [(e, line)]]) l' -> append_outcome groups g e line false (Ok l')).
  { intros l' O. by exists l'. }
  destruct (Z.leb_spec (checkEveryN_ l) (count_ l + 1)); cbn [andb].
  - set (l2 := set_count 0 _). change (startOfPeriod_ l2) with (startOfPeriod_ l).
    assert (O2 : log_ok (groups ++ [g ++ [(e, line)]]) l2) by (apply (log_ok_fields _ l1); try done; cbn; lia).
    destruct (negb _); cbn [andb]; [by apply roll_outcome|]. destruct (flushInterval_ l2 <? _); apply Stay; [|done].
    pose proof (log_ok_write groups g f e line (zlen (written f ++ kept (e, line))) l Ho Hf Hh) as O3.
    apply (log_ok_fields _ _ _ O3); try done.
  - apply Stay. apply (log_ok_fields _ l1); try done. cbn. pose proof Ho as (_ & _ & _ & C). lia.
Qed.

Lemma log_ok_open groups l : log_ok groups l ->
  exists gs g f, groups = gs ++ [g] /\ file_ l = Some f /\ length (files l) = S (length gs).
Proof.
  intros Ho. pose proof Ho as ([f Hf] & F & _). destruct (log_ok_last _ l f Ho Hf) as (gs & g & -> & _).
  exists gs, g, f. split; [done|]. split; [done|]. apply Forall2_length in F. rewrite length_app in F. cbn in F. lia.
Qed.

Lemma LogFile_new_ok basename rollSize flushInterval checkEveryN now (opened : bool) : x2f ∉ basename -> 0 < now ->
  if opened
  then exists l, LogFile_new basename rollSize flushInterval checkEveryN now opened = Ok l /\ log_ok [[]] l
  else LogFile_new basename rollSize flushInterval checkEveryN now opened = Err EAssert.
Proof.
  intros Hb Hn. unfold LogFile_new. rewrite bool_decide_eq_false_2 by done. cbn [negb assert_ res_bind].
  unfold rollFile. cbn [lastRoll_ rolled file_ basename_]. rewrite (proj2 (Z.ltb_lt _ _)) by done.
  destruct opened; [|done]. cbn [AppendFile_new assert_ res_bind]. eexists. split; [reflexivity|].
  split; [done|]. unfold files. cbn.
  split; [by repeat constructor|]. split; [by repeat constructor|]. cbn. lia.
Qed.

(** The state before an append that cannot open its file. *)
Definition cannot_roll (es : list (env * bytes)) (l : LogFile) : Prop :=
  exists es1 e line es2 l1 f, es = es1 ++ (e, line) :: es2 /\ appends es1 l = Ok l1 /\
    file_ l1 = Some f /\ roll_due e line f l1 = true /\ e_opened e = false.

Lemma appends_ok es groups l : log_ok groups l -> Forall (fun e => env_ok e.1 e.2) es ->
  match appends es l with
  | Ok l' => exists groups', log_ok groups' l' /\ concat groups' = concat groups ++ es
  | Err x => x = EAssert /\ cannot_roll es l
  end.
Proof.
  revert groups l. induction es as [|[e line] es IH]; intros groups l Ho He.
  - exists groups. by rewrite app_nil_r.
  - apply Forall_cons in He as [He Hes]. destruct (log_ok_open groups l Ho) as (gs & g & f & -> & Hf & _).
    pose proof (log_append_ok gs g e line l f Ho Hf He) as A. unfold append_outcome in A.
    unfold appends. cbn [res_foldl fst snd]. destruct (roll_due e line f l && negb (e_opened e)) eqn:Ed.
    + rewrite A. split; [done|]. apply andb_true_iff in Ed as [Ed Eo%negb_true_iff].
      by exists [], e, line, es, l, f.
    + destruct A as (l1 & E & O1). rewrite E. cbn [res_bind]. pose proof (IH _ l1 O1 Hes) as R.
      unfold appends in R. destruct (res_foldl _ l1 es) as [l'|x].
      * destruct R as (gr & O' & C). exists gr. split; [done|]. rewrite C.
        rewrite !concat_app. destruct (roll_due e line f l); cbn; by rewrite ?app_nil_r, <-!app_assoc.
      * destruct R as (-> & es1 & e1 & line1 & es2 & l2 & f2 & -> & E1 & R). split; [done|].
        exists ((e, line) :: es1), e1, line1, es2, l2, f2. split; [done|]. split; [|done].
        unfold appends. cbn [res_foldl fst snd]. by rewrite E.
Qed.

Lemma log_text_groups groups l : log_ok groups l -> log_text l = concat (map kept (concat groups)).
Proof.
  intros (_ & F & _). unfold log_text. induction F as [|g p gs ps [E _] _ IH]; [done|].
  cbn. by rewrite E, IH, map_app, concat_app.
Qed.

Lemma append_text e line groups l : log_ok groups l -> env_full e line ->
  exists l' groups', append e line l = Ok l' /\ log_ok groups' l' /\ log_text l' = log_text l ++ line.
Proof.
  intros O He. pose proof He as [Hop _]. apply env_full_ok in He as [He Hk].
  destruct (log_ok_open groups l O) as (gs & g & f & -> & Hf & _).
  pose proof (log_append_ok gs g e line l f O Hf He) as A. unfold append_outcome in A. rewrite Hop, andb_false_r in A.
  destruct A as (l' & E & O'). eexists l', _. split; [done|]. split; [exact O'|].
  rewrite (log_text_groups _ _ O), (log_text_groups _ _ O').
  assert (X : concat (if roll_due e line f l then [[]] else []) = @nil (env * bytes)) by (by destruct (roll_due _ _ _ _)).
  rewrite !concat_app, X. cbn. rewrite !app_nil_r, !map_app, !concat_app. cbn. by rewrite Hk, app_nil_r, app_assoc.
Qed.

Lemma flush_ok groups l : log_ok groups l ->
  exists l', flush l = Ok l' /\ log_ok groups l' /\ log_text l' = log_text l.
Proof.
  intros O. destruct (log_ok_open groups l O) as (gs & g & f & -> & Hf & _). unfold flush. rewrite Hf.
  eexists. split; [reflexivity|].
  assert (O' : log_ok (gs ++ [g]) (set_file (file_flush f) l)).
  { pose proof O as (_ & F & Sd & C). destruct (log_ok_last _ l f O Hf) as (gs' & g' & Eg & E1 & F1).
    apply app_inj_tail in Eg as [<- <-]. split; [done|]. rewrite (files_last l f Hf) in Sd.
    unfold files. cbn [set_file file_ rolled lastRoll_]. split; [|split; [by rewrite map_app in *|done]].
    apply Forall2_app; [done|]. constructor; [exact E1|constructor]. }
  split; [done|]. by rewrite (log_text_groups _ _ O), (log_text_groups _ _ O').
Qed.

(** C35: A log, from its construction (a base name without a slash, a clock past
    1970), through any sequence of appends, whatever [fopen] and [fwrite] do.
    The process stops at an assertion exactly when a file cannot be opened: the
    first, or that of a roll that is due.  Until then there are always files
    whose lines, each in one file, are those appended, in order; of each line
    the file holds what [fwrite] took, which is the whole line unless it failed
    ([env_full]); the files were opened at increasing times and count the bytes
    of their lines, those that were not taken too.  One more append goes to the open file, and rolls exactly when the
    count is then larger than [rollSize_], or at a check of the clock, every
    [checkEveryN_] lines, the day has changed, provided the clock has advanced
    since the file was opened. *)
Theorem log_files_hold_lines (basename : bytes) (rollSize flushInterval checkEveryN now : Z) (opened : bool)
  (es : list (env * bytes))
  (Hb : x2f ∉ basename) (Hn : 0 < now) (Hes : Forall (fun e => env_ok e.1 e.2) es) :
  match LogFile_new basename rollSize flushInterval checkEveryN now opened with
  | Err x => x = EAssert /\ opened = false
  | Ok l0 =>
      opened = true /\
      match appends es l0 with
      | Err x => x = EAssert /\ cannot_roll es l0
      | Ok l =>
          (exists groups, log_ok groups l /\ concat groups = es) /\
          log_text l = concat (map kept es) /\
          (Forall (fun e => env_full e.1 e.2) es -> log_text l = concat (map snd es)) /\
          exists f, file_ l = Some f /\ forall e line, env_ok e line ->
            if roll_due e line f l && negb (e_opened e) then append e line l = Err EAssert
            else exists l', append e line l = Ok l' /\ log_text l' = log_text l ++ kept (e, line) /\
              length (files l') = (length (files l) + if roll_due e line f l then 1 else 0)%nat
      end
  end.
Proof.
  pose proof (LogFile_new_ok basename rollSize flushInterval checkEveryN now opened Hb Hn) as N.
  destruct opened; [|by rewrite N]. destruct N as (l0 & -> & O0). split; [done|].
  pose proof (appends_ok es [[]] l0 O0 Hes) as A. destruct (appends es l0) as [l|x]; [|done].
  destruct A as (groups & O & C). cbn in C. split; [by exists groups|].
  pose proof (log_text_groups _ _ O) as T. rewrite C in T. split; [done|]. split.
  - intros Hf. rewrite T. f_equal. apply map_ext_Forall. apply (Forall_impl _ _ _ Hf).
    intros [e line] H. by apply env_full_ok.
  - destruct (log_ok_open groups l O) as (gs & g & f & -> & Hf & L). exists f. split; [done|]. intros e line He.
    pose proof (log_append_ok gs g e line l f O Hf He) as A. unfold append_outcome in A.
    destruct (roll_due e line f l && negb (e_opened e)); [done|]. destruct A as (l' & E' & O'). exists l'. split; [done|].
    destruct (log_ok_open _ l' O') as (gs' & g' & f' & Eg & _ & L'). apply (f_equal length) in Eg.
    rewrite T, (log_text_groups _ _ O'), L, L', <-C. rewrite !length_app in Eg. cbn in Eg.
    rewrite !concat_app. destruct (roll_due e line f l); cbn in *; rewrite ?app_nil_r, ?map_app, ?concat_app; cbn;
      rewrite ?app_nil_r, ?map_app, ?concat_app, <-?app_assoc; cbn; rewrite ?app_nil_r; split; done || lia.
Qed.
End logfile.

Definition ex_tm (t : Z) : tm := mkTm 0 0 0 1 0 70 4 0 0 0 (bs "GMT").

(** A limit of four bytes; the disk is full for most of the second line, which
    makes the log roll; the third is written in two pieces. *)
Definition ex_lines : list (env * bytes) :=
  [(mkEnv [3] 100 100 true, bs "ab" ++ [LF]); (mkEnv [1; 0] 101 101 true, bs "cd" ++ [LF])].

Lemma log_files_hold_lines_witness :
  exists l, (let* l := LogFile_new ex_tm (bs "host") 7 (bs "log") 4 3 1024 100 true in
             appends ex_tm (bs "host") 7 ex_lines l) = Ok l /\
    log_text l = bs "ab" ++ [LF] ++ bs "c" /\
    exists l', append ex_tm (bs "host") 7 (mkEnv [1; 2] 102 102 false) (bs "ef" ++ [LF]) l = Ok l' /\
      log_text l' = log_text l ++ bs "ef" ++ [LF] /\ length (files l') = 2%nat.
Proof.
  assert (He : Forall (fun e => env_ok e.1 e.2) ex_lines).
  { unfold ex_lines. rewrite !Forall_cons, Forall_nil. repeat split; first [by vm_compute|by left]. }
  pose proof (log_files_hold_lines ex_tm (bs "host") 7 (bs "log") 4 3 1024 100 true ex_lines
    ltac:(by apply (bool_decide_unpack _)) ltac:(done) He) as T.
  destruct (LogFile_new _ _ _ _ _ _ _ _ _) as [l0|] eqn:E0; [|by vm_compute in E0]. destruct T as [_ T].
  destruct (appends _ _ _ _ l0) as [l|] eqn:E; [|vm_compute in E0; injection E0 as <-; by vm_compute in E].
  destruct T as (_ & T & _ & f & Ef & H). exists l. cbn [res_bind]. split; [exact E|]. split; [rewrite T; by vm_compute|].
  specialize (H (mkEnv [1; 2] 102 102 false) (bs "ef" ++ [LF])).
  specialize (H ltac:(repeat split; first [by vm_compute|by right; repeat split; first [by vm_compute|by right]])).
  assert (D : roll_due (mkEnv [1; 2] 102 102 false) (bs "ef" ++ [LF]) f l = false /\ length (files l) = 2%nat).
  { vm_compute in E0. injection E0 as <-. vm_compute in E. injection E as <-.
    vm_compute in Ef. injection Ef as <-. by vm_compute. }
  destruct D as [D1 D2]. rewrite D1 in H. cbn [andb] in H. destruct H as (l' & E' & T' & L'). exists l'.
  split; [exact E'|]. split; [rewrite T'; by vm_compute|]. by rewrite L', D2.
Defined.
