(* ===== verification/AsyncLogging.v ===== *)
(** * Asynchronous logging (cnet/base/AsyncLogging.h, AsyncLogging.cc)

    Any thread appends lines to the current buffer, under the mutex; the logging
    thread takes the full buffers and the current one, under the mutex too, and
    writes them without it.  Each critical section is one step; the steps of the
    threads interleave in every order.  What the log is written to is an
    interface, which LogFile.v implements. *)

From S2P Require Import Prelude Cstd Timestamp LogStream LogFile.

(** ** The interface to the output *)

(** What the logging thread needs of [LogFile]: appending a piece adds it to the
    text, whatever the environment [E] (clock and file system) does within
    [out_env]. *)
Class LogOutput (S E : Type) := {
  out_append : E -> bytes -> S -> res S;
  out_flush : S -> res S;
  out_text : S -> bytes;
  out_ready : S -> Prop;
  out_env : E -> bytes -> Prop;
  out_append_ok : forall e l s, out_ready s -> out_env e l ->
    exists s', out_append e l s = Ok s' /\ out_ready s' /\ out_text s' = out_text s ++ l;
  out_flush_ok : forall s, out_ready s ->
    exists s', out_flush s = Ok s' /\ out_ready s' /\ out_text s' = out_text s;
}.

(** ** State *)

Section async.
(** [SIZE]: the template argument of the buffers, [kLargeBuffer] in the code. *)
Context {Out Env : Type} `{HO : LogOutput Out Env} (SIZE : Z).

Record AsyncLogging := mkAsync {
  running_ : bool;
  currentBuffer_ : FixedBuffer;
  nextBuffer_ : option FixedBuffer;
  buffers_ : list FixedBuffer;
}.

(** The locals of [threadFunc]. *)
Record Backend := mkBackend {
  output : Out;
  newBuffer1 : option FixedBuffer;
  newBuffer2 : option FixedBuffer;
  buffersToWrite : list FixedBuffer;
}.

Definition AsyncLogging_new : AsyncLogging :=
  mkAsync false (FixedBuffer_new SIZE) (Some (FixedBuffer_new SIZE)) [].
(** [start] and [stop]: what they do to the state the threads share. *)
Definition start (a : AsyncLogging) : AsyncLogging :=
  mkAsync true (currentBuffer_ a) (nextBuffer_ a) (buffers_ a).
Definition stop (a : AsyncLogging) : AsyncLogging :=
  mkAsync false (currentBuffer_ a) (nextBuffer_ a) (buffers_ a).

Definition append (logline : bytes) (a : AsyncLogging) : res AsyncLogging :=
  if zlen logline <? avail (currentBuffer_ a) then
    let* b := LogStream.append logline (currentBuffer_ a) in
    Ok (mkAsync (running_ a) b (nextBuffer_ a) (buffers_ a))
  else
    let fresh := match nextBuffer_ a with Some b => b | None => FixedBuffer_new SIZE end in
    let* b := LogStream.append logline fresh in
    Ok (mkAsync (running_ a) b None (buffers_ a ++ [currentBuffer_ a])).

(** Before the loop of [threadFunc]. *)
Definition thread_begin (out : Out) (a : AsyncLogging) : res Backend :=
  assert! running_ a;
  Ok (mkBackend out (Some (FixedBuffer_new SIZE)) (Some (FixedBuffer_new SIZE)) []).

(** The assertions at the head of the loop; the second one tests [newBuffer1]
    and dereferences [newBuffer2]. *)
Definition round_asserts (b : Backend) : res unit :=
  assert! match newBuffer1 b with Some x => length_ x =? 0 | None => false end;
  match newBuffer2 b with
  | None => Err EUndefined
  | Some x =>
      assert! length_ x =? 0;
      assert! match buffersToWrite b with [] => true | _ => false end;
      Ok tt
  end.

(** The critical section once the wait is over. *)
Definition swap_buffers (a : AsyncLogging) (b : Backend) : res (AsyncLogging * Backend) :=
  match newBuffer1 b with
  | None => Err EUndefined
  | Some fresh =>
      let full := buffers_ a ++ [currentBuffer_ a] in
      let '(next, new2) := match nextBuffer_ a with
                           | None => (newBuffer2 b, None)
                           | Some n => (Some n, newBuffer2 b)
                           end in
      Ok (mkAsync (running_ a) fresh next (buffersToWrite b), mkBackend (output b) None new2 full)
  end.

Fixpoint append_pieces (oracle : nat -> bytes -> Env) (i : nat) (l : list bytes) (out : Out) : res Out :=
  match l with
  | [] => Ok out
  | p :: l => let* out := out_append (oracle i p) p out in append_pieces oracle (S i) l out
  end.

(** The notice about [n] buffers; [stamp]: the time, formatted. *)
Definition dropped_notice (stamp : bytes) (n : Z) : bytes :=
  snprintf 256 (bs "Dropped log mesages at " ++ stamp ++ bs ", " ++ fmt_d n ++ bs " larger buffers" ++ [LF]).

(** [newBuffer = buffersToWrite.pop_back(); newBuffer->reset()] if it was given
    away. *)
Definition refill (new : option FixedBuffer) (l : list FixedBuffer) : res (option FixedBuffer * list FixedBuffer) :=
  match new with
  | Some b => Ok (Some b, l)
  | None =>
      match rev l with
      | [] => Err EAssert
      | b :: r => Ok (Some (reset b), rev r)
      end
  end.

Definition write_out (stamp : bytes) (oracle : nat -> bytes -> Env) (b : Backend) : res Backend :=
  let n := zlen (buffersToWrite b) in
  assert! negb (n =? 0);
  let many := 25 <? n in
  let bufs := if many then take 2 (buffersToWrite b) else buffersToWrite b in
  let pieces := (if many then [dropped_notice stamp (n - 2)] else []) ++ map toString bufs in
  let* out := append_pieces oracle 0 pieces (output b) in
  let bufs := if 2 <? zlen bufs then take 2 bufs else bufs in
  let* (new1, bufs) := refill (newBuffer1 b) bufs in
  let* (new2, bufs) := refill (newBuffer2 b) bufs in
  let* out := out_flush out in
  Ok (mkBackend out new1 new2 []).

(** ** The threads *)

(** Where the logging thread is: at the test of [running_]; in the wait on the
    condition; past the critical section; gone. *)
Inductive phase : Set := Top | Waiting | Swapped | Finished.

#[export] Instance phase_eq_dec : EqDecision phase.
Proof. solve_decision. Defined.

(** What has become of the text appended and of the notices, in order. *)
Inductive chunk : Type :=
| Text (l : bytes)       (* appended, and written *)
| Notice (l : bytes)     (* written *)
| Lost (l : bytes).      (* appended, not written *)

(** [accepted] and [log] are ghosts. *)
Record sys := mkSys {
  async : AsyncLogging;
  backend : Backend;
  at_ : phase;
  accepted : bytes;
  log : list chunk;
}.

Inductive event : Type :=
| EAppend (line : bytes)
| EStop
| ETop                    (* the head of the loop, up to the wait or past the swap *)
| EWake                   (* notified, timed out, or for no reason *)
| EWrite (stamp : bytes) (oracle : nat -> bytes -> Env).

(** A line that no buffer can hold is not kept at all. *)
Definition kept_line (line : bytes) : bytes := if zlen line <? SIZE then line else [].

Definition write_chunks (stamp : bytes) (b : Backend) : list chunk :=
  let texts := map toString (buffersToWrite b) in
  if 25 <? zlen texts
  then [Notice (dropped_notice stamp (zlen texts - 2)); Text (concat (take 2 texts)); Lost (concat (drop 2 texts))]
  else [Text (concat texts)].

Definition swap_step (s : sys) : res sys :=
  let* (a, b) := swap_buffers (async s) (backend s) in
  Ok (mkSys a b Swapped (accepted s) (log s)).

(** An event of a thread that is not there changes nothing. *)
Definition exec (ev : event) (s : sys) : res sys :=
  match ev with
  | EAppend line =>
      let* a := append line (async s) in
      Ok (mkSys a (backend s) (at_ s) (accepted s ++ kept_line line) (log s))
  | EStop => Ok (mkSys (stop (async s)) (backend s) (at_ s) (accepted s) (log s))
  | ETop =>
      if negb (bool_decide (at_ s = Top)) then Ok s
      else if running_ (async s) then
        let* _ := round_asserts (backend s) in
        match buffers_ (async s) with
        | [] => Ok (mkSys (async s) (backend s) Waiting (accepted s) (log s))
        | _ => swap_step s
        end
      else
        let b := backend s in
        let* out := out_flush (output b) in
        Ok (mkSys (async s) (mkBackend out (newBuffer1 b) (newBuffer2 b) (buffersToWrite b)) Finished
              (accepted s) (log s))
  | EWake => if bool_decide (at_ s = Waiting) then swap_step s else Ok s
  | EWrite stamp oracle =>
      if negb (bool_decide (at_ s = Swapped)) then Ok s
      else
        let* b := write_out stamp oracle (backend s) in
        Ok (mkSys (async s) b Top (accepted s) (log s ++ write_chunks stamp (backend s)))
  end.

Definition run (evs : list event) (s : sys) : res sys := res_foldl (fun s ev => exec ev s) s evs.

(** [start()], and the logging thread up to its loop. *)
Definition started (out : Out) : res sys :=
  let a := start AsyncLogging_new in
  let* b := thread_begin out a in
  Ok (mkSys a b Top [] []).

(** ** No line is lost, except as announced *)

Definition written_text (l : list chunk) : bytes :=
  concat (map (fun c => match c with Text t | Notice t => t | Lost _ => [] end) l).
Definition accepted_text (l : list chunk) : bytes :=
  concat (map (fun c => match c with Text t | Lost t => t | Notice _ => [] end) l).

(** What has been appended and neither written nor given up. *)
Definition pending (s : sys) : bytes :=
  concat (map toString (buffersToWrite (backend s) ++ buffers_ (async s) ++ [currentBuffer_ (async s)])).

Definition buf_ok (b : FixedBuffer) : Prop := wf b /\ zlen (data_ b) = SIZE.
Definition fresh (b : FixedBuffer) : Prop := buf_ok b /\ cur_ b = 0.

Record inv (out0 : bytes) (s : sys) : Prop := mkInv {
  inv_ready : out_ready (output (backend s));
  inv_written : out_text (output (backend s)) = out0 ++ written_text (log s);
  inv_accepted : accepted s = accepted_text (log s) ++ pending s;
  inv_current : buf_ok (currentBuffer_ (async s));
  inv_buffers : Forall buf_ok (buffers_ (async s)) /\ Forall buf_ok (buffersToWrite (backend s));
  inv_next : match nextBuffer_ (async s) with Some b => fresh b | None => buffers_ (async s) <> [] end;
  inv_phase : match at_ s with
    | Top | Waiting => (exists b, newBuffer1 (backend s) = Some b /\ fresh b) /\
                       (exists b, newBuffer2 (backend s) = Some b /\ fresh b) /\ buffersToWrite (backend s) = []
    | Swapped => newBuffer1 (backend s) = None /\ buffersToWrite (backend s) <> [] /\
                 match newBuffer2 (backend s) with
                 | Some b => fresh b
                 | None => (2 <= length (buffersToWrite (backend s)))%nat
                 end
    | Finished => buffersToWrite (backend s) = []
    end;
}.

Context (HS : 0 < SIZE < 2 ^ 31).
#[local] Set Default Proof Using "Type + HS".

Lemma fresh_new : fresh (FixedBuffer_new SIZE).
Proof.
  assert (L : zlen (data_ (FixedBuffer_new SIZE)) = SIZE) by (cbn; rewrite zlen_replicate; lia).
  split; [|done]. split; [|done]. split; [cbn in *; lia|]. rewrite L. lia.
Qed.

Lemma fresh_reset b : buf_ok b -> fresh (reset b).
Proof. intros [[H1 H2] L]. split; [|done]. split; [|done]. split; cbn in *; lia. Qed.

Lemma fresh_text b : fresh b -> toString b = [] /\ length_ b = 0.
Proof.
  intros [[W L] C]. rewrite toString_wf by done. unfold length_. rewrite C, ztake_nonpos by lia. done.
Qed.

(** What the buffer that receives a line holds afterwards. *)
Lemma front_append_spec line a : 0 <= zlen line < 2 ^ 31 -> buf_ok (currentBuffer_ a) ->
  match nextBuffer_ a with Some b => fresh b | None => True end ->
  exists a', append line a = Ok a' /\ running_ a' = running_ a /\ buf_ok (currentBuffer_ a') /\
    ((buffers_ a' = buffers_ a /\ nextBuffer_ a' = nextBuffer_ a /\
        toString (currentBuffer_ a') = toString (currentBuffer_ a) ++ line /\ kept_line line = line) \/
     (buffers_ a' = buffers_ a ++ [currentBuffer_ a] /\ nextBuffer_ a' = None /\
        toString (currentBuffer_ a') = kept_line line)).
Proof.
  intros Hl [W L] Hn. unfold append, kept_line. pose proof W as [H1 H2]. rewrite avail_wf by done.
  destruct (Z.ltb_spec (zlen line) (zlen (data_ (currentBuffer_ a)) - cur_ (currentBuffer_ a))) as [Hlt|Hge].
  - destruct (LogStream.append_spec line _ W) as (b & -> & Wb & Lb & Tb). cbn [res_bind].
    rewrite (proj2 (Z.ltb_lt _ _)) in Tb by lia.
    eexists. split; [reflexivity|]. split; [done|]. split; [split; cbn; [done|congruence]|]. left.
    rewrite (proj2 (Z.ltb_lt _ _)) by lia. done.
  - set (fr := match nextBuffer_ a with Some b => b | None => FixedBuffer_new SIZE end).
    assert (Hf : fresh fr) by (subst fr; destruct (nextBuffer_ a); [done|apply fresh_new]).
    destruct (fresh_text fr Hf) as [T0 _]. destruct Hf as [[Wf Lf] Cf].
    destruct (LogStream.append_spec line fr Wf) as (b & -> & Wb & Lb & Tb). cbn [res_bind].
    eexists. split; [reflexivity|]. split; [done|]. split; [split; cbn; [done|congruence]|]. right.
    split; [done|]. split; [done|]. cbn. rewrite Tb, T0, Lf, Cf, Z.sub_0_r. done.
Qed.

Lemma texts_app (l1 l2 : list FixedBuffer) :
  concat (map toString (l1 ++ l2)) = concat (map toString l1) ++ concat (map toString l2).
Proof. by rewrite map_app, concat_app. Qed.

Lemma append_inv out0 line s : inv out0 s -> 0 <= zlen line < 2 ^ 31 ->
  exists s', exec (EAppend line) s = Ok s' /\ inv out0 s' /\ at_ s' = at_ s.
Proof.
  intros [I1 I2 I3 I4 [I5 I5'] I6 I7] Hl.
  destruct (front_append_spec line (async s) Hl I4) as (a' & E & _ & B & D); [by destruct (nextBuffer_ _)|].
  unfold exec. rewrite E. cbn [res_bind]. eexists. split; [reflexivity|]. split; [|done].
  assert (P : accepted s ++ kept_line line = accepted_text (log s) ++
     concat (map toString (buffersToWrite (backend s) ++ buffers_ a' ++ [currentBuffer_ a']))).
  { rewrite I3. unfold pending. rewrite !texts_app. cbn. rewrite !app_nil_r.
    destruct D as [(-> & _ & -> & ->)|(-> & _ & ->)]; rewrite ?texts_app; cbn;
      by rewrite ?app_nil_r, <-?app_assoc. }
  destruct (at_ s) eqn:Ea; constructor; cbn [async backend at_ accepted log]; try done;
    try (split; [|done]; destruct D as [(-> & _)|(-> & _)]; [done|by rewrite Forall_app, Forall_singleton]);
    try (destruct D as [(Hb & -> & _)|(Hb & -> & _)]; [by rewrite Hb|rewrite Hb; by destruct (buffers_ (async s))]).
Qed.

Lemma swap_inv out0 s : inv out0 s -> at_ s = Top \/ at_ s = Waiting ->
  exists s', swap_step s = Ok s' /\ inv out0 s' /\ at_ s' = Swapped /\ accepted s' = accepted s /\ log s' = log s /\
    buffersToWrite (backend s') = buffers_ (async s) ++ [currentBuffer_ (async s)] /\
    concat (map toString (buffersToWrite (backend s'))) = pending s /\
    buffers_ (async s') = [] /\ toString (currentBuffer_ (async s')) = [].
Proof.
  intros [I1 I2 I3 I4 [I5 I5'] I6 I7] Ha.
  assert (I7' : (exists b, newBuffer1 (backend s) = Some b /\ fresh b) /\
                (exists b, newBuffer2 (backend s) = Some b /\ fresh b) /\ buffersToWrite (backend s) = [])
    by (by destruct Ha as [E|E]; rewrite E in I7).
  destruct I7' as ((b1 & E1 & F1) & (b2 & E2 & F2) & E3). unfold swap_step, swap_buffers. rewrite E1, E2, E3.
  destruct (fresh_text b1 F1) as [T1 _]. unfold pending. rewrite E3 in *.
  destruct (nextBuffer_ (async s)) as [nx|] eqn:En; cbn [res_bind]; eexists; (split; [reflexivity|]);
    (split; [|split_and!; done]); constructor; cbn [async backend at_ accepted log output newBuffer1 newBuffer2 buffersToWrite
      currentBuffer_ nextBuffer_ buffers_]; try done; try apply F1;
    try (rewrite I3; unfold pending; cbn [async backend buffersToWrite buffers_ currentBuffer_];
         rewrite E3, !texts_app; cbn; by rewrite T1, ?app_nil_r);
    try (split; [done|]; by rewrite Forall_app, Forall_singleton);
    (split; [done|]; split; [by destruct (buffers_ (async s))|]); [done|].
  rewrite length_app. cbn. destruct (buffers_ (async s)); [done|cbn; lia].
Qed.

Lemma append_pieces_ok oracle i l out : out_ready out -> (forall i p, out_env (oracle i p) p) ->
  exists out', append_pieces oracle i l out = Ok out' /\ out_ready out' /\ out_text out' = out_text out ++ concat l.
Proof.
  intros Ho He. revert i out Ho. induction l as [|p l IH]; intros i out Ho; cbn [append_pieces concat].
  - exists out. by rewrite app_nil_r.
  - destruct (out_append_ok (oracle i p) p out Ho (He i p)) as (o1 & -> & R1 & T1). cbn [res_bind].
    destruct (IH (S i) o1 R1) as (o2 & E2 & R2 & T2). exists o2. split; [done|]. split; [done|].
    by rewrite T2, T1, app_assoc.
Qed.

Lemma write_out_ok stamp oracle b : out_ready (output b) -> (forall i p, out_env (oracle i p) p) ->
  newBuffer1 b = None -> buffersToWrite b <> [] -> Forall buf_ok (buffersToWrite b) ->
  match newBuffer2 b with Some f => fresh f | None => (2 <= length (buffersToWrite b))%nat end ->
  exists b', write_out stamp oracle b = Ok b' /\ out_ready (output b') /\
    out_text (output b') = out_text (output b) ++ written_text (write_chunks stamp b) /\
    (exists f, newBuffer1 b' = Some f /\ fresh f) /\ (exists f, newBuffer2 b' = Some f /\ fresh f) /\
    buffersToWrite b' = [].
Proof.
  intros Ho He E1 E2 Hb H2. unfold write_out. set (l := buffersToWrite b) in *.
  assert (Hn : zlen l <> 0) by (intros Hz; apply zlen_0_nil in Hz; done).
  rewrite (proj2 (Z.eqb_neq _ _)) by done. cbn [negb assert_ res_bind]. cbv zeta.
  set (bufs := if 25 <? zlen l then take 2 l else l).
  set (pieces := _ ++ map toString bufs).
  destruct (append_pieces_ok oracle 0 pieces (output b) Ho He) as (o1 & -> & R1 & T1). cbn [res_bind].
  assert (Hbufs : (if 2 <? zlen bufs then take 2 bufs else bufs) = take 2 l).
  { subst bufs. unfold zlen. destruct (Z.ltb_spec 25 (Z.of_nat (length l))).
    - rewrite take_take. change (Nat.min 2 2) with 2%nat. by destruct (2 <? _).
    - destruct (Z.ltb_spec 2 (Z.of_nat (length l))); [done|]. by rewrite take_ge by lia. }
  rewrite Hbufs, E1.
  assert (Hp : out_text o1 = out_text (output b) ++ written_text (write_chunks stamp b)).
  { rewrite T1. f_equal. subst pieces bufs. unfold write_chunks. fold l.
    assert (Hl : zlen (map toString l) = zlen l) by (unfold zlen; by rewrite length_map). rewrite Hl.
    unfold written_text. destruct (25 <? zlen l); cbn; rewrite ?app_nil_r; [|done].
    by rewrite <-firstn_map. }
  clear Hbufs T1. clearbody l pieces. clear Hn.
  destruct (out_flush_ok o1 R1) as (o2 & F2 & R2 & T2).
  destruct l as [|x [|y r]]; [done| |]; cbn [take refill rev app].
  - destruct (newBuffer2 b) as [f|]; [|cbn in H2; lia]. cbn [res_bind refill]. rewrite F2. cbn [res_bind].
    eexists. split; [reflexivity|]. cbn. split; [done|]. split; [congruence|]. apply Forall_cons in Hb as [Hx _].
    split; [exists (reset x); split; [done|by apply fresh_reset]|]. split; [by exists f|done].
  - apply Forall_cons in Hb as [Hx Hb]. apply Forall_cons in Hb as [Hy _].
    destruct (newBuffer2 b) as [f|]; cbn [res_bind refill rev app]; rewrite F2; cbn [res_bind];
      (eexists; split; [reflexivity|]); cbn; (split; [done|]); (split; [congruence|]);
      (split; [exists (reset y); split; [done|by apply fresh_reset]|]); (split; [|done]);
      [by exists f|exists (reset x); split; [done|by apply fresh_reset]].
Qed.

Lemma accepted_chunks stamp b :
  accepted_text (write_chunks stamp b) = concat (map toString (buffersToWrite b)).
Proof.
  unfold write_chunks, accepted_text. destruct (25 <? _); cbn; rewrite ?app_nil_r; [|done].
  by rewrite <-concat_app, take_drop.
Qed.

(** The lines are shorter than an [int] holds; the environment of a write is one
    the output copes with. *)
Definition event_ok (ev : event) : Prop :=
  match ev with
  | EAppend line => 0 <= zlen line < 2 ^ 31
  | EWrite _ oracle => forall i p, out_env (oracle i p) p
  | _ => True
  end.

Lemma written_text_app l1 l2 : written_text (l1 ++ l2) = written_text l1 ++ written_text l2.
Proof. unfold written_text. by rewrite map_app, concat_app. Qed.
Lemma accepted_text_app l1 l2 : accepted_text (l1 ++ l2) = accepted_text l1 ++ accepted_text l2.
Proof. unfold accepted_text. by rewrite map_app, concat_app. Qed.

Lemma write_inv out0 stamp oracle s : inv out0 s -> at_ s = Swapped -> (forall i p, out_env (oracle i p) p) ->
  exists s', exec (EWrite stamp oracle) s = Ok s' /\ inv out0 s' /\ at_ s' = Top /\
    accepted s' = accepted s /\ async s' = async s /\
    log s' = log s ++ write_chunks stamp (backend s) /\ buffersToWrite (backend s') = [].
Proof.
  intros [I1 I2 I3 I4 [I5 I5'] I6 I7] Ha He. rewrite Ha in I7. destruct I7 as (E1 & E2 & H2).
  destruct (write_out_ok stamp oracle (backend s) I1 He E1 E2 I5' H2) as (b' & Eb & R & T & F1 & F2 & W).
  unfold exec. rewrite bool_decide_eq_true_2 by done. cbn [negb]. rewrite Eb. cbn [res_bind].
  eexists. split; [reflexivity|]. split; [|done].
  constructor; cbn [async backend at_ accepted log]; try done.
  - by rewrite T, I2, <-app_assoc, written_text_app.
  - rewrite I3. unfold pending. cbn [async backend]. rewrite W, accepted_text_app, accepted_chunks.
    by rewrite <-app_assoc, (texts_app (buffersToWrite _)).
  - split; [done|]. by rewrite W.
Qed.

Lemma async_exec_inv out0 ev s : inv out0 s -> event_ok ev -> exists s', exec ev s = Ok s' /\ inv out0 s'.
Proof.
  intros I He. destruct ev as [line| | | |stamp oracle].
  - destruct (append_inv out0 line s I He) as (s' & E & I' & _). by exists s'.
  - eexists. split; [reflexivity|]. destruct I as [I1 I2 I3 I4 I5 I6 I7]. by constructor.
  - unfold exec. destruct (decide (at_ s = Top)) as [Ea|Ea];
      [rewrite bool_decide_eq_true_2 by done|rewrite bool_decide_eq_false_2 by done; by exists s]. cbn [negb].
    pose proof I as [I1 I2 I3 I4 I5 I6 I7]. rewrite Ea in I7.
    destruct I7 as ((b1 & E1 & F1) & (b2 & E2 & F2) & E3). destruct (running_ (async s)).
    + unfold round_asserts. rewrite E1, E2, E3, (proj2 (fresh_text b1 F1)), (proj2 (fresh_text b2 F2)).
      cbn [Z.eqb assert_ res_bind]. destruct (buffers_ (async s)) eqn:Eb.
      * eexists. split; [reflexivity|]. constructor; cbn [async backend at_ accepted log]; try done; try (by rewrite Eb).
        split; [by exists b1|]. split; [by exists b2|done].
      * destruct (swap_inv out0 s I (or_introl Ea)) as (s' & Es & I' & _). by exists s'.
    + destruct (out_flush_ok _ I1) as (o & -> & R & T). cbn [res_bind]. eexists. split; [reflexivity|].
      constructor; cbn [async backend at_ accepted log output buffersToWrite]; try done. congruence.
  - unfold exec. destruct (decide (at_ s = Waiting)) as [Ea|Ea];
      [rewrite bool_decide_eq_true_2 by done|rewrite bool_decide_eq_false_2 by done; by exists s].
    destruct (swap_inv out0 s I (or_intror Ea)) as (s' & Es & I' & _). by exists s'.
  - destruct (decide (at_ s = Swapped)) as [Ea|Ea].
    + destruct (write_inv out0 stamp oracle s I Ea He) as (s' & E & I' & _). by exists s'.
    + unfold exec. rewrite bool_decide_eq_false_2 by done. by exists s.
Qed.

Lemma started_inv out : out_ready out -> exists s, started out = Ok s /\ inv (out_text out) s /\ at_ s = Top.
Proof.
  intros Ho. unfold started, thread_begin. cbn. eexists. split; [reflexivity|]. split; [|done].
  destruct (fresh_text _ fresh_new) as [T _].
  constructor; cbn [async backend at_ accepted log output buffersToWrite currentBuffer_ nextBuffer_ buffers_]; try done.
  - by rewrite app_nil_r.
  - apply fresh_new.
  - apply fresh_new.
  - split; [|split; [|done]]; (eexists; split; [reflexivity|apply fresh_new]).
Qed.

Lemma async_run_inv out0 evs s : inv out0 s -> Forall event_ok evs -> exists s', run evs s = Ok s' /\ inv out0 s'.
Proof.
  revert s. induction evs as [|ev evs IH]; intros s I He; [by exists s|]. apply Forall_cons in He as [He Hes].
  destruct (async_exec_inv out0 ev s I He) as (s1 & E1 & I1). unfold run. cbn [res_foldl]. rewrite E1. cbn [res_bind].
  by apply IH.
Qed.

Lemma accepted_lines evs s s' : run evs s = Ok s' ->
  accepted s' = accepted s ++
    concat (map (fun ev => match ev with EAppend line => kept_line line | _ => [] end) evs).
Proof.
  revert s. induction evs as [|ev evs IH]; intros s Hr; [injection Hr as <-; by rewrite app_nil_r|].
  unfold run in Hr. cbn [res_foldl] in Hr. destruct (exec ev s) as [s1|] eqn:E1; [|done]. cbn [res_bind] in Hr.
  rewrite (IH s1 Hr). cbn [map concat]. rewrite app_assoc. f_equal. clear IH Hr.
  assert (W : forall s2, swap_step s = Ok s2 -> accepted s2 = accepted s).
  { unfold swap_step. intros s2 Hw. destruct (swap_buffers _ _) as [[a b]|]; [|done]. by injection Hw as <-. }
  destruct ev; unfold exec in E1.
  - destruct (append _ _); [|done]. by injection E1 as <-.
  - injection E1 as <-. by rewrite app_nil_r.
  - rewrite app_nil_r. destruct (negb _); [by injection E1 as <-|]. destruct (running_ _).
    + destruct (round_asserts _); [cbn [res_bind] in E1|done].
      destruct (buffers_ _); [by injection E1 as <-|by apply W].
    + destruct (out_flush _); [|done]. by injection E1 as <-.
  - rewrite app_nil_r. destruct (bool_decide _); [by apply W|by injection E1 as <-].
  - rewrite app_nil_r. destruct (negb _); [by injection E1 as <-|].
    destruct (write_out _ _ _); [|done]. by injection E1 as <-.
Qed.

Lemma finished_stays evs s : at_ s = Finished -> Forall event_ok evs ->
  match nextBuffer_ (async s) with Some b => fresh b | None => True end -> buf_ok (currentBuffer_ (async s)) ->
  exists s', run evs s = Ok s' /\ backend s' = backend s /\ exists more, pending s' = pending s ++ more.
Proof.
  revert s. induction evs as [|ev evs IH]; intros s Ha He Hn Hc.
  { exists s. split; [done|]. split; [done|]. exists []. by rewrite app_nil_r. }
  apply Forall_cons in He as [He Hes].
  assert (St : exists s1, exec ev s = Ok s1 /\ at_ s1 = Finished /\ backend s1 = backend s /\
    match nextBuffer_ (async s1) with Some b => fresh b | None => True end /\ buf_ok (currentBuffer_ (async s1)) /\
    exists more, pending s1 = pending s ++ more).
  { assert (Same : exists more, pending s = pending s ++ more) by (exists []; by rewrite app_nil_r).
    destruct ev as [line| | | |stamp oracle]; unfold exec; rewrite ?bool_decide_eq_false_2 by congruence; cbn [negb];
      try (by exists s); try (by eexists).
    destruct (front_append_spec line (async s) He Hc Hn) as (a' & -> & _ & B & D). cbn [res_bind].
    eexists. split; [reflexivity|]. cbn [at_ backend async]. split; [done|]. split; [done|].
    unfold pending. cbn [async backend].
    destruct D as [(Hb & Hx & Ht & Hk)|(Hb & Hx & Ht)]; rewrite Hx, Hb; (split; [done|]); (split; [done|]).
    - exists line. rewrite !texts_app. cbn. by rewrite Ht, !app_nil_r, <-!app_assoc.
    - exists (kept_line line). rewrite !texts_app. cbn. by rewrite Ht, !app_nil_r, <-!app_assoc. }
  destruct St as (s1 & E1 & A1 & B1 & N1 & C1 & m1 & P1).
  destruct (IH s1 A1 Hes N1 C1) as (s' & E & B & m & P). exists s'. unfold run. cbn [res_foldl]. rewrite E1.
  split; [exact E|]. split; [congruence|]. exists (m1 ++ m). by rewrite P, P1, app_assoc.
Qed.

(** C16: Between the threads that append and the thread that writes, whatever the
    interleaving, over an output that takes what it is given (for a [LogFile]:
    its files can be opened and written), no assertion fails, no null buffer is
    dereferenced, and every line is accounted for.  What the log holds
    is the pieces written and the notices; what was appended is, in order, the
    pieces written, the pieces announced as dropped, and what is still in the
    buffers.  Not among it are the lines that no buffer can hold, of which
    nothing is kept.  Whenever the writing thread waits, waking it up writes
    everything appended so far, with nothing dropped if there are at most 25
    buffers.  What is still in the buffers when the thread has finished is never
    written. *)
Theorem async_log_in_order (out : Out) (evs : list event) (Ho : out_ready out) (He : Forall event_ok evs) :
  exists s0 s, started out = Ok s0 /\ run evs s0 = Ok s /\
    out_text (output (backend s)) = out_text out ++ written_text (log s) /\
    accepted s = accepted_text (log s) ++ pending s /\
    accepted s = concat (map (fun ev => match ev with EAppend line => kept_line line | _ => [] end) evs) /\
    (at_ s = Waiting -> forall stamp oracle, (forall i p, out_env (oracle i p) p) ->
       exists s', run [EWake; EWrite stamp oracle] s = Ok s' /\ pending s' = [] /\ accepted s' = accepted s /\
         (zlen (buffers_ (async s)) < 25 -> log s' = log s ++ [Text (pending s)])) /\
    (at_ s = Finished -> forall evs2, Forall event_ok evs2 -> exists s2, run evs2 s = Ok s2 /\
       out_text (output (backend s2)) = out_text (output (backend s)) /\ exists more, pending s2 = pending s ++ more).
Proof.
  destruct (started_inv out Ho) as (s0 & E0 & I0 & _). destruct (async_run_inv _ evs s0 I0 He) as (s & E & I).
  exists s0, s. split; [done|]. split; [done|]. split; [apply I|]. split; [apply I|]. split.
  { rewrite (accepted_lines _ _ _ E). unfold started in E0. cbn in E0. by injection E0 as <-. }
  split.
  2:{ intros Ha evs2 He2. destruct (finished_stays evs2 s Ha He2) as (s2 & E2 & B2 & m & P2);
        [destruct I as [_ _ _ _ _ In _]; by destruct (nextBuffer_ (async s))|apply I|].
      exists s2. split; [done|]. split; [by rewrite B2|]. by exists m. }
  intros Ha stamp oracle Hor. destruct (swap_inv _ s I (or_intror Ha)) as (s1 & E1 & I1 & A1 & C1 & L1 & W1 & P1 & B1 & T1).
  destruct (write_inv _ stamp oracle s1 I1 A1 Hor) as (s2 & E2 & I2 & A2 & C2 & S2 & L2 & W2).
  exists s2. split.
  { unfold run. cbn [res_foldl]. unfold exec at 1. rewrite bool_decide_eq_true_2 by done.
    rewrite E1. cbn [res_bind]. by rewrite E2. }
  split; [|split; [congruence|]].
  - unfold pending. rewrite W2, S2, B1. cbn. by rewrite T1.
  - intros Hn. rewrite L2, L1. f_equal. unfold write_chunks.
    assert (Hz : zlen (map toString (buffersToWrite (backend s1))) = zlen (buffers_ (async s)) + 1)
      by (rewrite W1; unfold zlen; rewrite length_map, length_app; cbn; lia).
    rewrite (proj2 (Z.ltb_ge 25 _)) by lia. by rewrite P1.
Qed.

(** Stopping loses the last lines: in every reachable state in which the
    writing thread is about to test [running_], after [stop] it leaves without
    writing what is pending, and nothing that happens later writes it. *)
Theorem stop_loses_pending (out : Out) (evs : list event) (s0 s : sys) (Ho : out_ready out)
  (He : Forall event_ok evs) (H0 : started out = Ok s0) (Hs : run evs s0 = Ok s) (Ha : at_ s = Top) :
  exists s1, run [EStop; ETop] s = Ok s1 /\ at_ s1 = Finished /\
    out_text (output (backend s1)) = out_text (output (backend s)) /\
    forall evs2, Forall event_ok evs2 -> exists s2, run evs2 s1 = Ok s2 /\
      out_text (output (backend s2)) = out_text (output (backend s)) /\
      exists more, pending s2 = pending s ++ more.
Proof.
  destruct (started_inv out Ho) as (s0' & E0 & I0 & _). rewrite H0 in E0. injection E0 as <-.
  destruct (async_run_inv _ evs s0 I0 He) as (s' & E & I). rewrite Hs in E. injection E as <-.
  pose proof I as [I1 I2 I3 I4 I5 I6 I7]. destruct (out_flush_ok _ I1) as (o & Eo & R & T).
  eexists. split.
  { unfold run. cbn [res_foldl exec res_bind async at_ stop running_ backend]. rewrite Ha, bool_decide_eq_true_2 by done.
    cbn [negb]. rewrite Eo. reflexivity. }
  cbn [at_ backend output]. split; [done|]. split; [done|]. intros evs2 He2.
  match goal with |- context [run evs2 ?x] => destruct (finished_stays evs2 x eq_refl He2) as (s2 & E2 & B2 & m & P2) end.
  - cbn. by destruct (nextBuffer_ (async s)).
  - exact I4.
  - exists s2. split; [done|]. split; [by rewrite B2|]. exists m. exact P2.
Qed.
End async.

(** ** LogFile is such an output *)

#[export] Program Instance log_file_output (gmtime : Z -> tm) (hostname : bytes) (pid : Z) : LogOutput LogFile env := {
  out_append := LogFile.append gmtime hostname pid;
  out_flush := flush;
  out_text := log_text;
  out_ready l := exists groups, log_ok groups l;
  out_env := env_full;
}.
Next Obligation.
  intros gmtime hostname pid e l s [groups O] He.
  destruct (append_text gmtime hostname pid e l groups s O He) as (s' & gs & E & O' & T). exists s'. eauto.
Qed.
Next Obligation.
  intros gmtime hostname pid s [groups O]. destruct (flush_ok groups s O) as (s' & E & O' & T). exists s'. eauto.
Qed.

Definition ex_out : LogOutput LogFile env := log_file_output ex_tm (bs "host") 7.
Definition ex_log : LogFile :=
  match LogFile_new ex_tm (bs "host") 7 (bs "log") 1000 3 1024 100 true with
  | Ok l => l
  | Err _ => mkLogFile [] 0 0 0 0 0 0 0 None []
  end.
Definition ex_oracle (i : nat) (p : bytes) : env := mkEnv [zlen p] 100 100 true.

Lemma ex_log_ready : out_ready (LogOutput := ex_out) ex_log.
Proof.
  destruct (LogFile_new_ok ex_tm (bs "host") 7 (bs "log") 1000 3 1024 100 true) as (l & E & O);
    [by apply (bool_decide_unpack _)|done|].
  exists [[]]. unfold ex_log. by rewrite E.
Qed.

Lemma ex_oracle_ok i p : env_full (ex_oracle i p) p.
Proof. split; [done|]. cbn. split; [pose proof (zlen_nonneg p); lia|]. by rewrite Z.sub_diag. Qed.

(** Two buffers of eight bytes: the third line makes the first one full. *)
Lemma async_log_in_order_witness :
  exists s0 s, started 8 ex_log = Ok s0 /\
    run (HO := ex_out) 8 [ETop; EAppend (bs "one"); EAppend (bs "two"); EAppend (bs "six"); EWake; EWrite [] ex_oracle] s0 = Ok s /\
    log_text (output (backend s)) = bs "onetwosix".
Proof.
  destruct (async_log_in_order (HO := ex_out) 8 ltac:(lia) ex_log
    [ETop; EAppend (bs "one"); EAppend (bs "two"); EAppend (bs "six"); EWake; EWrite [] ex_oracle] ex_log_ready)
    as (s0 & s & E0 & E & T & _).
  - rewrite !Forall_cons, Forall_nil. split_and!; try done; intros i p; apply ex_oracle_ok.
  - exists s0, s. split; [exact E0|]. split; [exact E|]. etransitivity; [exact T|].
    vm_compute in E0. injection E0 as <-. vm_compute in E. injection E as <-. by vm_compute.
Defined.

Lemma stop_loses_pending_witness :
  match started 8 ex_log with
  | Ok s0 => match run (HO := ex_out) 8 [EAppend (bs "bye")] s0 with
             | Ok s => pending s = bs "bye" /\
                 exists s1, run (HO := ex_out) 8 [EStop; ETop] s = Ok s1 /\ at_ s1 = Finished /\
                   log_text (output (backend s1)) = []
             | Err _ => False
             end
  | Err _ => False
  end.
Proof.
  destruct (started 8 ex_log) as [s0|] eqn:E0; [|by vm_compute in E0].
  destruct (run (HO := ex_out) 8 [EAppend (bs "bye")] s0) as [s|] eqn:E;
    [|vm_compute in E0; injection E0 as <-; by vm_compute in E].
  destruct (stop_loses_pending (HO := ex_out) 8 ltac:(lia) ex_log [EAppend (bs "bye")] s0 s ex_log_ready)
    as (s1 & E1 & A1 & T1 & _); [by repeat constructor|exact E0|exact E| |].
  - vm_compute in E0. injection E0 as <-. vm_compute in E. by injection E as <-.
  - vm_compute in E0. injection E0 as <-. vm_compute in E. injection E as <-. split; [by vm_compute|].
    exists s1. split; [exact E1|]. split; [exact A1|]. etransitivity; [exact T1|]. by vm_compute.
Defined.
