(* ===== verification/Stat.v ===== *)
(** * Statistics of the sudoku servers (examples/sudoku/stat.h, percentile.h)

    The sliding window of requests and latencies per second, over
    [boost::circular_buffer]s of sixty seconds; percentiles by the nearest rank,
    and the histogram that is saved. *)

From Stdlib Require Import Sorted.
From S2P Require Import Prelude Cstd Timestamp LogStream.

(** ** SudokuStat *)

Definition kSeconds : Z := 60.

Record SudokuStat := mkStat {
  lastSecond_ : Z;
  requests_ : list Z;
  latencies_ : list Z;
  totalRequests_ : Z;
  totalResponses_ : Z;
  totalSolved_ : Z;
  badRequests_ : Z;
  droppedRequests_ : Z;
  totalLatency_ : Z;
  badLatency_ : Z;
}.

Definition SudokuStat_new : SudokuStat := mkStat 0 [] [] 0 0 0 0 0 0 0.

(** [circular_buffer::push_back]: a full buffer loses its front. *)
Definition push_back (x : Z) (l : list Z) : list Z :=
  if zlen l <? kSeconds then l ++ [x] else tl l ++ [x].

(** [l[i] += d]; outside the buffer, undefined, like a sum that overflows. *)
Definition add_at (i : Z) (d : Z) (l : list Z) : res (list Z) :=
  match (if i <? 0 then None else l !! Z.to_nat i) with
  | None => Err EUndefined
  | Some x => let* y := int64_ (x + d) in Ok (<[Z.to_nat i := y]> l)
  end.
Definition add_back (d : Z) (l : list Z) : res (list Z) := add_at (zlen l - 1) d l.

Definition set_window (last : Z) (req lat : list Z) (s : SudokuStat) : SudokuStat :=
  mkStat last req lat (totalRequests_ s) (totalResponses_ s) (totalSolved_ s) (badRequests_ s)
    (droppedRequests_ s) (totalLatency_ s) (badLatency_ s).

Definition recordRequest (s : SudokuStat) : res SudokuStat :=
  let* n := int64_ (totalRequests_ s + 1) in
  Ok (mkStat (lastSecond_ s) (requests_ s) (latencies_ s) n (totalResponses_ s) (totalSolved_ s)
        (badRequests_ s) (droppedRequests_ s) (totalLatency_ s) (badLatency_ s)).
Definition recordBadRequest (s : SudokuStat) : res SudokuStat :=
  let* n := int64_ (badRequests_ s + 1) in
  Ok (mkStat (lastSecond_ s) (requests_ s) (latencies_ s) (totalRequests_ s) (totalResponses_ s) (totalSolved_ s)
        n (droppedRequests_ s) (totalLatency_ s) (badLatency_ s)).
Definition recordDroppedRequest (s : SudokuStat) : res SudokuStat :=
  let* n := int64_ (droppedRequests_ s + 1) in
  Ok (mkStat (lastSecond_ s) (requests_ s) (latencies_ s) (totalRequests_ s) (totalResponses_ s) (totalSolved_ s)
        (badRequests_ s) n (totalLatency_ s) (badLatency_ s)).

(** [droppedRequests_] is not among what is cleared. *)
Definition reset (s : SudokuStat) : SudokuStat := mkStat 0 [] [] 0 0 0 0 (droppedRequests_ s) 0 0.

(** [while (lastSecond_ < second)]: [n] turns. *)
Fixpoint push_zeros (n : nat) (req lat : list Z) : list Z * list Z :=
  match n with
  | O => (req, lat)
  | S n => push_zeros n (push_back 0 req) (push_back 0 lat)
  end.

Definition recordResponse (now receive : Timestamp) (solved : bool) (s : SudokuStat) : res SudokuStat :=
  let second := secondsSinceEpoch now in
  let* elapsed_us := int64_ (now - receive) in
  assert! zlen (requests_ s) =? zlen (latencies_ s);
  let* responses := int64_ (totalResponses_ s + 1) in
  let* solves := (if solved then int64_ (totalSolved_ s + 1) else Ok (totalSolved_ s)) in
  if elapsed_us <? 0 then
    let* bad := int64_ (badLatency_ s + 1) in
    Ok (mkStat (lastSecond_ s) (requests_ s) (latencies_ s) (totalRequests_ s) responses solves
          (badRequests_ s) (droppedRequests_ s) (totalLatency_ s) bad)
  else
    let* total := int64_ (totalLatency_ s + elapsed_us) in
    let s := mkStat (lastSecond_ s) (requests_ s) (latencies_ s) (totalRequests_ s) responses solves
               (badRequests_ s) (droppedRequests_ s) total (badLatency_ s) in
    let last := lastSecond_ s in
    let firstSecond := last - zlen (requests_ s) + 1 in
    let bump last req lat :=
      let* req := add_back 1 req in
      let* lat := add_back elapsed_us lat in
      assert! zlen req =? zlen lat;
      Ok (set_window last req lat s) in
    if last =? second then bump last (requests_ s) (latencies_ s)
    else if (last + 1 =? second) || (last =? 0) then
      bump second (push_back 0 (requests_ s)) (push_back 0 (latencies_ s))
    else if last <? second then
      if second <? last + kSeconds then
        let '(req, lat) := push_zeros (Z.to_nat (second - last)) (requests_ s) (latencies_ s) in
        bump second req lat
      else bump second [0] [0]
    else if firstSecond <=? second then
      let idx := u64 (second - firstSecond) in
      assert! idx <? zlen (requests_ s);
      let* req := add_at idx 1 (requests_ s) in
      let* lat := add_at idx elapsed_us (latencies_ s) in
      assert! zlen req =? zlen lat;
      Ok (set_window last req lat s)
    else
      assert! second <? firstSecond;
      assert! zlen (requests_ s) =? zlen (latencies_ s);
      Ok s.

Definition sum (l : list Z) : Z := foldr Z.add 0 l.

(** [report]: what is streamed. *)
Definition report_items (queueSize : Z) (s : SudokuStat) : list item :=
  let line name n := [ICString (Some name); IInt n; IChar LF] in
  let requests := sum (requests_ s) in
  let latency := sum (latencies_ s) in
  line (bs "task_queue_size ") queueSize ++
  line (bs "total_requests ") (totalRequests_ s) ++
  line (bs "total_responses ") (totalResponses_ s) ++
  line (bs "total_solved ") (totalSolved_ s) ++
  line (bs "bad_requests ") (badRequests_ s) ++
  line (bs "dropped_requests ") (droppedRequests_ s) ++
  line (bs "latency_sum_us ") (totalLatency_ s) ++
  (if 0 <? badLatency_ s then line (bs "bad_latency") (badLatency_ s) else []) ++
  line (bs "last_second ") (lastSecond_ s) ++
  [ICString (Some (bs "requests_per_second"))] ++
  concat (map (fun n => [IChar SP; IInt n]) (requests_ s)) ++ [IChar LF] ++
  line (bs "requests_60s ") requests ++
  [ICString (Some (bs "latency_sum_us_per_second"))] ++
  concat (map (fun n => [IChar SP; IInt n]) (latencies_ s)) ++ [IChar LF] ++
  line (bs "latency_sum_us_60s ") latency ++
  line (bs "latency_us_60s ") (if requests =? 0 then 0 else latency ÷ requests) ++
  line (bs "latency_us_avg ") (if totalResponses_ s =? 0 then 0 else totalLatency_ s ÷ totalResponses_ s).

Definition report (queueSize : Z) (s : SudokuStat) : res bytes :=
  let* buf := stream_all (report_items queueSize s) (FixedBuffer_new kSmallBuffer) in
  Ok (toString buf).

(** ** Percentile *)

Definition getPercentile (latencies : list Z) (percent : Z) : res Z :=
  assert! 0 <? zlen latencies;
  let* idx := (if 0 <? percent then
                 let idx := u64 (u64 (u64 (zlen latencies * percent) + 99) / 100 - 1) in
                 assert! idx <? zlen latencies; Ok idx
               else Ok 0) in
  match latencies !! Z.to_nat idx with Some x => Ok x | None => Err EUndefined end.

(** The loop of [save] over the latencies, with the lines it writes: the low end
    of a bucket, its count, and the count up to it. *)
Definition kInterval : Z := 5.
Fixpoint save_loop (l : list Z) (low count sum : Z) : res (list (Z * Z * Z)) :=
  match l with
  | [] => Ok [(low, count, sum + count)]
  | x :: l =>
      if x <? low + kInterval then save_loop l low (count + 1) sum
      else
        let sum := sum + count in
        let low' := x ÷ kInterval * kInterval in
        assert! x <? low' + kInterval;
        let* rest := save_loop l low' 1 sum in
        Ok ((low, count, sum) :: rest)
  end.

(** The lines of the histogram, after the assertion that they count everything. *)
Definition save (latencies : list Z) : res (list (Z * Z * Z)) :=
  match latencies with
  | [] => Ok []
  | x :: _ =>
      let* lines := save_loop latencies (x ÷ kInterval * kInterval) 0 0 in
      assert! match last lines with Some (_, _, s) => s =? zlen latencies | None => false end;
      Ok lines
  end.

(** ** The window counts the responses of its seconds *)

(** [f] at the [n] seconds up to [last], the oldest first. *)
Fixpoint window (f : Z -> Z) (last : Z) (n : nat) : list Z :=
  match n with
  | O => []
  | S n => f (last - Z.of_nat n) :: window f last n
  end.

Lemma window_length f last n : length (window f last n) = n.
Proof. induction n; cbn; congruence. Qed.
Lemma window_zlen f last n : zlen (window f last n) = Z.of_nat n.
Proof. unfold zlen. by rewrite window_length. Qed.

Lemma window_ext f g last n : (forall s, f s = g s) -> window f last n = window g last n.
Proof. intros E. induction n; cbn; [done|]. by rewrite E, IHn. Qed.

Lemma window_ext_range f g last n : (forall s, last - Z.of_nat n < s -> f s = g s) -> window f last n = window g last n.
Proof.
  induction n as [|n IH]; intros E; cbn [window]; [done|]. rewrite E, IH; [done| |lia]. intros s Hs. apply E. lia.
Qed.

Lemma window_snoc f last n : window f last n ++ [f (last + 1)] = window f (last + 1) (S n).
Proof.
  induction n as [|n IH]; [cbn; by rewrite Z.sub_0_r|]. cbn [window app]. rewrite IH. cbn [window].
  f_equal. f_equal. lia.
Qed.

Lemma window_push f last n : (n <= 60)%nat -> f (last + 1) = 0 ->
  push_back 0 (window f last n) = window f (last + 1) (Nat.min 60 (S n)).
Proof.
  intros Hn Hf. unfold push_back, kSeconds. rewrite window_zlen. destruct (Z.ltb_spec (Z.of_nat n) 60).
  - rewrite <-Hf, window_snoc, Nat.min_r by lia. done.
  - assert (n = 60)%nat as -> by lia. change (Nat.min 60 61) with 60%nat.
    rewrite <-Hf. change (tl (window f last 60)) with (window f last 59). apply window_snoc.
Qed.

Lemma window_push_zeros f last n k : (1 <= n <= 60)%nat -> (forall s, last < s -> f s = 0) ->
  forall g, (forall s, last < s -> g s = 0) ->
  exists m, (1 <= m <= 60)%nat /\ push_zeros k (window f last n) (window g last n) =
    (window f (last + Z.of_nat k) m, window g (last + Z.of_nat k) m).
Proof.
  intros Hn Hf g Hg. revert last n Hn Hf Hg. induction k as [|k IH]; intros last n Hn Hf Hg.
  - exists n. cbn. rewrite Z.add_0_r. done.
  - cbn [push_zeros]. rewrite !window_push by (lia || apply Hf || apply Hg; lia).
    destruct (IH (last + 1) (Nat.min 60 (S n))) as (m & Hm & E); [lia|intros; apply Hf; lia|intros; apply Hg; lia|].
    exists m. split; [done|]. rewrite E. do 2 f_equal; lia.
Qed.

Lemma window_lookup f last n i : (i < n)%nat ->
  window f last n !! i = Some (f (last - Z.of_nat n + 1 + Z.of_nat i)).
Proof.
  revert i. induction n as [|n IH]; intros i Hi; [lia|]. cbn [window].
  destruct i as [|i]; cbn [lookup list_lookup]; [f_equal; f_equal; lia|].
  etransitivity; [apply IH; lia|]. f_equal. f_equal. lia.
Qed.

Lemma window_insert f last n i d : (i < n)%nat ->
  <[i := f (last - Z.of_nat n + 1 + Z.of_nat i) + d]> (window f last n) =
  window (fun s => f s + if s =? last - Z.of_nat n + 1 + Z.of_nat i then d else 0) last n.
Proof.
  revert i. induction n as [|n IH]; intros i Hi; [lia|]. cbn [window].
  set (t := last - Z.of_nat (S n) + 1 + Z.of_nat i).
  assert (Ht : t = last - Z.of_nat n + Z.of_nat i) by (subst t; lia).
  destruct i as [|i]; cbn [insert list_insert].
  - replace (last - Z.of_nat n) with t by lia. rewrite Z.eqb_refl. f_equal.
    clear IH Hi. assert (G : forall m, (m <= n)%nat -> window f last m =
      window (fun s => f s + (if s =? t then d else 0)) last m).
    { induction m as [|m IHm]; intros Hm; [done|]. cbn [window]. rewrite (proj2 (Z.eqb_neq _ _)) by lia.
      rewrite Z.add_0_r, <-IHm by lia. done. }
    by apply G.
  - rewrite (proj2 (Z.eqb_neq (last - Z.of_nat n) t)) by lia. rewrite Z.add_0_r. f_equal.
    replace t with (last - Z.of_nat n + 1 + Z.of_nat i) by lia. apply IH. lia.
Qed.

Lemma add_window f last n second d : last - Z.of_nat n < second <= last -> - 2 ^ 63 <= f second + d < 2 ^ 63 ->
  add_at (second - (last - Z.of_nat n + 1)) d (window f last n) =
    Ok (window (fun s => f s + if s =? second then d else 0) last n).
Proof.
  intros Hs Hb. unfold add_at. rewrite (proj2 (Z.ltb_ge _ _)) by lia.
  set (i := Z.to_nat (second - (last - Z.of_nat n + 1))).
  assert (Hi : last - Z.of_nat n + 1 + Z.of_nat i = second) by lia.
  rewrite window_lookup by lia. rewrite Hi, int64_small by done. cbn [res_bind].
  rewrite <-Hi, window_insert by lia. done.
Qed.

(** A response: the time now, the time of the request, and whether it solved the
    puzzle; [good]: the second and the latency of those that took no negative
    time. *)
Definition response : Type := Z * Z * bool.
Definition good (h : list response) : list (Z * Z) :=
  omap (fun '(now, receive, _) => if now - receive <? 0 then None else Some (secondsSinceEpoch now, now - receive)) h.

Definition requests_at (g : list (Z * Z)) (s : Z) : Z := sum (map (fun p => if s =? p.1 then 1 else 0) g).
Definition latency_at (g : list (Z * Z)) (s : Z) : Z := sum (map (fun p => if s =? p.1 then p.2 else 0) g).

Definition record (s : SudokuStat) (r : response) : res SudokuStat := recordResponse r.1.1 r.1.2 r.2 s.

Lemma sum_app l1 l2 : sum (l1 ++ l2) = sum l1 + sum l2.
Proof. unfold sum. induction l1; cbn [foldr app] in *; lia. Qed.

Lemma at_bounds g s : Forall (fun p => 0 <= p.2) g ->
  0 <= requests_at g s <= zlen g /\ 0 <= latency_at g s <= sum (map snd g).
Proof.
  unfold requests_at, latency_at. induction 1 as [|p g Hp _ IH]; cbn [map sum foldr] in *; [done|].
  rewrite zlen_cons. fold (sum (map (fun p => if s =? p.1 then 1 else 0) g)) (sum (map (fun p => if s =? p.1 then p.2 else 0) g)) (sum (map snd g)).
  destruct (s =? p.1); lia.
Qed.

Lemma at_future g s last : Forall (fun p => p.1 <= last) g -> last < s ->
  requests_at g s = 0 /\ latency_at g s = 0.
Proof.
  unfold requests_at, latency_at. induction 1 as [|p g Hp _ IH]; intros Hs; [done|]. destruct (IH Hs) as [E1 E2].
  cbn. rewrite (proj2 (Z.eqb_neq _ _)) by lia. unfold sum in *. lia.
Qed.

Lemma at_snoc g p s :
  requests_at (g ++ [p]) s = requests_at g s + (if s =? p.1 then 1 else 0) /\
  latency_at (g ++ [p]) s = latency_at g s + (if s =? p.1 then p.2 else 0).
Proof. unfold requests_at, latency_at. rewrite !map_app, !sum_app. cbn. destruct (s =? p.1); lia. Qed.

Definition solved_in (h : list response) : Z := zlen (filter (fun r => r.2 = true) h).
Definition late_in (h : list response) : Z := zlen (filter (fun r => r.1.1 - r.1.2 < 0) h).

(** The state after the responses [h]. *)
Record stat_ok (h : list response) (s : SudokuStat) : Prop := mkStatOk {
  ok_window : exists n, (n <= 60)%nat /\
    requests_ s = window (requests_at (good h)) (lastSecond_ s) n /\
    latencies_ s = window (latency_at (good h)) (lastSecond_ s) n /\
    (lastSecond_ s = 0 /\ n = 0%nat \/ 0 < lastSecond_ s /\ (1 <= n)%nat);
  ok_seconds : Forall (fun p => 0 < p.1 <= lastSecond_ s /\ 0 <= p.2) (good h);
  ok_last : lastSecond_ s = foldr Z.max 0 (map fst (good h));
  ok_totals : totalResponses_ s = zlen h /\ totalSolved_ s = solved_in h /\ badLatency_ s = late_in h /\
    totalLatency_ s = sum (map snd (good h));
}.

Definition response_ok (r : response) : Prop :=
  0 < secondsSinceEpoch r.1.1 /\ - 2 ^ 63 <= r.1.1 - r.1.2 < 2 ^ 63.

Lemma good_snoc h now receive b : good (h ++ [(now, receive, b)]) =
  good h ++ (if now - receive <? 0 then [] else [(secondsSinceEpoch now, now - receive)]).
Proof. unfold good. rewrite omap_app. cbn. by destruct (_ <? _). Qed.

Lemma solved_snoc h r : solved_in (h ++ [r]) = solved_in h + if r.2 then 1 else 0.
Proof.
  unfold solved_in. rewrite filter_app, zlen_app. destruct r as [[now rec] b]. cbn.
  unfold filter at 2. cbn. by destruct b.
Qed.
Lemma late_snoc h r : late_in (h ++ [r]) = late_in h + if r.1.1 - r.1.2 <? 0 then 1 else 0.
Proof.
  unfold late_in. rewrite filter_app, zlen_app. destruct r as [[now rec] b]. cbn [fst snd].
  unfold filter at 2. cbn. destruct (Z.ltb_spec (now - rec) 0); case_decide; done || lia.
Qed.

Lemma foldr_max_snoc l x : foldr Z.max 0 (l ++ [x]) = Z.max (foldr Z.max 0 l) (Z.max x 0).
Proof. induction l; cbn in *; lia. Qed.

Lemma solved_bound h : 0 <= solved_in h <= zlen h.
Proof. unfold solved_in, zlen. split; [lia|]. apply Nat2Z.inj_le, length_filter. Qed.
Lemma late_bound h : 0 <= late_in h <= zlen h.
Proof. unfold late_in, zlen. split; [lia|]. apply Nat2Z.inj_le, length_filter. Qed.
Lemma good_bound h : zlen (good h) <= zlen h.
Proof.
  unfold good, zlen. induction h as [|[[now rec] b] h IH]; [done|]. cbn in *. destruct (_ <? _); cbn; lia.
Qed.

(** The windows after one more good response, counted at its second. *)
Lemma bump_window g last n p : (n <= 60)%nat -> last - Z.of_nat n < p.1 <= last ->
  Forall (fun p => 0 <= p.2) g -> 0 <= p.2 -> zlen g + 1 < 2 ^ 63 -> sum (map snd g) + p.2 < 2 ^ 63 ->
  let i := p.1 - (last - Z.of_nat n + 1) in
  add_at i 1 (window (requests_at g) last n) = Ok (window (requests_at (g ++ [p])) last n) /\
  add_at i p.2 (window (latency_at g) last n) = Ok (window (latency_at (g ++ [p])) last n).
Proof.
  intros Hn Hp Hg Hp2 B1 B2 i. destruct (at_bounds g p.1 Hg) as [R L].
  split; subst i; rewrite add_window by lia; f_equal; apply window_ext; intros s;
    [by rewrite (proj1 (at_snoc g p s))|by rewrite (proj2 (at_snoc g p s))].
Qed.

Lemma recordResponse_ok h s now receive b : stat_ok h s -> response_ok (now, receive, b) ->
  zlen h + 1 < 2 ^ 63 -> sum (map snd (good (h ++ [(now, receive, b)]))) < 2 ^ 63 ->
  exists s', recordResponse now receive b s = Ok s' /\ stat_ok (h ++ [(now, receive, b)]) s'.
Proof.
  intros [(n & Hn & Hr & Hl & Hlast) Hs Hm (T1 & T2 & T3 & T4)] [Hsec Hel] B1 B2. cbn [fst snd] in Hsec, Hel.
  pose proof (solved_bound h). pose proof (late_bound h). pose proof (good_bound h).
  assert (Hg : Forall (fun p => 0 <= p.2) (good h)) by (eapply Forall_impl; [exact Hs|]; cbn; tauto).
  assert (Hz : 0 <= sum (map snd (good h))) by (pose proof (at_bounds _ 0 Hg); lia).
  unfold recordResponse. rewrite int64_small by done. cbn [res_bind].
  assert (Eq : (zlen (requests_ s) =? zlen (latencies_ s)) = true) by (rewrite Hr, Hl, !window_zlen; apply Z.eqb_refl).
  rewrite Eq. cbn [assert_ res_bind].
  rewrite int64_small by (pose proof (zlen_nonneg h); lia). cbn [res_bind].
  assert (Es : (if b then int64_ (totalSolved_ s + 1) else Ok (totalSolved_ s)) = Ok (totalSolved_ s + if b then 1 else 0))
    by (destruct b; [rewrite int64_small by lia; done|by rewrite Z.add_0_r]).
  rewrite Es. cbn [res_bind]. rewrite good_snoc in B2.
  assert (T : forall l' x, zlen l' = x -> zlen (l' ++ [(now, receive, b)]) = x + 1) by (intros ?? <-; by rewrite zlen_app).
  destruct (Z.ltb_spec (now - receive) 0) as [Hneg|Hpos].
  { rewrite int64_small by lia. cbn [res_bind]. eexists. split; [reflexivity|].
    constructor; rewrite ?good_snoc, (proj2 (Z.ltb_lt (now - receive) 0) Hneg), app_nil_r; cbn [lastSecond_ requests_ latencies_
      totalResponses_ totalSolved_ badLatency_ totalLatency_]; [by exists n|done|done|].
    rewrite zlen_app, solved_snoc, late_snoc. cbn [fst snd]. rewrite (proj2 (Z.ltb_lt (now - receive) 0) Hneg).
    change (zlen [(now, receive, b)]) with 1. lia. }
  rewrite map_app, sum_app in B2. cbn [map sum foldr snd] in B2.
  rewrite int64_small by lia. cbn [res_bind]. set (p := (secondsSinceEpoch now, now - receive)).
  set (st := mkStat _ _ _ _ _ _ _ _ _ _). set (second := secondsSinceEpoch now) in *.
  assert (Fin : forall m, (m <= 60)%nat -> (1 <= m)%nat -> forall last, 0 < last -> last = Z.max (lastSecond_ s) second ->
    stat_ok (h ++ [(now, receive, b)])
      (set_window last (window (requests_at (good h ++ [p])) last m) (window (latency_at (good h ++ [p])) last m) st)).
  { intros m Hm60 Hm1 last Hlast0 Hlast'.
    constructor; rewrite ?good_snoc, (proj2 (Z.ltb_ge (now - receive) 0) Hpos);
      cbn [lastSecond_ requests_ latencies_ totalResponses_ totalSolved_ badLatency_ totalLatency_ set_window st].
    - exists m. split; [done|]. split; [done|]. split; [done|]. by right.
    - rewrite Forall_app, Forall_singleton. split; [|cbn; fold second; lia].
      eapply Forall_impl; [exact Hs|]. cbn. lia.
    - rewrite map_app. cbn [map fst]. fold second. rewrite foldr_max_snoc. lia.
    - rewrite zlen_app, solved_snoc, late_snoc, map_app, sum_app. cbn [fst snd].
      rewrite (proj2 (Z.ltb_ge (now - receive) 0) Hpos). cbn. change (zlen [(now, receive, b)]) with 1. lia. }
  assert (Gs : forall t, lastSecond_ s < t -> requests_at (good h) t = 0 /\ latency_at (good h) t = 0).
  { intros t Ht. apply (at_future _ _ (lastSecond_ s)); [|done]. eapply Forall_impl; [exact Hs|]. cbn. lia. }
  assert (Bump : forall m, (1 <= m <= 60)%nat -> lastSecond_ s <= second ->
    (let* req := add_back 1 (window (requests_at (good h)) second m) in
     let* lat := add_back (now - receive) (window (latency_at (good h)) second m) in
     assert! zlen req =? zlen lat; Ok (set_window second req lat st)) =
    Ok (set_window second (window (requests_at (good h ++ [p])) second m) (window (latency_at (good h ++ [p])) second m) st)).
  { intros m Hm' Hle. unfold add_back. rewrite !window_zlen.
    destruct (bump_window (good h) second m p) as [E1 E2]; try done; cbn [fst snd p]; fold second; try lia.
    cbn [fst snd p] in E1, E2. fold second in E1, E2.
    replace (second - (second - Z.of_nat m + 1)) with (Z.of_nat m - 1) in E1, E2 by lia.
    rewrite E1, E2. cbn [res_bind]. by rewrite !window_zlen, Z.eqb_refl. }
  assert (Fut : lastSecond_ s < second -> [0] = window (requests_at (good h)) second 1 /\
                                         [0] = window (latency_at (good h)) second 1).
  { intros Ht. cbn. rewrite Z.sub_0_r. destruct (Gs second Ht) as [-> ->]. done. }
  cbv beta zeta. change (lastSecond_ st) with (lastSecond_ s). change (requests_ st) with (requests_ s).
  change (latencies_ st) with (latencies_ s). 
  assert (Est : set_window (lastSecond_ s) (requests_ s) (latencies_ s) st = st) by reflexivity.
  set (last := lastSecond_ s) in *. rewrite Hr, Hl. clearbody st.
  destruct (Z.eqb_spec last second) as [El|El].
  { rewrite El in *. rewrite Bump by lia. eexists. split; [reflexivity|]. apply Fin; lia. }
  destruct ((last + 1 =? second) || (last =? 0)) eqn:En.
  { destruct Hlast as [[L0 ->]|[L0 Hn1]].
    - destruct (Fut ltac:(lia)) as [F1 F2].
      change (push_back 0 (window (requests_at (good h)) last 0)) with [0].
      change (push_back 0 (window (latency_at (good h)) last 0)) with [0].
      pose proof (Bump 1%nat ltac:(lia) ltac:(lia)) as B. rewrite <-F1, <-F2 in B. rewrite B.
      eexists. split; [reflexivity|]. apply Fin; lia.
    - assert (second = last + 1) as E1 by lia. rewrite !window_push by (lia || apply Gs; lia).
      rewrite <-E1, Bump by lia. eexists. split; [reflexivity|]. apply Fin; lia. }
  assert (Hn1 : 0 < last /\ (1 <= n)%nat) by lia. destruct (Z.ltb_spec last second) as [Hj|Hj].
  { destruct (Z.ltb_spec second (last + kSeconds)).
    - destruct (window_push_zeros (requests_at (good h)) last n (Z.to_nat (second - last)) ltac:(lia)
                  ltac:(intros; by apply Gs) (latency_at (good h)) ltac:(intros; by apply Gs)) as (m & Hm' & E).
      rewrite E. replace (last + Z.of_nat (Z.to_nat (second - last))) with second by lia.
      rewrite Bump by lia. eexists. split; [reflexivity|]. apply Fin; lia.
    - destruct (Fut Hj) as [F1 F2].
      pose proof (Bump 1%nat ltac:(lia) ltac:(lia)) as B. rewrite <-F1, <-F2 in B. rewrite B.
      eexists. split; [reflexivity|]. apply Fin; lia. }
  rewrite window_zlen. destruct (Z.leb_spec (last - Z.of_nat n + 1) second) as [Hin|Hout].
  - rewrite u64_small by lia. rewrite (proj2 (Z.ltb_lt (second - _) _)) by lia. cbn [assert_ res_bind].
    destruct (bump_window (good h) last n p) as [E1 E2]; try done; cbn [fst snd p]; fold second; try lia.
    cbn [fst snd p] in E1, E2. fold second in E1, E2. rewrite E1, E2. cbn [res_bind].
    rewrite !window_zlen, Z.eqb_refl. cbn [assert_ res_bind]. eexists. split; [reflexivity|]. apply Fin; lia.
  - rewrite (proj2 (Z.ltb_lt second _)) by lia. rewrite !window_zlen, Z.eqb_refl. cbn [assert_ res_bind].
    eexists. split; [reflexivity|].
    assert (E : forall t, last - Z.of_nat n < t ->
      requests_at (good h ++ [p]) t = requests_at (good h) t /\ latency_at (good h ++ [p]) t = latency_at (good h) t).
    { intros t Ht. rewrite (proj1 (at_snoc _ p t)), (proj2 (at_snoc _ p t)). cbn [fst snd p]. fold second.
      rewrite (proj2 (Z.eqb_neq t second)) by lia. lia. }
    pose proof (Fin n Hn ltac:(lia) last ltac:(lia) ltac:(lia)) as F.
    rewrite !(window_ext_range (requests_at (good h ++ [p])) (requests_at (good h)) last n),
      !(window_ext_range (latency_at (good h ++ [p])) (latency_at (good h)) last n) in F
      by (intros t Ht; apply (E t); lia).
    rewrite <-Hr, <-Hl, Est in F. exact F.
Qed.

Lemma stat_new_ok : stat_ok [] SudokuStat_new.
Proof. constructor; cbn; try done. exists O. split_and!; try done; [lia|by left]. Qed.

Lemma good_app h1 h2 : good (h1 ++ h2) = good h1 ++ good h2.
Proof. apply omap_app. Qed.
Lemma good_nonneg h : 0 <= sum (map snd (good h)).
Proof.
  unfold good. induction h as [|[[now rec] b] h IH]; [done|]. cbn in *.
  destruct (Z.ltb_spec (now - rec) 0); [done|]. cbn. unfold sum in IH. lia.
Qed.

Lemma records_ok h h' s : stat_ok h s -> Forall response_ok h' ->
  zlen (h ++ h') < 2 ^ 63 -> sum (map snd (good (h ++ h'))) < 2 ^ 63 ->
  exists s', res_foldl record s h' = Ok s' /\ stat_ok (h ++ h') s'.
Proof.
  revert h s. induction h' as [|r h' IH]; intros h s Hs Hr B1 B2; [exists s; by rewrite app_nil_r|].
  apply Forall_cons in Hr as [Hr Hr'].
  assert (Ea : h ++ r :: h' = (h ++ [r]) ++ h') by (by rewrite <-app_assoc).
  rewrite Ea in B1, B2 |- *.
  assert (St : exists s1, record s r = Ok s1 /\ stat_ok (h ++ [r]) s1).
  { destruct r as [[now rec] b]. apply recordResponse_ok; [done|done| |].
    - rewrite !zlen_app in B1. change (zlen [(now, rec, b)]) with 1 in B1. pose proof (zlen_nonneg h'). lia.
    - unfold response in *. rewrite good_app, map_app, sum_app in B2. pose proof (good_nonneg h'). lia. }
  destruct St as (s1 & E1 & O1). cbn [res_foldl]. rewrite E1. cbn [res_bind]. by apply IH.
Qed.

(** The statistics after any sequence of responses (at times past the first
    second, whose number and total latency an [int64_t] holds): no assertion
    fails and no buffer is indexed outside, however the clock jumps; with [n]
    the sixty seconds at most that the window covers, up to the latest second
    seen, each slot holds the number of responses of its second and the sum of
    their latencies, for all the responses there were; the totals count all of
    them, the responses that took a negative time apart. *)
Theorem stat_window (h : list response) (Hr : Forall response_ok h) (B1 : zlen h < 2 ^ 63)
  (B2 : sum (map snd (good h)) < 2 ^ 63) :
  exists s n, res_foldl record SudokuStat_new h = Ok s /\ (n <= 60)%nat /\
    lastSecond_ s = foldr Z.max 0 (map fst (good h)) /\ (good h <> [] -> (1 <= n)%nat) /\
    requests_ s = window (requests_at (good h)) (lastSecond_ s) n /\
    latencies_ s = window (latency_at (good h)) (lastSecond_ s) n /\
    totalResponses_ s = zlen h /\ totalSolved_ s = solved_in h /\ badLatency_ s = late_in h /\
    totalLatency_ s = sum (map snd (good h)).
Proof.
  destruct (records_ok [] h SudokuStat_new stat_new_ok Hr B1 B2) as (s & E & [(n & Hn & R & L & C) Hs Hm T]).
  exists s, n. split_and!; try done; try apply T. intros Hg. destruct C as [[C0 _]|[_ C1]]; [|done].
  cbn [app] in Hs. destruct (good h) as [|p g]; [done|]. apply Forall_cons in Hs as [Hp _]. lia.
Qed.

(** ** Percentiles are nearest ranks *)

Lemma sorted_le_nth (l : list Z) i x : StronglySorted Z.le l -> l !! i = Some x ->
  Forall (fun y => y <= x) (take (S i) l) /\ Forall (fun y => x <= y) (drop i l).
Proof.
  intros S. revert i. induction S as [|y l S IH Hy]; intros i Hi; [done|].
  destruct i as [|i]; cbn in Hi; cbn [take drop].
  - injection Hi as ->. split; [by repeat constructor|]. constructor; [lia|done].
  - destruct (IH i Hi) as [F1 F2]. split; [|done]. constructor; [|done].
    rewrite Forall_forall in Hy. apply Hy. by eapply list_elem_of_lookup_2.
Qed.

Lemma filter_all {A} (P : A -> Prop) `{forall x, Decision (P x)} l : Forall P l -> filter P l = l.
Proof. induction 1 as [|x l Hx _ IH]; [done|]. by rewrite filter_cons_True, IH by done. Qed.
Lemma filter_none_of {A} (P : A -> Prop) `{forall x, Decision (P x)} l : Forall (fun x => ~ P x) l -> filter P l = [].
Proof. induction 1 as [|x l Hx _ IH]; [done|]. by rewrite filter_cons_False, IH by done. Qed.

Lemma rank_counts (l : list Z) i x : StronglySorted Z.le l -> l !! i = Some x ->
  Z.of_nat (S i) <= zlen (filter (fun y => y <= x) l) /\ zlen (filter (fun y => y < x) l) <= Z.of_nat i.
Proof.
  intros S Hi. destruct (sorted_le_nth l i x S Hi) as [F1 F2]. pose proof (lookup_lt_Some _ _ _ Hi) as Hlt. split.
  - rewrite <-(take_drop (Datatypes.S i) l), filter_app, zlen_app, (filter_all _ _ F1).
    unfold zlen. rewrite length_take. lia.
  - rewrite <-(take_drop i l) at 1. rewrite filter_app, zlen_app, (filter_none_of _ (drop i l)), zlen_nil.
    + unfold zlen. pose proof (length_filter (fun y => y < x) (take i l)) as Hf. rewrite length_take in Hf. lia.
    + eapply Forall_impl; [exact F2|]. cbn. lia.
Qed.

(** On sorted latencies, not empty, and a percentage from 1 to 100,
    [getPercentile] returns an element, with no assertion failing, of which it is
    true that at least that percentage of the latencies are no greater, and
    fewer than that percentage are smaller. *)
Theorem percentile_nearest_rank (l : list Z) (percent : Z) (Hs : StronglySorted Z.le l) (Hl : 0 < zlen l)
  (Hp : 0 < percent <= 100) (Hb : zlen l < 2 ^ 32) :
  exists x, getPercentile l percent = Ok x /\ x ∈ l /\
    zlen l * percent <= 100 * zlen (filter (fun y => y <= x) l) /\
    100 * zlen (filter (fun y => y < x) l) < zlen l * percent.
Proof.
  unfold getPercentile. rewrite (proj2 (Z.ltb_lt 0 (zlen l))) by done. cbn [assert_ res_bind].
  rewrite (proj2 (Z.ltb_lt 0 percent)) by lia. assert (1 <= zlen l * percent) by nia.
  assert (zlen l * percent <= zlen l * 100) by nia.
  rewrite (u64_small (zlen l * percent)) by lia. rewrite (u64_small (zlen l * percent + 99)) by lia.
  set (q := (zlen l * percent + 99) / 100).
  assert (Hq : 1 <= q <= zlen l /\ zlen l * percent <= 100 * q /\ 100 * (q - 1) < zlen l * percent).
  { subst q. Z.to_euclidean_division_equations. lia. }
  rewrite u64_small by lia. rewrite (proj2 (Z.ltb_lt _ _)) by lia. cbn [assert_ res_bind].
  destruct (l !! Z.to_nat (q - 1)) as [x|] eqn:E.
  - exists x. split; [done|]. split; [by eapply list_elem_of_lookup_2|].
    destruct (rank_counts l _ x Hs E). split; lia.
  - apply lookup_ge_None in E. unfold zlen in *. lia.
Qed.

Definition ex_responses : list response :=
  [(1000000, 999990, true); (3000000, 2999995, false); (1500000, 1499993, true)].

(** The third response is for a second that is past. *)
Lemma stat_window_witness :
  exists s, res_foldl record SudokuStat_new ex_responses = Ok s /\ requests_ s = [2; 0; 1] /\
    latencies_ s = [17; 0; 5] /\ totalSolved_ s = 2.
Proof.
  destruct (stat_window ex_responses) as (s & n & E & _ & _ & _ & R & L & _ & T & _).
  - unfold ex_responses. rewrite !Forall_cons, Forall_nil. unfold response_ok. cbn [fst snd]. by repeat split.
  - done.
  - done.
  - exists s. split; [exact E|]. split; [|split].
    + vm_compute in E. by injection E as <-.
    + vm_compute in E. by injection E as <-.
    + rewrite T. by vm_compute.
Defined.

Lemma percentile_nearest_rank_witness :
  exists x, getPercentile [1; 2; 2; 7] 75 = Ok x /\ x ∈ [1; 2; 2; 7].
Proof.
  destruct (percentile_nearest_rank [1; 2; 2; 7] 75) as (x & E & H & _).
  - repeat constructor; lia.
  - done.
  - lia.
  - done.
  - exists x. split; [exact E|exact H].
Defined.
