(* ===== verification/BlockingQueue.v ===== *)
(** * Blocking queues (cnet/base/BlockingQueue.h, BoundedBlockingQueue.h, CountDownLatch.h,
    CountDownLatch.cc, with Mutex.h and Condition.h)

    Each operation is a critical section under the mutex, in a loop around the
    wait on a condition: a thread that finds the queue empty (or full) gives the
    mutex up and waits; notified, or woken up for no reason, it competes for the
    mutex again and tests again.  A notification wakes up one thread that waits,
    if there is one, of the scheduler's choice. *)

From stdpp Require Import relations.
From S2P Require Import Prelude.

(** ** The critical sections *)

Inductive cond : Set := notEmpty_ | notFull_.

#[export] Instance cond_eq_dec : EqDecision cond.
Proof. solve_decision. Defined.

(** [Blocked c]: the loop waits on [c].  [Done q c x]: the queue is now [q], [c]
    was notified, [x] is returned. *)
Inductive outcome (T : Type) : Type :=
| Blocked (c : cond)
| Done (queue : list T) (notified : option cond) (result : option T).
Arguments Blocked {T} c.
Arguments Done {T} queue notified result.

Definition empty {T} (q : list T) : bool := match q with [] => true | _ => false end.
Definition returned {T} (x : option T) : list T := match x with Some x => [x] | None => [] end.

Module Blocking.
Section blocking.
Context {T : Type}.
Definition put (x : T) (q : list T) : res (outcome T) := Ok (Done (q ++ [x]) (Some notEmpty_) None).

Definition take (q : list T) : res (outcome T) :=
  if empty q then Ok (Blocked notEmpty_) else
  assert! negb (empty q);
  match q with
  | [] => Err EUndefined
  | front :: q => Ok (Done q None (Some front))
  end.
End blocking.
End Blocking.

Module Bounded.
Section bounded.
Context {T : Type}.
(** [boost::circular_buffer]: [push_back] on a full one overwrites the front. *)
Definition full (maxSize : Z) (q : list T) : bool := maxSize <=? zlen q.
Definition push_back (maxSize : Z) (x : T) (q : list T) : list T :=
  if full maxSize q then tl q ++ [x] else q ++ [x].

Definition put (maxSize : Z) (x : T) (q : list T) : res (outcome T) :=
  if full maxSize q then Ok (Blocked notFull_) else
  assert! negb (full maxSize q);
  Ok (Done (push_back maxSize x q) (Some notEmpty_) None).

Definition take (q : list T) : res (outcome T) :=
  if empty q then Ok (Blocked notEmpty_) else
  assert! negb (empty q);
  match q with
  | [] => Err EUndefined
  | front :: q => Ok (Done q (Some notFull_) (Some front))
  end.
End bounded.
End Bounded.

Section queue.
Context {T : Type}.

Inductive op : Type := Put (x : T) | Take.

(** What a queue offers, and how many elements it has room for, if bounded. *)
Record QueueOps := mkOps {
  put_ : T -> list T -> res (outcome T);
  take_ : list T -> res (outcome T);
  room : list T -> option Z;
}.

Definition BlockingQueue : QueueOps := mkOps Blocking.put Blocking.take (fun _ => None).
Definition BoundedBlockingQueue (maxSize : Z) : QueueOps :=
  mkOps (Bounded.put maxSize) Bounded.take (fun q => Some (maxSize - zlen q)).

Definition section_of (Q : QueueOps) (o : op) (q : list T) : res (outcome T) :=
  match o with Put x => put_ Q x q | Take => take_ Q q end.

(** ** The threads *)

(** [ready]: the threads that compete for the mutex, with their operation;
    [waiting]: those that wait on a condition.  [puts] and [takes] are ghosts:
    what has been put and taken, in the order of the critical sections. *)
Record monitor := mkMonitor {
  queue_ : list T;
  ready : list (Z * op);
  waiting : list (Z * op * cond);
  puts : list T;
  takes : list T;
}.

Definition monitor_new : monitor := mkMonitor [] [] [] [] [].

Inductive notified_by (w : list (Z * op * cond)) (r : list (Z * op)) :
  option cond -> list (Z * op * cond) -> list (Z * op) -> Prop :=
| notify_none : notified_by w r None w r
| notify_nobody c : (forall p, p ∈ w -> p.2 <> c) -> notified_by w r (Some c) w r
| notify_one c w1 t w2 : w = w1 ++ (t, c) :: w2 -> notified_by w r (Some c) (w1 ++ w2) (r ++ [t]).

Definition put_of (o : op) : list T := match o with Put x => [x] | Take => [] end.

Inductive step (Q : QueueOps) (m : monitor) : monitor -> Prop :=
| step_call t o : t ∉ map fst (ready m) -> t ∉ map (fun p => p.1.1) (waiting m) ->
    step Q m (mkMonitor (queue_ m) (ready m ++ [(t, o)]) (waiting m) (puts m) (takes m))
| step_wait r1 t o r2 c : ready m = r1 ++ (t, o) :: r2 -> section_of Q o (queue_ m) = Ok (Blocked c) ->
    step Q m (mkMonitor (queue_ m) (r1 ++ r2) (waiting m ++ [(t, o, c)]) (puts m) (takes m))
| step_done r1 t o r2 q n x w r : ready m = r1 ++ (t, o) :: r2 ->
    section_of Q o (queue_ m) = Ok (Done q n x) -> notified_by (waiting m) (r1 ++ r2) n w r ->
    step Q m (mkMonitor q r w (puts m ++ put_of o) (takes m ++ returned x))
| step_spurious w1 t c w2 : waiting m = w1 ++ (t, c) :: w2 ->
    step Q m (mkMonitor (queue_ m) (ready m ++ [t]) (w1 ++ w2) (puts m) (takes m)).
End queue.
Arguments op T : clear implicits.
Arguments monitor T : clear implicits.
Arguments QueueOps T : clear implicits.

(** ** The interface of a queue, and both implementations *)

Class QueueSpec {T} (Q : QueueOps T) : Prop := {
  take_empty : take_ Q [] = Ok (Blocked notEmpty_);
  take_front x q : exists n, take_ Q (x :: q) = Ok (Done q n (Some x)) /\
    (n = Some notFull_ \/ n = None /\ forall q, room Q q = None);
  put_full x q r : room Q q = Some r -> r <= 0 -> put_ Q x q = Ok (Blocked notFull_);
  put_room x q : (forall r, room Q q = Some r -> 0 < r) -> put_ Q x q = Ok (Done (q ++ [x]) (Some notEmpty_) None);
  room_snoc x q : room Q (q ++ [x]) = (fun r => r - 1) <$> room Q q;
  room_cons x q : room Q (x :: q) = (fun r => r - 1) <$> room Q q;
  room_nil r : room Q [] = Some r -> 0 < r;
}.

#[export] Instance blocking_spec {T} : QueueSpec (@BlockingQueue T).
Proof.
  split; try done. intros x q. exists None. split; [done|]. by right.
Qed.

Lemma bounded_spec {T} (maxSize : Z) : 0 < maxSize -> QueueSpec (@BoundedBlockingQueue T maxSize).
Proof.
  intros H. split; cbn.
  - done.
  - intros x q. exists (Some notFull_). split; [done|by left].
  - intros x q r [= <-] Hr. unfold Bounded.put, Bounded.full. by rewrite (proj2 (Z.leb_le _ _)) by lia.
  - intros x q Hr. specialize (Hr _ eq_refl). unfold Bounded.put, Bounded.push_back, Bounded.full.
    by rewrite (proj2 (Z.leb_gt _ _)) by lia.
  - intros x q. f_equal. unfold zlen. rewrite length_app. cbn. lia.
  - intros x q. f_equal. rewrite zlen_cons. lia.
  - intros r [= <-]. unfold zlen. cbn. lia.
Qed.

(** ** The invariant *)

Section correct.
Context {T : Type} (Q : QueueOps T) {HQ : QueueSpec Q}.

Definition is_take (o : op T) : bool := match o with Take => true | Put _ => false end.
Definition on_cond (c : cond) (o : op T) : bool :=
  match c with notEmpty_ => is_take o | notFull_ => negb (is_take o) end.

(** How many of the threads that are ready do the operation that waits on [c]. *)
Definition able (c : cond) (l : list (Z * op T)) : Z := zlen (List.filter (fun p => on_cond c p.2) l).

Record inv (m : monitor T) : Prop := mkInv {
  inv_fifo : puts m = takes m ++ queue_ m;
  inv_room : forall r, room Q (queue_ m) = Some r -> 0 <= r;
  inv_waiting : Forall (fun p => on_cond p.2 p.1.2 = true) (waiting m);
  inv_empty : (exists p, p ∈ waiting m /\ p.2 = notEmpty_) -> zlen (queue_ m) <= able notEmpty_ (ready m);
  inv_full : (exists p, p ∈ waiting m /\ p.2 = notFull_) ->
    exists r, room Q (queue_ m) = Some r /\ r <= able notFull_ (ready m);
}.

Lemma able_app c l1 l2 : able c (l1 ++ l2) = able c l1 + able c l2.
Proof. unfold able. by rewrite List.filter_app, zlen_app. Qed.
Lemma able_one c t o : able c [(t, o)] = if on_cond c o then 1 else 0.
Proof. unfold able. cbn. by destruct (on_cond c o). Qed.
Lemma able_middle c l1 t o l2 : able c (l1 ++ (t, o) :: l2) = able c (l1 ++ l2) + if on_cond c o then 1 else 0.
Proof.
  change ((t, o) :: l2) with ([(t, o)] ++ l2). rewrite !able_app, able_one. lia.
Qed.
Lemma able_nonneg c l : 0 <= able c l.
Proof. apply zlen_nonneg. Qed.

(** What a notification leaves. *)
Lemma notified_sub (w : list (Z * op T * cond)) r n w' r' : notified_by w r n w' r' ->
  (forall p, p ∈ w' -> p ∈ w) /\ (forall c, able c r <= able c r') /\
  (Forall (fun p => on_cond p.2 p.1.2 = true) w -> forall c, n = Some c ->
     (exists p, p ∈ w' /\ p.2 = c) -> able c r + 1 <= able c r').
Proof.
  destruct 1 as [|c H|c w1 [t o] w2 ->].
  - split; [done|]. split; [done|]. by intros.
  - split; [done|]. split; [done|]. intros _ c' [= <-] (p & Hp & E). by destruct (H p Hp).
  - split; [intros p; rewrite !elem_of_app, elem_of_cons; tauto|].
    split; [intros c'; rewrite able_app; pose proof (able_nonneg c' [(t, o)]); lia|].
    intros F c' [= <-] _. rewrite able_app, able_one.
    apply Forall_app in F as [_ F]. apply Forall_cons in F as [F _]. cbn in F. rewrite F. lia.
Qed.

#[local] Set Default Proof Using "Type + HQ".

Lemma queue_step_inv m m' : inv m -> step Q m m' -> inv m'.
Proof.
  intros [I1 I2 I3 I4 I5] S.
  destruct S as [t o _ _|r1 t o r2 c Er Es|r1 t o r2 q n x w r Er Es Hn|w1 [t o] c w2 Ew].
  - constructor; cbn [queue_ ready waiting puts takes]; try done.
    + intros W. specialize (I4 W). rewrite able_app. pose proof (able_nonneg notEmpty_ [(t, o)]). lia.
    + intros W. destruct (I5 W) as (rm & E & L). exists rm. split; [done|]. rewrite able_app.
      pose proof (able_nonneg notFull_ [(t, o)]). lia.
  - (* the section blocks *)
    assert (B : on_cond c o = true /\ match c with
      | notEmpty_ => queue_ m = []
      | notFull_ => exists rm, room Q (queue_ m) = Some rm /\ rm <= 0 end).
    { destruct o as [x|]; cbn in Es.
      - destruct (room Q (queue_ m)) as [rm|] eqn:Erm; [|rewrite put_room in Es by (intros ? ?; congruence); done].
        destruct (Z.leb_spec rm 0) as [Hrm|Hrm]; [|rewrite put_room in Es by (intros ?; rewrite Erm; congruence); done].
        rewrite (put_full x _ rm) in Es by done. injection Es as <-. split; [done|]. by exists rm.
      - destruct (queue_ m) as [|y q] eqn:Eq; [rewrite take_empty in Es; by injection Es as <-|].
        destruct (take_front y q) as (n & Et & _). congruence. }
    destruct B as [Bo B]. rewrite Er in *.
    constructor; cbn [queue_ ready waiting puts takes]; try done.
    + rewrite Forall_app, Forall_singleton. done.
    + intros W. destruct c.
      * rewrite B. change (zlen []) with 0. apply able_nonneg.
      * assert (W' : exists p, p ∈ waiting m /\ p.2 = notEmpty_).
        { destruct W as (p & Hp & Ep). apply elem_of_app in Hp as [Hp|Hp]; [by exists p|].
          apply list_elem_of_singleton in Hp as ->. done. }
        specialize (I4 W'). rewrite able_middle in I4. destruct o; [|done]. cbn in I4. lia.
    + intros W. destruct c.
      * assert (W' : exists p, p ∈ waiting m /\ p.2 = notFull_).
        { destruct W as (p & Hp & Ep). apply elem_of_app in Hp as [Hp|Hp]; [by exists p|].
          apply list_elem_of_singleton in Hp as ->. done. }
        destruct (I5 W') as (rm & E & L). exists rm. split; [done|]. rewrite able_middle in L.
        destruct o; [done|]. cbn in L. lia.
      * destruct B as (rm & E & L). exists rm. split; [done|]. pose proof (able_nonneg notFull_ (r1 ++ r2)). lia.
  - (* the section completes *)
    destruct (notified_sub _ _ _ _ _ Hn) as (Sub & Ab & Ab1). specialize (Ab1 I3). rewrite Er in *.
    assert (F3 : Forall (fun p => on_cond p.2 p.1.2 = true) w).
    { rewrite Forall_forall in *. intros p Hp. by apply I3, Sub. }
    assert (Wsub : forall c, (exists p, p ∈ w /\ p.2 = c) -> exists p, p ∈ waiting m /\ p.2 = c).
    { intros c (p & Hp & E). exists p. split; [by apply Sub|done]. }
    destruct o as [y|]; cbn in Es.
    + (* put *)
      assert (Hrm : forall rm, room Q (queue_ m) = Some rm -> 0 < rm).
      { intros rm E. destruct (Z.leb_spec rm 0); [|done]. by rewrite (put_full y _ rm) in Es. }
      rewrite put_room in Es by done. injection Es as <- <- <-.
      constructor; cbn [queue_ ready waiting puts takes put_of returned]; try done.
      * by rewrite I1, app_nil_r, app_assoc.
      * intros rm. rewrite room_snoc. destruct (room Q (queue_ m)) as [r0|] eqn:E0; [|done].
        intros [= <-]. specialize (Hrm r0 eq_refl). lia.
      * intros W. specialize (I4 (Wsub _ W)). rewrite able_middle in I4. cbn in I4.
        specialize (Ab1 notEmpty_ eq_refl W). unfold zlen in *. rewrite length_app. cbn. lia.
      * intros W. destruct (I5 (Wsub _ W)) as (rm & E & L). rewrite room_snoc, E. eexists. split; [reflexivity|].
        rewrite able_middle in L. cbn in L. specialize (Ab notFull_). lia.
    + (* take *)
      destruct (queue_ m) as [|y qq] eqn:Eq; [by rewrite take_empty in Es|].
      destruct (take_front y qq) as (n' & Et & Hn'). rewrite Et in Es. injection Es as <- <- <-.
      constructor; cbn [queue_ ready waiting puts takes put_of returned]; try done.
      * by rewrite I1, app_nil_r, <-app_assoc.
      * intros rm E. specialize (I2 (rm - 1)). rewrite room_cons, E in I2. specialize (I2 eq_refl). lia.
      * intros W. specialize (I4 (Wsub _ W)). rewrite able_middle in I4. cbn in I4. specialize (Ab notEmpty_).
        rewrite zlen_cons in I4. lia.
      * intros W. destruct (I5 (Wsub _ W)) as (rm & E & L). rewrite room_cons in E.
        destruct (room Q qq) as [r0|] eqn:E0; [|done]. injection E as <-. exists r0. split; [done|].
        destruct Hn' as [->|[_ Hnone]]; [|by rewrite Hnone in E0].
        specialize (Ab1 notFull_ eq_refl W). rewrite able_middle in L. cbn in L. lia.
  - (* a spurious wake-up *)
    rewrite Ew in *.
    assert (Wsub : forall c', (exists p, p ∈ w1 ++ w2 /\ p.2 = c') -> exists p, p ∈ w1 ++ (t, o, c) :: w2 /\ p.2 = c').
    { intros c' (p & Hp & E). exists p. split; [|done]. rewrite elem_of_app in *. rewrite elem_of_cons. tauto. }
    apply Forall_app in I3 as [F1 F2]. apply Forall_cons in F2 as [_ F2].
    constructor; cbn [queue_ ready waiting puts takes]; try done.
    + by apply Forall_app.
    + intros W. specialize (I4 (Wsub _ W)). rewrite able_app. pose proof (able_nonneg notEmpty_ [(t, o)]). lia.
    + intros W. destruct (I5 (Wsub _ W)) as (rm & E & L). exists rm. split; [done|]. rewrite able_app.
      pose proof (able_nonneg notFull_ [(t, o)]). lia.
Qed.

Lemma queue_reachable_inv m : rtc (step Q) monitor_new m -> inv m.
Proof.
  intros R. assert (I0 : inv monitor_new).
  { constructor; cbn; try done; try (intros (p & Hp & _); by apply elem_of_nil in Hp).
    intros r Hr. pose proof (room_nil r Hr). lia. }
  induction R as [|m1 m2 m3 S _ IH]; [done|]. apply IH. by eapply queue_step_inv.
Qed.

Lemma able_exists c l : 0 < able c l -> exists t o, (t, o) ∈ l /\ on_cond c o = true.
Proof.
  induction l as [|[t o] l IH]; intros H; [done|]. destruct (on_cond c o) eqn:E.
  - exists t, o. rewrite elem_of_cons. auto.
  - destruct IH as (t' & o' & Hi & E'); [|exists t', o'; rewrite elem_of_cons; auto].
    unfold able in *. cbn in H. by rewrite E in H.
Qed.

Lemma sections_total (q : list T) o : exists out, section_of Q o q = Ok out.
Proof.
  destruct o as [x|]; cbn.
  - destruct (room Q q) as [r|] eqn:E.
    + destruct (Z.leb_spec r 0); [rewrite (put_full x q r) by done|rewrite put_room by (intros ?; rewrite E; congruence)]; eauto.
    + rewrite put_room by (intros ?; congruence). eauto.
  - destruct q as [|x q]; [rewrite take_empty; eauto|]. destruct (take_front x q) as (n & -> & _). eauto.
Qed.

Lemma queue_safe m : rtc (step Q) monitor_new m ->
  puts m = takes m ++ queue_ m /\
  (forall r, room Q (queue_ m) = Some r -> 0 <= r) /\
  (forall o, exists out, section_of Q o (queue_ m) = Ok out) /\
  (forall p, p ∈ waiting m -> p.2 = notEmpty_ -> queue_ m <> [] -> exists t, (t, Take) ∈ ready m) /\
  (forall p, p ∈ waiting m -> p.2 = notFull_ ->
     exists r, room Q (queue_ m) = Some r /\ (0 < r -> exists t x, (t, Put x) ∈ ready m)) /\
  (ready m = [] -> waiting m <> [] ->
     queue_ m = [] /\ (forall p, p ∈ waiting m -> p.1.2 = Take) \/
     room Q (queue_ m) = Some 0 /\ forall p, p ∈ waiting m -> exists x, p.1.2 = Put x).
Proof.
  intros R. apply queue_reachable_inv in R as [I1 I2 I3 I4 I5]. split; [done|]. split; [done|].
  split; [intros o; apply sections_total|]. split; [|split].
  - intros p Hp Ep Hq. specialize (I4 (ex_intro _ p (conj Hp Ep))).
    destruct (able_exists notEmpty_ (ready m)) as (t & o & Hi & E).
    + destruct (queue_ m); [done|]. rewrite zlen_cons in I4. pose proof (zlen_nonneg l). lia.
    + destruct o; [done|]. by exists t.
  - intros p Hp Ep. destruct (I5 (ex_intro _ p (conj Hp Ep))) as (r & E & L). exists r. split; [done|].
    intros Hr. destruct (able_exists notFull_ (ready m)) as (t & o & Hi & Eo); [lia|].
    destruct o as [x|]; [|done]. by exists t, x.
  - intros Er Hw. rewrite Er in *. change (able notEmpty_ []) with 0 in I4. change (able notFull_ []) with 0 in I5.
    destruct (decide (Exists (fun p => p.2 = notEmpty_) (waiting m))) as [X|X].
    + left. apply Exists_exists in X as (p & Hp & Ep). specialize (I4 (ex_intro _ p (conj Hp Ep))).
      assert (Eq : queue_ m = []) by (apply zlen_0_nil; pose proof (zlen_nonneg (queue_ m)); lia).
      split; [done|]. intros p' Hp'. rewrite Forall_forall in I3. specialize (I3 p' Hp').
      destruct (p'.2) eqn:Ec; [by destruct (p'.1.2)|].
      destruct (I5 (ex_intro _ p' (conj Hp' Ec))) as (r & E & L). rewrite Eq in E. pose proof (room_nil r E). lia.
    + right. assert (A : forall p, p ∈ waiting m -> p.2 = notFull_).
      { intros p Hp. destruct (p.2) eqn:Ec; [|done]. destruct X. apply Exists_exists. by exists p. }
      split.
      * destruct (waiting m) as [|p w]; [done|]. assert (Hp : p ∈ p :: w) by (apply elem_of_cons; by left).
        destruct (I5 (ex_intro _ p (conj Hp (A p Hp)))) as (r & E & L). rewrite E. f_equal. specialize (I2 r E). lia.
      * intros p Hp. rewrite Forall_forall in I3. specialize (I3 p Hp). rewrite (A p Hp) in I3.
        destruct (p.1.2) as [x|]; [by exists x|done].
Qed.
End correct.

(** C17: Both queues, the unbounded one and the bounded one of any positive size,
    under every interleaving of any number of threads, with notifications that
    wake up any one waiting thread and wake-ups for no reason: what is taken is
    what was put, in order, and the queue holds the rest; the bound is kept and
    no assertion fails; no wake-up is lost: a thread waiting to take while there
    is something to take, or to put while there is room, is never alone, another
    is on its way; so if every thread sleeps, then the queue is empty and all
    wait to take, or it is full and all wait to put. *)
Theorem queues_safe {T} (Q : QueueOps T) (m : monitor T)
  (HQ : Q = BlockingQueue \/ exists maxSize, 0 < maxSize /\ Q = BoundedBlockingQueue maxSize)
  (R : rtc (step Q) monitor_new m) :
  puts m = takes m ++ queue_ m /\
  (forall r, room Q (queue_ m) = Some r -> 0 <= r) /\
  (forall o, exists out, section_of Q o (queue_ m) = Ok out) /\
  (forall p, p ∈ waiting m -> p.2 = notEmpty_ -> queue_ m <> [] -> exists t, (t, Take) ∈ ready m) /\
  (forall p, p ∈ waiting m -> p.2 = notFull_ ->
     exists r, room Q (queue_ m) = Some r /\ (0 < r -> exists t x, (t, Put x) ∈ ready m)) /\
  (ready m = [] -> waiting m <> [] ->
     queue_ m = [] /\ (forall p, p ∈ waiting m -> p.1.2 = Take) \/
     room Q (queue_ m) = Some 0 /\ forall p, p ∈ waiting m -> exists x, p.1.2 = Put x).
Proof.
  destruct HQ as [->|(maxSize & Hm & ->)]; [by apply (queue_safe BlockingQueue)|].
  pose proof (bounded_spec (T := T) maxSize Hm). by apply (queue_safe (BoundedBlockingQueue maxSize)).
Qed.

(** Two producers on a queue of size one: the second one waits. *)
Lemma queues_safe_witness :
  let Q := BoundedBlockingQueue (T := Z) 1 in
  let m := mkMonitor [7] [] [(2, Put 8, notFull_)] [7] [] in
  rtc (step Q) monitor_new m /\ puts m = takes m ++ queue_ m /\
  exists r, room Q (queue_ m) = Some r /\ (0 < r -> exists t x, (t, Put x) ∈ ready m).
Proof.
  intros Q m. assert (R : rtc (step Q) monitor_new m).
  { eapply rtc_l; [apply (step_call Q _ 1 (Put 7)); apply not_elem_of_nil|].
    eapply rtc_l; [by eapply (step_done Q _ [] 1 (Put 7) [] [7] (Some notEmpty_) None); [| |apply notify_nobody; intros p Hp; apply elem_of_nil in Hp]|].
    eapply rtc_l; [apply (step_call Q _ 2 (Put 8)); apply not_elem_of_nil|].
    eapply rtc_l; [by eapply (step_wait Q _ [] 2 (Put 8) [] notFull_)|]. apply rtc_refl. }
  destruct (queues_safe Q m) as (E & _ & _ & _ & F & _).
  - right. exists 1. split; [lia|done].
  - exact R.
  - split; [exact R|]. split; [exact E|]. apply (F (2, Put 8, notFull_)); [apply elem_of_cons; by left|done].
Defined.

(** ** CountDownLatch *)

Module Latch.
(** [released]: the threads whose [wait] has returned. *)
Record CountDownLatch := mkLatch {
  count_ : Z;
  lready : list Z;
  lwaiting : list Z;
  released : list Z;
}.

Definition CountDownLatch_new (count : Z) : CountDownLatch := mkLatch count [] [] [].
Definition getCount (l : CountDownLatch) : Z := count_ l.

(** The section of [wait] for the thread [t], which is ready. *)
Definition wait (t : Z) (r1 r2 : list Z) (l : CountDownLatch) : CountDownLatch :=
  if 0 <? count_ l then mkLatch (count_ l) (r1 ++ r2) (lwaiting l ++ [t]) (released l)
  else mkLatch (count_ l) (r1 ++ r2) (lwaiting l) (released l ++ [t]).

Definition countDown (l : CountDownLatch) : CountDownLatch :=
  let n := s32 (count_ l - 1) in
  if n =? 0 then mkLatch n (lready l ++ lwaiting l) [] (released l)
  else mkLatch n (lready l) (lwaiting l) (released l).

Inductive lstep (l : CountDownLatch) : CountDownLatch -> Prop :=
| lstep_call t : lstep l (mkLatch (count_ l) (lready l ++ [t]) (lwaiting l) (released l))
| lstep_wait r1 t r2 : lready l = r1 ++ t :: r2 -> lstep l (wait t r1 r2 l)
| lstep_down : - 2 ^ 31 < count_ l -> lstep l (countDown l)
| lstep_spurious w1 t w2 : lwaiting l = w1 ++ t :: w2 ->
    lstep l (mkLatch (count_ l) (lready l ++ [t]) (w1 ++ w2) (released l)).

Lemma latch_safe n l : 0 <= n < 2 ^ 31 -> rtc lstep (CountDownLatch_new n) l ->
  count_ l <= n /\ (released l <> [] -> count_ l <= 0) /\ (lwaiting l <> [] -> 0 < count_ l).
Proof.
  intros Hn R. cut (- 2 ^ 31 <= count_ l <= n /\ (released l <> [] -> count_ l <= 0) /\ (lwaiting l <> [] -> 0 < count_ l)); [tauto|].
  remember (CountDownLatch_new n) as l0 eqn:E0. assert (I : - 2 ^ 31 <= count_ l0 <= n /\
    (released l0 <> [] -> count_ l0 <= 0) /\ (lwaiting l0 <> [] -> 0 < count_ l0)) by (subst; cbn; split; [lia|done]).
  clear E0. induction R as [|l1 l2 l3 S _ IH]; [done|]. apply IH. destruct I as (I1 & I2 & I3).
  destruct S as [t|r1 t r2 E|H|w1 t w2 E]; cbn; try done.
  - unfold wait. destruct (Z.ltb_spec 0 (count_ l1)); cbn; split_and!; try lia; try done.
  - unfold countDown. rewrite s32_small by lia. destruct (Z.eqb_spec (count_ l1 - 1) 0); cbn; split_and!; try lia; try done;
      intros Hx; [specialize (I2 Hx)|specialize (I3 Hx)]; lia.
  - split_and!; try lia; try done. intros Hw. apply I3. rewrite E. by destruct w1.
Qed.
End Latch.
