(* ===== verification/ThreadPool.v ===== *)
(** * The thread pool (cnet/base/ThreadPool.h, ThreadPool.cc)

    Callers queue tasks, waiting while the queue is full; workers take and run
    them; [stop] makes the workers leave.  A critical section is one step, and so
    is the run of a task; a notification wakes up one waiting thread of the
    scheduler's choice.  What becomes of a worker whose task throws is in
    PoolWorkers. *)

From stdpp Require Import relations.
From S2P Require Import Prelude.

(** Where a worker is: at the test of [running_]; competing for the mutex in
    [take]; waiting on [notEmpty_]; running a task; returned. *)
Inductive worker : Set := AtTest | InTake | WaitEmpty | Running (task : Z) | Exited.

#[export] Instance worker_eq_dec : EqDecision worker.
Proof. solve_decision. Defined.

(** [calling], [waiting]: the callers of [run] that compete for the mutex, and
    that wait on [notFull_], by their task.  The last three fields are ghosts:
    the tasks queued, handed to a worker, and run, in order. *)
Record ThreadPool := mkPool {
  running_ : bool;
  maxQueueSize_ : Z;
  queue_ : list Z;
  workers : list worker;
  calling : list Z;
  waiting : list Z;
  submitted : list Z;
  dispatched : list Z;
  executed : list Z;
}.

(** [start(numThreads)] on a new pool. *)
Definition start (maxQueueSize : Z) (numThreads : nat) : ThreadPool :=
  mkPool true maxQueueSize [] (replicate numThreads AtTest) [] [] [] [] [].

Definition queueSize (p : ThreadPool) : Z := zlen (queue_ p).
Definition isFull (p : ThreadPool) : bool := (0 <? maxQueueSize_ p) && (maxQueueSize_ p <=? zlen (queue_ p)).

Definition set_worker (i : nat) (w : worker) (p : ThreadPool) : ThreadPool :=
  mkPool (running_ p) (maxQueueSize_ p) (queue_ p) (<[i := w]> (workers p)) (calling p) (waiting p)
    (submitted p) (dispatched p) (executed p).
Definition set_callers (c w : list Z) (p : ThreadPool) : ThreadPool :=
  mkPool (running_ p) (maxQueueSize_ p) (queue_ p) (workers p) c w (submitted p) (dispatched p) (executed p).

(** [run(task)] without threads runs it in the caller. *)
Definition run (task : Z) (p : ThreadPool) : ThreadPool :=
  match workers p with
  | [] => mkPool (running_ p) (maxQueueSize_ p) (queue_ p) [] (calling p) (waiting p)
            (submitted p ++ [task]) (dispatched p ++ [task]) (executed p ++ [task])
  | _ => set_callers (calling p ++ [task]) (waiting p) p
  end.

(** The critical section of [run], up to the wait ([None]) or with the task
    queued. *)
Definition run_section (task : Z) (p : ThreadPool) : res (option ThreadPool) :=
  if isFull p then Ok None else
  assert! negb (isFull p);
  Ok (Some (mkPool (running_ p) (maxQueueSize_ p) (queue_ p ++ [task]) (workers p) (calling p) (waiting p)
              (submitted p ++ [task]) (dispatched p) (executed p))).

(** The critical section of [take]: it waits, or returns a task or none; and
    whether it notifies [notFull_]. *)
Inductive taken : Type := TakeWaits | Took (task : option Z) (notifies : bool) (p : ThreadPool).

Definition take (p : ThreadPool) : taken :=
  if (match queue_ p with [] => true | _ => false end) && running_ p then TakeWaits else
  match queue_ p with
  | [] => Took None false p
  | front :: q =>
      Took (Some front) (0 <? maxQueueSize_ p)
        (mkPool (running_ p) (maxQueueSize_ p) q (workers p) (calling p) (waiting p)
           (submitted p) (dispatched p ++ [front]) (executed p))
  end.

(** [stop], up to the joins: [notEmpty_.notifyAll()]. *)
Definition wake (w : worker) : worker := match w with WaitEmpty => InTake | _ => w end.
Definition stop (p : ThreadPool) : ThreadPool :=
  mkPool false (maxQueueSize_ p) (queue_ p) (map wake (workers p)) (calling p) (waiting p)
    (submitted p) (dispatched p) (executed p).

Definition finish (task : Z) (p : ThreadPool) : ThreadPool :=
  mkPool (running_ p) (maxQueueSize_ p) (queue_ p) (workers p) (calling p) (waiting p)
    (submitted p) (dispatched p) (executed p ++ [task]).

Inductive notify_empty (p : ThreadPool) : ThreadPool -> Prop :=
| nobody_takes : WaitEmpty ∉ workers p -> notify_empty p p
| one_takes i : workers p !! i = Some WaitEmpty -> notify_empty p (set_worker i InTake p).

Inductive notify_full (p : ThreadPool) : bool -> ThreadPool -> Prop :=
| notify_not : notify_full p false p
| nobody_waits : waiting p = [] -> notify_full p true p
| one_calls w1 t w2 : waiting p = w1 ++ t :: w2 -> notify_full p true (set_callers (calling p ++ [t]) (w1 ++ w2) p).

(** The steps; [Some i]: of worker [i]. *)
Inductive step (p : ThreadPool) : option nat -> ThreadPool -> Prop :=
| step_run t : step p None (run t p)
| step_stop : step p None (stop p)
| step_wait c1 t c2 : calling p = c1 ++ t :: c2 -> run_section t p = Ok None ->
    step p None (set_callers (c1 ++ c2) (waiting p ++ [t]) p)
| step_queue c1 t c2 p1 p2 : calling p = c1 ++ t :: c2 -> run_section t p = Ok (Some p1) ->
    notify_empty (set_callers (c1 ++ c2) (waiting p) p1) p2 -> step p None p2
| step_spurious_caller w1 t w2 : waiting p = w1 ++ t :: w2 ->
    step p None (set_callers (calling p ++ [t]) (w1 ++ w2) p)
| step_spurious i : workers p !! i = Some WaitEmpty -> step p None (set_worker i InTake p)
| step_test i : workers p !! i = Some AtTest ->
    step p (Some i) (set_worker i (if running_ p then InTake else Exited) p)
| step_take_waits i : workers p !! i = Some InTake -> take p = TakeWaits ->
    step p (Some i) (set_worker i WaitEmpty p)
| step_take i t n p1 p2 : workers p !! i = Some InTake -> take p = Took t n p1 -> notify_full p1 n p2 ->
    step p (Some i) (set_worker i (match t with Some t => Running t | None => AtTest end) p2)
| step_task i t : workers p !! i = Some (Running t) -> step p (Some i) (set_worker i AtTest (finish t p)).

Definition any_step (p p' : ThreadPool) : Prop := exists o, step p o p'.

(** ** What is running, and who is ready *)

Definition running_task (w : worker) : list Z := match w with Running t => [t] | _ => [] end.
Definition current (p : ThreadPool) : list Z := concat (map running_task (workers p)).
Definition taking (ws : list worker) : Z := zlen (List.filter (fun w => bool_decide (w = InTake)) ws).

(** Every task submitted is either queued or was handed out, in order; those
    handed out are run or running. *)
Record inv (p : ThreadPool) : Prop := mkInv {
  inv_fifo : submitted p = dispatched p ++ queue_ p;
  inv_once : dispatched p ≡ₚ executed p ++ current p;
  inv_bound : 0 < maxQueueSize_ p -> zlen (queue_ p) <= maxQueueSize_ p;
  inv_wait : WaitEmpty ∈ workers p -> running_ p = true /\ zlen (queue_ p) <= taking (workers p);
  inv_full : waiting p <> [] -> 0 < maxQueueSize_ p;
  inv_none : workers p = [] -> queue_ p = [] /\ calling p = [] /\ waiting p = [];
}.

Lemma insert_split {A} (l : list A) i x : l !! i = Some x -> exists l1 l2, l = l1 ++ x :: l2 /\
  forall y, <[i := y]> l = l1 ++ y :: l2.
Proof.
  intros H. exists (firstn i l), (drop (S i) l). split; [by rewrite take_drop_middle|].
  intros y. rewrite insert_take_drop; [done|]. by eapply lookup_lt_Some.
Qed.

Lemma current_insert p i w w' : workers p !! i = Some w ->
  exists r, concat (map running_task (workers p)) ≡ₚ running_task w ++ r /\
            concat (map running_task (<[i := w']> (workers p))) ≡ₚ running_task w' ++ r.
Proof.
  intros H. destruct (insert_split _ _ _ H) as (l1 & l2 & E1 & E2).
  exists (concat (map running_task l1) ++ concat (map running_task l2)).
  rewrite E2, E1, !map_app, !concat_app. cbn. split; apply Permutation_app_swap_app.
Qed.

Lemma taking_app l1 l2 : taking (l1 ++ l2) = taking l1 + taking l2.
Proof. unfold taking. by rewrite List.filter_app, zlen_app. Qed.
Lemma taking_cons w l : taking (w :: l) = (if decide (w = InTake) then 1 else 0) + taking l.
Proof.
  unfold taking. cbn [List.filter]. destruct (decide (w = InTake)) as [->|];
    [rewrite bool_decide_eq_true_2 by done; by rewrite zlen_cons|by rewrite bool_decide_eq_false_2].
Qed.

Lemma taking_insert ws i w w' : ws !! i = Some w ->
  taking (<[i := w']> ws) = taking ws + (if decide (w' = InTake) then 1 else 0) - (if decide (w = InTake) then 1 else 0).
Proof.
  intros H. destruct (insert_split _ _ _ H) as (l1 & l2 & E1 & E2). rewrite E2, E1, !taking_app, !taking_cons. lia.
Qed.

Lemma waits_insert (ws : list worker) i w : WaitEmpty ∈ <[i := w]> ws -> w <> WaitEmpty -> WaitEmpty ∈ ws.
Proof.
  intros H Hw. apply list_elem_of_lookup in H as [j Hj]. apply list_elem_of_lookup. exists j.
  destruct (decide (i = j)) as [->|]; [|by rewrite list_lookup_insert_ne in Hj].
  destruct (decide (j < length ws)%nat); [rewrite list_lookup_insert_eq in Hj by done; congruence|].
  rewrite list_insert_ge in Hj by lia. done.
Qed.

Lemma taking_nonneg ws : 0 <= taking ws.
Proof. apply zlen_nonneg. Qed.

Lemma inv_callers p c w : inv p -> (w <> [] -> waiting p <> []) -> (workers p = [] -> c = [] /\ w = []) -> inv (set_callers c w p).
Proof. intros [I1 I2 I3 I4 I5 I6] Hw Hc. constructor; cbn; auto. intros E. split; [by apply I6|by apply Hc]. Qed.

(** A worker that moves without a task. *)
Lemma inv_move p i w w' : inv p -> workers p !! i = Some w -> running_task w = [] -> running_task w' = [] ->
  (WaitEmpty ∈ <[i := w']> (workers p) -> running_ p = true /\ zlen (queue_ p) <= taking (<[i := w']> (workers p))) ->
  inv (set_worker i w' p).
Proof.
  intros [I1 I2 I3 I4 I5 I6] H E1 E2 Hw. constructor; cbn; try done.
  - destruct (current_insert p i w w' H) as (r & P1 & P2). rewrite E1 in P1. rewrite E2 in P2.
    rewrite I2. unfold current. cbn [workers set_worker]. by rewrite P1, P2.
  - intros E. apply I6. apply (f_equal length) in E. rewrite length_insert in E. by destruct (workers p).
Qed.

Lemma notify_empty_inv p p' : inv p \/
    (submitted p = dispatched p ++ queue_ p /\ dispatched p ≡ₚ executed p ++ current p /\
     (0 < maxQueueSize_ p -> zlen (queue_ p) <= maxQueueSize_ p) /\ (waiting p <> [] -> 0 < maxQueueSize_ p) /\
     workers p <> [] /\ (WaitEmpty ∈ workers p -> running_ p = true /\ zlen (queue_ p) <= taking (workers p) + 1)) ->
  notify_empty p p' -> inv p'.
Proof.
  intros H N. assert (H' : submitted p = dispatched p ++ queue_ p /\ dispatched p ≡ₚ executed p ++ current p /\
     (0 < maxQueueSize_ p -> zlen (queue_ p) <= maxQueueSize_ p) /\ (waiting p <> [] -> 0 < maxQueueSize_ p) /\
     (workers p = [] -> queue_ p = [] /\ calling p = [] /\ waiting p = []) /\
     (WaitEmpty ∈ workers p -> running_ p = true /\ zlen (queue_ p) <= taking (workers p) + 1)).
  { destruct H as [[I1 I2 I3 I4 I5 I6]|(I1 & I2 & I3 & I5 & I6 & I4)].
    - split_and!; try done. intros W. destruct (I4 W). split; [done|lia].
    - by split_and!. }
  clear H. destruct H' as (I1 & I2 & I3 & I5 & I6 & I4). destruct N as [Hn|i Hi].
  - by constructor.
  - constructor; cbn; try done.
    + destruct (current_insert p i WaitEmpty InTake Hi) as (r & P1 & P2). rewrite I2. unfold current.
      cbn [workers set_worker]. rewrite P1, P2. done.
    + intros W. destruct (I4 ltac:(by eapply list_elem_of_lookup_2)) as [Hr L]. split; [done|].
      rewrite (taking_insert _ i WaitEmpty) by done. rewrite decide_True, decide_False by done. lia.
    + intros E. apply I6. apply (f_equal length) in E. rewrite length_insert in E. by destruct (workers p).
Qed.

Lemma notify_full_same p n p' : notify_full p n p' ->
  running_ p' = running_ p /\ maxQueueSize_ p' = maxQueueSize_ p /\ queue_ p' = queue_ p /\ workers p' = workers p /\
  submitted p' = submitted p /\ dispatched p' = dispatched p /\ executed p' = executed p /\
  (waiting p' <> [] -> waiting p <> []) /\ (workers p <> [] \/ calling p' = calling p \/ waiting p <> []).
Proof.
  destruct 1 as [|H|w1 t w2 E]; cbn; split_and!; auto.
  - intros _. rewrite E. by destruct w1.
  - right. right. rewrite E. by destruct w1.
Qed.

Lemma pool_step_inv p o p' : inv p -> step p o p' -> inv p'.
Proof.
  intros I S. pose proof I as [I1 I2 I3 I4 I5 I6].
  destruct S as [t| |c1 t c2 Ec Es|c1 t c2 p1 p2 Ec Es N|w1 t w2 Ew|i Hi|i Hi|i Hi Ht|i t n p1 p2 Hi Ht N|i t Hi].
  - unfold run. destruct (workers p) as [|w ws] eqn:Ew.
    + destruct (I6 eq_refl) as [E1 _]. unfold current in I2. rewrite Ew in I2. cbn in I2. rewrite app_nil_r in I2.
      constructor; cbn; try done.
      * by rewrite I1, E1, !app_nil_r.
      * unfold current. cbn. by rewrite I2, app_nil_r.
    + apply inv_callers; [done|done|]. by rewrite Ew.
  - constructor; cbn; try done.
    + rewrite I2. unfold current. cbn [workers stop]. rewrite map_map.
      erewrite (map_ext (fun w => running_task (wake w))); [done|]. by intros [].
    + intros W. apply list_elem_of_fmap in W as (w & E & _). by destruct w.
    + intros E. apply I6. by destruct (workers p).
  - assert (Hf : isFull p = true) by (unfold run_section in Es; by destruct (isFull p)).
    unfold isFull in Hf. constructor; cbn; try done; [lia|].
    intros E. destruct (I6 E) as (_ & Ecal & _). rewrite Ec in Ecal. by destruct c1.
  - unfold run_section in Es. destruct (isFull p) eqn:Hf; [done|]. injection Es as <-. unfold isFull in Hf.
    eapply notify_empty_inv; [|exact N]. right. cbn [set_callers submitted dispatched queue_ executed maxQueueSize_ waiting workers running_].
    split_and!; try done.
    + by rewrite I1, app_assoc.
    + rewrite zlen_app. change (zlen [t]) with 1. lia.
    + intros E. destruct (I6 E) as (_ & Ecal & _). rewrite Ec in Ecal. by destruct c1.
    + intros W. destruct (I4 W) as [Hr L]. split; [done|]. rewrite zlen_app. change (zlen [t]) with 1. lia.
  - apply inv_callers; [done| |].
    + intros _. rewrite Ew. by destruct w1.
    + intros E. destruct (I6 E) as (_ & _ & E0). rewrite E0 in Ew. by destruct w1.
  - eapply inv_move; [done|done|done|done|]. intros W. destruct (I4 ltac:(by eapply list_elem_of_lookup_2)) as [Hr L].
    split; [done|]. rewrite (taking_insert _ i WaitEmpty) by done. rewrite decide_True, decide_False by done. lia.
  - eapply inv_move; [done|done|done|by destruct (running_ p)|]. intros W.
    apply waits_insert in W; [|by destruct (running_ p)]. destruct (I4 W) as [Hr L]. split; [done|].
    rewrite (taking_insert _ i AtTest) by done. rewrite (decide_False (P := AtTest = InTake)) by done.
    case_decide; lia.
  - assert (Hq : queue_ p = [] /\ running_ p = true).
    { unfold take in Ht. destruct (queue_ p); [|done]. by destruct (running_ p). }
    destruct Hq as [Eq Er]. eapply inv_move; [done|done|done|done|]. intros _. split; [done|].
    rewrite Eq. apply taking_nonneg.
  - destruct (notify_full_same _ _ _ N) as (N1 & N2 & N3 & N4 & N5 & N6 & N7 & N8 & N9). unfold take in Ht.
    destruct (queue_ p) as [|front q] eqn:Eq.
    + destruct (running_ p) eqn:Er; [done|]. cbn in Ht. injection Ht as <- <- <-.
      eapply inv_move; [|by rewrite N4|done|done|].
      * inversion N; subst. done.
      * intros W. rewrite N4 in W. apply waits_insert in W; [|done]. by destruct (I4 W) as [? _].
    + cbn [andb] in Ht. injection Ht as <- <- <-. cbn [running_ maxQueueSize_ queue_ workers submitted dispatched executed waiting calling] in *.
      destruct (current_insert p i InTake (Running front) Hi) as (r & P1 & P2). cbn in P1, P2.
      constructor; cbn [set_worker running_ maxQueueSize_ queue_ workers submitted dispatched executed waiting calling].
      * rewrite N5, N6, N3, I1. by rewrite <-app_assoc.
      * rewrite N6, N7, I2. unfold current. cbn [workers set_worker]. rewrite N4, P2, P1.
        rewrite <-app_assoc. apply Permutation_app_head. apply Permutation_app_comm.
      * rewrite N2, N3. intros Hm. specialize (I3 Hm). rewrite zlen_cons in I3. lia.
      * rewrite N4, N1, N3. intros W. apply waits_insert in W; [|done]. destruct (I4 W) as [Hr L]. split; [done|].
        rewrite (taking_insert _ i InTake) by done. rewrite decide_False, decide_True by done. rewrite zlen_cons in L. lia.
      * rewrite N2. intros W. by apply I5, N8.
      * rewrite N4. intros E. apply (f_equal length) in E. rewrite length_insert in E. apply lookup_lt_Some in Hi. cbn in E. lia.
  - destruct (current_insert p i (Running t) AtTest Hi) as (r & P1 & P2). cbn in P1, P2.
    constructor; cbn [set_worker finish running_ maxQueueSize_ queue_ workers submitted dispatched executed waiting calling]; try done.
    + rewrite I2. unfold current. cbn [workers set_worker finish]. rewrite P1, P2. by rewrite <-app_assoc.
    + intros W. apply waits_insert in W; [|done]. destruct (I4 W) as [Hr L]. split; [done|].
      rewrite (taking_insert _ i (Running t)) by done. rewrite !decide_False by done. lia.
    + intros E. apply (f_equal length) in E. rewrite length_insert in E. apply lookup_lt_Some in Hi. cbn in E. lia.
Qed.

Lemma start_inv maxQueueSize n : inv (start maxQueueSize n).
Proof.
  constructor; cbn; try done.
  - unfold current. cbn. induction n; cbn; done.
  - unfold zlen. cbn. lia.
  - intros W. by apply elem_of_replicate in W as [? _].
Qed.

Lemma pool_reachable_inv maxQueueSize n p : rtc any_step (start maxQueueSize n) p -> inv p.
Proof.
  intros R. pose proof (start_inv maxQueueSize n) as I. induction R as [|p1 p2 p3 [o S] _ IH]; [done|].
  apply IH. by eapply pool_step_inv.
Qed.

(** How many steps at most a worker makes before it returns, once the pool is
    stopped. *)
Definition rank (w : option worker) : nat :=
  match w with
  | None | Some Exited => 0
  | Some AtTest => 1
  | Some (Running _) => 2
  | Some InTake => 3
  | Some WaitEmpty => 4
  end.

Lemma rank_insert_lt (ws : list worker) i w w' : ws !! i = Some w -> (rank (Some w') < rank (Some w))%nat ->
  (rank (<[i := w']> ws !! i) < rank (ws !! i))%nat.
Proof. intros H Hr. by rewrite list_lookup_insert_eq, H by (by eapply lookup_lt_Some). Qed.

Lemma rank_insert_le (ws : list worker) i j w w' : ws !! i = Some w -> (rank (Some w') < rank (Some w))%nat ->
  (rank (<[i := w']> ws !! j) <= rank (ws !! j))%nat.
Proof.
  intros H Hr. destruct (decide (i = j)) as [<-|]; [pose proof (rank_insert_lt ws i w w' H Hr); lia|].
  by rewrite list_lookup_insert_ne.
Qed.

Lemma notify_empty_rank p p' j : notify_empty p p' ->
  running_ p' = running_ p /\ (rank (workers p' !! j) <= rank (workers p !! j))%nat.
Proof.
  destruct 1 as [|i Hi]; [done|]. split; [done|]. cbn [set_worker workers]. eapply rank_insert_le; [done|]. cbn. lia.
Qed.

(** After [stop], a step of worker [i] lowers its rank, and no step raises any. *)
Lemma stopped_step p o p' : running_ p = false -> step p o p' ->
  running_ p' = false /\ (forall j, (rank (workers p' !! j) <= rank (workers p !! j))%nat) /\
  (forall i, o = Some i -> (rank (workers p' !! i) < rank (workers p !! i))%nat).
Proof.
  intros Hr S.
  destruct S as [t| |c1 t c2 Ec Es|c1 t c2 p1 p2 Ec Es N|w1 t w2 Ew|i Hi|i Hi|i Hi Ht|i t n p1 p2 Hi Ht N|i t Hi].
  - unfold run. destruct (workers p) eqn:Ew; cbn; rewrite ?Ew; done.
  - split; [done|]. split; [|done]. intros j. cbn. rewrite list_lookup_fmap.
    destruct (workers p !! j) as [[]|]; cbn; lia.
  - done.
  - unfold run_section in Es. destruct (isFull p); [done|]. injection Es as <-.
    split; [|split; [|done]]; [destruct (notify_empty_rank _ _ O N) as [-> _]; done|].
    intros j. destruct (notify_empty_rank _ _ j N) as [_ L]. exact L.
  - done.
  - split; [done|]. split; [|done]. intros j. cbn. eapply rank_insert_le; [done|]. cbn. lia.
  - rewrite Hr. split; [done|]. cbn [set_worker workers].
    split; [intros j; eapply rank_insert_le|intros k [= <-]; eapply rank_insert_lt]; try done; cbn; lia.
  - unfold take in Ht. rewrite Hr, andb_false_r in Ht. by destruct (queue_ p).
  - destruct (notify_full_same _ _ _ N) as (N1 & _ & _ & N4 & _). unfold take in Ht. rewrite Hr, andb_false_r in Ht.
    destruct (queue_ p) as [|front q]; injection Ht as <- <- <-; cbn [set_worker workers running_] in *; rewrite N1, N4;
      (split; [done|]);
      (split; [intros j; eapply rank_insert_le|intros k [= <-]; eapply rank_insert_lt]); try done; cbn; lia.
  - split; [done|]. cbn [set_worker workers finish].
    split; [intros j; eapply rank_insert_le|intros k [= <-]; eapply rank_insert_lt]; try done; cbn; lia.
Qed.

Lemma notify_full_some p n : exists p', notify_full p n p'.
Proof.
  destruct n; [|exists p; constructor]. destruct (waiting p) as [|t w] eqn:E; [exists p; by constructor|].
  eexists. by apply (one_calls p [] t w).
Qed.

(** C18: The pool, with any number of threads and any limit, under every
    interleaving: the tasks are handed to the workers in the order they were
    queued, each once, and each task handed out has been run once or is running;
    the limit is kept; no assertion fails and no wake-up is lost (a worker never
    sleeps alone next to a queued task).  After [stop], no worker sleeps, each
    one that has not returned can go on, and returns after three steps of its own
    at most. *)
Theorem thread_pool_safe (maxQueueSize : Z) (numThreads : nat) (p : ThreadPool)
  (R : rtc any_step (start maxQueueSize numThreads) p) :
  submitted p = dispatched p ++ queue_ p /\ dispatched p ≡ₚ executed p ++ current p /\
  (0 < maxQueueSize_ p -> zlen (queue_ p) <= maxQueueSize_ p) /\
  (forall t, exists r, run_section t p = Ok r) /\
  (WaitEmpty ∈ workers p -> queue_ p <> [] -> InTake ∈ workers p) /\
  (running_ p = false ->
     (forall i w, workers p !! i = Some w -> w <> Exited ->
        (rank (Some w) <= 3)%nat /\ exists p', step p (Some i) p') /\
     (forall o p', step p o p' -> running_ p' = false /\
        (forall j, (rank (workers p' !! j) <= rank (workers p !! j))%nat) /\
        (forall i, o = Some i -> (rank (workers p' !! i) < rank (workers p !! i))%nat))).
Proof.
  apply pool_reachable_inv in R as [I1 I2 I3 I4 I5 I6]. split_and!; try done.
  - intros t. unfold run_section. destruct (isFull p); eauto.
  - intros W Hq. destruct (I4 W) as [_ L]. destruct (queue_ p) as [|t q]; [done|]. rewrite zlen_cons in L.
    pose proof (zlen_nonneg q). unfold taking in L.
    destruct (List.filter _ _) as [|w f] eqn:E; [change (zlen []) with 0 in L; lia|].
    assert (Hw : List.In w (List.filter (fun w => bool_decide (w = InTake)) (workers p))) by (rewrite E; by left).
    apply List.filter_In in Hw as [Hin Hw]. apply bool_decide_eq_true in Hw as ->. by apply list_elem_of_In.
  - intros Hr. split; [|intros o p' S; by apply (stopped_step p o)].
    intros i w Hi Hw. assert (Hne : w <> WaitEmpty).
    { intros ->. destruct (I4 ltac:(by eapply list_elem_of_lookup_2)) as [? _]. congruence. }
    split; [destruct w; cbn; try lia; done|]. destruct w as [| | |t|]; try done.
    + eexists. by apply step_test.
    + destruct (take p) as [|t n p1] eqn:Et.
      * unfold take in Et. rewrite Hr, andb_false_r in Et. by destruct (queue_ p).
      * destruct (notify_full_some p1 n) as [p2 N]. eexists. by eapply step_take.
    + eexists. by apply step_task.
Qed.

(** Stopping a pool can leave tasks behind.  Once it is stopped and its workers
    have returned, what is queued is never run; and if the queue is full, a
    caller of [run] that waits for room is never notified and never queues its
    task, whatever happens. *)
Theorem stop_strands_callers (maxQueueSize : Z) (numThreads : nat) (p p' : ThreadPool) (task : Z)
  (R : rtc any_step (start maxQueueSize numThreads) p) (Hr : running_ p = false)
  (Hw : Forall (fun w => w = Exited) (workers p)) (Hn : workers p <> []) (Hf : isFull p = true)
  (Ht : task ∈ calling p ++ waiting p) (R' : rtc any_step p p') :
  queue_ p' = queue_ p /\ submitted p' = submitted p /\ executed p' = executed p /\
  task ∈ calling p' ++ waiting p'.
Proof.
  clear R. remember (workers p) as ws eqn:Ews.
  assert (I : workers p = ws /\ maxQueueSize_ p = maxQueueSize_ p /\ isFull p = true /\ task ∈ calling p ++ waiting p) by done.
  cut (workers p' = ws /\ queue_ p' = queue_ p /\ submitted p' = submitted p /\ executed p' = executed p /\
       isFull p' = true /\ task ∈ calling p' ++ waiting p'); [tauto|].
  clear Ews Hf Ht. destruct I as (E & _ & Hf & Ht). clear Hr.
  induction R' as [p|p1 p2 p3 [o S] _ IH]; [done|].
  assert (H2 : workers p2 = ws /\ queue_ p2 = queue_ p1 /\ submitted p2 = submitted p1 /\ executed p2 = executed p1 /\
       isFull p2 = true /\ task ∈ calling p2 ++ waiting p2).
  { assert (X : forall i w, workers p1 !! i = Some w -> w = Exited).
    { intros i w Hi. rewrite E in Hi. rewrite Forall_forall in Hw. apply Hw. by eapply list_elem_of_lookup_2. }
    destruct S as [t| |c1 t c2 Ec Es|c1 t c2 q1 q2 Ec Es N|w1 t w2 Ew|i Hi|i Hi|i Hi Hq|i t n q1 q2 Hi Hq N|i t Hi];
      try (by apply X in Hi).
    - unfold run. destruct (workers p1) as [|w ws'] eqn:E1; [congruence|]. cbn [set_callers workers queue_ submitted executed calling waiting].
      rewrite E1. split_and!; try done. set_solver.
    - cbn [stop workers queue_ submitted executed calling waiting]. split_and!; try done. rewrite E.
      clear -Hw. induction Hw as [|w l -> _ IH]; cbn; congruence.
    - cbn [set_callers workers queue_ submitted executed calling waiting]. split_and!; try done. rewrite Ec in Ht. set_solver.
    - unfold run_section in Es. by rewrite Hf in Es.
    - cbn [set_callers workers queue_ submitted executed calling waiting]. split_and!; try done. rewrite Ew in Ht. set_solver. }
  destruct H2 as (E2 & Q2 & S2 & X2 & F2 & T2). destruct (IH E2 F2 T2) as (E3 & Q3 & S3 & X3 & F3 & T3).
  split_and!; congruence || done.
Qed.

(** One thread and a limit of one: the second caller waits when the pool stops. *)
Definition ex_stopped : ThreadPool := mkPool false 1 [5] [Exited] [] [6] [5] [] [].
Lemma ex_stopped_reachable : rtc any_step (start 1 1) ex_stopped.
Proof.
  eapply rtc_l; [exists None; apply (step_run _ 5)|]. cbn.
  eapply rtc_l; [exists None; eapply (step_queue _ [] 5 []); [done|done|apply nobody_takes; cbn; by apply (bool_decide_unpack _)]|]. cbn.
  eapply rtc_l; [exists None; apply (step_run _ 6)|]. cbn.
  eapply rtc_l; [exists None; by apply (step_wait _ [] 6 [])|]. cbn.
  eapply rtc_l; [exists None; apply step_stop|]. cbn.
  eapply rtc_l; [exists (Some 0%nat); by apply (step_test _ 0)|]. apply rtc_refl.
Qed.

Lemma thread_pool_safe_witness : submitted ex_stopped = dispatched ex_stopped ++ queue_ ex_stopped /\
  zlen (queue_ ex_stopped) <= 1.
Proof.
  destruct (thread_pool_safe 1 1 ex_stopped ex_stopped_reachable) as (E & _ & B & _).
  split; [exact E|]. apply B. done.
Defined.

Lemma stop_strands_callers_witness (p' := set_callers [6] [] ex_stopped) :
  rtc any_step ex_stopped p' /\ submitted p' = [5] /\ executed p' = [].
Proof.
  assert (R : rtc any_step ex_stopped p')
    by (eapply rtc_l; [exists None; by apply (step_spurious_caller _ [] 6 [])|apply rtc_refl]).
  destruct (stop_strands_callers 1 1 ex_stopped p' 6 ex_stopped_reachable) as (_ & E & X & _).
  - done.
  - by repeat constructor.
  - done.
  - done.
  - by apply (bool_decide_unpack _).
  - exact R.
  - split; [exact R|]. split; [exact E|exact X].
Defined.
