(* ===== verification/PoolWorkers.v ===== *)
(** * The workers of a thread pool (cnet/base/ThreadPool.cc, runInThread)

    What ThreadPool leaves out: the threads with their names, the callback that
    each runs first, and what becomes of a worker, or of the process, when a
    task throws.  The worker runs inside Thread's own [runInThread]. *)

From stdpp Require Import relations.
From S2P Require Import Prelude Cstd Thread ThreadPool.

(** The name of the thread at position [i]. *)
Definition thread_name (name : bytes) (i : nat) : bytes := name ++ snprintf 32 (fmt_u (Z.of_nat i + 1)).

(** ** The handlers of [runInThread]

    What is written to stderr, and how the function ends: it returns or throws
    on, or the process is aborted ([None]). *)
Definition worker_end (name : bytes) (o : func_outcome) : bytes * option func_outcome :=
  let caught := bs "exception caught in ThreadPool " ++ cstr name ++ [LF] in
  match o with
  | Returns => ([], Some Returns)
  | ThrowsException what stack =>
      (caught ++ bs "reason: " ++ cstr what ++ [LF] ++ bs "statck trace: " ++ cstr stack ++ [LF], Some Returns)
  | ThrowsStd what => (caught ++ bs "reason: " ++ cstr what ++ [LF], None)
  | ThrowsOther => (bs "unknown " ++ caught, Some ThrowsOther)
  end.

(** The whole thread: what it writes, and whether the process ends. *)
Definition thread_end (name : bytes) (i : nat) (o : func_outcome) : bytes * bool :=
  let (text, f) := worker_end name o in
  match f with
  | None => (text, true)
  | Some f => let r := runInThread 0 true (thread_name name i) f in (text ++ stderr r, terminates r)
  end.

Definition throws (o : func_outcome) : bool := match o with Returns => false | _ => true end.
Definition fatal (o : func_outcome) : bool := match o with ThrowsStd _ | ThrowsOther => true | _ => false end.

Lemma thread_end_fatal name i o : (thread_end name i o).2 = fatal o.
Proof. by destruct o. Qed.

(** ** The pool with its threads *)

Section pool.
(** How each task ends, and the callback in each thread; without a callback,
    [Returns]. *)
Context (name_ : bytes) (task_outcome : Z -> func_outcome) (threadInitCallback_ : nat -> func_outcome).

(** What threw in a worker: a task, or the callback. *)
Definition outcome (d : nat * option Z) : func_outcome :=
  match d.2 with Some t => task_outcome t | None => threadInitCallback_ d.1 end.
Definition report (d : nat * option Z) : bytes := (thread_end name_ d.1 (outcome d)).1.

(** [starting]: the threads that have not run the callback; [deaths]: the
    workers that left by an exception, and what threw; [killer]: what ended the
    process; [written]: stderr. *)
Record Pool := mkWorkers {
  pool : ThreadPool;
  starting : list nat;
  deaths : list (nat * option Z);
  killer : option (nat * option Z);
  written : bytes;
}.

Definition start_workers (maxQueueSize : Z) (numThreads : nat) : Pool :=
  mkWorkers (start maxQueueSize numThreads) (seq 0 numThreads) [] None [].

Definition initialised (i : nat) (s : Pool) : list nat := List.filter (fun j => negb (Nat.eqb i j)) (starting s).

(** [d] leaves [runInThread] by an exception, the pool being [p]. *)
Definition leave (d : nat * option Z) (p : ThreadPool) (starts : list nat) (s : Pool) : Pool :=
  let (text, over) := thread_end name_ d.1 (outcome d) in
  if over then mkWorkers (pool s) (starting s) (deaths s) (Some d) (written s ++ text)
  else mkWorkers (set_worker d.1 Exited p) starts (deaths s ++ [d]) None (written s ++ text).

Inductive pool_step (s : Pool) : Pool -> Prop :=
| ps_init i : killer s = None -> i ∈ starting s -> threadInitCallback_ i = Returns ->
    pool_step s (mkWorkers (pool s) (initialised i s) (deaths s) None (written s))
| ps_init_throws i : killer s = None -> i ∈ starting s -> throws (threadInitCallback_ i) = true ->
    pool_step s (leave (i, None) (pool s) (initialised i s) s)
| ps_pool o p : killer s = None -> step (pool s) o p ->
    (forall i, o = Some i -> i ∉ starting s /\
       forall t, workers (pool s) !! i = Some (Running t) -> task_outcome t = Returns) ->
    pool_step s (mkWorkers p (starting s) (deaths s) None (written s))
| ps_task_throws i t : killer s = None -> i ∉ starting s -> workers (pool s) !! i = Some (Running t) ->
    throws (task_outcome t) = true ->
    pool_step s (leave (i, Some t) (finish t (pool s)) (starting s) s).

(** ** Invariant *)

Definition exited (ws : list worker) : Z := zlen (List.filter (fun w => bool_decide (w = Exited)) ws).

Lemma exited_app l1 l2 : exited (l1 ++ l2) = exited l1 + exited l2.
Proof. unfold exited. by rewrite List.filter_app, zlen_app. Qed.
Lemma exited_cons w l : exited (w :: l) = (if decide (w = Exited) then 1 else 0) + exited l.
Proof.
  unfold exited. cbn [List.filter]. destruct (decide (w = Exited)) as [->|];
    [rewrite bool_decide_eq_true_2 by done; by rewrite zlen_cons|by rewrite bool_decide_eq_false_2].
Qed.
Lemma exited_insert ws i w w' : ws !! i = Some w ->
  exited (<[i := w']> ws) = exited ws + (if decide (w' = Exited) then 1 else 0) - (if decide (w = Exited) then 1 else 0).
Proof.
  intros H. destruct (insert_split _ _ _ H) as (l1 & l2 & E1 & E2). rewrite E2, E1, !exited_app, !exited_cons. lia.
Qed.

Definition failing (l : list Z) : list Z := List.filter (fun t => throws (task_outcome t)) l.

(** What a step of the pool does to the workers and the tasks, while it runs. *)
Lemma step_exited p o p' : workers p <> [] -> step p o p' ->
  length (workers p') = length (workers p) /\
  (running_ p' = true -> running_ p = true /\ exited (workers p') = exited (workers p)) /\
  (executed p' = executed p \/ exists i t, o = Some i /\ workers p !! i = Some (Running t) /\ executed p' = executed p ++ [t]) /\
  (forall i, o <> Some i -> workers p !! i = Some AtTest -> workers p' !! i = Some AtTest).
Proof.
  intros Hne S.
  assert (X : forall i w w', workers p !! i = Some w -> w <> Exited -> w' <> Exited ->
    exited (<[i := w']> (workers p)) = exited (workers p))
    by (intros i w w' Hi H1 H2; rewrite (exited_insert _ i w) by done; rewrite !decide_False by done; lia).
  assert (A : forall i j w w', workers p !! i = Some w -> w <> AtTest -> workers p !! j = Some AtTest ->
    <[i := w']> (workers p) !! j = Some AtTest)
    by (intros i j w w' Hi Hw Hj; rewrite list_lookup_insert_ne; [done|intros ->; congruence]).
  destruct S as [t| |c1 t c2 Ec Es|c1 t c2 p1 p2 Ec Es N|w1 t w2 Ew|i Hi|i Hi|i Hi Ht|i t n p1 p2 Hi Ht N|i t Hi].
  - unfold run. destruct (workers p) eqn:E; [done|]. cbn. rewrite E. split_and!; auto.
  - cbn. split_and!; auto; [by rewrite length_map|done|]. intros i _ Hi. rewrite list_lookup_fmap, Hi. done.
  - cbn. split_and!; auto.
  - unfold run_section in Es. destruct (isFull p); [done|]. injection Es as <-. destruct N as [|i Hi]; cbn in *; [split_and!; auto|].
    split_and!; auto; [by rewrite length_insert| |].
    + intros Hr. split; [done|]. by apply (X i WaitEmpty).
    + intros j _ Hj. by apply (A i j WaitEmpty).
  - cbn. split_and!; auto.
  - cbn. split_and!; auto; [by rewrite length_insert| |].
    + intros Hr. split; [done|]. by apply (X i WaitEmpty).
    + intros j _ Hj. by apply (A i j WaitEmpty).
  - cbn. split_and!; auto; [by rewrite length_insert| |].
    + intros Hr. rewrite Hr. split; [done|]. by apply (X i AtTest).
    + intros j Hj1 Hj. rewrite list_lookup_insert_ne; [done|congruence].
  - cbn. split_and!; auto; [by rewrite length_insert| |].
    + intros Hr. split; [done|]. by apply (X i InTake).
    + intros j _ Hj. by apply (A i j InTake).
  - destruct (notify_full_same _ _ _ N) as (N1 & N2 & N3 & N4 & N5 & N6 & N7 & N8 & N9).
    assert (E1 : running_ p1 = running_ p /\ workers p1 = workers p /\ executed p1 = executed p).
    { unfold take in Ht. destruct (_ && _); [done|]. by destruct (queue_ p); injection Ht as <- <- <-. }
    destruct E1 as (E1 & E2 & E3). cbn [set_worker running_ workers executed]. rewrite N1, N4, N7, E1, E2, E3.
    split_and!; auto; [by rewrite length_insert| |].
    + intros Hr. split; [done|]. apply (X i InTake); by destruct t.
    + intros j _ Hj. by apply (A i j InTake).
  - cbn. split_and!; [by rewrite length_insert| | |].
    + intros Hr. split; [done|]. by apply (X i (Running t)).
    + right. by exists i, t.
    + intros j _ Hj. by apply (A i j (Running t)).
Qed.

Record pool_inv (numThreads : nat) (s : Pool) : Prop := mkPoolInv {
  pi_pool : inv (pool s);
  pi_workers : length (workers (pool s)) = numThreads;
  pi_starting : Forall (fun i => workers (pool s) !! i = Some AtTest) (starting s);
  pi_exited : running_ (pool s) = true -> exited (workers (pool s)) = zlen (deaths s);
  pi_failing : omap snd (deaths s) = failing (executed (pool s));
  pi_survived : Forall (fun t => fatal (task_outcome t) = false) (executed (pool s));
  pi_deaths : Forall (fun d => throws (outcome d) = true /\ fatal (outcome d) = false) (deaths s);
  pi_killer : forall d, killer s = Some d -> fatal (outcome d) = true /\ forall t, d.2 = Some t -> t ∈ dispatched (pool s);
  pi_written : written s = concat (map report (deaths s ++ option_list (killer s)));
}.

Lemma failing_snoc l t : failing (l ++ [t]) = failing l ++ (if throws (task_outcome t) then [t] else []).
Proof. unfold failing. rewrite List.filter_app. cbn. by destruct (throws _). Qed.

(** A worker that leaves by an exception, from the state [w], its task done. *)
Lemma leave_inv p i w : inv p -> workers p !! i = Some w -> running_task w = [] -> w <> InTake -> inv (set_worker i Exited p).
Proof.
  intros I Hi Hr Hw. eapply inv_move; [done|done|done|done|]. intros W. apply waits_insert in W; [|done].
  destruct (inv_wait _ I W) as [Hrun L]. split; [done|]. rewrite (taking_insert _ i w) by done.
  rewrite decide_False, decide_False by done. lia.
Qed.

Lemma task_leave_inv p i t : inv p -> workers p !! i = Some (Running t) -> inv (set_worker i Exited (finish t p)).
Proof.
  intros I Hi. pose proof (pool_step_inv p _ _ I (step_task p i t Hi)) as I1.
  assert (H : workers (set_worker i AtTest (finish t p)) !! i = Some AtTest)
    by (cbn; rewrite list_lookup_insert_eq; [done|by eapply lookup_lt_Some]).
  pose proof (leave_inv _ i AtTest I1 H eq_refl ltac:(done)) as I2. revert I2.
  unfold set_worker at 1 2. cbn. by rewrite list_insert_insert_eq.
Qed.

Lemma exited_replicate n : exited (replicate n AtTest) = 0.
Proof. induction n as [|n IH]; [done|]. cbn [replicate]. rewrite exited_cons, IH. done. Qed.

Lemma start_workers_inv maxQueueSize n : pool_inv n (start_workers maxQueueSize n).
Proof.
  constructor; cbn; try done.
  - apply start_inv.
  - apply length_replicate.
  - apply Forall_forall. intros i Hi. apply elem_of_seq in Hi. apply lookup_replicate. split; [done|lia].
  - intros _. apply exited_replicate.
Qed.

Lemma initialised_spec i j s : j ∈ initialised i s <-> j ∈ starting s /\ j <> i.
Proof.
  unfold initialised. rewrite !list_elem_of_In, List.filter_In, negb_true_iff, Nat.eqb_neq. split; intros [? ?]; split; auto.
Qed.

Lemma initialised_at n i s : pool_inv n s ->
  Forall (fun j => workers (pool s) !! j = Some AtTest) (initialised i s).
Proof.
  intros I. apply Forall_forall. intros j Hj. apply initialised_spec in Hj as [Hj _].
  pose proof (pi_starting _ _ I) as H. rewrite Forall_forall in H. by apply H.
Qed.

Lemma running_dispatched p i t : inv p -> workers p !! i = Some (Running t) -> t ∈ dispatched p.
Proof.
  intros I Hi. rewrite (inv_once _ I). apply elem_of_app. right. unfold current.
  destruct (current_insert p i _ AtTest Hi) as (r & P & _). rewrite P. apply elem_of_app. left. by left.
Qed.

(** A worker that leaves, from the state [w], the pool being [p] after its task. *)
Lemma leave_pool_inv n s d p starts w : pool_inv n s -> killer s = None -> throws (outcome d) = true ->
  (forall t, d.2 = Some t -> t ∈ dispatched (pool s)) ->
  workers p = workers (pool s) -> running_ p = running_ (pool s) -> workers p !! d.1 = Some w -> w <> Exited ->
  inv (set_worker d.1 Exited p) -> executed p = executed (pool s) ++ option_list d.2 ->
  Forall (fun i => workers (pool s) !! i = Some AtTest /\ i <> d.1) starts -> pool_inv n (leave d p starts s).
Proof.
  intros I K T D W R Hw Hne Ip X St. unfold leave.
  pose proof (thread_end_fatal name_ d.1 (outcome d)) as F. pose proof (pi_written _ _ I) as Wr.
  rewrite K, app_nil_r in Wr. assert (Er : report d = (thread_end name_ d.1 (outcome d)).1) by done.
  destruct (thread_end _ _ _) as [text over]. cbn in F, Er. subst over text. destruct (fatal (outcome d)) eqn:F.
  - destruct I. constructor; cbn; try done.
    + by intros d' [= <-].
    + rewrite Wr, map_app, concat_app. cbn. by rewrite app_nil_r.
  - destruct I as [I1 I2 I3 I4 I5 I6 I7 I8 I9]. constructor; cbn; try done.
    + by rewrite length_insert, W.
    + eapply Forall_impl; [exact St|]. intros i [Hi Hd]. by rewrite list_lookup_insert_ne, W.
    + intros Hr. rewrite (exited_insert _ d.1 w), decide_True, decide_False, W, I4, zlen_app by congruence.
      change (zlen [d]) with 1. lia.
    + rewrite omap_app, I5, X. destruct d as [i [t|]]; cbn; [|by rewrite !app_nil_r].
      rewrite failing_snoc. unfold outcome in T. cbn in T. by rewrite T.
    + rewrite X. apply Forall_app. split; [done|]. destruct d as [i [t|]]; cbn; repeat constructor. exact F.
    + apply Forall_app. split; [done|]. by repeat constructor.
    + rewrite Wr, app_nil_r, map_app, concat_app. cbn. by rewrite app_nil_r.
Qed.

Lemma pool_steps_inv n s s' : n <> 0%nat -> pool_inv n s -> pool_step s s' -> pool_inv n s'.
Proof.
  intros Hn I S. destruct S as [i K Hi Ho|i K Hi Ho|o p K S Ho|i t K Hi Ht Ho].
  - pose proof (initialised_at n i s I). destruct I as [I1 I2 I3 I4 I5 I6 I7 I8 I9]. constructor; cbn; try done.
    by rewrite K in I9.
  - pose proof (pi_starting _ _ I) as H. rewrite Forall_forall in H. specialize (H i Hi) as Hw.
    eapply (leave_pool_inv n s (i, None) _ _ AtTest); try done; [|by rewrite app_nil_r|].
    + by apply (leave_inv _ i AtTest); [apply I| | |].
    + apply Forall_forall. intros j Hj. apply initialised_spec in Hj as [Hj Hne]. split; [by apply H|done].
  - assert (Hne : workers (pool s) <> []) by (intros E; pose proof (pi_workers _ _ I) as L; rewrite E in L; by apply Hn).
    destruct (step_exited _ _ _ Hne S) as (L & X & E & A).
    destruct I as [I1 I2 I3 I4 I5 I6 I7 I8 I9].
    assert (F : omap snd (deaths s) = failing (executed p) /\ Forall (fun t => fatal (task_outcome t) = false) (executed p)).
    { destruct E as [->|(i & t & -> & Hi & ->)]; [done|]. destruct (Ho i eq_refl) as [_ Hr]. specialize (Hr t Hi).
      rewrite failing_snoc, Hr, app_nil_r. split; [done|]. apply Forall_app. split; [done|]. repeat constructor. by rewrite Hr. }
    destruct F as [F1 F2]. constructor; cbn; try done.
    + by eapply pool_step_inv.
    + by rewrite L.
    + rewrite Forall_forall in I3 |- *. intros i Hi. apply A; [|by apply I3]. intros ->. by destruct (Ho i eq_refl).
    + intros Hr. destruct (X Hr) as [Hr' ->]. by apply I4.
    + by rewrite K in I9.
  - pose proof (pi_starting _ _ I) as H. rewrite Forall_forall in H.
    eapply (leave_pool_inv n s (i, Some t) _ _ (Running t)); try done; [|by apply task_leave_inv; [apply I|]|].
    + intros t' [= <-]. apply (running_dispatched _ i); [apply I|done].
    + apply Forall_forall. intros j Hj. split; [by apply H|]. cbn. by intros ->.
Qed.
Lemma workers_inv maxQueueSize n s : n <> 0%nat -> rtc pool_step (start_workers maxQueueSize n) s -> pool_inv n s.
Proof.
  intros Hn R. pose proof (start_workers_inv maxQueueSize n) as I.
  induction R as [|s1 s2 s3 S _ IH]; [done|]. apply IH. by eapply pool_steps_inv.
Qed.

Definition all_exited (ws : list worker) : Prop := Forall (fun w => w = Exited) ws.
#[global] Instance all_exited_dec ws : Decision (all_exited ws).
Proof. unfold all_exited. apply _. Defined.

Lemma exited_all ws : all_exited ws -> exited ws = zlen ws.
Proof. induction 1 as [|w ws -> _ IH]; [done|]. by rewrite exited_cons, IH, zlen_cons. Qed.

(** A pool without workers: whatever happens, no task is handed out. *)
Lemma dead_step n s s' : n <> 0%nat -> pool_inv n s -> all_exited (workers (pool s)) -> pool_step s s' ->
  all_exited (workers (pool s')) /\ dispatched (pool s') = dispatched (pool s) /\ executed (pool s') = executed (pool s).
Proof.
  intros Hn I A S. unfold all_exited in *. rewrite Forall_forall in A.
  assert (X : forall i w, workers (pool s) !! i = Some w -> w = Exited) by (intros i w H; apply A; by eapply list_elem_of_lookup_2).
  pose proof (pi_starting _ _ I) as St. rewrite Forall_forall in St.
  assert (Hne : workers (pool s) <> []) by (intros E; pose proof (pi_workers _ _ I) as L; rewrite E in L; by apply Hn).
  destruct S as [i K Hi Ho|i K Hi Ho|o p K S Ho|i t K Hi Ht Ho]; [| |cbn|].
  - by apply St, X in Hi.
  - by apply St, X in Hi.
  - rewrite <- Forall_forall in A.
    destruct S as [t| |c1 t c2 Ec Es|c1 t c2 q1 q2 Ec Es N|w1 t w2 Ew|i Hi|i Hi|i Hi Hq|i t m q1 q2 Hi Hq N|i t Hi];
      try (by apply X in Hi); try done.
    + unfold run. destruct (workers (pool s)) eqn:Ew; [done|]. cbn. by rewrite Ew.
    + cbn. split; [|done]. clear -A. induction A as [|w l -> _ IH]; by constructor.
    + unfold run_section in Es. destruct (isFull _); [done|]. injection Es as <-.
      destruct N as [|i Hi]; [done|by apply X in Hi].
  - by apply X in Ht.
Qed.

Lemma dead_pool n s s' : n <> 0%nat -> pool_inv n s -> all_exited (workers (pool s)) -> rtc pool_step s s' ->
  dispatched (pool s') = dispatched (pool s) /\ executed (pool s') = executed (pool s).
Proof.
  intros Hn I A R. induction R as [|s1 s2 s3 S _ IH]; [done|].
  destruct (dead_step n s1 s2 Hn I A S) as (A2 & E1 & E2).
  rewrite <- E1, <- E2. apply IH; [by eapply pool_steps_inv|done].
Qed.

(** While fewer workers have died than were started, one can go on. *)
Lemma survivor n s : pool_inv n s -> running_ (pool s) = true -> zlen (deaths s) < Z.of_nat n -> queue_ (pool s) <> [] ->
  exists i w, workers (pool s) !! i = Some w /\ w <> Exited /\ w <> WaitEmpty.
Proof.
  intros I Hr Hd Hq. pose proof (pi_exited _ _ I Hr) as E. pose proof (pi_workers _ _ I) as L.
  destruct (decide (Exists (fun w => w <> Exited /\ w <> WaitEmpty) (workers (pool s)))) as [Ex|Nx].
  { apply Exists_exists in Ex as (w & Hw & H). apply list_elem_of_lookup in Hw as [i Hi]. by exists i, w. }
  exfalso. apply not_Exists_Forall in Nx; [|apply _]. rewrite Forall_forall in Nx.
  destruct (decide (WaitEmpty ∈ workers (pool s))) as [W|W].
  - destruct (inv_wait _ (pi_pool _ _ I) W) as [_ T]. destruct (queue_ (pool s)) as [|t q]; [done|].
    rewrite zlen_cons in T. pose proof (zlen_nonneg q). unfold taking in T.
    destruct (List.filter _ _) as [|w f] eqn:F; [change (zlen []) with 0 in T; lia|].
    assert (Hw : List.In w (List.filter (fun w => bool_decide (w = InTake)) (workers (pool s)))) by (rewrite F; by left).
    apply List.filter_In in Hw as [Hin Hw]. apply bool_decide_eq_true in Hw as ->. apply list_elem_of_In in Hin.
    by apply (Nx InTake).
  - assert (A : all_exited (workers (pool s))).
    { apply Forall_forall. intros w Hw. destruct (decide (w = Exited)) as [|Hne]; [done|].
      exfalso. apply (Nx w Hw). split; [done|]. by intros ->. }
    rewrite (exited_all _ A) in E. unfold zlen in *. lia.
Qed.

Lemma survivor_steps n s i w : pool_inv n s -> killer s = None -> workers (pool s) !! i = Some w -> w <> Exited -> w <> WaitEmpty ->
  exists s', pool_step s s'.
Proof.
  intros I K Hi Hw Hw'. destruct (decide (i ∈ starting s)) as [St|St].
  - destruct (throws (threadInitCallback_ i)) eqn:T; eexists; [by eapply ps_init_throws|eapply ps_init; try done].
    by destruct (threadInitCallback_ i).
  - assert (D : (exists t, w = Running t /\ throws (task_outcome t) = true) \/ exists p, step (pool s) (Some i) p /\
      forall t, w = Running t -> task_outcome t = Returns).
    { destruct w as [| | |t|]; try done.
      - right. eexists. split; [by apply step_test|done].
      - right. destruct (take (pool s)) as [|t m p1] eqn:T; [eexists; split; [by apply step_take_waits|done]|].
        destruct (notify_full_some p1 m) as [p2 N]. eexists. split; [by eapply step_take|done].
      - destruct (throws (task_outcome t)) eqn:T; [left; by exists t|right].
        eexists. split; [by apply step_task|]. intros t' [= <-]. by destruct (task_outcome t). }
    destruct D as [(t & -> & T)|(p & S & Hr)]; [eexists; by eapply ps_task_throws|].
    eexists. eapply (ps_pool s (Some i) p); [done|done|]. intros j [= <-]. split; [done|]. intros t Ht. apply Hr. congruence.
Qed.
End pool.

(** C19: A pool of at least one thread, under every interleaving, whatever the
    tasks and the initial callback throw.  The queue keeps its order and its
    count.  The tasks that threw a cnet Exception are, in the order they were run,
    those that ended a worker; any other exception ends the process, and its task
    had been handed out; stderr holds the report of each, in order.  While the
    pool runs, the workers that have returned are those, so a queued task is never
    left while fewer have died than were started: some worker is awake, and can
    step.  Once every worker has died, nothing is ever handed out again. *)
Theorem pool_exceptions (name_ : bytes) (task_outcome : Z -> func_outcome) (threadInitCallback_ : nat -> func_outcome)
    (maxQueueSize : Z) (numThreads : nat) (s : Pool) (Hn : numThreads <> 0%nat)
    (R : rtc (pool_step name_ task_outcome threadInitCallback_) (start_workers maxQueueSize numThreads) s) :
  (submitted (pool s) = dispatched (pool s) ++ queue_ (pool s) /\
   dispatched (pool s) ≡ₚ executed (pool s) ++ current (pool s)) /\
  omap snd (deaths s) = failing task_outcome (executed (pool s)) /\
  Forall (fun d => exists what stack, outcome task_outcome threadInitCallback_ d = ThrowsException what stack) (deaths s) /\
  (forall d, killer s = Some d -> fatal (outcome task_outcome threadInitCallback_ d) = true /\
     forall t, d.2 = Some t -> t ∈ dispatched (pool s)) /\
  written s = concat (map (report name_ task_outcome threadInitCallback_) (deaths s ++ option_list (killer s))) /\
  (running_ (pool s) = true ->
     exited (workers (pool s)) = zlen (deaths s) /\
     (zlen (deaths s) < Z.of_nat numThreads -> queue_ (pool s) <> [] -> killer s = None ->
        exists i w s', workers (pool s) !! i = Some w /\ w <> Exited /\ w <> WaitEmpty /\
          pool_step name_ task_outcome threadInitCallback_ s s')) /\
  (all_exited (workers (pool s)) -> forall s', rtc (pool_step name_ task_outcome threadInitCallback_) s s' ->
     dispatched (pool s') = dispatched (pool s) /\ executed (pool s') = executed (pool s)).
Proof.
  pose proof (workers_inv _ _ _ maxQueueSize numThreads s Hn R) as I. split_and!; try apply I.
  - eapply Forall_impl; [apply I|]. intros d [T F]. destruct (outcome _ _ d); try done. by eauto.
  - intros Hr. split; [by apply I|]. intros Hd Hq K. destruct (survivor _ _ _ _ _ I Hr Hd Hq) as (i & w & Hi & Hw & Hw').
    destruct (survivor_steps _ _ _ _ _ _ _ I K Hi Hw Hw') as [s' S]. by exists i, w, s'.
  - intros A s'. by eapply dead_pool.
Qed.

(** A pool of one thread, whose first task throws: the second one stays queued
    although the pool runs. *)
Definition ex_outcome (t : Z) : func_outcome := if t =? 1 then ThrowsException (bs "oops") (bs "stack") else Returns.
Definition ex_dead : Pool :=
  mkWorkers (mkPool true 0 [2] [Exited] [] [] [1; 2] [1] [1]) [] [(0%nat, Some 1)] None
    (bs "exception caught in ThreadPool p" ++ [LF] ++ bs "reason: oops" ++ [LF] ++ bs "statck trace: stack" ++ [LF]).

Lemma ex_dead_reachable : rtc (pool_step (bs "p") ex_outcome (fun _ => Returns)) (start_workers 0 1) ex_dead.
Proof.
  assert (W : forall i, Some i = Some 0%nat -> i ∉ ([] : list nat)) by (intros ? _ H; by apply elem_of_nil in H).
  eapply rtc_l; [by apply (ps_init _ _ _ _ 0); [|left|]|]. cbn.
  eapply rtc_l; [eapply (ps_pool _ _ _ _ None); [done|apply (step_run _ 1)|done]|]. cbn.
  eapply rtc_l; [eapply (ps_pool _ _ _ _ None); [done|eapply (step_queue _ [] 1 []); [done|done|apply nobody_takes; by apply (bool_decide_unpack _)]|done]|]. cbn.
  eapply rtc_l; [eapply (ps_pool _ _ _ _ (Some 0%nat)); [done|by apply (step_test _ 0)|intros i E; split; [by apply W|by injection E as <-]]|]. cbn.
  eapply rtc_l; [eapply (ps_pool _ _ _ _ (Some 0%nat)); [done|eapply (step_take _ 0); [done|done|apply notify_not]|intros i E; split; [by apply W|by injection E as <-]]|]. cbn.
  eapply rtc_l; [apply (ps_task_throws _ _ _ _ 0 1); [done|by apply (bool_decide_unpack _)|done|done]|]. cbn.
  eapply rtc_l; [eapply (ps_pool _ _ _ _ None); [done|apply (step_run _ 2)|done]|]. cbn.
  eapply rtc_l; [eapply (ps_pool _ _ _ _ None); [done|eapply (step_queue _ [] 2 []); [done|done|apply nobody_takes; by apply (bool_decide_unpack _)]|done]|].
  vm_compute. apply rtc_refl.
Qed.

Lemma pool_exceptions_witness :
  (forall s', rtc (pool_step (bs "p") ex_outcome (fun _ => Returns)) ex_dead s' -> executed (pool s') = [1]) /\
  exited (workers (pool ex_dead)) = 1.
Proof.
  destruct (pool_exceptions (bs "p") ex_outcome (fun _ => Returns) 0 1 ex_dead ltac:(done) ex_dead_reachable)
    as (_ & _ & _ & _ & _ & L & D).
  split; [|exact (proj1 (L eq_refl))]. intros s' R. apply (D ltac:(by repeat constructor) s' R).
Defined.
