(* ===== verification/Sudoku.v ===== *)
(** * The sudoku solver (examples/sudoku/sudoku.cc, sudoku.h)

    Knuth's dancing links, as the code has them: an array of nodes that point to
    one another.  A pointer is the index of its node in [nodes_]; the array is a
    finite map whose domain is what has been allocated, so that any other access
    is undefined.  The loops along the rings take fuel; SudokuSearch shows that
    what they are given is enough. *)

From stdpp Require Import gmap.
From S2P Require Import Prelude.

(** ** Nodes *)

Record Node := mkNode {
  left : Z;
  right : Z;
  up : Z;
  down : Z;
  col : Z;
  name : Z;
  size : Z;
}.

Abbreviation mem := (gmap Z Node).

Definition set_left (v : Z) (n : Node) : Node := mkNode v (right n) (up n) (down n) (col n) (name n) (size n).
Definition set_right (v : Z) (n : Node) : Node := mkNode (left n) v (up n) (down n) (col n) (name n) (size n).
Definition set_up (v : Z) (n : Node) : Node := mkNode (left n) (right n) v (down n) (col n) (name n) (size n).
Definition set_down (v : Z) (n : Node) : Node := mkNode (left n) (right n) (up n) v (col n) (name n) (size n).
Definition set_col (v : Z) (n : Node) : Node := mkNode (left n) (right n) (up n) (down n) v (name n) (size n).
Definition add_size (d : Z) (n : Node) : Node :=
  mkNode (left n) (right n) (up n) (down n) (col n) (name n) (size n + d).

Definition load (p : Z) (m : mem) : res Node :=
  match m !! p with Some n => Ok n | None => Err EUndefined end.
Definition modify (f : Node -> Node) (p : Z) (m : mem) : res mem :=
  let* _ := load p m in Ok (alter f p m).

(** [for (j = first; j != stop; j = j->next) body]. *)
Fixpoint ring_loop (fuel : nat) (next : Node -> Z) (body : Z -> mem -> res mem) (stop j : Z) (m : mem) : res mem :=
  if j =? stop then Ok m else
  match fuel with
  | O => Err EFuel
  | S fuel =>
      let* m := body j m in
      let* n := load j m in
      ring_loop fuel next body stop (next n) m
  end.

(** ** The solver *)

Definition kMaxNodes : Z := 1 + 81 * 4 + 9 * 9 * 9 * 4.
Definition kRow : Z := 100.
Definition kCol : Z := 200.
Definition kBox : Z := 300.
Definition kCells : Z := 81.
Definition kNoSolution : bytes := bs "NoSolution".

(** No ring is longer than the array. *)
Definition turns : nat := Z.to_nat kMaxNodes.

Record SudokuSolver := mkSolver {
  root_ : Z;
  inout_ : list Z;
  columns_ : gmap Z Z;         (* the entries that are not NULL *)
  stack_ : list Z;
  nodes_ : mem;
  cur_node_ : Z;
}.

Definition set_nodes (m : mem) (s : SudokuSolver) : SudokuSolver :=
  mkSolver (root_ s) (inout_ s) (columns_ s) (stack_ s) m (cur_node_ s).
Definition set_stack (st : list Z) (s : SudokuSolver) : SudokuSolver :=
  mkSolver (root_ s) (inout_ s) (columns_ s) st (nodes_ s) (cur_node_ s).
Definition set_inout (b : list Z) (s : SudokuSolver) : SudokuSolver :=
  mkSolver (root_ s) b (columns_ s) (stack_ s) (nodes_ s) (cur_node_ s).

(** [inout_[i]], of [kCells] cells. *)
Definition cell_at (i : Z) (b : list Z) : res Z :=
  if i <? 0 then Err EUndefined else
  match b !! Z.to_nat i with Some v => Ok v | None => Err EUndefined end.
Definition write_cell (i v : Z) (b : list Z) : res (list Z) :=
  let* _ := cell_at i b in Ok (<[Z.to_nat i := v]> b).

(** *** Links *)

Definition put_left (old nnew : Z) (m : mem) : res mem :=
  let* o := load old m in
  let* m := modify (set_left (left o)) nnew m in
  let* m := modify (set_right old) nnew m in
  let* o := load old m in
  let* m := modify (set_right nnew) (left o) m in
  modify (set_left nnew) old m.

Definition put_up (old nnew : Z) (m : mem) : res mem :=
  let* o := load old m in
  let* m := modify (set_up (up o)) nnew m in
  let* m := modify (set_down old) nnew m in
  let* o := load old m in
  let* m := modify (set_down nnew) (up o) m in
  let* m := modify (set_up nnew) old m in
  let* m := modify (add_size 1) old m in
  modify (set_col old) nnew m.

(** The body of the inner loop of [cover]. *)
Definition unlink (j : Z) (m : mem) : res mem :=
  let* n := load j m in
  let* m := modify (set_up (up n)) (down n) m in
  let* n := load j m in
  let* m := modify (set_down (down n)) (up n) m in
  let* n := load j m in
  modify (add_size (-1)) (col n) m.

(** The body of the inner loop of [uncover]. *)
Definition relink (j : Z) (m : mem) : res mem :=
  let* n := load j m in
  let* m := modify (add_size 1) (col n) m in
  let* n := load j m in
  let* m := modify (set_up j) (down n) m in
  let* n := load j m in
  modify (set_down j) (up n) m.

Definition cover_row (row : Z) (m : mem) : res mem :=
  let* r := load row m in ring_loop turns right unlink row (right r) m.
Definition uncover_row (row : Z) (m : mem) : res mem :=
  let* r := load row m in ring_loop turns left relink row (left r) m.

Definition cover (c : Z) (m : mem) : res mem :=
  let* n := load c m in
  let* m := modify (set_left (left n)) (right n) m in
  let* n := load c m in
  let* m := modify (set_right (right n)) (left n) m in
  let* n := load c m in
  ring_loop turns down cover_row c (down n) m.

Definition uncover (c : Z) (m : mem) : res mem :=
  let* n := load c m in
  let* m := ring_loop turns up uncover_row c (up n) m in
  let* n := load c m in
  let* m := modify (set_left c) (right n) m in
  let* n := load c m in
  modify (set_right c) (left n) m.

(** *** The constructor *)

Definition get_row_col (row val : Z) : Z := kRow + row * 10 + val.
Definition get_col_col (col val : Z) : Z := kCol + col * 10 + val.
Definition get_box_col (box val : Z) : Z := kBox + box * 10 + val.

(** A node just cleared by [memset] and linked to itself. *)
Definition self_linked (p c n : Z) : Node := mkNode p p p p c n 0.

Definition new_column (n : Z) (s : SudokuSolver) : res (Z * SudokuSolver) :=
  let p := cur_node_ s in
  assert! p <? kMaxNodes;
  Ok (p, mkSolver (root_ s) (inout_ s) (columns_ s) (stack_ s) (<[p := self_linked p p n]> (nodes_ s)) (p + 1)).

(** [columns_[n]]: an array of 400 pointers. *)
Definition column_at (n : Z) (s : SudokuSolver) : res (option Z) :=
  if (0 <=? n) && (n <? 400) then Ok (columns_ s !! n) else Err EUndefined.

Definition append_column (n : Z) (s : SudokuSolver) : res SudokuSolver :=
  let* old := column_at n s in
  assert! match old with None => true | Some _ => false end;
  let* (c, s) := new_column n s in
  let* m := put_left (root_ s) c (nodes_ s) in
  Ok (mkSolver (root_ s) (inout_ s) (<[n := c]> (columns_ s)) (stack_ s) m (cur_node_ s)).

Definition new_row (col : Z) (s : SudokuSolver) : res (Z * SudokuSolver) :=
  let* c := column_at col s in
  match c with
  | None => Err EAssert
  | Some c =>
      let p := cur_node_ s in
      assert! p <? kMaxNodes;
      let* m := put_up c p (<[p := self_linked p c col]> (nodes_ s)) in
      Ok (p, mkSolver (root_ s) (inout_ s) (columns_ s) (stack_ s) m (p + 1))
  end.

(** The arrays [rows], [cols] and [boxes]: [bool [kCells][10]]. *)
Definition mark (u v : Z) (t : gset (Z * Z)) : res (gset (Z * Z)) :=
  if (0 <=? u) && (u <? kCells) && (0 <=? v) && (v <? 10) then Ok ({[(u, v)]} ∪ t) else Err EUndefined.
Definition marked (t : gset (Z * Z)) (u v : Z) : bool := bool_decide ((u, v) ∈ t).

Definition row_of (i : Z) : Z := i ÷ 9.
Definition col_of (i : Z) : Z := Z.rem i 9.
Definition box_of (i : Z) : Z := row_of i ÷ 3 * 3 + col_of i ÷ 3.

Definition marks : Type := gset (Z * Z) * gset (Z * Z) * gset (Z * Z).

Definition mark_cell (board : list Z) (t : marks) (i : Z) : res marks :=
  let '(rows, cols, boxes) := t in
  let* val := cell_at i board in
  let* rows := mark (row_of i) val rows in
  let* cols := mark (col_of i) val cols in
  let* boxes := mark (box_of i) val boxes in
  Ok (rows, cols, boxes).

Definition append_cell (s : SudokuSolver) (i : Z) : res SudokuSolver :=
  let* val := cell_at i (inout_ s) in
  if val =? 0 then append_column i s else Ok s.

Definition append_values (t : marks) (s : SudokuSolver) (iv : Z * Z) : res SudokuSolver :=
  let '(rows, cols, boxes) := t in
  let '(i, v) := iv in
  let* s := if negb (marked rows i v) then append_column (get_row_col i v) s else Ok s in
  let* s := if negb (marked cols i v) then append_column (get_col_col i v) s else Ok s in
  if negb (marked boxes i v) then append_column (get_box_col i v) s else Ok s.

Definition add_choice (i v : Z) (s : SudokuSolver) : res SudokuSolver :=
  let* (n0, s) := new_row i s in
  let* (nr, s) := new_row (get_row_col (row_of i) v) s in
  let* (nc, s) := new_row (get_col_col (col_of i) v) s in
  let* (nb, s) := new_row (get_box_col (box_of i) v) s in
  let* m := put_left n0 nr (nodes_ s) in
  let* m := put_left n0 nc m in
  let* m := put_left n0 nb m in
  Ok (set_nodes m s).

Definition allowed (t : marks) (i v : Z) : bool :=
  let '(rows, cols, boxes) := t in
  negb (marked rows (row_of i) v || marked cols (col_of i) v || marked boxes (box_of i) v).

Definition add_cell (t : marks) (s : SudokuSolver) (i : Z) : res SudokuSolver :=
  let* val := cell_at i (inout_ s) in
  if val =? 0 then
    res_foldl (fun s v => if allowed t i v then add_choice i v s else Ok s) s (seqZ 1 9)
  else Ok s.

Definition SudokuSolver_new (board : list Z) : res SudokuSolver :=
  let s := mkSolver 0 board ∅ [] ∅ 0 in
  let* (root, s) := new_column 0 s in
  let s := mkSolver root (inout_ s) (columns_ s) (stack_ s) (nodes_ s) (cur_node_ s) in
  let* t := res_foldl (mark_cell board) (∅, ∅, ∅) (seqZ 0 kCells) in
  let* s := res_foldl append_cell s (seqZ 0 kCells) in
  let* s := res_foldl (append_values t) s (List.list_prod (seqZ 0 9) (seqZ 1 9)) in
  res_foldl (add_cell t) s (seqZ 0 kCells).

(** *** The search *)

Fixpoint min_loop (fuel : nat) (root c min_size cc : Z) (m : mem) : res Z :=
  if cc =? root then Ok c else
  match fuel with
  | O => Err EFuel
  | S fuel =>
      let* n := load cc m in
      if size n <? min_size then
        if size n <=? 1 then Ok cc else min_loop fuel root cc (size n) (right n) m
      else min_loop fuel root c min_size (right n) m
  end.

Definition get_min_column (root : Z) (m : mem) : res Z :=
  let* r := load root m in
  let c := right r in
  let* n := load c m in
  if 1 <? size n then min_loop turns root c (size n) (right n) m else Ok c.

(** [while (cell == -1 || val == -1)]. *)
Fixpoint decode_loop (fuel : nat) (n cell val : Z) (m : mem) : res (Z * Z) :=
  if negb ((cell =? -1) || (val =? -1)) then Ok (cell, val) else
  match fuel with
  | O => Err EFuel
  | S fuel =>
      let* x := load n m in
      if name x <? 100 then decode_loop fuel (right x) (name x) val m
      else decode_loop fuel (right x) cell (Z.rem (name x) 10) m
  end.

Definition write_choice (m : mem) (b : list Z) (n : Z) : res (list Z) :=
  let* (cell, val) := decode_loop turns n (-1) (-1) m in
  write_cell cell val b.

(** The bodies of the loops over the row chosen. *)
Definition cover_col (j : Z) (m : mem) : res mem := let* n := load j m in cover (col n) m.
Definition uncover_col (j : Z) (m : mem) : res mem := let* n := load j m in uncover (col n) m.

(** The loop over the rows of the column [c]; [solve] is the recursive call. *)
Fixpoint try_rows (solve : SudokuSolver -> res (bool * SudokuSolver)) (fuel : nat) (c row : Z) (s : SudokuSolver) :
  res (bool * SudokuSolver) :=
  if row =? c then
    let* m := uncover c (nodes_ s) in Ok (false, set_nodes m s)
  else
    match fuel with
    | O => Err EFuel
    | S fuel =>
        let s := set_stack (stack_ s ++ [row]) s in
        let* r := load row (nodes_ s) in
        let* m := ring_loop turns right cover_col row (right r) (nodes_ s) in
        let* (found, s) := solve (set_nodes m s) in
        if found : bool then Ok (true, s) else
        match rev (stack_ s) with
        | [] => Err EUndefined
        | _ :: st =>
            let s := set_stack (rev st) s in
            let* r := load row (nodes_ s) in
            let* m := ring_loop turns left uncover_col row (left r) (nodes_ s) in
            let* r := load row m in
            try_rows solve fuel c (down r) (set_nodes m s)
        end
    end.

(** [depth]: how deep the recursion may go. *)
Fixpoint solve (depth : nat) (s : SudokuSolver) : res (bool * SudokuSolver) :=
  let* r := load (root_ s) (nodes_ s) in
  if left r =? root_ s then
    let* b := res_foldl (write_choice (nodes_ s)) (inout_ s) (stack_ s) in
    Ok (true, set_inout b s)
  else
    match depth with
    | O => Err EFuel
    | S depth =>
        let* c := get_min_column (root_ s) (nodes_ s) in
        let* m := cover c (nodes_ s) in
        let* n := load c m in
        try_rows (solve depth) turns c (down n) (set_nodes m s)
    end.

(** ** solveSudoku *)

(** A [char] is signed. *)
Definition digit (b : byte) : Z := s8 (byte_Z b) - 48.

Definition solveSudoku (puzzle : bytes) : res bytes :=
  assert! zlen puzzle =? kCells;
  let board := map digit puzzle in
  if forallb (fun v => (0 <=? v) && (v <=? 9)) board then
    let* s := SudokuSolver_new board in
    let* (found, s) := solve (S (Z.to_nat kCells)) s in
    if found : bool then Ok (map (fun v => Z_byte (v + 48)) (inout_ s)) else Ok kNoSolution
  else Ok kNoSolution.

Definition ex_puzzle : bytes :=
  bs "000000010400000000020000000000050407008000300001090000300400200050100000000806000".
Example ex_easy : solveSudoku (bs "530070000600195000098000060800060003400803001700020006060000280000419005000080079")
  = Ok (bs "534678912672195348198342567859761423426853791713924856961537284287419635345286179").
Proof. vm_compute. reflexivity. Qed.
