(* ===== verification/SudokuLinks.v ===== *)
(** * Dancing links (examples/sudoku/sudoku.cc: unlinking, cover and uncover)

    Rings of nodes as lists of addresses, in either direction; what removing a
    node from a ring and putting it back do to the store; and the loops along
    rings, as sequences of steps that can be retraced. *)

From stdpp Require Import gmap.
From S2P Require Import Prelude Sudoku.

(** ** Fields of the store *)

Definition fld (f : Node -> Z) (m : mem) (p : Z) : option Z := f <$> m !! p.

Definition linked (nx pv : Node -> Z) (m : mem) (u v : Z) : Prop := fld nx m u = Some v /\ fld pv m v = Some u.

(** From [a] through [l] to [b]; with [a = b], a ring. *)
Definition seg (nx pv : Node -> Z) (m : mem) (a : Z) (l : list Z) (b : Z) : Prop :=
  Forall2 (linked nx pv m) (a :: l) (l ++ [b]).

Definition first_of (l : list Z) (stop : Z) : Z := default stop (head l).

(** The next node, read along a loop that stops at [stop]. *)
Fixpoint chain (nx : Node -> Z) (m : mem) (l : list Z) (stop : Z) : Prop :=
  match l with
  | [] => True
  | u :: l => fld nx m u = Some (first_of l stop) /\ chain nx m l stop
  end.

(** ** Sequences of steps *)

(** [B j m m'] leads from [m] to [m'] for each element in turn; all the stores on
    the way satisfy [G]. *)
Fixpoint steps (B : Z -> mem -> mem -> Prop) (G : mem -> Prop) (l : list Z) (m m' : mem) : Prop :=
  match l with
  | [] => m' = m /\ G m
  | j :: l => G m /\ exists m1, B j m m1 /\ steps B G l m1 m'
  end.

(** ** Fields after an assignment *)

Lemma turns_max n : n <= kMaxNodes -> (Z.to_nat n <= turns)%nat.
Proof. unfold turns. generalize kMaxNodes. lia. Qed.

Lemma lookup_alter_at (f : Node -> Node) (m : mem) i j :
  alter f i m !! j = if decide (i = j) then f <$> m !! j else m !! j.
Proof. rewrite lookup_alter. by destruct (decide (i = j)) as [->|]. Qed.

Lemma fld_alter f g p q m :
  fld f (alter g p m) q = if decide (p = q) then (fun n => f (g n)) <$> m !! q else fld f m q.
Proof. unfold fld. rewrite lookup_alter. destruct (decide (p = q)) as [->|_]; [|done]. by destruct (m !! q). Qed.

Lemma fld_alter_other f g p q m : (forall n, f (g n) = f n) -> fld f (alter g p m) q = fld f m q.
Proof. intros H. rewrite fld_alter. destruct (decide _); [|done]. unfold fld. destruct (m !! q); cbn; by rewrite ?H. Qed.

Lemma fld_alter_set f g v p q m : (forall n, f (g n) = v) -> is_Some (m !! p) ->
  fld f (alter g p m) q = if decide (q = p) then Some v else fld f m q.
Proof.
  intros H [n E]. rewrite fld_alter. destruct (decide (p = q)) as [->|Hn].
  - rewrite decide_True by done. rewrite E. cbn. by rewrite H.
  - by rewrite decide_False by congruence.
Qed.

Lemma alter_is_Some (g : Node -> Node) p q (m : mem) : is_Some (alter g p m !! q) <-> is_Some (m !! q).
Proof. rewrite lookup_alter. destruct (decide _) as [->|]; [|done]. by rewrite fmap_is_Some. Qed.

Lemma fld_is_Some f m p v : fld f m p = Some v -> is_Some (m !! p).
Proof. unfold fld. destruct (m !! p); cbn; [eauto|done]. Qed.

Lemma load_fld f m p v : fld f m p = Some v -> exists n, load p m = Ok n /\ m !! p = Some n /\ f n = v.
Proof. unfold fld, load. destruct (m !! p) as [n|]; cbn; [|done]. intros [= <-]. eauto. Qed.

Lemma modify_ok f p m : is_Some (m !! p) -> modify f p m = Ok (alter f p m).
Proof. intros [n E]. unfold modify, load. by rewrite E. Qed.

(** ** Rings *)

Section ring.
Context (nx pv : Node -> Z).
Implicit Types m : mem.

Lemma seg_frame m m' a l b : seg nx pv m a l b ->
  (forall u, u ∈ a :: l -> fld nx m' u = fld nx m u) -> (forall v, v ∈ l ++ [b] -> fld pv m' v = fld pv m v) ->
  seg nx pv m' a l b.
Proof.
  unfold seg. intros H Hn Hp.
  assert (HH : forall l1 l2, Forall2 (linked nx pv m) l1 l2 -> (forall u, u ∈ l1 -> fld nx m' u = fld nx m u) ->
                        (forall v, v ∈ l2 -> fld pv m' v = fld pv m v) -> Forall2 (linked nx pv m') l1 l2).
  { induction 1 as [|u v l1 l2 [L1 L2] _ IH]; intros H1 H2; constructor.
    - split; [rewrite H1 by set_solver|rewrite H2 by set_solver]; done.
    - apply IH; intros; [apply H1|apply H2]; set_solver. }
  by apply HH.
Qed.

Lemma seg_rev m a l b : seg nx pv m a l b -> seg pv nx m b (rev l) a.
Proof.
  unfold seg. intros H. assert (H2 : Forall2 (linked pv nx m) (rev (l ++ [b])) (rev (a :: l))).
  { clear -H. revert H. generalize (a :: l), (l ++ [b]). induction 1 as [|u v l1 l2 [L1 L2] _ IH]; cbn; [constructor|].
    apply Forall2_app; [done|]. by repeat constructor. }
  by rewrite rev_app_distr in H2.
Qed.

Lemma seg_chain m a l b : seg nx pv m a l b -> chain nx m l b /\ fld nx m a = Some (first_of l b).
Proof.
  revert a. induction l as [|x l IH]; intros a H; apply Forall2_cons_1 in H as [[L _] H].
  - done.
  - destruct (IH x H). cbn. auto.
Qed.

Lemma seg_lookup m a l b x : seg nx pv m a l b -> x ∈ a :: l -> is_Some (m !! x).
Proof.
  unfold seg. intros H Hx. apply list_elem_of_lookup in Hx as [i Hi].
  destruct (Forall2_lookup_l _ _ _ _ _ H Hi) as (y & _ & [E _]). by eapply fld_is_Some.
Qed.

(** A node in the middle, between its neighbours. *)
Lemma seg_middle m a l1 x l2 b : seg nx pv m a (l1 ++ x :: l2) b ->
  exists l0 p q l3, a :: l1 = l0 ++ [p] /\ l2 ++ [b] = q :: l3 /\ linked nx pv m p x /\ linked nx pv m x q /\
    Forall2 (linked nx pv m) l0 l1 /\ Forall2 (linked nx pv m) l2 l3.
Proof.
  unfold seg. intros H. destruct (exists_last (l := a :: l1) ltac:(done)) as (l0 & p & E0).
  destruct (l2 ++ [b]) as [|q l3] eqn:E3; [by destruct l2|].
  rewrite <-app_assoc in H. cbn [app] in H. rewrite E3 in H.
  change (a :: l1 ++ x :: l2) with ((a :: l1) ++ x :: l2) in H. rewrite E0, <-app_assoc in H.
  apply Forall2_app_inv in H as [H0 H].
  2:{ apply (f_equal length) in E0. rewrite length_app in E0. cbn in E0. lia. }
  cbn [app] in H. apply Forall2_cons_1 in H as [H1 H]. apply Forall2_cons_1 in H as [H2 H].
  by exists l0, p, q, l3.
Qed.

Lemma ring_remove m a l1 x l2 : seg nx pv m a (l1 ++ x :: l2) a -> NoDup (a :: l1 ++ x :: l2) ->
  exists p q, linked nx pv m p x /\ linked nx pv m x q /\ p ∈ a :: l1 /\ q ∈ l2 ++ [a] /\
    forall m', (forall u, fld nx m' u = if decide (u = p) then Some q else fld nx m u) ->
      (forall v, fld pv m' v = if decide (v = q) then Some p else fld pv m v) -> seg nx pv m' a (l1 ++ l2) a.
Proof.
  intros H N. destruct (seg_middle _ _ _ _ _ _ H) as (l0 & p & q & l3 & E0 & E3 & L1 & L2 & F0 & F3).
  exists p, q. split_and!; try done; [rewrite E0; set_solver|rewrite E3; set_solver|].
  intros m' Hn Hp. unfold seg. rewrite <-app_assoc, E3.
  change (a :: l1 ++ l2) with ((a :: l1) ++ l2). rewrite E0, <-app_assoc. cbn [app].
  assert (Np : NoDup (l0 ++ [p] ++ x :: l2)) by (rewrite app_assoc, <-E0; done).
  assert (Nq : NoDup ((l1 ++ [x]) ++ q :: l3)).
  { rewrite <-E3, <-app_assoc. cbn [app]. change (x :: l2 ++ [a]) with ((x :: l2) ++ [a]). rewrite app_assoc.
    rewrite <-Permutation_cons_append. done. }
  apply NoDup_app in Np as (_ & Np0 & Np). cbn in Np. apply NoDup_cons in Np as [Np1 _].
  apply NoDup_app in Nq as (_ & Nq0 & Nq). apply NoDup_cons in Nq as [Nq1 _].
  assert (X : forall l l', Forall2 (linked nx pv m) l l' -> p ∉ l -> q ∉ l' -> Forall2 (linked nx pv m') l l').
  { induction 1 as [|u v l l' [A B] _ IH]; intros H1 H2; constructor; [|apply IH; set_solver].
    split; [rewrite Hn|rewrite Hp]; (rewrite decide_False; [done|set_solver]). }
  apply Forall2_app; [apply X; [done| |]|constructor; [|apply X; [done| |]]].
  - intros Hi. apply (Np0 p Hi). set_solver.
  - intros Hi. apply (Nq0 q); set_solver.
  - split; [rewrite Hn|rewrite Hp]; by rewrite decide_True.
  - set_solver.
  - done.
Qed.

Lemma ring_insert m a l x : seg nx pv m a l a -> NoDup (a :: l) -> x ∉ a :: l ->
  exists p, linked nx pv m p a /\ p ∈ a :: l /\
    forall m', (forall u, fld nx m' u = if decide (u = x) then Some a else if decide (u = p) then Some x else fld nx m u) ->
      (forall v, fld pv m' v = if decide (v = a) then Some x else if decide (v = x) then Some p else fld pv m v) ->
      seg nx pv m' a (l ++ [x]) a.
Proof.
  intros H N Hx. destruct (exists_last (l := a :: l) ltac:(done)) as (l0 & p & E0).
  unfold seg in H. rewrite E0 in H. apply Forall2_app_inv in H as [H0 H].
  2:{ apply (f_equal length) in E0. rewrite length_app in E0. cbn in E0. lia. }
  apply Forall2_cons_1 in H as [Lp _]. exists p. split_and!; [done|rewrite E0; set_solver|].
  intros m' Hn Hp. unfold seg. change (a :: l ++ [x]) with ((a :: l) ++ [x]). rewrite E0, <-!app_assoc.
  assert (Np : p ∉ l0). { rewrite E0 in N. apply NoDup_app in N as (_ & N & _). intros ?. eapply N; [done|set_solver]. }
  assert (Hp0 : p <> x). { intros ->. apply Hx. rewrite E0. set_solver. }
  assert (Hl0 : x ∉ l0). { intros ?. apply Hx. rewrite E0. set_solver. }
  apply NoDup_cons in N as [Na _].
  apply Forall2_app; [|repeat constructor].
  - assert (X : forall k k', Forall2 (linked nx pv m) k k' -> p ∉ k -> x ∉ k -> x ∉ k' -> a ∉ k' -> Forall2 (linked nx pv m') k k').
    { induction 1 as [|u v k k' [A B] _ IH]; intros H1 H2 H3 H4; constructor; [|apply IH; set_solver].
      split; [rewrite Hn|rewrite Hp]; rewrite !decide_False; set_solver. }
    apply X; try done; set_solver.
  - rewrite Hn, decide_False, decide_True by done. done.
  - rewrite Hp, decide_False, decide_True by set_solver. done.
  - rewrite Hn, decide_True by done. done.
  - rewrite Hp, decide_True by done. done.
Qed.

(** A ring seen from another of its nodes. *)
Lemma ring_rotate m a l r1 x r2 : seg nx pv m a l a -> a :: l = r1 ++ x :: r2 -> seg nx pv m x (r2 ++ r1) x.
Proof.
  intros H E. destruct r1 as [|a' r1].
  - injection E as -> ->. by rewrite app_nil_r.
  - injection E as <- ->. unfold seg in *. rewrite <-app_assoc in H. cbn in H.
    change (a :: r1 ++ x :: r2) with ((a :: r1) ++ x :: r2) in H.
    replace (r1 ++ x :: r2 ++ [a]) with ((r1 ++ [x]) ++ r2 ++ [a]) in H by by rewrite <-app_assoc.
    apply Forall2_app_inv in H as [H1 H2]; [|rewrite length_app; cbn; lia].
    rewrite <-app_assoc. cbn [app].
    replace (r2 ++ a :: r1 ++ [x]) with ((r2 ++ [a]) ++ (r1 ++ [x])) by by rewrite <-app_assoc.
    change (x :: r2 ++ a :: r1) with ((x :: r2) ++ (a :: r1)). by apply Forall2_app.
Qed.
End ring.

(** ** Loops along rings *)

Lemma steps_app B G l1 l2 m m' :
  steps B G (l1 ++ l2) m m' <-> exists m1, steps B G l1 m m1 /\ steps B G l2 m1 m'.
Proof.
  revert m. induction l1 as [|j l1 IH]; intros m; cbn.
  - split; [|by intros (m1 & [-> _] & H)]. intros H. exists m. split; [split; [done|]|done].
    destruct l2; by destruct H.
  - split.
    + intros (Gm & m1 & Bj & (m2 & H1 & H2)%IH). eauto 10.
    + intros (m2 & (Gm & m1 & Bj & H1) & H2). split; [done|]. exists m1. split; [done|]. apply IH. eauto.
Qed.

Lemma steps_good B (G : mem -> Prop) l m m' : steps B G l m m' -> G m /\ G m'.
Proof.
  revert m. induction l as [|j l IH]; intros m; cbn; [by intros [-> ?]|].
  intros (Gm & m1 & _ & H%IH). by split; [|apply H].
Qed.

Lemma steps_rev B G l m m' : steps B G l m m' -> steps (fun j m m' => B j m' m) G (rev l) m' m.
Proof.
  revert m. induction l as [|j l IH]; intros m; cbn; [by intros [-> ?]|].
  intros (Gm & m1 & Bj & H). apply steps_app. exists m1. split; [by apply IH|]. cbn.
  apply steps_good in H as [G1 _]. split; [done|]. by exists m.
Qed.

Lemma steps_impl (B B' : Z -> mem -> mem -> Prop) G l m m' : (forall j m m', j ∈ l -> B j m m' -> B' j m m') ->
  steps B G l m m' -> steps B' G l m m'.
Proof.
  revert m. induction l as [|j l IH]; intros m HB; cbn; [done|].
  intros (Gm & m1 & Bj & H). split; [done|]. exists m1. split; [apply HB; [set_solver|done]|].
  apply IH; [|done]. intros. apply HB; [set_solver|done].
Qed.

(** Steps over pieces, piece by piece. *)
Lemma steps_concat B G (f : Z -> list Z) l m m' : G m -> steps B G (concat (map f l)) m m' ->
  steps (fun x => steps B G (f x)) G l m m'.
Proof.
  revert m. induction l as [|x l IH]; intros m Gm; cbn; [done|].
  intros (m1 & H1 & H2)%steps_app. split; [done|]. exists m1. split; [done|].
  apply IH; [by apply steps_good in H1 as [_ ?]|done].
Qed.

Lemma ring_loop_steps B (G : mem -> Prop) nx body stop fuel l m m' :
  (forall j m m', j ∈ l -> G m -> G m' -> B j m m' -> body j m = Ok m') ->
  (forall m, G m -> chain nx m l stop) -> stop ∉ l -> (length l <= fuel)%nat ->
  steps B G l m m' -> ring_loop fuel nx body stop (first_of l stop) m = Ok m'.
Proof.
  intros HB. revert m fuel. induction l as [|j l IH]; intros m fuel HC Hs Hf HS.
  - destruct HS as [-> _]. destruct fuel; cbn; by rewrite Z.eqb_refl.
  - destruct HS as (Gm & m1 & Bj & H). pose proof (steps_good _ _ _ _ _ H) as [G1 _].
    destruct fuel as [|fuel]; [cbn in Hf; lia|]. cbn.
    destruct (Z.eqb_spec j stop) as [->|Hn]; [set_solver|].
    rewrite (HB j m m1) by (done || set_solver). cbn. destruct (HC m1 G1) as [E _].
    destruct (load_fld _ _ _ _ E) as (n & -> & _ & En). cbn. rewrite En.
    apply IH; try done.
    + intros. apply HB; [set_solver|done..].
    + intros m2 G2. by destruct (HC m2 G2).
    + set_solver.
    + cbn in Hf. lia.
Qed.

(** ** Removing a node from its column and putting it back *)

Definition unlinked (p q h : Z) (m : mem) : mem :=
  alter (add_size (-1)) h (alter (set_down q) p (alter (set_up p) q m)).

Lemma unlink_ok m j p q h : fld up m j = Some p -> fld down m j = Some q -> fld col m j = Some h ->
  p <> j -> q <> j -> is_Some (m !! p) -> is_Some (m !! q) -> is_Some (m !! h) ->
  unlink j m = Ok (unlinked p q h m).
Proof.
  intros Eu Ed Ec Hp Hq Sp Sq Sh. unfold unlink, unlinked, load.
  unfold fld in *. destruct (m !! j) as [n|] eqn:Ej; [|done]. cbn in *.
  injection Eu as Eu; injection Ed as Ed; injection Ec as Ec. rewrite Ed, Eu.
  rewrite modify_ok by done. cbn. rewrite lookup_alter_ne, Ej by done. cbn. rewrite Ed, Eu.
  rewrite modify_ok by by rewrite alter_is_Some. cbn.
  rewrite !lookup_alter_ne, Ej by done. cbn. rewrite Ec. apply modify_ok. by rewrite !alter_is_Some.
Qed.

Lemma relink_ok m j p q h : fld up m j = Some p -> fld down m j = Some q -> fld col m j = Some h ->
  h <> j -> q <> j -> is_Some (m !! p) -> is_Some (m !! q) -> is_Some (m !! h) ->
  relink j m = Ok (alter (set_down j) p (alter (set_up j) q (alter (add_size 1) h m))).
Proof.
  intros Eu Ed Ec Hh Hq Sp Sq Sh. unfold relink, load.
  unfold fld in *. destruct (m !! j) as [n|] eqn:Ej; [|done]. cbn in *.
  injection Eu as Eu; injection Ed as Ed; injection Ec as Ec. rewrite Ec.
  rewrite modify_ok by done. cbn. rewrite lookup_alter_ne, Ej by done. cbn. rewrite Ed.
  rewrite modify_ok by by rewrite alter_is_Some. cbn.
  rewrite !lookup_alter_ne, Ej by done. cbn. rewrite Eu. apply modify_ok. by rewrite !alter_is_Some.
Qed.

(** What the dance rests on: a node that was taken out still knows its
    neighbours, and putting it back restores the store. *)
Lemma relink_unlinked m j p q h : linked down up m p j -> linked down up m j q -> fld col m j = Some h ->
  h <> j -> p <> j -> q <> j -> is_Some (m !! h) ->
  unlink j m = Ok (unlinked p q h m) /\ relink j (unlinked p q h m) = Ok m.
Proof.
  intros [Ep Eu] [Ed Eq] Ec Hh Hp Hq Sh.
  assert (Sp : is_Some (m !! p)) by by eapply fld_is_Some.
  assert (Sq : is_Some (m !! q)) by by eapply fld_is_Some.
  split; [by apply unlink_ok|].
  rewrite (relink_ok _ j p q h); unfold unlinked; rewrite ?alter_is_Some; try done.
  2-4: by rewrite !fld_alter, !decide_False by done.
  f_equal. apply map_eq. intros k. rewrite !lookup_alter_at.
  unfold fld in *. clear Eu Ed Ec Sp Sq Sh.
  destruct (decide (p = k)) as [->|], (decide (q = k)) as [->|], (decide (h = k)) as [->|];
    destruct (m !! k) as [[]|]; cbn in *; unfold add_size, set_up, set_down; cbn; simplify_eq; try done;
    do 2 f_equal; lia.
Qed.

(** The same for the header of a column, in the row of headers. *)
Definition hidden (p q : Z) (m : mem) : mem := alter (set_right q) p (alter (set_left p) q m).

Definition hide (c : Z) (m : mem) : res mem :=
  let* n := load c m in
  let* m := modify (set_left (left n)) (right n) m in
  let* n := load c m in
  modify (set_right (right n)) (left n) m.

Definition unhide (c : Z) (m : mem) : res mem :=
  let* n := load c m in
  let* m := modify (set_left c) (right n) m in
  let* n := load c m in
  modify (set_right c) (left n) m.

Lemma unhide_hidden m c p q : linked right left m p c -> linked right left m c q -> p <> c -> q <> c ->
  hide c m = Ok (hidden p q m) /\ unhide c (hidden p q m) = Ok m.
Proof.
  intros [Ep El] [Er Eq] Hp Hq.
  assert (Sp : is_Some (m !! p)) by by eapply fld_is_Some.
  assert (Sq : is_Some (m !! q)) by by eapply fld_is_Some.
  unfold hide, unhide, hidden, load, fld in *. destruct (m !! c) as [n|] eqn:Ec; [|done]. cbn in *.
  injection El as El; injection Er as Er. rewrite El, Er. split.
  - rewrite modify_ok by done. cbn. rewrite lookup_alter_ne, Ec by done. cbn. rewrite El, Er.
    apply modify_ok. by rewrite alter_is_Some.
  - rewrite !lookup_alter_ne, Ec by done. cbn. rewrite Er. rewrite modify_ok by by rewrite !alter_is_Some. cbn.
    rewrite !lookup_alter_ne, Ec by done. cbn. rewrite El. rewrite modify_ok by by rewrite !alter_is_Some.
    f_equal. apply map_eq. intros k. rewrite !lookup_alter_at.
    destruct (decide (p = k)) as [->|], (decide (q = k)) as [->|];
      destruct (m !! k) as [[]|]; cbn in *; unfold set_left, set_right; cbn; simplify_eq; done.
Qed.

(** ** Inserting a node at the end of a ring *)

Lemma fld_insert_ne f m p n u : u <> p -> fld f (<[p := n]> m) u = fld f m u.
Proof. intros H. unfold fld. by rewrite lookup_insert_ne. Qed.

Lemma fld_insert_eq f (m : mem) p n : fld f (<[p := n]> m) p = Some (f n).
Proof. unfold fld. by rewrite lookup_insert_eq. Qed.

Lemma load_alter_ne (g : Node -> Node) p q (m : mem) : p <> q -> load q (alter g p m) = load q m.
Proof. intros H. unfold load. by rewrite lookup_alter_ne. Qed.

Lemma put_left_ok m a l x : seg right left m a l a -> NoDup (a :: l) -> x ∉ a :: l -> is_Some (m !! x) ->
  exists m', put_left a x m = Ok m' /\ seg right left m' a (l ++ [x]) a /\
    (forall f, f = up \/ f = down \/ f = col \/ f = name \/ f = size -> forall u, fld f m' u = fld f m u) /\
    (forall f, f = left \/ f = right -> forall u, u ∉ x :: a :: l -> fld f m' u = fld f m u).
Proof.
  intros H N Hx Sx. destruct (ring_insert _ _ _ _ _ _ H N Hx) as (p & [Lp La] & Ip & Hnew).
  assert (Hxa : x <> a) by set_solver. assert (Hxp : x <> p) by (intros ->; done).
  assert (Sp : is_Some (m !! p)) by by eapply fld_is_Some. assert (Sa : is_Some (m !! a)) by by eapply fld_is_Some.
  exists (alter (set_left x) a (alter (set_right x) p (alter (set_right a) x (alter (set_left p) x m)))). split_and!.
  - unfold put_left. destruct (load_fld _ _ _ _ La) as (n & A & _ & En). rewrite A. cbn [res_bind].
    rewrite En. rewrite modify_ok by done. cbn [res_bind]. rewrite modify_ok by by rewrite alter_is_Some. cbn [res_bind].
    rewrite !load_alter_ne, A by done. cbn [res_bind]. rewrite En. rewrite modify_ok by by rewrite !alter_is_Some. cbn [res_bind].
    apply modify_ok. by rewrite !alter_is_Some.
  - apply Hnew; intros u.
    + rewrite fld_alter_other by done. rewrite (fld_alter_set _ _ x) by (done || by rewrite !alter_is_Some).
      rewrite (fld_alter_set _ _ a) by (done || by rewrite !alter_is_Some). rewrite fld_alter_other by done.
      destruct (decide (u = x)) as [->|]; [|done]. by rewrite decide_False.
    + rewrite (fld_alter_set _ _ x) by (done || by rewrite !alter_is_Some). rewrite !(fld_alter_other _ (set_right _)) by done.
      by rewrite (fld_alter_set _ _ p).
  - intros f Hf u. rewrite !fld_alter_other; [done|..]; intros n; by destruct Hf as [-> | [-> | [-> | [-> | ->]]]].
  - intros f Hf u Hu. rewrite !fld_alter, !decide_False; [done|..]; try set_solver.
Qed.

(** The node [x], new, at the end of the column [h]. *)
Lemma put_up_ok m h l x k n : seg down up m h l h -> NoDup (h :: l) -> x ∉ h :: l -> fld size m h = Some k ->
  exists m', put_up h x (<[x := self_linked x h n]> m) = Ok m' /\ seg down up m' h (l ++ [x]) h /\
    fld size m' h = Some (k + 1) /\
    (forall f, f = right \/ f = left \/ f = col \/ f = name -> forall u, u <> x -> fld f m' u = fld f m u) /\
    (forall f, f = up \/ f = down \/ f = size -> forall u, u ∉ x :: h :: l -> fld f m' u = fld f m u) /\
    fld right m' x = Some x /\ fld left m' x = Some x /\ fld col m' x = Some h /\ fld name m' x = Some n /\ is_Some (m' !! x).
Proof.
  intros H N Hx Hk. destruct (ring_insert _ _ _ _ _ _ H N Hx) as (p & [Lp Lh] & Ip & Hnew).
  assert (Hxh : x <> h) by set_solver. assert (Hxp : x <> p) by (intros ->; done).
  assert (Sp : is_Some (m !! p)) by by eapply fld_is_Some. assert (Sh : is_Some (m !! h)) by by eapply fld_is_Some.
  set (m0 := <[x := self_linked x h n]> m).
  assert (X0 : is_Some (m0 !! x) /\ is_Some (m0 !! p) /\ is_Some (m0 !! h)).
  { unfold m0. rewrite lookup_insert_eq, !lookup_insert_ne by done. eauto. }
  destruct X0 as (X0 & X1 & X2).
  exists (alter (set_col h) x (alter (add_size 1) h (alter (set_up x) h (alter (set_down x) p (alter (set_down h) x (alter (set_up p) x m0)))))).
  assert (Lh0 : fld up m0 h = Some p) by (unfold m0; by rewrite fld_insert_ne).
  split_and!.
  - unfold put_up. fold m0. destruct (load_fld _ _ _ _ Lh0) as (o & A & _ & En). rewrite A. cbn [res_bind].
    rewrite En. rewrite modify_ok by done. cbn [res_bind]. rewrite modify_ok by by rewrite alter_is_Some. cbn [res_bind].
    rewrite !load_alter_ne, A by done. cbn [res_bind]. rewrite En.
    repeat (rewrite modify_ok by (by rewrite !alter_is_Some); cbn [res_bind]). done.
  - apply Hnew; intros u.
    + rewrite !(fld_alter_other down (set_col _)), !(fld_alter_other down (add_size _)), !(fld_alter_other down (set_up _)) by done.
      rewrite (fld_alter_set _ _ x) by (done || by rewrite !alter_is_Some). rewrite (fld_alter_set _ _ h) by (done || by rewrite !alter_is_Some).
      rewrite (fld_alter_other down (set_up _)) by done.
      destruct (decide (u = x)) as [->|]; [by rewrite decide_False|]. unfold m0. by rewrite fld_insert_ne.
    + rewrite !(fld_alter_other up (set_col _)), !(fld_alter_other up (add_size _)) by done.
      rewrite (fld_alter_set _ _ x) by (done || by rewrite !alter_is_Some). rewrite !(fld_alter_other up (set_down _)) by done.
      rewrite (fld_alter_set _ _ p) by done. destruct (decide (u = h)); [done|].
      destruct (decide (u = x)); [done|]. unfold m0. by rewrite fld_insert_ne.
  - rewrite (fld_alter_other size (set_col _)) by done. rewrite fld_alter, decide_True by done.
    rewrite !lookup_alter_at. unfold m0. rewrite !lookup_insert_ne by done. unfold fld in Hk.
    destruct (m !! h) as [o|]; [|done]. cbn in Hk. injection Hk as Hk.
    rewrite decide_True by done. rewrite !(decide_False (P := x = h)) by done. destruct (decide (p = h)); cbn; by rewrite Hk.
  - intros f Hf u Hu. rewrite (fld_alter _ _ x), decide_False by done.
    rewrite !fld_alter_other; [unfold m0; by rewrite fld_insert_ne|..]; intros o; by destruct Hf as [-> | [-> | [-> | ->]]].
  - intros f Hf u Hu. rewrite !fld_alter, !decide_False by set_solver. unfold m0. rewrite fld_insert_ne by set_solver. done.
  - rewrite !fld_alter_other by done. unfold m0. by rewrite fld_insert_eq.
  - rewrite !fld_alter_other by done. unfold m0. by rewrite fld_insert_eq.
  - rewrite (fld_alter_set _ _ h) by (done || by rewrite !alter_is_Some). by rewrite decide_True.
  - rewrite !fld_alter_other by done. unfold m0. by rewrite fld_insert_eq.
  - by rewrite !alter_is_Some.
Qed.
