(* ===== verification/SudokuSearch.v ===== *)
(** * The exact cover search (examples/sudoku/sudoku.cc: cover, uncover, solve)

    A table of rows, each a ring of nodes, one per column it covers; the columns
    not covered yet form the ring of the root, and the ring of each holds its
    nodes in the rows that are still possible.  [cover] removes a column and
    [uncover] restores the store; [solve] finds an exact cover of the columns left
    if there is one, and otherwise leaves everything as it was. *)

From stdpp Require Import gmap.
From S2P Require Import Prelude Sudoku SudokuLinks.

#[local] Opaque turns.

(** A choice of [val] for [cell]: its nodes, with the headers of their columns. *)
Record Row := mkRow { cell : Z; val : Z; slots : list (Z * Z) }.

Definition row_nodes (r : Row) : list Z := map fst (slots r).
Definition row_heads (r : Row) : list Z := map snd (slots r).

(** The elements around [x] in a ring, from the one after it. *)
Fixpoint rotate (x : Z) (before l : list Z) : list Z :=
  match l with
  | [] => []
  | y :: l => if y =? x then l ++ rev before else rotate x (y :: before) l
  end.

Definition without (cs H : list Z) : list Z := filter (fun h => h ∉ cs) H.

Definition writes (X : list Row) (b : list Z) : list Z :=
  foldl (fun b r => <[Z.to_nat (cell r) := val r]> b) b X.

Section search.
Context (root : Z) (hdrs : list Z) (rows : list Row) (cellhdrs : list Z).

Definition all_nodes : list Z := concat (map row_nodes rows).
Definition all_slots : list (Z * Z) := concat (map slots rows).

Definition others (x : Z) : list Z := rotate x [] (concat (filter (fun l => x ∈ l) (map row_nodes rows))).
Definition head_of (x : Z) : Z := default 0 (head (map snd (filter (fun p => p.1 = x) all_slots))).

(** What the table is, before any link. *)
Record table_ok : Prop := mkTable {
  t_nodup : NoDup (root :: hdrs ++ all_nodes);
  t_small : (length (root :: hdrs ++ all_nodes) <= turns)%nat;
  t_heads r : r ∈ rows -> NoDup (row_heads r) /\ (forall h, h ∈ row_heads r -> h ∈ hdrs);
  t_cell r : r ∈ rows -> 0 <= cell r < kCells /\ 1 <= val r <= 9 /\ exists h, h ∈ row_heads r /\ h ∈ cellhdrs;
}.

(** What never changes while the search runs. *)
Record static (m : mem) : Prop := mkStatic {
  st_ring r r1 x r2 : r ∈ rows -> row_nodes r = r1 ++ x :: r2 -> seg right left m x (r2 ++ r1) x;
  st_col r x h : r ∈ rows -> (x, h) ∈ slots r -> fld col m x = Some h;
  st_name r x : r ∈ rows -> x ∈ row_nodes r -> exists n, fld name m x = Some n /\
    (n < 100 /\ n = cell r \/ 100 <= n /\ Z.rem n 10 = val r);
  st_both r : r ∈ rows -> (exists x, x ∈ row_nodes r /\ fld name m x = Some (cell r) /\ cell r < 100) /\
    (exists x n, x ∈ row_nodes r /\ fld name m x = Some n /\ 100 <= n);
}.

(** The headers in the ring of the root, and the nodes [V h] in the ring of each
    column [h] of [T]. *)
Record dance (m : mem) (H T : list Z) (V : Z -> list Z) : Prop := mkDance {
  d_ring : seg right left m root H root;
  d_nodup : NoDup H;
  d_heads h : h ∈ H -> h ∈ hdrs;
  d_tracked h : h ∈ T -> h ∈ hdrs;
  d_col h : h ∈ T -> seg down up m h (V h) h /\ fld size m h = Some (zlen (V h));
  d_nodes h : h ∈ T -> NoDup (V h) /\ forall x, x ∈ V h -> exists r, r ∈ rows /\ (x, h) ∈ slots r;
}.

(** The rows that cover nothing but columns of [H], and their nodes in a column. *)
Definition active (H : list Z) : list Row := filter (fun r => Forall (fun h => h ∈ H) (row_heads r)) rows.
Definition slot_nodes (h : Z) (r : Row) : list Z := map fst (filter (fun p => p.2 = h) (slots r)).
Definition column (H : list Z) (h : Z) : list Z := concat (map (slot_nodes h) (active H)).

Definition inv (m : mem) (H : list Z) : Prop := static m /\ dance m H H (column H).

Definition exact (X : list Row) (H : list Z) : Prop :=
  (forall r, r ∈ X -> r ∈ rows) /\ concat (map row_heads X) ≡ₚ H.

Definition cells_in (H : list Z) : nat := length (filter (fun h => h ∈ cellhdrs) H).

(** ** The table *)

Lemma in_all_nodes r x : r ∈ rows -> x ∈ row_nodes r -> x ∈ all_nodes.
Proof. intros Hr Hx. apply list_elem_of_In, in_concat. exists (row_nodes r). split; [|by apply list_elem_of_In]. apply in_map. by apply list_elem_of_In. Qed.

Lemma in_row_nodes r x h : (x, h) ∈ slots r -> x ∈ row_nodes r.
Proof. intros Hx. unfold row_nodes. change x with (x, h).1. by apply list_elem_of_fmap_2. Qed.

Lemma in_row_heads r x h : (x, h) ∈ slots r -> h ∈ row_heads r.
Proof. intros Hx. unfold row_heads. change h with (x, h).2 at 1. by apply list_elem_of_fmap_2. Qed.

Lemma row_head_slot r h : h ∈ row_heads r -> exists x, (x, h) ∈ slots r.
Proof. unfold row_heads. intros ([x h'] & -> & Hx)%list_elem_of_fmap. by exists x. Qed.

Lemma row_node_slot r x : x ∈ row_nodes r -> exists h, (x, h) ∈ slots r.
Proof. unfold row_nodes. intros ([x' h] & -> & Hx)%list_elem_of_fmap. by exists h. Qed.

Lemma nodup_fst_inj (l : list (Z * Z)) x a b : NoDup (map fst l) -> (x, a) ∈ l -> (x, b) ∈ l -> a = b.
Proof.
  induction l as [|[y c] l IH]; cbn; [set_solver|]. intros [N1 N2]%NoDup_cons Ha Hb.
  assert (X : forall d, (x, d) ∈ l -> x ∈ map fst l) by (intros d Hd; change x with (x, d).1; by apply list_elem_of_fmap_2).
  apply elem_of_cons in Ha as [Ea|Ha], Hb as [Eb|Hb]; simplify_eq; try done;
    [by apply X in Hb|by apply X in Ha|by apply IH].
Qed.

Lemma concat_unique {A} (f : A -> list Z) l a b x : NoDup (concat (map f l)) -> a ∈ l -> b ∈ l -> x ∈ f a -> x ∈ f b -> a = b.
Proof.
  induction l as [|c l IH]; cbn; [set_solver|]. intros (N1 & N2 & N3)%NoDup_app Ha Hb Xa Xb.
  assert (E : forall d, d ∈ l -> x ∈ f d -> x ∈ concat (map f l)).
  { intros d Hd Hx. apply list_elem_of_In, in_concat. exists (f d). split; [|by apply list_elem_of_In].
    by apply in_map, list_elem_of_In. }
  apply elem_of_cons in Ha as [->|Ha], Hb as [->|Hb]; try done; [exfalso; by apply (N2 x), (E b)|
    exfalso; by apply (N2 x), (E a)|by apply IH].
Qed.

Lemma nodup_concat_sub {A} (f g : A -> list Z) l : (forall a, a ∈ l -> NoDup (g a) /\ forall x, x ∈ g a -> x ∈ f a) ->
  NoDup (concat (map f l)) -> NoDup (concat (map g l)) /\ forall x, x ∈ concat (map g l) -> x ∈ concat (map f l).
Proof.
  induction l as [|a l IH]; cbn; [set_solver|]. intros Hg (N1 & N2 & N3)%NoDup_app.
  destruct (Hg a) as [Ha Sa]; [set_solver|]. destruct IH as [Hl Sl]; [set_solver|done|].
  split; [|set_solver]. apply NoDup_app. split_and!; [done| |done]. intros x Hx Hx'. by apply (N2 x); [apply Sa|apply Sl].
Qed.

Lemma nodup_concat_filter {A} (P : A -> Prop) `{forall a, Decision (P a)} (f : A -> list Z) l :
  NoDup (concat (map f l)) -> NoDup (concat (map f (filter P l))).
Proof.
  intros N. assert (S : forall a, a ∈ l -> NoDup (f a) /\ forall x, x ∈ f a -> x ∈ f a).
  { intros a Ha. split; [|done]. clear -N Ha. induction l as [|b l IH]; [set_solver|]. cbn in N.
    apply NoDup_app in N as (N1 & _ & N3). apply elem_of_cons in Ha as [->|Ha]; [done|by apply IH]. }
  assert (E : concat (map f (filter P l)) = concat (map (fun a => if decide (P a) then f a else []) l)).
  { clear. induction l as [|a l IH]; [done|]. rewrite filter_cons. cbn. destruct (decide (P a)); cbn; by rewrite IH. }
  rewrite E. apply (nodup_concat_sub f); [|done]. intros a Ha. destruct (decide (P a)); [by apply S|].
  split; [constructor|set_solver].
Qed.

Lemma filter_concat (P : Z -> Prop) `{forall a, Decision (P a)} (ls : list (list Z)) :
  filter P (concat ls) = concat (map (filter P) ls).
Proof. induction ls as [|l ls IH]; [done|]. cbn. by rewrite filter_app, IH. Qed.

Lemma rotate_spec x l1 l2 before : x ∉ l1 -> rotate x before (l1 ++ x :: l2) = l2 ++ rev before ++ l1.
Proof.
  revert before. induction l1 as [|y l1 IH]; intros before Hx; cbn.
  - by rewrite Z.eqb_refl, app_nil_r.
  - destruct (Z.eqb_spec y x) as [->|_]; [set_solver|]. rewrite IH by set_solver. cbn. by rewrite <-app_assoc.
Qed.

Lemma static_frame m m' : static m ->
  (forall f, f = right \/ f = left \/ f = col \/ f = name -> forall x, x ∈ all_nodes -> fld f m' x = fld f m x) ->
  static m'.
Proof.
  intros [R C N B] F. split.
  - intros r r1 x r2 Hr E. eapply seg_frame; [by apply (R r)| |]; intros u Hu; apply F; auto;
      apply (in_all_nodes r); try done; rewrite E; set_solver.
  - intros r x h Hr Hx. rewrite F; [by apply (C r)|auto|]. by eapply in_all_nodes, in_row_nodes.
  - intros r x Hr Hx. rewrite F; [by apply N|auto|by eapply in_all_nodes].
  - intros r Hr. destruct (B r Hr) as [(x & Hx & E & L) (y & n & Hy & Ey & Ln)]. split.
    + exists x. rewrite F; [done|auto|by eapply in_all_nodes].
    + exists y, n. rewrite F; [done|auto|by eapply in_all_nodes].
Qed.

Context (T0 : table_ok).
#[local] Set Default Proof Using "Type + T0".

Lemma nodes_nodup : NoDup all_nodes.
Proof. destruct T0 as [N _ _ _]. apply NoDup_cons in N as [_ N]. by apply NoDup_app in N as (_ & _ & N). Qed.

Lemma node_fresh x : x ∈ all_nodes -> x ∉ root :: hdrs.
Proof.
  destruct T0 as [N _ _ _]. intros Hx Hh. change (root :: hdrs ++ all_nodes) with ((root :: hdrs) ++ all_nodes) in N.
  apply NoDup_app in N as (_ & N & _). by apply (N x).
Qed.

Lemma root_fresh : root ∉ hdrs.
Proof. destruct T0 as [N _ _ _]. apply NoDup_cons in N as [N _]. set_solver. Qed.

Lemma slot_unique r r' x h h' : r ∈ rows -> r' ∈ rows -> (x, h) ∈ slots r -> (x, h') ∈ slots r' -> r = r' /\ h = h'.
Proof.
  intros Hr Hr' Hx Hx'. assert (r = r') as <-.
  { apply (concat_unique row_nodes rows r r' x); [apply nodes_nodup|done|done|by eapply in_row_nodes..]. }
  split; [done|]. apply (nodup_fst_inj (slots r) x); [|done..]. clear Hx Hx' Hr'.
  pose proof nodes_nodup as N. unfold all_nodes in N. apply list_elem_of_split in Hr as (l1 & l2 & ->).
  rewrite map_app, concat_app in N. apply NoDup_app in N as (_ & _ & N). cbn in N. by apply NoDup_app in N as (N & _ & _).
Qed.

Lemma row_nodes_nodup r : r ∈ rows -> NoDup (row_nodes r).
Proof.
  intros Hr. pose proof nodes_nodup as N. unfold all_nodes in N. apply list_elem_of_split in Hr as (l1 & l2 & ->).
  rewrite map_app, concat_app in N. apply NoDup_app in N as (_ & _ & N). cbn in N. by apply NoDup_app in N as (N & _ & _).
Qed.

Lemma others_spec r x : r ∈ rows -> x ∈ row_nodes r ->
  exists r1 r2, row_nodes r = r1 ++ x :: r2 /\ others x = r2 ++ r1 /\ x ∉ others x.
Proof.
  intros Hr Hx. pose proof (row_nodes_nodup r Hr) as Nr.
  destruct (list_elem_of_split _ _ Hx) as (r1 & r2 & E). exists r1, r2. split; [done|].
  rewrite E in Nr. apply NoDup_app in Nr as (N1 & N2 & N3). apply NoDup_cons in N3 as [N3 _].
  assert (Hx1 : x ∉ r1) by (intros ?; apply (N2 x); set_solver).
  enough (others x = r2 ++ r1) as -> by set_solver. unfold others.
  enough (Er : filter (fun l => x ∈ l) (map row_nodes rows) = [row_nodes r]).
  { rewrite Er. cbn. rewrite app_nil_r, E. by rewrite (rotate_spec x r1 r2 []) by done. }
  pose proof nodes_nodup as N. unfold all_nodes in N. apply list_elem_of_split in Hr as (l1 & l2 & ->).
  rewrite map_app in *. cbn [map] in *. rewrite concat_app in N. cbn in N.
  apply NoDup_app in N as (_ & M1 & N). apply NoDup_app in N as (_ & M2 & _).
  assert (Z0 : forall ls, x ∉ concat ls -> filter (fun l => x ∈ l) ls = []).
  { clear. induction ls as [|l ls IH]; [done|]. cbn [concat]. intros Hx. rewrite filter_cons, decide_False by set_solver. apply IH. set_solver. }
  rewrite filter_app, filter_cons, decide_True by done. rewrite !Z0; [done| |].
  - by apply M2.
  - intros Hi. apply (M1 x Hi). set_solver.
Qed.

Lemma head_of_spec r x h : r ∈ rows -> (x, h) ∈ slots r -> head_of x = h.
Proof.
  intros Hr Hx. unfold head_of.
  assert (Hin : (x, h) ∈ filter (fun p => p.1 = x) all_slots).
  { apply list_elem_of_filter. split; [done|]. apply list_elem_of_In, in_concat. exists (slots r).
    split; [by apply in_map, list_elem_of_In|by apply list_elem_of_In]. }
  destruct (filter _ _) as [|[y h'] l] eqn:E; [set_solver|]. cbn.
  assert (Hy : (y, h') ∈ filter (fun p => p.1 = x) all_slots) by (rewrite E; set_solver).
  apply list_elem_of_filter in Hy as [Hy1 Hy2]. cbn in Hy1. subst y.
  apply list_elem_of_In, in_concat in Hy2 as (l' & Hl & Hy). apply in_map_iff in Hl as (r' & <- & Hr').
  apply list_elem_of_In in Hy, Hr'. by destruct (slot_unique r r' x h h').
Qed.

Lemma rings_small l : NoDup l -> (forall x, x ∈ l -> x ∈ root :: hdrs ++ all_nodes) -> (length l <= turns)%nat.
Proof.
  intros N Hl. destruct T0 as [_ Ts _ _]. etrans; [|exact Ts]. apply NoDup_incl_length; [by apply NoDup_ListNoDup|].
  intros x Hx. apply list_elem_of_In, Hl, list_elem_of_In, Hx.
Qed.

(** ** Steps of the dance *)

Lemma dance_node m H T V h x : dance m H T V -> h ∈ T -> x ∈ V h -> x ∈ all_nodes.
Proof. intros D Hh Hx. destruct (d_nodes _ _ _ _ D h Hh) as [_ N]. destruct (N x Hx) as (r & Hr & Hs). by eapply in_all_nodes, in_row_nodes. Qed.

Lemma dance_disjoint m H T V h k x : dance m H T V -> h ∈ T -> k ∈ T -> x ∈ h :: V h -> x ∈ k :: V k -> h = k.
Proof.
  intros D Hh Hk Hx Hx'. pose proof (d_tracked _ _ _ _ D) as HT.
  assert (X : forall a b, a ∈ T -> b ∈ T -> a ∈ V b -> False).
  { intros a b Ha Hb Hab. apply (node_fresh a); [by eapply dance_node|]. apply elem_of_cons; right. by apply HT. }
  apply elem_of_cons in Hx as [->|Hx], Hx' as [->|Hx']; [done|exfalso; by apply (X h k)|exfalso; by apply (X k h)|].
  destruct (d_nodes _ _ _ _ D h Hh) as [_ N]. destruct (N x Hx) as (r & Hr & Hs).
  destruct (d_nodes _ _ _ _ D k Hk) as [_ N']. destruct (N' x Hx') as (r' & Hr' & Hs').
  by destruct (slot_unique r r' x h k).
Qed.

Lemma ring_nodup m H T V h : dance m H T V -> h ∈ T -> NoDup (h :: V h).
Proof.
  intros D Hh. apply NoDup_cons. split; [|by apply (d_nodes _ _ _ _ D)]. intros Hx.
  apply (node_fresh h); [by eapply dance_node|]. apply elem_of_cons; right. by apply (d_tracked _ _ _ _ D).
Qed.

Lemma without_none cs l : (forall x, x ∈ cs -> x ∉ l) -> without cs l = l.
Proof.
  intros Hx. unfold without. induction l as [|y l IH]; [done|]. rewrite filter_cons, decide_True.
  - f_equal. apply IH. intros x Hc Hl. apply (Hx x Hc). set_solver.
  - intros Hy. apply (Hx y Hy). set_solver.
Qed.

Lemma without_all cs l : (forall x, x ∈ l -> x ∈ cs) -> without cs l = [].
Proof.
  unfold without. induction l as [|x l IH]; intros Hl; [done|]. rewrite filter_cons, decide_False by set_solver.
  apply IH. set_solver.
Qed.

Lemma without_app cs l1 l2 : without cs (l1 ++ l2) = without cs l1 ++ without cs l2.
Proof. apply filter_app. Qed.

Lemma without_middle x l1 l2 : NoDup (l1 ++ x :: l2) -> without [x] (l1 ++ x :: l2) = l1 ++ l2.
Proof.
  intros N. unfold without. rewrite filter_app, filter_cons, decide_False by set_solver.
  apply NoDup_app in N as (_ & N1 & N). apply NoDup_cons in N as [N _].
  f_equal; apply (without_none [x]); intros y ->%list_elem_of_singleton; [|done]. intros Hy. apply (N1 x Hy). set_solver.
Qed.

Lemma elem_without x cs l : x ∈ without cs l <-> x ∉ cs /\ x ∈ l.
Proof. unfold without. by rewrite list_elem_of_filter. Qed.

Lemma without_without a b l : without a (without b l) = without (a ++ b) l.
Proof. unfold without. rewrite list_filter_filter. apply list_filter_iff. set_solver. Qed.

Lemma unlink_dance m H T V h j : static m -> dance m H T V -> h ∈ T -> j ∈ V h ->
  exists m', unlink j m = Ok m' /\ relink j m' = Ok m /\ static m' /\ dance m' H T (fun k => without [j] (V k)).
Proof.
  intros S D Hh Hj. destruct (list_elem_of_split _ _ Hj) as (l1 & l2 & E).
  destruct (d_col _ _ _ _ D h Hh) as [Hs Hz]. pose proof (ring_nodup _ _ _ _ _ D Hh) as N.
  rewrite E in Hs, N. destruct (ring_remove _ _ _ _ _ _ _ Hs N) as (p & q & Lp & Lq & Ip & Iq & Hnew).
  apply NoDup_cons in N as [Nh N]. pose proof N as Nv. apply NoDup_app in N as (_ & N1 & N2). apply NoDup_cons in N2 as [N2 _].
  assert (Hjh : h <> j) by (intros ->; set_solver).
  assert (Hp : p <> j) by (intros ->; apply elem_of_cons in Ip as [?|?]; [done|apply (N1 j); set_solver]).
  assert (Hq : q <> j) by (intros ->; apply elem_of_app in Iq as [?|?]; [done|set_solver]).
  destruct (d_nodes _ _ _ _ D h Hh) as [_ Nd]. destruct (Nd j Hj) as (r & Hr & Hjr).
  assert (Sh : is_Some (m !! h)) by by eapply fld_is_Some.
  assert (Sp : is_Some (m !! p)) by (eapply fld_is_Some; apply Lp).
  assert (Sq : is_Some (m !! q)) by (eapply fld_is_Some; apply Lq).
  destruct (relink_unlinked m j p q h Lp Lq (st_col _ S r j h Hr Hjr) Hjh Hp Hq Sh) as [E1 E2].
  exists (unlinked p q h m). split; [done|]. split; [done|]. split.
  - apply (static_frame m); [done|]. unfold unlinked. intros f Hf x _.
    rewrite !fld_alter_other; [done|..]; intros n; by destruct Hf as [-> | [-> | [-> | ->]]].
  - assert (Fd : forall u, fld down (unlinked p q h m) u = if decide (u = p) then Some q else fld down m u).
    { intros u. unfold unlinked. rewrite fld_alter_other by done. rewrite (fld_alter_set _ _ q) by (done || by rewrite alter_is_Some).
      by rewrite fld_alter_other by done. }
    assert (Fu : forall u, fld up (unlinked p q h m) u = if decide (u = q) then Some p else fld up m u).
    { intros u. unfold unlinked. rewrite fld_alter_other by done. rewrite fld_alter_other by done.
      by rewrite (fld_alter_set _ _ p). }
    assert (Fo : forall f, f = right \/ f = left -> forall u, fld f (unlinked p q h m) u = fld f m u).
    { intros f Hf u. unfold unlinked. rewrite !fld_alter_other; [done|..]; intros n; by destruct Hf as [->| ->]. }
    assert (Hpq : p ∈ h :: V h /\ q ∈ h :: V h) by (rewrite E; set_solver).
    destruct D as [D1 D2 D3 D4 D5 D6]. split; try done.
    + eapply seg_frame; [done| |]; intros; by apply Fo; auto.
    + intros k Hk. destruct (decide (k = h)) as [->|Hkh].
      * rewrite E, without_middle by done. split; [by apply Hnew|].
        unfold unlinked. rewrite fld_alter, decide_True by done. rewrite !lookup_alter_at. unfold fld in Hz.
        rewrite E, zlen_app, zlen_cons in Hz. rewrite zlen_app.
        destruct (m !! h) as [n|]; [|done]. cbn in Hz. injection Hz as Hz.
        destruct (decide (p = h)), (decide (q = h)); cbn; f_equal; lia.
      * assert (Hd : forall u, u ∈ k :: V k -> u <> p /\ u <> q /\ u <> h /\ u <> j).
        { intros u Hu. assert (X : u ∈ h :: V h -> False).
          { intros Hu'. apply Hkh. symmetry. by apply (dance_disjoint m H T V h k u). }
          split_and!; intros ->; apply X; try apply Hpq; set_solver. }
        rewrite without_none by (intros x ->%list_elem_of_singleton Hx; destruct (Hd j) as (_ & _ & _ & ?); [set_solver|done]).
        destruct (D5 k Hk) as [S5 Z5]. split.
        -- eapply seg_frame; [done| |]; intros u Hu.
           ++ rewrite Fd, decide_False; [done|]. by apply Hd.
           ++ rewrite Fu, decide_False; [done|]. apply Hd. set_solver.
        -- destruct (Hd k) as (X1 & X2 & X3 & _); [set_solver|]. unfold unlinked.
           rewrite fld_alter, decide_False by congruence. rewrite !fld_alter_other by done. done.
    + intros k Hk. destruct (D6 k Hk) as [N6 M6]. split; [by apply NoDup_filter|].
      intros x [_ Hx]%elem_without. by apply M6.
Qed.

Lemma hide_dance m H T V c : static m -> dance m H T V -> c ∈ H ->
  exists m', hide c m = Ok m' /\ unhide c m' = Ok m /\ static m' /\ dance m' (without [c] H) T V.
Proof.
  intros S D Hc. destruct (list_elem_of_split _ _ Hc) as (l1 & l2 & E).
  destruct D as [D1 D2 D3 D4 D5 D6].
  assert (N : NoDup (root :: H)) by (apply NoDup_cons; split; [intros Hr; by apply root_fresh, D3|done]).
  rewrite E in D1, N. destruct (ring_remove _ _ _ _ _ _ _ D1 N) as (p & q & Lp & Lq & Ip & Iq & Hnew).
  apply NoDup_cons in N as [Nh N]. pose proof N as Nv. apply NoDup_app in N as (_ & N1 & N2). apply NoDup_cons in N2 as [N2 _].
  assert (Hp : p <> c) by (intros ->; apply elem_of_cons in Ip as [->|?]; [set_solver|apply (N1 c); set_solver]).
  assert (Hq : q <> c) by (intros ->; apply elem_of_app in Iq as [?|?]; [done|set_solver]).
  destruct (unhide_hidden m c p q Lp Lq Hp Hq) as [E1 E2].
  exists (hidden p q m). split; [done|]. split; [done|].
  assert (Fo : forall f, f = up \/ f = down \/ f = size \/ f = col \/ f = name -> forall u, fld f (hidden p q m) u = fld f m u).
  { intros f Hf u. unfold hidden. rewrite !fld_alter_other; [done|..]; intros n; by destruct Hf as [-> | [-> | [-> | [-> | ->]]]]. }
  assert (Fr : forall u, fld right (hidden p q m) u = if decide (u = p) then Some q else fld right m u).
  { intros u. unfold hidden. rewrite (fld_alter_set _ _ q); [by rewrite fld_alter_other by done|done|].
    rewrite alter_is_Some. eapply fld_is_Some. apply Lp. }
  assert (Fl : forall u, fld left (hidden p q m) u = if decide (u = q) then Some p else fld left m u).
  { intros u. unfold hidden. rewrite fld_alter_other by done. rewrite (fld_alter_set _ _ p); [done|done|].
    eapply fld_is_Some. apply Lq. }
  assert (Hpq : p ∈ root :: hdrs /\ q ∈ root :: hdrs).
  { assert (X : forall u, u ∈ root :: l1 ++ c :: l2 -> u ∈ root :: hdrs).
    { intros u [->|Hu]%elem_of_cons; [set_solver|]. apply elem_of_cons; right. apply D3. by rewrite E. }
    split; apply X; set_solver. }
  split.
  - apply (static_frame m); [done|]. intros f Hf x Hx.
    assert (X : x <> p /\ x <> q) by (pose proof (node_fresh x Hx); split; intros ->; apply H0; apply Hpq).
    destruct Hf as [-> | [-> | Hf]]; [by rewrite Fr, decide_False by apply X|by rewrite Fl, decide_False by apply X|].
    apply Fo. destruct Hf; auto.
  - split; try done.
    + rewrite E, without_middle by done. by apply Hnew.
    + by apply NoDup_filter.
    + intros h [_ Hh]%elem_without. by apply D3.
    + intros h Hh. destruct (D5 h Hh) as [S5 Z5]. split; [|by rewrite Fo by auto].
      eapply seg_frame; [done| |]; intros; apply Fo; auto.
Qed.

(** Unlinking a list of nodes, none of the column [c], whose ring stays. *)
Lemma unlinks_dance c js m H T V : static m -> dance m H T V -> c ∈ T -> NoDup js ->
  (forall j, j ∈ js -> exists h, h ∈ T /\ h <> c /\ j ∈ V h) ->
  exists m', steps (fun j m m' => unlink j m = Ok m' /\ relink j m' = Ok m)
               (fun m => static m /\ seg down up m c (V c) c) js m m' /\
    static m' /\ dance m' H T (fun k => without js (V k)).
Proof.
  intros S D Hc. revert m V S D. induction js as [|j js IH]; intros m V S D N Hj.
  - exists m. destruct (d_col _ _ _ _ D c Hc) as [Sc _].
    split; [done|]. split; [done|]. destruct D as [D1 D2 D3 D4 D5 D6]. split; try done; intros h Hh; rewrite without_none by set_solver; auto.
  - destruct (Hj j) as (h & Hh & Hhc & Hjh); [set_solver|]. apply NoDup_cons in N as [N1 N2].
    destruct (unlink_dance m H T V h j S D Hh Hjh) as (m1 & E1 & E2 & S1 & D1).
    assert (Vc : without [j] (V c) = V c).
    { apply without_none. intros x ->%list_elem_of_singleton Hx. apply Hhc. apply (dance_disjoint m H T V h c j); set_solver. }
    destruct (IH m1 _ S1 D1 N2) as (m' & St & S' & D').
    { intros x Hx. destruct (Hj x) as (k & Hk & Hkc & Hxk); [set_solver|]. exists k. split_and!; [done..|].
      apply elem_without. split; [|done]. intros ->%list_elem_of_singleton. done. }
    exists m'. split_and!; [|done|].
    + cbn. split; [split; [done|by apply (d_col _ _ _ _ D c Hc)]|]. exists m1. split; [done|]. rewrite Vc in St. done.
    + destruct D' as [X1 X2 X3 X4 X5 X6].
      assert (W : forall k, without js (without [j] (V k)) = without (j :: js) (V k)).
      { intros k. rewrite without_without. unfold without. apply list_filter_iff. set_solver. }
      split; try done; intros k Hk; rewrite <-W; auto.
Qed.

Lemma cover_hide c m : cover c m =
  let* m := hide c m in let* n := load c m in ring_loop turns down cover_row c (down n) m.
Proof.
  clear T0. unfold cover, hide. destruct (load c m); [|done]. cbn. destruct (modify _ _ m) as [m1|]; [|done]. cbn.
  by destruct (load c m1).
Qed.

Lemma uncover_unhide c m : uncover c m =
  let* n := load c m in let* m := ring_loop turns up uncover_row c (up n) m in unhide c m.
Proof. done. Qed.

Lemma row_ring m x r : static m -> r ∈ rows -> x ∈ row_nodes r -> seg right left m x (others x) x.
Proof. intros S Hr Hx. destruct (others_spec r x Hr Hx) as (r1 & r2 & E & -> & _). by apply (st_ring _ S r). Qed.

Lemma ring_small r x : r ∈ rows -> x ∈ row_nodes r -> (length (x :: others x) <= turns)%nat.
Proof.
  intros Hr Hx. destruct (others_spec r x Hr Hx) as (r1 & r2 & E & -> & _). pose proof (row_nodes_nodup r Hr) as N.
  rewrite E in N. apply NoDup_app in N as (N1 & N2 & [N3 N4]%NoDup_cons). apply rings_small.
  - apply NoDup_cons. split; [set_solver|]. apply NoDup_app. set_solver.
  - intros y Hy. apply elem_of_cons; right. apply elem_of_app; right. apply (in_all_nodes r); [done|]. rewrite E. set_solver.
Qed.

Lemma others_small r x : r ∈ rows -> x ∈ row_nodes r -> (length (others x) <= turns)%nat.
Proof. intros Hr Hx. pose proof (ring_small r x Hr Hx). cbn in *. lia. Qed.

(** The two loops over a row, as sequences of steps. *)
Lemma row_loops G x r js m m' : (forall m, G m -> static m) -> r ∈ rows -> x ∈ row_nodes r -> js = others x ->
  steps (fun j m m' => unlink j m = Ok m' /\ relink j m' = Ok m) G js m m' ->
  cover_row x m = Ok m' /\ uncover_row x m' = Ok m.
Proof.
  intros HG Hr Hx -> St. destruct (others_spec r x Hr Hx) as (r1 & r2 & _ & _ & Nx).
  pose proof (others_small r x Hr Hx) as Hl. destruct (steps_good _ _ _ _ _ St) as [G1 G2].
  assert (R : forall m, G m -> seg right left m x (others x) x) by (intros; eapply row_ring; eauto).
  unfold cover_row, uncover_row. split.
  - destruct (load_fld right m x _ (proj2 (seg_chain _ _ _ _ _ _ (R m G1)))) as (n & A & _ & En). rewrite A. cbn [res_bind]. rewrite En.
    apply (ring_loop_steps _ G _ _ _ _ (others x)) with (5 := St); try done; [by intros ? ? ? _ _ _ []|].
    intros m1 Hm. exact (proj1 (seg_chain _ _ _ _ _ _ (R m1 Hm))).
  - assert (R' : forall m, G m -> seg left right m x (rev (others x)) x) by (intros; by apply seg_rev, R).
    destruct (load_fld left m' x _ (proj2 (seg_chain _ _ _ _ _ _ (R' m' G2)))) as (n & A & _ & En). rewrite A. cbn [res_bind]. rewrite En.
    apply steps_rev in St. apply (ring_loop_steps _ G _ _ _ _ (rev (others x))) with (5 := St).
    + by intros ? ? ? _ _ _ [].
    + intros m1 Hm. exact (proj1 (seg_chain _ _ _ _ _ _ (R' m1 Hm))).
    + intros Hi. apply Nx. by apply list_elem_of_In, in_rev, list_elem_of_In.
    + by rewrite length_rev.
Qed.

Lemma cover_dance m H T V c : static m -> dance m H T V -> c ∈ H -> c ∈ T ->
  NoDup (concat (map others (V c))) ->
  (forall j, j ∈ concat (map others (V c)) -> exists h, h ∈ T /\ h <> c /\ j ∈ V h) ->
  exists m', cover c m = Ok m' /\ uncover c m' = Ok m /\ static m' /\ seg down up m' c (V c) c /\
    dance m' (without [c] H) T (fun k => without (concat (map others (V c))) (V k)).
Proof.
  intros S D Hc Ht N Hj. destruct (hide_dance m H T V c S D Hc) as (m1 & E1 & E1' & S1 & D1).
  destruct (unlinks_dance c _ m1 _ T V S1 D1 Ht N Hj) as (m' & St & S' & D'). exists m'.
  set (G := fun m => static m /\ seg down up m c (V c) c) in St.
  destruct (steps_good _ _ _ _ _ St) as [G1 [_ G2]].
  assert (St2 : steps (fun x m m' => cover_row x m = Ok m' /\ uncover_row x m' = Ok m) G (V c) m1 m').
  { apply (steps_concat _ G others) in St; [|done]. eapply steps_impl; [|done]. intros x n n' Hx Hn.
    destruct (d_nodes _ _ _ _ D c Ht) as [_ Nd]. destruct (Nd x Hx) as (r & Hr & Hs).
    apply (row_loops G x r (others x)); [by intros ? []|done|by eapply in_row_nodes|done|done]. }
  assert (Nc : c ∉ V c) by (pose proof (ring_nodup _ _ _ _ _ D Ht) as X; by apply NoDup_cons in X as [X _]).
  assert (Hl : (length (V c) <= turns)%nat).
  { destruct (d_nodes _ _ _ _ D c Ht) as [Nv _]. apply rings_small; [done|]. intros x Hx.
    apply elem_of_cons; right. apply elem_of_app; right. by apply (dance_node m H T V c). }
  split_and!; [| |done|done|done].
  - rewrite cover_hide, E1. cbn [res_bind].
    destruct (load_fld down m1 c _ (proj2 (seg_chain _ _ _ _ _ _ (proj2 G1)))) as (n & A & _ & En). rewrite A. cbn [res_bind]. rewrite En.
    apply (ring_loop_steps _ G _ _ _ _ (V c)) with (5 := St2); try done; [by intros ? ? ? _ _ _ []|].
    intros m2 [_ Hm]. exact (proj1 (seg_chain _ _ _ _ _ _ Hm)).
  - rewrite uncover_unhide. apply seg_rev in G2.
    destruct (load_fld up m' c _ (proj2 (seg_chain _ _ _ _ _ _ G2))) as (n & A & _ & En). rewrite A. cbn [res_bind]. rewrite En.
    apply steps_rev in St2. erewrite (ring_loop_steps _ G _ _ _ _ (rev (V c))) with (5 := St2); [done| | | |].
    + by intros ? ? ? _ _ _ [].
    + intros m2 [_ Hm]. exact (proj1 (seg_chain _ _ _ _ _ _ (seg_rev _ _ _ _ _ _ Hm))).
    + intros Hi. apply Nc. by apply list_elem_of_In, in_rev, list_elem_of_In.
    + by rewrite length_rev.
Qed.

(** ** Covering a column of the table *)

Lemma elem_column x H h : x ∈ column H h <->
  exists r, r ∈ rows /\ (forall k, k ∈ row_heads r -> k ∈ H) /\ (x, h) ∈ slots r.
Proof.
  unfold column, active. rewrite list_elem_of_In, in_concat. split.
  - intros (l & Hl & Hx). apply in_map_iff in Hl as (r & <- & Hr). apply list_elem_of_In, list_elem_of_filter in Hr as [Hf Hr].
    rewrite Forall_forall in Hf. exists r. split; [done|]. split; [done|]. apply list_elem_of_In in Hx. unfold slot_nodes in Hx.
    apply list_elem_of_fmap in Hx as ([y k] & -> & [Hk Hy]%list_elem_of_filter). cbn in Hk. by subst k.
  - intros (r & Hr & Hf & Hs). exists (slot_nodes h r). split.
    + apply in_map. apply list_elem_of_In, list_elem_of_filter. split; [|done]. by apply Forall_forall.
    + apply list_elem_of_In. unfold slot_nodes. change x with (x, h).1. apply list_elem_of_fmap_2. by apply list_elem_of_filter.
Qed.

Lemma slot_nodes_row h r x : x ∈ slot_nodes h r <-> (x, h) ∈ slots r.
Proof.
  unfold slot_nodes. split.
  - intros ([y k] & -> & [Hk Hy]%list_elem_of_filter)%list_elem_of_fmap. cbn in Hk. by subst k.
  - intros Hs. change x with (x, h).1. apply list_elem_of_fmap_2. by apply list_elem_of_filter.
Qed.

Lemma slot_nodes_one h r : r ∈ rows -> slot_nodes h r = [] \/ exists x, slot_nodes h r = [x] /\ (x, h) ∈ slots r.
Proof.
  intros Hr. destruct (t_heads T0 r Hr) as [N _]. unfold row_heads, slot_nodes in *.
  induction (slots r) as [|[x k] l IH]; [by left|]. cbn in N. apply NoDup_cons in N as [N1 N2].
  rewrite filter_cons. cbn. destruct (decide (k = h)) as [->|Hk].
  - right. exists x. split; [|set_solver]. cbn. f_equal.
    destruct (filter _ l) as [|[y k] l'] eqn:E; [done|]. exfalso. apply N1.
    assert (Hy : (y, k) ∈ filter (fun p => p.2 = h) l) by (rewrite E; set_solver).
    apply list_elem_of_filter in Hy as [Hk Hy]. cbn in Hk. subst k. change h with (y, h).2. by apply list_elem_of_fmap_2.
  - destruct (IH N2) as [->|(y & -> & Hy)]; [by left|]. right. exists y. split; [done|set_solver].
Qed.

Lemma column_nodup H h : NoDup (column H h).
Proof.
  unfold column, active. apply (nodup_concat_sub row_nodes (slot_nodes h)).
  - intros r Hr. apply list_elem_of_filter in Hr as [_ Hr]. split.
    + destruct (slot_nodes_one h r Hr) as [->|(x & -> & _)]; repeat constructor. set_solver.
    + intros x Hx%slot_nodes_row. by eapply in_row_nodes.
  - apply nodup_concat_filter, nodes_nodup.
Qed.

(** The nodes unlinked when a column is covered. *)
Definition unlinks (H : list Z) (c : Z) : list Z := concat (map others (column H c)).

Lemma elem_others r x y : r ∈ rows -> x ∈ row_nodes r -> (y ∈ others x <-> y ∈ row_nodes r /\ y <> x).
Proof.
  intros Hr Hx. destruct (others_spec r x Hr Hx) as (r1 & r2 & E & Eo & Nx). rewrite Eo in *. rewrite E. split.
  - intros Hy. split; [set_solver|]. by intros ->.
  - intros [Hy Hn]. set_solver.
Qed.

Lemma elem_unlinks j H c : j ∈ unlinks H c <->
  exists r h, r ∈ rows /\ (forall k, k ∈ row_heads r -> k ∈ H) /\ c ∈ row_heads r /\ (j, h) ∈ slots r /\ h <> c.
Proof.
  unfold unlinks. rewrite list_elem_of_In, in_concat. split.
  - intros (l & Hl & Hj). apply in_map_iff in Hl as (x & <- & Hx). apply list_elem_of_In in Hx, Hj.
    apply elem_column in Hx as (r & Hr & Hf & Hs). apply (elem_others r) in Hj as [Hj Hn]; [|done|by eapply in_row_nodes].
    destruct (row_node_slot r j Hj) as (h & Hh). exists r, h. split_and!; try done; [by eapply in_row_heads|].
    intros ->. apply Hn. destruct (slot_nodes_one c r Hr) as [E|(y & E & _)].
    + apply slot_nodes_row in Hs. rewrite E in Hs. set_solver.
    + apply slot_nodes_row in Hs, Hh. rewrite E in Hs, Hh. set_solver.
  - intros (r & h & Hr & Hf & Hc & Hj & Hn). destruct (row_head_slot r c Hc) as (x & Hx). exists (others x). split.
    + apply in_map, list_elem_of_In, elem_column. by exists r.
    + apply list_elem_of_In, (elem_others r); [done|by eapply in_row_nodes|]. split; [by eapply in_row_nodes|].
      intros ->. by destruct (slot_unique r r x h c).
Qed.

Lemma concat_map_concat {A} (f : Z -> list Z) (g : A -> list Z) l :
  concat (map f (concat (map g l))) = concat (map (fun a => concat (map f (g a))) l).
Proof. induction l as [|a l IH]; [done|]. cbn. by rewrite map_app, concat_app, IH. Qed.

Lemma unlinks_nodup H c : NoDup (unlinks H c).
Proof.
  unfold unlinks, column, active. rewrite concat_map_concat.
  apply (nodup_concat_sub row_nodes); [|apply nodup_concat_filter, nodes_nodup].
  intros r [_ Hr]%list_elem_of_filter. destruct (slot_nodes_one c r Hr) as [->|(x & -> & Hs)]; cbn; [split; [constructor|set_solver]|].
  rewrite app_nil_r. pose proof (in_row_nodes _ _ _ Hs) as Hx. split; [|by intros y [Hy _]%(elem_others r)].
  destruct (others_spec r x Hr Hx) as (r1 & r2 & E & -> & _). pose proof (row_nodes_nodup r Hr) as N. rewrite E in N.
  apply NoDup_app in N as (N1 & N2 & [N3 N4]%NoDup_cons). apply NoDup_app. set_solver.
Qed.

Lemma concat_map_filter {A} (P : A -> Prop) `{forall a, Decision (P a)} (g : A -> list Z) l :
  concat (map g (filter P l)) = concat (map (fun a => if decide (P a) then g a else []) l).
Proof. induction l as [|a l IH]; [done|]. rewrite filter_cons. cbn. destruct (decide (P a)); cbn; by rewrite IH. Qed.

(** Unlinking them leaves the columns of the smaller problem. *)
Lemma column_without H c h : c ∈ H -> h <> c -> without (unlinks H c) (column H h) = column (without [c] H) h.
Proof.
  intros Hc Hh. unfold without at 1. unfold column at 1, active at 1. rewrite filter_concat, map_map, !concat_map_filter.
  unfold column, active. rewrite concat_map_filter. f_equal. apply map_ext_in. intros r Hr%list_elem_of_In.
  destruct (decide (Forall (fun k => k ∈ H) (row_heads r))) as [Hf|Hf].
  - rewrite Forall_forall in Hf. destruct (decide (c ∈ row_heads r)) as [Hcr|Hcr].
    + rewrite decide_False.
      2:{ rewrite Forall_forall. intros X. by destruct (proj1 (elem_without _ _ _) (X c Hcr)) as [[]%not_elem_of_cons _]. }
      destruct (filter _ _) as [|x l] eqn:E; [done|]. exfalso.
      assert (Hx : x ∈ filter (fun j => j ∉ unlinks H c) (slot_nodes h r)) by (rewrite E; set_solver).
      apply list_elem_of_filter in Hx as [Hx Hs%slot_nodes_row]. apply Hx, elem_unlinks. by exists r, h.
    + rewrite decide_True.
      2:{ rewrite Forall_forall. intros k Hk. apply elem_without. split; [|by apply Hf]. intros ->%list_elem_of_singleton. done. }
      apply (without_none (unlinks H c)). intros x Hx Hs%slot_nodes_row.
      apply elem_unlinks in Hx as (r' & k & Hr' & _ & Hcr' & Hs' & _). by destruct (slot_unique r r' x h k) as [-> _].
  - rewrite decide_False; [done|]. rewrite !Forall_forall in *. intros X. apply Hf. intros k Hk. by apply (elem_without k [c] H), X.
Qed.

Lemma cover_inv m H c : inv m H -> c ∈ H ->
  exists m', cover c m = Ok m' /\ uncover c m' = Ok m /\ inv m' (without [c] H) /\ seg down up m' c (column H c) c.
Proof.
  intros [S D] Hc. destruct (cover_dance m H H (column H) c S D Hc Hc (unlinks_nodup H c)) as (m' & E1 & E2 & S' & R & D').
  { intros j (r & h & Hr & Hf & Hcr & Hs & Hn)%elem_unlinks. exists h. split_and!; [|done|].
    - by apply Hf, (in_row_heads r j).
    - apply elem_column. by exists r. }
  exists m'. split_and!; [done|done| |done]. split; [done|].
  destruct D' as [D1 D2 D3 D4 D5 D6]. fold (unlinks H c) in *.
  assert (X : forall h, h ∈ without [c] H -> h ∈ H /\ without (unlinks H c) (column H h) = column (without [c] H) h).
  { intros h [Hn Hh]%elem_without. split; [done|]. apply column_without; [done|]. intros ->. set_solver. }
  split; try done.
  - intros h [Hh E]%X. rewrite <-E. by apply D5.
  - intros h [Hh E]%X. rewrite <-E. by apply D6.
Qed.

(** Covering several columns, and uncovering them in the reverse order. *)
Lemma covers_inv cs m H : inv m H -> NoDup cs -> (forall c, c ∈ cs -> c ∈ H) ->
  exists m', steps (fun c m m' => cover c m = Ok m' /\ uncover c m' = Ok m) static cs m m' /\ inv m' (without cs H).
Proof.
  revert m H. induction cs as [|c cs IH]; intros m H I N Hcs.
  - exists m. split; [split; [done|apply I]|]. rewrite without_none by set_solver. done.
  - apply NoDup_cons in N as [N1 N2]. destruct (cover_inv m H c I) as (m1 & E1 & E2 & I1 & _); [set_solver|].
    destruct (IH m1 (without [c] H) I1 N2) as (m' & St & I').
    { intros d Hd. apply elem_without. split; [|set_solver]. intros ->%list_elem_of_singleton. done. }
    exists m'. split.
    + split; [apply I|]. by exists m1.
    + rewrite without_without in I'. enough (without (c :: cs) H = without (cs ++ [c]) H) as -> by done.
      unfold without. apply list_filter_iff. set_solver.
Qed.

Lemma steps_map B G (f : Z -> Z) l m m' : steps B G (map f l) m m' <-> steps (fun x => B (f x)) G l m m'.
Proof.
  revert m. induction l as [|x l IH]; intros m; cbn; [done|]. split; intros (Gm & m1 & H1 & H2); split; try done;
    exists m1; (split; [done|]); by apply IH.
Qed.

(** The columns of a row, around one of its nodes. *)
Lemma others_heads r x h : r ∈ rows -> (x, h) ∈ slots r ->
  NoDup (map head_of (others x)) /\ forall k, k ∈ map head_of (others x) <-> k ∈ row_heads r /\ k <> h.
Proof.
  intros Hr Hs. pose proof (in_row_nodes _ _ _ Hs) as Hx. destruct (others_spec r x Hr Hx) as (r1 & r2 & E & Eo & _).
  assert (Em : row_heads r = map head_of (row_nodes r)).
  { unfold row_heads, row_nodes. rewrite map_map. apply map_ext_in. intros [y k] Hy%list_elem_of_In. symmetry. by apply (head_of_spec r). }
  destruct (t_heads T0 r Hr) as [N _]. rewrite Em, E, map_app in N. cbn [map] in N. rewrite (head_of_spec r x h Hr Hs) in N.
  apply NoDup_app in N as (N1 & N2 & [N3 N4]%NoDup_cons). rewrite Eo, map_app. split.
  - apply NoDup_app. set_solver.
  - intros k. rewrite Em, E, map_app. cbn [map]. rewrite (head_of_spec r x h Hr Hs). split.
    + intros Hk. split; [set_solver|]. intros ->. apply elem_of_app in Hk as [?|?]; [done|apply (N2 h); set_solver].
    + set_solver.
Qed.

(** ** Choosing a row *)

Lemma node_col m r x h : static m -> r ∈ rows -> (x, h) ∈ slots r -> exists n, load x m = Ok n /\ col n = h.
Proof. intros S Hr Hs. destruct (load_fld _ _ _ _ (st_col _ S r x h Hr Hs)) as (n & E & _ & Ec). eauto. Qed.

Lemma choose_row m H c r x : inv m (without [c] H) -> r ∈ rows -> (x, c) ∈ slots r ->
  (forall k, k ∈ row_heads r -> k ∈ H) ->
  exists m' n n', load x m = Ok n /\ ring_loop turns right cover_col x (right n) m = Ok m' /\
    load x m' = Ok n' /\ ring_loop turns left uncover_col x (left n') m' = Ok m /\ inv m' (without (row_heads r) H).
Proof.
  intros I Hr Hs Hf. pose proof (in_row_nodes _ _ _ Hs) as Hx. destruct (others_heads r x c Hr Hs) as [N Hh].
  destruct (covers_inv _ m _ I N) as (m' & St & I').
  { intros k [Hk Hkc]%Hh. apply elem_without. split; [set_solver|by apply Hf]. }
  apply steps_map in St. exists m'. destruct (others_spec r x Hr Hx) as (_ & _ & _ & _ & Nx).
  assert (Hj : forall j m, j ∈ others x -> static m -> exists n, load j m = Ok n /\ col n = head_of j).
  { intros j m0 [Hj _]%(elem_others r) S0; [|done..]. destruct (row_node_slot r j Hj) as (h & Hjh).
    rewrite (head_of_spec r j h Hr Hjh). by apply (node_col m0 r). }
  assert (R : forall m, static m -> seg right left m x (others x) x) by (intros; by eapply row_ring).
  destruct (load_fld right m x _ (proj2 (seg_chain _ _ _ _ _ _ (R m (proj1 I))))) as (n & A & _ & En).
  pose proof (fun m S => seg_rev _ _ _ _ _ _ (R m S)) as R'.
  destruct (load_fld left m' x _ (proj2 (seg_chain _ _ _ _ _ _ (R' m' (proj1 I'))))) as (n' & A' & _ & En').
  exists n, n'. split_and!; [done| |done| |].
  - rewrite En. apply (ring_loop_steps _ static _ _ _ _ (others x)) with (5 := St); try done; [| |by eapply others_small].
    + intros j m1 m2 Hjo S1 S2 [E _]. destruct (Hj j m1 Hjo S1) as (nj & Ej & Ec). unfold cover_col. by rewrite Ej, <-E, <-Ec.
    + intros m1 S1. exact (proj1 (seg_chain _ _ _ _ _ _ (R m1 S1))).
  - rewrite En'. apply steps_rev in St. apply (ring_loop_steps _ static _ _ _ _ (rev (others x))) with (5 := St).
    + intros j m1 m2 Hjo S1 S2 [_ E]. apply list_elem_of_In, in_rev, list_elem_of_In in Hjo.
      destruct (Hj j m1 Hjo S1) as (nj & Ej & Ec). unfold uncover_col. by rewrite Ej, <-E, <-Ec.
    + intros m1 S1. exact (proj1 (seg_chain _ _ _ _ _ _ (R' m1 S1))).
    + intros Hi. apply Nx. by apply list_elem_of_In, in_rev, list_elem_of_In.
    + rewrite length_rev. by eapply others_small.
  - rewrite without_without in I'.
    enough (without (row_heads r) H = without (map head_of (others x) ++ [c]) H) as -> by done.
    unfold without. apply list_filter_iff. intros k. rewrite not_elem_of_app, Hh, list_elem_of_singleton.
    pose proof (in_row_heads _ _ _ Hs). destruct (decide (k = c)) as [->|]; set_solver.
Qed.

Lemma min_loop_ok m H rest fuel c ms : inv m H -> chain right m rest root -> (forall h, h ∈ rest -> h ∈ H) -> c ∈ H ->
  (length rest <= fuel)%nat -> exists c', min_loop fuel root c ms (first_of rest root) m = Ok c' /\ c' ∈ H.
Proof.
  intros I. revert fuel c ms. induction rest as [|h rest IH]; intros fuel c ms C Hr Hc Hf.
  - exists c. destruct fuel; cbn; by rewrite Z.eqb_refl.
  - destruct fuel as [|fuel]; [cbn in Hf; lia|]. cbn. assert (Hh : h ∈ H) by (apply Hr; set_solver).
    destruct (Z.eqb_spec h root) as [->|_]; [exfalso; by apply root_fresh, (d_heads _ _ _ _ (proj2 I))|].
    destruct C as [C1 C2]. destruct (load_fld _ _ _ _ C1) as (n & A & _ & En). rewrite A. cbn [res_bind]. rewrite En.
    assert (X : forall c ms, c ∈ H -> exists c', min_loop fuel root c ms (first_of rest root) m = Ok c' /\ c' ∈ H).
    { intros. apply IH; [done|set_solver|done|cbn in Hf; lia]. }
    destruct (_ <? ms); [|by apply X]. destruct (_ <=? 1); [by exists h|by apply X].
Qed.

Lemma get_min_column_ok m H : inv m H -> H <> [] -> exists c, get_min_column root m = Ok c /\ c ∈ H.
Proof.
  intros I Hne. pose proof (d_ring _ _ _ _ (proj2 I)) as R. destruct (seg_chain _ _ _ _ _ _ R) as [C F].
  destruct H as [|h H]; [done|]. unfold get_min_column.
  destruct (load_fld _ _ _ _ F) as (n & -> & _ & E). cbn [res_bind]. rewrite E. cbn.
  destruct C as [C1 C2]. destruct (load_fld _ _ _ _ C1) as (n' & -> & _ & E'). cbn [res_bind]. rewrite E'.
  destruct (1 <? size n'); [|exists h; set_solver].
  apply (min_loop_ok m (h :: H)); [done|done|set_solver|set_solver|].
  pose proof (d_nodup _ _ _ _ (proj2 I)) as N. pose proof (d_heads _ _ _ _ (proj2 I)) as Hh.
  apply NoDup_cons in N as [_ N]. apply rings_small; [done|]. set_solver.
Qed.

(** ** Reading a choice back from one of its nodes *)

Lemma decode_loop_ok m r rest stop fuel c v : static m -> r ∈ rows -> (forall x, x ∈ rest -> x ∈ row_nodes r) ->
  chain right m rest stop -> (length rest <= fuel)%nat ->
  (c = cell r \/ c = -1 /\ exists x, x ∈ rest /\ fld name m x = Some (cell r) /\ cell r < 100) ->
  (v = val r \/ v = -1 /\ exists x n, x ∈ rest /\ fld name m x = Some n /\ 100 <= n) ->
  decode_loop fuel (first_of rest stop) c v m = Ok (cell r, val r).
Proof.
  intros S Hr. destruct (t_cell T0 r Hr) as (Bc & Bv & _). revert fuel c v.
  induction rest as [|x rest IH]; intros fuel c v Hx C Hf Hc Hv.
  - destruct Hc as [->|(_ & x & Hx' & _)]; [|set_solver]. destruct Hv as [->|(_ & x & n & Hx' & _)]; [|set_solver].
    destruct fuel; cbn; by rewrite (proj2 (Z.eqb_neq _ _)), (proj2 (Z.eqb_neq _ _)) by lia.
  - destruct fuel as [|fuel]; [cbn in Hf; lia|]. cbn [decode_loop first_of head default].
    destruct (negb _) eqn:Eb.
    { apply negb_true_iff, orb_false_iff in Eb as [B1%Z.eqb_neq B2%Z.eqb_neq].
      destruct Hc as [->|[? _]], Hv as [->|[? _]]; done. }
    destruct C as [C1 C2]. destruct (load_fld _ _ _ _ C1) as (n & A & A' & En).
    cbn [first_of head default]. cbn. rewrite A. cbn [res_bind]. rewrite En.
    destruct (st_name _ S r x Hr) as (nm & Enm & Hnm); [apply Hx; set_solver|].
    assert (Ename : name n = nm) by (unfold fld in Enm; rewrite A' in Enm; by injection Enm).
    rewrite Ename. cbn in Hf.
    destruct Hnm as [[H1 ->]|[H1 H2]].
    + rewrite (proj2 (Z.ltb_lt _ _)) by lia. apply IH; [set_solver|done|lia|by left|].
      destruct Hv as [->|(-> & y & k & Hy & Ey & Hk)]; [by left|right]. split; [done|]. exists y, k.
      split; [|done]. apply elem_of_cons in Hy as [->|]; [|done]. exfalso. rewrite Enm in Ey. simplify_eq. lia.
    + rewrite (proj2 (Z.ltb_ge _ _)) by lia. rewrite H2. apply IH; [set_solver|done|lia| |by left].
      destruct Hc as [->|(-> & y & Hy & Ey & Hk)]; [by left|right]. split; [done|]. exists y.
      split; [|done]. apply elem_of_cons in Hy as [->|]; [|done]. exfalso. rewrite Enm in Ey. simplify_eq. lia.
Qed.

Lemma write_choice_ok m r x b : static m -> r ∈ rows -> x ∈ row_nodes r -> zlen b = kCells ->
  write_choice m b x = Ok (<[Z.to_nat (cell r) := val r]> b).
Proof.
  intros S Hr Hx Hb. destruct (others_spec r x Hr Hx) as (r1 & r2 & E & Eo & _).
  destruct (seg_chain _ _ _ _ _ _ (row_ring m x r S Hr Hx)) as [C F].
  assert (Hin : forall y, y ∈ row_nodes r -> y ∈ x :: others x) by (intros y; rewrite E, Eo; set_solver).
  destruct (st_both _ S r Hr) as [(y & Hy & Ey & Ly) (z & n & Hz & Ez & Lz)]. unfold write_choice.
  pose proof (decode_loop_ok m r (x :: others x) x turns (-1) (-1) S Hr) as D. change (first_of (x :: others x) x) with x in D. rewrite D.
  - cbn. unfold write_cell, cell_at. destruct (t_cell T0 r Hr) as (Bc & _ & _).
    rewrite (proj2 (Z.ltb_ge _ _)) by lia. destruct (b !! Z.to_nat (cell r)) eqn:Eb; [done|].
    apply lookup_ge_None in Eb. unfold zlen, kCells in *. lia.
  - intros u [->|Hu]%elem_of_cons; [done|]. by apply (elem_others r) in Hu as [Hu _].
  - by split.
  - by apply (ring_small r).
  - right. split; [done|]. exists y. auto.
  - right. split; [done|]. exists z, n. auto.
Qed.

(** ** Exact covers *)

Lemma elem_heads (X : list Row) h : h ∈ concat (map row_heads X) <-> exists r, r ∈ X /\ h ∈ row_heads r.
Proof.
  rewrite list_elem_of_In, in_concat. split.
  - intros (l & Hl & Hh). apply in_map_iff in Hl as (r & <- & Hr). exists r. split; by apply list_elem_of_In.
  - intros (r & Hr & Hh). exists (row_heads r). split; [by apply in_map, list_elem_of_In|by apply list_elem_of_In].
Qed.

Lemma exact_covers X H c : exact X H -> c ∈ H -> exists r x, r ∈ X /\ x ∈ column H c /\ (x, c) ∈ slots r.
Proof.
  intros [HX P] Hc. rewrite <-P in Hc. apply elem_heads in Hc as (r & Hr & Hh).
  destruct (row_head_slot r c Hh) as (x & Hx). exists r, x. split; [done|]. split; [|done].
  apply elem_column. exists r. split; [by apply HX|]. split; [|done]. intros k Hk. rewrite <-P. apply elem_heads. by exists r.
Qed.

Lemma exact_split X H r : NoDup H -> exact X H -> r ∈ X -> exists X', exact X' (without (row_heads r) H).
Proof.
  intros N [HX P] Hr. destruct (list_elem_of_split _ _ Hr) as (X1 & X2 & ->). exists (X1 ++ X2). split.
  - intros r' Hr'. apply HX. set_solver.
  - rewrite map_app, concat_app in *. cbn in P.
    assert (P' : row_heads r ++ concat (map row_heads X1) ++ concat (map row_heads X2) ≡ₚ H) by (rewrite <-P; solve_Permutation).
    assert (Nd : NoDup (row_heads r ++ concat (map row_heads X1) ++ concat (map row_heads X2))) by by rewrite P'.
    apply NoDup_app in Nd as (_ & Nd & _).
    assert (Pw : forall l, l ≡ₚ H -> without (row_heads r) l ≡ₚ without (row_heads r) H) by (intros l E; unfold without; by rewrite E).
    rewrite <-(Pw _ P'), without_app.
    rewrite (without_all (row_heads r) (row_heads r)) by done.
    rewrite (without_none (row_heads r)) by (intros h Hh; by apply Nd). done.
Qed.

Lemma exact_add X H r : NoDup H -> r ∈ rows -> (forall k, k ∈ row_heads r -> k ∈ H) ->
  exact X (without (row_heads r) H) -> exact (r :: X) H.
Proof.
  intros N Hr Hf [HX P]. split; [set_solver|]. cbn. rewrite P. apply NoDup_Permutation; [|done|].
  - apply NoDup_app. split_and!; [by apply (t_heads T0)| |by apply NoDup_filter].
    intros h Hh [X' _]%elem_without. done.
  - intros h. rewrite elem_of_app, elem_without. split; [set_solver|]. destruct (decide (h ∈ row_heads r)); auto.
Qed.

Lemma cells_decrease H r : r ∈ rows -> (forall k, k ∈ row_heads r -> k ∈ H) -> (cells_in (without (row_heads r) H) < cells_in H)%nat.
Proof.
  intros Hr Hf. destruct (t_cell T0 r Hr) as (_ & _ & h & Hh & Hc). unfold cells_in, without. rewrite list_filter_filter.
  pose proof (Hf h Hh) as HH. clear Hf. destruct (list_elem_of_split _ _ HH) as (l1 & l2 & ->).
  rewrite !filter_app, !length_app, !filter_cons. rewrite decide_False by set_solver. rewrite decide_True by done. cbn.
  assert (X : forall l, (length (filter (fun h => h ∈ cellhdrs /\ h ∉ row_heads r) l) <= length (filter (fun h => h ∈ cellhdrs) l))%nat).
  { clear. induction l as [|h l IH]; [done|]. rewrite !filter_cons. destruct (decide (h ∈ cellhdrs /\ h ∉ row_heads r)) as [[]|].
    - rewrite decide_True by done. cbn. lia.
    - destruct (decide (h ∈ cellhdrs)); cbn; lia. }
  pose proof (X l1). pose proof (X l2). lia.
Qed.

(** ** The search *)

(** The stack holds one node of each row chosen. *)
Definition chosen (st : list Z) (X : list Row) : Prop := Forall2 (fun x r => r ∈ rows /\ x ∈ row_nodes r) st X.

Definition result (s : SudokuSolver) (H : list Z) (X0 : list Row) (o : res (bool * SudokuSolver)) : Prop :=
  (exists X s', o = Ok (true, s') /\ exact X H /\ inout_ s' = writes (X0 ++ X) (inout_ s)) \/
  (o = Ok (false, s) /\ forall X, ~ exact X H).

Lemma writes_ok m st X b : static m -> chosen st X -> zlen b = kCells ->
  res_foldl (write_choice m) b st = Ok (writes X b).
Proof.
  intros S C. revert b. induction C as [|x r st X [Hr Hx] _ IH]; intros b Hb; [done|]. cbn [res_foldl].
  rewrite (write_choice_ok m r x b) by done. cbn [res_bind]. rewrite IH; [done|].
  unfold zlen in *. by rewrite length_insert.
Qed.

Lemma root_left m H : inv m H -> exists n, load root m = Ok n /\ (left n =? root) = bool_decide (H = []).
Proof.
  intros [_ D]. destruct (load_fld _ _ _ _ (proj2 (seg_chain _ _ _ _ _ _ (seg_rev _ _ _ _ _ _ (d_ring _ _ _ _ D))))) as (n & A & _ & En).
  exists n. split; [done|]. rewrite En. destruct H as [|h H]; [by cbn; rewrite Z.eqb_refl|].
  rewrite bool_decide_false by done. apply Z.eqb_neq. destruct (rev (h :: H)) as [|k l] eqn:E.
  - apply (f_equal length) in E. by rewrite length_rev in E.
  - cbn. intros ->. apply root_fresh, (d_heads _ _ _ _ D). apply list_elem_of_In, in_rev. rewrite E. by left.
Qed.

Lemma try_rows_ok depth m1 H c m rest fuel s X0 :
  (forall s' H' X', inv (nodes_ s') H' -> root_ s' = root -> (cells_in H' < depth)%nat -> chosen (stack_ s') X' ->
     zlen (inout_ s') = kCells -> result s' H' X' (solve depth s')) ->
  inv m1 (without [c] H) -> uncover c m1 = Ok m -> chain down m1 rest c -> NoDup H -> c ∈ H ->
  (forall x, x ∈ rest -> x ∈ column H c) -> (length rest <= fuel)%nat -> (cells_in H <= depth)%nat ->
  root_ s = root -> nodes_ s = m1 -> chosen (stack_ s) X0 -> zlen (inout_ s) = kCells ->
  (forall X, exact X H -> exists r x, r ∈ X /\ x ∈ rest /\ (x, c) ∈ slots r) ->
  result (set_nodes m s) H X0 (try_rows (solve depth) fuel c (first_of rest c) s).
Proof.
  intros Hsolve I1 Eu C N Hc Hrest Hf Hd Er En Hst Hb. revert fuel rest C Hrest Hf.
  induction fuel as [|fuel IH]; intros rest C Hrest Hf HX.
  all: destruct rest as [|x rest].
  1, 3: cbn; rewrite Z.eqb_refl, En, Eu; right; split; [done|]; intros X (r & x & _ & Hx & _)%HX; set_solver.
  { cbn in Hf. lia. }
  change (first_of (x :: rest) c) with x. cbn [try_rows].
  assert (Hxc : x ∈ column H c) by (apply Hrest; set_solver).
  apply elem_column in Hxc as (r & Hr & Hfr & Hs). pose proof (in_row_nodes _ _ _ Hs) as Hx.
  destruct (Z.eqb_spec x c) as [->|_].
  { exfalso. apply (node_fresh c); [by eapply in_all_nodes|]. apply elem_of_cons; right. eapply t_heads; [apply T0|done|by eapply in_row_heads]. }
  destruct (choose_row m1 H c r x I1 Hr Hs Hfr) as (m2 & n & n' & A & L & A' & L' & I2).
  cbv zeta. change (nodes_ (set_stack ?st ?s)) with (nodes_ s). rewrite En, A. cbn [res_bind].  rewrite L. cbn [res_bind].
  set (s2 := set_nodes m2 (set_stack (stack_ s ++ [x]) s)).
  destruct (Hsolve s2 (without (row_heads r) H) (X0 ++ [r])) as [(X & s' & E & Hex & Hw)|(E & Hno)]; try done.
  { pose proof (cells_decrease H r Hr Hfr). lia. }
  { apply Forall2_app; [done|]. by repeat constructor. }
  - rewrite E. cbn [res_bind]. left. exists (r :: X), s'. split; [done|]. split; [by apply exact_add|].
    rewrite Hw, <-app_assoc. done.
  - rewrite E. cbn [res_bind]. unfold s2. cbn [stack_ set_nodes set_stack nodes_]. rewrite rev_app_distr. cbn [rev app].
    rewrite rev_involutive, A'. cbn [res_bind].  rewrite L'. cbn [res_bind].
    destruct C as [C1 C2]. destruct (load_fld _ _ _ _ C1) as (k & Ak & _ & Ek). rewrite Ak. cbn [res_bind]. rewrite Ek.
    replace (set_nodes m1 _) with s by (unfold set_nodes, set_stack; cbn; rewrite <-En; by destruct s).
    apply IH; [done|set_solver|cbn in Hf; lia|].
    intros X Hex. destruct (HX X Hex) as (r' & y & Hr' & Hy & Hs'). apply elem_of_cons in Hy as [->|Hy]; [|by exists r', y].
    exfalso. assert (r' = r) as -> by (apply (slot_unique r' r x c c); try done; by apply Hex).
    destruct (exact_split X H r N Hex Hr') as (X' & HX'). by apply (Hno X').
Qed.

Lemma solve_ok depth s H X0 : inv (nodes_ s) H -> root_ s = root -> (cells_in H < depth)%nat -> chosen (stack_ s) X0 ->
  zlen (inout_ s) = kCells -> result s H X0 (solve depth s).
Proof.
  revert s H X0. induction depth as [|depth IH]; intros s H X0 I Er Hd Hst Hb; [lia|].
  cbn [solve]. rewrite Er. destruct (root_left _ _ I) as (n & A & B). rewrite A. cbn [res_bind]. rewrite B.
  case_bool_decide as HH.
  - subst H. rewrite (writes_ok _ _ X0) by (done || apply I). cbn [res_bind]. left. exists [], (set_inout (writes X0 (inout_ s)) s).
    split; [done|]. split; [split; [set_solver|done]|]. by rewrite app_nil_r.
  - destruct (get_min_column_ok _ _ I HH) as (c & -> & Hc). cbn [res_bind].
    destruct (cover_inv _ _ _ I Hc) as (m' & -> & Eu & I' & R). cbn [res_bind].
    destruct (seg_chain _ _ _ _ _ _ R) as [C F]. destruct (load_fld _ _ _ _ F) as (k & -> & _ & Ek). cbn [res_bind]. rewrite Ek.
    replace s with (set_nodes (nodes_ s) (set_nodes m' s)) at 1 by by destruct s.
    apply (try_rows_ok depth m' H c); try done; [apply I|apply rings_small; [apply column_nodup|]; intros x (r & Hr & _ & Hs)%elem_column; apply elem_of_cons; right; apply elem_of_app; right; by eapply in_all_nodes, in_row_nodes|lia|].
    intros X Hex. by apply (exact_covers X H c).
Qed.
End search.
