(* ===== verification/SudokuTable.v ===== *)
(** * The table of a puzzle (examples/sudoku/sudoku.cc: the constructor)

    The constructor allocates the root, then a header for each column that is
    wanted, then four nodes for each choice: the invariant below follows it, and
    at the end says that the table is the one the search expects, within the
    array of [kMaxNodes]. *)

From stdpp Require Import gmap.
From S2P Require Import Prelude Sudoku SudokuLinks SudokuSearch.

#[local] Opaque turns.

Fixpoint position (n : Z) (l : list Z) : Z :=
  match l with [] => 0 | x :: l => if x =? n then 0 else 1 + position n l end.

(** Headers are allocated in order, after the root. *)
Definition addr (names : list Z) (n : Z) : Z := 1 + position n names.

Definition choice_names (i v : Z) : list Z :=
  [i; get_row_col (row_of i) v; get_col_col (col_of i) v; get_box_col (box_of i) v].

(** The row of a choice whose first node is [p]. *)
Definition choice_row (names : list Z) (p : Z) (o : Z * Z) : Row :=
  mkRow o.1 o.2 (zip [p; p + 1; p + 2; p + 3] (map (addr names) (choice_names o.1 o.2))).

Fixpoint choice_rows (names : list Z) (p : Z) (opts : list (Z * Z)) : list Row :=
  match opts with
  | [] => []
  | o :: opts => choice_row names p o :: choice_rows names (p + 4) opts
  end.

Definition hdrs (names : list Z) : list Z := seqZ 1 (zlen names).

(** After the columns [names]. *)
Record headers (b names : list Z) (s : SudokuSolver) : Prop := mkHeaders {
  h_root : root_ s = 0;
  h_stack : stack_ s = [];
  h_inout : inout_ s = b;
  h_cur : cur_node_ s = 1 + zlen names;
  h_columns n : columns_ s !! n = if decide (n ∈ names) then Some (addr names n) else None;
  h_ring : seg right left (nodes_ s) 0 (hdrs names) 0;
  h_col h : h ∈ hdrs names -> seg down up (nodes_ s) h [] h /\ fld size (nodes_ s) h = Some 0;
}.

(** The columns as rings of nodes below [p]. *)
Record rings (m : mem) (T : list Z) (V : Z -> list Z) (p : Z) : Prop := mkRings {
  r_ring h : h ∈ T -> seg down up m h (V h) h /\ fld size m h = Some (zlen (V h));
  r_nodup h : h ∈ T -> NoDup (h :: V h);
  r_below h u : h ∈ T -> u ∈ h :: V h -> u < p;
  r_disjoint h k u : h ∈ T -> k ∈ T -> u ∈ h :: V h -> u ∈ k :: V k -> h = k;
}.

Definition entries (rows : list Row) (h : Z) : list Z := concat (map (slot_nodes h) rows).

Definition good_choice (names : list Z) (o : Z * Z) : Prop :=
  0 <= o.1 < kCells /\ 1 <= o.2 <= 9 /\ forall n, n ∈ choice_names o.1 o.2 -> n ∈ names.

(** After the choices [opts] too. *)
Record built (b names : list Z) (opts : list (Z * Z)) (s : SudokuSolver) : Prop := mkBuilt {
  b_root : root_ s = 0;
  b_stack : stack_ s = [];
  b_inout : inout_ s = b;
  b_cur : cur_node_ s = 1 + zlen names + 4 * zlen opts;
  b_columns n : columns_ s !! n = if decide (n ∈ names) then Some (addr names n) else None;
  b_ring : seg right left (nodes_ s) 0 (hdrs names) 0;
  b_rings : rings (nodes_ s) (hdrs names) (entries (choice_rows names (1 + zlen names) opts)) (cur_node_ s);
  b_static : static (choice_rows names (1 + zlen names) opts) (nodes_ s);
}.

(** ** Addresses *)

Lemma position_bound n l : 0 <= position n l <= zlen l /\ (n ∈ l -> position n l < zlen l).
Proof.
  induction l as [|x l [IH1 IH2]]; cbn [position]; [split; [done|set_solver]|]. rewrite zlen_cons.
  destruct (Z.eqb_spec x n) as [->|Hn]; [split; intros; pose proof (zlen_nonneg l); lia|]. split; [lia|].
  intros [->|H]%elem_of_cons; [done|]. apply IH2 in H. lia.
Qed.

Lemma position_app n l k : position n (l ++ k) = if decide (n ∈ l) then position n l else zlen l + position n k.
Proof.
  induction l as [|x l IH]; [by rewrite decide_False by set_solver|]. cbn [position app]. rewrite zlen_cons, IH.
  destruct (Z.eqb_spec x n) as [->|Hn]; [by rewrite decide_True by set_solver|].
  destruct (decide (n ∈ l)); [by rewrite decide_True by set_solver|]. rewrite decide_False by set_solver. lia.
Qed.

Lemma position_inj l a b : a ∈ l -> b ∈ l -> position a l = position b l -> a = b.
Proof.
  induction l as [|x l IH]; [set_solver|]. cbn [position]. intros Ha Hb E.
  destruct (Z.eqb_spec x a) as [Ea|Ha'], (Z.eqb_spec x b) as [Eb|Hb']; try congruence.
  - pose proof (position_bound b l). lia.
  - pose proof (position_bound a l). lia.
  - apply IH; [set_solver|set_solver|lia].
Qed.

Lemma addr_hdrs names n : n ∈ names -> addr names n ∈ hdrs names.
Proof. intros H. apply elem_of_seqZ. unfold addr. destruct (position_bound n names) as [B1 B2]. apply B2 in H. lia. Qed.

Lemma addr_app names n x : n ∉ names ->
  (if decide (x ∈ names ++ [n]) then Some (addr (names ++ [n]) x) else None) =
  if decide (x = n) then Some (1 + zlen names) else if decide (x ∈ names) then Some (addr names x) else None.
Proof.
  intros Hn. unfold addr. rewrite position_app. destruct (decide (x = n)) as [->|Hx].
  - rewrite decide_True by set_solver. rewrite decide_False by done. cbn. rewrite Z.eqb_refl. do 2 f_equal. lia.
  - destruct (decide (x ∈ names)); [by rewrite decide_True by set_solver|]. by rewrite decide_False by set_solver.
Qed.

Lemma hdrs_snoc names n : hdrs (names ++ [n]) = hdrs names ++ [1 + zlen names].
Proof.
  unfold hdrs. rewrite zlen_app. change (zlen [n]) with 1. pose proof (zlen_nonneg names).
  rewrite seqZ_app by lia. f_equal.
Qed.

(** ** Columns *)

Lemma append_column_ok b names s n : headers b names s -> n ∉ names -> 0 <= n < 400 -> 1 + zlen names < kMaxNodes ->
  exists s', append_column n s = Ok s' /\ headers b (names ++ [n]) s'.
Proof.
  intros [H1 H2 H3 H4 H5 H6 H7] Hn B Hk. unfold append_column, column_at. rewrite (proj2 (Z.leb_le _ _)), (proj2 (Z.ltb_lt _ _)) by lia.
  cbn [andb res_bind]. rewrite H5, decide_False by done. cbn [assert_ res_bind]. unfold new_column. rewrite H4.
  rewrite (proj2 (Z.ltb_lt _ _)) by lia. cbn [assert_ res_bind nodes_ root_ columns_ inout_ stack_ cur_node_]. rewrite H1.
  set (p := 1 + zlen names). set (m0 := <[p := self_linked p p n]> (nodes_ s)).
  pose proof (zlen_nonneg names).
  assert (Hp : p ∉ 0 :: hdrs names). { unfold hdrs. intros [|X]%elem_of_cons; [lia|]. apply elem_of_seqZ in X. lia. }
  assert (R0 : seg right left m0 0 (hdrs names) 0).
  { eapply seg_frame; [done| |]; intros u Hu; apply fld_insert_ne; intros ->; apply Hp; set_solver. }
  destruct (put_left_ok m0 0 (hdrs names) p R0) as (m' & -> & R & F1 & F2).
  { apply NoDup_cons. split; [|apply NoDup_seqZ]. unfold hdrs. rewrite elem_of_seqZ. lia. }
  { done. }
  { unfold m0. rewrite lookup_insert_eq. done. }
  cbn [res_bind]. eexists. split; [done|]. split; cbn [root_ stack_ inout_ cur_node_ columns_ nodes_]; try done.
  - rewrite zlen_app. change (zlen [n]) with 1. lia.
  - intros x. rewrite addr_app by done. destruct (decide (x = n)) as [->|Hx]; [by rewrite lookup_insert_eq|].
    rewrite lookup_insert_ne by done. apply H5.
  - rewrite hdrs_snoc. done.
  - intros h Hh. rewrite hdrs_snoc in Hh. rewrite (F1 size) by auto. apply elem_of_app in Hh as [Hh| ->%list_elem_of_singleton].
    + destruct (H7 h Hh) as [Sh Zh]. assert (h <> p) by (intros ->; apply Hp; set_solver). split.
      * eapply seg_frame; [done| |]; intros u ->%list_elem_of_singleton; rewrite F1 by auto; by apply fld_insert_ne.
      * unfold m0. by rewrite fld_insert_ne.
    + fold p. split; [|unfold m0; by rewrite fld_insert_eq].
      constructor; [|constructor]. split; rewrite F1 by auto; unfold m0; by rewrite fld_insert_eq.
Qed.

Lemma new_solver_headers b : exists s, headers b [] s /\
  (let* (root, s) := new_column 0 (mkSolver 0 b ∅ [] ∅ 0) in
   Ok (mkSolver root (inout_ s) (columns_ s) (stack_ s) (nodes_ s) (cur_node_ s))) = Ok s.
Proof.
  eexists. split; [|reflexivity]. split; try done; cbn.
  - constructor; [|constructor]. split; by rewrite fld_insert_eq.
  - intros h Hh. apply elem_of_seqZ in Hh. change (zlen []) with 0 in Hh. lia.
Qed.

(** ** Choices *)

(** The fields a later allocation leaves alone, at the nodes of [L]. *)
Definition keeps (L : Z -> Prop) (m m' : mem) : Prop :=
  forall f, f = right \/ f = left \/ f = col \/ f = name -> forall u, L u -> fld f m' u = fld f m u.

(** A node linked to nothing in its row yet. *)
Definition lone (m : mem) (p h n : Z) : Prop :=
  fld right m p = Some p /\ fld left m p = Some p /\ fld col m p = Some h /\ fld name m p = Some n.

Lemma keeps_lone L m m' p h n : keeps L m m' -> L p -> lone m p h n -> lone m' p h n.
Proof. intros K Hp (E1 & E2 & E3 & E4). split_and!; rewrite K; auto. Qed.

Lemma rings_insert m T V p h n : rings m T V p -> h ∈ T ->
  exists m', put_up h p (<[p := self_linked p h n]> m) = Ok m' /\
    rings m' T (fun k => V k ++ if decide (k = h) then [p] else []) (p + 1) /\
    keeps (fun u => u <> p) m m' /\ lone m' p h n.
Proof.
  intros [R1 R2 R3 R4] Hh. destruct (R1 h Hh) as [S Z].
  assert (F : forall k, k ∈ T -> p ∉ k :: V k) by (intros k Hk Hp; pose proof (R3 k p Hk Hp); lia).
  destruct (put_up_ok m h (V h) p _ n S (R2 h Hh) (F h Hh) Z) as (m' & E & S' & Z' & F1 & F2 & L1 & L2 & L3 & L4 & _).
  exists m'. split_and!; try done.
  assert (X : forall k u, k ∈ T -> u ∈ k :: V k ++ (if decide (k = h) then [p] else []) -> u ∈ k :: V k \/ k = h /\ u = p).
  { intros k u Hk Hu. destruct (decide (k = h)); set_solver. }
  split.
  - intros k Hk. destruct (decide (k = h)) as [->|Hkh].
    + split; [done|]. rewrite Z', zlen_app. done.
    + rewrite app_nil_r. destruct (R1 k Hk) as [Sk Zk].
      assert (Y : forall u, u ∈ k :: V k -> u ∉ p :: h :: V h).
      { intros u Hu [->|Hu']%elem_of_cons; [by apply (F k)|]. apply Hkh. by apply (R4 k h u). }
      split; [|rewrite F2; [done|auto|apply Y; set_solver]].
      eapply seg_frame; [done| |]; intros u Hu; (apply F2; [auto|apply Y; set_solver]).
  - intros k Hk. pose proof (R2 k Hk) as N. destruct (decide (k = h)) as [->|]; [|by rewrite app_nil_r].
    change (h :: V h ++ [p]) with ((h :: V h) ++ [p]). apply NoDup_app. split_and!; [done| |repeat constructor; set_solver].
    intros u Hu ->%list_elem_of_singleton. by apply (F h).
  - intros k u Hk [Hu|[_ ->]]%X; [|lia|done]. pose proof (R3 k u Hk Hu). lia.
  - intros k1 k2 u H1 H2 [Hu1|[-> ->]]%X [Hu2|[-> E2]]%X; try done; [by apply (R4 k1 k2 u)| |]; exfalso; subst.
    + by apply (F k1).
    + by apply (F k2).
Qed.

Lemma rings_frame m m' T V p : rings m T V p ->
  (forall f, f = up \/ f = down \/ f = size -> forall u, fld f m' u = fld f m u) -> rings m' T V p.
Proof.
  intros [R1 R2 R3 R4] F. split; try done. intros h Hh. destruct (R1 h Hh) as [S Z]. rewrite F by auto. split; [|done].
  eapply seg_frame; [done| |]; intros; apply F; auto.
Qed.

Lemma new_row_ok names V s n : rings (nodes_ s) (hdrs names) V (cur_node_ s) ->
  (forall n, columns_ s !! n = if decide (n ∈ names) then Some (addr names n) else None) ->
  n ∈ names -> 0 <= n < 400 -> cur_node_ s < kMaxNodes ->
  exists m', new_row n s = Ok (cur_node_ s, mkSolver (root_ s) (inout_ s) (columns_ s) (stack_ s) m' (cur_node_ s + 1)) /\
    rings m' (hdrs names) (fun k => V k ++ if decide (k = addr names n) then [cur_node_ s] else []) (cur_node_ s + 1) /\
    keeps (fun u => u <> cur_node_ s) (nodes_ s) m' /\ lone m' (cur_node_ s) (addr names n) n.
Proof.
  intros R C Hn B Hk. destruct (rings_insert _ _ _ _ _ n R (addr_hdrs names n Hn)) as (m' & E & R' & K & L).
  exists m'. split_and!; try done. unfold new_row, column_at.
  rewrite (proj2 (Z.leb_le _ _)), (proj2 (Z.ltb_lt _ _)) by lia. cbn [andb res_bind]. rewrite C, decide_True by done.
  rewrite (proj2 (Z.ltb_lt _ _)) by lia. cbn [assert_ res_bind]. by rewrite E.
Qed.

Ltac not_in := let X := fresh in intros X; repeat (apply elem_of_cons in X as [X|X]; [lia|]); by apply elem_of_nil in X.

(** Three nodes put to the left of the first close the row. *)
Lemma link_row m p h0 h1 h2 h3 n0 n1 n2 n3 : lone m p h0 n0 -> lone m (p + 1) h1 n1 -> lone m (p + 2) h2 n2 -> lone m (p + 3) h3 n3 ->
  exists m1 m2 m', put_left p (p + 1) m = Ok m1 /\ put_left p (p + 2) m1 = Ok m2 /\ put_left p (p + 3) m2 = Ok m' /\
    seg right left m' p [p + 1; p + 2; p + 3] p /\ keeps (fun u => u < p) m m' /\
    (forall f, f = up \/ f = down \/ f = col \/ f = name \/ f = size -> forall u, fld f m' u = fld f m u).
Proof.
  intros (A1 & A2 & _) (B1 & _) (C1 & _) (D1 & _).
  assert (S0 : seg right left m p [] p) by (constructor; [done|constructor]).
  destruct (put_left_ok m p [] (p + 1) S0) as (m1 & E1 & S1 & F1 & G1); [repeat constructor; not_in|not_in|by eapply fld_is_Some|].
  assert (X : forall u, is_Some (m !! u) -> is_Some (m1 !! u)).
  { intros u [x Hx]. apply (fld_is_Some size m1 u (size x)). rewrite F1 by auto 6. unfold fld. by rewrite Hx. }
  destruct (put_left_ok m1 p [p + 1] (p + 2) S1) as (m2 & E2 & S2 & F2 & G2);
    [repeat constructor; not_in|not_in|eapply X, fld_is_Some; done|].
  assert (X2 : forall u, is_Some (m1 !! u) -> is_Some (m2 !! u)).
  { intros u [x Hx]. apply (fld_is_Some size m2 u (size x)). rewrite F2 by auto 6. unfold fld. by rewrite Hx. }
  destruct (put_left_ok m2 p [p + 1; p + 2] (p + 3) S2) as (m' & E3 & S3 & F3 & G3);
    [repeat constructor; not_in|not_in|eapply X2, X, fld_is_Some; done|].
  exists m1, m2, m'. split_and!; try done.
  - intros f Hf u Hu. assert (Hn : u ∉ [p + 3; p; p + 1; p + 2]) by not_in.
    destruct Hf as [-> | [-> | Hf]].
    + rewrite G3, G2, G1; set_solver.
    + rewrite G3, G2, G1; set_solver.
    + rewrite F3, F2, F1; tauto.
  - intros f Hf u. rewrite F3, F2, F1 by done. done.
Qed.

(** ** The rows of the table *)

Lemma choice_rows_snoc names p opts o :
  choice_rows names p (opts ++ [o]) = choice_rows names p opts ++ [choice_row names (p + 4 * zlen opts) o].
Proof.
  revert p. induction opts as [|o' opts IH]; intros p; cbn [choice_rows app]; [do 2 f_equal; unfold zlen; cbn; lia|].
  rewrite IH, zlen_cons. do 4 f_equal. lia.
Qed.

Lemma row_nodes_choice names p o : row_nodes (choice_row names p o) = [p; p + 1; p + 2; p + 3].
Proof. done. Qed.

Lemma row_heads_choice names p o : row_heads (choice_row names p o) = map (addr names) (choice_names o.1 o.2).
Proof. done. Qed.

Lemma all_nodes_choice names p opts : all_nodes (choice_rows names p opts) = seqZ p (4 * zlen opts).
Proof.
  revert p. induction opts as [|o opts IH]; intros p; [done|]. unfold all_nodes in *. cbn [choice_rows map concat].
  rewrite IH, row_nodes_choice, zlen_cons. pose proof (zlen_nonneg opts).
  replace (4 * (1 + zlen opts)) with (4 + 4 * zlen opts) by lia. rewrite seqZ_app by lia. f_equal.
  unfold seqZ. change (seq 0 (Z.to_nat 4)) with [0; 1; 2; 3]%nat. cbn [fmap list_fmap]. repeat apply (f_equal2 cons); lia || done.
Qed.

Lemma elem_choice_rows names p opts r : r ∈ choice_rows names p opts -> exists q o, o ∈ opts /\ r = choice_row names q o.
Proof.
  revert p. induction opts as [|o opts IH]; intros p; cbn [choice_rows]; [set_solver|].
  intros [->|Hr]%elem_of_cons; [exists p, o; set_solver|]. destruct (IH _ Hr) as (q & o' & Ho & ->). exists q, o'. set_solver.
Qed.

Lemma choice_row_exists names p opts o : o ∈ opts -> exists q, choice_row names q o ∈ choice_rows names p opts.
Proof.
  revert p. induction opts as [|o' opts IH]; intros p; cbn [choice_rows]; [set_solver|].
  intros [->|Ho]%elem_of_cons; [exists p; set_solver|]. destruct (IH (p + 4) Ho) as (q & Hq). exists q. set_solver.
Qed.

Lemma static_snoc rows r m : static rows m -> static [r] m -> static (rows ++ [r]) m.
Proof.
  intros [A1 A2 A3 A4] [B1 B2 B3 B4]. split.
  - intros r' r1 x r2 [?|?]%elem_of_app; eauto.
  - intros r' x h [?|?]%elem_of_app; eauto.
  - intros r' x [?|?]%elem_of_app; eauto.
  - intros r' [?|?]%elem_of_app; eauto.
Qed.

Lemma cell_units i : 0 <= i < kCells -> 0 <= row_of i < 9 /\ 0 <= col_of i < 9 /\ 0 <= box_of i < 9.
Proof. unfold kCells, box_of, row_of, col_of. intros H. Z.to_euclidean_division_equations; lia. Qed.

Lemma choice_names_bound i v n : 0 <= i < kCells -> 1 <= v <= 9 -> n ∈ choice_names i v -> 0 <= n < 400.
Proof.
  intros Hi Hv. destruct (cell_units i Hi) as (B1 & B2 & B3). unfold choice_names, get_row_col, get_col_col, get_box_col, kRow, kCol, kBox, kCells in *.
  rewrite !elem_of_cons, elem_of_nil. lia.
Qed.

Lemma static_choice names p o m : good_choice names o -> seg right left m p [p + 1; p + 2; p + 3] p ->
  (forall x h, (x, h) ∈ slots (choice_row names p o) -> fld col m x = Some h) ->
  fld name m p = Some o.1 -> fld name m (p + 1) = Some (get_row_col (row_of o.1) o.2) ->
  fld name m (p + 2) = Some (get_col_col (col_of o.1) o.2) -> fld name m (p + 3) = Some (get_box_col (box_of o.1) o.2) ->
  static [choice_row names p o] m.
Proof.
  intros (Bi & Bv & _) S C N0 N1 N2 N3. destruct (cell_units _ Bi) as (B1 & B2 & B3).
  assert (D : forall u, 0 <= u < 9 -> Z.rem (100 + u * 10 + o.2) 10 = o.2 /\
    Z.rem (200 + u * 10 + o.2) 10 = o.2 /\ Z.rem (300 + u * 10 + o.2) 10 = o.2).
  { intros u Hu. split_and!; Z.to_euclidean_division_equations; lia. }
  split.
  - intros r r1 x r2 ->%list_elem_of_singleton E. rewrite row_nodes_choice in E. by eapply ring_rotate.
  - intros r x h ->%list_elem_of_singleton. apply C.
  - intros r x ->%list_elem_of_singleton Hx. rewrite row_nodes_choice in Hx. cbn [cell val choice_row].
    unfold kCells, get_row_col, get_col_col, get_box_col, kRow, kCol, kBox in *.
    apply elem_of_cons in Hx as [->|Hx]; [eexists; split; [done|left; lia]|].
    apply elem_of_cons in Hx as [->|Hx]; [eexists; split; [done|right; split; [lia|by apply D]]|].
    apply elem_of_cons in Hx as [->|Hx]; [eexists; split; [done|right; split; [lia|by apply D]]|].
    apply list_elem_of_singleton in Hx as ->. eexists; split; [done|right; split; [lia|by apply D]].
  - intros r ->%list_elem_of_singleton. rewrite row_nodes_choice. cbn [cell choice_row]. split.
    + exists p. split; [set_solver|]. split; [done|]. unfold kCells in *. lia.
    + exists (p + 1), (get_row_col (row_of o.1) o.2). split; [set_solver|]. split; [done|]. unfold get_row_col, kRow. lia.
Qed.

Lemma entries_snoc rows r h : entries (rows ++ [r]) h = entries rows h ++ slot_nodes h r.
Proof. unfold entries. rewrite map_app, concat_app. cbn. by rewrite app_nil_r. Qed.

Lemma slot_nodes_choice names p o k : slot_nodes k (choice_row names p o) =
  (if decide (k = addr names o.1) then [p] else []) ++
  (if decide (k = addr names (get_row_col (row_of o.1) o.2)) then [p + 1] else []) ++
  (if decide (k = addr names (get_col_col (col_of o.1) o.2)) then [p + 2] else []) ++
  (if decide (k = addr names (get_box_col (box_of o.1) o.2)) then [p + 3] else []).
Proof.
  unfold slot_nodes, choice_row. cbn [slots choice_names map zip]. cbn [zip_with].
  assert (D : forall (x h : Z) l, map fst (filter (fun p => p.2 = k) ((x, h) :: l)) =
            (if decide (k = h) then [x] else []) ++ map fst (filter (fun p => p.2 = k) l)).
  { intros x h l. rewrite filter_cons. cbn. by destruct (decide (h = k)) as [->|], (decide (k = _)). }
  rewrite !D. cbn. by rewrite app_nil_r.
Qed.

Lemma add_choice_ok b names opts s o : built b names opts s -> good_choice names o -> cur_node_ s + 4 <= kMaxNodes ->
  exists s', add_choice o.1 o.2 s = Ok s' /\ built b names (opts ++ [o]) s'.
Proof.
  intros [H1 H2 H3 H4 H5 H6 H7 H8] G Hk. pose proof G as (Bi & Bv & Hn).
  assert (Hc : forall n, n ∈ choice_names o.1 o.2 -> n ∈ names /\ 0 <= n < 400).
  { intros n X. split; [by apply Hn|by eapply choice_names_bound]. }
  destruct s as [rt io cs st m p]. cbn [root_ inout_ columns_ stack_ nodes_ cur_node_] in *.
  destruct (Hc o.1) as [I0 J0]; [set_solver|]. destruct (Hc (get_row_col (row_of o.1) o.2)) as [I1 J1]; [set_solver|].
  destruct (Hc (get_col_col (col_of o.1) o.2)) as [I2 J2]; [set_solver|]. destruct (Hc (get_box_col (box_of o.1) o.2)) as [I3 J3]; [set_solver|].
  destruct (new_row_ok names _ (mkSolver rt io cs st m p) o.1 H7 H5 I0 J0) as (m1 & E1 & R1 & K1 & L1); [cbn; lia|].
  cbn [root_ inout_ columns_ stack_ nodes_ cur_node_] in *.
  destruct (new_row_ok names _ (mkSolver rt io cs st m1 (p + 1)) (get_row_col (row_of o.1) o.2) R1 H5 I1 J1) as (m2 & E2 & R2 & K2 & L2); [cbn; lia|].
  cbn [root_ inout_ columns_ stack_ nodes_ cur_node_] in *. replace (p + 1 + 1) with (p + 2) in * by lia.
  destruct (new_row_ok names _ (mkSolver rt io cs st m2 (p + 2)) (get_col_col (col_of o.1) o.2) R2 H5 I2 J2) as (m3 & E3 & R3 & K3 & L3); [cbn; lia|].
  cbn [root_ inout_ columns_ stack_ nodes_ cur_node_] in *. replace (p + 2 + 1) with (p + 3) in * by lia.
  destruct (new_row_ok names _ (mkSolver rt io cs st m3 (p + 3)) (get_box_col (box_of o.1) o.2) R3 H5 I3 J3) as (m4 & E4 & R4 & K4 & L4); [cbn; lia|].
  cbn [root_ inout_ columns_ stack_ nodes_ cur_node_] in *. replace (p + 3 + 1) with (p + 4) in * by lia.
  assert (L1' : lone m4 p _ _) by (apply (keeps_lone _ _ _ p _ _ K4); [lia|]; apply (keeps_lone _ _ _ p _ _ K3); [lia|];
    apply (keeps_lone _ _ _ p _ _ K2); [lia|]; exact L1).
  assert (L2' : lone m4 (p + 1) _ _) by (apply (keeps_lone _ _ _ (p + 1) _ _ K4); [lia|];
    apply (keeps_lone _ _ _ (p + 1) _ _ K3); [lia|]; exact L2).
  assert (L3' : lone m4 (p + 2) _ _) by (apply (keeps_lone _ _ _ (p + 2) _ _ K4); [lia|]; exact L3).
  destruct (link_row m4 p _ _ _ _ _ _ _ _ L1' L2' L3' L4) as (m5 & m6 & m7 & E5 & E6 & E7 & S & K7 & F7).
  assert (K : keeps (fun u => u < p) m m7).
  { intros f Hf u Hu. by rewrite (K7 f Hf), (K4 f Hf), (K3 f Hf), (K2 f Hf), (K1 f Hf) by lia. }
  eexists. split.
  - unfold add_choice. rewrite E1. cbn [res_bind]. rewrite E2. cbn [res_bind]. rewrite E3. cbn [res_bind]. rewrite E4. cbn [res_bind nodes_].
    rewrite E5. cbn [res_bind]. rewrite E6. cbn [res_bind]. rewrite E7. cbn [res_bind]. reflexivity.
  - assert (Hp : p = 1 + zlen names + 4 * zlen opts) by done. pose proof (zlen_nonneg opts). pose proof (zlen_nonneg names).
    split; cbn [set_nodes root_ inout_ columns_ stack_ nodes_ cur_node_]; try done.
    + rewrite zlen_app. change (zlen [o]) with 1. lia.
    + eapply seg_frame; [exact H6| |]; intros u Hu; (apply K; [auto|]); unfold hdrs in Hu.
      * apply elem_of_cons in Hu as [->|Hu]; [lia|]. apply elem_of_seqZ in Hu. lia.
      * apply elem_of_app in Hu as [Hu| ->%list_elem_of_singleton]; [apply elem_of_seqZ in Hu; lia|lia].
    + rewrite choice_rows_snoc, <-Hp. apply (rings_frame m4); [|by intros f Hf u; apply F7; tauto].
      destruct R4 as [Q1 Q2 Q3 Q4].
      assert (W : forall k, entries (choice_rows names (1 + zlen names) opts ++ [choice_row names p o]) k =
                (((entries (choice_rows names (1 + zlen names) opts) k ++ (if decide (k = addr names o.1) then [p] else [])) ++
                (if decide (k = addr names (get_row_col (row_of o.1) o.2)) then [p + 1] else [])) ++
                (if decide (k = addr names (get_col_col (col_of o.1) o.2)) then [p + 2] else [])) ++
                (if decide (k = addr names (get_box_col (box_of o.1) o.2)) then [p + 3] else [])).
      { intros k. by rewrite entries_snoc, slot_nodes_choice, <-!app_assoc. }
      split; intros *; rewrite !W; [apply Q1|apply Q2|apply Q3|apply Q4].
    + rewrite choice_rows_snoc, <-Hp. apply static_snoc.
      * eapply static_frame; [exact H8|]. intros f Hf x Hx. apply K; [done|]. rewrite all_nodes_choice in Hx. apply elem_of_seqZ in Hx. lia.
      * destruct L1' as (_ & _ & C1 & N1), L2' as (_ & _ & C2 & N2), L3' as (_ & _ & C3 & N3), L4 as (_ & _ & C4 & N4).
        apply static_choice; try done; rewrite ?F7 by auto; try done.
        intros x h Hx. rewrite F7 by auto. cbn in Hx. rewrite !elem_of_cons, elem_of_nil in Hx.
        destruct Hx as [[= -> ->]|[[= -> ->]|[[= -> ->]|[[= -> ->]|[]]]]]; done.
Qed.
