(* ===== verification/SudokuSolve.v ===== *)
(** * The sudoku solver against its specification (examples/sudoku/sudoku.cc)

    The columns and choices of a puzzle, the table the constructor builds for
    them, and why its exact covers are the solutions of the puzzle: [solveSudoku]
    prints one if there is one, and says so if there is none. *)

From stdpp Require Import gmap.
From S2P Require Import Prelude Sudoku SudokuLinks SudokuSearch SudokuTable.

#[local] Opaque turns.

(** ** What a solution is *)

Definition at_cell (b : list Z) (i : Z) : Z := default 0 (b !! Z.to_nat i).

(** The cells of the [u]-th row, column and box. *)
Definition row_cells (u : Z) : list Z := map (fun j => 9 * u + j) (seqZ 0 9).
Definition col_cells (u : Z) : list Z := map (fun j => 9 * j + u) (seqZ 0 9).
Definition box_cells (u : Z) : list Z := map (fun j => 27 * (u / 3) + 3 * (u mod 3) + 9 * (j / 3) + j mod 3) (seqZ 0 9).

Definition puzzle_board (b : list Z) : Prop := zlen b = kCells /\ Forall (fun v => 0 <= v <= 9) b.

(** [g] fills [b]: it keeps what is not zero, and every row, column and box holds
    the nine digits. *)
Definition solution (b g : list Z) : Prop :=
  zlen g = kCells /\ (forall i, 0 <= i < kCells -> at_cell b i <> 0 -> at_cell g i = at_cell b i) /\
  forall u cells, 0 <= u < 9 -> cells ∈ [row_cells u; col_cells u; box_cells u] ->
    map (at_cell g) cells ≡ₚ seqZ 1 9.

(** ** The three kinds of units, as the code numbers them *)

Inductive kind : Set := KRow | KCol | KBox.

Definition unit_of (k : kind) (i : Z) : Z :=
  match k with KRow => row_of i | KCol => col_of i | KBox => box_of i end.
Definition name_of (k : kind) (u v : Z) : Z :=
  match k with KRow => get_row_col u v | KCol => get_col_col u v | KBox => get_box_col u v end.
Definition marks_of (k : kind) (t : marks) : gset (Z * Z) :=
  match k with KRow => t.1.1 | KCol => t.1.2 | KBox => t.2 end.
Definition unit_cells (k : kind) (u : Z) : list Z := filter (fun i => unit_of k i = u) (seqZ 0 kCells).

Definition clue (b : list Z) (k : kind) (u v : Z) : Prop :=
  exists i, 0 <= i < kCells /\ unit_of k i = u /\ at_cell b i = v.

Definition marks_ok (b : list Z) (t : marks) : Prop :=
  forall k u v, (u, v) ∈ marks_of k t <-> clue b k u v.

(** Every column there can be, in the order of the constructor. *)
Definition value_names (iv : Z * Z) : list Z := [get_row_col iv.1 iv.2; get_col_col iv.1 iv.2; get_box_col iv.1 iv.2].
Definition all_values : list (Z * Z) := List.list_prod (seqZ 0 9) (seqZ 1 9).
Definition all_names : list Z := seqZ 0 kCells ++ concat (map value_names all_values).

Definition wanted (t : marks) (b : list Z) (n : Z) : bool :=
  let u := n mod 100 / 10 in let v := n mod 10 in
  if n <? 100 then at_cell b n =? 0
  else if n <? 200 then negb (marked t.1.1 u v)
  else if n <? 300 then negb (marked t.1.2 u v)
  else negb (marked t.2 u v).

Definition names_of (t : marks) (b : list Z) (l : list Z) : list Z := filter (fun n => wanted t b n = true) l.

(** The choices, in the order of the constructor. *)
Definition cell_choices (t : marks) (b : list Z) (i : Z) : list (Z * Z) :=
  if at_cell b i =? 0 then map (pair i) (filter (fun v => allowed t i v = true) (seqZ 1 9)) else [].
Definition choices (t : marks) (b : list Z) : list (Z * Z) := concat (map (cell_choices t b) (seqZ 0 kCells)).

(** How many cells are to be filled. *)
Definition empty_cells (b : list Z) : nat := length (filter (fun i => at_cell b i = 0) (seqZ 0 kCells)).

(** What [solveSudoku] prints. *)
Definition print_board (g : list Z) : bytes := map (fun v => Z_byte (v + 48)) g.

(** ** Numbers *)

Lemma unit_bound k i : 0 <= i < kCells -> 0 <= unit_of k i < 9.
Proof. intros H. destruct (cell_units i H) as (? & ? & ?). by destruct k. Qed.

Lemma name_bound k u v : 0 <= u < 9 -> 1 <= v <= 9 -> 100 < name_of k u v < 400.
Proof. destruct k; cbn; unfold get_row_col, get_col_col, get_box_col, kRow, kCol, kBox; lia. Qed.

Lemma name_inj k k' u u' v v' : 0 <= u < 9 -> 0 <= u' < 9 -> 1 <= v <= 9 -> 1 <= v' <= 9 ->
  name_of k u v = name_of k' u' v' -> k = k' /\ u = u' /\ v = v'.
Proof.
  destruct k, k'; cbn; unfold get_row_col, get_col_col, get_box_col, kRow, kCol, kBox; intros; split; try lia; done.
Qed.

Lemma wanted_cell t b i : 0 <= i < kCells -> wanted t b i = (at_cell b i =? 0).
Proof. intros H. unfold wanted. unfold kCells in H. by rewrite (proj2 (Z.ltb_lt _ _)) by lia. Qed.

Lemma wanted_name t b k u v : 0 <= u < 9 -> 1 <= v <= 9 -> wanted t b (name_of k u v) = negb (marked (marks_of k t) u v).
Proof.
  intros Hu Hv. unfold wanted.
  assert (E : name_of k u v mod 100 / 10 = u /\ name_of k u v mod 10 = v).
  { destruct k; cbn; unfold get_row_col, get_col_col, get_box_col, kRow, kCol, kBox; split; Z.to_euclidean_division_equations; lia. }
  destruct E as [-> ->]. pose proof (name_bound k u v Hu Hv).
  destruct k; cbn in *; unfold get_row_col, get_col_col, get_box_col, kRow, kCol, kBox in *;
    repeat (first [rewrite (proj2 (Z.ltb_lt _ _)) by lia|rewrite (proj2 (Z.ltb_ge _ _)) by lia]); done.
Qed.

Lemma cell_at_ok b i : zlen b = kCells -> 0 <= i < kCells -> cell_at i b = Ok (at_cell b i).
Proof.
  intros Hb Hi. unfold cell_at, at_cell. rewrite (proj2 (Z.ltb_ge _ _)) by lia.
  destruct (b !! Z.to_nat i) eqn:E; [done|]. apply lookup_ge_None in E. unfold zlen in *. lia.
Qed.

Lemma at_cell_bound b i : puzzle_board b -> 0 <= i < kCells -> 0 <= at_cell b i <= 9.
Proof.
  intros [Hb Hv] Hi. unfold at_cell. destruct (b !! Z.to_nat i) as [v|] eqn:E; [|cbn; lia].
  rewrite Forall_forall in Hv. apply Hv. by eapply list_elem_of_lookup_2.
Qed.

Lemma all_names_nodup : NoDup all_names.
Proof. apply (bool_decide_eq_true_1 (NoDup all_names)). by vm_compute. Qed.

Lemma elem_all_values u v : (u, v) ∈ all_values <-> 0 <= u < 9 /\ 1 <= v <= 9.
Proof. unfold all_values. rewrite list_elem_of_In, in_prod_iff, <-!list_elem_of_In, !elem_of_seqZ. lia. Qed.

Lemma elem_all_names n : n ∈ all_names <->
  0 <= n < kCells \/ exists k u v, 0 <= u < 9 /\ 1 <= v <= 9 /\ n = name_of k u v.
Proof.
  unfold all_names. rewrite elem_of_app, elem_of_seqZ. apply or_iff_compat_l.
  rewrite list_elem_of_In, in_concat. split.
  - intros (l & Hl & Hn). apply in_map_iff in Hl as ([u v] & <- & [Hu Hv]%list_elem_of_In%elem_all_values).
    apply list_elem_of_In in Hn. unfold value_names in Hn. cbn in Hn. rewrite !elem_of_cons, elem_of_nil in Hn.
    destruct Hn as [->|[->|[->|[]]]]; [exists KRow|exists KCol|exists KBox]; by exists u, v.
  - intros (k & u & v & Hu & Hv & ->). exists (value_names (u, v)). split.
    + apply in_map, list_elem_of_In, elem_all_values. done.
    + apply list_elem_of_In. unfold value_names. destruct k; set_solver.
Qed.

Lemma all_names_bound n : n ∈ all_names -> 0 <= n < 400.
Proof.
  intros [H|(k & u & v & Hu & Hv & ->)]%elem_all_names; [unfold kCells in H; lia|]. pose proof (name_bound k u v Hu Hv). lia.
Qed.

Lemma all_names_length : zlen all_names = 324.
Proof. vm_compute. done. Qed.

Lemma unit_cells_spec u : 0 <= u < 9 ->
  unit_cells KRow u = row_cells u /\ unit_cells KCol u = col_cells u /\ unit_cells KBox u = box_cells u.
Proof.
  intros Hu. assert (A : forallb (fun u => bool_decide (unit_cells KRow u = row_cells u /\ unit_cells KCol u = col_cells u /\
    unit_cells KBox u = box_cells u)) (seqZ 0 9) = true) by by vm_compute.
  rewrite forallb_forall in A. apply (bool_decide_eq_true_1 _), A, list_elem_of_In, elem_of_seqZ. lia.
Qed.

(** ** The marks *)

Lemma mark_ok u v t : 0 <= u < 9 -> 0 <= v <= 9 -> mark u v t = Ok ({[(u, v)]} ∪ t).
Proof.
  intros Hu Hv. unfold mark, kCells.
  by rewrite !(proj2 (Z.leb_le _ _)), (proj2 (Z.ltb_lt u _)), (proj2 (Z.ltb_lt v _)) by lia.
Qed.

Lemma mark_cell_ok b i rows cols boxes : puzzle_board b -> 0 <= i < kCells ->
  mark_cell b (rows, cols, boxes) i =
    Ok ({[(row_of i, at_cell b i)]} ∪ rows, {[(col_of i, at_cell b i)]} ∪ cols, {[(box_of i, at_cell b i)]} ∪ boxes).
Proof.
  intros Hb Hi. unfold mark_cell. rewrite cell_at_ok by (done || apply Hb). cbn [res_bind].
  destruct (cell_units i Hi) as (B1 & B2 & B3). pose proof (at_cell_bound b i Hb Hi). by rewrite !mark_ok by done.
Qed.

Lemma mark_cells_ok b l t : puzzle_board b -> (forall i, i ∈ l -> 0 <= i < kCells) ->
  exists t', res_foldl (mark_cell b) t l = Ok t' /\
    forall k u v, (u, v) ∈ marks_of k t' <-> (u, v) ∈ marks_of k t \/ exists i, i ∈ l /\ unit_of k i = u /\ at_cell b i = v.
Proof.
  intros Hb. revert t. induction l as [|i l IH]; intros t Hl; [exists t; set_solver|]. cbn [res_foldl].
  assert (Hi : 0 <= i < kCells) by (apply Hl; set_solver). destruct t as [[rows cols] boxes]. rewrite mark_cell_ok by done. cbn [res_bind].
  destruct (IH ({[(row_of i, at_cell b i)]} ∪ rows, {[(col_of i, at_cell b i)]} ∪ cols, {[(box_of i, at_cell b i)]} ∪ boxes)) as (t' & E & M); [set_solver|].
  exists t'. split; [done|]. intros k u v. rewrite M. clear -k.
  assert (X : forall (s : gset (Z * Z)) (f : Z -> Z), (u, v) ∈ {[(f i, at_cell b i)]} ∪ s <-> (u, v) ∈ s \/ f i = u /\ at_cell b i = v).
  { intros s f. rewrite elem_of_union, elem_of_singleton. naive_solver congruence. }
  destruct k; cbn; rewrite X; clear X; set_solver.
Qed.

Lemma marks_new b : puzzle_board b -> exists t, res_foldl (mark_cell b) (∅, ∅, ∅) (seqZ 0 kCells) = Ok t /\ marks_ok b t.
Proof.
  intros Hb. destruct (mark_cells_ok b (seqZ 0 kCells) (∅, ∅, ∅) Hb) as (t & E & M); [intros i Hi%elem_of_seqZ; lia|].
  exists t. split; [done|]. intros k u v. rewrite M. unfold clue. split.
  - intros [X|(i & Hi%elem_of_seqZ & E1 & E2)]; [destruct k; cbn in X; set_solver|]. exists i. split; [lia|done].
  - intros (i & Hi & E1 & E2). right. exists i. split; [|done]. apply elem_of_seqZ. lia.
Qed.

Lemma marked_clue b t k u v : marks_ok b t -> marked (marks_of k t) u v = true <-> clue b k u v.
Proof. intros M. unfold marked. rewrite bool_decide_eq_true. apply M. Qed.

(** ** The columns *)

Definition append_if (t : marks) (b : list Z) (s : SudokuSolver) (n : Z) : res SudokuSolver :=
  if wanted t b n then append_column n s else Ok s.

Lemma append_if_ok t b pre n post s : all_names = pre ++ n :: post -> headers b (names_of t b pre) s ->
  exists s', append_if t b s n = Ok s' /\ headers b (names_of t b (pre ++ [n])) s'.
Proof.
  intros E H. unfold append_if, names_of in *. rewrite filter_app, filter_cons.
  destruct (wanted t b n) eqn:W; [rewrite decide_True by done|rewrite decide_False by done; rewrite app_nil_r; eauto].
  pose proof all_names_nodup as N. pose proof all_names_length as L. rewrite E in N, L.
  apply NoDup_app in N as (_ & N & _). apply append_column_ok; [done| |apply all_names_bound; rewrite E; set_solver|].
  - intros [_ Hn]%list_elem_of_filter. apply (N n Hn). set_solver.
  - unfold zlen in *. rewrite length_app in L. cbn in L.
    pose proof (length_filter (fun n => wanted t b n = true) pre). unfold kMaxNodes. lia.
Qed.

Lemma append_all_ok t b l pre post s : all_names = pre ++ l ++ post -> headers b (names_of t b pre) s ->
  exists s', res_foldl (append_if t b) s l = Ok s' /\ headers b (names_of t b (pre ++ l)) s'.
Proof.
  revert pre s. induction l as [|n l IH]; intros pre s E H; [exists s; by rewrite app_nil_r|]. cbn [res_foldl].
  destruct (append_if_ok t b pre n (l ++ post) s E H) as (s1 & -> & H1). cbn [res_bind].
  destruct (IH (pre ++ [n]) s1) as (s' & E' & H'); [by rewrite E, <-app_assoc|done|]. exists s'. split; [done|].
  by rewrite <-app_assoc in H'.
Qed.

Lemma append_cells_ok t b l pre post s : zlen b = kCells -> (forall i, i ∈ l -> 0 <= i < kCells) ->
  all_names = pre ++ l ++ post -> headers b (names_of t b pre) s ->
  res_foldl append_cell s l = res_foldl (append_if t b) s l.
Proof.
  intros Hb. revert pre s. induction l as [|n l IH]; intros pre s Hl E H; [done|]. cbn [res_foldl].
  assert (Hn : 0 <= n < kCells) by (apply Hl; set_solver).
  assert (En : append_cell s n = append_if t b s n).
  { unfold append_cell, append_if. destruct H as [_ _ -> _ _ _ _]. rewrite cell_at_ok by done. cbn [res_bind]. by rewrite wanted_cell. }
  rewrite En. destruct (append_if_ok t b pre n (l ++ post) s E H) as (s1 & -> & H1). cbn [res_bind].
  apply (IH (pre ++ [n])); [set_solver|by rewrite E, <-app_assoc|done].
Qed.

Lemma append_values_ok t b s l : (forall iv, iv ∈ l -> iv ∈ all_values) ->
  res_foldl (append_values t) s l = res_foldl (append_if t b) s (concat (map value_names l)).
Proof.
  revert s. induction l as [|[i v] l IH]; intros s Hl; [done|]. cbn [map concat res_foldl]. rewrite res_foldl_app.
  assert (Hiv : (i, v) ∈ all_values) by (apply Hl; set_solver). apply elem_all_values in Hiv as [Hi Hv].
  assert (E : append_values t s (i, v) = res_foldl (append_if t b) s (value_names (i, v))).
  { unfold append_values, value_names. cbn [res_foldl fst snd]. unfold append_if.
    pose proof (wanted_name t b KRow i v Hi Hv) as W1. pose proof (wanted_name t b KCol i v Hi Hv) as W2.
    pose proof (wanted_name t b KBox i v Hi Hv) as W3. cbn in W1, W2, W3. rewrite W1, W2, W3.
    destruct t as [[rows cols] boxes]. cbn. destruct (if negb (marked rows i v) then _ else _) as [s1|]; [cbn|done].
    destruct (if negb (marked cols i v) then _ else _) as [s2|]; [cbn|done].
    by destruct (if negb (marked boxes i v) then _ else _). }
  rewrite E. destruct (res_foldl _ s _) as [s1|]; [cbn|done]. apply IH. set_solver.
Qed.

(** ** The choices *)

Lemma allowed_iff b t i v : marks_ok b t -> allowed t i v = true <-> forall k, ~ clue b k (unit_of k i) v.
Proof.
  intros M. unfold allowed. destruct t as [[rows cols] boxes]. rewrite negb_true_iff, !orb_false_iff, <-!not_true_iff_false.
  pose proof (marked_clue b _ KRow (row_of i) v M) as X1. pose proof (marked_clue b _ KCol (col_of i) v M) as X2.
  pose proof (marked_clue b _ KBox (box_of i) v M) as X3. cbn in X1, X2, X3. rewrite X1, X2, X3. split.
  - intros [[? ?] ?] k. by destruct k.
  - intros X. split_and!; [apply (X KRow)|apply (X KCol)|apply (X KBox)].
Qed.

Lemma elem_choices b t i v : marks_ok b t -> (i, v) ∈ choices t b <->
  0 <= i < kCells /\ at_cell b i = 0 /\ 1 <= v <= 9 /\ forall k, ~ clue b k (unit_of k i) v.
Proof.
  intros M. unfold choices. rewrite list_elem_of_In, in_concat. split.
  - intros (l & Hl & Ho). apply in_map_iff in Hl as (j & <- & Hj%list_elem_of_In%elem_of_seqZ). unfold cell_choices in Ho.
    destruct (Z.eqb_spec (at_cell b j) 0) as [E|]; [|done]. apply in_map_iff in Ho as (v' & [= -> ->] & Hv%list_elem_of_In).
    apply list_elem_of_filter in Hv as [Ha Hv%elem_of_seqZ]. pose proof (proj1 (allowed_iff b t i v M) Ha) as Ha'. split_and!; try done; lia.
  - intros (Hi & E & Hv & Ha). exists (cell_choices t b i). split; [apply in_map, list_elem_of_In, elem_of_seqZ; lia|].
    unfold cell_choices. rewrite E. cbn. apply in_map, list_elem_of_In, list_elem_of_filter.
    split; [by apply (proj2 (allowed_iff b t i v M) Ha)|]. apply elem_of_seqZ. lia.
Qed.

Definition names (t : marks) (b : list Z) : list Z := names_of t b all_names.

Lemma elem_names t b n : marks_ok b t -> n ∈ names t b <->
  0 <= n < kCells /\ at_cell b n = 0 \/
  exists k u v, 0 <= u < 9 /\ 1 <= v <= 9 /\ n = name_of k u v /\ ~ clue b k u v.
Proof.
  intros M. unfold names, names_of. rewrite list_elem_of_filter, elem_all_names. split.
  - intros [W [Hn|(k & u & v & Hu & Hv & ->)]].
    + left. split; [done|]. rewrite wanted_cell in W by done. by apply Z.eqb_eq.
    + right. exists k, u, v. split_and!; try lia. rewrite wanted_name, negb_true_iff, <-not_true_iff_false in W by done.
      by rewrite (marked_clue b t k u v M) in W.
  - intros [[Hn E]|(k & u & v & Hu & Hv & -> & C)].
    + split; [|by left]. rewrite wanted_cell by done. by apply Z.eqb_eq.
    + split; [|right; by exists k, u, v]. rewrite wanted_name, negb_true_iff, <-not_true_iff_false by done. by rewrite (marked_clue b t k u v M).
Qed.

Lemma names_nodup t b : NoDup (names t b).
Proof. apply NoDup_filter, all_names_nodup. Qed.

Lemma names_length t b : zlen (names t b) <= 324.
Proof. rewrite <-all_names_length. unfold zlen, names, names_of. pose proof (length_filter (fun n => wanted t b n = true) all_names). lia. Qed.

Lemma choice_names_kinds i v n : n ∈ choice_names i v <-> n = i \/ exists k, n = name_of k (unit_of k i) v.
Proof.
  unfold choice_names. rewrite !elem_of_cons, elem_of_nil. split.
  - intros [->|[->|[->|[->|[]]]]]; [by left|right; by exists KRow|right; by exists KCol|right; by exists KBox].
  - intros [->|[[] ->]]; auto.
Qed.

Lemma choice_good b t o : marks_ok b t -> o ∈ choices t b -> good_choice (names t b) o.
Proof.
  destruct o as [i v]. intros M Ho. apply (elem_choices b t i v M) in Ho as (Hi & E & Hv & Ha). split; [done|]. split; [done|]. cbn.
  intros n [->|(k & ->)]%choice_names_kinds; apply elem_names; try done; [by left|].
  right. exists k, (unit_of k i), v. pose proof (unit_bound k i Hi). split_and!; try lia. apply Ha.
Qed.

Lemma choices_length t b : zlen (choices t b) <= 729.
Proof.
  unfold choices, kCells. assert (X : forall l, zlen (concat (map (cell_choices t b) l)) <= 9 * zlen l).
  { induction l as [|i l IH]; [done|]. cbn [map concat]. rewrite zlen_app, zlen_cons. unfold cell_choices at 1.
    destruct (_ =? 0); [|change (zlen []) with 0; lia]. unfold zlen at 1. rewrite length_map.
    pose proof (length_filter (fun v => allowed t i v = true) (seqZ 1 9)) as Y. change (length (seqZ 1 9)) with 9%nat in Y. lia. }
  specialize (X (seqZ 0 81)). change (zlen (seqZ 0 81)) with 81 in X. lia.
Qed.

(** ** The constructor *)

Section puzzle.
Context (b : list Z) (t : marks) (Hb : puzzle_board b) (M : marks_ok b t).
#[local] Set Default Proof Using "Type + Hb + M".

Abbreviation N := (names t b).
Abbreviation O := (choices t b).
Abbreviation table := (choice_rows N (1 + zlen N) O).

Lemma add_one_ok pre o post s : O = pre ++ o :: post -> built b N pre s ->
  exists s', add_choice o.1 o.2 s = Ok s' /\ built b N (pre ++ [o]) s'.
Proof.
  intros E B. apply add_choice_ok; [done|apply choice_good; [done|rewrite E; set_solver]|].
  destruct B as [_ _ _ -> _ _ _ _]. pose proof (choices_length t b) as L. rewrite E, zlen_app, zlen_cons in L.
  pose proof (names_length t b). pose proof (zlen_nonneg post). unfold kMaxNodes. lia.
Qed.

Lemma add_values_ok i vs pre post s : O = pre ++ map (pair i) (filter (fun v => allowed t i v = true) vs) ++ post ->
  built b N pre s ->
  exists s', res_foldl (fun s v => if allowed t i v then add_choice i v s else Ok s) s vs = Ok s' /\
    built b N (pre ++ map (pair i) (filter (fun v => allowed t i v = true) vs)) s'.
Proof.
  revert pre s. induction vs as [|v vs IH]; intros pre s; [intros _ B; exists s; by rewrite app_nil_r|].
  rewrite filter_cons. cbn [res_foldl]. destruct (allowed t i v).
  - rewrite decide_True by done. cbn [map]. intros E B. destruct (add_one_ok pre (i, v) _ s E B) as (s1 & E1 & B1). cbn [fst snd] in E1. rewrite E1. cbn [res_bind].
    destruct (IH (pre ++ [(i, v)]) s1) as (s' & E' & B'); [by rewrite <-app_assoc|done|]. exists s'. by rewrite <-app_assoc in B'.
  - rewrite decide_False by done. apply IH.
Qed.

Lemma add_cell_eq pre s i : built b N pre s -> 0 <= i < kCells -> add_cell t s i =
  if at_cell b i =? 0 then res_foldl (fun s v => if allowed t i v then add_choice i v s else Ok s) s (seqZ 1 9) else Ok s.
Proof. intros [_ _ B3 _ _ _ _ _] Hi. unfold add_cell. rewrite B3. by rewrite (cell_at_ok b i (proj1 Hb) Hi). Qed.

Lemma add_cells_ok l pre post s : (forall i, i ∈ l -> 0 <= i < kCells) -> O = pre ++ concat (map (cell_choices t b) l) ++ post ->
  built b N pre s ->
  exists s', res_foldl (add_cell t) s l = Ok s' /\ built b N (pre ++ concat (map (cell_choices t b) l)) s'.
Proof.
  revert pre s. induction l as [|i l IH]; intros pre s Hl E B; [exists s; by rewrite app_nil_r|]. cbn [res_foldl map concat] in *.
  rewrite (add_cell_eq pre s i B) by (apply Hl; set_solver). unfold cell_choices at 1 in E. unfold cell_choices at 1.
  destruct (_ =? 0).
  - rewrite <-app_assoc in E. destruct (add_values_ok i (seqZ 1 9) pre _ s E B) as (s1 & -> & X1). cbn [res_bind].
    destruct (IH _ s1 ltac:(set_solver) ltac:(by rewrite <-app_assoc) X1) as (s' & E' & X'). exists s'. by rewrite <-app_assoc in X'.
  - apply IH; [set_solver|done|done].
Qed.

Lemma headers_built s : headers b N s -> built b N [] s.
Proof.
  intros [H1 H2 H3 H4 H5 H6 H7]. split; try done.
  - rewrite H4. change (zlen []) with 0. lia.
  - assert (X : forall h u, h ∈ hdrs N -> u ∈ h :: entries [] h -> u = h) by (intros h u _; cbn; set_solver).
    split.
    + intros h Hh. by apply H7.
    + intros h _. cbn. repeat constructor. set_solver.
    + intros h u Hh ->%X; [|done]. apply elem_of_seqZ in Hh. lia.
    + intros h k u Hh Hk E1%X E2%X; [congruence|done|done].
  - split; cbn; set_solver.
Qed.

Lemma constructor_ok : (res_foldl (mark_cell b) (∅, ∅, ∅) (seqZ 0 kCells) = Ok t) ->
  exists s, SudokuSolver_new b = Ok s /\ built b N O s.
Proof.
  intros Em. unfold SudokuSolver_new. destruct (new_solver_headers b) as (s0 & H0 & E0).
  unfold new_column in E0 |- *. cbn [cur_node_ assert_ res_bind] in E0 |- *.
  change (0 <? kMaxNodes) with true in *. cbn [assert_ res_bind root_ inout_ columns_ stack_ nodes_ cur_node_] in *.
  injection E0 as ->. rewrite Em. cbn [res_bind].
  assert (A1 : all_names = [] ++ seqZ 0 kCells ++ concat (map value_names all_values)) by done.
  rewrite (append_cells_ok t b _ [] _ s0 (proj1 Hb)) with (2 := A1) by (done || (intros i Hi%elem_of_seqZ; lia)).
  destruct (append_all_ok t b _ [] _ s0 A1 H0) as (s1 & -> & H1). cbn [res_bind app] in *.
  change (List.list_prod (seqZ 0 9) (seqZ 1 9)) with all_values. rewrite (append_values_ok t b) by done.
  assert (A2 : all_names = seqZ 0 kCells ++ concat (map value_names all_values) ++ []) by by rewrite app_nil_r.
  destruct (append_all_ok t b _ _ _ s1 A2 H1) as (s2 & -> & H2). cbn [res_bind]. fold all_names in H2.
  apply headers_built in H2. apply (add_cells_ok _ [] []); [intros i Hi%elem_of_seqZ; lia|by rewrite app_nil_r|done].
Qed.

(** ** The table the search starts from *)

Definition cell_hdrs : list Z := map (addr N) (filter (fun n => n < kCells) N).

Lemma table_rows r : r ∈ table -> exists q o, o ∈ O /\ r = choice_row N q o /\ good_choice N o.
Proof. intros Hr. destruct (elem_choice_rows _ _ _ _ Hr) as (q & o & Ho & ->). exists q, o. split_and!; try done. by apply choice_good. Qed.

Lemma addr_inj x y : x ∈ N -> y ∈ N -> addr N x = addr N y -> x = y.
Proof. unfold addr. intros Hx Hy E. apply (position_inj N); [done|done|lia]. Qed.

Lemma choice_names_nodup i v : 0 <= i < kCells -> 1 <= v <= 9 -> NoDup (choice_names i v).
Proof.
  intros Hi Hv. destruct (cell_units i Hi) as (B1 & B2 & B3). unfold choice_names, get_row_col, get_col_col, get_box_col, kRow, kCol, kBox, kCells in *.
  repeat constructor; not_in.
Qed.

Lemma heads_nodup l : NoDup l -> (forall n, n ∈ l -> n ∈ N) -> NoDup (map (addr N) l).
Proof.
  induction l as [|n l IH]; intros Nd Hl; [constructor|]. apply NoDup_cons in Nd as [N1 N2]. cbn. apply NoDup_cons. split.
  - intros (m & E & Hm)%list_elem_of_fmap. apply addr_inj in E as ->; [done|apply Hl; set_solver..].
  - apply IH; set_solver.
Qed.

Lemma table_addresses : 0 :: hdrs N ++ all_nodes table = seqZ 0 (1 + zlen N + 4 * zlen O).
Proof.
  rewrite all_nodes_choice. unfold hdrs. pose proof (zlen_nonneg N). pose proof (zlen_nonneg O).
  rewrite <-seqZ_app by lia. replace (1 + zlen N + 4 * zlen O) with (Z.succ (zlen N + 4 * zlen O)) by lia.
  symmetry. rewrite (seqZ_cons 0) by lia. by rewrite Z.pred_succ.
Qed.

Lemma table_is_ok : table_ok 0 (hdrs N) table cell_hdrs.
Proof.
  split.
  - rewrite table_addresses. apply NoDup_seqZ.
  - rewrite table_addresses, length_seqZ. pose proof (choices_length t b). pose proof (names_length t b).
    apply turns_max. unfold kMaxNodes. lia.
  - intros r (q & o & _ & -> & Bi & Bv & Hn)%table_rows. rewrite row_heads_choice. split.
    + apply heads_nodup; [by apply choice_names_nodup|done].
    + intros h (n & -> & H)%list_elem_of_fmap. by apply addr_hdrs, Hn.
  - intros r (q & o & _ & -> & Bi & Bv & Hn)%table_rows. split; [done|]. split; [done|].
    exists (addr N o.1). rewrite row_heads_choice. split; [by left|]. unfold cell_hdrs. apply list_elem_of_fmap_2, list_elem_of_filter.
    cbn. split; [lia|]. apply Hn. set_solver.
Qed.

Lemma all_active : active table (hdrs N) = table.
Proof.
  unfold active. assert (X : forall rs : list Row, (forall r, r ∈ rs -> r ∈ table) -> filter (fun r : Row => Forall (fun h => h ∈ hdrs N) (row_heads r)) rs = rs).
  { induction rs as [|r rs IH]; intros Hrs; [done|]. rewrite filter_cons, decide_True; [f_equal; apply IH; set_solver|].
    apply Forall_forall. apply (t_heads _ _ _ _ table_is_ok). set_solver. }
  by apply X.
Qed.

Lemma built_inv s : built b N O s -> inv 0 (hdrs N) table (nodes_ s) (hdrs N).
Proof.
  intros [B1 B2 B3 B4 B5 B6 [R1 R2 R3 R4] B8]. split; [done|].
  assert (E : forall h, column table (hdrs N) h = entries table h) by (intros h; unfold column; by rewrite all_active).
  split; try done.
  - apply NoDup_seqZ.
  - intros h Hh. rewrite E. by apply R1.
  - intros h Hh. rewrite E. split; [by apply (NoDup_cons_1_2 h), R2|]. rewrite <-E.
    intros x (r & Hr & _ & Hs)%(elem_column 0 (hdrs N) table cell_hdrs table_is_ok). by exists r.
Qed.

Lemma cells_bound : (cells_in cell_hdrs (hdrs N) <= empty_cells b)%nat.
Proof.
  unfold cells_in. transitivity (length cell_hdrs).
  - apply NoDup_incl_length; [apply NoDup_ListNoDup, NoDup_filter, NoDup_seqZ|].
    intros h Hh. apply list_elem_of_In in Hh. apply list_elem_of_filter in Hh as [Hh _]. by apply list_elem_of_In.
  - unfold cell_hdrs, empty_cells. rewrite length_map. apply NoDup_incl_length; [apply NoDup_ListNoDup, NoDup_filter, names_nodup|].
    intros n Hn. apply list_elem_of_In in Hn. apply list_elem_of_filter in Hn as [Hn Hi].
    pose proof (all_names_bound n (proj2 (proj1 (list_elem_of_filter _ _ _) Hi))).
    apply (elem_names t b n M) in Hi as [[_ E]|(k & u & v & Hu & Hv & -> & _)].
    + apply list_elem_of_In, list_elem_of_filter. split; [done|]. apply elem_of_seqZ. lia.
    + pose proof (name_bound k u v Hu Hv). unfold kCells in Hn. lia.
Qed.

(** ** Exact covers and solutions *)

Definition fills (P : list (Z * Z)) (b : list Z) : list Z := foldl (fun b o => <[Z.to_nat o.1 := o.2]> b) b P.

(** A set of choices that covers every column once. *)
Definition covers (P : list (Z * Z)) : Prop :=
  (forall o, o ∈ P -> o ∈ O) /\ concat (map (fun o => choice_names o.1 o.2) P) ≡ₚ N.

Definition pair_of (r : Row) : Z * Z := (cell r, val r).

Lemma map_position l pre : NoDup (pre ++ l) -> map (fun n => 1 + position n (pre ++ l)) l = seqZ (1 + zlen pre) (zlen l).
Proof.
  revert pre. induction l as [|n l IH]; intros pre Nd; [done|]. cbn [map]. rewrite zlen_cons. pose proof (zlen_nonneg l).
  rewrite (seqZ_cons (1 + zlen pre)) by lia. f_equal.
  - rewrite position_app. apply NoDup_app in Nd as (_ & Nd & _). rewrite decide_False by (intros X; apply (Nd n X); set_solver).
    cbn. rewrite Z.eqb_refl. lia.
  - specialize (IH (pre ++ [n])). rewrite <-app_assoc in IH. cbn [app] in IH. rewrite IH by done.
    rewrite zlen_app. change (zlen [n]) with 1. f_equal; lia.
Qed.

Lemma map_addr_names : map (addr N) N = hdrs N.
Proof. apply (map_position N []). apply names_nodup. Qed.

Lemma table_heads X : (forall r, r ∈ X -> r ∈ table) ->
  concat (map row_heads X) = map (addr N) (concat (map (fun o => choice_names o.1 o.2) (map pair_of X))).
Proof.
  induction X as [|r X IH]; intros HX; [done|]. cbn [map concat]. rewrite map_app, <-IH by set_solver. f_equal.
  assert (Hr : r ∈ table) by (apply HX; set_solver). by destruct (table_rows r Hr) as (q & o & _ & -> & _).
Qed.

Lemma covers_sub P n : (forall o, o ∈ P -> o ∈ O) -> n ∈ concat (map (fun o => choice_names o.1 o.2) P) -> n ∈ N.
Proof.
  intros HP Hn. apply list_elem_of_In, in_concat in Hn as (l & Hl & Hn). apply in_map_iff in Hl as (o & <- & Ho%list_elem_of_In).
  apply (choice_good b t o M (HP o Ho)). by apply list_elem_of_In.
Qed.

Lemma exact_covers_pairs X : exact table X (hdrs N) -> covers (map pair_of X).
Proof.
  intros [HX P].
  assert (HP : forall o, o ∈ map pair_of X -> o ∈ O).
  { intros o (r & -> & Hr)%list_elem_of_fmap. destruct (table_rows r (HX r Hr)) as (q & o & Ho & -> & _). by destruct o. }
  split; [done|]. rewrite table_heads in P by done. rewrite <-map_addr_names in P.
  assert (Nd : NoDup (map (addr N) N)) by (rewrite map_addr_names; apply NoDup_seqZ).
  apply NoDup_Permutation.
  - rewrite <-P in Nd. by apply NoDup_fmap_1 in Nd.
  - apply names_nodup.
  - intros n. split; [by apply covers_sub|]. intros Hn. assert (Ha : addr N n ∈ map (addr N) N) by by apply list_elem_of_fmap_2.
    rewrite <-P in Ha. apply list_elem_of_fmap in Ha as (m & E & Hm). apply addr_inj in E as ->; [done|done|by eapply covers_sub].
Qed.

Lemma pairs_exact_cover P : covers P -> exists X, exact table X (hdrs N).
Proof.
  intros [HP E]. assert (Y : exists X, map pair_of X = P /\ forall r, r ∈ X -> r ∈ table).
  { clear E. induction P as [|o P IH]; [exists []; set_solver|]. destruct IH as (X & <- & HX); [set_solver|].
    destruct (choice_row_exists N (1 + zlen N) O o) as (q & Hq); [apply HP; set_solver|].
    exists (choice_row N q o :: X). cbn. split; [by destruct o|]. set_solver. }
  destruct Y as (X & <- & HX). exists X. split; [done|]. by rewrite table_heads, <-map_addr_names, E.
Qed.

(** *** From a cover to a solution *)

Lemma fills_length P g : zlen (fills P g) = zlen g.
Proof. revert g. induction P as [|o P IH]; intros g; [done|]. cbn [fills foldl]. unfold fills in IH. rewrite IH. unfold zlen. by rewrite length_insert. Qed.

Lemma at_cell_insert g i j v : 0 <= i < zlen g -> 0 <= j -> at_cell (<[Z.to_nat i := v]> g) j = if decide (i = j) then v else at_cell g j.
Proof.
  intros Hi Hj. unfold at_cell. destruct (decide (i = j)) as [->|Hn].
  - rewrite list_lookup_insert_eq; [done|]. unfold zlen in Hi. lia.
  - by rewrite list_lookup_insert_ne by lia.
Qed.

Lemma fills_at P g i : zlen g = kCells -> (forall o, o ∈ P -> 0 <= o.1 < kCells) -> NoDup (map fst P) -> 0 <= i ->
  (forall v, (i, v) ∈ P -> at_cell (fills P g) i = v) /\ (i ∉ map fst P -> at_cell (fills P g) i = at_cell g i).
Proof.
  revert g. induction P as [|[j w] P IH]; intros g Hg HP Nd Hi; [split; [set_solver|done]|]. cbn in Nd. apply NoDup_cons in Nd as [N1 N2].
  cbn [fills foldl fst snd]. fold (fills P (<[Z.to_nat j := w]> g)).
  assert (Hj : 0 <= j < zlen g) by (rewrite Hg; by apply (HP (j, w)); set_solver).
  destruct (IH (<[Z.to_nat j := w]> g)) as [IH1 IH2]; [unfold zlen in *; by rewrite length_insert|set_solver|done|done|].
  split.
  - intros v [[= -> ->]|Hv]%elem_of_cons; [|by apply IH1]. rewrite IH2, at_cell_insert, decide_True by done. done.
  - cbn. intros Hn. rewrite IH2, at_cell_insert, decide_False; set_solver.
Qed.

Lemma covers_cells_nodup P : covers P -> NoDup (map fst P).
Proof.
  intros [_ E]. pose proof (names_nodup t b) as Nd. rewrite <-E in Nd.
  assert (Y : map fst P = concat (map (fun o => [o.1]) P)) by (clear; induction P as [|o P IH]; [done|]; cbn; by f_equal).
  rewrite Y. apply (nodup_concat_sub (fun o => choice_names o.1 o.2)); [|done]. intros o _. split; [repeat constructor; not_in|].
  intros x ->%list_elem_of_singleton. by left.
Qed.

Lemma elem_unit_cells k u i : i ∈ unit_cells k u <-> unit_of k i = u /\ 0 <= i < kCells.
Proof. unfold unit_cells. rewrite list_elem_of_filter, elem_of_seqZ. lia. Qed.

Lemma unit_cells_length k u : 0 <= u < 9 -> length (unit_cells k u) = 9%nat.
Proof.
  intros Hu. destruct (unit_cells_spec u Hu) as (E1 & E2 & E3).
  destruct k; rewrite ?E1, ?E2, ?E3; unfold row_cells, col_cells, box_cells; rewrite length_map; done.
Qed.

Lemma covers_solution P : covers P -> solution b (fills P b).
Proof.
  intros C. pose proof (covers_cells_nodup P C) as Nd. destruct C as [HP E].
  assert (HP' : forall i v, (i, v) ∈ P -> 0 <= i < kCells /\ at_cell b i = 0 /\ 1 <= v <= 9 /\ forall k, ~ clue b k (unit_of k i) v).
  { intros i v Ho. apply (elem_choices b t i v M). by apply HP. }
  assert (HP1 : forall o, o ∈ P -> 0 <= o.1 < kCells) by (intros [i v] Ho; by apply (HP' i v)).
  pose proof (proj1 Hb) as Lb. split; [by rewrite fills_length|]. split.
  - intros i Hi Hn. apply fills_at; [done..|lia|]. intros ([j v] & -> & Hj)%list_elem_of_fmap. apply Hn. by apply (HP' j v).
  - enough (Y : forall k u, 0 <= u < 9 -> map (at_cell (fills P b)) (unit_cells k u) ≡ₚ seqZ 1 9).
    { intros u cells Hu Hc. pose proof (unit_cells_spec u Hu) as (E1 & E2 & E3). rewrite <-E1, <-E2, <-E3 in Hc.
      rewrite !elem_of_cons, elem_of_nil in Hc. destruct Hc as [->|[->|[->|[]]]]; by apply Y. }
    intros k u Hu. symmetry. apply NoDup_Permutation_bis; [apply NoDup_ListNoDup, NoDup_seqZ|rewrite length_map, unit_cells_length by done; done|].
    intros v Hv%list_elem_of_In%elem_of_seqZ. apply list_elem_of_In.
    enough (Z : exists i, i ∈ unit_cells k u /\ at_cell (fills P b) i = v) by (destruct Z as (i & Hi & <-); by apply list_elem_of_fmap_2).
    destruct (decide ((u, v) ∈ marks_of k t)) as [Hm|Hm].
    + apply M in Hm as (i & Hi & Ei & Ev). exists i. split; [by apply elem_unit_cells|]. rewrite <-Ev.
      apply fills_at; [done..|lia|]. intros ([j w] & -> & Hj)%list_elem_of_fmap. destruct (HP' j w Hj) as (_ & Z & _). cbn in Ev. lia.
    + assert (Hn : name_of k u v ∈ N).
      { apply (elem_names t b _ M). right. exists k, u, v. split_and!; try lia. intros C. by apply Hm, M. }
      rewrite <-E in Hn. apply list_elem_of_In, in_concat in Hn as (l & Hl & Hn). apply in_map_iff in Hl as ([i w] & <- & Ho%list_elem_of_In).
      apply list_elem_of_In, choice_names_kinds in Hn. destruct (HP' i w Ho) as (Hi & _ & Hw & _). cbn [fst snd] in Hn.
      pose proof (name_bound k u v Hu ltac:(lia)). unfold kCells in Hi. destruct Hn as [Hn|(k' & Hn)]; [lia|].
      destruct (name_inj k k' u (unit_of k' i) v w) as (-> & -> & ->); [lia..|apply unit_bound; unfold kCells; lia|lia|lia|done|].
      exists i. split; [by apply elem_unit_cells|]. apply fills_at; [done..|lia|done].
Qed.

(** *** From a solution to a cover *)

Lemma solution_units g k u : solution b g -> 0 <= u < 9 -> map (at_cell g) (unit_cells k u) ≡ₚ seqZ 1 9.
Proof.
  intros (_ & _ & S) Hu. pose proof (unit_cells_spec u Hu) as (E1 & E2 & E3).
  apply (S u); [done|]. rewrite <-E1, <-E2, <-E3. destruct k; set_solver.
Qed.

Lemma solution_distinct g k i j : solution b g -> 0 <= i < kCells -> 0 <= j < kCells ->
  unit_of k i = unit_of k j -> at_cell g i = at_cell g j -> i = j.
Proof.
  intros S Hi Hj Eu Ev. pose proof (solution_units g k (unit_of k i) S (unit_bound k i Hi)) as P.
  assert (Nd : NoDup (map (at_cell g) (unit_cells k (unit_of k i)))) by (rewrite P; apply NoDup_seqZ).
  assert (Ii : i ∈ unit_cells k (unit_of k i)) by by apply elem_unit_cells.
  assert (Ij : j ∈ unit_cells k (unit_of k i)) by by apply elem_unit_cells.
  revert Nd Ii Ij. generalize (unit_cells k (unit_of k i)). clear -Ev. induction l as [|x l IH]; [set_solver|]. cbn.
  intros [N1 N2]%NoDup_cons Ii Ij. assert (X : forall y, y ∈ l -> at_cell g y ∈ map (at_cell g) l) by (intros; by apply list_elem_of_fmap_2).
  apply elem_of_cons in Ii as [->|Ii], Ij as [->|Ij]; try done; [exfalso; apply N1; rewrite Ev; by apply X|
    exfalso; apply N1; rewrite <-Ev; by apply X|by apply IH].
Qed.

Lemma solution_covers g : solution b g -> exists P, covers P.
Proof.
  intros S. assert (Hv : forall i, 0 <= i < kCells -> 1 <= at_cell g i <= 9).
  { intros i Hi. assert (X : at_cell g i ∈ map (at_cell g) (unit_cells KRow (row_of i))) by (apply list_elem_of_fmap_2; by apply elem_unit_cells).
    rewrite (solution_units g KRow (row_of i) S (unit_bound KRow i Hi)) in X. apply elem_of_seqZ in X. lia. }
  assert (Hc : forall i k, 0 <= i < kCells -> at_cell b i = 0 -> ~ clue b k (unit_of k i) (at_cell g i)).
  { intros i k Hi E0 (j & Hj & Eu & Ev). pose proof (Hv i Hi). destruct S as (L & K & U).
    assert (at_cell g j = at_cell b j) by (apply K; [done|lia]).
    assert (j = i) as -> by (apply (solution_distinct g k j i); [by split|done|done|done|lia]). lia. }
  set (cells := filter (fun i => at_cell b i = 0) (seqZ 0 kCells)).
  assert (Hcells : forall i, i ∈ cells <-> at_cell b i = 0 /\ 0 <= i < kCells).
  { intros i. unfold cells. rewrite list_elem_of_filter, elem_of_seqZ. lia. }
  exists (map (fun i => (i, at_cell g i)) cells).
  assert (HP : forall o, o ∈ map (fun i => (i, at_cell g i)) cells -> o ∈ O).
  { intros o (i & -> & [E0 Hi]%Hcells)%list_elem_of_fmap. apply (elem_choices b t i (at_cell g i) M). split; [done|]. split; [done|].
    split; [by apply Hv|]. intros k. by apply Hc. }
  split; [done|]. rewrite map_map. cbn [fst snd]. apply NoDup_Permutation; [|apply names_nodup|].
  - assert (Nd : NoDup cells) by (apply NoDup_filter, NoDup_seqZ). assert (Hin : forall i, i ∈ cells -> at_cell b i = 0 /\ 0 <= i < kCells) by apply Hcells.
    clearbody cells. clear HP Hcells. induction cells as [|i l IH]; [constructor|]. apply NoDup_cons in Nd as [N1 N2]. cbn [map concat].
    destruct (Hin i) as [Ei Hi]; [set_solver|]. apply NoDup_app. split_and!; [by apply choice_names_nodup, Hv| |apply IH; set_solver].
    intros n Hn Hn'. apply list_elem_of_In, in_concat in Hn' as (l' & Hl & Hn'). apply in_map_iff in Hl as (j & <- & Hj%list_elem_of_In).
    apply list_elem_of_In in Hn'. destruct (Hin j) as [Ej Hj']; [set_solver|]. apply N1. enough (i = j) as -> by done.
    apply choice_names_kinds in Hn, Hn'. pose proof (fun k => name_bound k (unit_of k i) _ (unit_bound k i Hi) (Hv i Hi)) as Bi.
    pose proof (fun k => name_bound k (unit_of k j) _ (unit_bound k j Hj') (Hv j Hj')) as Bj. unfold kCells in Hi, Hj'.
    destruct Hn as [->|(k & ->)], Hn' as [E|(k' & E)]; [done|specialize (Bj k'); lia|specialize (Bi k); lia|].
    apply name_inj in E as (-> & Eu & Ev); [|apply unit_bound; unfold kCells; lia..|apply Hv; unfold kCells; lia|apply Hv; unfold kCells; lia].
    by apply (solution_distinct g k' i j).
  - intros n. split; [intros Hn; apply (covers_sub _ n HP); by rewrite map_map|]. intros Hn. apply list_elem_of_In, in_concat.
    apply (elem_names t b n M) in Hn as [[Hn E0]|(k & u & v & Hu & Hv' & -> & C)].
    + exists (choice_names n (at_cell g n)). split; [apply in_map_iff; exists n; split; [done|by apply list_elem_of_In, Hcells]|by left].
    + assert (X : v ∈ map (at_cell g) (unit_cells k u)) by (rewrite (solution_units g k u S Hu); apply elem_of_seqZ; lia).
      apply list_elem_of_fmap in X as (i & -> & [<- Hi]%elem_unit_cells). exists (choice_names i (at_cell g i)). split.
      * apply in_map_iff. exists i. split; [done|]. apply list_elem_of_In, Hcells. split; [|done].
        destruct (decide (at_cell b i = 0)) as [|Hne]; [done|]. exfalso. apply C. exists i. split_and!; [lia|lia|done|].
        destruct S as (_ & K & _). symmetry. by apply K.
      * apply list_elem_of_In, choice_names_kinds. right. by exists k.
Qed.
End puzzle.

(** ** The solver *)

Lemma solver_ok b : puzzle_board b -> exists s hs rows, SudokuSolver_new b = Ok s /\ inv 0 hs rows (nodes_ s) hs /\
  (forall m H c, inv 0 hs rows m H -> c ∈ H -> exists m', cover c m = Ok m' /\ uncover c m' = Ok m /\ inv 0 hs rows m' (without [c] H)) /\
  forall depth, (empty_cells b < depth)%nat ->
    (exists s', solve depth s = Ok (true, s') /\ solution b (inout_ s')) \/
    (solve depth s = Ok (false, s) /\ forall g, ~ solution b g).
Proof.
  intros Hb. destruct (marks_new b Hb) as (t & Em & M). destruct (constructor_ok b t Hb M Em) as (s & E & B).
  pose proof (table_is_ok b t Hb M) as T0. exists s, (hdrs (names t b)), (choice_rows (names t b) (1 + zlen (names t b)) (choices t b)).
  pose proof (built_inv b t Hb M s B) as I. split; [done|]. split; [done|]. split.
  { intros m H c Im Hc. destruct (cover_inv _ _ _ _ T0 m H c Im Hc) as (m' & E1 & E2 & I' & _). by exists m'. }
  intros depth Hd. pose proof (cells_bound b t Hb M) as Hc.
  destruct (solve_ok _ _ _ _ T0 depth s (hdrs (names t b)) [] I (b_root _ _ _ _ B)) as [(X & s' & Es & Hex & Hw)|[Es Hno]].
  - lia.
  - rewrite (b_stack _ _ _ _ B). constructor.
  - rewrite (b_inout _ _ _ _ B). apply Hb.
  - left. exists s'. split; [done|]. rewrite Hw, (b_inout _ _ _ _ B). cbn [app].
    replace (writes X b) with (fills (map pair_of X) b).
    + apply (covers_solution b t Hb M). by apply exact_covers_pairs.
    + unfold fills, writes. clear. revert b. induction X as [|r X IH]; intros b; [done|]. cbn. apply IH.
  - right. split; [done|]. intros g Hg. destruct (solution_covers b t Hb M g Hg) as (P & HP).
    destruct (pairs_exact_cover b t Hb M P HP) as (X & HX). by apply (Hno X).
Qed.

Lemma empty_cells_bound b : (empty_cells b <= Z.to_nat kCells)%nat.
Proof. unfold empty_cells. rewrite <-(length_seqZ 0 kCells). apply length_filter. Qed.

(** What is printed for a puzzle: a solution, or that there is none. *)
Definition answers (puzzle answer : bytes) : Prop :=
  (exists g, solution (map digit puzzle) g /\ answer = print_board g) \/
  ((forall g, ~ solution (map digit puzzle) g) /\ answer = kNoSolution).

Lemma solveSudoku_digits puzzle : zlen puzzle = kCells -> Forall (fun v => 0 <= v <= 9) (map digit puzzle) ->
  exists answer, solveSudoku puzzle = Ok answer /\ answers puzzle answer.
Proof.
  intros Hl F. unfold solveSudoku. rewrite Hl. change (kCells =? kCells) with true. cbn [assert_ res_bind].
  unfold answers. set (b := map digit puzzle) in *.
  assert (E : forallb (fun v => (0 <=? v) && (v <=? 9)) b = true).
  { rewrite forallb_forall. intros v Hv%list_elem_of_In. rewrite Forall_forall in F. apply F in Hv. lia. }
  rewrite E. assert (Hb : puzzle_board b) by (split; [unfold b, zlen; by rewrite length_map|done]).
  destruct (solver_ok b Hb) as (s & hs & rows & -> & _ & _ & H). cbn [res_bind].
  pose proof (empty_cells_bound b). destruct (H (S (Z.to_nat kCells))) as [(s' & -> & Hs)|[-> Hno]]; [lia| |].
  - eexists. split; [reflexivity|]. left. exists (inout_ s'). done.
  - eexists. split; [reflexivity|]. by right.
Qed.

Lemma solveSudoku_others puzzle : zlen puzzle = kCells -> ~ Forall (fun v => 0 <= v <= 9) (map digit puzzle) ->
  solveSudoku puzzle = Ok kNoSolution.
Proof.
  intros Hl F. unfold solveSudoku. rewrite Hl. change (kCells =? kCells) with true. cbn [assert_ res_bind].
  destruct (forallb _ (map digit puzzle)) eqn:E; [|done]. destruct F. rewrite forallb_forall in E.
  apply Forall_forall. intros v Hv%list_elem_of_In%E. lia.
Qed.

Lemma solution_values b g i : solution b g -> 0 <= i < kCells -> 1 <= at_cell g i <= 9.
Proof.
  intros S Hr. assert (X : at_cell g i ∈ map (at_cell g) (row_cells (i / 9))).
  { apply list_elem_of_fmap_2, list_elem_of_fmap. exists (i mod 9).
    pose proof (Z.mod_pos_bound i 9). rewrite elem_of_seqZ. split; [|lia]. by rewrite <-Z.div_mod. }
  rewrite (proj2 (proj2 S) (i / 9) (row_cells (i / 9))) in X;
    [|unfold kCells in Hr; split; [apply Z.div_pos|apply Z.div_lt_upper_bound]; lia|left].
  apply elem_of_seqZ in X. lia.
Qed.

Lemma solution_digits b g : solution b g -> Forall (fun v => 1 <= v <= 9) g.
Proof.
  intros S. apply Forall_lookup. intros i v Hi. pose proof (lookup_lt_Some _ _ _ Hi) as Hlt.
  pose proof (solution_values b g (Z.of_nat i) S) as H. unfold at_cell in H. rewrite Nat2Z.id, Hi in H.
  apply H. destruct S as [L _]. unfold zlen in L. lia.
Qed.

(** Only a board of digits has a solution. *)
Lemma solution_range b g : zlen b = kCells -> solution b g -> Forall (fun v => 0 <= v <= 9) b.
Proof.
  intros Lb S. apply Forall_lookup. intros i v Hi. pose proof (lookup_lt_Some _ _ _ Hi) as Hlt.
  destruct (decide (v = 0)) as [->|Hv]; [lia|].
  assert (Hr : 0 <= Z.of_nat i < kCells) by (unfold zlen in Lb; lia).
  pose proof (proj1 (proj2 S) (Z.of_nat i) Hr) as K. pose proof (solution_values b g (Z.of_nat i) S Hr) as V.
  unfold at_cell in *. rewrite Nat2Z.id, Hi in K. rewrite Nat2Z.id in V. cbn in K. rewrite K in V by done. lia.
Qed.

Lemma solveSudoku_answers puzzle : zlen puzzle = kCells ->
  exists answer, solveSudoku puzzle = Ok answer /\ answers puzzle answer.
Proof.
  intros Hl. destruct (decide (Forall (fun v => 0 <= v <= 9) (map digit puzzle))) as [F|F];
    [by apply solveSudoku_digits|].
  exists kNoSolution. split; [by apply solveSudoku_others|]. right. split; [|done]. intros g Hg. apply F.
  eapply solution_range; [|exact Hg]. unfold zlen. rewrite length_map. exact Hl.
Qed.

(** C11: [solveSudoku], on a puzzle of 81 characters.  If they are all digits
    (zeros are the empty cells) then, if the puzzle has a solution, one that
    keeps the given cells and puts the nine digits in every row, column and box,
    the function prints a solution of it; if it has none, contradictory givens
    included, the function says so.  If they are not all digits it says so too.
    It always returns: no assertion fails, [kMaxNodes] nodes are enough, and no
    loop along a ring runs past the ring. *)
Theorem solveSudoku_correct (puzzle : bytes) (Hl : zlen puzzle = kCells) :
  (Forall (fun v => 0 <= v <= 9) (map digit puzzle) ->
     (exists g, solution (map digit puzzle) g /\ solveSudoku puzzle = Ok (print_board g)) \/
     ((forall g, ~ solution (map digit puzzle) g) /\ solveSudoku puzzle = Ok kNoSolution)) /\
  (~ Forall (fun v => 0 <= v <= 9) (map digit puzzle) -> solveSudoku puzzle = Ok kNoSolution).
Proof.
  split; [|by apply solveSudoku_others]. intros F.
  destruct (solveSudoku_digits puzzle Hl F) as (a & -> & [(g & Hg & ->)|[Hno ->]]); [left|right; done].
  by exists g.
Qed.

(** The dance.  On every board the constructor builds the table of its choices,
    and from then on, in every state the search can be in (a set of columns left,
    the rings holding exactly the choices that cover nothing else), covering a
    column leaves such a state, with the column and the choices that would cover
    it gone, and uncovering it restores the store exactly, field by field. *)
Theorem cover_uncover_restores (b : list Z) (Hb : puzzle_board b) :
  exists s hs rows, SudokuSolver_new b = Ok s /\ inv 0 hs rows (nodes_ s) hs /\
    forall m H c, inv 0 hs rows m H -> c ∈ H ->
      exists m', cover c m = Ok m' /\ uncover c m' = Ok m /\ inv 0 hs rows m' (without [c] H).
Proof. destruct (solver_ok b Hb) as (s & hs & rows & E & I & D & _). by exists s, hs, rows. Qed.

(** C31: The search terminates on every board: a recursion one deeper than the number
    of empty cells (so 82 at most) is enough for it to return, whatever the
    depth allowed beyond; it returns true exactly when the puzzle has a
    solution, and when it returns false everything it touched is as before. *)
Theorem search_terminates (b : list Z) (depth : nat) (Hb : puzzle_board b) (Hd : (empty_cells b < depth)%nat) :
  exists s found s', SudokuSolver_new b = Ok s /\ solve depth s = Ok (found, s') /\
    (found = true <-> exists g, solution b g) /\ (found = false -> s' = s).
Proof.
  destruct (solver_ok b Hb) as (s & hs & rows & E & _ & _ & H).
  destruct (H depth Hd) as [(s' & Es & Hs)|[Es Hno]].
  - exists s, true, s'. split_and!; try done. split; [|done]. intros _. by exists (inout_ s').
  - exists s, false, s. split_and!; try done. split; [done|]. intros [g Hg]. by apply Hno in Hg.
Qed.

(** ** Witnesses *)

Lemma solveSudoku_correct_witness : zlen ex_puzzle = kCells /\ Forall (fun v => 0 <= v <= 9) (map digit ex_puzzle) /\
  ((exists g, solution (map digit ex_puzzle) g /\ solveSudoku ex_puzzle = Ok (print_board g)) \/
   ((forall g, ~ solution (map digit ex_puzzle) g) /\ solveSudoku ex_puzzle = Ok kNoSolution)).
Proof.
  assert (F : Forall (fun v => 0 <= v <= 9) (map digit ex_puzzle)) by (apply (bool_decide_eq_true_1 _); by vm_compute).
  split; [reflexivity|]. split; [exact F|]. apply (solveSudoku_correct ex_puzzle); [reflexivity|exact F].
Defined.

Definition ex_board : list Z := map digit ex_puzzle.

Lemma ex_board_ok : puzzle_board ex_board.
Proof. split; [reflexivity|]. apply (bool_decide_eq_true_1 _). by vm_compute. Qed.

Lemma cover_uncover_restores_witness : exists s hs rows, SudokuSolver_new ex_board = Ok s /\ inv 0 hs rows (nodes_ s) hs /\
    forall m H c, inv 0 hs rows m H -> c ∈ H ->
      exists m', cover c m = Ok m' /\ uncover c m' = Ok m /\ inv 0 hs rows m' (without [c] H).
Proof. apply (cover_uncover_restores ex_board). exact ex_board_ok. Defined.

Lemma search_terminates_witness : (empty_cells ex_board < 82)%nat /\
  exists s found s', SudokuSolver_new ex_board = Ok s /\ solve 82 s = Ok (found, s') /\
    (found = true <-> exists g, solution ex_board g) /\ (found = false -> s' = s).
Proof.
  split; [apply Nat.lt_succ_r, empty_cells_bound|]. apply (search_terminates ex_board 82); [exact ex_board_ok|].
  apply Nat.lt_succ_r, empty_cells_bound.
Defined.
