(* ===== verification/SudokuServer.v ===== *)
(** * The sudoku servers (examples/sudoku/server_basic.cc, server_multiloop.cc,
    server_threadpool.cc, server_hybrid.cc)

    The loop over the lines of the input buffer, which the servers and their
    clients share; then each server: what it does with a request, on the
    connection's thread or through the pool, and the statistics of the last.
    What the program sends on a connection is the list of its calls. *)

From S2P Require Import Prelude Cstd Timestamp Stat Sudoku SudokuSolve Buffer.

(** ** The loop over the lines

    [on_line]: what the loop does with a line, and whether it accepts it;
    [on_bad] and [on_long]: what it does before it breaks off. *)
Section lines.
Context {St : Type}.
Context (on_line : bytes -> St -> res (bool * St)) (on_bad on_long : St -> res St).

Fixpoint line_loop (fuel : nat) (len : Z) (buf : Buffer) (st : St) : res (Buffer * St) :=
  match fuel with
  | O => Err EFuel
  | S fuel =>
      if kCells + 2 <=? len then
        match findCRLF buf with
        | Some crlf =>
            let request := ztake (crlf - peek buf) (contents buf) in
            let* buf := retrieveUntil buf (crlf + 2) in
            let len := readableBytes buf in
            let* (good, st) := on_line request st in
            if good : bool then line_loop fuel len buf st
            else let* st := on_bad st in Ok (buf, st)
        | None =>
            if 100 <? len then let* st := on_long st in Ok (buf, st) else Ok (buf, st)
        end
      else Ok (buf, st)
  end.

(** Every turn that goes on consumes two bytes. *)
Definition lines_onMessage (buf : Buffer) (st : St) : res (Buffer * St) :=
  line_loop (S (length (contents buf))) (readableBytes buf) buf st.

(** The same on the bytes alone. *)
Fixpoint drain (fuel : nat) (l : bytes) (st : St) : res (bytes * St) :=
  match fuel with
  | O => Err EFuel
  | S fuel =>
      if kCells + 2 <=? zlen l then
        let i := std_search kCRLF l in
        if (i =? length l)%nat then
          if 100 <? zlen l then let* st := on_long st in Ok (l, st) else Ok (l, st)
        else
          let* (good, st) := on_line (take i l) st in
          if good : bool then drain fuel (drop (i + 2) l) st
          else let* st := on_bad st in Ok (drop (i + 2) l, st)
      else Ok (l, st)
  end.

Definition drain_all (l : bytes) (st : St) : res (bytes * St) := drain (S (length l)) l st.
End lines.

(** Reads, each followed by the message callback, with what else there is to
    know of the read. *)
Fixpoint feed {T St} (on : T -> Buffer -> St -> res (Buffer * St)) (segs : list (T * bytes)) (buf : Buffer)
  (st : St) : res (Buffer * St) :=
  match segs with
  | [] => Ok (buf, st)
  | (t, d) :: segs =>
      let* buf := append buf d in
      let* (buf, st) := on t buf st in
      feed on segs buf st
  end.

(** ** Requests *)

Inductive action : Type := Send (data : bytes) | Shutdown.

Record Request := mkRequest { id : bytes; puzzle : bytes; receiveTime : Timestamp }.

(** [actions]: the calls on the connection; [tasks]: what waits in the pool;
    [readings]: how often the clock has been read. *)
Record Server := mkServer {
  actions : list action;
  tasks : list Request;
  stat_ : SudokuStat;
  readings : nat;
}.

Definition act (l : list action) (s : Server) : Server :=
  mkServer (actions s ++ l) (tasks s) (stat_ s) (readings s).
Definition set_stat (st : SudokuStat) (s : Server) : Server := mkServer (actions s) (tasks s) st (readings s).
Definition set_tasks (l : list Request) (s : Server) : Server := mkServer (actions s) l (stat_ s) (readings s).
Definition read_clock (s : Server) : Server := mkServer (actions s) (tasks s) (stat_ s) (S (readings s)).

Definition COLON : byte := x3a.

(** The part before the first colon, if there is one, and the rest. *)
Definition split_request (request : bytes) : option bytes * bytes :=
  let colon := std_find COLON request in
  if (colon =? length request)%nat then (None, request)
  else (Some (take colon request), drop (S colon) request).

Definition answer_line (id answer : bytes) : bytes :=
  match id with [] => answer ++ kCRLF | _ => id ++ bs ":" ++ answer ++ kCRLF end.

Definition bad_request (s : Server) : res Server := Ok (act [Send (bs "Bad Reqeust!" ++ kCRLF); Shutdown] s).
Definition too_long (s : Server) : res Server := Ok (act [Send (bs "Id too long!" ++ kCRLF); Shutdown] s).

Module Basic.
Definition processRequest (request : bytes) (s : Server) : res (bool * Server) :=
  let '(id, puzzle) := split_request request in
  if zlen puzzle =? kCells then
    let* answer := solveSudoku puzzle in
    Ok (true, act [Send (answer_line (default [] id) answer)] s)
  else Ok (false, s).
Definition onMessage (buf : Buffer) (s : Server) : res (Buffer * Server) :=
  lines_onMessage processRequest bad_request too_long buf s.
End Basic.

Module Multiloop.
Definition processRequest (request : bytes) (s : Server) : res (bool * Server) :=
  let '(id, puzzle) := split_request request in
  if zlen puzzle =? kCells then
    let* answer := solveSudoku puzzle in
    Ok (true, act [Send (answer_line (default [] id) answer)] s)
  else Ok (false, s).
Definition onMessage (buf : Buffer) (s : Server) : res (Buffer * Server) :=
  lines_onMessage processRequest bad_request too_long buf s.
End Multiloop.

(** [threadPool_.run]: without threads the task is run by the caller. *)
Definition pool_run (solve : Request -> Server -> res Server) (numThreads : Z) (r : Request) (s : Server)
  : res Server :=
  if numThreads =? 0 then solve r s else Ok (set_tasks (tasks s ++ [r]) s).

(** A worker runs the task at [i] of the queue to its end: [solve] sends its
    answer in one call, in an order of which nothing is known. *)
Definition run_task (solve : Request -> Server -> res Server) (i : nat) (s : Server) : res Server :=
  match tasks s !! i with
  | Some r => solve r (set_tasks (delete i (tasks s)) s)
  | None => Ok s
  end.

Module Threadpool.
Definition solve (r : Request) (s : Server) : res Server :=
  let* answer := solveSudoku (puzzle r) in
  Ok (act [Send (answer_line (id r) answer)] s).
Definition processRequest (numThreads : Z) (request : bytes) (s : Server) : res (bool * Server) :=
  let '(id, puzzle) := split_request request in
  if zlen puzzle =? kCells then
    let* s := pool_run solve numThreads (mkRequest (default [] id) puzzle 0) s in
    Ok (true, s)
  else Ok (false, s).
Definition onMessage (numThreads : Z) (buf : Buffer) (s : Server) : res (Buffer * Server) :=
  lines_onMessage (processRequest numThreads) bad_request too_long buf s.
End Threadpool.

(** [clock]: what [Timestamp::now()] gives, reading after reading. *)
Module Hybrid.
Section hybrid.
Context (clock : nat -> Timestamp) (numThreads : Z).
Definition solve (r : Request) (s : Server) : res Server :=
  let* answer := solveSudoku (puzzle r) in
  let s := act [Send (answer_line (id r) answer)] s in
  let now := clock (readings s) in
  let s := read_clock s in
  let* st := recordResponse now (receiveTime r) (negb (bytes_eqb answer kNoSolution)) (stat_ s) in
  Ok (set_stat st s).
Definition run_request (r : Request) (s : Server) : res (bool * Server) :=
  if zlen (puzzle r) =? kCells then
    let* s := pool_run solve numThreads r s in Ok (true, s)
  else Ok (false, s).
Definition processRequest (receiveTime : Timestamp) (request : bytes) (s : Server) : res (bool * Server) :=
  match split_request request with
  | (Some id, puzzle) => run_request (mkRequest id puzzle receiveTime) s
  | (None, puzzle) =>
      if 1 <? numThreads then Ok (false, s) else run_request (mkRequest [] puzzle receiveTime) s
  end.
Definition count_bad (s : Server) : res Server :=
  let* st := recordBadRequest (stat_ s) in Ok (set_stat st s).
Definition onMessage (receiveTime : Timestamp) (buf : Buffer) (s : Server) : res (Buffer * Server) :=
  lines_onMessage
    (fun request s =>
       let* st := recordRequest (stat_ s) in
       processRequest receiveTime request (set_stat st s))
    (fun s => let* s := bad_request s in count_bad s)
    (fun s => let* s := too_long s in count_bad s) buf s.
End hybrid.
End Hybrid.

(** ** The loop, on a buffer and on its bytes *)

Lemma retrieveUntil_size b e b' : retrieveUntil b e = Ok b' -> size b' = size b.
Proof.
  unfold retrieveUntil, retrieve, retrieveAll, set_indices. intros H. inv_ok.
  destruct (_ <? _); inv_ok; by subst.
Qed.

(** A buffer with its size bounded. *)
Definition bounded (n : Z) (b : Buffer) : Prop := good b /\ size b <= n.

Section refinement.
Context {St : Type}.
Context (on_line : bytes -> St -> res (bool * St)) (on_bad on_long : St -> res St).

Lemma line_loop_drain fuel n buf st : bounded n buf ->
  match drain on_line on_bad on_long fuel (contents buf) st with
  | Ok (rest, st') => exists buf', line_loop on_line on_bad on_long fuel (readableBytes buf) buf st = Ok (buf', st') /\
                        bounded n buf' /\ contents buf' = rest
  | Err e => line_loop on_line on_bad on_long fuel (readableBytes buf) buf st = Err e
  end.
Proof.
  revert buf st. induction fuel as [|fuel IH]; intros buf st [G Hn]; cbn [drain line_loop]; [done|].
  rewrite <-zlen_contents by apply G. destruct (kCells + 2 <=? zlen (contents buf)); [|by exists buf].
  rewrite findCRLF_search by apply G. cbv zeta.
  destruct (std_search kCRLF (contents buf) =? length (contents buf))%nat eqn:E.
  { destruct (100 <? zlen (contents buf)); [|by exists buf]. destruct (on_long st); cbn [res_bind]; [|done].
    by exists buf. }
  apply Nat.eqb_neq in E. pose proof (std_search_le kCRLF (contents buf)) as Hle.
  assert (Hf : occurs_at kCRLF (contents buf) (std_search kCRLF (contents buf))) by (apply std_search_found; lia).
  apply occurs_CRLF_length in Hf. set (i := std_search kCRLF (contents buf)) in *.
  replace (peek buf + Z.of_nat i - peek buf) with (Z.of_nat i) by lia.
  pose proof (retrieveUntil_spec buf (peek buf + Z.of_nat i + 2) G) as R.
  pose proof (zlen_contents buf ltac:(apply G)) as Hl. rewrite readable_wf in Hl by apply G.
  unfold zlen, peek, beginWrite in *.
  rewrite (proj2 (Z.leb_le _ _)), (proj2 (Z.leb_le _ _)) in R by lia. destruct R as (b' & E' & G' & C).
  rewrite E'. cbn [res_bind]. apply retrieveUntil_size in E'.
  assert (C' : contents b' = drop (i + 2) (contents buf)).
  { rewrite C. unfold zdrop. f_equal. lia. }
  replace (ztake (Z.of_nat i) (contents buf)) with (take i (contents buf)) by (unfold ztake; f_equal; lia).
  destruct (on_line _ st) as [[[|] st']|]; cbn [res_bind]; [| |done].
  - rewrite <-C'. apply IH. split; [done|lia].
  - destruct (on_bad st'); cbn [res_bind]; [|done]. exists b'. split; [done|]. split; [|done].
    split; [done|lia].
Qed.

(** Two bytes at least per turn: more turns than that change nothing. *)
Lemma drain_fuel f1 f2 l st : (length l < f1)%nat -> (length l < f2)%nat ->
  drain on_line on_bad on_long f1 l st = drain on_line on_bad on_long f2 l st.
Proof.
  revert f2 l st. induction f1 as [|f1 IH]; intros f2 l st H1 H2; [lia|]. destruct f2 as [|f2]; [lia|].
  cbn [drain]. destruct (_ <=? _) eqn:El; [|done]. cbv zeta. destruct (_ =? _)%nat eqn:E; [done|].
  destruct (on_line _ st) as [[[|] st']|]; cbn [res_bind]; [|done..].
  assert (length (drop (std_search kCRLF l + 2) l) < length l)%nat.
  { rewrite length_drop. apply Z.leb_le in El. unfold zlen, kCells in El. lia. }
  apply IH; lia.
Qed.

Lemma lines_onMessage_drain n buf st : bounded n buf ->
  match drain_all on_line on_bad on_long (contents buf) st with
  | Ok (rest, st') => exists buf', lines_onMessage on_line on_bad on_long buf st = Ok (buf', st') /\
                        bounded n buf' /\ contents buf' = rest
  | Err e => lines_onMessage on_line on_bad on_long buf st = Err e
  end.
Proof. apply line_loop_drain. Qed.

(** ** Lines that are short enough *)

Definition good_line (l : bytes) : Prop := LF ∉ l /\ kCells <= zlen l <= 99.

Lemma no_CRLF l i : LF ∉ l -> ~ occurs_at kCRLF l i.
Proof.
  intros Hl H. destruct (occurs_at_split kCRLF l i ltac:(done) H) as (l1 & l2 & -> & _).
  apply Hl. rewrite !elem_of_app. right. left. right. left.
Qed.

Lemma search_line l rest : LF ∉ l -> std_search kCRLF (l ++ kCRLF ++ rest) = length l.
Proof.
  intros Hl. apply std_search_decomp. intros i Hi H.
  unfold occurs_at in H. rewrite drop_app_le in H by lia.
  destruct (drop i l) as [|x [|y k]] eqn:E.
  - apply (f_equal length) in E. rewrite length_drop in E. cbn in E. lia.
  - cbn in H. apply andb_true_iff in H as [_ H]. done.
  - cbn in H. apply andb_true_iff in H as [_ H]. apply andb_true_iff in H as [H _].
    apply Hl. rewrite <-(take_drop i l), E. apply elem_of_app. right. right.
    apply byte_eqb_true in H as <-. left.
Qed.

(** The line is not complete. *)
Lemma no_line l p x : LF ∉ l -> p ++ x = l ++ kCRLF -> x <> [] -> std_search kCRLF p = length p.
Proof.
  intros Hl Hp Hx. apply std_search_end; [done|]. intros i Hi. destruct (occurs_at_split kCRLF p i ltac:(done) Hi) as (l1 & l2 & -> & _).
  rewrite <-!app_assoc in Hp. pose proof (search_line l [] Hl) as E. rewrite app_nil_r, <-Hp in E.
  pose proof (std_search_first _ _ _ (occurs_at_app kCRLF l1 (l2 ++ x))) as Hf. rewrite E in Hf.
  apply (f_equal length) in Hp. rewrite !length_app in Hp. cbn in Hp. destruct x; [done|cbn in Hp; lia].
Qed.

(** What is left when the next line is not complete. *)
Lemma drain_partial l p x st : good_line l -> p ++ x = l ++ kCRLF -> x <> [] ->
  drain_all on_line on_bad on_long p st = Ok (p, st).
Proof.
  intros [Hl Hlen] Hp Hx. unfold drain_all. cbn [drain].
  destruct (kCells + 2 <=? zlen p); [|done]. rewrite (no_line l p x), Nat.eqb_refl by done.
  rewrite (proj2 (Z.ltb_ge 100 (zlen p))); [done|].
  apply (f_equal zlen) in Hp. rewrite !zlen_app in Hp. change (zlen kCRLF) with 2 in Hp.
  destruct x; [done|]. rewrite zlen_cons in Hp. pose proof (zlen_nonneg x). lia.
Qed.

(** A turn of the loop. *)
Lemma drain_turn l k st st' : LF ∉ l -> kCells <= zlen l -> on_line l st = Ok (true, st') ->
  drain_all on_line on_bad on_long ((l ++ kCRLF) ++ k) st = drain_all on_line on_bad on_long k st'.
Proof.
  intros Hlf Hlen El. rewrite <-app_assoc. unfold drain_all at 1. cbn [drain].
  assert (Hz : kCells + 2 <=? zlen (l ++ kCRLF ++ k) = true).
  { rewrite !zlen_app. change (zlen kCRLF) with 2. pose proof (zlen_nonneg k). lia. }
  rewrite Hz. cbv zeta. rewrite search_line by done.
  rewrite (proj2 (Nat.eqb_neq _ _)) by (rewrite !length_app; cbn; lia).
  rewrite take_app_length, El. cbn [res_bind].
  replace (drop (length l + 2) (l ++ kCRLF ++ k)) with k.
  - apply drain_fuel; rewrite ?length_app; cbn; lia.
  - rewrite drop_app_ge by lia. replace (length l + 2 - length l)%nat with 2%nat by lia. done.
Qed.
End refinement.

(** ** A stream of lines, however it is cut into reads *)

Definition wire (lines : list bytes) : bytes := concat (map (fun l => l ++ kCRLF) lines).

Lemma wire_cons l lines : wire (l :: lines) = (l ++ kCRLF) ++ wire lines.
Proof. done. Qed.

(** [P ld st]: the state after the lines [ld], each with the read that completed
    it; [Q]: what is known of the reads.  Every line of the stream is
    accepted; [tail] is what the stream has after them, too short to be looked
    at.  [before]: what happens in other threads before the read. *)
Section feeding.
Context {T St : Type}.
Context (on_line : T -> bytes -> St -> res (bool * St)) (on_bad on_long : St -> res St).
Context (before : T -> St -> res St).
Context (lines : list bytes) (tail : bytes) (P : list (T * bytes) -> St -> Prop) (Q : T -> Prop).
Hypothesis Hgood : Forall good_line lines.
Hypothesis Htail : zlen tail < kCells + 2.
Hypothesis Hline : forall ld t l more st, lines = map snd ld ++ l :: more -> Q t -> P ld st ->
  exists st', on_line t l st = Ok (true, st') /\ P (ld ++ [(t, l)]) st'.
Hypothesis Hbefore : forall ld t st, P ld st -> exists st', before t st = Ok st' /\ P ld st'.

Let on t buf st := let* st := before t st in lines_onMessage (on_line t) on_bad on_long buf st.

(** What is left is part of a line, or of the tail. *)
Definition partial (p : bytes) (todo : list bytes) : Prop :=
  match todo with
  | [] => exists x, p ++ x = tail
  | l :: _ => exists x, p ++ x = l ++ kCRLF /\ x <> []
  end.

Lemma partial_end p todo : partial p todo -> p = wire todo ++ tail -> todo = [].
Proof.
  destruct todo as [|l todo]; [done|]. intros (x & Hx & Hn) ->. exfalso.
  rewrite wire_cons in Hx. apply (f_equal length) in Hx. rewrite !length_app in Hx.
  destruct x; [done|]. cbn in Hx. lia.
Qed.

#[local] Set Default Proof Using "Type".
Lemma drain_lines t todo ld q x st : lines = map snd ld ++ todo -> Q t -> P ld st -> q ++ x = wire todo ++ tail ->
  exists ld' todo' p st', lines = map snd ld' ++ todo' /\ P ld' st' /\ drain_all (on_line t) on_bad on_long q st = Ok (p, st') /\
    p ++ x = wire todo' ++ tail /\ partial p todo'.
Proof using Hgood Hline Htail.
  intros E Ht. revert ld q st E. induction todo as [|l todo IH]; intros ld q st E HP Hq.
  - exists ld, [], q, st. cbn in Hq. split; [done|]. split; [done|]. split; [|split; [done|by exists x]].
    unfold drain_all. cbn [drain]. rewrite (proj2 (Z.leb_gt _ _)); [done|].
    apply (f_equal zlen) in Hq. rewrite zlen_app in Hq. pose proof (zlen_nonneg x). lia.
  - assert (Gl : good_line l).
    { rewrite Forall_forall in Hgood. apply Hgood. rewrite E, elem_of_app. right. left. }
    rewrite wire_cons, <-app_assoc in Hq.
    assert (C : (exists k, q = (l ++ kCRLF) ++ k /\ k ++ x = wire todo ++ tail) \/
                (exists k, q ++ k = l ++ kCRLF /\ x = k ++ wire todo ++ tail /\ k <> [])).
    { destruct (app_eq_app _ _ _ _ Hq) as (k & [[-> Hk]|[Hk Hx]]); [left; by exists k|].
      destruct (decide (k = [])) as [->|Hne]; [left; exists []|right; by exists k].
      split; [by rewrite Hk, !app_nil_r|by rewrite Hx]. }
    destruct C as [(k & -> & Hk)|(k & Hk & -> & Hne)].
    + destruct (Hline ld t l todo st E Ht HP) as (st1 & El & HP1).
      destruct (IH (ld ++ [(t, l)]) k st1) as (ld' & todo' & p & st' & E' & HP' & Ed & Hp & Hpar);
        [|done|done|].
      { rewrite map_app, <-app_assoc. exact E. }
      exists ld', todo', p, st'. split; [done|]. split; [done|]. split; [|done].
      rewrite (drain_turn _ _ _ l k st st1); [done|apply Gl..|done].
    + exists ld, (l :: todo), q, st. split; [done|]. split; [done|].
      split; [by apply (drain_partial _ _ _ l q k)|]. split; [|by exists k].
      rewrite wire_cons. by rewrite app_assoc, Hk, app_assoc.
Qed.

(** One read. *)
Lemma read_step n t d future todo ld buf st : lines = map snd ld ++ todo -> Q t -> P ld st -> bounded n buf ->
  n + zlen d <= MAX_SIZE -> contents buf ++ d ++ future = wire todo ++ tail ->
  exists b1 buf' st' ld' todo', append buf d = Ok b1 /\ on t b1 st = Ok (buf', st') /\
    bounded (n + zlen d) buf' /\ lines = map snd ld' ++ todo' /\ P ld' st' /\ partial (contents buf') todo' /\
    contents buf' ++ future = wire todo' ++ tail.
Proof using Hgood Hline Htail Hbefore.
  intros E Ht HP [G Hn] Hmax Hq. pose proof (zlen_nonneg d). pose proof G as [[] _].
  destruct (append_ok buf d G) as (b1 & Ea & G1 & C1 & S1); [lia|].
  rewrite app_assoc, <-C1 in Hq. destruct (Hbefore ld t st HP) as (st0 & E0 & HP0).
  destruct (drain_lines t todo ld (contents b1) future st0 E Ht HP0 Hq)
    as (ld1 & todo1 & p & st1 & E1 & HP1 & Ed & Hp & Hpar1).
  assert (B1 : bounded (n + zlen d) b1) by (split; [done|lia]).
  pose proof (lines_onMessage_drain (on_line t) on_bad on_long _ b1 st0 B1) as R. rewrite Ed in R.
  destruct R as (b2 & E2 & B2 & C2). exists b1, b2, st1, ld1, todo1.
  split; [done|]. split; [unfold on; by rewrite E0|]. rewrite C2. done.
Qed.

Definition total_size (segs : list (T * bytes)) : Z := zlen (concat (map snd segs)).

Lemma total_cons t d segs : total_size ((t, d) :: segs) = zlen d + total_size segs.
Proof. unfold total_size. cbn. by rewrite zlen_app. Qed.

Lemma feed_lines n segs : Forall (fun s => Q s.1) segs -> forall todo ld buf st,
  lines = map snd ld ++ todo -> P ld st ->
  bounded n buf -> n + total_size segs <= MAX_SIZE -> partial (contents buf) todo ->
  contents buf ++ concat (map snd segs) = wire todo ++ tail ->
  exists buf' st' ld', feed on segs buf st = Ok (buf', st') /\ contents buf' = tail /\
    map snd ld' = lines /\ P ld' st'.
Proof using Hgood Hline Htail Hbefore.
  intros HQ. revert n. induction HQ as [|[t d] segs Ht _ IH]; intros n todo ld buf st E HP B Hmax Hpar Hq.
  - cbn in Hq. rewrite app_nil_r in Hq. pose proof (partial_end _ _ Hpar Hq) as ->. exists buf, st, ld.
    rewrite app_nil_r in E. done.
  - rewrite total_cons in Hmax. pose proof (zlen_nonneg (concat (map snd segs))) as Hnn. unfold total_size in Hmax at 1.
    destruct (read_step n t d (concat (map snd segs)) todo ld buf st E Ht HP B ltac:(lia) Hq)
      as (b1 & b2 & st1 & ld1 & todo1 & Ea & Eo & B2 & E1 & HP1 & Hpar1 & Hq1).
    cbn [feed]. rewrite Ea. cbn [res_bind]. rewrite Eo. cbn [res_bind].
    apply (IH (n + zlen d) todo1 ld1); try done. unfold total_size. lia.
Qed.

(** The same with something done after each read, which does nothing while a
    line is missing or there is a tail. *)
Lemma feed_lines_after (after : St -> res St) n segs : Forall (fun s => Q s.1 /\ s.2 <> []) segs -> segs <> [] ->
  (forall ld st, P ld st -> (length ld < length lines)%nat \/ tail <> [] -> after st = Ok st) ->
  forall todo ld buf st, lines = map snd ld ++ todo -> P ld st ->
  bounded n buf -> n + total_size segs <= MAX_SIZE -> contents buf ++ concat (map snd segs) = wire todo ++ tail ->
  exists buf' st' ld', contents buf' = tail /\ map snd ld' = lines /\ P ld' st' /\
    feed (fun t buf st => let* (buf, st) := on t buf st in let* st := after st in Ok (buf, st)) segs buf st =
      (let* st := after st' in Ok (buf', st)).
Proof using Hgood Hline Htail Hbefore.
  intros HQ Hne Hafter. revert n Hne. induction HQ as [|[t d] segs [Ht Hd] HQ IH]; intros n Hne todo ld buf st E HP B Hmax Hq;
    [done|]. clear Hne. rewrite total_cons in Hmax. pose proof (zlen_nonneg (concat (map snd segs))) as Hnn. unfold total_size in Hmax at 1.
  destruct (read_step n t d (concat (map snd segs)) todo ld buf st E Ht HP B ltac:(lia) Hq)
    as (b1 & b2 & st1 & ld1 & todo1 & Ea & Eo & B2 & E1 & HP1 & Hpar1 & Hq1).
  cbn [feed]. rewrite Ea. cbn [res_bind]. rewrite Eo. cbn [res_bind]. destruct segs as [|[t2 d2] segs].
  - cbn in Hq1. rewrite app_nil_r in Hq1. pose proof (partial_end _ _ Hpar1 Hq1) as ->.
    rewrite app_nil_r in E1. exists b2, st1, ld1. split; [by rewrite Hq1|]. split; [done|]. split; [done|].
    by destruct (after st1).
  - rewrite (Hafter ld1 st1 HP1).
    + cbn [res_bind]. apply (IH (n + zlen d)) with (todo := todo1) (ld := ld1); try done. unfold total_size. lia.
    + destruct (decide (tail = [])) as [Hnil|]; [left|by right].
      rewrite E1, length_app, length_map. destruct todo1 as [|l todo1]; [|cbn; lia]. exfalso.
      apply Forall_cons in HQ as [[_ Hd2] _]. cbn [fst snd map concat] in *. rewrite Hnil in Hq1. cbn in Hq1.
      apply app_eq_nil in Hq1 as [_ Hq1]. by apply app_eq_nil in Hq1 as [? _].
Qed.
End feeding.

Lemma feed_ext {T St} (f g : T -> Buffer -> St -> res (Buffer * St)) segs buf st :
  (forall t b s, f t b s = g t b s) -> feed f segs buf st = feed g segs buf st.
Proof.
  intros E. revert buf st. induction segs as [|[t d] segs IH]; intros buf st; [done|]. cbn [feed].
  destruct (append buf d) as [b|]; [|done]. cbn [res_bind]. rewrite E. destruct (g t b st) as [[b' s']|]; [|done].
  apply IH.
Qed.

(** A whole stream into a new buffer. *)
Lemma feed_stream {T St} (on_line : T -> bytes -> St -> res (bool * St)) on_bad on_long before lines tail P Q segs st :
  Forall good_line lines -> zlen tail < kCells + 2 ->
  (forall ld t l more st, lines = map snd ld ++ l :: more -> Q t -> P ld st ->
     exists st', on_line t l st = Ok (true, st') /\ P (ld ++ [(t, l)]) st') ->
  (forall ld t st, P ld st -> exists st', before t st = Ok st' /\ P ld st') ->
  Forall (fun s => Q s.1) segs -> P [] st -> concat (map snd segs) = wire lines ++ tail ->
  total_size segs <= 2 ^ 62 ->
  exists buf' st' ld,
    feed (fun t buf st => let* st := before t st in lines_onMessage (on_line t) on_bad on_long buf st) segs
      (Buffer_new kInitialSize) st = Ok (buf', st') /\
    contents buf' = tail /\ map snd ld = lines /\ P ld st'.
Proof.
  intros Hg Htl Hl Hb HQ HP Hs Hmax.
  assert (B : bounded 1032 (Buffer_new kInitialSize)).
  { split; [apply Buffer_new_good; by vm_compute|by vm_compute]. }
  apply (feed_lines on_line on_bad on_long before lines tail P Q Hg Htl Hl Hb 1032 segs HQ lines []); try done.
  - unfold MAX_SIZE. lia.
  - destruct lines as [|l ls]; [by exists tail|]. exists (l ++ kCRLF). split; [done|]. by destruct l.
Qed.

(** ** Requests and their answers *)

Definition request_text (r : option bytes * bytes) : bytes :=
  match r.1 with Some id => id ++ COLON :: r.2 | None => r.2 end.

(** The colon that ends the id is the first one. *)
Definition clear_id (r : option bytes * bytes) : Prop :=
  match r.1 with Some id => COLON ∉ id | None => COLON ∉ r.2 end.

Lemma split_text r : clear_id r -> split_request (request_text r) = r.
Proof.
  intros H4. unfold split_request, request_text, clear_id in *. destruct r as [[id|] p]; cbn in *.
  - rewrite std_find_app by done. rewrite (proj2 (Nat.eqb_neq _ _)) by (rewrite length_app; cbn; lia).
    rewrite take_app_length. rewrite drop_app_ge by lia.
    replace (S (length id) - length id)%nat with 1%nat by lia. done.
  - rewrite std_find_none, Nat.eqb_refl by done. done.
Qed.

Lemma text_length r : zlen r.2 <= zlen (request_text r).
Proof.
  unfold request_text. destruct r as [[id|] p]; cbn; [|lia]. rewrite zlen_app, zlen_cons.
  pose proof (zlen_nonneg id). lia.
Qed.

Record valid_request (r : option bytes * bytes) : Prop := mkValid {
  vr_puzzle : zlen r.2 = kCells;
  vr_text : LF ∉ request_text r;
  vr_id : zlen (default [] r.1) <= 17;
  vr_colon : clear_id r;
}.

Lemma valid_good r : valid_request r -> good_line (request_text r).
Proof.
  intros [H1 H2 H3 H4]. split; [done|]. unfold request_text in *. destruct r as [[id|] p]; cbn in *;
    rewrite ?zlen_app, ?zlen_cons; unfold kCells in *; pose proof (zlen_nonneg p); [|lia].
  pose proof (zlen_nonneg id). lia.
Qed.

Definition answer_to (r : option bytes * bytes) (a : action) : Prop :=
  exists answer, answers r.2 answer /\ a = Send (answer_line (default [] r.1) answer).

Lemma texts_snoc reqs ls l more : map request_text reqs = ls ++ l :: more ->
  exists r1 r r2, reqs = r1 ++ r :: r2 /\ ls = map request_text r1 /\ l = request_text r.
Proof.
  intros E. apply map_eq_app in E as (r1 & r2 & -> & <- & E). destruct r2 as [|r r2]; [done|].
  injection E as <- _. by exists r1, r, r2.
Qed.

Lemma take_next (reqs r1 r2 : list (option bytes * bytes)) r : reqs = r1 ++ r :: r2 ->
  take (length r1) reqs = r1 /\ take (S (length r1)) reqs = r1 ++ [r].
Proof.
  intros ->. split; [apply take_app_length|].
  replace (S (length r1)) with (length (r1 ++ [r])) by (rewrite length_app; cbn; lia).
  change (r :: r2) with ([r] ++ r2). by rewrite app_assoc, take_app_length.
Qed.

(** The requests that the lines [ld] carried. *)
Definition served (reqs : list (option bytes * bytes)) {T} (ld : list (T * bytes)) := take (length ld) reqs.

Lemma served_step reqs {T} (ld : list (T * bytes)) t l more : map request_text reqs = map snd ld ++ l :: more ->
  exists r, r ∈ reqs /\ l = request_text r /\ served reqs (ld ++ [(t, l)]) = served reqs ld ++ [r].
Proof.
  intros E. destruct (texts_snoc _ _ _ _ E) as (r1 & r & r2 & Er & El & ->). exists r.
  split; [rewrite Er; apply elem_of_app; right; left|]. split; [done|]. unfold served.
  apply (f_equal length) in El. rewrite !length_map in El. rewrite length_app. cbn. rewrite El, Nat.add_1_r.
  destruct (take_next _ _ _ _ Er) as [-> ->]. done.
Qed.

Lemma served_all reqs {T} (ld : list (T * bytes)) : map snd ld = map request_text reqs -> served reqs ld = reqs.
Proof.
  intros E. unfold served. apply (f_equal length) in E. rewrite !length_map in E. by rewrite E, firstn_all.
Qed.

Lemma basic_request r s : zlen r.2 = kCells -> clear_id r ->
  exists a, answer_to r a /\ Basic.processRequest (request_text r) s = Ok (true, act [a] s).
Proof.
  intros Hp Hc. unfold Basic.processRequest. rewrite split_text by done.
  destruct r as [i p]. cbn [snd fst] in *. rewrite (proj2 (Z.eqb_eq _ _)) by done.
  destruct (solveSudoku_answers p Hp) as (a & -> & Ha). cbn [res_bind].
  eexists. split; [|reflexivity]. by exists a.
Qed.

(** The two servers without a pool are the same program. *)
Lemma multiloop_basic : Multiloop.onMessage = Basic.onMessage.
Proof. reflexivity. Qed.

Definition new_server : Server := mkServer [] [] SudokuStat_new 0.

(** A server without a pool, from a new connection: for any requests in the
    form [id:puzzle] or [puzzle], the id of at most 17 characters, in whatever
    pieces their lines arrive, the buffer ends empty and the answers are sent
    in the order of the requests, one each, with the id of the request: a
    solution of its puzzle if there is one, "NoSolution" if there is none. *)
Theorem server_answers_in_order (reqs : list (option bytes * bytes)) (reads : list bytes)
  (Hv : Forall valid_request reqs) (Hr : concat reads = wire (map request_text reqs))
  (Hl : zlen (concat reads) <= 2 ^ 62) :
  exists buf s, feed (fun _ => Basic.onMessage) (map (pair tt) reads) (Buffer_new kInitialSize) new_server =
      Ok (buf, s) /\
    contents buf = [] /\ Forall2 answer_to reqs (actions s).
Proof.
  destruct (feed_stream (fun _ : unit => Basic.processRequest) bad_request too_long (fun _ s => Ok s)
              (map request_text reqs) [] (fun ld s => Forall2 answer_to (served reqs ld) (actions s))
              (fun _ => True) (map (pair tt) reads) new_server) as (buf & s & ld & E & C & Eld & HP).
  - apply Forall_map. eapply Forall_impl; [exact Hv|]. apply valid_good.
  - done.
  - intros ld t l more s El _ HP. destruct (served_step reqs ld t l more El) as (r & Hin & -> & ->).
    rewrite Forall_forall in Hv. destruct (Hv r Hin). destruct (basic_request r s) as (a & Ha & ->); [done..|].
    eexists. split; [reflexivity|]. cbn. apply Forall2_app; [done|]. by constructor.
  - intros ld t s HP. by exists s.
  - by apply Forall_true.
  - done.
  - rewrite map_map, app_nil_r. cbn. by rewrite map_id.
  - unfold total_size. rewrite map_map. cbn. by rewrite map_id.
  - exists buf, s. split; [exact E|]. split; [done|]. by rewrite (served_all reqs ld Eld) in HP.
Qed.

Definition ex_easy_puzzle : bytes :=
  bs "530070000600195000098000060800060003400803001700020006060000280000419005000080079".
Definition ex_requests : list (option bytes * bytes) :=
  [(Some (bs "c0001-00000000"), ex_easy_puzzle); (None, ex_easy_puzzle)].
Definition ex_reads : list bytes :=
  let w := wire (map request_text ex_requests) in [take 90 w; take 8 (drop 90 w); drop 98 w].

Lemma server_answers_in_order_witness :
  exists buf s, feed (fun _ => Basic.onMessage) (map (pair tt) ex_reads) (Buffer_new kInitialSize) new_server =
      Ok (buf, s) /\
    contents buf = [] /\ Forall2 answer_to ex_requests (actions s).
Proof.
  apply (server_answers_in_order ex_requests ex_reads).
  - repeat constructor; try (apply (bool_decide_eq_true_1 _); by vm_compute); by vm_compute.
  - by vm_compute.
  - by vm_compute.
Defined.

(** ** The server with a pool and statistics *)

Lemma recordResponse_requests now receive b s s' : recordResponse now receive b s = Ok s' ->
  totalRequests_ s' = totalRequests_ s.
Proof.
  unfold recordResponse. intros H. inv_ok.
  repeat (match type of H with
          | (if ?c then _ else _) = _ => destruct c
          | (let '(_, _) := ?p in _) = _ => destruct p
          end; inv_ok); by subst.
Qed.

Lemma latency_bound (h : list response) D : 0 <= D -> Forall (fun x => x.1.1 - x.1.2 <= D) h ->
  sum (map snd (Stat.good h)) <= D * zlen h.
Proof.
  intros HD. unfold Stat.good. induction 1 as [|[[now rec] b] h Hx _ IH]; [cbn; change (zlen []) with 0; lia|].
  rewrite zlen_cons. cbn in *. destruct (_ <? _); cbn; unfold sum in *; lia.
Qed.

Lemma answers_solved p a : answers p a ->
  negb (bytes_eqb a kNoSolution) = true <-> exists g, solution (map digit p) g.
Proof.
  rewrite negb_true_iff, bytes_eqb_false. intros [(g & Hg & ->)|[Hno ->]].
  - split; [intros _; by exists g|]. intros _ E. apply (f_equal zlen) in E.
    unfold print_board, zlen in E. rewrite length_map in E. destruct Hg as [Hg _]. unfold zlen in Hg.
    rewrite Hg in E. done.
  - split; [done|]. intros [g Hg]. by apply Hno in Hg.
Qed.

Section hybrid_proof.
Context (clock : nat -> Timestamp) (numThreads T0 : Z).
Definition span : Z := 2 ^ 40.
Definition in_span (t : Timestamp) : Prop := T0 <= t <= T0 + span.
Hypothesis HT0 : kMicroSecondsPerSecond <= T0 < 2 ^ 60.
Hypothesis Hclock : forall k, in_span (clock k).

Definition answered (r : Request) (a : action) : Prop :=
  exists answer, answers (puzzle r) answer /\ a = Send (answer_line (id r) answer).
Definition solved (r : Request) (x : response) : Prop :=
  x.2 = true <-> exists g, solution (map digit (puzzle r)) g.
Definition same_request (r : Request) : bytes * bytes := (id r, puzzle r).
Definition of_text (r : option bytes * bytes) : bytes * bytes := (default [] r.1, r.2).

(** [reqs]: the requests so far; [n]: how many there are at most. *)
Record pool_inv (n : Z) (reqs : list (option bytes * bytes)) (done_ : list Request) (h : list response) (s : Server)
  : Prop := mkPoolInv {
  pi_all : map same_request (done_ ++ tasks s) ≡ₚ map of_text reqs;
  pi_answers : Forall2 answered done_ (actions s);
  pi_solved : Forall2 solved done_ h;
  pi_tasks : Forall (fun r => zlen (puzzle r) = kCells /\ in_span (receiveTime r)) (tasks s);
  pi_stat : stat_ok h (stat_ s);
  pi_span : Forall (fun x => x.1.1 - x.1.2 <= span) h;
  pi_count : totalRequests_ (stat_ s) = zlen reqs;
  pi_few : zlen reqs <= n;
}.

Lemma pool_count n reqs done_ h s : pool_inv n reqs done_ h s ->
  zlen h + zlen (tasks s) = zlen reqs /\ zlen h = zlen done_.
Proof.
  intros [P1 _ P3 _ _ _ _ _]. apply Forall2_length in P3. apply Permutation_length in P1.
  rewrite !length_map, length_app in P1. unfold zlen. lia.
Qed.

#[local] Set Default Proof Using "Type + HT0 + Hclock".

Lemma hybrid_solve n reqs done_ h s r l : n <= 2 ^ 22 -> pool_inv n reqs done_ h s -> tasks s ≡ₚ r :: l ->
  exists s' x, Hybrid.solve clock r (set_tasks l s) = Ok s' /\ pool_inv n reqs (done_ ++ [r]) (h ++ [x]) s'.
Proof.
  intros Hn I P. destruct (pool_count _ _ _ _ _ I) as [Hc Hd]. pose proof I as [P1 P2 P3 P4 P5 P6 P7 P8].
  rewrite P in P4. apply Forall_cons in P4 as [[Hp Ht] P4].
  destruct (solveSudoku_answers (puzzle r) Hp) as (ans & Es & Ha).
  unfold Hybrid.solve. rewrite Es. cbn [res_bind]. cbv zeta. cbn [readings set_tasks act stat_ read_clock].
  set (now := clock (readings s)). set (b := negb (bytes_eqb ans kNoSolution)).
  pose proof (Hclock (readings s)) as Hnow. fold now in Hnow. unfold in_span, span in *.
  assert (Hz : zlen (tasks s) = zlen l + 1) by (unfold zlen; rewrite P; cbn; lia).
  pose proof (zlen_nonneg l).
  assert (Hspan : Forall (fun x => x.1.1 - x.1.2 <= 2 ^ 40) (h ++ [(now, receiveTime r, b)])).
  { apply Forall_app. split; [done|]. constructor; [cbn; lia|constructor]. }
  destruct (recordResponse_ok h (stat_ s) now (receiveTime r) b P5) as (st & E & Ok').
  - split; cbn.
    + unfold secondsSinceEpoch. enough (1 <= now ÷ kMicroSecondsPerSecond) by lia.
      apply Z.quot_le_lower_bound; unfold kMicroSecondsPerSecond in *; lia.
    + lia.
  - lia.
  - pose proof (latency_bound _ (2 ^ 40) ltac:(lia) Hspan) as Hb. rewrite zlen_app in Hb.
    change (zlen [(now, receiveTime r, b)]) with 1 in Hb. lia.
  - rewrite E. cbn [res_bind]. eexists _, _. split; [reflexivity|].
    constructor; cbn; try done.
    + rewrite <-P1, P, <-app_assoc. done.
    + apply Forall2_app; [done|]. constructor; [by exists ans|constructor].
    + apply Forall2_app; [done|]. constructor; [|constructor]. by apply answers_solved.
    + by rewrite (recordResponse_requests _ _ _ _ _ E).
Qed.

Lemma hybrid_workers n reqs done_ h s ws : n <= 2 ^ 22 -> pool_inv n reqs done_ h s ->
  exists s' done' h', res_foldl (fun s i => run_task (Hybrid.solve clock) i s) s ws = Ok s' /\
    pool_inv n reqs done' h' s'.
Proof.
  intros Hn. revert done_ h s. induction ws as [|i ws IH]; intros done_ h s I; [by exists s, done_, h|].
  cbn [res_foldl]. unfold run_task at 1. destruct (tasks s !! i) as [r|] eqn:E; [|by eapply IH].
  destruct (hybrid_solve n reqs done_ h s r (delete i (tasks s)) Hn I) as (s' & x & -> & I').
  { by apply delete_Permutation. }
  by eapply IH.
Qed.

Lemma hybrid_request n reqs done_ h s r t : n <= 2 ^ 22 -> zlen reqs + 1 <= n -> 0 <= numThreads ->
  pool_inv n reqs done_ h s -> valid_request r -> (1 < numThreads -> r.1 <> None) -> in_span t ->
  exists s' done' h', (let* st := recordRequest (stat_ s) in
      Hybrid.processRequest clock numThreads t (request_text r) (set_stat st s)) = Ok (true, s') /\
    pool_inv n (reqs ++ [r]) done' h' s'.
Proof.
  intros Hn Hlen Hth I V Hid Ht. pose proof I as [P1 P2 P3 P4 P5 P6 P7 P8]. unfold recordRequest.
  pose proof (zlen_nonneg reqs). rewrite P7, int64_small by lia. cbn [res_bind].
  set (st := mkStat _ _ _ _ _ _ _ _ _ _). unfold Hybrid.processRequest. rewrite split_text by apply V.
  set (q := mkRequest (default [] r.1) r.2 t). pose proof (vr_puzzle r V) as Hp.
  assert (I1 : pool_inv n (reqs ++ [r]) done_ h (set_tasks (tasks s ++ [q]) (set_stat st s))).
  { constructor; cbn; try done.
    - rewrite app_assoc, !map_app. cbn. rewrite <-map_app, P1. done.
    - apply Forall_app. split; [done|]. by apply Forall_singleton.
    - destruct P5. by constructor.
    - by rewrite zlen_app.
    - by rewrite zlen_app. }
  assert (R : exists s' done' h', Hybrid.run_request clock numThreads q (set_stat st s) = Ok (true, s') /\
                pool_inv n (reqs ++ [r]) done' h' s').
  { unfold Hybrid.run_request. cbn [puzzle q]. rewrite Hp. change (kCells =? kCells) with true. cbv iota.
    unfold pool_run. destruct (numThreads =? 0).
    - destruct (hybrid_solve n (reqs ++ [r]) done_ h _ q (tasks s) Hn I1) as (s' & x & E & I').
      { cbn. by rewrite <-Permutation_cons_append. }
      exists s', (done_ ++ [q]), (h ++ [x]). split; [|done].
      replace (set_tasks (tasks s) _) with (set_stat st s) in E by (by destruct s). by rewrite E.
    - eexists _, done_, h. split; [reflexivity|]. exact I1. }
  destruct r as [[i|] p]; cbn [fst snd default] in *; [exact R|].
  destruct (Z.ltb_spec 1 numThreads); [by destruct Hid|exact R].
Qed.
End hybrid_proof.

(** A read of the server: before it, workers run the tasks at the positions of
    the list; the time of the read. *)
Definition hybrid_read (clock : nat -> Timestamp) (numThreads : Z) (t : list nat * Timestamp) (buf : Buffer)
  (s : Server) : res (Buffer * Server) :=
  let* s := res_foldl (fun s i => run_task (Hybrid.solve clock) i s) s t.1 in
  Hybrid.onMessage clock numThreads t.2 buf s.


(** C12: The server with a pool of any number of threads, none included, and its
    statistics, from a new connection: for up to four million requests, in
    whatever pieces their lines arrive, whichever tasks the workers take
    between the reads, and whatever the clock says within a span of twelve
    days: no assertion fails and no counter overflows; each request is
    answered at most once, in any order, and waits in the pool otherwise; every
    answer is right; and the statistics count the requests, the answers and
    the puzzles solved among them. *)
Theorem hybrid_answers_each (clock : nat -> Timestamp) (numThreads T0 : Z)
  (reqs : list (option bytes * bytes)) (reads : list ((list nat * Timestamp) * bytes))
  (HT0 : kMicroSecondsPerSecond <= T0 < 2 ^ 60) (Hclock : forall k, T0 <= clock k <= T0 + span)
  (Hth : 0 <= numThreads) (Hv : Forall valid_request reqs)
  (Hid : 1 < numThreads -> Forall (fun r => r.1 <> None) reqs) (Hn : zlen reqs <= 2 ^ 22)
  (Ht : Forall (fun x => T0 <= x.1.2 <= T0 + span) reads)
  (Hr : concat (map snd reads) = wire (map request_text reqs)) (Hl : zlen (wire (map request_text reqs)) <= 2 ^ 62) :
  exists buf s done_ h,
    feed (hybrid_read clock numThreads) reads (Buffer_new kInitialSize) new_server = Ok (buf, s) /\
    contents buf = [] /\
    map same_request (done_ ++ tasks s) ≡ₚ map of_text reqs /\
    Forall2 answered done_ (actions s) /\
    Forall2 solved done_ h /\
    totalRequests_ (stat_ s) = zlen reqs /\ totalResponses_ (stat_ s) = zlen done_ /\
    totalSolved_ (stat_ s) = solved_in h.
Proof.
  destruct (feed_stream
    (fun (t : list nat * Timestamp) l s =>
       let* st := recordRequest (stat_ s) in Hybrid.processRequest clock numThreads t.2 l (set_stat st s))
    (fun s => let* s := bad_request s in Hybrid.count_bad s) (fun s => let* s := too_long s in Hybrid.count_bad s)
    (fun t s => res_foldl (fun s i => run_task (Hybrid.solve clock) i s) s t.1)
    (map request_text reqs) []
    (fun ld s => exists done_ h, pool_inv T0 (2 ^ 22) (served reqs ld) done_ h s)
    (fun t => T0 <= t.2 <= T0 + span) reads new_server) as (buf & s & ld & E & C & Eld & done_ & h & HP).
  - apply Forall_map. eapply Forall_impl; [exact Hv|]. apply valid_good.
  - done.
  - intros ld t l more s El Hq (done_ & h & HP). destruct (served_step reqs ld t l more El) as (r & Hin & -> & Es).
    rewrite Forall_forall in Hv. rewrite Es.
    destruct (hybrid_request clock numThreads T0 HT0 Hclock (2 ^ 22) (served reqs ld) done_ h s r t.2)
      as (s' & d' & h' & -> & HP'); try done; [| | |by exists s'; split; [|exists d', h']].
    + rewrite <-(take_drop (length (ld ++ [(t, request_text r)])) reqs) in Hn. fold (served reqs (ld ++ [(t, request_text r)])) in Hn.
      rewrite zlen_app, Es, zlen_app in Hn. change (zlen [r]) with 1 in Hn.
      pose proof (zlen_nonneg (drop (length (ld ++ [(t, request_text r)])) reqs)). lia.
    + by apply Hv.
    + intros H1. specialize (Hid H1). rewrite Forall_forall in Hid. by apply Hid.
  - intros ld t s (done_ & h & HP).
    destruct (hybrid_workers clock T0 HT0 Hclock (2 ^ 22) (served reqs ld) done_ h s t.1) as (s' & d' & h' & -> & HP');
      [done|done|]. exists s'. split; [done|]. by exists d', h'.
  - exact Ht.
  - exists [], []. constructor; try done; cbn; solve [apply stat_new_ok|constructor].
  - by rewrite app_nil_r.
  - unfold total_size. by rewrite Hr.
  - rewrite (served_all reqs ld Eld) in HP. exists buf, s, done_, h. split; [exact E|]. split; [done|].
    destruct (pool_count _ _ _ _ _ _ HP) as [_ Hc]. destruct HP as [P1 P2 P3 P4 P5 P6 P7 P8].
    destruct (ok_totals h (stat_ s) P5) as (T1 & T2 & _). rewrite T1, T2. split_and!; try done.
Qed.

Definition ex_hybrid_reads : list ((list nat * Timestamp) * bytes) :=
  let w := wire (map request_text [(Some (bs "a"), ex_easy_puzzle); (Some (bs "b"), ex_easy_puzzle)]) in
  [(([], 2000000), take 100 w); (([0%nat], 2000007), drop 100 w)].

Lemma hybrid_answers_each_witness :
  exists buf s done_ h,
    feed (hybrid_read (fun k => 2000000 + Z.of_nat (k mod 2)) 4) ex_hybrid_reads (Buffer_new kInitialSize) new_server =
      Ok (buf, s) /\
    contents buf = [] /\
    map same_request (done_ ++ tasks s) ≡ₚ [(bs "a", ex_easy_puzzle); (bs "b", ex_easy_puzzle)] /\
    Forall2 answered done_ (actions s) /\ Forall2 solved done_ h /\
    totalRequests_ (stat_ s) = 2 /\ totalResponses_ (stat_ s) = zlen done_ /\ totalSolved_ (stat_ s) = solved_in h.
Proof.
  apply (hybrid_answers_each (fun k => 2000000 + Z.of_nat (k mod 2)) 4 2000000
           [(Some (bs "a"), ex_easy_puzzle); (Some (bs "b"), ex_easy_puzzle)] ex_hybrid_reads).
  - by vm_compute.
  - intros k. pose proof (Nat.mod_upper_bound k 2). unfold span. lia.
  - done.
  - repeat constructor; try (apply (bool_decide_eq_true_1 _); by vm_compute); by vm_compute.
  - intros _. by repeat constructor.
  - by vm_compute.
  - repeat constructor; by vm_compute.
  - by vm_compute.
  - by vm_compute.
Defined.

(** The limit on the id is a limit on what has arrived: a line of more than a
    hundred characters is answered when one read brings it, and turned away
    when a read brings a hundred and one of them first. *)
Theorem long_id_depends_on_reads (r : option bytes * bytes) (k : nat) (s : Server)
  (Hp : zlen r.2 = kCells) (Ht : LF ∉ request_text r)
  (Hc : clear_id r) (Hk : (100 < k < length (wire [request_text r]))%nat) :
  (exists a, answer_to r a /\
     drain_all Basic.processRequest bad_request too_long (wire [request_text r]) s = Ok ([], act [a] s)) /\
  drain_all Basic.processRequest bad_request too_long (take k (wire [request_text r])) s =
    Ok (take k (wire [request_text r]), act [Send (bs "Id too long!" ++ kCRLF); Shutdown] s).
Proof.
  split.
  - destruct (basic_request r s Hp Hc) as (a & Ha & E). exists a. split; [done|].
    change (wire [request_text r]) with ((request_text r ++ kCRLF) ++ []).
    rewrite (drain_turn _ _ _ _ [] s (act [a] s)); [done|done| |done].
    pose proof (text_length r). lia.
  - unfold wire in *. cbn [map concat] in *. rewrite app_nil_r in *. set (w := request_text r ++ kCRLF) in *.
    assert (Hl : length (take k w) = k) by (rewrite length_take; lia).
    unfold drain_all. cbn [drain].
    rewrite (no_line (request_text r) (take k w) (drop k w)), Nat.eqb_refl; [|done|apply take_drop|].
    + unfold zlen. rewrite Hl, !(proj2 (Z.leb_le _ _)), (proj2 (Z.ltb_lt _ _)) by (unfold kCells; lia). done.
    + intros E. apply (f_equal length) in E. rewrite length_drop in E. cbn in E. lia.
Qed.

Definition ex_long : option bytes * bytes := (Some (bs "an-id-of-twenty-four-c"), ex_easy_puzzle).

Lemma long_id_depends_on_reads_witness :
  (exists a, answer_to ex_long a /\
     drain_all Basic.processRequest bad_request too_long (wire [request_text ex_long]) new_server =
       Ok ([], act [a] new_server)) /\
  drain_all Basic.processRequest bad_request too_long (take 101 (wire [request_text ex_long])) new_server =
    Ok (take 101 (wire [request_text ex_long]), act [Send (bs "Id too long!" ++ kCRLF); Shutdown] new_server).
Proof.
  apply (long_id_depends_on_reads ex_long 101 new_server).
  - by vm_compute.
  - apply (bool_decide_eq_true_1 _). by vm_compute.
  - apply (bool_decide_eq_true_1 _). by vm_compute.
  - split; [lia|]. apply (bool_decide_eq_true_1 _). by vm_compute.
Defined.
