(* ===== verification/SudokuClient.v ===== *)
(** * The clients of the sudoku servers (examples/sudoku/batch.cc, loadtest.cc)

    The batch client sends all its puzzles at once and counts the answers; the
    load test sends numbered requests at a given rate and matches the answers
    by their number.  Both read their answers with the loop of the servers. *)

From stdpp Require Import gmap.
From S2P Require Import Prelude Cstd Date Timestamp LogStream Stat Sudoku SudokuSolve Buffer SudokuServer.

(** [getline] until the end of the stream: a last line that is not ended counts,
    unless it is empty. *)
Fixpoint getlines (cur l : bytes) : list bytes :=
  match l with
  | [] => match cur with [] => [] | _ => [cur] end
  | c :: l => if bool_decide (c = LF) then cur :: getlines [] l else getlines (cur ++ [c]) l
  end.

Definition readInput (file : bytes) : list bytes :=
  map cstr (filter (fun line => zlen line = kCells) (getlines [] file)).

(** ** batch.cc *)

Module Batch.
Definition verify (result : bytes) : bool := true.

(** [runLocal]: how many puzzles were solved, and how many succeeded. *)
Definition run_line (n : Z * Z) (line : bytes) : res (Z * Z) :=
  if zlen line =? kCells then
    let* answer := solveSudoku line in
    let* count := int_ (n.1 + 1) in
    let* succeed := (if verify answer then int_ (n.2 + 1) else Ok n.2) in
    Ok (count, succeed)
  else Ok n.
Definition runLocal (file : bytes) : res (Z * Z) := res_foldl run_line (0, 0) (getlines [] file).

(** [actions]: the calls on the connection; [finished]: the counts with which
    [cb_] was called. *)
Record SudokuClient := mkClient {
  input_ : list bytes;
  count_ : Z;
  actions : list action;
  finished : list Z;
}.
Definition SudokuClient_new (input : list bytes) : SudokuClient := mkClient input 0 [] [].
Definition act (l : list action) (c : SudokuClient) : SudokuClient :=
  mkClient (input_ c) (count_ c) (actions c ++ l) (finished c).
Definition set_count (n : Z) (c : SudokuClient) : SudokuClient :=
  mkClient (input_ c) n (actions c) (finished c).
Definition finish (c : SudokuClient) : SudokuClient :=
  mkClient (input_ c) (count_ c) (actions c) (finished c ++ [count_ c]).

(** [onConnection]: the requests from the [i]-th on. *)
Fixpoint send_requests (i : Z) (input : list bytes) (c : SudokuClient) : res SudokuClient :=
  match input with
  | [] => Ok c
  | p :: input =>
      let* buf := stream_all [IInt (i + 1); ICString (Some (bs ":")); IString p; ICString (Some kCRLF)]
                    (FixedBuffer_new kSmallBuffer) in
      send_requests (i + 1) input (act [Send (toString buf)] c)
  end.
Definition onConnection (connected : bool) (c : SudokuClient) : res SudokuClient :=
  if connected then send_requests 0 (input_ c) c else Ok c.

Definition on_response (response : bytes) (c : SudokuClient) : res (bool * SudokuClient) :=
  let* n := int_ (count_ c + 1) in Ok (verify response, set_count n c).
Definition abandon (c : SudokuClient) : res SudokuClient := Ok (act [Shutdown] c).

Definition onMessage (buf : Buffer) (c : SudokuClient) : res (Buffer * SudokuClient) :=
  let* (buf, c) := lines_onMessage on_response abandon abandon buf c in
  if count_ c =? s32 (zlen (input_ c)) then Ok (buf, act [Shutdown] (finish c)) else Ok (buf, c).

(** [done]: the clients finished so far, and whether the loop is to quit. *)
Definition done (connections : Z) (g_finished : Z) : res (Z * bool) :=
  let* n := int_ (g_finished + 1) in Ok (n, n =? connections).
End Batch.

(** ** loadtest.cc *)

Module Loadtest.
Record SudokuClient := mkClient {
  name_ : bytes;
  conn_ : bool;
  requests_ : Buffer;
  input_ : list bytes;
  count_ : Z;
  sendTime_ : gmap Z Timestamp;
  latencies_ : list Z;
  actions : list action;
}.
Definition SudokuClient_new (input : list bytes) (name : bytes) : SudokuClient :=
  mkClient name false (Buffer_new kInitialSize) input 0 ∅ [] [].

Definition act (l : list action) (c : SudokuClient) : SudokuClient :=
  mkClient (name_ c) (conn_ c) (requests_ c) (input_ c) (count_ c) (sendTime_ c) (latencies_ c) (actions c ++ l).
Definition set_requests (b : Buffer) (c : SudokuClient) : SudokuClient :=
  mkClient (name_ c) (conn_ c) b (input_ c) (count_ c) (sendTime_ c) (latencies_ c) (actions c).
Definition set_conn (b : bool) (c : SudokuClient) : SudokuClient :=
  mkClient (name_ c) b (requests_ c) (input_ c) (count_ c) (sendTime_ c) (latencies_ c) (actions c).
Definition sent (n : Z) (m : gmap Z Timestamp) (c : SudokuClient) : SudokuClient :=
  mkClient (name_ c) (conn_ c) (requests_ c) (input_ c) n m (latencies_ c) (actions c).
Definition received (m : gmap Z Timestamp) (l : list Z) (c : SudokuClient) : SudokuClient :=
  mkClient (name_ c) (conn_ c) (requests_ c) (input_ c) (count_ c) m l (actions c).

Definition onConnection (connected : bool) (c : SudokuClient) : SudokuClient := set_conn connected c.

(** The text of a request: ["%s-%08d:%s\r\n"], in a buffer of 256 bytes from which
    as many are copied as the text has. *)
Definition request (name : bytes) (count : Z) (req : bytes) : bytes :=
  cstr name ++ bs "-" ++ fmt_0wd 8 count ++ bs ":" ++ cstr req ++ kCRLF.

(** The loop of [send]; an empty input divides by zero. *)
Fixpoint send_loop (n : nat) (now : Timestamp) (c : SudokuClient) : res SudokuClient :=
  match n with
  | O => Ok c
  | S n =>
      match input_ c with
      | [] => Err EUndefined
      | _ =>
          let req := default [] (input_ c !! Z.to_nat (u64 (count_ c) mod zlen (input_ c))) in
          let text := request (name_ c) (count_ c) req in
          if 256 <? zlen text then Err EUndefined else
          let* b := append (requests_ c) (ztake (zlen text) (snprintf 256 text ++ [x00])) in
          let c := set_requests b c in
          let* next := int_ (count_ c + 1) in
          send_loop n now (sent next (<[count_ c := now]> (sendTime_ c)) c)
      end
  end.

(** [conn_->send(&reqeusts_)], on the loop's thread, takes what the buffer holds. *)
Definition send (n : Z) (now : Timestamp) (c : SudokuClient) : res SudokuClient :=
  assert! 0 <? n;
  if conn_ c then
    let* c := send_loop (Z.to_nat n) now c in
    let* (data, b) := retrieveAllAsString (requests_ c) in
    Ok (act [Send data] (set_requests b c))
  else Ok c.

(** [report]: what it adds to the latencies and to the requests under way. *)
Definition report (c : SudokuClient) : list Z * Z * SudokuClient :=
  (latencies_ c, Z.of_nat (base.size (sendTime_ c)), received (sendTime_ c) [] c).

(** [int id = atoi(...)], after the dash before the first colon. *)
Definition verify (response : bytes) (recvTime : Timestamp) (c : SudokuClient) : res (bool * SudokuClient) :=
  let colon := std_find COLON response in
  let dash := std_find x2d response in
  if (colon <? length response)%nat && (dash <? length response)%nat && (dash <? colon)%nat then
    match atoi (drop (S dash) response) with
    | None => Err EUndefined
    | Some id =>
        match sendTime_ c !! id with
        | Some t =>
            let* latency_us := int64_ (recvTime - t) in
            Ok (true, received (delete id (sendTime_ c)) (latencies_ c ++ [s32 latency_us]) c)
        | None => Ok (true, c)
        end
    end
  else Ok (true, c).

Definition abandon (c : SudokuClient) : res SudokuClient := Ok (act [Shutdown] c).
Definition onMessage (recvTime : Timestamp) (buf : Buffer) (c : SudokuClient) : res (Buffer * SudokuClient) :=
  lines_onMessage (fun response => verify response recvTime) abandon abandon buf c.

(** [tick]: how many requests each client is to send now. *)
Definition kHz : Z := 100.
Record SudokuLoadtest := mkTest { ticks_ : Z; sofar_ : Z }.
Definition tick (rps : Z) (t : SudokuLoadtest) : res (Z * SudokuLoadtest) :=
  let* ticks := int64_ (ticks_ t + 1) in
  let* product := int64_ (rps * ticks) in
  let* reqs := int64_ (product ÷ kHz - sofar_ t) in
  let* sofar := int64_ (sofar_ t + reqs) in
  Ok (if 0 <? reqs then s32 reqs else 0, mkTest ticks sofar).
End Loadtest.

(** ** The batch client *)

(** The lines it sends. *)
Definition numbered (i : Z) (input : list bytes) : list (option bytes * bytes) :=
  imap (fun k p => (Some (fmt_d (i + 1 + Z.of_nat k)), p)) input.

(** The bytes of the calls of [send]. *)
Definition sent_bytes (l : list action) : bytes :=
  concat (map (fun a => match a with Send d => d | Shutdown => [] end) l).

Lemma sent_app l1 l2 : sent_bytes (l1 ++ l2) = sent_bytes l1 ++ sent_bytes l2.
Proof. unfold sent_bytes. by rewrite map_app, concat_app. Qed.

Lemma numbered_cons i p input : numbered i (p :: input) = (Some (fmt_d (i + 1)), p) :: numbered (i + 1) input.
Proof.
  unfold numbered. cbn. rewrite Z.add_0_r. f_equal. apply imap_ext. intros k x _. cbn. do 2 f_equal. f_equal. lia.
Qed.

Definition puzzle_text (p : bytes) : Prop := zlen p = kCells /\ LF ∉ p.

Lemma send_requests_ok input i c : 0 <= i -> i + zlen input < 10 ^ 17 -> Forall puzzle_text input ->
  exists l, Batch.send_requests i input c = Ok (Batch.act l c) /\
    sent_bytes l = wire (map request_text (numbered i input)).
Proof.
  intros Hi Hl F. revert i c Hi Hl. induction F as [|p input [Hp _] _ IH]; intros i c Hi Hl.
  - exists []. split; [|done]. destruct c. cbn. unfold Batch.act. cbn. by rewrite app_nil_r.
  - rewrite zlen_cons in Hl. pose proof (zlen_nonneg input). cbn [Batch.send_requests].
    set (items := [_; _; _; _]).
    assert (E : concat (map text items) = request_text (Some (fmt_d (i + 1)), p) ++ kCRLF).
    { unfold request_text. cbn. by rewrite app_nil_r, <-!app_assoc. }
    assert (Hd : zlen (fmt_d (i + 1)) <= 17).
    { unfold fmt_d. rewrite (proj2 (Z.ltb_ge _ _)) by lia. by apply (fmt_u_length _ 17); lia. }
    destruct (stream_short items) as (b & Es & Et).
    + repeat constructor; cbn; try lia. 
    + rewrite E. unfold request_text. cbn. rewrite !zlen_app, zlen_cons. change (zlen kCRLF) with 2.
      unfold kCells, kSmallBuffer in *. lia.
    + rewrite Es. cbn [res_bind]. rewrite Et. destruct (IH (i + 1) (Batch.act [Send (concat (map text items))] c)) as (l & -> & El); [lia..|].
      exists (Send (concat (map text items)) :: l). split.
      * unfold Batch.act. cbn. by rewrite <-app_assoc.
      * rewrite numbered_cons. cbn [map]. change (wire (request_text ?r :: ?rs)) with ((request_text r ++ kCRLF) ++ wire rs).
        by rewrite <-E, <-El.
Qed.

Definition solvable (p : bytes) : Prop := exists g, solution (map digit p) g.

Lemma numbered_id i input r : 0 <= i -> i + zlen input < 10 ^ 17 -> r ∈ numbered i input ->
  exists n, r.1 = Some (fmt_u n) /\ 0 < n <= i + zlen input /\ 1 <= zlen (fmt_u n) <= 17 /\ r.2 ∈ input.
Proof.
  revert i. induction input as [|p input IH]; intros i Hi Hl; [intros Hin; by apply not_elem_of_nil in Hin|].
  rewrite numbered_cons, elem_of_cons. rewrite zlen_cons in *. pose proof (zlen_nonneg input).
  intros [->|Hin].
  - exists (i + 1). cbn [fst snd]. unfold fmt_d. rewrite (proj2 (Z.ltb_ge _ _)) by lia. split; [done|]. split; [lia|].
    split; [|left]. split; [apply fmt_u_nonempty|apply (fmt_u_length _ 17); lia].
  - destruct (IH (i + 1) ltac:(lia) ltac:(lia) Hin) as (n & E & Hn & Hd & Hp). exists n.
    split; [done|]. split; [lia|]. split; [done|by right].
Qed.

Lemma board_digits g : Forall (fun v => 0 <= v <= 9) g -> LF ∉ print_board g.
Proof.
  unfold print_board. intros F Hin. apply list_elem_of_fmap in Hin as (v & E & Hv).
  rewrite Forall_forall in F. specialize (F v Hv). apply (f_equal byte_Z) in E.
  rewrite byte_Z_byte, Z.mod_small in E by lia. change (byte_Z LF) with 10 in E. lia.
Qed.

(** A numbered request's answer, as a line of the client. *)
Lemma answer_to_line input i r a : 0 <= i -> i + zlen input < 10 ^ 17 -> r ∈ numbered i input -> answer_to r a ->
  exists line, a = Send (line ++ kCRLF) /\ LF ∉ line /\
    (solvable r.2 -> good_line line) /\ (~ solvable r.2 -> zlen line <= 28).
Proof.
  intros Hi Hl Hin (ans & Ha & ->). destruct (numbered_id i input r Hi Hl Hin) as (n & -> & Hn & Hd & Hp).
  cbn [default]. exists (fmt_u n ++ COLON :: ans).
  assert (Hlf : LF ∉ fmt_u n).
  { intros Hx. pose proof (fmt_u_digits n ltac:(lia)) as F. rewrite Forall_forall in F. by apply F in Hx. }
  assert (Hans : LF ∉ ans).
  { destruct Ha as [(g & Hg & ->)|[_ ->]]; [|apply (bool_decide_eq_true_1 _); by vm_compute].
    apply board_digits. eapply Forall_impl; [exact (solution_digits _ _ Hg)|]. cbn. lia. }
  assert (Hline : LF ∉ fmt_u n ++ COLON :: ans).
  { rewrite elem_of_app, elem_of_cons. intros [?|[?|?]]; done. }
  split; [|split; [done|]].
  - unfold answer_line. destruct (fmt_u n) as [|c s] eqn:E; [by destruct Hd|]. by rewrite <-app_assoc.
  - rewrite zlen_app, zlen_cons. split.
    + intros Hs. split; [done|]. rewrite zlen_app, zlen_cons. destruct Ha as [(g & [Lg _] & ->)|[Hno _]].
      * unfold print_board. replace (zlen (map _ g)) with (zlen g) by (unfold zlen; by rewrite length_map).
        unfold kCells in *. lia.
      * destruct Hs as [g Hg]. by destruct (Hno g).
    + intros Hs. destruct Ha as [(g & Hg & _)|[_ ->]]; [destruct Hs; by exists g|].
      change (zlen kNoSolution) with 10. lia.
Qed.

Lemma answers_to_lines input i reqs acts : 0 <= i -> i + zlen input < 10 ^ 17 ->
  (forall r, r ∈ reqs -> r ∈ numbered i input) -> Forall2 answer_to reqs acts ->
  Forall (fun r => solvable r.2) reqs ->
  exists lines, sent_bytes acts = wire lines /\ Forall good_line lines /\ length lines = length reqs.
Proof.
  intros Hi Hl Hin F. induction F as [|r a reqs acts Hra _ IH]; intros Hs; [by exists []|].
  apply Forall_cons in Hs as [Hs1 Hs2].
  destruct IH as (lines & E & G & L); [intros r' Hr'; apply Hin; by right|done|].
  destruct (answer_to_line input i r a Hi Hl) as (line & -> & _ & Hgood & _); [apply Hin; left|done|].
  exists (line :: lines). split; [|split; [constructor; auto|cbn; by rewrite L]].
  rewrite wire_cons, <-E. done.
Qed.

Lemma numbered_valid i input : 0 <= i -> i + zlen input < 10 ^ 17 -> Forall puzzle_text input ->
  Forall valid_request (numbered i input).
Proof.
  intros Hi Hl F. apply Forall_forall. intros r Hin.
  destruct (numbered_id i input r Hi Hl Hin) as (n & E & Hn & Hd & Hp). rewrite Forall_forall in F.
  destruct (F _ Hp) as [Hz Hlf]. pose proof (fmt_u_digits n ltac:(lia)) as Fd. rewrite Forall_forall in Fd.
  constructor; [done| | |].
  - unfold request_text. rewrite E, elem_of_app, elem_of_cons. intros [Hx|[Hx|Hx]]; [by apply Fd in Hx|done|done].
  - rewrite E. change (zlen (fmt_u n) <= 17). lia.
  - unfold clear_id. rewrite E. intros Hx. by apply Fd in Hx.
Qed.

Lemma numbered_solvable i input : Forall solvable input -> Forall (fun r => solvable r.2) (numbered i input).
Proof.
  intros F. revert i. induction F as [|p input Hp _ IH]; intros i; [constructor|].
  rewrite numbered_cons. by constructor.
Qed.
Lemma numbered_length i input : length (numbered i input) = length input.
Proof. unfold numbered. apply length_imap. Qed.

Lemma new_buffer_bounded : bounded 1032 (Buffer_new kInitialSize).
Proof. split; [apply Buffer_new_good; by vm_compute|by vm_compute]. Qed.

(** The client reads good lines, and perhaps one more that is too short to be
    seen: it has counted the lines, and is finished if that is all. *)
Lemma batch_reads c lines tail reads : reads <> [] -> Forall (fun d => d <> []) reads ->
  Forall good_line lines -> zlen tail < kCells + 2 -> Batch.count_ c = 0 -> zlen lines <= zlen (Batch.input_ c) < 2 ^ 31 ->
  (tail <> [] -> zlen lines < zlen (Batch.input_ c)) ->
  concat reads = wire lines ++ tail -> zlen (concat reads) <= 2 ^ 62 ->
  exists buf, contents buf = tail /\
    feed (fun _ => Batch.onMessage) (map (pair tt) reads) (Buffer_new kInitialSize) c =
    Ok (buf, if zlen lines =? zlen (Batch.input_ c)
             then Batch.act [Shutdown] (Batch.finish (Batch.set_count (zlen lines) c))
             else Batch.set_count (zlen lines) c).
Proof.
  intros Hne Hd Hg Ht Hc Hl Hl' Hr Hs. pose proof (zlen_nonneg (Batch.input_ c)).
  set (after := fun c => if Batch.count_ c =? s32 (zlen (Batch.input_ c))
                         then Ok (Batch.act [Shutdown] (Batch.finish c)) else Ok c).
  destruct (feed_lines_after (fun _ : unit => Batch.on_response) Batch.abandon Batch.abandon (fun _ c => Ok c) lines tail
              (fun ld c' => c' = Batch.set_count (zlen ld) c /\ zlen ld <= zlen lines) (fun _ => True) Hg Ht)
    with (after := after) (n := 1032) (segs := map (pair tt) reads) (todo := lines) (ld := @nil (unit * bytes))
         (buf := Buffer_new kInitialSize) (st := c) as (buf & c' & ld & C & El & [-> _] & E).
  - intros ld t l more st El _ [-> _]. unfold Batch.on_response. cbn [Batch.count_ Batch.set_count].
    apply (f_equal length) in El. rewrite length_app, length_map in El. cbn in El.
    assert (Hld : 0 <= zlen ld < zlen lines) by (unfold zlen; lia).
    rewrite int_small by lia. cbn [res_bind]. eexists. split; [reflexivity|]. rewrite zlen_app. split; [done|].
    change (zlen [(t, l)]) with 1. lia.
  - intros ld t st HP. by exists st.
  - apply Forall_map. eapply Forall_impl; [exact Hd|]. done.
  - by destruct reads.
  - intros ld st [-> Hle] Hd'. unfold after. cbn [Batch.count_ Batch.set_count Batch.input_].
    rewrite s32_small by lia. rewrite (proj2 (Z.eqb_neq _ _)); [done|].
    destruct Hd' as [Hlt|Htl]; [unfold zlen in *; lia|specialize (Hl' Htl); lia].
  - done.
  - split; [by destruct c as [? ? ? ?]; cbn in Hc; subst|apply zlen_nonneg].
  - apply new_buffer_bounded.
  - unfold total_size. rewrite map_map. cbn. rewrite map_id. unfold MAX_SIZE. lia.
  - rewrite map_map. cbn. by rewrite map_id.
  - exists buf. split; [done|].
    rewrite (feed_ext _ (fun t buf st => let* (buf, st) := (let* st := Ok st in
      lines_onMessage Batch.on_response Batch.abandon Batch.abandon buf st) in let* st := after st in Ok (buf, st))).
    + rewrite E. unfold after. cbn [Batch.count_ Batch.set_count Batch.input_].
      apply (f_equal length) in El. rewrite length_map in El. replace (zlen ld) with (zlen lines) by (unfold zlen; congruence).
      rewrite s32_small by lia. by destruct (_ =? _).
    + intros t b s. unfold Batch.onMessage. cbn [res_bind].
      destruct (lines_onMessage _ _ _ b s) as [[b' s']|]; [|done]. cbn [res_bind]. unfold after. by destruct (_ =? _).
Qed.

Lemma wire_bound lines : Forall (fun l => zlen l <= 99) lines -> zlen (wire lines) <= 101 * zlen lines.
Proof.
  induction 1 as [|l lines Hl _ IH]; [done|]. rewrite wire_cons, !zlen_app, zlen_cons.
  change (zlen kCRLF) with 2. lia.
Qed.

Lemma good_lines_bound lines : Forall good_line lines -> zlen (wire lines) <= 101 * zlen lines.
Proof. intros H. apply wire_bound. eapply Forall_impl; [exact H|]. intros l [_ ?]. cbn. lia. Qed.

Lemma numbered_wire_bound input : zlen input < 2 ^ 31 -> Forall puzzle_text input ->
  zlen (wire (map request_text (numbered 0 input))) <= 2 ^ 62.
Proof.
  intros Hl F. pose proof (zlen_nonneg input).
  assert (G : Forall good_line (map request_text (numbered 0 input))).
  { apply Forall_map. eapply Forall_impl; [apply numbered_valid; [lia|lia|done]|]. apply valid_good. }
  apply good_lines_bound in G. unfold zlen at 2 in G. rewrite length_map, numbered_length in G.
  fold (zlen input) in G. lia.
Qed.

(** The client's requests, and the server's answers to them. *)
Lemma batch_served input : Forall puzzle_text input -> zlen input < 2 ^ 31 ->
  exists l, Batch.onConnection true (Batch.SudokuClient_new input) = Ok (Batch.act l (Batch.SudokuClient_new input)) /\
    forall reads, concat reads = sent_bytes l ->
      exists buf s, feed (fun _ => Basic.onMessage) (map (pair tt) reads) (Buffer_new kInitialSize) new_server = Ok (buf, s) /\
        contents buf = [] /\ Forall2 answer_to (numbered 0 input) (actions s).
Proof.
  intros F Hl. pose proof (zlen_nonneg input).
  destruct (send_requests_ok input 0 (Batch.SudokuClient_new input)) as (l & E & El); [lia|lia|done|].
  exists l. split; [exact E|]. intros reads Hr. rewrite El in Hr.
  apply server_answers_in_order; [by apply numbered_valid; [lia|lia|]|done|].
  rewrite Hr. by apply numbered_wire_bound.
Qed.

(** C32: The batch client against a server without a pool: for any puzzles that
    have solutions, in whatever pieces the requests and the answers arrive, all
    of them are answered, the client counts them all, reports once that it is
    done, with their number, and shuts the connection down. *)
Theorem batch_completes (input : list bytes) (Hp : Forall puzzle_text input) (Hs : Forall solvable input)
  (Hne : input <> []) (Hl : zlen input < 2 ^ 31) :
  exists l, Batch.onConnection true (Batch.SudokuClient_new input) = Ok (Batch.act l (Batch.SudokuClient_new input)) /\
    forall reads, concat reads = sent_bytes l ->
      exists buf s, feed (fun _ => Basic.onMessage) (map (pair tt) reads) (Buffer_new kInitialSize) new_server = Ok (buf, s) /\
        contents buf = [] /\
        forall reads', concat reads' = sent_bytes (actions s) -> Forall (fun d => d <> []) reads' ->
          exists buf' c, feed (fun _ => Batch.onMessage) (map (pair tt) reads') (Buffer_new kInitialSize)
              (Batch.act l (Batch.SudokuClient_new input)) = Ok (buf', c) /\
            contents buf' = [] /\ Batch.count_ c = zlen input /\ Batch.finished c = [zlen input] /\
            Batch.actions c = l ++ [Shutdown].
Proof.
  destruct (batch_served input Hp Hl) as (l & E & Hserved). exists l. split; [done|]. intros reads Hr.
  destruct (Hserved reads Hr) as (buf & s & Ef & C & Ha). exists buf, s. split; [done|]. split; [done|].
  intros reads' Hr' Hd. pose proof (zlen_nonneg input).
  destruct (answers_to_lines input 0 (numbered 0 input) (actions s)) as (lines & El & G & Ll);
    [lia|lia|done|done|by apply numbered_solvable|].
  rewrite numbered_length in Ll. assert (Hz : zlen lines = zlen input) by (unfold zlen; congruence).
  rewrite El in Hr'. pose proof (good_lines_bound lines G) as Hb.
  destruct (batch_reads (Batch.act l (Batch.SudokuClient_new input)) lines [] reads') as (buf' & C' & Eb);
    cbn [Batch.count_ Batch.input_ Batch.act Batch.SudokuClient_new]; try done; try lia.
  - intros ->. destruct input, lines as [|line lines]; try done. cbn [concat] in Hr'. rewrite wire_cons in Hr'.
    by destruct line.
  - by rewrite app_nil_r.
  - rewrite Hr'. lia.
  - cbn [Batch.input_ Batch.act Batch.SudokuClient_new] in Eb. rewrite Hz, Z.eqb_refl in Eb.
    eexists buf', _. split; [exact Eb|]. done.
Qed.

(** A batch whose last puzzle has no solution never ends: "NoSolution" makes a
    line shorter than the loop waits for, so when the server has answered
    everything the last answer lies in the client's buffer, uncounted, and the
    client neither reports nor shuts the connection down. *)
Theorem batch_waits_forever (input : list bytes) (p : bytes) (Hp : Forall puzzle_text (input ++ [p]))
  (Hs : Forall solvable input) (Hno : ~ solvable p) (Hl : zlen (input ++ [p]) < 2 ^ 31) :
  exists l, Batch.onConnection true (Batch.SudokuClient_new (input ++ [p])) =
      Ok (Batch.act l (Batch.SudokuClient_new (input ++ [p]))) /\
    forall reads, concat reads = sent_bytes l ->
      exists buf s, feed (fun _ => Basic.onMessage) (map (pair tt) reads) (Buffer_new kInitialSize) new_server = Ok (buf, s) /\
        contents buf = [] /\
        forall reads', concat reads' = sent_bytes (actions s) -> Forall (fun d => d <> []) reads' ->
          exists buf' c, feed (fun _ => Batch.onMessage) (map (pair tt) reads') (Buffer_new kInitialSize)
              (Batch.act l (Batch.SudokuClient_new (input ++ [p]))) = Ok (buf', c) /\
            contents buf' <> [] /\ Batch.count_ c = zlen input /\ Batch.finished c = [] /\ Batch.actions c = l.
Proof.
  destruct (batch_served (input ++ [p]) Hp Hl) as (l & E & Hserved). exists l. split; [done|]. intros reads Hr.
  destruct (Hserved reads Hr) as (buf & s & Ef & C & Ha). exists buf, s. split; [done|]. split; [done|].
  intros reads' Hr' Hd. pose proof (zlen_nonneg input). pose proof Hl as Hl0. rewrite zlen_app in Hl.
  change (zlen [p]) with 1 in Hl.
  unfold numbered in Ha. rewrite imap_app in Ha. apply Forall2_app_inv_l in Ha as (a1 & a2 & Ha1 & Ha2 & Ea).
  cbn in Ha2. apply Forall2_cons_inv_l in Ha2 as (a & a3 & Hap & Ha3 & ->). apply Forall2_nil_inv_l in Ha3 as ->.
  set (r := (Some _, p)) in Hap.
  assert (Hin : forall r', r' ∈ numbered 0 input \/ r' = r -> r' ∈ numbered 0 (input ++ [p])).
  { intros r' Hr0. unfold numbered. rewrite imap_app, elem_of_app. destruct Hr0 as [?|?]; [by left|right].
    apply list_elem_of_singleton. done. }
  destruct (answers_to_lines (input ++ [p]) 0 (numbered 0 input) a1) as (lines & El & G & Ll);
    [lia|lia|by auto|exact Ha1|by apply numbered_solvable|].
  rewrite numbered_length in Ll. assert (Hz : zlen lines = zlen input) by (unfold zlen; congruence).
  destruct (answer_to_line (input ++ [p]) 0 r a) as (line & -> & _ & _ & Hshort); [lia|lia|by auto|done|].
  specialize (Hshort Hno). rewrite Ea, sent_app, El in Hr'. pose proof (good_lines_bound lines G) as Hb.
  assert (Ht : zlen (line ++ kCRLF) <= 30) by (rewrite zlen_app; change (zlen kCRLF) with 2; lia).
  destruct (batch_reads (Batch.act l (Batch.SudokuClient_new (input ++ [p]))) lines (line ++ kCRLF) reads') as (buf' & C' & Eb);
    cbn [Batch.count_ Batch.input_ Batch.act Batch.SudokuClient_new]; rewrite ?zlen_app; change (zlen [p]) with 1; try done; try lia.
  - intros ->. cbn in Hr'. symmetry in Hr'. apply app_eq_nil in Hr' as [_ Hr'].
    cbn in Hr'. by destruct line.
  - unfold kCells. change (zlen kCRLF) with 2. lia.
  - rewrite Hr'. cbn. by rewrite app_nil_r.
  - rewrite Hr'. cbn. rewrite app_nil_r, zlen_app. lia.
  - cbn [Batch.input_ Batch.act Batch.SudokuClient_new] in Eb. rewrite Hz, zlen_app in Eb.
    change (zlen [p]) with 1 in Eb. rewrite (proj2 (Z.eqb_neq _ _)) in Eb by lia.
    eexists buf', _. split; [exact Eb|]. split; [|done]. rewrite C'. by destruct line.
Qed.

(** *** Witnesses *)

Lemma solves_solvable p a : zlen p = kCells -> solveSudoku p = Ok a -> bytes_eqb a kNoSolution = false -> solvable p.
Proof.
  intros Hl E Ha. destruct (solveSudoku_answers p Hl) as (a' & E' & [(g & Hg & _)|[_ ->]]); [by exists g|].
  rewrite E in E'. injection E' as ->. done.
Qed.
Lemma fails_unsolvable p : zlen p = kCells -> solveSudoku p = Ok kNoSolution -> ~ solvable p.
Proof.
  intros Hl E [g Hg]. destruct (solveSudoku_answers p Hl) as (a' & E' & [(g' & [Lg _] & ->)|[Hno _]]);
    [|by apply (Hno g)].
  rewrite E in E'. injection E' as E'. apply (f_equal zlen) in E'. unfold print_board, zlen in *.
  rewrite length_map, Lg in E'. done.
Qed.

Lemma ex_easy_ok : puzzle_text ex_easy_puzzle /\ solvable ex_easy_puzzle.
Proof.
  split; [split; [by vm_compute|apply (bool_decide_eq_true_1 _); by vm_compute]|].
  eapply solves_solvable; [by vm_compute|by vm_compute|by vm_compute].
Qed.

(** The first cell sees all nine digits. *)
Definition ex_bad_puzzle : bytes := bs "0123456789" ++ replicate 71 x30.
Lemma ex_bad_ok : puzzle_text ex_bad_puzzle /\ ~ solvable ex_bad_puzzle.
Proof.
  split; [split; [by vm_compute|apply (bool_decide_eq_true_1 _); by vm_compute]|].
  apply fails_unsolvable; by vm_compute.
Qed.

Lemma batch_completes_witness :
  [ex_easy_puzzle] <> [] /\
  exists l, Batch.onConnection true (Batch.SudokuClient_new [ex_easy_puzzle]) =
      Ok (Batch.act l (Batch.SudokuClient_new [ex_easy_puzzle])) /\
    forall reads, concat reads = sent_bytes l ->
      exists buf s, feed (fun _ => Basic.onMessage) (map (pair tt) reads) (Buffer_new kInitialSize) new_server = Ok (buf, s) /\
        contents buf = [] /\
        forall reads', concat reads' = sent_bytes (actions s) -> Forall (fun d => d <> []) reads' ->
          exists buf' c, feed (fun _ => Batch.onMessage) (map (pair tt) reads') (Buffer_new kInitialSize)
              (Batch.act l (Batch.SudokuClient_new [ex_easy_puzzle])) = Ok (buf', c) /\
            contents buf' = [] /\ Batch.count_ c = 1 /\ Batch.finished c = [1] /\ Batch.actions c = l ++ [Shutdown].
Proof.
  split; [done|]. apply (batch_completes [ex_easy_puzzle]); [| |done|done]; repeat constructor; apply ex_easy_ok.
Defined.

Lemma batch_waits_forever_witness :
  exists l, Batch.onConnection true (Batch.SudokuClient_new [ex_easy_puzzle; ex_bad_puzzle]) =
      Ok (Batch.act l (Batch.SudokuClient_new [ex_easy_puzzle; ex_bad_puzzle])) /\
    forall reads, concat reads = sent_bytes l ->
      exists buf s, feed (fun _ => Basic.onMessage) (map (pair tt) reads) (Buffer_new kInitialSize) new_server = Ok (buf, s) /\
        contents buf = [] /\
        forall reads', concat reads' = sent_bytes (actions s) -> Forall (fun d => d <> []) reads' ->
          exists buf' c, feed (fun _ => Batch.onMessage) (map (pair tt) reads') (Buffer_new kInitialSize)
              (Batch.act l (Batch.SudokuClient_new [ex_easy_puzzle; ex_bad_puzzle])) = Ok (buf', c) /\
            contents buf' <> [] /\ Batch.count_ c = 1 /\ Batch.finished c = [] /\ Batch.actions c = l.
Proof.
  apply (batch_waits_forever [ex_easy_puzzle] ex_bad_puzzle); [| | |done].
  - constructor; [apply ex_easy_ok|constructor; [apply ex_bad_ok|constructor]].
  - constructor; [apply ex_easy_ok|constructor].
  - apply ex_bad_ok.
Defined.

(** ** The load test *)

(** The text that the ids of a client are made of. *)
Record plain_name (name : bytes) : Prop := mkPlain {
  pn_len : zlen name <= 8;
  pn_chars : Forall (fun c => c <> COLON /\ c <> x2d /\ c <> LF /\ c <> x00) name;
}.

Definition number (j : Z) : bytes := fmt_0wd 8 j.

Lemma number_digits j : 0 <= j -> Forall (fun c => isdigit c = true) (number j) /\ number j <> [] /\
  dec_value (number j) = j.
Proof.
  intros Hj. unfold number, fmt_0wd. rewrite (proj2 (Z.ltb_ge j 0)) by lia.
  split; [by apply pad_zeros_digits, fmt_u_digits|]. unfold pad_left. split.
  - pose proof (fmt_u_nonempty j) as Hn. intros E. apply app_eq_nil in E as [_ E]. rewrite E in Hn. done.
  - by rewrite dec_value_zeros, fmt_u_value.
Qed.

Lemma number_length j : 0 <= j < 10 ^ 8 -> zlen (number j) = 8.
Proof.
  intros Hj. unfold number, fmt_0wd. rewrite (proj2 (Z.ltb_ge j 0)) by lia. unfold pad_left.
  rewrite zlen_app. pose proof (fmt_u_length j 8 Hj ltac:(lia)). pose proof (fmt_u_nonempty j).
  unfold zlen at 1. rewrite length_replicate. lia.
Qed.

(** A response of the number [j], whatever the answer. *)
Definition response (name : bytes) (j : Z) (answer : bytes) : bytes :=
  name ++ x2d :: number j ++ COLON :: answer.

Lemma verify_response name j answer t now c : plain_name name -> 0 <= j < 10 ^ 8 ->
  Loadtest.sendTime_ c !! j = Some now -> - 2 ^ 63 <= t - now < 2 ^ 63 ->
  Loadtest.verify (response name j answer) t c =
    Ok (true, Loadtest.received (delete j (Loadtest.sendTime_ c)) (Loadtest.latencies_ c ++ [s32 (t - now)]) c).
Proof.
  intros [_ Hn] Hj Hs Ht. destruct (number_digits j ltac:(lia)) as (Hd & Hne & Hv).
  assert (H1 : COLON ∉ name ++ x2d :: number j).
  { rewrite elem_of_app, elem_of_cons. rewrite Forall_forall in Hn, Hd.
    intros [Hx|[Hx|Hx]]; [by apply Hn in Hx as [? _]|done|by apply Hd in Hx]. }
  assert (H2 : x2d ∉ name) by (intros Hx; rewrite Forall_forall in Hn; by apply Hn in Hx as (_ & ? & _)).
  unfold Loadtest.verify.
  assert (Ec : std_find COLON (response name j answer) = length (name ++ x2d :: number j)).
  { unfold response. replace (name ++ x2d :: number j ++ COLON :: answer) with ((name ++ x2d :: number j) ++ COLON :: answer)
      by (by rewrite <-app_assoc). by apply std_find_app. }
  assert (Ed : std_find x2d (response name j answer) = length name) by (by apply std_find_app).
  assert (El : length (response name j answer) = (length name + S (length (number j) + S (length answer)))%nat).
  { unfold response. rewrite !length_app. cbn. rewrite length_app. done. }
  rewrite Ec, Ed, El, length_app. cbn [length].
  rewrite !(proj2 (Nat.ltb_lt _ _)) by lia. cbn [andb]. cbv zeta.
  assert (Edr : drop (S (length name)) (response name j answer) = number j ++ COLON :: answer).
  { unfold response. rewrite drop_app_ge by lia. replace (S (length name) - length name)%nat with 1%nat by lia. done. }
  rewrite Edr, atoi_digits by (rewrite ?Hv; done || lia). rewrite Hv, Hs, int64_small by done. done.
Qed.

Definition puzzle_of (input : list bytes) (j : Z) : bytes := default [] (input !! Z.to_nat (j mod zlen input)).
Definition load_request (name : bytes) (input : list bytes) (j : Z) : option bytes * bytes :=
  (Some (name ++ x2d :: number j), puzzle_of input j).
Definition load_input (input : list bytes) : Prop :=
  input <> [] /\ Forall (fun p => puzzle_text p /\ x00 ∉ p) input.

Lemma puzzle_of_ok input j : load_input input -> 0 <= j -> puzzle_text (puzzle_of input j) /\ x00 ∉ puzzle_of input j.
Proof.
  intros [Hne F] Hj. assert (Hl : 0 < zlen input) by (destruct input; [done|rewrite zlen_cons; pose proof (zlen_nonneg input); lia]).
  pose proof (Z.mod_pos_bound j (zlen input) Hl). unfold puzzle_of.
  destruct (input !! Z.to_nat (j mod zlen input)) as [p|] eqn:E.
  - rewrite Forall_lookup in F. by apply F in E.
  - apply lookup_ge_None in E. unfold zlen in *. lia.
Qed.

Lemma load_request_valid name input j : plain_name name -> load_input input -> 0 <= j < 10 ^ 8 ->
  valid_request (load_request name input j).
Proof.
  intros [Hl Hn] Hi Hj. destruct (puzzle_of_ok input j Hi ltac:(lia)) as [[Hp Hlf] _].
  destruct (number_digits j ltac:(lia)) as (Hd & _). rewrite Forall_forall in Hn, Hd.
  constructor; [done| | |].
  - unfold request_text, load_request. cbn [fst snd].
    rewrite !elem_of_app, !elem_of_cons. intros [[Hx|[Hx|Hx]]|[Hx|Hx]]; try done;
      [by apply Hn in Hx as (_ & _ & ? & _)|by apply Hd in Hx].
  - change (zlen (name ++ x2d :: number j) <= 17). rewrite zlen_app, zlen_cons, number_length by done. lia.
  - unfold clear_id. cbn [fst load_request]. rewrite elem_of_app, elem_of_cons.
    intros [Hx|[Hx|Hx]]; [by apply Hn in Hx as (? & _)|done|by apply Hd in Hx].
Qed.

Lemma load_text name input j : plain_name name -> load_input input -> 0 <= j < 10 ^ 8 ->
  Loadtest.request name j (puzzle_of input j) = request_text (load_request name input j) ++ kCRLF /\
  zlen (request_text (load_request name input j) ++ kCRLF) <= 101.
Proof.
  intros Hn Hi Hj. destruct (puzzle_of_ok input j Hi ltac:(lia)) as [[Hp _] H0].
  assert (Hz : x00 ∉ name).
  { destruct Hn as [_ Hn]. rewrite Forall_forall in Hn. intros Hx. by apply Hn in Hx as (_ & _ & _ & ?). }
  pose proof (valid_good _ (load_request_valid name input j Hn Hi Hj)) as [_ Hl]. split.
  - unfold Loadtest.request, request_text, load_request. cbn [fst snd]. rewrite !cstr_no_nul by done.
    fold (number j). by rewrite <-!app_assoc.
  - rewrite zlen_app. change (zlen kCRLF) with 2. lia.
Qed.

Definition ready (c : Loadtest.SudokuClient) : Prop :=
  plain_name (Loadtest.name_ c) /\ load_input (Loadtest.input_ c) /\ zlen (Loadtest.input_ c) < 2 ^ 63.

Lemma send_loop_ok n now m c : ready c -> 0 <= Loadtest.count_ c -> Loadtest.count_ c + Z.of_nat n <= 10 ^ 8 ->
  bounded m (Loadtest.requests_ c) -> m + 101 * Z.of_nat n <= 2 ^ 60 ->
  exists b st, Loadtest.send_loop n now c =
      Ok (Loadtest.sent (Loadtest.count_ c + Z.of_nat n) st (Loadtest.set_requests b c)) /\
    good b /\
    contents b = contents (Loadtest.requests_ c) ++
      wire (map (fun j => request_text (load_request (Loadtest.name_ c) (Loadtest.input_ c) j))
                (seqZ (Loadtest.count_ c) (Z.of_nat n))) /\
    (forall i, st !! i = if decide (Loadtest.count_ c <= i < Loadtest.count_ c + Z.of_nat n) then Some now
                         else Loadtest.sendTime_ c !! i).
Proof.
  revert m c. induction n as [|n IH]; intros m c R Hc Hn [G B] Hm.
  - exists (Loadtest.requests_ c), (Loadtest.sendTime_ c). cbn [Loadtest.send_loop].
    rewrite Z.add_0_r. split; [by destruct c|]. split; [done|].
    split; [cbn; by rewrite app_nil_r|]. intros i. rewrite decide_False by lia. done.
  - pose proof R as (Rn & Ri & Rl). set (k := Loadtest.count_ c) in *. cbn [Loadtest.send_loop].
    destruct (Loadtest.input_ c) as [|p0 ps] eqn:Ei; [by destruct Ri|]. rewrite <-Ei in *.
    fold k. pose proof (zlen_nonneg (Loadtest.input_ c)).
    rewrite (u64_small k) by lia.
    change (default [] (Loadtest.input_ c !! Z.to_nat (k mod zlen (Loadtest.input_ c)))) with (puzzle_of (Loadtest.input_ c) k).
    destruct (load_text (Loadtest.name_ c) (Loadtest.input_ c) k Rn Ri ltac:(lia)) as [-> Ht].
    set (text := request_text _ ++ kCRLF) in *. pose proof (zlen_nonneg text). cbv zeta.
    rewrite (proj2 (Z.ltb_ge _ _)) by lia. rewrite snprintf_fits by lia. rewrite (ztake_app_exact (zlen text)) by done.
    pose proof G as [[] _].
    destruct (append_ok (Loadtest.requests_ c) text G) as (b1 & -> & G1 & C1 & S1); [unfold MAX_SIZE; lia|].
    cbn [res_bind]. cbn [Loadtest.count_ Loadtest.set_requests]. fold k.
    rewrite int_small by lia. cbn [res_bind].
    set (c1 := Loadtest.sent _ _ _). destruct (IH (m + 101) c1) as (b & st & E & Gb & Cb & Hst);
      [done|cbn; lia|cbn; lia|split; [done|cbn; lia]|lia|].
    exists b, st. change (Loadtest.count_ c1) with (k + 1) in *. split.
    + rewrite E. unfold Loadtest.sent, Loadtest.set_requests. cbn. do 2 f_equal. lia.
    + split; [done|]. split.
      * rewrite Cb. change (contents (Loadtest.requests_ c1)) with (contents b1). rewrite C1, <-app_assoc.
        rewrite Nat2Z.inj_succ, (seqZ_cons k) by lia. cbn [map]. rewrite wire_cons.
        change (Loadtest.name_ c1) with (Loadtest.name_ c). change (Loadtest.input_ c1) with (Loadtest.input_ c).
        replace (Z.pred (Z.succ (Z.of_nat n))) with (Z.of_nat n) by lia. replace (Z.succ k) with (k + 1) by lia. done.
      * intros i. rewrite Hst. change (Loadtest.sendTime_ c1) with (<[k := now]> (Loadtest.sendTime_ c)).
        destruct (decide (i = k)) as [->|Hne].
        -- rewrite decide_False by lia. rewrite lookup_insert_eq, decide_True by lia. done.
        -- rewrite lookup_insert_ne by done. repeat case_decide; try done; lia.
Qed.

(** What the client knows while the answers to the numbers [js] are missing. *)
Record awaiting (c0 : Loadtest.SudokuClient) (now : Timestamp) (times : list Timestamp) (missing js : list Z)
  (c : Loadtest.SudokuClient) : Prop := mkAwaiting {
  aw_nodup : NoDup js;
  aw_js : forall j, j ∈ js -> j ∈ missing;
  aw_sent : forall i, Loadtest.sendTime_ c !! i = if decide (i ∈ js) then Some now else Loadtest.sendTime_ c0 !! i;
  aw_latencies : exists ls, Loadtest.latencies_ c = Loadtest.latencies_ c0 ++ ls /\
    (length ls + length js = length missing)%nat /\ Forall (fun x => exists t, t ∈ times /\ x = s32 (t - now)) ls;
  aw_rest : Loadtest.actions c = Loadtest.actions c0 /\ Loadtest.count_ c = Loadtest.count_ c0;
}.

Lemma awaiting_step c0 now times missing name answer l rest js c t :
  plain_name name -> (forall j, j ∈ missing -> 0 <= j < 10 ^ 8) ->
  (forall i, i ∈ missing -> Loadtest.sendTime_ c0 !! i = None) ->
  t ∈ times -> - 2 ^ 63 <= t - now < 2 ^ 63 ->
  map (fun j => response name j (answer j)) js ≡ₚ l :: rest -> awaiting c0 now times missing js c ->
  exists c' js', Loadtest.verify l t c = Ok (true, c') /\
    map (fun j => response name j (answer j)) js' ≡ₚ rest /\ awaiting c0 now times missing js' c'.
Proof.
  intros Hn Hm H0 Ht Hb Hp [W1 W2 W3 (ls & W4 & W5 & W6) W7].
  assert (Hl : l ∈ map (fun j => response name j (answer j)) js) by (rewrite Hp; left).
  apply list_elem_of_fmap in Hl as (j & -> & Hj). apply elem_of_Permutation in Hj as Hj'. destruct Hj' as (js' & Hjs).
  assert (Nd : NoDup (j :: js')) by (by rewrite <-Hjs). apply NoDup_cons in Nd as [Hnj Nd].
  assert (Hin : forall i, i ∈ js <-> i = j \/ i ∈ js') by (intros i; by rewrite Hjs, elem_of_cons).
  rewrite (verify_response name j (answer j) t now); [|done|by apply Hm, W2|by rewrite W3, decide_True|done].
  eexists _, js'. split; [reflexivity|]. split.
  - rewrite Hjs in Hp. cbn in Hp. by apply Permutation_cons_inv in Hp.
  - constructor; cbn; try done.
    + intros i Hi. apply W2, Hin. by right.
    + intros i. destruct (decide (i = j)) as [->|Hne].
      * rewrite lookup_delete_eq, decide_False by done. symmetry. by apply H0, W2.
      * rewrite lookup_delete_ne, W3 by done. apply decide_ext. rewrite Hin. naive_solver.
    + exists (ls ++ [s32 (t - now)]). rewrite W4, app_assoc. split; [done|]. split.
      * rewrite Hjs in W5. rewrite length_app. cbn in *. lia.
      * apply Forall_app. split; [done|]. apply Forall_singleton. by exists t.
Qed.

(** A round of the load test.  The requests that [send] numbers and writes are
    well-formed and taken by the servers above; then, in whatever order the
    answers come and in whatever pieces, the client recognises every one by
    its number: the table of requests under way is as before the round, and
    there is one more latency for each request, the time from [send] to the
    read that completed the answer. *)
Theorem loadtest_matches (c : Loadtest.SudokuClient) (n : Z) (now : Timestamp)
  (R : ready c) (Hconn : Loadtest.conn_ c = true) (Hn : 0 < n)
  (Hc : 0 <= Loadtest.count_ c) (Hcn : Loadtest.count_ c + n <= 10 ^ 8)
  (B : bounded (2 ^ 40) (Loadtest.requests_ c)) (E0 : contents (Loadtest.requests_ c) = [])
  (Hold : forall i, Loadtest.count_ c <= i -> Loadtest.sendTime_ c !! i = None) :
  let ids := seqZ (Loadtest.count_ c) n in
  let reqs := map (load_request (Loadtest.name_ c) (Loadtest.input_ c)) ids in
  exists c1, Loadtest.send n now c = Ok c1 /\ Forall valid_request reqs /\
    Loadtest.actions c1 = Loadtest.actions c ++ [Send (wire (map request_text reqs))] /\
    forall (answer : Z -> bytes) lines (reads : list (Timestamp * bytes)),
      lines ≡ₚ map (fun j => response (Loadtest.name_ c) j (answer j)) ids -> Forall good_line lines ->
      concat (map snd reads) = wire lines -> Forall (fun x => - 2 ^ 63 <= x.1 - now < 2 ^ 63) reads ->
      exists buf c2 ls, feed Loadtest.onMessage reads (Buffer_new kInitialSize) c1 = Ok (buf, c2) /\
        contents buf = [] /\ Loadtest.sendTime_ c2 = Loadtest.sendTime_ c /\
        Loadtest.latencies_ c2 = Loadtest.latencies_ c ++ ls /\ zlen ls = n /\
        Forall (fun x => exists t, t ∈ map fst reads /\ x = s32 (t - now)) ls.
Proof.
  intros ids reqs. pose proof R as (Rn & Ri & Rl).
  assert (Hids : forall j, j ∈ ids -> 0 <= j < 10 ^ 8) by (intros j Hj; apply elem_of_seqZ in Hj; lia).
  destruct (send_loop_ok (Z.to_nat n) now (2 ^ 40) c R Hc) as (b & st & E & Gb & Cb & Hst); [lia|done|lia|].
  rewrite Z2Nat.id in * by lia. rewrite E0 in Cb. cbn [app] in Cb.
  unfold Loadtest.send. rewrite (proj2 (Z.ltb_lt 0 n)) by lia. cbn [assert_ res_bind]. rewrite Hconn, E.
  cbn [res_bind Loadtest.requests_ Loadtest.sent Loadtest.set_requests].
  pose proof (retrieveAllAsString_implements b Gb) as Rb.
  destruct (retrieveAllAsString b) as [[data b']|]; [|by destruct Rb as (? & ? & _)].
  destruct Rb as (? & [= -> <-] & _ & _). cbn [res_bind].
  eexists. split; [reflexivity|]. split; [|split].
  - apply Forall_map, Forall_forall. intros j Hj. apply load_request_valid; [done|done|by apply Hids].
  - cbn. rewrite Cb. unfold reqs. by rewrite map_map.
  - intros answer lines reads Hp Hg Hr Ht. set (c1 := Loadtest.act _ _).
    set (c0 := Loadtest.received (Loadtest.sendTime_ c) (Loadtest.latencies_ c) c1).
    assert (H0 : forall i, i ∈ ids -> Loadtest.sendTime_ c0 !! i = None)
      by (intros i Hi; apply elem_of_seqZ in Hi; apply Hold; lia).
    assert (Nd : NoDup ids) by apply NoDup_seqZ.
    pose proof (good_lines_bound lines Hg) as Hb. apply Permutation_length in Hp as Hpl.
    rewrite length_map in Hpl. unfold ids in Hpl. rewrite length_seqZ in Hpl.
    destruct (feed_stream (fun t l => Loadtest.verify l t) Loadtest.abandon Loadtest.abandon (fun _ c => Ok c) lines []
                (fun ld c2 => exists js, map (fun j => response (Loadtest.name_ c) j (answer j)) js ≡ₚ drop (length ld) lines /\
                   awaiting c0 now (map fst reads) ids js c2)
                (fun t => - 2 ^ 63 <= t - now < 2 ^ 63 /\ t ∈ map fst reads) reads c1)
      as (buf & c2 & ld & Ef & C & Eld & js & Hjs & W); try done.
    + intros ld t l more c' El [Hq1 Hq2] (js & Hjs & W).
      rewrite El, drop_app_ge, length_map, Nat.sub_diag, drop_0 in Hjs by (by rewrite length_map).
      destruct (awaiting_step c0 now _ ids _ answer l more js c' t Rn Hids H0 Hq2 Hq1 Hjs W)
        as (c2 & js' & Ev & Hjs' & W'). exists c2. split; [done|]. exists js'. split; [|done].
      rewrite El, length_app, drop_app_ge by (rewrite length_map; cbn; lia). rewrite length_map.
      cbn [length]. replace (length ld + 1 - length ld)%nat with 1%nat by lia. done.
    + intros ld t c' HP. by exists c'.
    + apply Forall_forall. intros x Hx. rewrite Forall_forall in Ht. split; [by apply Ht|].
      apply list_elem_of_fmap. by exists x.
    + exists ids. split; [cbn; by rewrite <-Hp|]. constructor; try done.
      * intros i. cbn. rewrite Hst. apply decide_ext. unfold ids. rewrite elem_of_seqZ. lia.
      * exists []. cbn. rewrite app_nil_r. split; [done|]. split; [done|constructor].
    + by rewrite app_nil_r.
    + unfold total_size. rewrite Hr. unfold zlen in *. lia.
    + destruct W as [W1 W2 W3 (ls & W4 & W5 & W6) _]. exists buf, c2, ls. split; [exact Ef|].
      apply (f_equal length) in Eld. rewrite length_map in Eld. rewrite Eld, drop_all in Hjs.
      symmetry in Hjs. apply Permutation_nil, map_eq_nil in Hjs as ->. split; [done|]. split.
      * apply map_eq. intros i. rewrite W3, decide_False by apply not_elem_of_nil. done.
      * split; [done|]. split; [|done]. unfold ids in W5. rewrite length_seqZ in W5. unfold zlen. cbn in W5. lia.
Qed.

Definition ex_load_client : Loadtest.SudokuClient :=
  Loadtest.set_conn true (Loadtest.SudokuClient_new [ex_easy_puzzle] (bs "c0001")).

Lemma ex_load_ready : ready ex_load_client.
Proof.
  split; [|split; [|by vm_compute]].
  - split; [by vm_compute|]. apply (bool_decide_eq_true_1 _). by vm_compute.
  - split; [done|]. constructor; [|constructor]. split; [apply ex_easy_ok|].
    apply (bool_decide_eq_true_1 _). by vm_compute.
Qed.

(** Two requests; the answers arrive in the other order. *)
Lemma loadtest_matches_witness :
  exists c1, Loadtest.send 2 7000000 ex_load_client = Ok c1 /\
    forall (answer : Z -> bytes) lines (reads : list (Timestamp * bytes)),
      lines ≡ₚ map (fun j => response (bs "c0001") j (answer j)) [0; 1] -> Forall good_line lines ->
      concat (map snd reads) = wire lines -> Forall (fun x => - 2 ^ 63 <= x.1 - 7000000 < 2 ^ 63) reads ->
      exists buf c2 ls, feed Loadtest.onMessage reads (Buffer_new kInitialSize) c1 = Ok (buf, c2) /\
        contents buf = [] /\ Loadtest.sendTime_ c2 = ∅ /\ Loadtest.latencies_ c2 = ls /\ zlen ls = 2 /\
        Forall (fun x => exists t, t ∈ map fst reads /\ x = s32 (t - 7000000)) ls.
Proof.
  destruct (loadtest_matches ex_load_client 2 7000000 ex_load_ready eq_refl ltac:(lia)) as (c1 & E & _ & _ & H).
  - done.
  - by vm_compute.
  - split; [apply new_buffer_bounded|by vm_compute].
  - by vm_compute.
  - done.
  - exists c1. split; [exact E|]. exact H.
Defined.

(** The rate: after [k] ticks each client has been told to send [rps * k / 100]
    requests in all, rounded down, one tick's share at a time. *)
Fixpoint run_ticks (k : nat) (rps : Z) (t : Loadtest.SudokuLoadtest) : res (Z * Loadtest.SudokuLoadtest) :=
  match k with
  | O => Ok (0, t)
  | S k =>
      let* (n, t) := Loadtest.tick rps t in
      let* (m, t) := run_ticks k rps t in
      Ok (n + m, t)
  end.

Lemma tick_share rps t : 0 <= rps < 2 ^ 31 -> 0 <= Loadtest.ticks_ t < 2 ^ 31 ->
  Loadtest.sofar_ t = rps * Loadtest.ticks_ t / 100 ->
  exists n t', Loadtest.tick rps t = Ok (n, t') /\ Loadtest.ticks_ t' = Loadtest.ticks_ t + 1 /\
    Loadtest.sofar_ t' = rps * (Loadtest.ticks_ t + 1) / 100 /\ n = Loadtest.sofar_ t' - Loadtest.sofar_ t /\ 0 <= n.
Proof.
  intros Hr Ht Hs. unfold Loadtest.tick, Loadtest.kHz. set (k := Loadtest.ticks_ t) in *.
  assert (H1 : 0 <= rps * (k + 1) <= 2 ^ 62) by nia.
  assert (H2 : rps * k / 100 <= rps * (k + 1) / 100) by (apply Z.div_le_mono; nia).
  assert (H3 : rps * (k + 1) / 100 <= rps * k / 100 + rps).
  { rewrite <-Z.div_add by lia. apply Z.div_le_mono; lia. }
  assert (H4 : 0 <= rps * k / 100) by (apply Z.div_pos; nia).
  assert (H5 : rps * (k + 1) / 100 <= 2 ^ 62) by (apply Z.div_le_upper_bound; lia).
  rewrite int64_small by lia. cbn [res_bind]. rewrite int64_small by lia. cbn [res_bind].
  rewrite Z.quot_div_nonneg by lia. rewrite Hs.
  rewrite int64_small by lia. cbn [res_bind]. rewrite int64_small by lia. cbn [res_bind].
  eexists _, _. split; [reflexivity|]. cbn. split; [done|]. split; [lia|].
  destruct (Z.ltb_spec 0 (rps * (k + 1) / 100 - rps * k / 100)); [rewrite s32_small by lia|]; lia.
Qed.

Lemma ticks_rate k rps t : 0 <= rps < 2 ^ 31 -> 0 <= Loadtest.ticks_ t -> Loadtest.ticks_ t + Z.of_nat k < 2 ^ 31 ->
  Loadtest.sofar_ t = rps * Loadtest.ticks_ t / 100 ->
  exists t', run_ticks k rps t = Ok (rps * (Loadtest.ticks_ t + Z.of_nat k) / 100 - Loadtest.sofar_ t, t').
Proof.
  intros Hr. revert t. induction k as [|k IH]; intros t Ht Hk Hs; cbn [run_ticks].
  - exists t. do 2 f_equal. rewrite Hs, Z.add_0_r. lia.
  - destruct (tick_share rps t Hr ltac:(lia) Hs) as (n & t1 & -> & E1 & E2 & E3 & _). cbn [res_bind].
    destruct (IH t1) as (t2 & ->); [lia|lia|by rewrite E2, E1|]. cbn [res_bind]. exists t2. do 2 f_equal.
    rewrite E3, E1. replace (Loadtest.ticks_ t + 1 + Z.of_nat k) with (Loadtest.ticks_ t + Z.of_nat (S k)) by lia. lia.
Qed.
