(* ===== verification/SudokuMain.v ===== *)
(** * The programs of the sudoku examples (examples/sudoku: the [main] of the four
    servers, of batch.cc and of loadtest.cc)

    The arguments, the construction and the start of the servers over TcpServer
    and ThreadPool, the connections they report; the clients that are made, and
    when the batch client quits. *)

From stdpp Require Import gmap.
From S2P Require Import Prelude Cstd Date InetAddress EventLoopThreadPool TcpServer LogStream ThreadPool SudokuClient.

(** The value of an [int] argument. *)
Definition arg_int (a : bytes) : res Z := match atoi a with Some n => Ok n | None => Err EUndefined end.

(** ** The servers *)

Inductive server_kind : Set := BasicServer | MultiloopServer | ThreadpoolServer | HybridServer.

Record options := mkOptions { ioThreads : Z; workerThreads : Z; tcpNoDelay_ : bool }.

(** [argv[i]], if there are as many. *)
Definition arg_or (i : nat) (default : Z) (argv : list bytes) : res Z :=
  match argv !! i with Some a => arg_int a | None => Ok default end.

(** The beginning of each [main]. *)
Definition multiloop_options (argv : list bytes) : res options :=
  let* n := arg_or 1 0 argv in Ok (mkOptions n 0 false).
Definition threadpool_options (argv : list bytes) : res options :=
  let* n := arg_or 1 0 argv in Ok (mkOptions 0 n false).
Definition hybrid_options (argv : list bytes) : res options :=
  let* io := arg_or 1 0 argv in
  let* n := arg_or 2 0 argv in
  Ok (mkOptions io n (match argv !! 3%nat with Some a => bytes_eqb (cstr a) (bs "-n") | None => false end)).
Definition server_options (k : server_kind) (argv : list bytes) : res options :=
  match k with
  | BasicServer => Ok (mkOptions 0 0 false)
  | MultiloopServer => multiloop_options argv
  | ThreadpoolServer => threadpool_options argv
  | HybridServer => hybrid_options argv
  end.

Definition server_name (k : server_kind) : bytes :=
  match k with
  | BasicServer | ThreadpoolServer => bs "sudoku_basic"
  | MultiloopServer => bs "sudoku_multiloop"
  | HybridServer => bs "sudoku_hybrid"
  end.

(** A server and, where it has one, its pool. *)
Record SudokuServer := mkSudokuServer {
  server_ : TcpServer;
  threadPool_ : option ThreadPool;
  options_ : options;
}.

(** The constructors: without loops of its own, and with some. *)
Definition basic_new (s : TcpServer) : res SudokuServer := Ok (mkSudokuServer s None (mkOptions 0 0 false)).
Definition multiloop_new (conn : Z) (s : TcpServer) : res SudokuServer :=
  let* s := server_setThreadNum conn s in Ok (mkSudokuServer s None (mkOptions conn 0 false)).
Definition threadpool_new (numThreads : Z) (s : TcpServer) : res SudokuServer :=
  Ok (mkSudokuServer s None (mkOptions 0 numThreads false)).
Definition hybrid_new (numEventLoops numThreads : Z) (nodelay : bool) (s : TcpServer) : res SudokuServer :=
  let* s := server_setThreadNum numEventLoops s in
  Ok (mkSudokuServer s None (mkOptions numEventLoops numThreads nodelay)).

(** The server on the port 9981; [a] is the acceptor of the listening socket,
    [inet_ntop6] the C library's text of an IPv6 address. *)
Definition SudokuServer_new (inet_ntop6 : bytes -> bytes) (loop : Z) (a : Acceptor) (k : server_kind) (o : options) : res SudokuServer :=
  let* ipPort := toIpPort inet_ntop6 (InetAddress_port 9981 false false) in
  let s := TcpServer_new loop ipPort (server_name k) a in
  match k with
  | BasicServer => basic_new s
  | MultiloopServer => multiloop_new (ioThreads o) s
  | ThreadpoolServer => threadpool_new (workerThreads o) s
  | HybridServer => hybrid_new (ioThreads o) (workerThreads o) (tcpNoDelay_ o) s
  end.

(** [threadPool_.start(numThreads)]: the number becomes a [size_t]; [reserve]
    refuses what no vector of pointers can hold. *)
Definition max_threads : Z := 2 ^ 60 - 1.
Definition pool_start (numThreads : Z) : res ThreadPool :=
  let n := u64 numThreads in
  if max_threads <? n then Err ELength else Ok (ThreadPool.start 0 (Z.to_nat n)).

Section start.
Context (startLoop : Z -> Z).

(** [start()] of each. *)
Definition basic_start (s : SudokuServer) : res SudokuServer :=
  let* sv := server_start startLoop false (server_ s) in Ok (mkSudokuServer sv None (options_ s)).
Definition multiloop_start (s : SudokuServer) : res SudokuServer :=
  let* sv := server_start startLoop false (server_ s) in Ok (mkSudokuServer sv None (options_ s)).
Definition threadpool_start (s : SudokuServer) : res SudokuServer :=
  let* p := pool_start (workerThreads (options_ s)) in
  let* sv := server_start startLoop false (server_ s) in
  Ok (mkSudokuServer sv (Some p) (options_ s)).
Definition hybrid_start (s : SudokuServer) : res SudokuServer :=
  let* p := pool_start (workerThreads (options_ s)) in
  let* sv := server_start startLoop false (server_ s) in
  Ok (mkSudokuServer sv (Some p) (options_ s)).
Definition SudokuServer_start (k : server_kind) : SudokuServer -> res SudokuServer :=
  match k with
  | BasicServer => basic_start
  | MultiloopServer => multiloop_start
  | ThreadpoolServer => threadpool_start
  | HybridServer => hybrid_start
  end.
End start.

Definition server_main (inet_ntop6 : bytes -> bytes) (loop : Z) (startLoop : Z -> Z) (a : Acceptor) (k : server_kind) (argv : list bytes) : res SudokuServer :=
  let* o := server_options k argv in
  let* s := SudokuServer_new inet_ntop6 loop a k o in
  SudokuServer_start startLoop k s.

(** [onConnection]: the text that is logged; the hybrid server may also call
    [setTcpNoDelay]. *)
Definition onConnection (peer local : bytes) (connected : bool) : bytes :=
  peer ++ bs " -> " ++ local ++ bs " is " ++ (if connected then bs "UP" else bs "DONW").
Definition hybrid_onConnection (peer local : bytes) (connected : bool) (s : SudokuServer) : bytes * bool :=
  (onConnection peer local connected, connected && tcpNoDelay_ (options_ s)).

(** ** The clients *)

Inductive client_arguments : Type :=
| ClientUsage (text : bytes)
| RunLocal (input : bytes)
| RunClient (input server : bytes) (rps conn : Z) (nodelay : bool).

(** batch.cc: the input alone is solved without a server. *)
Definition batch_args (argv : list bytes) : res client_arguments :=
  match argv with
  | [_; input; server; conn] => let* conn := arg_int conn in Ok (RunClient input server 0 conn false)
  | [_; input; server] => Ok (RunClient input server 0 1 false)
  | [_; input] => Ok (RunLocal input)
  | _ => Ok (ClientUsage (bs "Usage: " ++ cstr (hd [] argv) ++ bs " input server_ip [connections]" ++ [LF]))
  end.

(** loadtest.cc *)
Definition loadtest_args (argv : list bytes) : res client_arguments :=
  let run input server rps conn nodelay :=
    let* conn := match conn with Some c => arg_int c | None => Ok 1 end in
    let* rps := match rps with Some r => arg_int r | None => Ok 100 end in
    Ok (RunClient input server rps conn (match nodelay with Some n => bytes_eqb (cstr n) (bs "-n") | None => false end)) in
  match argv with
  | [_; input; server; rps; conn; n] => run input server (Some rps) (Some conn) (Some n)
  | [_; input; server; rps; conn] => run input server (Some rps) (Some conn) None
  | [_; input; server; rps] => run input server (Some rps) None None
  | [_; input; server] => run input server None None None
  | [_; input] => run input (bs "127.0.0.1") None None None
  | _ => Ok (ClientUsage (bs "Usage: " ++ cstr (hd [] argv) ++ bs " input server_ip [requests_per_second] [connections] [-n]" ++ [LF]))
  end.

(** [runClient] of batch.cc: the name of a client, and the clients in order. *)
Definition batch_name (i : Z) : res bytes := Fmt_new (bs "client-" ++ fmt_0wd 3 (i + 1)).
Fixpoint batch_clients (i : Z) (n : nat) (input : list bytes) : res (list (bytes * Batch.SudokuClient)) :=
  match n with
  | O => Ok []
  | S n =>
      let* name := batch_name i in
      let* l := batch_clients (i + 1) n input in
      Ok ((name, Batch.SudokuClient_new input) :: l)
  end.
Definition runClient (conn : Z) (input : list bytes) : res (list (bytes * Batch.SudokuClient)) :=
  batch_clients 0 (Z.to_nat conn) input.

(** The calls of [done], one after the other: which of them makes the loop quit. *)
Fixpoint dones (calls : nat) (g_connections g_finished : Z) : res (list bool) :=
  match calls with
  | O => Ok []
  | S calls =>
      let* (n, quits) := Batch.done g_connections g_finished in
      let* l := dones calls g_connections n in Ok (quits :: l)
  end.

(** ** Properties *)

(** A server that listens: [io] loops of its own and [workers] threads, none of
    them with a task. *)
Record serving (loop : Z) (startLoop : Z -> Z) (k : server_kind) (io workers : Z) (s : SudokuServer) : Prop := mkServing {
  sv_listening : listenning_ (acceptor_ (server_ s)) = true;
  sv_address : ipPort_ (server_ s) = bs "0.0.0.0:9981";
  sv_loops : loops_ (TcpServer.threadPool_ (server_ s)) = map (fun i => startLoop (Z.of_nat i)) (seq 0 (Z.to_nat io));
  sv_base : baseLoop_ (TcpServer.threadPool_ (server_ s)) = loop;
  sv_empty : connections_ (server_ s) = ∅;
  sv_pool : match k with
    | ThreadpoolServer | HybridServer => threadPool_ s = Some (ThreadPool.start 0 (Z.to_nat workers))
    | _ => threadPool_ s = None
    end;
}.

Definition has_io (k : server_kind) : bool := match k with MultiloopServer | HybridServer => true | _ => false end.
Definition has_workers (k : server_kind) : bool := match k with ThreadpoolServer | HybridServer => true | _ => false end.

(** The start of a server with the options [o]. *)
Definition launch (inet_ntop6 : bytes -> bytes) (loop : Z) (startLoop : Z -> Z) (a : Acceptor) (k : server_kind) (o : options) : res SudokuServer :=
  let* s := SudokuServer_new inet_ntop6 loop a k o in SudokuServer_start startLoop k s.

Lemma u64_negative n : - 2 ^ 31 <= n < 0 -> max_threads < u64 n.
Proof.
  intros H. unfold u64, max_threads.
  rewrite <- (Z.mod_add _ 1) by lia. rewrite Z.mod_small by lia. lia.
Qed.

Lemma pool_start_ok n : 0 <= n < 2 ^ 31 -> pool_start n = Ok (ThreadPool.start 0 (Z.to_nat n)).
Proof.
  intros H. unfold pool_start, u64, max_threads. rewrite Z.mod_small by lia.
  by rewrite (proj2 (Z.ltb_ge _ _)) by lia.
Qed.

(** Every server that is given numbers that are not negative listens on the port
    9981 with as many loops and workers as it was told; a negative number of
    loops fails the assertion of [setThreadNum], one of workers the reservation
    of their vector, before the server listens. *)
Theorem launch_threads (inet_ntop6 : bytes -> bytes) (loop : Z) (startLoop : Z -> Z) (a : Acceptor) (k : server_kind) (o : options)
    (Ha : listenning_ a = false) (Hio : - 2 ^ 31 <= ioThreads o < 2 ^ 31) (Hw : - 2 ^ 31 <= workerThreads o < 2 ^ 31) :
  if has_io k && (ioThreads o <? 0) then launch inet_ntop6 loop startLoop a k o = Err EAssert
  else if has_workers k && (workerThreads o <? 0) then launch inet_ntop6 loop startLoop a k o = Err ELength
  else exists s, launch inet_ntop6 loop startLoop a k o = Ok s /\
    serving loop startLoop k (if has_io k then ioThreads o else 0) (workerThreads o) s.
Proof.
  assert (E : toIpPort inet_ntop6 (InetAddress_port 9981 false false) = Ok (bs "0.0.0.0:9981")) by (vm_compute; reflexivity).
  unfold launch, SudokuServer_new. rewrite E. cbn [res_bind].
  assert (St : forall io, exists sv, server_start startLoop false
      (set_pool (setThreadNum io (EventLoopThreadPool_new loop)) (TcpServer_new loop (bs "0.0.0.0:9981") (server_name k) a)) = Ok sv /\
    listenning_ (acceptor_ sv) = true /\ ipPort_ sv = bs "0.0.0.0:9981" /\ baseLoop_ (TcpServer.threadPool_ sv) = loop /\
    loops_ (TcpServer.threadPool_ sv) = map (fun i => startLoop (Z.of_nat i)) (seq 0 (Z.to_nat io)) /\ connections_ sv = ∅).
  { intros io. unfold server_start. cbn. rewrite Ha. cbn. eexists. split; [done|]. by cbn. }
  destruct k; cbn [has_io has_workers andb]; unfold SudokuServer_start, basic_new, multiloop_new, threadpool_new, hybrid_new,
    basic_start, multiloop_start, threadpool_start, hybrid_start, server_setThreadNum.
  - destruct (St 0) as (sv & Es & H). cbn [res_bind server_ options_ workerThreads]. change (TcpServer_new _ _ _ _) with
      (set_pool (setThreadNum 0 (EventLoopThreadPool_new loop)) (TcpServer_new loop (bs "0.0.0.0:9981") (server_name BasicServer) a)).
    rewrite Es. cbn [res_bind]. eexists. split; [done|]. by constructor; cbn; try apply H.
  - destruct (Z.ltb_spec (ioThreads o) 0).
    + by rewrite (proj2 (Z.leb_gt _ _)) by lia.
    + rewrite (proj2 (Z.leb_le _ _)) by lia. cbn [assert_ res_bind server_ options_ workerThreads]. destruct (St (ioThreads o)) as (sv & Es & H').
      cbn [TcpServer.threadPool_ TcpServer_new] in *. rewrite Es. cbn [res_bind]. eexists. split; [done|]. by constructor; cbn; try apply H'.
  - cbn [res_bind server_ options_ workerThreads]. destruct (Z.ltb_spec (workerThreads o) 0).
    + unfold pool_start. by rewrite (proj2 (Z.ltb_lt _ _)) by (apply u64_negative; lia).
    + rewrite pool_start_ok by lia. cbn [res_bind]. destruct (St 0) as (sv & Es & H'). change (TcpServer_new _ _ _ _) with
        (set_pool (setThreadNum 0 (EventLoopThreadPool_new loop)) (TcpServer_new loop (bs "0.0.0.0:9981") (server_name ThreadpoolServer) a)).
      rewrite Es. cbn [res_bind]. eexists. split; [done|]. by constructor; cbn; try apply H'.
  - destruct (Z.ltb_spec (ioThreads o) 0).
    + by rewrite (proj2 (Z.leb_gt _ _)) by lia.
    + rewrite (proj2 (Z.leb_le _ _)) by lia. cbn [assert_ res_bind server_ options_ workerThreads]. destruct (Z.ltb_spec (workerThreads o) 0).
      * unfold pool_start. by rewrite (proj2 (Z.ltb_lt _ _)) by (apply u64_negative; lia).
      * rewrite pool_start_ok by lia. cbn [res_bind]. destruct (St (ioThreads o)) as (sv & Es & H').
        cbn [TcpServer.threadPool_ TcpServer_new] in *. rewrite Es. cbn [res_bind]. eexists. split; [done|]. by constructor; cbn; try apply H'.
Qed.

Lemma launch_threads_witness : exists s, server_main (fun _ => []) 1 (fun i => 10 + i) (mkAcceptor false 3 []) HybridServer
    [bs "server"; bs "2"; bs "4"; bs "-n"] = Ok s /\ tcpNoDelay_ (options_ s) = true /\
  serving 1 (fun i => 10 + i) HybridServer 2 4 s.
Proof.
  destruct (launch_threads (fun _ => []) 1 (fun i => 10 + i) (mkAcceptor false 3 []) HybridServer (mkOptions 2 4 true)) as (s & E & H).
  - reflexivity.
  - split; vm_compute; congruence.
  - split; vm_compute; congruence.
  - exists s. split; [rewrite <- E; vm_compute; reflexivity|]. split; [|exact H].
    vm_compute in E. injection E as <-. reflexivity.
Defined.

(** The calls of [done] of the batch clients: the loop is told to quit at the last
    of them, and at no other; without clients it is never told. *)
Lemma dones_spec calls conn finished : 0 <= finished -> finished + Z.of_nat calls < 2 ^ 31 ->
  exists l, dones calls conn finished = Ok l /\ length l = calls /\
    forall i, (i < calls)%nat -> l !! i = Some (bool_decide (finished + Z.of_nat i + 1 = conn)).
Proof.
  revert finished. induction calls as [|calls IH]; intros f Hf Hc; [exists []; split_and!; [done|done|lia]|]. cbn [dones]. unfold Batch.done, int_.
  rewrite (proj2 (Z.leb_le _ _)), (proj2 (Z.ltb_lt _ _)) by lia. cbn [andb res_bind].
  destruct (IH (f + 1) ltac:(lia) ltac:(lia)) as (l & -> & L & H). cbn [res_bind]. eexists. split; [done|].
  split; [cbn; by rewrite L|]. intros [|i] Hi; cbn.
  - f_equal. destruct (Z.eqb_spec (f + 1) conn); case_bool_decide; lia || done.
  - rewrite H by lia. f_equal. apply bool_decide_ext. lia.
Qed.

Theorem batch_quits (conn : Z) (calls : nat) (input : list bytes) (H : 0 <= conn < 1000) (Hc : Z.of_nat calls = conn) :
  exists clients l, runClient conn input = Ok clients /\ length clients = calls /\
    (forall i c, clients !! i = Some c -> c = (bs "client-" ++ fmt_0wd 3 (Z.of_nat i + 1), Batch.SudokuClient_new input)) /\
    dones calls conn 0 = Ok l /\ (forall i, l !! i = Some true <-> (i < calls)%nat /\ Z.of_nat i + 1 = conn).
Proof.
  assert (N : forall n i, 0 <= i -> i + Z.of_nat n <= 1000 -> exists l, batch_clients i n input = Ok l /\ length l = n /\
    forall j c, l !! j = Some c -> c = (bs "client-" ++ fmt_0wd 3 (i + Z.of_nat j + 1), Batch.SudokuClient_new input)).
  { induction n as [|n IH]; intros i Hi Hn; [exists []; by split_and!|]. cbn [batch_clients].
    assert (Nm : batch_name i = Ok (bs "client-" ++ fmt_0wd 3 (i + 1))).
    { assert (A : forallb (fun i => zlen (bs "client-" ++ fmt_0wd 3 (Z.of_nat i + 1)) <? 32) (seq 0 1000) = true)
        by (vm_compute; reflexivity).
      rewrite forallb_forall in A. specialize (A (Z.to_nat i) ltac:(apply in_seq; lia)). rewrite Z2Nat.id in A by lia.
      unfold batch_name, Fmt_new. rewrite A. cbn [assert_ res_bind]. by rewrite snprintf_fits by lia. }
    rewrite Nm. cbn [res_bind]. destruct (IH (i + 1) ltac:(lia) ltac:(lia)) as (l & -> & L & K). cbn [res_bind].
    eexists. split; [done|]. split; [cbn; by rewrite L|]. intros [|j] c Hj.
    - injection Hj as <-. by rewrite Z.add_0_r.
    - rewrite (K j c Hj). do 3 f_equal. lia. }
  destruct (N (Z.to_nat conn) 0 ltac:(lia) ltac:(lia)) as (cl & E & L & K).
  destruct (dones_spec calls conn 0) as (l & Ed & Ld & D); [lia|lia|]. exists cl, l.
  split; [done|]. split; [lia|]. split; [intros i c Hi; by rewrite (K i c Hi)|]. split; [done|]. intros i. split.
  - intros Hi. pose proof (lookup_lt_Some _ _ _ Hi). rewrite D in Hi by lia. injection Hi as Hi. apply bool_decide_eq_true in Hi. lia.
  - intros [Hi Hq]. rewrite D by done. f_equal. apply bool_decide_eq_true. lia.
Qed.

Lemma batch_quits_witness : exists l, dones 2 2 0 = Ok l /\ (forall i, l !! i = Some true <-> (i < 2)%nat /\ Z.of_nat i + 1 = 2).
Proof. destruct (batch_quits 2 2 []) as (c & l & _ & _ & _ & E & H); [lia|reflexivity|]. exists l. split; [exact E|exact H]. Defined.
