(* ===== verification/Percentile.v ===== *)
(** * The report of the load test (examples/sudoku/percentile.h, loadtest.cc)

    [Percentile] sorts the latencies of a second, prints their extremes, mean and
    percentiles, and saves them with their histogram; [tock] makes one for the
    latencies of all the clients.  The mean divides an [int] sum: latencies in
    microseconds that add up to more than half an hour overflow it. *)

From Stdlib Require Import Sorted.
From stdpp Require Import gmap sorting.
From S2P Require Import Prelude Cstd Double Date Timestamp LogStream Stat SudokuClient.

(** ** Percentile *)

(** [std::accumulate] into an [int]. *)
Definition accumulate (l : list Z) : res Z := res_foldl (fun s x => int_ (s + x)) 0 l.

(** What is streamed if there are latencies; they are sorted. *)
Definition figures (l : list Z) : res (list item) :=
  match l, last l with
  | min :: _, Some max =>
      let* sum := accumulate l in
      let mean := sum ÷ s32 (zlen l) in
      let* median := getPercentile l 50 in
      let* p90 := getPercentile l 90 in
      let* p99 := getPercentile l 99 in
      Ok [ICString (Some (bs " min ")); IInt min; ICString (Some (bs " max ")); IInt max;
          ICString (Some (bs " avg ")); IInt mean; ICString (Some (bs " median ")); IInt median;
          ICString (Some (bs " p90 ")); IInt p90; ICString (Some (bs " p99 ")); IInt p99]
  | _, _ => Ok []
  end.

(** The constructor: the stream, and the latencies, which it sorts. *)
Definition Percentile_new (latencies : list Z) (infly : Z) : res (FixedBuffer * list Z) :=
  let head := [ICString (Some (bs "recv ")); IFmt (fmt_wd 6 (zlen latencies));
               ICString (Some (bs " in-fly ")); IInt infly] in
  let* stat := stream_all head (FixedBuffer_new kSmallBuffer) in
  let latencies := merge_sort Z.le latencies in
  let* items := figures latencies in
  let* stat := stream_all items stat in
  Ok (stat, latencies).

(** [save], what it appends to the file, in a build with assertions: the report,
    every latency, and the lines of the histogram; [places]: of the percentage,
    two, in the last line one. *)
Definition percentage (sum total : Z) : res double :=
  let* n := int_ (100 * sum) in Ok (ddiv (double_of_Z n) (double_of_Z total)).
Definition histogram_line (total places : Z) (line : Z * Z * Z) : res bytes :=
  let '(low, count, sum) := line in
  let* p := percentage sum total in
  Ok (fmt_wd 4 low ++ [SP] ++ fmt_wd 5 count ++ [SP] ++ fmt_wf 5 places p ++ [LF]).
Fixpoint histogram (total : Z) (lines : list (Z * Z * Z)) : res bytes :=
  match lines with
  | [] => Ok []
  | [line] => histogram_line total 1 line
  | line :: rest =>
      let* text := histogram_line total 2 line in
      let* rest := histogram total rest in Ok (text ++ rest)
  end.
Definition save_text (stat : bytes) (latencies : list Z) : res bytes :=
  match latencies with
  | [] => Ok []
  | _ =>
      let* lines := save latencies in
      let* hist := histogram (zlen latencies) lines in
      Ok (bs "# " ++ stat ++ [LF] ++ mjoin (map (fun x => bs "# " ++ fmt_d x ++ [LF]) latencies) ++ hist)
  end.

(** ** The load test *)

Definition client_name (i : Z) : bytes := bs "c" ++ fmt_0wd 4 (i + 1).
Definition make_clients (input : list bytes) (conn : Z) : list Loadtest.SudokuClient :=
  map (fun i => Loadtest.SudokuClient_new input (client_name (Z.of_nat i))) (seq 0 (Z.to_nat conn)).

(** [tick]: [send] for every client; [now i]: the time when the [i]-th one is
    told. *)
Fixpoint send_all (reqs : Z) (now : nat -> Timestamp) (cs : list Loadtest.SudokuClient) : res (list Loadtest.SudokuClient) :=
  match cs with
  | [] => Ok []
  | c :: cs =>
      let* c := Loadtest.send reqs (now O) c in
      let* cs := send_all reqs (fun i => now (S i)) cs in Ok (c :: cs)
  end.
Definition on_tick (rps : Z) (now : nat -> Timestamp) (t : Loadtest.SudokuLoadtest) (cs : list Loadtest.SudokuClient)
  : res (Loadtest.SudokuLoadtest * list Loadtest.SudokuClient) :=
  let* (reqs, t) := Loadtest.tick rps t in
  let* cs := (if reqs =? 0 then Ok cs else send_all reqs now cs) in
  Ok (t, cs).

(** The loop of [tock]; [infly] is an [int]. *)
Fixpoint report_all (cs : list Loadtest.SudokuClient) (latencies : list Z) (infly : Z)
  : res (list Z * Z * list Loadtest.SudokuClient) :=
  match cs with
  | [] => Ok (latencies, infly, [])
  | c :: cs =>
      let '(l, n, c) := Loadtest.report c in
      let* infly := int_ (infly + s32 n) in
      let* (r, cs) := report_all cs (latencies ++ l) infly in
      Ok (r, c :: cs)
  end.

(** [tock]: what is logged, the name of the file and what is appended to it, the
    next count. *)
Definition tock (count : Z) (cs : list Loadtest.SudokuClient)
  : res (bytes * (bytes * bytes) * Z * list Loadtest.SudokuClient) :=
  let* (r, cs) := report_all cs [] 0 in
  let '(latencies, infly) := r in
  let* (stat, latencies) := Percentile_new latencies infly in
  let text := toString stat in
  let name := snprintf 64 (bs "r" ++ fmt_0wd 4 count) in
  let* saved := save_text text latencies in
  let* count := int_ (count + 1) in
  Ok (text, (name, saved), count, cs).

(** ** The mean *)

Lemma accumulate_from l s : 0 <= s < 2 ^ 31 -> Forall (fun x => 0 <= x) l ->
  res_foldl (fun s x => int_ (s + x)) s l = if s + sum l <? 2 ^ 31 then Ok (s + sum l) else Err EUndefined.
Proof.
  intros Hs F. revert s Hs. induction F as [|x l Hx F IH]; intros s Hs; cbn [res_foldl sum foldr].
  - rewrite Z.add_0_r. by rewrite (proj2 (Z.ltb_lt _ _)) by lia.
  - assert (0 <= sum l) by (clear -F; unfold sum; induction F; cbn in *; lia). change (foldr Z.add 0 l) with (sum l).
    unfold int_ at 1. rewrite (proj2 (Z.leb_le _ _)) by lia. cbn [andb].
    destruct (Z.ltb_spec (s + x) (2 ^ 31)); cbn [res_bind].
    + rewrite IH by lia. by rewrite Z.add_assoc.
    + rewrite (proj2 (Z.ltb_ge _ _)) by lia. done.
Qed.

(** The sum of latencies is right as long as it fits in an [int], and undefined
    otherwise. *)
Theorem accumulate_spec l : Forall (fun x => 0 <= x) l ->
  accumulate l = if sum l <? 2 ^ 31 then Ok (sum l) else Err EUndefined.
Proof. intros F. apply (accumulate_from l 0); [lia|done]. Qed.

(** ** The report *)

Lemma sort_facts (l : list Z) : StronglySorted Z.le (merge_sort Z.le l) /\ merge_sort Z.le l ≡ₚ l.
Proof.
  split; [|apply merge_sort_Permutation].
  apply Sorted_StronglySorted; [intros x y z; lia|]. apply Sorted_merge_sort. intros x y. lia.
Qed.

Lemma sum_perm l1 l2 : l1 ≡ₚ l2 -> sum l1 = sum l2.
Proof. unfold sum. induction 1; cbn in *; lia. Qed.

(** [getPercentile] is the element of the nearest rank. *)
Definition rank (n percent : Z) : Z := (n * percent + 99) / 100 - 1.

Lemma getPercentile_rank l percent : 0 < zlen l < 2 ^ 32 -> 0 < percent <= 100 ->
  exists x, getPercentile l percent = Ok x /\ l !! Z.to_nat (rank (zlen l) percent) = Some x /\
    0 <= rank (zlen l) percent < zlen l.
Proof.
  intros Hl Hp. unfold getPercentile, rank. rewrite (proj2 (Z.ltb_lt 0 (zlen l))) by lia. cbn [assert_ res_bind].
  rewrite (proj2 (Z.ltb_lt 0 percent)) by lia. assert (1 <= zlen l * percent) by nia.
  assert (zlen l * percent <= zlen l * 100) by nia.
  rewrite (u64_small (zlen l * percent)) by lia. rewrite (u64_small (zlen l * percent + 99)) by lia.
  set (q := (zlen l * percent + 99) / 100).
  assert (Hq : 1 <= q <= zlen l) by (subst q; Z.to_euclidean_division_equations; lia).
  rewrite u64_small by lia. rewrite (proj2 (Z.ltb_lt _ _)) by lia. cbn [assert_ res_bind].
  destruct (l !! Z.to_nat (q - 1)) as [x|] eqn:E; [exists x; split_and!; (done || lia)|].
  apply lookup_ge_None in E. unfold zlen in *. lia.
Qed.

Lemma sorted_lookup_le (l : list Z) i j x y : StronglySorted Z.le l -> (i <= j)%nat ->
  l !! i = Some x -> l !! j = Some y -> x <= y.
Proof.
  intros S Hij Hi Hj. destruct (sorted_le_nth l i x S Hi) as [_ F]. rewrite Forall_forall in F. apply F.
  apply (list_elem_of_lookup_2 _ (j - i)). rewrite lookup_drop. by replace (i + (j - i))%nat with j by lia.
Qed.

Lemma percentile_mono l p q x y : StronglySorted Z.le l -> 0 < zlen l < 2 ^ 32 -> 0 < p <= q -> q <= 100 ->
  getPercentile l p = Ok x -> getPercentile l q = Ok y -> x <= y.
Proof.
  intros S Hl Hp Hq Ex Ey.
  destruct (getPercentile_rank l p) as (x' & E1 & L1 & _), (getPercentile_rank l q) as (y' & E2 & L2 & _); try lia.
  rewrite E1 in Ex. rewrite E2 in Ey. injection Ex as <-. injection Ey as <-.
  eapply sorted_lookup_le; [exact S| |exact L1|exact L2]. unfold rank.
  assert ((zlen l * p + 99) / 100 <= (zlen l * q + 99) / 100) by (apply Z.div_le_mono; nia). lia.
Qed.

Definition latency_ok (l : list Z) : Prop := Forall (fun x => 0 <= x < 2 ^ 31) l.

Lemma cstr_const (s : bytes) : std_find x00 s = length s -> cstr s = s.
Proof. intros E. unfold cstr. rewrite E. apply firstn_all. Qed.

(** The text of a report. *)
Definition report_text (n infly : Z) (figures : list Z) : bytes :=
  bs "recv " ++ fmt_wd 6 n ++ bs " in-fly " ++ fmt_d infly ++
  match figures with
  | [min; max; mean; median; p90; p99] =>
      bs " min " ++ fmt_d min ++ bs " max " ++ fmt_d max ++ bs " avg " ++ fmt_d mean ++
      bs " median " ++ fmt_d median ++ bs " p90 " ++ fmt_d p90 ++ bs " p99 " ++ fmt_d p99
  | _ => []
  end.

Lemma stream_all_app l1 l2 b : stream_all (l1 ++ l2) b = let* b := stream_all l1 b in stream_all l2 b.
Proof. apply res_foldl_app. Qed.

(** A report without latencies. *)
Theorem report_empty infly : - 2 ^ 31 <= infly < 2 ^ 31 ->
  exists b, Percentile_new [] infly = Ok (b, []) /\ toString b = report_text 0 infly [].
Proof.
  intros Hi. unfold Percentile_new. set (head := [_; _; _; _]).
  assert (T : concat (map text head) = report_text 0 infly []) by done.
  destruct (stream_short head) as (b & -> & Eb).
  - repeat constructor; cbn; try done; lia.
  - rewrite T. unfold report_text. rewrite !zlen_app. pose proof (fmt_d_short infly Hi).
    change (zlen (bs "recv ")) with 5. change (zlen (fmt_wd 6 0)) with 6. change (zlen (bs " in-fly ")) with 8.
    change (zlen (@nil byte)) with 0. unfold kSmallBuffer. lia.
  - exists b. cbn. by rewrite Eb.
Qed.

Lemma sum_bounds l lo hi : Forall (fun x => lo <= x <= hi) l -> zlen l * lo <= sum l <= zlen l * hi.
Proof.
  unfold sum. induction 1 as [|x l Hx _ IH]; [done|]. rewrite zlen_cons. cbn [foldr]. lia.
Qed.

Lemma last_lookup_z (l : list Z) : last l = l !! Nat.pred (length l).
Proof. apply last_lookup. Qed.

(** The extremes of sorted latencies. *)
Lemma sorted_extremes (s : list Z) : StronglySorted Z.le s -> s <> [] ->
  exists min max, head s = Some min /\ last s = Some max /\ min ∈ s /\ max ∈ s /\ Forall (fun x => min <= x <= max) s.
Proof.
  intros S Hs. destruct s as [|min s']; [done|]. set (s := min :: s') in *.
  destruct (last s) as [max|] eqn:El; [|by apply last_None in El].
  assert (Hmax : max ∈ s) by (by apply last_Some_elem_of).
  exists min, max. split_and!; [done..|by left|done|]. apply Forall_forall. intros x Hx.
  apply list_elem_of_lookup in Hx as [i Hi]. pose proof (lookup_lt_Some _ _ _ Hi). split.
  - eapply (sorted_lookup_le s 0 i); [done|lia|done|done].
  - rewrite last_lookup_z in El. eapply (sorted_lookup_le s i); [done| |exact Hi|exact El]. lia.
Qed.

(** The percentiles of sorted latencies are among them and in order. *)
Lemma percentiles_ok (s : list Z) : StronglySorted Z.le s -> 0 < zlen s < 2 ^ 32 ->
  exists median p90 p99, getPercentile s 50 = Ok median /\ getPercentile s 90 = Ok p90 /\ getPercentile s 99 = Ok p99 /\
    median ∈ s /\ p90 ∈ s /\ p99 ∈ s /\ median <= p90 <= p99.
Proof.
  intros S Hl. destruct (getPercentile_rank s 50 Hl) as (a & Ea & La & _); [lia|].
  destruct (getPercentile_rank s 90 Hl) as (b & Eb & Lb & _); [lia|].
  destruct (getPercentile_rank s 99 Hl) as (c & Ec & Lc & _); [lia|].
  exists a, b, c. split_and!; try done; try (by eapply list_elem_of_lookup_2).
  - by eapply (percentile_mono s 50 90); [done| | |lia|exact Ea|exact Eb].
  - by eapply (percentile_mono s 90 99); [done| | |lia|exact Eb|exact Ec].
Qed.

Lemma figures_text n infly a b c d e f : 0 <= n < 2 ^ 31 -> - 2 ^ 31 <= infly < 2 ^ 31 ->
  Forall (fun x => - 2 ^ 31 <= x < 2 ^ 31) [a; b; c; d; e; f] ->
  exists buf stat, stream_all [ICString (Some (bs "recv ")); IFmt (fmt_wd 6 n); ICString (Some (bs " in-fly ")); IInt infly]
      (FixedBuffer_new kSmallBuffer) = Ok stat /\
    stream_all [ICString (Some (bs " min ")); IInt a; ICString (Some (bs " max ")); IInt b;
          ICString (Some (bs " avg ")); IInt c; ICString (Some (bs " median ")); IInt d;
          ICString (Some (bs " p90 ")); IInt e; ICString (Some (bs " p99 ")); IInt f] stat = Ok buf /\
    toString buf = report_text n infly [a; b; c; d; e; f].
Proof.
  intros Hn Hi F. rewrite !Forall_cons in F. destruct F as (Ha & Hb & Hc & Hd & He & Hf & _).
  assert (Hw : zlen (fmt_wd 6 n) <= 11).
  { unfold fmt_wd, pad_left. rewrite zlen_app, zlen_replicate. pose proof (fmt_d_short n ltac:(lia)). lia. }
  set (head := [ICString (Some (bs "recv ")); _; _; _]). set (tail := [_; _; _; _; _; _; _; _; _; _; _; _]).
  assert (T : concat (map text (head ++ tail)) = report_text n infly [a; b; c; d; e; f]).
  { unfold report_text. cbn. by rewrite ?app_nil_r. }
  destruct (stream_short (head ++ tail)) as (buf & E & Eb).
  - repeat constructor; cbn; try done; lia.
  - rewrite T. unfold report_text. rewrite !zlen_app.
    pose proof (fmt_d_short _ Hi). pose proof (fmt_d_short _ Ha). pose proof (fmt_d_short _ Hb). pose proof (fmt_d_short _ Hc).
    pose proof (fmt_d_short _ Hd). pose proof (fmt_d_short _ He). pose proof (fmt_d_short _ Hf).
    change (zlen (bs "recv ")) with 5. change (zlen (bs " in-fly ")) with 8. change (zlen (bs " min ")) with 5.
    change (zlen (bs " max ")) with 5. change (zlen (bs " avg ")) with 5. change (zlen (bs " median ")) with 8.
    change (zlen (bs " p90 ")) with 5. change (zlen (bs " p99 ")) with 5. unfold kSmallBuffer. lia.
  - rewrite stream_all_app in E. apply res_bind_Ok in E as (stat & E1 & E2). exists buf, stat. by rewrite Eb, T.
Qed.

(** The report of a second whose latencies add up to less than 2^31: it tells
    their number, the smallest, the largest, the mean rounded down and three
    percentiles, all of them right, whatever the order of the latencies; they
    are left sorted. *)
Theorem report_figures (l : list Z) (infly : Z) : l <> [] -> latency_ok l -> zlen l < 2 ^ 31 ->
  sum l < 2 ^ 31 -> - 2 ^ 31 <= infly < 2 ^ 31 ->
  exists b s min max median p90 p99,
    Percentile_new l infly = Ok (b, s) /\ s ≡ₚ l /\ StronglySorted Z.le s /\
    toString b = report_text (zlen l) infly [min; max; sum l / zlen l; median; p90; p99] /\
    min ∈ l /\ max ∈ l /\ Forall (fun x => min <= x <= max) l /\
    median ∈ l /\ p90 ∈ l /\ p99 ∈ l /\ min <= median <= p90 /\ p90 <= p99 <= max /\ min <= sum l / zlen l <= max /\
    getPercentile s 50 = Ok median /\ getPercentile s 90 = Ok p90 /\ getPercentile s 99 = Ok p99.
Proof.
  intros Hne Hok Hlen Hsum Hi. destruct (sort_facts l) as [S P]. set (s := merge_sort Z.le l) in *.
  assert (Hz : zlen s = zlen l) by (unfold zlen; by rewrite P).
  assert (Hl : 0 < zlen l) by (destruct l; [done|rewrite zlen_cons; pose proof (zlen_nonneg l); lia]).
  assert (Hs : s <> []) by (intros E; rewrite E in Hz; rewrite <-Hz in Hl; done).
  destruct (sorted_extremes s S Hs) as (min & max & Eh & El & Hmin & Hmax & F).
  destruct (percentiles_ok s S) as (d & e & f & Ed & Ee & Ef & Hd & He & Hf & Hord); [lia|].
  assert (Hin : forall x, x ∈ s -> x ∈ l) by (intros x; by rewrite P).
  assert (Hr : forall x, x ∈ s -> min <= x <= max) by (by apply Forall_forall).
  assert (F' : Forall (fun x => min <= x <= max) l) by (apply Forall_forall; intros x Hx; apply Hr; by rewrite P).
  assert (Hb : forall x, x ∈ l -> 0 <= x < 2 ^ 31) by (by apply Forall_forall).
  pose proof (sum_bounds l min max F') as Hsb.
  assert (Hmean : min <= sum l / zlen l <= max) by (Z.to_euclidean_division_equations; nia).
  assert (Hsum0 : 0 <= sum l) by (pose proof (Hb min (Hin _ Hmin)); nia).
  assert (Ea : accumulate s = Ok (sum l)).
  { rewrite accumulate_spec.
    - rewrite (sum_perm s l P). by rewrite (proj2 (Z.ltb_lt _ _)).
    - apply Forall_forall. intros x Hx. apply Hb. by apply Hin. }
  destruct (figures_text (zlen l) infly min max (sum l / zlen l) d e f) as (b & st & E1 & E2 & Eb); [lia|done| |].
  { pose proof (Hb _ (Hin _ Hmin)). pose proof (Hb _ (Hin _ Hmax)). pose proof (Hb _ (Hin _ Hd)).
    pose proof (Hb _ (Hin _ He)). pose proof (Hb _ (Hin _ Hf)). repeat constructor; lia. }
  exists b, s, min, max, d, e, f. split.
  - unfold Percentile_new. rewrite E1. cbn [res_bind]. fold s.
    assert (Efig : figures s = Ok [ICString (Some (bs " min ")); IInt min; ICString (Some (bs " max ")); IInt max;
          ICString (Some (bs " avg ")); IInt (sum l / zlen l); ICString (Some (bs " median ")); IInt d;
          ICString (Some (bs " p90 ")); IInt e; ICString (Some (bs " p99 ")); IInt f]).
    { unfold figures. destruct s as [|m s']; [done|]. cbn in Eh. injection Eh as ->. rewrite El, Ea, Ed, Ee, Ef.
      cbn [res_bind]. rewrite Hz, s32_small, Z.quot_div_nonneg by lia. done. }
    rewrite Efig. cbn [res_bind]. by rewrite E2.
  - pose proof (Hr _ Hd). pose proof (Hr _ Hf). split_and!; try done; try lia; auto.
Qed.

(** When they add up to more, the mean is undefined: ten thousand answers in a
    second, a quarter of a second late each, are enough. *)
Theorem report_overflows (l : list Z) (infly : Z) : latency_ok l -> 2 ^ 31 <= sum l -> 0 <= zlen l < 2 ^ 31 ->
  - 2 ^ 31 <= infly < 2 ^ 31 -> Percentile_new l infly = Err EUndefined.
Proof.
  intros Hok Hsum Hlen Hi. destruct (sort_facts l) as [S P]. unfold Percentile_new. set (s := merge_sort Z.le l) in *.
  assert (Hs : s <> []).
  { intros E. pose proof (sum_perm s l P) as Es. rewrite E in Es. cbn in Es. lia. }
  destruct (figures_text (zlen l) infly 0 0 0 0 0 0) as (b & st & E1 & _); [done|done|by repeat constructor|].
  rewrite E1. cbn [res_bind]. destruct (sorted_extremes s S Hs) as (min & max & Eh & El & _).
  assert (Ea : accumulate s = Err EUndefined).
  { rewrite accumulate_spec, (sum_perm s l P).
    - by rewrite (proj2 (Z.ltb_ge _ _)).
    - rewrite P. eapply Forall_impl; [exact Hok|]. cbn. lia. }
  unfold figures. destruct s as [|m s']; [done|]. by rewrite El, Ea.
Qed.

(** ** A round of reports *)

Definition outstanding (c : Loadtest.SudokuClient) : Z := Z.of_nat (base.size (Loadtest.sendTime_ c)).

Lemma report_all_ok cs l n : 0 <= n -> n + sum (map outstanding cs) < 2 ^ 31 ->
  report_all cs l n = Ok (l ++ concat (map Loadtest.latencies_ cs), n + sum (map outstanding cs),
    map (fun c => Loadtest.received (Loadtest.sendTime_ c) [] c) cs).
Proof.
  revert l n. induction cs as [|c cs IH]; intros l n Hn Hs; cbn [report_all map concat sum foldr] in *.
  - by rewrite app_nil_r, Z.add_0_r.
  - assert (Ho : 0 <= outstanding c) by (unfold outstanding; lia).
    assert (0 <= sum (map outstanding cs)).
    { clear. unfold sum, outstanding. induction cs; cbn in *; lia. }
    change (foldr Z.add 0 (map outstanding cs)) with (sum (map outstanding cs)) in *.
    unfold Loadtest.report. fold (outstanding c). rewrite s32_small by lia.
    unfold int_. rewrite (proj2 (Z.leb_le _ _)), (proj2 (Z.ltb_lt _ _)) by lia. cbn [andb res_bind].
    rewrite IH by lia. cbn [res_bind]. by rewrite <-app_assoc, Z.add_assoc.
Qed.

(** [tock] reports every latency that the clients have measured since the last
    one, once, and what is under way; the clients start a new list. *)
Theorem tock_reports (count : Z) (cs : list Loadtest.SudokuClient) text name saved count' cs' :
  0 <= count < 2 ^ 31 - 1 -> sum (map outstanding cs) < 2 ^ 31 ->
  tock count cs = Ok (text, (name, saved), count', cs') ->
  count' = count + 1 /\ Forall (fun c => Loadtest.latencies_ c = []) cs' /\
  map outstanding cs' = map outstanding cs /\
  exists b s, Percentile_new (concat (map Loadtest.latencies_ cs)) (sum (map outstanding cs)) = Ok (b, s) /\
    text = toString b /\ s ≡ₚ concat (map Loadtest.latencies_ cs) /\ save_text text s = Ok saved.
Proof.
  intros Hc Ho E. unfold tock in E. rewrite report_all_ok in E by lia. cbn [res_bind app] in E. rewrite Z.add_0_l in E.
  destruct (Percentile_new _ _) as [[b s]|] eqn:Ep; [|done]. cbn [res_bind] in E.
  destruct (save_text (toString b) s) as [sv|] eqn:Es; [|done]. cbn [res_bind] in E.
  unfold int_ in E. rewrite (proj2 (Z.leb_le _ _)), (proj2 (Z.ltb_lt _ _)) in E by lia. cbn in E. injection E as <- <- <- <- <-.
  split; [done|]. split; [by apply Forall_map, Forall_true|]. split; [by rewrite map_map|].
  exists b, s. split_and!; try done. unfold Percentile_new in Ep.
  apply res_bind_Ok in Ep as (? & _ & Ep). apply res_bind_Ok in Ep as (? & _ & Ep).
  apply res_bind_Ok in Ep as (? & _ & Ep). injection Ep as _ <-. apply merge_sort_Permutation.
Qed.

Example a_second : (let* (b, s) := Percentile_new [40; 7; 12; 7] 3 in Ok (toString b, s)) =
  Ok (bs "recv      4 in-fly 3 min 7 max 40 avg 16 median 7 p90 40 p99 40", [7; 7; 12; 40]).
Proof. vm_compute. done. Qed.
Example a_histogram : save_text (bs "x") [7; 7; 12; 40] =
  Ok (bs "# x" ++ [LF] ++ bs "# 7" ++ [LF] ++ bs "# 7" ++ [LF] ++ bs "# 12" ++ [LF] ++ bs "# 40" ++ [LF] ++
      bs "   5     2 50.00" ++ [LF] ++ bs "  10     1 75.00" ++ [LF] ++ bs "  40     1 100.0" ++ [LF]).
Proof. vm_compute. done. Qed.
