(* ===== verification/Dummyload.v ===== *)
(** * The load generator (examples/procmon/dummyload.cc)

    A thread that is kept busy for a given part of every hundred intervals of
    ten milliseconds: the error diffusion that spreads the busy intervals, and
    the three shapes of load over time.  What the other threads compute while
    they are busy has no effect. *)

From S2P Require Import Prelude.

(** [g_busy] as it is set for each interval, and the sum [err]. *)
Record Load := mkLoad { err_ : Z; count_ : Z; busy_ : list bool }.

(** One turn of the loop of [load]. *)
Definition load_turn (percent : Z) (l : Load) : Load :=
  if 0 <? err_ l
  then mkLoad (err_ l + 2 * (percent - 100)) (count_ l + 1) (busy_ l ++ [true])
  else mkLoad (err_ l + 2 * percent) (count_ l) (busy_ l ++ [false]).

(** The state after [n] turns. *)
Definition after (percent : Z) (n : nat) : Load := Nat.iter n (load_turn percent) (mkLoad (2 * percent - 100) 0 []).

(** [load]: what it sets [g_busy] to. *)
Definition load (percent : Z) : res (list bool) :=
  let percent := Z.max 0 percent in
  let percent := Z.min 100 percent in
  let l := after percent 100 in
  assert! count_ l =? percent;
  Ok (busy_ l).

(** The percentages of one round of each shape; [cosine_at i] is what the
    conversion of [(1.0 + cos(i * 3.14159 / 100)) / 2 * g_percent + 0.5] gives. *)
Definition fixed_round (g_percent : Z) : list Z := [g_percent].
Definition cosine_round (cosine_at : Z -> Z) : list Z := map (fun i => cosine_at (Z.of_nat i)) (seq 0 200).
Definition sawtooh_round (g_percent : Z) : list Z := map (fun i => Z.of_nat i ÷ 100 * g_percent) (seq 0 101).

(** ** Properties *)

(** The number of busy intervals among the first ones. *)
Definition busy_count (l : list bool) : Z := zlen (filter (fun b => b = true) l).

(** After any number of turns. *)
Record load_inv (percent : Z) (n : nat) (l : Load) : Prop := mkLoadInv {
  li_length : length (busy_ l) = n;
  li_count : count_ l = busy_count (busy_ l);
  li_err : err_ l = 2 * percent - 100 + 2 * (percent * Z.of_nat n - 100 * count_ l);
  li_bound : 2 * percent - 200 < err_ l <= 2 * percent;
}.

Lemma load_turn_inv percent n l : 0 <= percent <= 100 -> load_inv percent n l -> load_inv percent (S n) (load_turn percent l).
Proof.
  intros Hp [H1 H2 H3 H4]. unfold load_turn. destruct (Z.ltb_spec 0 (err_ l)); split; cbn [err_ count_ busy_].
  - rewrite length_app, H1. cbn. lia.
  - unfold busy_count in *. rewrite filter_app, zlen_app, <-H2. done.
  - lia.
  - lia.
  - rewrite length_app, H1. cbn. lia.
  - unfold busy_count in *. rewrite filter_app, zlen_app, <-H2. change (zlen (filter _ [false])) with 0. lia.
  - lia.
  - lia.
Qed.

Lemma load_turns_inv percent n : 0 <= percent <= 100 ->
  load_inv percent n (after percent n).
Proof.
  intros Hp. induction n as [|n IH]; [|by apply load_turn_inv].
  split; cbn [after Nat.iter nat_rect err_ count_ busy_]; [done|done|lia|lia].
Qed.

Lemma after_step percent n : exists b, busy_ (after percent (S n)) = busy_ (after percent n) ++ [b].
Proof. unfold after. cbn. unfold load_turn at 1. case_match; cbn [busy_]; by eexists. Qed.

Lemma after_length percent n : length (busy_ (after percent n)) = n.
Proof.
  induction n as [|n IH]; [done|]. destruct (after_step percent n) as (b & ->). rewrite length_app, IH. cbn. lia.
Qed.

Lemma after_prefix percent n m : (n <= m)%nat -> busy_ (after percent n) = take n (busy_ (after percent m)).
Proof.
  induction 1 as [|m Hm IH]; [by rewrite take_ge by by rewrite after_length|].
  destruct (after_step percent m) as (b & ->). rewrite take_app_le; [done|]. by rewrite after_length.
Qed.

(** The busy part of a second of load: the assertion holds for every argument,
    there are a hundred intervals, as many of them busy as asked for, and they
    are spread evenly: after each [n] of them, the number of busy ones is its part
    of [n], rounded. *)
Theorem load_spreads percent : exists l, load percent = Ok l /\ length l = 100%nat /\
  let p := Z.min 100 (Z.max 0 percent) in
  busy_count l = p /\ forall n, (n <= 100)%nat -> Z.abs (100 * busy_count (take n l) - p * Z.of_nat n) <= 50.
Proof.
  set (p := Z.min 100 (Z.max 0 percent)). assert (Hp : 0 <= p <= 100) by lia. unfold load. fold p.
  destruct (load_turns_inv p 100 Hp) as [H1 H2 H3 H4]. pose proof (fun n => after_prefix p n 100) as Hpre.
  generalize dependent (after p 100). intros l H1 H2 H3 H4 Hpre. assert (Ec : count_ l = p) by lia.
  rewrite Ec, Z.eqb_refl. cbn [assert_ res_bind]. exists (busy_ l).
  split; [done|]. split; [done|]. cbv zeta. split; [lia|]. intros n Hn. rewrite <-(Hpre n Hn).
  destruct (load_turns_inv p n Hp) as [_ E2 E3 E4]. lia.
Qed.

(** The saw tooth is flat until its last point: the division is one of integers. *)
Lemma sawtooh_flat g i : (i < 100)%nat -> nth_error (sawtooh_round g) i = Some 0.
Proof.
  intros Hi. unfold sawtooh_round. rewrite nth_error_map. rewrite nth_error_seq.
  replace (Nat.ltb i 101) with true by (symmetry; apply Nat.ltb_lt; lia). cbn. rewrite Z.quot_small by lia. done.
Qed.
