(* ===== verification/LoadThreads.v ===== *)
(** * The threads and the calibration of the load generator (examples/procmon/dummyload.cc)

    The rest of dummyload: how many cycles a thread burns at a time, the
    arguments, and the threads that wait for [g_busy] on the condition while
    [main] sets it, interval by interval. *)

From Stdlib Require Import SpecFloat.
From stdpp Require Import relations.
From S2P Require Import Prelude Cstd Double Date Timestamp Thread Dummyload.

(** ** Calibration *)

Definition dadd (x y : double) : double := SFadd 53 1024 x y.
Definition dsqrt (x : double) : double := SFsqrt 53 1024 x.

(** [busy(cycles)], by the number of turns. *)
Definition busy_turn (i : Z) (result : double) : double :=
  dadd result (dmul (dsqrt (double_of_Z i)) (dsqrt (double_of_Z (i + 1)))).
Definition busy (cycles : Z) : double :=
  fold_left (fun r i => busy_turn (Z.of_nat i) r) (seq 0 (Z.to_nat cycles)) (double_of_Z 0).

Definition timeDifference (high low : Timestamp) : res double :=
  let* diff := timeDifference_us high low in
  Ok (ddiv (double_of_Z diff) (double_of_Z Timestamp.kMicroSecondsPerSecond)).

(** [getSeconds], from the two readings of the clock around [busy]. *)
Definition getSeconds (start stop : Timestamp) : res double := timeDifference stop start.

Definition a_thousandth : double := ddiv (double_of_Z 1) (double_of_Z 1000).
Definition too_fast (clock : Timestamp * Timestamp) : res bool :=
  let* s := getSeconds clock.1 clock.2 in Ok (SFltb s a_thousandth).

(** The loop of [findCycles], from turn [n]; the readings of the clock are those
    of each turn. *)
Definition more_cycles (c : Z) : res Z := let* q := int_ (c ÷ 4) in int_ (c + q).
Fixpoint findCycles_loop (fuel : nat) (clock : nat -> Timestamp * Timestamp) (n : nat) (g_cycles : Z) : res Z :=
  match fuel with
  | O => Err EFuel
  | S fuel =>
      let* fast := too_fast (clock n) in
      if fast : bool then let* c := more_cycles g_cycles in findCycles_loop fuel clock (S n) c else Ok g_cycles
  end.
Definition findCycles (fuel : nat) (clock : nat -> Timestamp * Timestamp) : res (Z * bytes) :=
  let* c := findCycles_loop fuel clock 0 1000 in Ok (c, bs "cycles " ++ fmt_d c ++ [LF]).

(** The cycles of turn [n]; at [last_turn] the next sum is not an [int]. *)
Definition cycles_at (n : nat) : Z := Nat.iter n (fun c => c + c ÷ 4) 1000.
Definition last_turn : nat := 65.

Lemma more_cycles_small c : 0 <= c <= 1717986918 -> more_cycles c = Ok (c + c ÷ 4).
Proof.
  intros H. unfold more_cycles, int_. pose proof (Z.quot_pos c 4 ltac:(lia) ltac:(lia)).
  pose proof (Z.mul_quot_le c 4 ltac:(lia) ltac:(lia)).
  rewrite (proj2 (Z.leb_le _ _)), (proj2 (Z.ltb_lt _ _)) by lia. cbn [andb res_bind].
  by rewrite (proj2 (Z.leb_le _ _)), (proj2 (Z.ltb_lt _ _)) by lia.
Qed.
(** A difference of less than a thousandth of a second is too fast, as the
    comparison of doubles has it for every difference up to four. *)
Lemma too_fast_us start stop : 0 <= stop - start < 4000 -> too_fast (start, stop) = Ok (stop - start <? 1000).
Proof.
  intros H. unfold too_fast, getSeconds, timeDifference, timeDifference_us. cbn [fst snd].
  rewrite int64_small by lia. cbn [res_bind].
  assert (A : forallb (fun n => Bool.eqb
      (SFltb (ddiv (double_of_Z (Z.of_nat n)) (double_of_Z Timestamp.kMicroSecondsPerSecond)) a_thousandth)
      (Z.of_nat n <? 1000)) (seq 0 4000) = true) by (vm_compute; reflexivity).
  rewrite forallb_forall in A. specialize (A (Z.to_nat (stop - start))). rewrite Z2Nat.id in A by lia.
  rewrite (eqb_prop _ _ (A ltac:(apply in_seq; lia))). done.
Qed.

Lemma cycles_at_small n : (n < last_turn)%nat -> 0 <= cycles_at n <= 1717986918.
Proof.
  intros H. assert (A : forallb (fun n => (0 <=? cycles_at n) && (cycles_at n <=? 1717986918)) (seq 0 last_turn) = true)
    by (vm_compute; reflexivity).
  rewrite forallb_forall in A. specialize (A n ltac:(apply in_seq; lia)). lia.
Qed.

Lemma findCycles_loop_spec clock k n fuel : (forall n, is_ok (too_fast (clock n)) = true) ->
  (n + k = last_turn)%nat -> (k < fuel)%nat -> (forall i, (i < n)%nat -> too_fast (clock i) = Ok true) ->
  (exists m, (m <= last_turn)%nat /\ too_fast (clock m) = Ok false /\ (forall i, (i < m)%nat -> too_fast (clock i) = Ok true) /\
     findCycles_loop fuel clock n (cycles_at n) = Ok (cycles_at m)) \/
  (forall i, (i <= last_turn)%nat -> too_fast (clock i) = Ok true) /\
     findCycles_loop fuel clock n (cycles_at n) = Err EUndefined.
Proof.
  intros Hc. revert n fuel. induction k as [|k IH]; intros n [|fuel] Hn Hf Hl; try lia; cbn [findCycles_loop];
    pose proof (Hc n) as Ho; destruct (too_fast (clock n)) as [[]|] eqn:E; try done; cbn [res_bind].
  - right. assert (n = last_turn) as -> by lia. split; [|by vm_compute].
    intros i Hi. destruct (decide (i = last_turn)) as [->|]; [done|apply Hl; lia].
  - left. exists n. split; [lia|done].
  - rewrite (more_cycles_small _ (cycles_at_small n ltac:(lia))). cbn [res_bind].
    apply (IH (S n) fuel); [lia|lia|]. intros i Hi. destruct (decide (i = n)) as [->|]; [done|apply Hl; lia].
  - left. exists n. split; [lia|done].
Qed.

(** The calibration ends after sixty-six turns at most, whatever the clock
    says: at the first turn that takes a thousandth of a second, with the cycles
    of that turn; on a machine that needs less than that even for the last turn,
    the next sum is not an int, which is undefined. *)
Theorem findCycles_terminates (clock : nat -> Timestamp * Timestamp) (fuel : nat)
    (Hc : forall n, is_ok (too_fast (clock n)) = true) (Hf : (last_turn < fuel)%nat) :
  (exists n, (n <= last_turn)%nat /\ too_fast (clock n) = Ok false /\
     (forall i, (i < n)%nat -> too_fast (clock i) = Ok true) /\
     findCycles fuel clock = Ok (cycles_at n, bs "cycles " ++ fmt_d (cycles_at n) ++ [LF]) /\
     1000 <= cycles_at n < 2 ^ 31) \/
  (forall i, (i <= last_turn)%nat -> too_fast (clock i) = Ok true) /\ findCycles fuel clock = Err EUndefined.
Proof.
  unfold findCycles. change (findCycles_loop fuel clock 0 1000) with (findCycles_loop fuel clock 0 (cycles_at 0)).
  destruct (findCycles_loop_spec clock last_turn 0 fuel Hc eq_refl Hf) as [(n & Hn & E & Hi & ->)|[H ->]]; [lia| |by right].
  left. exists n. split_and!; try done.
  all: assert (A : forallb (fun n => (1000 <=? cycles_at n) && (cycles_at n <? 2 ^ 31)) (seq 0 (S last_turn)) = true)
    by (vm_compute; reflexivity); rewrite forallb_forall in A; specialize (A n ltac:(apply in_seq; lia)); lia.
Qed.

Lemma cycles_at_pos n : 0 <= cycles_at n.
Proof.
  induction n as [|n IH]; [done|]. change (cycles_at (S n)) with (cycles_at n + cycles_at n ÷ 4).
  pose proof (Z.quot_pos (cycles_at n) 4). lia.
Qed.

(** A machine of two million cycles in a second. *)
Definition ex_clock (n : nat) : Timestamp * Timestamp := (5000, 5000 + Z.min 3000 (cycles_at n / 2)).

Lemma findCycles_terminates_witness : exists n, too_fast (ex_clock n) = Ok false /\
  findCycles 66 ex_clock = Ok (cycles_at n, bs "cycles " ++ fmt_d (cycles_at n) ++ [LF]).
Proof.
  destruct (findCycles_terminates ex_clock 66) as [(n & Hn & E & Hi & Hr & _)|[_ E]].
  - intros n. unfold ex_clock. pose proof (cycles_at_pos n). pose proof (Z.div_pos (cycles_at n) 2).
    by rewrite too_fast_us by lia.
  - unfold last_turn. lia.
  - exists n. split; [exact E|exact Hr].
  - assert (X : is_ok (findCycles 66 ex_clock) = true) by (vm_compute; reflexivity). by rewrite E in X.
Defined.

(** ** The arguments *)

Definition of_option {A} (o : option A) : res A := match o with Some a => Ok a | None => Err EUndefined end.

(** What [main] makes of [argv]: the usage, or the shape, [g_percent] and the
    number of threads. *)
Inductive arguments : Type := Usage (text : bytes) | Run (shape : byte) (g_percent numThreads : Z).

Definition main_args (argv : list bytes) : res arguments :=
  match argv with
  | _ :: shape :: rest =>
      let* g_percent := match rest with a :: _ => of_option (atoi a) | [] => Ok 43 end in
      let* numThreads := match rest with _ :: a :: _ => of_option (atoi a) | _ => Ok 1 end in
      Ok (Run (hd x00 (cstr shape)) g_percent numThreads)
  | _ => Ok (Usage (bs "Usage: " ++ cstr (hd [] argv) ++ bs " [fctsz] [percent] [num_threads]" ++ [LF]))
  end.

(** [static_cast<int>((1.0 + cos(i * 3.14159 / 100)) / 2 * g_percent + 0.5)],
    from the cosine. *)
Definition cosine_percent (cosine : double) (g_percent : Z) : res Z :=
  let x := dmul (ddiv (dadd (double_of_Z 1) cosine) (double_of_Z 2)) (double_of_Z g_percent) in
  let* p := int64_of_double (dadd x (ddiv (double_of_Z 1) (double_of_Z 2))) in int_ p.

Example cosine_ends : map (fun c => cosine_percent (double_of_Z c) 82) [1; 0; -1] = [Ok 82; Ok 41; Ok 0].
Proof. vm_compute. reflexivity. Qed.

(** The rounds of the three shapes; any other letter has none. *)
Definition round_of (cosine_at : Z -> Z) (shape : byte) (g_percent : Z) : option (list Z) :=
  if bool_decide (shape = x66) then Some (fixed_round g_percent)
  else if bool_decide (shape = x63) then Some (cosine_round cosine_at)
  else if bool_decide (shape = x7a) then Some (sawtooh_round g_percent)
  else None.

(** What [g_busy] is set to in interval [n] of rounds without end. *)
Definition percent_at (round : list Z) (k : nat) : Z := nth (k mod length round)%nat round 0.
Definition interval (round : list Z) (n : nat) : res bool :=
  let* l := load (percent_at round (n / 100)%nat) in of_option (l !! (n mod 100)%nat).

(** ** The threads *)

(** A thread of [threadFunc]: at the test of [g_done]; about to test [g_busy]
    with the mutex; waiting on [g_cond]; in [busy]; finished. *)
Inductive burner : Set := AtDone | AtBusy | Asleep | Burning | Finished.
#[export] Instance burner_eq_dec : EqDecision burner.
Proof. solve_decision. Defined.

(** [main]: in the switch, at interval [n]; past it, before the last
    notification; at the join of thread [i]. *)
Inductive main_at : Set := InSwitch (n : nat) | Stopping | Joining (i : nat).

Record Program := mkProgram { g_done : Z; g_busy : bool; threads : list burner; main_ : main_at }.

Definition program_new (numThreads : Z) : Program :=
  mkProgram 0 false (replicate (Z.to_nat numThreads) AtDone) (InSwitch 0).

Definition wake (b : burner) : burner := match b with Asleep => AtBusy | _ => b end.

(** [g_busy = b; g_cond.notifyAll();] *)
Definition set_busy (b : bool) (m : main_at) (s : Program) : Program :=
  mkProgram (g_done s) b (map wake (threads s)) m.
Definition set_thread (i : nat) (b : burner) (s : Program) : Program :=
  mkProgram (g_done s) (g_busy s) (<[i := b]> (threads s)) (main_ s).
Definition set_main (m : main_at) (s : Program) : Program := mkProgram (g_done s) (g_busy s) (threads s) m.

(** [round]: the round of the shape, if it has one. *)
Inductive program_step (round : option (list Z)) (s : Program) : Program -> Prop :=
| main_interval r n b : main_ s = InSwitch n -> round = Some r -> interval r n = Ok b ->
    program_step round s (set_busy b (InSwitch (S n)) s)
| main_done n : main_ s = InSwitch n -> round = None ->
    program_step round s (mkProgram (getAndAdd 32 1 (g_done s)).2 (g_busy s) (threads s) Stopping)
| main_stop : main_ s = Stopping -> program_step round s (set_busy true (Joining 0) s)
| main_join i : main_ s = Joining i -> threads s !! i = Some Finished ->
    program_step round s (set_main (Joining (S i)) s)
| thread_done i : threads s !! i = Some AtDone ->
    program_step round s (set_thread i (if get (g_done s) =? 0 then AtBusy else Finished) s)
| thread_busy i : threads s !! i = Some AtBusy ->
    program_step round s (set_thread i (if g_busy s then Burning else Asleep) s)
| thread_spurious i : threads s !! i = Some Asleep -> program_step round s (set_thread i AtBusy s)
| thread_burns i : threads s !! i = Some Burning -> program_step round s (set_thread i AtDone s).

(** [main] has returned. *)
Definition returned (s : Program) : Prop := main_ s = Joining (length (threads s)).

(** ** Properties *)

(** An interval of the round, whatever the percentages are. *)
Lemma intervals_of round k : exists l, length l = 100%nat /\
  busy_count l = Z.min 100 (Z.max 0 (percent_at round k)) /\
  forall j, (j < 100)%nat -> exists b, l !! j = Some b /\ interval round (100 * k + j) = Ok b.
Proof.
  destruct (load_spreads (percent_at round k)) as (l & E & L & C & _). exists l. split_and!; [done|done|].
  intros j Hj. destruct (lookup_lt_is_Some_2 l j ltac:(lia)) as [b Hb]. exists b. split; [done|].
  unfold interval. replace (100 * k + j)%nat with (j + k * 100)%nat by lia.
  rewrite Nat.div_add, Nat.Div0.mod_add, Nat.div_small, Nat.mod_small by lia. cbn [Nat.add].
  rewrite E. cbn [res_bind]. by rewrite Hb.
Qed.

Lemma interval_ok round n : exists b, interval round n = Ok b.
Proof.
  destruct (intervals_of round (n / 100)) as (l & _ & _ & H).
  destruct (H (n mod 100)%nat) as (b & _ & E); [by apply Nat.mod_upper_bound|]. exists b. by rewrite <- Nat.div_mod in E.
Qed.

Record program_inv (round : option (list Z)) (n : nat) (s : Program) : Prop := mkProgramInv {
  gi_length : length (threads s) = n;
  gi_asleep : Asleep ∈ threads s -> g_busy s = false;
  gi_main : match main_ s with
    | InSwitch _ => g_done s = 0 /\ Finished ∉ threads s
    | Stopping => g_done s = 1 /\ round = None
    | Joining i => g_done s = 1 /\ round = None /\ g_busy s = true /\ (i <= n)%nat /\
        forall j, (j < i)%nat -> threads s !! j = Some Finished
    end;
}.

Lemma asleep_insert (l : list burner) i b : b <> Asleep -> Asleep ∈ <[i := b]> l -> Asleep ∈ l.
Proof.
  intros Hb H. apply list_elem_of_lookup in H as [j Hj]. apply list_lookup_insert_Some in Hj as [(-> & -> & _)|[_ Hj]]; [done|].
  by eapply list_elem_of_lookup_2.
Qed.
Lemma finished_insert (l : list burner) i b : b <> Finished -> Finished ∉ l -> Finished ∉ <[i := b]> l.
Proof.
  intros Hb H Hin. apply list_elem_of_lookup in Hin as [j Hj]. apply list_lookup_insert_Some in Hj as [(-> & -> & _)|[_ Hj]]; [done|].
  by apply H; eapply list_elem_of_lookup_2.
Qed.
Lemma wake_awake l : Asleep ∉ map wake l.
Proof. intros H. apply list_elem_of_fmap in H as (b & E & _). by destruct b. Qed.
Lemma wake_finished l : Finished ∈ map wake l -> Finished ∈ l.
Proof. intros H. apply list_elem_of_fmap in H as (b & E & H). by destruct b. Qed.

(** A thread that moves from [w] to [b]. *)
Lemma set_thread_inv round n s i w b : program_inv round n s -> threads s !! i = Some w -> w <> Finished ->
  (b = Asleep -> g_busy s = false) -> (b = Finished -> g_done s <> 0) -> program_inv round n (set_thread i b s).
Proof.
  intros [I1 I2 I3] Hi Hw Ha Hf. constructor; cbn [set_thread g_done g_busy threads main_].
  - by rewrite length_insert.
  - destruct (decide (b = Asleep)) as [->|Hb]; [by intros _; apply Ha|]. intros H. by apply I2, (asleep_insert _ i b).
  - destruct (main_ s) as [m| |m]; [|done|].
    + destruct I3 as [E F]. split; [done|]. apply finished_insert; [|done]. intros ->. by apply Hf.
    + destruct I3 as (E & R & B & L & F). split_and!; try done. intros j Hj. rewrite list_lookup_insert_ne; [by apply F|].
      intros ->. specialize (F j Hj). congruence.
Qed.

Lemma program_step_inv round n s s' : program_inv round n s -> program_step round s s' -> program_inv round n s'.
Proof.
  intros I S. pose proof I as [I1 I2 I3]. destruct S as [r m b Em Er Ei|m Em Er|Em|i Em Hi|i Hi|i Hi|i Hi|i Hi].
  - rewrite Em in I3. destruct I3 as [E F]. constructor; cbn; [by rewrite length_map|by intros H; apply wake_awake in H|].
    split; [done|]. intros H. by apply F, wake_finished.
  - rewrite Em in I3. destruct I3 as [E F]. constructor; cbn [g_done g_busy threads main_]; [done|done|]. by rewrite E.
  - rewrite Em in I3. destruct I3 as [E F]. constructor; cbn; [by rewrite length_map|by intros H; apply wake_awake in H|].
    split_and!; try done; lia.
  - rewrite Em in I3. destruct I3 as (E & R & B & L & F). constructor; cbn; [done|done|]. pose proof (lookup_lt_Some _ _ _ Hi).
    split_and!; try done; [lia|]. intros j Hj. destruct (decide (j = i)) as [->|]; [done|apply F; lia].
  - eapply set_thread_inv; [done|done|done|by destruct (_ =? _)|]. unfold get. intros Hf. destruct (Z.eqb_spec (g_done s) 0); done.
  - eapply set_thread_inv; [done|done|done|by destruct (g_busy s)|by destruct (g_busy s)].
  - by eapply set_thread_inv.
  - by eapply set_thread_inv.
Qed.

Lemma program_new_inv round numThreads : program_inv round (Z.to_nat numThreads) (program_new numThreads).
Proof.
  constructor; cbn; [apply length_replicate|by intros _|]. split; [done|]. intros H. by apply elem_of_replicate in H as [? _].
Qed.

Lemma program_reachable round numThreads s : rtc (program_step round) (program_new numThreads) s ->
  program_inv round (Z.to_nat numThreads) s.
Proof.
  intros R. pose proof (program_new_inv round numThreads) as I.
  induction R as [|s1 s2 s3 S _ IH]; [done|]. apply IH. by eapply program_step_inv.
Qed.

(** The steps left once [main] joins. *)
Definition steps_of (b : burner) : nat :=
  match b with Finished => 0 | AtDone => 1 | Burning => 2 | AtBusy => 3 | Asleep => 4 end.
Definition steps_left (s : Program) : nat :=
  list_sum (map steps_of (threads s)) + (match main_ s with Joining i => length (threads s) - i | _ => 0 end).

Lemma steps_insert l i w b : l !! i = Some w ->
  (list_sum (map steps_of (<[i := b]> l)) + steps_of w = list_sum (map steps_of l) + steps_of b)%nat.
Proof. revert i. induction l as [|x l IH]; intros [|i] H; [done|done| |].
  - injection H as ->. cbn. lia.
  - specialize (IH i H). change (<[S i := b]> (x :: l)) with (x :: <[i := b]> l). unfold list_sum in *. cbn [map foldr]. lia.
Qed.

Lemma joining_step round n s s' i : program_inv round n s -> main_ s = Joining i -> program_step round s s' ->
  (steps_left s' < steps_left s)%nat /\ exists j, main_ s' = Joining j.
Proof.
  intros [I1 I2 I3] Em S. rewrite Em in I3. destruct I3 as (E & R & B & L & F).
  assert (T : forall k w b, threads s !! k = Some w -> (steps_of b < steps_of w)%nat ->
    (steps_left (set_thread k b s) < steps_left s)%nat /\ exists j, main_ (set_thread k b s) = Joining j).
  { intros k w b Hk Hb. split; [|by exists i]. unfold steps_left. cbn [set_thread threads main_]. rewrite length_insert, Em.
    pose proof (steps_insert _ k w b Hk). lia. }
  destruct S as [r m b Em' Er Ei|m Em' Er|Em'|j Em' Hj|j Hj|j Hj|j Hj|j Hj]; try congruence.
  - assert (j = i) as -> by congruence. split; [|by eexists]. unfold steps_left. cbn [set_main threads main_]. rewrite Em.
    pose proof (lookup_lt_Some _ _ _ Hj). lia.
  - eapply T; [done|]. unfold get. rewrite E. cbn. lia.
  - eapply T; [done|]. rewrite B. cbn. lia.
  - apply list_elem_of_lookup_2 in Hj. by rewrite I2 in B.
  - eapply T; [done|]. cbn. lia.
Qed.

Lemma joining_goes_on round n s i : program_inv round n s -> main_ s = Joining i -> ~ returned s -> exists s', program_step round s s'.
Proof.
  intros [I1 I2 I3] Em Hr. rewrite Em in I3. destruct I3 as (E & R & B & L & F).
  assert (Hl : (i < length (threads s))%nat) by (unfold returned in Hr; rewrite Em in Hr; destruct (decide (i = length (threads s))); [congruence|lia]).
  apply lookup_lt_is_Some_2 in Hl as [[] Hi]; eexists; [by eapply thread_done|by eapply thread_busy|by eapply thread_spurious|
    by eapply thread_burns|by eapply main_join].
Qed.

(** C30: The load generator with any number of threads, in every interleaving with
    [main].  No thread sleeps while [g_busy] is set and none ends before [g_done]
    is.  With one of the three shapes [main] stays in its loop for ever, as do the
    threads, and in each hundred intervals as many are busy as the shape asks for.
    With any other letter [main] gets to the joins unhindered; from there every
    step, of [main] or of a thread, brings the end nearer, some step is possible
    until [main] has returned, and then every thread has finished. *)
Theorem load_threads (round : option (list Z)) (numThreads : Z) (s : Program)
    (R : rtc (program_step round) (program_new numThreads) s) :
  (Asleep ∈ threads s -> g_busy s = false) /\ (Finished ∈ threads s -> g_done s <> 0) /\
  (forall r, round = Some r ->
     (exists n b, main_ s = InSwitch n /\ program_step round s (set_busy b (InSwitch (S n)) s)) /\ Finished ∉ threads s /\
     forall k, exists l, length l = 100%nat /\ busy_count l = Z.min 100 (Z.max 0 (percent_at r k)) /\
       forall j, (j < 100)%nat -> exists b, l !! j = Some b /\ interval r (100 * k + j) = Ok b) /\
  (round = None -> match main_ s with
     | InSwitch _ | Stopping => exists s', program_step round s s' /\ main_ s' <> main_ s
     | Joining i =>
         (forall s', program_step round s s' -> (steps_left s' < steps_left s)%nat /\ exists j, main_ s' = Joining j) /\
         (~ returned s -> exists s', program_step round s s') /\
         (returned s -> Forall (fun b => b = Finished) (threads s))
     end).
Proof.
  apply program_reachable in R as I. pose proof I as [I1 I2 I3]. split_and!.
  - done.
  - destruct (main_ s); [by destruct I3| |]; destruct I3 as [-> _]; done.
  - intros r ->. destruct (main_ s) as [n| |i] eqn:Em; [|by destruct I3|by destruct I3 as (_ & ? & _)].
    destruct I3 as [E F]. split_and!; [|done|apply intervals_of].
    destruct (interval_ok r n) as [b Hb]. exists n, b. split; [done|]. by eapply main_interval.
  - intros ->. destruct (main_ s) as [n| |i] eqn:Em.
    + eexists. split; [by eapply main_done|done].
    + eexists. split; [by eapply main_stop|done].
    + split_and!; [intros s'; by eapply joining_step|by eapply joining_goes_on|].
      intros Hr. unfold returned in Hr. rewrite Em in Hr. injection Hr as ->. destruct I3 as (_ & _ & _ & _ & F).
      apply Forall_lookup. intros j b Hj. rewrite F in Hj by (by eapply lookup_lt_Some). congruence.
Qed.

(** One thread and no shape: it waits when [main] leaves the switch. *)
Definition ex_joining : Program := mkProgram 1 true [AtBusy] (Joining 0).
Lemma ex_joining_reachable : rtc (program_step None) (program_new 1) ex_joining.
Proof.
  eapply rtc_l; [by apply (thread_done _ _ 0)|]. cbn. eapply rtc_l; [by apply (thread_busy _ _ 0)|]. cbn.
  eapply rtc_l; [by eapply main_done|]. cbn. eapply rtc_l; [by apply main_stop|]. apply rtc_refl.
Qed.

Lemma load_threads_witness : (exists s', program_step None ex_joining s') /\
  (forall s', program_step None ex_joining s' -> (steps_left s' < 4)%nat).
Proof.
  destruct (load_threads None 1 ex_joining ex_joining_reachable) as (_ & _ & _ & H).
  destruct (H eq_refl) as (D & P & _). split; [by apply P|]. intros s' S. apply (D s' S).
Defined.
